(* ===== verification/_CoqProject ===== *)
-Q . S2P
Prelude.v
KErr.v
KList.v
Bitmap.v
CircBuf.v
RingBuf.v
Fifo.v
KState.v
KMonad.v
Sched.v
Pend.v
KInv.v
Mutex.v
PriInv.v
Sem.v
Task.v
Event.v
Queue.v
BufQueue.v
Inv.v
Moves.v
Create.v
KSys.v
Boot.v
SemSpec.v
Handover.v
MutexSpec.v
QueueSpec.v
EventSpec.v
BufQueueSpec.v
SchedSpec.v
Timeout.v
TickSpec.v
TaskSpec.v
TaskLife.v
TaskDel.v
PriSpec.v
Kernel.v
TimeSpec.v
TaskCalls.v
Mqtt.v
MqttSpec.v
Mem.v
MBlk.v
MBlkSpec.v
Mm.v
MmWord.v
MmList.v
MmLayout.v
MmFree.v
MmAlloc.v
MmSpec.v
MmRealloc.v
MmBoot.v
MmInit.v
MmCalls.v
Dyn.v
DynSpec.v
DynCalls.v
Timer.v
TimerSpec.v
TimerMsg.v
WorkQueue.v
WorkSpec.v
Coap.v
CoapSpec.v
CoapClient.v
Kv.v
KvLog.v
KvWp.v
KvOps.v
KvCalls.v
KvRecover.v
KvCrash.v
