(* ===== verification/Prelude.v ===== *)
(** * AliOS Things: the Rhino kernel and two message protocols, verified

    The repository holds study notes on AliOS Things together with its sources
    (src/AliOS-things).  This library models the Rhino real-time kernel
    (kernel/rhino/core, kernel/rhino/common) with its heap, and the MQTT packets
    and the CoAP client (framework/connectivity), and proves what they do.

    ** The program and its parts

    Tasks run by priority; the ready tasks of each priority form a ring
    (k_sched.c) indexed by a bitmap of non-empty rings (k_bitmap.h).  A task that
    waits stands on the wait list of an object (k_pend.c) and, with a timeout, on
    the tick list (k_tick.c), which the tick interrupt walks (k_time.c).  The
    objects are semaphores (k_sem.c, k_task_sem.c), mutexes with priority
    inheritance (k_mutex.c), queues of words (k_queue.c) and of byte messages
    (k_buf_queue.c), both over a ring buffer (k_ringbuf.c), and event flags
    (k_event.c).  Tasks are created, deleted, suspended, resumed and re-prioritised
    by k_task.c; k_sys.c starts the system and brackets interrupts.  Every call
    runs inside a critical section and ends by rescheduling.

    Memory comes from the heap (k_mm.c), which keeps free blocks on lists by size
    and small ones in a pool of fixed blocks (k_mm_blk.c).  Objects can be created
    in heap memory; the memory of a deleted task is freed later by a task of its
    own (k_dyn_mem_proc.c).  Software timers (k_timer.c) are run by a task that
    receives commands over a buffer queue and waits for the next deadline; work
    queues (k_workqueue.c) are run by worker tasks that wait on a semaphore, and
    delay works by timers.  All lists are the rings of k_list.h.

    On top, the connectivity framework has a codec for MQTT packets
    (mqtt/MQTTPacket) with a reader that works on a transport that delivers bytes
    in pieces, and a CoAP client (coap/iot-coap-c) that builds and parses
    messages, matches answers to requests and retransmits.

    ** How the code is modelled

    The globals and control blocks are the record [kstate] of KState.v, with the
    fields of the C structures (ktask_t, kmutex_t, ksem_t, ...).  Pointers to
    tasks and objects are keys of finite maps, NULL is [None], intrusive rings are
    the sequences of their members.  A kernel function is a program of the monad
    [K] (KMonad.v): from a state to a result and a state, or to nothing where the
    C code would read through an invalid pointer or outside a buffer.  [wp] is
    total correctness: a theorem [wp m Q s] says that [m] has a result and that
    [Q] holds of it.  Unsigned integers are [Z] with the wrap-around of their width
    written out (Prelude.v).  The interrupt mask is a field of the state, so that
    unbalanced critical sections are visible.  The context switch, the initial
    stack frame and the widths of three counters belong to the processor port,
    which is not in the repository: they are the class [CpuPort] of Sched.v, whose
    laws say that a switch stores the stack pointer of the task that leaves and
    makes the preferred task the active one; [demo_port] of Boot.v is an instance.
    A call that blocks returns [Blocked]; what the task does when it runs again is
    a program of its own ([pend_resume], [queue_recv_resume], ...).

    The heap is a memory of 32-bit words with its own monad [H] (Mem.v); the calls
    that use both are programs of the product [D] (Dyn.v), to which Timer.v adds the
    timers ([TD]) and WorkQueue.v the work queues ([WD]).  The timer task and the
    workers are loops around blocking calls: the timer task is a step function
    over what its receives return, and the critical sections of workers, callers
    and timer callbacks are the steps of a transition system, in any order.  A
    buffer of the protocols is a list of bytes.  The network, the sizes of the
    control blocks and the layout of a timer command in a message are parameters
    ([CoapPort], [ObjSizes], [TimerPort], [WorkPort]) that the theorems leave open.

    The configuration is the one of k_default_config.h with one CPU, user hooks,
    tracing and statistics off, the kernel objects and their deletion on; pointers
    are 32 bits wide and the machine is little-endian.

    ** Files

    - Prelude: machine integers, arrays, tactics, hint databases.
    - KErr, KState, KMonad: status codes, data, the monad.
    - KList: k_list.h as pointer code, and that it implements sequences.
    - Bitmap, CircBuf, RingBuf, Fifo: k_bitmap.h, k_ringbuf.c, k_fifo.c with their
      theorems.
    - Sched, Pend, Mutex, Sem, Task, Event, Queue, BufQueue, KSys: the functions of
      the C files of those names (Mutex also holds [task_pri_change] and
      [tick_list_update], which are mutually dependent with k_mutex.c).
    - KInv, PriInv, Inv, Moves, Create: the kernel invariant [Inv] (lists, priority
      inheritance, tick list, object bodies, the running task) and the
      transformations that keep it.
    - Boot: start-up, and a concrete system for examples.
    - SemSpec, MutexSpec (with Handover), QueueSpec, EventSpec, BufQueueSpec: an
      abstract object for each kind and the refinement of every call.
    - SchedSpec, Timeout, TickSpec, TaskSpec, TaskLife, TaskDel, PriSpec: the
      scheduler, tick and task calls.
    - Kernel: all calls together; TimeSpec, TaskCalls: the theorems on time and on
      the task calls.
    - Mem, MBlk, Mm: memory, k_mm_blk.c, k_mm.c; MBlkSpec, MmWord, MmList, MmLayout,
      MmFree, MmAlloc, MmSpec, MmRealloc, MmBoot, MmInit: the heap invariant and
      what each operation does; MmCalls: the theorems on the heap.
    - Dyn, DynSpec, DynCalls: the calls on objects in heap memory, and
      k_dyn_mem_proc.c.
    - Timer, TimerSpec, TimerMsg: k_timer.c, its task, and the way of a command from
      a call to the task.
    - WorkQueue, WorkSpec: k_workqueue.c.
    - Mqtt, MqttSpec: MQTTPacket.
    - Coap, CoapSpec, CoapClient: iot-coap-c, its codec and its client.

    ** What is shown

    [Kernel.kernel_safe]: after start-up and any sequence of calls and interrupts
    that meet the stated preconditions the invariant holds and the next call is
    defined.  [Kernel.running_task_most_urgent] and
    [Kernel.priority_inheritance_exact] read scheduling and inheritance off the
    invariant.  The five refinement theorems state every return value and effect
    of the object calls against a small abstract object; the task calls refine a
    state machine of waiting and suspension.  [TimeSpec] shows that timeouts are
    exact and that round robin starves nobody.  The ring buffer and the byte fifo
    refine a queue of messages and of bytes, the pointer rings of k_list.h refine
    sequences.

    The heap refines an abstract allocator that hands out disjoint arrays of words:
    blocks are aligned, inside the regions and never overlap, an allocation fails
    exactly when no free block serves it, nothing leaks, and every call returns.
    Objects created in heap memory own their blocks until they are deleted.  The
    timer task refines a map from timers to deadlines and, when it is not late,
    calls each timer at its deadline.  Works are run once and in order, no wake-up
    is lost, and what is queued completes.  The MQTT serialisers produce the wire
    format, PUBLISH packets and CoAP messages survive the way there and back, the
    non-blocking reader of MQTT agrees with the blocking one, a CoAP answer reaches
    its handler, and the retransmissions follow an exact schedule.

    Some theorems show defects: an overdue timer that is left waiting, a work that
    cannot be cancelled, a read past the end of a short message, and datagrams that
    make the CoAP client write outside its buffers.
    ** Fuel

    Loops over rings take the length of the list at entry as fuel, loops over
    chains of mutexes the number of mutexes or tasks of the state.  Running out of
    fuel is undefined behaviour, which the [wp] theorems exclude: under the
    invariant the fuel suffices.  The walk along a free list has the number of words
    of the memory as fuel and the pool is linked in at most as many steps as it has
    bytes; the theorems on the heap show that neither runs out.  The loop over due
    timers has one step more than there are timers.  An MQTT length has at most five
    digits in base 128; the options of a CoAP message have 13 turns because the
    thirteenth leaves the array.

    ** Not modelled

    Statistics, tracing, heap diagnostics, atomic operations and the kernel tests.
    The multi-CPU variants, which this configuration does not compile.  Of CoAP, the
    URI parser, DTLS and the set-up of a context; of MQTT, the client over sockets.
    Outside the kernel: the network, Bluetooth, LoRa and file-system stacks, which
    are third-party code kept in the tree, and the thin adaptors over sockets,
    devices and other kernels. *)

From stdpp Require Export base tactics list numbers gmap sorting.
From Stdlib Require Export ZArith Lia.

(** ** Scope and hint databases of the development *)

Declare Scope rhino_scope.
Delimit Scope rhino_scope with rhino.
Create HintDb rhino discriminated.
Create HintDb rhino_arith discriminated.

(** ** Machine integers

    A [w]-bit unsigned integer is a [Z] in [0 .. 2^w - 1]; every C operation
    that can overflow is written with the wrap-around made explicit. *)

Local Open Scope Z_scope.

Definition wrap (w z : Z) : Z := z mod 2 ^ w.

Definition u8 (z : Z) : Z := wrap 8 z.

Definition u16 (z : Z) : Z := wrap 16 z.

Definition u32 (z : Z) : Z := wrap 32 z.

Definition u64 (z : Z) : Z := wrap 64 z.

(** The two's-complement reading of a [w]-bit pattern. *)
Definition signed (w z : Z) : Z :=
  if wrap w z <? 2 ^ (w - 1) then wrap w z else wrap w z - 2 ^ w.

Definition i64 (z : Z) : Z := signed 64 z.

(** [fits w z]: [z] is the value of some [w]-bit unsigned object. *)
Definition fits (w z : Z) : Prop := 0 <= z < 2 ^ w.

#[export] Instance fits_dec w z : Decision (fits w z).
Proof. unfold fits. apply _. Defined.

(** ** Arrays indexed by C integers

    A negative or too large index is an out-of-bounds access: [None]. *)

Definition arr_get {A} (l : list A) (i : Z) : option A :=
  if decide (0 <= i) then l !! Z.to_nat i else None.

Definition arr_set {A} (l : list A) (i : Z) (x : A) : option (list A) :=
  if decide (0 <= i < Z.of_nat (length l)) then Some (<[Z.to_nat i := x]> l) else None.

(** ** Tactics *)

(** Case analysis on the scrutinee of a [match]/[if] in the goal or in a
    hypothesis, keeping the equation. *)
Ltac destr_match :=
  match goal with
  | |- context [match ?x with _ => _ end] =>
      lazymatch x with
      | context [match _ with _ => _ end] => fail
      | _ => destruct x eqn:?
      end
  end.

Ltac destr_match_in H :=
  match type of H with
  | context [match ?x with _ => _ end] =>
      lazymatch x with
      | context [match _ with _ => _ end] => fail
      | _ => destruct x eqn:?
      end
  end.

(** Turn boolean comparisons on [Z] into propositions. *)
Ltac zbool :=
  repeat match goal with
  | H : (_ =? _)%Z = true |- _ => apply Z.eqb_eq in H
  | H : (_ =? _)%Z = false |- _ => apply Z.eqb_neq in H
  | H : (_ <? _)%Z = true |- _ => apply Z.ltb_lt in H
  | H : (_ <? _)%Z = false |- _ => apply Z.ltb_ge in H
  | H : (_ <=? _)%Z = true |- _ => apply Z.leb_le in H
  | H : (_ <=? _)%Z = false |- _ => apply Z.leb_gt in H
  | H : negb _ = true |- _ => apply negb_true_iff in H
  | H : negb _ = false |- _ => apply negb_false_iff in H
  | H : _ && _ = true |- _ => apply andb_true_iff in H as [? ?]
  | H : _ || _ = false |- _ => apply orb_false_iff in H as [? ?]
  end.

(** ** Integer lemmas *)

Lemma wrap_range w z : 0 <= w -> 0 <= wrap w z < 2 ^ w.
Proof. intros. unfold wrap. apply Z.mod_pos_bound. lia. Qed.

Lemma wrap_small w z : 0 <= z < 2 ^ w -> wrap w z = z.
Proof. intros. unfold wrap. by apply Z.mod_small. Qed.

Lemma wrap_neg1 w : 0 < w -> wrap w (-1) = 2 ^ w - 1.
Proof.
  intros Hw. unfold wrap. pose proof (Z.pow_pos_nonneg 2 w).
  symmetry. apply (Z.mod_unique_pos _ _ (-1)); lia.
Qed.

Lemma wrap_wrap w z : wrap w (wrap w z) = wrap w z.
Proof. unfold wrap. apply Zmod_mod. Qed.

Lemma wrap_add_l w x y : wrap w (wrap w x + y) = wrap w (x + y).
Proof. unfold wrap. apply Zplus_mod_idemp_l. Qed.

Lemma wrap_add_r w x y : wrap w (x + wrap w y) = wrap w (x + y).
Proof. unfold wrap. apply Zplus_mod_idemp_r. Qed.

Lemma wrap_sub_l w x y : wrap w (wrap w x - y) = wrap w (x - y).
Proof. unfold wrap. apply Zminus_mod_idemp_l. Qed.

Lemma wrap_sub_r w x y : wrap w (x - wrap w y) = wrap w (x - y).
Proof. unfold wrap. apply Zminus_mod_idemp_r. Qed.

Lemma signed_small w z : 0 <= z < 2 ^ (w - 1) -> 0 < w -> signed w z = z.
Proof.
  intros Hz Hw. unfold signed.
  assert (2 ^ w = 2 * 2 ^ (w - 1)) as E.
  { rewrite <- Z.pow_succ_r by lia. f_equal; lia. }
  rewrite wrap_small by lia. destruct (Z.ltb_spec z (2 ^ (w - 1))); lia.
Qed.

Lemma signed_range w z : 0 < w -> - 2 ^ (w - 1) <= signed w z < 2 ^ (w - 1).
Proof.
  intros Hw. unfold signed. pose proof (wrap_range w z ltac:(lia)).
  assert (2 ^ w = 2 * 2 ^ (w - 1)) as E.
  { rewrite <- Z.pow_succ_r by lia. f_equal; lia. }
  destruct (Z.ltb_spec (wrap w z) (2 ^ (w - 1))); lia.
Qed.

(** Masking the bits from [k] up tests whether a [w]-bit value is below [2^k]. *)
Lemma land_high_mask_zero w k x :
  0 <= k <= w -> fits w x -> Z.land x (2 ^ w - 2 ^ k) = 0 <-> x < 2 ^ k.
Proof.
  intros Hk [Hx0 Hx].
  assert (2 ^ w - 2 ^ k = Z.shiftl (Z.ones (w - k)) k) as ->.
  { rewrite Z.shiftl_mul_pow2, Z.ones_equiv by lia.
    replace (2 ^ w) with (2 ^ (w - k) * 2 ^ k) by (rewrite <- Z.pow_add_r by lia; f_equal; lia).
    lia. }
  split; intros H.
  - destruct (decide (x < 2 ^ k)) as [|Hge]; [done|exfalso].
    assert (0 < x) as Hpos by lia.
    assert (k <= Z.log2 x) as Hlog by (apply Z.log2_le_pow2; lia).
    assert (Z.log2 x < w) as Hlog' by (apply Z.log2_lt_pow2; lia).
    assert (Z.testbit (Z.land x (Z.shiftl (Z.ones (w - k)) k)) (Z.log2 x) = true) as Hb.
    { rewrite Z.land_spec, Z.bit_log2 by done.
      rewrite Z.shiftl_spec, Z.ones_spec_low by lia. done. }
    rewrite H, Z.bits_0 in Hb. done.
  - apply Z.bits_inj'. intros n Hn. rewrite Z.land_spec, Z.shiftl_spec, Z.bits_0 by lia.
    destruct (decide (n < k)).
    + rewrite (Z.testbit_neg_r (Z.ones _)) by lia. by rewrite andb_false_r.
    + replace (Z.testbit x n) with false; [done|]. symmetry.
      destruct (decide (x = 0)) as [->|]; [apply Z.bits_0|].
      apply Z.bits_above_log2; [lia|].
      apply Z.log2_lt_pow2; [lia|].
      apply Z.lt_le_trans with (2 ^ k); [done|]. apply Z.pow_le_mono_r; lia.
Qed.

(** Masking the bits below [k] is the remainder modulo [2^k]. *)
Lemma land_low_mask k x : 0 <= k -> Z.land x (2 ^ k - 1) = x mod 2 ^ k.
Proof.
  intros. rewrite <- Z.land_ones by done. f_equal. rewrite Z.ones_equiv. lia.
Qed.

(** Joining two bit fields that do not overlap is an addition. *)
Lemma lor_add k p q : 0 <= k -> 0 <= q < 2 ^ k -> Z.lor (p * 2 ^ k) q = p * 2 ^ k + q.
Proof.
  intros Hk Hq. symmetry. apply Z.add_nocarry_lor. apply Z.bits_inj'. intros n Hn.
  rewrite Z.land_spec, Z.bits_0. destruct (decide (n < k)).
  - rewrite Z.mul_pow2_bits_low by done. done.
  - destruct (decide (q = 0)) as [->|]; [by rewrite Z.bits_0, andb_false_r|].
    rewrite (Z.bits_above_log2 q), andb_false_r; [done|lia|].
    apply Z.log2_lt_pow2; [lia|]. apply Z.lt_le_trans with (2 ^ k); [lia|].
    apply Z.pow_le_mono_r; lia.
Qed.

(** Selecting the [w]-bit field at position [k]. *)
Lemma land_field w k x :
  0 <= k -> 0 <= w -> Z.land x ((2 ^ w - 1) * 2 ^ k) = (x / 2 ^ k) mod 2 ^ w * 2 ^ k.
Proof.
  intros Hk Hw. rewrite <- !Z.shiftl_mul_pow2, <- Z.shiftr_div_pow2, <- Z.land_ones by lia.
  replace (2 ^ w - 1) with (Z.ones w) by (rewrite Z.ones_equiv; lia).
  apply Z.bits_inj'. intros n Hn. rewrite Z.land_spec, !Z.shiftl_spec by lia.
  destruct (decide (n < k)).
  - rewrite !(Z.testbit_neg_r _ (n - k)) by lia. apply andb_false_r.
  - rewrite Z.land_spec, Z.shiftr_spec by lia. by replace (n - k + k) with n by lia.
Qed.

(** ** Array lemmas *)

Lemma arr_get_Some {A} (l : list A) i x :
  arr_get l i = Some x <-> 0 <= i /\ l !! Z.to_nat i = Some x.
Proof. unfold arr_get. case_decide; naive_solver. Qed.

Lemma arr_get_lt {A} (l : list A) i x : arr_get l i = Some x -> 0 <= i < Z.of_nat (length l).
Proof. rewrite arr_get_Some. intros [? ?%lookup_lt_Some]. lia. Qed.

Lemma arr_get_is_Some {A} (l : list A) i :
  is_Some (arr_get l i) <-> 0 <= i < Z.of_nat (length l).
Proof.
  split.
  - intros [x Hx]. by eapply arr_get_lt.
  - intros. unfold arr_get. rewrite decide_True by lia. apply lookup_lt_is_Some. lia.
Qed.

Lemma arr_set_Some {A} (l : list A) i x l' :
  arr_set l i x = Some l' <-> 0 <= i < Z.of_nat (length l) /\ l' = <[Z.to_nat i := x]> l.
Proof. unfold arr_set. case_decide; naive_solver. Qed.

Lemma arr_get_set_eq {A} (l l' : list A) i x : arr_set l i x = Some l' -> arr_get l' i = Some x.
Proof.
  rewrite arr_set_Some, arr_get_Some. intros [? ->]. split; [lia|].
  apply list_lookup_insert_eq. lia.
Qed.

Lemma arr_get_set_ne {A} (l l' : list A) i j x :
  i <> j -> arr_set l i x = Some l' -> arr_get l' j = arr_get l j.
Proof.
  rewrite arr_set_Some. intros Hne [? ->]. unfold arr_get. case_decide; [|done].
  apply list_lookup_insert_ne. lia.
Qed.

Lemma arr_set_length {A} (l l' : list A) i x : arr_set l i x = Some l' -> length l' = length l.
Proof. rewrite arr_set_Some. intros [_ ->]. apply length_insert. Qed.

(** ** Finite maps *)

Lemma lookup_insert_other {A} (m : gmap nat A) i x j : j <> i -> <[i := x]> m !! j = m !! j.
Proof. intros. by rewrite lookup_insert_ne. Qed.

#[export] Hint Resolve wrap_range wrap_small : rhino_arith.

(** ** Filtering and sorting *)

Lemma filter_ext_in {A} (P1 P2 : A -> Prop) `{forall x, Decision (P1 x)} `{forall x, Decision (P2 x)} (l : list A) :
  (forall x, x ∈ l -> P1 x <-> P2 x) -> filter P1 l = filter P2 l.
Proof.
  induction l as [|y l IH]; intros Hp; [done|]. rewrite !filter_cons. specialize (IH ltac:(set_solver)).
  pose proof (Hp y ltac:(set_solver)). repeat case_decide; try tauto; congruence.
Qed.

Lemma filter_none {A} (P : A -> Prop) `{forall x, Decision (P x)} (l : list A) : (forall x, x ∈ l -> ~ P x) -> filter P l = [].
Proof.
  induction l as [|x l IH]; [done|]. intros Hp. rewrite filter_cons_False by (apply Hp; left). apply IH. intros y Hy. apply Hp. by right.
Qed.

Lemma sorted_filter {A} (R : A -> A -> Prop) (P : A -> Prop) `{forall x, Decision (P x)} l :
  StronglySorted R l -> StronglySorted R (filter P l).
Proof.
  induction 1 as [|x l Hl IH Hx]; [constructor|]. destruct (decide (P x)) as [Hp|Hp].
  - rewrite filter_cons_True by done. constructor; [done|]. apply Forall_forall. intros y [_ Hy]%list_elem_of_filter.
    rewrite Forall_forall in Hx. by apply Hx.
  - by rewrite filter_cons_False.
Qed.

Lemma sorted_ext_in {A} (f g : A -> Z) l :
  (forall x, x ∈ l -> g x = f x) -> StronglySorted (fun x y => f x <= f y) l -> StronglySorted (fun x y => g x <= g y) l.
Proof.
  intros He. induction 1 as [|x l Hl IH Hx]; constructor; [apply IH; set_solver|]. apply Forall_forall. intros y Hy.
  rewrite Forall_forall in Hx. rewrite !He by set_solver. by apply Hx.
Qed.
