(* ===== verification/KErr.v ===== *)
(** * Status codes ([rhino/core/include/k_err.h])

    Every kernel service answers with a [kstat_t]; [kstat_code] gives the
    number the enumeration assigns to each status. *)

From S2P Require Import Prelude.
Local Open Scope Z_scope.

Inductive kstat_t : Set :=
  | RHINO_SUCCESS
  | RHINO_SYS_FATAL_ERR
  | RHINO_SYS_SP_ERR
  | RHINO_RUNNING
  | RHINO_STOPPED
  | RHINO_INV_PARAM
  | RHINO_NULL_PTR
  | RHINO_INV_ALIGN
  | RHINO_KOBJ_TYPE_ERR
  | RHINO_KOBJ_DEL_ERR
  | RHINO_KOBJ_DOCKER_EXIST
  | RHINO_KOBJ_BLK
  | RHINO_KOBJ_SET_FULL
  | RHINO_NOTIFY_FUNC_EXIST
  | RHINO_MM_POOL_SIZE_ERR
  | RHINO_MM_ALLOC_SIZE_ERR
  | RHINO_MM_FREE_ADDR_ERR
  | RHINO_MM_CORRUPT_ERR
  | RHINO_DYN_MEM_PROC_ERR
  | RHINO_NO_MEM
  | RHINO_RINGBUF_FULL
  | RHINO_RINGBUF_EMPTY
  | RHINO_SCHED_DISABLE
  | RHINO_SCHED_ALREADY_ENABLED
  | RHINO_SCHED_LOCK_COUNT_OVF
  | RHINO_INV_SCHED_WAY
  | RHINO_TASK_INV_STACK_SIZE
  | RHINO_TASK_NOT_SUSPENDED
  | RHINO_TASK_DEL_NOT_ALLOWED
  | RHINO_TASK_SUSPEND_NOT_ALLOWED
  | RHINO_SUSPENDED_COUNT_OVF
  | RHINO_BEYOND_MAX_PRI
  | RHINO_PRI_CHG_NOT_ALLOWED
  | RHINO_INV_TASK_STATE
  | RHINO_IDLE_TASK_EXIST
  | RHINO_NO_PEND_WAIT
  | RHINO_BLK_ABORT
  | RHINO_BLK_TIMEOUT
  | RHINO_BLK_DEL
  | RHINO_BLK_INV_STATE
  | RHINO_BLK_POOL_SIZE_ERR
  | RHINO_TIMER_STATE_INV
  | RHINO_NO_THIS_EVENT_OPT
  | RHINO_BUF_QUEUE_INV_SIZE
  | RHINO_BUF_QUEUE_SIZE_ZERO
  | RHINO_BUF_QUEUE_FULL
  | RHINO_BUF_QUEUE_MSG_SIZE_OVERFLOW
  | RHINO_QUEUE_FULL
  | RHINO_QUEUE_NOT_FULL
  | RHINO_SEM_OVF
  | RHINO_SEM_TASK_WAITING
  | RHINO_MUTEX_NOT_RELEASED_BY_OWNER
  | RHINO_MUTEX_OWNER_NESTED
  | RHINO_MUTEX_NESTED_OVF
  | RHINO_NOT_CALLED_BY_INTRPT
  | RHINO_TRY_AGAIN
  | RHINO_WORKQUEUE_EXIST
  | RHINO_WORKQUEUE_NOT_EXIST
  | RHINO_WORKQUEUE_WORK_EXIST
  | RHINO_WORKQUEUE_BUSY
  | RHINO_WORKQUEUE_WORK_RUNNING
  | RHINO_TASK_STACK_OVF
  | RHINO_INTRPT_STACK_OVF.

Definition kstat_code (s : kstat_t) : Z :=
  match s with
  | RHINO_SUCCESS => 0
  | RHINO_SYS_FATAL_ERR => 1
  | RHINO_SYS_SP_ERR => 2
  | RHINO_RUNNING => 3
  | RHINO_STOPPED => 4
  | RHINO_INV_PARAM => 5
  | RHINO_NULL_PTR => 6
  | RHINO_INV_ALIGN => 7
  | RHINO_KOBJ_TYPE_ERR => 8
  | RHINO_KOBJ_DEL_ERR => 9
  | RHINO_KOBJ_DOCKER_EXIST => 10
  | RHINO_KOBJ_BLK => 11
  | RHINO_KOBJ_SET_FULL => 12
  | RHINO_NOTIFY_FUNC_EXIST => 13
  | RHINO_MM_POOL_SIZE_ERR => 100
  | RHINO_MM_ALLOC_SIZE_ERR => 101
  | RHINO_MM_FREE_ADDR_ERR => 102
  | RHINO_MM_CORRUPT_ERR => 103
  | RHINO_DYN_MEM_PROC_ERR => 104
  | RHINO_NO_MEM => 105
  | RHINO_RINGBUF_FULL => 106
  | RHINO_RINGBUF_EMPTY => 107
  | RHINO_SCHED_DISABLE => 200
  | RHINO_SCHED_ALREADY_ENABLED => 201
  | RHINO_SCHED_LOCK_COUNT_OVF => 202
  | RHINO_INV_SCHED_WAY => 203
  | RHINO_TASK_INV_STACK_SIZE => 300
  | RHINO_TASK_NOT_SUSPENDED => 301
  | RHINO_TASK_DEL_NOT_ALLOWED => 302
  | RHINO_TASK_SUSPEND_NOT_ALLOWED => 303
  | RHINO_SUSPENDED_COUNT_OVF => 304
  | RHINO_BEYOND_MAX_PRI => 305
  | RHINO_PRI_CHG_NOT_ALLOWED => 306
  | RHINO_INV_TASK_STATE => 307
  | RHINO_IDLE_TASK_EXIST => 308
  | RHINO_NO_PEND_WAIT => 400
  | RHINO_BLK_ABORT => 401
  | RHINO_BLK_TIMEOUT => 402
  | RHINO_BLK_DEL => 403
  | RHINO_BLK_INV_STATE => 404
  | RHINO_BLK_POOL_SIZE_ERR => 405
  | RHINO_TIMER_STATE_INV => 500
  | RHINO_NO_THIS_EVENT_OPT => 600
  | RHINO_BUF_QUEUE_INV_SIZE => 700
  | RHINO_BUF_QUEUE_SIZE_ZERO => 701
  | RHINO_BUF_QUEUE_FULL => 702
  | RHINO_BUF_QUEUE_MSG_SIZE_OVERFLOW => 703
  | RHINO_QUEUE_FULL => 704
  | RHINO_QUEUE_NOT_FULL => 705
  | RHINO_SEM_OVF => 800
  | RHINO_SEM_TASK_WAITING => 801
  | RHINO_MUTEX_NOT_RELEASED_BY_OWNER => 900
  | RHINO_MUTEX_OWNER_NESTED => 901
  | RHINO_MUTEX_NESTED_OVF => 902
  | RHINO_NOT_CALLED_BY_INTRPT => 1000
  | RHINO_TRY_AGAIN => 1001
  | RHINO_WORKQUEUE_EXIST => 1100
  | RHINO_WORKQUEUE_NOT_EXIST => 1101
  | RHINO_WORKQUEUE_WORK_EXIST => 1102
  | RHINO_WORKQUEUE_BUSY => 1103
  | RHINO_WORKQUEUE_WORK_RUNNING => 1104
  | RHINO_TASK_STACK_OVF => 1200
  | RHINO_INTRPT_STACK_OVF => 1201
  end.

#[export] Instance kstat_t_eq_dec : EqDecision kstat_t.
Proof. solve_decision. Defined.
