(* ===== verification/KList.v ===== *)
(** * Intrusive lists ([k_list.h])

    The doubly linked rings of the kernel as pointer code on a memory of nodes, and
    that they implement the sequences the other files use for them: a ring with
    the head [h] is the list of its other nodes in the order of the [next] links. *)

From S2P Require Import Prelude.

(** An address is a number; a node that is not in memory cannot be followed. *)
Record klist_t := mk_klist {
  k_next : nat;
  k_prev : nat
}.

Notation kmem := (gmap nat klist_t).

Definition nxt (m : kmem) (x : nat) : option nat := k_next <$> m !! x.

Definition prv (m : kmem) (x : nat) : option nat := k_prev <$> m !! x.

(** [x->next = v] and [x->prev = v]. *)
Definition set_next (x v : nat) (m : kmem) : option kmem :=
  k ← m !! x; Some (<[x := mk_klist v (k_prev k)]> m).

Definition set_prev (x v : nat) (m : kmem) : option kmem :=
  k ← m !! x; Some (<[x := mk_klist (k_next k) v]> m).

Definition klist_init (list_head : nat) (m : kmem) : option kmem :=
  m ← set_next list_head list_head m; set_prev list_head list_head m.

Definition is_klist_empty (list : nat) (m : kmem) : option bool :=
  n ← nxt m list; Some (bool_decide (n = list)).

Definition klist_insert (head element : nat) (m : kmem) : option kmem :=
  p ← prv m head;
  m ← set_prev element p m;
  m ← set_next element head m;
  p ← prv m head;
  m ← set_next p element m;
  set_prev head element m.

Definition klist_add (head element : nat) (m : kmem) : option kmem :=
  m ← set_prev element head m;
  n ← nxt m head;
  m ← set_next element n m;
  n ← nxt m head;
  m ← set_prev n element m;
  set_next head element m.

Definition klist_rm (element : nat) (m : kmem) : option kmem :=
  p ← prv m element;
  n ← nxt m element;
  m ← set_next p n m;
  n ← nxt m element;
  p ← prv m element;
  set_prev n p m.

Definition klist_rm_init (element : nat) (m : kmem) : option kmem :=
  m ← klist_rm element m;
  m ← set_prev element element m;
  set_next element element m.

(** ** Rings *)

(** [x] is followed by [y] in [c]. *)
Definition adj (c : list nat) (x y : nat) : Prop := exists k, c !! k = Some x /\ c !! S k = Some y.

Definition linked (m : kmem) (x y : nat) : Prop := nxt m x = Some y /\ prv m y = Some x.

(** Once round. *)
Definition round (h : nat) (l : list nat) : list nat := h :: l ++ [h].

Definition ring (m : kmem) (h : nat) (l : list nat) : Prop :=
  NoDup (h :: l) /\ forall x y, adj (round h l) x y -> linked m x y.

Lemma round_init h l k x y : round h l !! k = Some x -> round h l !! S k = Some y -> (h :: l) !! k = Some x.
Proof.
  unfold round. intros Hx Hy. pose proof (lookup_lt_Some _ _ _ Hy) as Hk. cbn in Hk. rewrite length_app in Hk. cbn in Hk.
  change (h :: l ++ [h]) with ((h :: l) ++ [h]) in Hx. by rewrite lookup_app_l in Hx by (cbn; lia).
Qed.

Lemma nodup_snoc h (l : list nat) : NoDup (h :: l) -> NoDup (l ++ [h]).
Proof. intros [Hh Hl]%NoDup_cons. apply NoDup_app. split_and!; [done| |apply NoDup_singleton]. by intros x Hx ->%list_elem_of_singleton. Qed.

(** Every node has one successor and one predecessor. *)
Lemma adj_next h l x y y' : NoDup (h :: l) -> adj (round h l) x y -> adj (round h l) x y' -> y = y'.
Proof.
  intros Hnd (k & Hx & Hy) (k' & Hx' & Hy'). assert (k = k') as <-; [|congruence].
  apply (NoDup_lookup _ k k' x Hnd); [by eapply round_init|by eapply round_init].
Qed.

Lemma adj_prev h l x x' y : NoDup (h :: l) -> adj (round h l) x y -> adj (round h l) x' y -> x = x'.
Proof.
  intros Hnd%nodup_snoc (k & Hx & Hy) (k' & Hx' & Hy'). assert (k = k') as <-; [|congruence]. by apply (NoDup_lookup _ k k' y Hnd).
Qed.

Lemma adj_elem h l x y : adj (round h l) x y -> x ∈ h :: l /\ y ∈ h :: l.
Proof.
  intros (k & Hx & Hy). split; [by eapply list_elem_of_lookup_2, round_init|]. apply list_elem_of_lookup_2 in Hy. unfold round in Hy.
  cbn [lookup list_lookup] in Hy. set_solver.
Qed.

(** The pair around a place, and the pairs around a node. *)
Lemma adj_here c1 x y c2 : adj (c1 ++ x :: y :: c2) x y.
Proof. exists (length c1). split; [|rewrite <- Nat.add_1_r]; by rewrite lookup_app_r, ?Nat.add_sub', ?Nat.sub_diag by lia. Qed.

Lemma adj_without c1 e c2 x y : adj (c1 ++ e :: c2) x y -> x <> e -> y <> e -> adj (c1 ++ c2) x y.
Proof.
  intros (k & Hx & Hy) Hxe Hye. destruct (decide (S k < length c1)) as [Hk|Hk].
  - rewrite lookup_app_l in Hx, Hy by lia. exists k. by rewrite !lookup_app_l by lia.
  - rewrite lookup_app_r in Hy by lia. destruct (decide (S k = length c1)) as [E|Hne].
    { rewrite E, Nat.sub_diag in Hy. cbn in Hy. congruence. }
    rewrite lookup_app_r in Hx by lia. destruct (decide (k = length c1)) as [->|Hne'].
    { rewrite Nat.sub_diag in Hx. cbn in Hx. congruence. }
    exists (k - 1)%nat. rewrite !lookup_app_r by lia. replace (k - length c1)%nat with (S (k - 1 - length c1)) in Hx by lia.
    replace (S k - length c1)%nat with (S (S (k - 1) - length c1)) in Hy by lia. done.
Qed.

Lemma adj_with c1 e c2 x y : adj (c1 ++ c2) x y -> (last c1 = Some x -> head c2 <> Some y) -> adj (c1 ++ e :: c2) x y.
Proof.
  intros (k & Hx & Hy) Hne. destruct (decide (S k < length c1)) as [Hk|Hk].
  - rewrite lookup_app_l in Hx, Hy by lia. exists k. by rewrite !lookup_app_l by lia.
  - rewrite lookup_app_r in Hy by lia. destruct (decide (S k = length c1)) as [E|Hne'].
    { rewrite lookup_app_l in Hx by lia. rewrite E, Nat.sub_diag in Hy. exfalso. apply Hne; [|by destruct c2].
      rewrite last_lookup, <- E. done. }
    rewrite lookup_app_r in Hx by lia. exists (S k). rewrite !lookup_app_r by lia.
    replace (S k - length c1)%nat with (S (k - length c1)) by lia. replace (S (S k) - length c1)%nat with (S (S k - length c1)) by lia. done.
Qed.

(** ** What the operations do to the links *)

Lemma set_next_links x v m : is_Some (nxt m x) ->
  exists m', set_next x v m = Some m' /\ (forall z, nxt m' z = if decide (z = x) then Some v else nxt m z) /\ (forall z, prv m' z = prv m z).
Proof.
  intros [n Hn]. unfold nxt in Hn. destruct (m !! x) as [k|] eqn:E; [|done]. unfold set_next. rewrite E. eexists. split; [done|].
  split; intros z; unfold nxt, prv; destruct (decide (z = x)) as [->|]; rewrite ?E, ?lookup_insert_eq, ?lookup_insert_ne by done; done.
Qed.

Lemma set_prev_links x v m : is_Some (nxt m x) ->
  exists m', set_prev x v m = Some m' /\ (forall z, nxt m' z = nxt m z) /\ (forall z, prv m' z = if decide (z = x) then Some v else prv m z).
Proof.
  intros [n Hn]. unfold nxt in Hn. destruct (m !! x) as [k|] eqn:E; [|done]. unfold set_prev. rewrite E. eexists. split; [done|].
  split; intros z; unfold nxt, prv; destruct (decide (z = x)) as [->|]; rewrite ?E, ?lookup_insert_eq, ?lookup_insert_ne by done; done.
Qed.

Lemma prv_in m x : is_Some (prv m x) <-> is_Some (nxt m x).
Proof. unfold prv, nxt. by rewrite !fmap_is_Some. Qed.

(** One assignment of a link. *)
Ltac assign := match goal with
  | |- context [set_next ?x ?v ?m] => let m' := fresh "m" in let E := fresh "E" in let N := fresh "N" in let P := fresh "P" in
      destruct (set_next_links x v m) as (m' & E & N & P); [|rewrite E; cbn [mbind option_bind]]
  | |- context [set_prev ?x ?v ?m] => let m' := fresh "m" in let E := fresh "E" in let N := fresh "N" in let P := fresh "P" in
      destruct (set_prev_links x v m) as (m' & E & N & P); [|rewrite E; cbn [mbind option_bind]]
  end.

(** [e] now stands between [a] and [b]. *)
Definition put_between (m m' : kmem) (a e b : nat) : Prop :=
  (forall z, nxt m' z = if decide (z = a) then Some e else if decide (z = e) then Some b else nxt m z) /\
  (forall z, prv m' z = if decide (z = b) then Some e else if decide (z = e) then Some a else prv m z).

Lemma insert_links m a b e :
  linked m a b -> is_Some (nxt m e) -> e <> a -> e <> b -> exists m', klist_insert b e m = Some m' /\ put_between m m' a e b.
Proof.
  intros [Hab Hba] He Ha Hb. unfold klist_insert. rewrite Hba. cbn [mbind option_bind]. assign; [done|]. assign; [by rewrite N|].
  rewrite P0, P, decide_False, Hba by done. cbn [mbind option_bind]. assign; [rewrite N0, decide_False, N, Hab by done; by eexists|].
  assign.
  { rewrite N1. case_decide; [by eexists|]. rewrite N0, decide_False, N by done. apply prv_in. by eexists. }
  eexists. split; [done|]. split; intros z; rewrite ?N2, ?N1, ?N0, ?N, ?P2, ?P1, ?P0, ?P; repeat case_decide; congruence.
Qed.

Lemma add_links m a b e :
  linked m a b -> is_Some (nxt m e) -> e <> a -> e <> b -> exists m', klist_add a e m = Some m' /\ put_between m m' a e b.
Proof.
  intros [Hab Hba] He Ha Hb. unfold klist_add. assign; [done|]. rewrite N, Hab. cbn [mbind option_bind]. assign; [by rewrite N|].
  rewrite N0, decide_False, N, Hab by done. cbn [mbind option_bind].
  assign; [rewrite N0, decide_False, N by done; apply prv_in; by eexists|].
  assign; [rewrite N1, N0, decide_False, N, Hab by done; by eexists|].
  eexists. split; [done|]. split; intros z; rewrite ?N2, ?N1, ?N0, ?N, ?P2, ?P1, ?P0, ?P; repeat case_decide; congruence.
Qed.

(** [a] and [b] are joined. *)
Definition joined (m m' : kmem) (a b : nat) : Prop :=
  (forall z, nxt m' z = if decide (z = a) then Some b else nxt m z) /\ (forall z, prv m' z = if decide (z = b) then Some a else prv m z).

Lemma rm_links m a e b :
  linked m a e -> linked m e b -> (a = e <-> b = e) -> exists m', klist_rm e m = Some m' /\ joined m m' a b.
Proof.
  intros [Hae Hea] [Heb Hbe] Hab. unfold klist_rm. rewrite Hea, Heb. cbn [mbind option_bind]. assign; [by rewrite Hae|].
  rewrite N, P, Hea. assert ((if decide (e = a) then Some b else nxt m e) = Some b) as -> by (case_decide; congruence).
  cbn [mbind option_bind]. assign; [apply prv_in; rewrite P, Hbe; by eexists|].
  eexists. split; [done|]. split; intros z; rewrite ?N0, ?N, ?P0, ?P; done.
Qed.

(** ** What they do to a ring *)

Definition before (h : nat) (l1 : list nat) : nat := default h (last l1).

Definition behind (h : nat) (l2 : list nat) : nat := default h (head l2).

Lemma round_split h l1 l2 : round h (l1 ++ l2) = (h :: l1) ++ (l2 ++ [h]).
Proof. unfold round. cbn. by rewrite <- app_assoc. Qed.

Lemma last_before h l1 : last (h :: l1) = Some (before h l1).
Proof. unfold before. destruct l1 as [|x l1]; [done|]. cbn [last]. change (last (h :: x :: l1)) with (last (x :: l1)). by destruct (last (x :: l1)) eqn:E; [|apply last_None in E]. Qed.

Lemma head_behind h l2 : head (l2 ++ [h]) = Some (behind h l2).
Proof. by destruct l2. Qed.

Lemma last_split (l : list nat) x : last l = Some x -> exists l', l = l' ++ [x].
Proof. intros (l' & ->)%last_Some. by exists l'. Qed.

Lemma head_split (l : list nat) x : head l = Some x -> exists l', l = x :: l'.
Proof. destruct l as [|y l]; [done|]. intros [= ->]. by exists l. Qed.

Lemma adj_gap h l1 l2 : adj (round h (l1 ++ l2)) (before h l1) (behind h l2).
Proof.
  rewrite round_split. destruct (last_split _ _ (last_before h l1)) as (c1 & ->). destruct (head_split _ _ (head_behind h l2)) as (c2 & ->).
  rewrite <- app_assoc. apply adj_here.
Qed.

Lemma adj_into h l1 e l2 : adj (round h (l1 ++ e :: l2)) (before h l1) e.
Proof. exact (adj_gap h l1 (e :: l2)). Qed.

Lemma adj_out h l1 e l2 : adj (round h (l1 ++ e :: l2)) e (behind h l2).
Proof.
  replace (l1 ++ e :: l2) with ((l1 ++ [e]) ++ l2) by (by rewrite <- app_assoc). pose proof (adj_gap h (l1 ++ [e]) l2) as H.
  unfold before in H. by rewrite last_snoc in H.
Qed.

Lemma nodup_middle (h : nat) l1 e l2 : NoDup (h :: l1 ++ e :: l2) <-> e ∉ h :: l1 ++ l2 /\ NoDup (h :: l1 ++ l2).
Proof.
  replace (h :: l1 ++ e :: l2) with ((h :: l1) ++ e :: l2) by done. rewrite <- Permutation_middle. rewrite NoDup_cons. done.
Qed.

Lemma ring_insert m m' h l1 l2 e :
  ring m h (l1 ++ l2) -> e ∉ h :: l1 ++ l2 -> put_between m m' (before h l1) e (behind h l2) -> ring m' h (l1 ++ e :: l2).
Proof.
  intros [Hnd Hr] He [Hn Hp]. assert (NoDup (h :: l1 ++ e :: l2)) as Hnd' by (by apply nodup_middle). split; [done|]. intros x y Hxy.
  set (a := before h l1) in *. set (b := behind h l2) in *. pose proof (adj_into h l1 e l2) as Hae. pose proof (adj_out h l1 e l2) as Heb. fold a in Hae. fold b in Heb.
  assert (forall z, z ∈ h :: l1 ++ l2 -> z <> e) as Hne by (by intros z Hz ->). destruct (adj_elem _ _ _ _ (adj_gap h l1 l2)) as [Ha Hb]. fold a b in Ha, Hb.
  destruct (decide (x = e)) as [->|Hxe].
  { rewrite (adj_next _ _ _ _ _ Hnd' Hxy Heb). split; [rewrite Hn, decide_False, decide_True by (done || apply not_eq_sym; by apply Hne)|rewrite Hp, decide_True by done]; done. }
  destruct (decide (y = e)) as [->|Hye].
  { rewrite (adj_prev _ _ _ _ _ Hnd' Hxy Hae). split; [rewrite Hn, decide_True by done|rewrite Hp, decide_False, decide_True by (done || apply not_eq_sym; by apply Hne)]; done. }
  rewrite round_split in Hxy. pose proof (adj_without (h :: l1) e (l2 ++ [h]) x y Hxy Hxe Hye) as Hold. rewrite <- round_split in Hold, Hxy.
  destruct (Hr x y Hold) as [H1 H2]. split.
  - rewrite Hn, !decide_False; [done|done|]. intros ->. by pose proof (adj_next _ _ _ _ _ Hnd' Hxy Hae).
  - rewrite Hp, !decide_False; [done|done|]. intros ->. by pose proof (adj_prev _ _ _ _ _ Hnd' Hxy Heb).
Qed.

Lemma ring_rm m m' h l1 l2 e :
  ring m h (l1 ++ e :: l2) -> joined m m' (before h l1) (behind h l2) -> ring m' h (l1 ++ l2).
Proof.
  intros [Hnd' Hr] [Hn Hp]. pose proof (proj1 (nodup_middle _ _ _ _) Hnd') as [He Hnd]. split; [done|]. intros x y Hxy.
  set (a := before h l1) in *. set (b := behind h l2) in *. pose proof (adj_gap h l1 l2) as Hab. fold a b in Hab.
  destruct (decide (x = a)) as [->|Hxa].
  { rewrite (adj_next _ _ _ _ _ Hnd Hxy Hab). split; [by rewrite Hn, decide_True|by rewrite Hp, decide_True]. }
  assert (y <> b) as Hyb by (intros ->; by pose proof (adj_prev _ _ _ _ _ Hnd Hxy Hab)). split; [rewrite Hn, decide_False by done|rewrite Hp, decide_False by done].
  1,2: rewrite round_split in Hxy; apply (adj_with _ e) in Hxy; [|rewrite last_before; by intros [= E]].
  1,2: change (e :: l2 ++ [h]) with ((e :: l2) ++ [h]) in Hxy; rewrite <- round_split in Hxy; by apply Hr.
Qed.

(** A ring keeps its links when those of its nodes do not change. *)
Lemma ring_same m m' h l : ring m h l -> (forall z, z ∈ h :: l -> nxt m' z = nxt m z /\ prv m' z = prv m z) -> ring m' h l.
Proof.
  intros [Hnd Hr] Hs. split; [done|]. intros x y Hxy. destruct (adj_elem _ _ _ _ Hxy) as [Hx Hy]. destruct (Hr x y Hxy) as [H1 H2].
  split; [by rewrite (proj1 (Hs x Hx))|by rewrite (proj2 (Hs y Hy))].
Qed.

Lemma ring_init m h : linked m h h -> ring m h [].
Proof. intros Hl. split; [apply NoDup_singleton|]. intros x y (k & Hx & Hy). destruct k as [|[|k]]; cbn in *; try done. by injection Hx as <-; injection Hy as <-. Qed.

Lemma ring_is_empty m h l n : ring m h l -> nxt m h = Some n -> n = h <-> l = [].
Proof.
  intros [Hnd Hr] Hn. pose proof (Hr _ _ (adj_gap h [] l)) as [Hn' _]. cbn [before default] in Hn'. unfold before in Hn'. cbn in Hn'.
  assert (n = behind h l) as -> by congruence. unfold behind. destruct l as [|x l]; cbn; [done|]. split; [|done]. intros ->. apply NoDup_cons in Hnd as [[]]. left.
Qed.

(** ** Refinement *)

(** All the rings: the members of each head. *)
Notation rings := (gmap nat (list nat)).

(** [A]: the nodes in memory.  No node is on two rings. *)
Record holds (A : gset nat) (m : kmem) (R : rings) : Prop := {
  ho_nodes x : x ∈ A -> is_Some (nxt m x);
  ho_ring h l : R !! h = Some l -> ring m h l;
  ho_disj h1 l1 h2 l2 x : R !! h1 = Some l1 -> R !! h2 = Some l2 -> x ∈ h1 :: l1 -> x ∈ h2 :: l2 -> h1 = h2
}.

(** [e] is on no ring, or alone. *)
Definition free (R : rings) (e : nat) : Prop := forall h l, R !! h = Some l -> e ∈ h :: l -> h = e /\ l = [].

Inductive kop :=
  | KInit (h : nat)
  | KEmpty (h : nat)
  | KInsert (pos e : nat)
  | KAdd (pos e : nat)
  | KRm (e : nat)
  | KRmInit (e : nat).

Definition kexec (op : kop) (m : kmem) : option (option bool * kmem) :=
  let unit m := m ← m; Some (None, m) in
  match op with
  | KInit h => unit (klist_init h m)
  | KEmpty h => b ← is_klist_empty h m; Some (Some b, m)
  | KInsert pos e => unit (klist_insert pos e m)
  | KAdd pos e => unit (klist_add pos e m)
  | KRm e => unit (klist_rm e m)
  | KRmInit e => unit (klist_rm_init e m)
  end.

(** The operations on sequences.  Inserting before the head puts a node at the end. *)
Inductive kstep (A : gset nat) (R : rings) : kop -> option bool -> rings -> Prop :=
| ks_init h : h ∈ A -> free R h -> kstep A R (KInit h) None (<[h := []]> R)
| ks_empty h l : R !! h = Some l -> kstep A R (KEmpty h) (Some (bool_decide (l = []))) R
| ks_insert h l1 l2 e : e ∈ A -> R !! h = Some (l1 ++ l2) -> e <> h -> free R e ->
    kstep A R (KInsert (behind h l2) e) None (<[h := l1 ++ e :: l2]> (delete e R))
| ks_add h l1 l2 e : e ∈ A -> R !! h = Some (l1 ++ l2) -> e <> h -> free R e ->
    kstep A R (KAdd (before h l1) e) None (<[h := l1 ++ e :: l2]> (delete e R))
| ks_rm h l1 l2 e : R !! h = Some (l1 ++ e :: l2) -> kstep A R (KRm e) None (<[h := l1 ++ l2]> R)
| ks_rm_init h l1 l2 e : R !! h = Some (l1 ++ e :: l2) -> kstep A R (KRmInit e) None (<[e := []]> (<[h := l1 ++ l2]> R))
| ks_rm_init_alone e : R !! e = Some [] -> kstep A R (KRmInit e) None R.

Definition links_same (m m' : kmem) (z : nat) : Prop := nxt m' z = nxt m z /\ prv m' z = prv m z.

Lemma holds_alone A m m' R h :
  holds A m R -> free R h -> ring m' h [] -> (forall x, x ∈ A -> is_Some (nxt m' x)) -> (forall z, z <> h -> links_same m m' z) ->
  holds A m' (<[h := []]> R).
Proof.
  intros [Hn Hr Hd] Hf Hh HA Hs. split; [done| |].
  - intros h' l'. destruct (decide (h' = h)) as [->|Hne]; [rewrite lookup_insert_eq; by intros [= <-]|]. rewrite lookup_insert_ne by done. intros E.
    apply (ring_same m); [by apply Hr|]. intros z Hz. apply Hs. intros ->. by destruct (Hf h' l' E Hz).
  - assert (forall h' l' x, R !! h' = Some l' -> h' <> h -> x ∈ h' :: l' -> x <> h) as Hout by (intros h' l' x E Hne Hx ->; by destruct (Hf h' l' E Hx)).
    intros h1 l1 h2 l2 x. destruct (decide (h1 = h)) as [->|H1], (decide (h2 = h)) as [->|H2]; rewrite ?lookup_insert_eq, ?lookup_insert_ne by done.
    + done.
    + intros [= <-] E Hx Hx2. apply list_elem_of_singleton in Hx as ->. by destruct (Hout _ _ _ E H2 Hx2).
    + intros E [= <-] Hx Hx2. apply list_elem_of_singleton in Hx2 as ->. by destruct (Hout _ _ _ E H1 Hx).
    + apply Hd.
Qed.

(** The ring [h] takes or gives away [e], and nothing else changes. *)
Lemma holds_at A m m' R h l l' e :
  holds A m R -> R !! h = Some l -> e <> h -> (free R e \/ e ∈ l) -> ring m' h l' -> (forall x, x ∈ h :: l' -> x ∈ h :: l \/ x = e) ->
  (forall x, x ∈ A -> is_Some (nxt m' x)) -> (forall z, z ∉ h :: l -> z <> e -> links_same m m' z) ->
  holds A m' (<[h := l']> (delete e R)).
Proof.
  intros [Hn Hr Hd] Eh Hne Hf Hh Hl HA Hs.
  assert (forall h' l' x, delete e R !! h' = Some l' -> h' <> h -> x ∈ h' :: l' -> x ∉ h :: l /\ x <> e) as Hout.
  { intros h' l0 x [Hne' E]%lookup_delete_Some Hh' Hx. split; [intros Hx'; by destruct Hh'; eapply Hd|]. intros ->. destruct Hf as [Hf|He].
    - by destruct (Hf h' l0 E Hx).
    - destruct Hh'. eapply Hd; [exact E|exact Eh|exact Hx|by right]. }
  split; [done| |].
  - intros h' l0. destruct (decide (h' = h)) as [->|Hh']; [rewrite lookup_insert_eq; by intros [= <-]|]. rewrite lookup_insert_ne by done. intros E.
    apply (ring_same m); [apply Hr; by apply lookup_delete_Some in E as [_ E]|]. intros z Hz. destruct (Hout h' l0 z E Hh' Hz). by apply Hs.
  - assert (forall h' l0 x, delete e R !! h' = Some l0 -> h' <> h -> x ∈ h' :: l0 -> x ∉ h :: l') as Hout'.
    { intros h' l0 x E Hh' Hx Hx'. destruct (Hout h' l0 x E Hh' Hx) as [H1 H2]. by destruct (Hl x Hx'). }
    intros h1 l1 h2 l2 x. destruct (decide (h1 = h)) as [->|H1], (decide (h2 = h)) as [->|H2]; rewrite ?lookup_insert_eq, ?lookup_insert_ne by done.
    + done.
    + intros [= <-] E Hx Hx2. by destruct (Hout' _ _ _ E H2 Hx2).
    + intros E [= <-] Hx Hx2. by destruct (Hout' _ _ _ E H1 Hx).
    + intros [_ E1]%lookup_delete_Some [_ E2]%lookup_delete_Some. by apply Hd.
Qed.

Lemma put_between_in m m' a e b x : put_between m m' a e b -> is_Some (nxt m x) -> is_Some (nxt m' x).
Proof. intros [Hn _] Hx. rewrite Hn. by repeat case_decide; try by eexists. Qed.

Lemma holds_insert A m m' R h l1 l2 e :
  holds A m R -> R !! h = Some (l1 ++ l2) -> e <> h -> free R e -> put_between m m' (before h l1) e (behind h l2) ->
  holds A m' (<[h := l1 ++ e :: l2]> (delete e R)).
Proof.
  intros HR Eh Hne Hf Hp. destruct (adj_elem _ _ _ _ (adj_gap h l1 l2)) as [Ha Hb].
  assert (e ∉ h :: l1 ++ l2) as He by (intros Hx; by destruct (Hf _ _ Eh Hx) as [-> _]).
  apply (holds_at A m m' R h (l1 ++ l2)); try done; [by left|by apply (ring_insert m); [apply (ho_ring _ _ _ HR)| |]| | |].
  - intros x. rewrite !elem_of_cons, !elem_of_app, elem_of_cons. tauto.
  - intros x Hx. eapply put_between_in; [done|]. by apply (ho_nodes _ _ _ HR).
  - intros z Hz Hze. destruct Hp as [Hn Hp]. split; [rewrite Hn|rewrite Hp]; by rewrite !decide_False by (done || by intros ->).
Qed.

Lemma holds_rm A m m' R h l1 l2 e :
  holds A m R -> R !! h = Some (l1 ++ e :: l2) -> joined m m' (before h l1) (behind h l2) -> holds A m' (<[h := l1 ++ l2]> R).
Proof.
  intros HR Eh Hj. pose proof (ho_ring _ _ _ HR _ _ Eh) as Hring. pose proof (proj1 (nodup_middle _ _ _ _) (proj1 Hring)) as [He Hnd].
  destruct (adj_elem _ _ _ _ (adj_gap h l1 l2)) as [Ha Hb]. assert (e ∈ l1 ++ e :: l2) as Hin by set_solver. assert (e <> h) as Hne by set_solver.
  replace (<[h := l1 ++ l2]> R) with (<[h := l1 ++ l2]> (delete e R)).
  2: { destruct (R !! e) as [l|] eqn:E; [|by rewrite delete_id]. destruct Hne. eapply (ho_disj _ _ _ HR); [exact E|exact Eh|left|by right]. }
  apply (holds_at A m m' R h (l1 ++ e :: l2)); try done; [by right|by apply (ring_rm m _ _ _ _ e)| | |].
  - intros x. rewrite !elem_of_cons, !elem_of_app, elem_of_cons. tauto.
  - intros x Hx. destruct Hj as [Hn _]. rewrite Hn. case_decide; [by eexists|]. by apply (ho_nodes _ _ _ HR).
  - intros z Hz Hze. destruct Hj as [Hn Hp]. split; [rewrite Hn|rewrite Hp]; rewrite decide_False; try done; intros ->; apply Hz; set_solver.
Qed.

Lemma init_links h m : is_Some (nxt m h) ->
  exists m', klist_init h m = Some m' /\ linked m' h h /\ (forall z, is_Some (nxt m z) -> is_Some (nxt m' z)) /\ forall z, z <> h -> links_same m m' z.
Proof.
  intros Hh. unfold klist_init. assign; [done|]. assign; [rewrite N, decide_True by done; by eexists|]. eexists. split; [done|].
  assert (linked m1 h h) as Hl by (by split; rewrite ?N0, ?N, ?P0, ?P, decide_True).
  split; [done|]. split; [intros z Hz; rewrite N0, N; by case_decide; [eexists|]|]. intros z Hz. split; rewrite ?N0, ?N, ?P0, ?P; by rewrite ?decide_False.
Qed.

Lemma rm_init_eq e m m1 : klist_rm e m = Some m1 -> is_Some (nxt m1 e) ->
  exists m', klist_rm_init e m = Some m' /\ linked m' e e /\ (forall z, is_Some (nxt m1 z) -> is_Some (nxt m' z)) /\ forall z, z <> e -> links_same m1 m' z.
Proof.
  intros Hm He. unfold klist_rm_init. rewrite Hm. cbn [mbind option_bind]. assign; [done|]. assign; [by rewrite N|]. eexists. split; [done|].
  assert (linked m2 e e) as Hl by (by split; rewrite ?N0, ?N, ?P0, ?P, decide_True).
  split; [done|]. split; [intros z Hz; rewrite N0, N; by case_decide; [eexists|]|]. intros z Hz. split; rewrite ?N0, ?N, ?P0, ?P; by rewrite ?decide_False.
Qed.

Lemma rm_member A m R h l1 l2 e :
  holds A m R -> R !! h = Some (l1 ++ e :: l2) ->
  exists m', klist_rm e m = Some m' /\ holds A m' (<[h := l1 ++ l2]> R) /\ links_same m m' e /\ is_Some (nxt m e) /\ free (<[h := l1 ++ l2]> R) e.
Proof.
  intros HR Eh. pose proof (ho_ring _ _ _ HR _ _ Eh) as [Hnd Hr]. pose proof (proj1 (nodup_middle _ _ _ _) Hnd) as [He _].
  pose proof (Hr _ _ (adj_into h l1 e l2)) as L1. pose proof (Hr _ _ (adj_out h l1 e l2)) as L2. destruct (adj_elem _ _ _ _ (adj_gap h l1 l2)) as [Ha Hb].
  assert (before h l1 <> e /\ behind h l2 <> e) as [Hae Hbe] by (split; intros E; rewrite E in *; done).
  destruct (rm_links m _ e _ L1 L2) as (m' & Em & Hj); [by split|]. exists m'. split_and!; [done|by eapply holds_rm|..].
  - destruct Hj as [Hn Hp]. split; [rewrite Hn|rewrite Hp]; by rewrite decide_False.
  - destruct L2 as [-> _]. by eexists.
  - intros h' l'. destruct (decide (h' = h)) as [->|Hne]; [rewrite lookup_insert_eq; by intros [= <-]|]. rewrite lookup_insert_ne by done. intros E Hx.
    destruct Hne. eapply (ho_disj _ _ _ HR); [exact E|exact Eh|exact Hx|]. set_solver.
Qed.

Lemma kstep_ok A m R op r R' : holds A m R -> kstep A R op r R' -> exists m', kexec op m = Some (r, m') /\ holds A m' R'.
Proof.
  intros HR. destruct 1 as [h Hh Hf|h l E|h l1 l2 e He E Hne Hf|h l1 l2 e He E Hne Hf|h l1 l2 e E|h l1 l2 e E|e E]; cbn.
  - destruct (init_links h m) as (m' & -> & Hl & Hi & Hs); [by apply (ho_nodes _ _ _ HR)|]. exists m'. split; [done|].
    apply (holds_alone A m); try done; [by apply ring_init|]. intros x Hx. by apply Hi, (ho_nodes _ _ _ HR).
  - pose proof (ho_ring _ _ _ HR _ _ E) as Hring. pose proof (proj2 Hring _ _ (adj_gap h [] l)) as [Hn _]. change (before h []) with h in Hn.
    unfold is_klist_empty. rewrite Hn. cbn. exists m. split; [|done]. do 3 f_equal. apply bool_decide_ext. by apply (ring_is_empty m).
  - pose proof (proj2 (ho_ring _ _ _ HR _ _ E) _ _ (adj_gap h l1 l2)) as Hl. destruct (adj_elem _ _ _ _ (adj_gap h l1 l2)) as [Ha Hb].
    destruct (insert_links m _ _ e Hl) as (m' & -> & Hp); [by apply (ho_nodes _ _ _ HR)|intros ->; by destruct (Hf _ _ E Ha)|intros ->; by destruct (Hf _ _ E Hb)|].
    exists m'. split; [done|]. by eapply holds_insert.
  - pose proof (proj2 (ho_ring _ _ _ HR _ _ E) _ _ (adj_gap h l1 l2)) as Hl. destruct (adj_elem _ _ _ _ (adj_gap h l1 l2)) as [Ha Hb].
    destruct (add_links m _ _ e Hl) as (m' & -> & Hp); [by apply (ho_nodes _ _ _ HR)|intros ->; by destruct (Hf _ _ E Ha)|intros ->; by destruct (Hf _ _ E Hb)|].
    exists m'. split; [done|]. by eapply holds_insert.
  - destruct (rm_member A m R h l1 l2 e HR E) as (m' & -> & HR' & _). by exists m'.
  - destruct (rm_member A m R h l1 l2 e HR E) as (m1 & E1 & HR1 & [Hn _] & He & Hf). destruct (rm_init_eq e m m1 E1) as (m' & -> & Hl & Hi & Hs); [by rewrite Hn|].
    exists m'. split; [done|]. apply (holds_alone A m1); try done; [by apply ring_init|]. intros x Hx. by apply Hi, (ho_nodes _ _ _ HR1).
  - pose proof (proj2 (ho_ring _ _ _ HR _ _ E) _ _ (adj_gap e [] [])) as Hl. destruct (rm_links m e e e Hl Hl) as (m1 & E1 & [Hn1 Hp1]); [done|].
    change (linked m e e) in Hl. destruct (rm_init_eq e m m1 E1) as (m' & -> & Hl' & Hi & Hs); [rewrite Hn1, decide_True by done; by eexists|].
    exists m'. split; [done|]. replace R with (<[e := []]> R) by (by apply insert_id). apply (holds_alone A m); try done.
    + intros h l Eh Hx. assert (h = e) as -> by (eapply (ho_disj _ _ _ HR); [exact Eh|exact E|exact Hx|left]). split; [done|]. congruence.
    + by apply ring_init.
    + intros x Hx. apply Hi. rewrite Hn1. case_decide; [by eexists|]. by apply (ho_nodes _ _ _ HR).
    + intros z Hz. destruct (Hs z Hz) as [H1 H2]. split; [by rewrite H1, Hn1, decide_False|by rewrite H2, Hp1, decide_False].
Qed.

Fixpoint kexecs (ops : list kop) (m : kmem) : option (list (option bool) * kmem) :=
  match ops with
  | [] => Some ([], m)
  | op :: ops => '(r, m) ← kexec op m; '(rs, m) ← kexecs ops m; Some (r :: rs, m)
  end.

Inductive ksteps (A : gset nat) (R : rings) : list kop -> list (option bool) -> rings -> Prop :=
| kss_nil : ksteps A R [] [] R
| kss_cons op r R1 ops rs R2 : kstep A R op r R1 -> ksteps A R1 ops rs R2 -> ksteps A R (op :: ops) (r :: rs) R2.

(** C27: any program of list operations on nodes in memory runs to its end and does to the pointers what the sequence
    operations do to the lists: inserting before or behind a node, at the end or the front of a list, removing a node, with
    its own links reset or left as they are, and asking for emptiness; no other ring is touched. *)
Theorem klist_refines_sequences A m R ops rs R' :
  holds A m R -> ksteps A R ops rs R' -> exists m', kexecs ops m = Some (rs, m') /\ holds A m' R'.
Proof.
  intros HR Hs. revert m HR. induction Hs as [R|R op r R1 ops rs R2 Hstep _ IH]; intros m HR; [by exists m|].
  destruct (kstep_ok A m R op r R1 HR Hstep) as (m1 & E1 & HR1). destruct (IH m1 HR1) as (m2 & E2 & HR2). exists m2. cbn.
  by rewrite E1; cbn; rewrite E2.
Qed.

(** Three nodes that hold anything: two are put on the list of the first, and the first of them is removed. *)
Definition demo_nodes : kmem := <[1%nat := mk_klist 0 0]> (<[2%nat := mk_klist 0 0]> (<[3%nat := mk_klist 7 7]> ∅)).

Lemma free_one (l : list nat) h e : e ∉ h :: l -> free (<[h := l]> ∅) e.
Proof. intros He h' l' E Hx. apply lookup_insert_Some in E as [[<- <-]|[_ E]]; [by destruct He|by rewrite lookup_empty in E]. Qed.

Lemma klist_refines_sequences_witness :
  exists m', kexecs [KInit 1; KEmpty 1; KInsert 1 2; KInsert 1 3; KRm 2; KEmpty 1] demo_nodes = Some ([None; Some true; None; None; None; Some false], m') /\
    holds {[1; 2; 3]}%nat m' (<[1%nat := [3%nat]]> ∅).
Proof.
  apply (klist_refines_sequences {[1; 2; 3]}%nat demo_nodes ∅).
  - split; [|done|done]. intros x Hx. assert (x = 1 \/ x = 2 \/ x = 3)%nat as [->|[->| ->]] by set_solver; by eexists.
  - eapply kss_cons; [by apply ks_init; [set_solver|]|]. eapply kss_cons; [by apply (ks_empty _ _ 1 [])|].
    eapply kss_cons; [apply (ks_insert _ _ 1 [] [] 2); [set_solver|done|done|apply free_one; set_solver]|].
    replace (<[1%nat := _]> (delete 2%nat _)) with (<[1%nat := [2%nat]]> (∅ : rings)) by (by vm_compute).
    eapply kss_cons; [apply (ks_insert _ _ 1 [2%nat] [] 3); [set_solver|done|done|apply free_one; set_solver]|].
    replace (<[1%nat := _]> (delete 3%nat _)) with (<[1%nat := [2; 3]%nat]> (∅ : rings)) by (by vm_compute).
    eapply kss_cons; [by apply (ks_rm _ _ 1 [] [3%nat] 2)|]. eapply kss_cons; [by apply (ks_empty _ _ 1 [3%nat])|].
    replace (<[1%nat := _]> (<[1%nat := _]> _)) with (<[1%nat := [3%nat]]> (∅ : rings)) by (by vm_compute). constructor.
Defined.
