(* ===== verification/Bitmap.v ===== *)
(** * Priority bitmap ([rhino/core/include/k_bitmap.h])

    The ready queue keeps one bit per priority, the most significant bit of
    word 0 being priority 0.  This file translates the bitmap operations and
    the two bit-scan routines, and shows that the branchy scans compute what
    their comments promise. *)

From S2P Require Import Prelude.
Local Open Scope Z_scope.

(** ** Definitions *)

Definition BITMAP_UNIT_SIZE : Z := 32.

Definition BITMAP_UNIT_MASK : Z := 31.

Definition BITMAP_UNIT_BITS : Z := 5.

Definition BITMAP_MASK (nr : Z) : Z :=
  Z.shiftl 1 (BITMAP_UNIT_SIZE - 1 - Z.land nr BITMAP_UNIT_MASK).

Definition BITMAP_WORD (nr : Z) : Z := Z.shiftr nr BITMAP_UNIT_BITS.

(** Number of words [BITMAP_DECLARE] reserves for [bits] bits. *)
Definition BITMAP_DECLARE_WORDS (bits : Z) : Z :=
  Z.shiftr (bits + (BITMAP_UNIT_SIZE - 1)) BITMAP_UNIT_BITS.

(** [None] is an access outside the array. *)
Definition krhino_bitmap_set (bitmap : list Z) (nr : Z) : option (list Z) :=
  w ← arr_get bitmap (BITMAP_WORD nr);
  arr_set bitmap (BITMAP_WORD nr) (Z.lor w (BITMAP_MASK nr)).

Definition krhino_bitmap_clear (bitmap : list Z) (nr : Z) : option (list Z) :=
  w ← arr_get bitmap (BITMAP_WORD nr);
  arr_set bitmap (BITMAP_WORD nr) (Z.land w (Z.lnot (BITMAP_MASK nr))).

(** One rung of the scan ladders: when the bits under [mask] are all zero,
    shift by [k] and count [k]. *)
Definition clz_step (mask k : Z) (xn : Z * Z) : Z * Z :=
  let '(x, n) := xn in
  if Z.land x mask =? 0 then (u32 (Z.shiftl x k), n + k) else (x, n).

Definition ctz_step (mask k : Z) (xn : Z * Z) : Z * Z :=
  let '(x, n) := xn in
  if Z.land x mask =? 0 then (Z.shiftr x k, n + k) else (x, n).

Definition clz_last (xn : Z * Z) : Z :=
  let '(x, n) := xn in
  if Z.land x 0x80000000 =? 0 then n + 1 else n.

Definition krhino_clz32 (x : Z) : Z :=
  if x =? 0 then 32
  else clz_last
         (clz_step 0xC0000000 2
            (clz_step 0xF0000000 4
               (clz_step 0xFF000000 8
                  (clz_step 0xFFFF0000 16 (x, 0))))).

Definition ctz_last (xn : Z * Z) : Z :=
  let '(x, n) := xn in
  if Z.land x 0x00000001 =? 0 then n + 1 else n.

Definition krhino_ctz32 (x : Z) : Z :=
  if x =? 0 then 32
  else ctz_last
         (ctz_step 0x00000003 2
            (ctz_step 0x0000000F 4
               (ctz_step 0x000000FF 8
                  (ctz_step 0x0000FFFF 16 (x, 0))))).

(** The loop that skips zero words; running past the array is [None]. *)
Fixpoint find_first_word (bitmap : list Z) (nr : Z) : option (Z * Z) :=
  match bitmap with
  | [] => None
  | w :: bitmap' =>
      if w =? 0 then find_first_word bitmap' (nr + BITMAP_UNIT_SIZE) else Some (w, nr)
  end.

(** Software scan ([RHINO_CONFIG_BITMAP_HW == 0]). *)
Definition krhino_find_first_bit (bitmap : list Z) : option Z :=
  '(tmp, nr) ← find_first_word bitmap 0;
  Some (clz_last
          (clz_step 0xC0000000 2
             (clz_step 0xF0000000 4
                (clz_step 0xFF000000 8
                   (clz_step 0xFFFF0000 16 (tmp, nr)))))).

(** ** Reading a bit *)

Definition bit_at (bitmap : list Z) (nr : Z) : bool :=
  match arr_get bitmap (BITMAP_WORD nr) with
  | Some w => Z.testbit w (31 - Z.land nr BITMAP_UNIT_MASK)
  | None => false
  end.

Definition bitmap_ok (bitmap : list Z) : Prop := Forall (fits 32) bitmap.

(** ** Index arithmetic *)

Lemma word_div nr : BITMAP_WORD nr = nr / 32.
Proof. unfold BITMAP_WORD. by rewrite Z.shiftr_div_pow2. Qed.

Lemma mask_mod nr : Z.land nr BITMAP_UNIT_MASK = nr mod 32.
Proof. apply (land_low_mask 5). lia. Qed.

Lemma bit_at_arith bm nr w :
  arr_get bm (nr / 32) = Some w -> bit_at bm nr = Z.testbit w (31 - nr mod 32).
Proof. intros H. unfold bit_at. by rewrite word_div, mask_mod, H. Qed.

Lemma bit_at_neg bm nr : nr < 0 -> bit_at bm nr = false.
Proof.
  intros. unfold bit_at. rewrite word_div. unfold arr_get.
  rewrite decide_False; [done|]. pose proof (Z.div_lt_upper_bound nr 32 0). lia.
Qed.

Lemma testbit_mask nr i :
  0 <= i -> Z.testbit (BITMAP_MASK nr) i = bool_decide (i = 31 - nr mod 32).
Proof.
  intros. unfold BITMAP_MASK, BITMAP_UNIT_SIZE. rewrite mask_mod.
  pose proof (Z.mod_pos_bound nr 32).
  replace (32 - 1 - nr mod 32) with (31 - nr mod 32) by lia.
  rewrite Z.shiftl_1_l. case_bool_decide.
  - subst. apply Z.pow2_bits_true. lia.
  - apply Z.pow2_bits_false. lia.
Qed.

(** ** Setting and clearing *)

Lemma bit_at_update bm bm' nr w w' b :
  arr_get bm (nr / 32) = Some w ->
  arr_set bm (nr / 32) w' = Some bm' ->
  (forall i, 0 <= i <= 31 -> Z.testbit w' i = if decide (i = 31 - nr mod 32) then b else Z.testbit w i) ->
  forall m, bit_at bm' m = if decide (m = nr) then b else bit_at bm m.
Proof.
  intros Hw Hset Hbits m.
  pose proof (Z.mod_pos_bound m 32 ltac:(lia)). pose proof (Z.mod_pos_bound nr 32 ltac:(lia)).
  destruct (decide (m / 32 = nr / 32)) as [Hq|Hq].
  - rewrite <- Hq in Hw, Hset.
    rewrite (bit_at_arith bm' m w') by (by eapply arr_get_set_eq).
    rewrite (bit_at_arith bm m w) by done. rewrite Hbits by lia.
    pose proof (Z.div_mod m 32). pose proof (Z.div_mod nr 32).
    repeat case_decide; try done; lia.
  - rewrite decide_False by congruence. unfold bit_at. rewrite word_div.
    by rewrite (arr_get_set_ne bm bm' (nr / 32) (m / 32) w').
Qed.

Lemma fits_testbit x i : fits 32 x -> 32 <= i -> Z.testbit x i = false.
Proof.
  intros [? ?] ?. destruct (decide (x = 0)) as [->|]; [apply Z.bits_0|].
  apply Z.bits_above_log2; [lia|]. apply Z.log2_lt_pow2; [lia|].
  apply Z.lt_le_trans with (2 ^ 32); [done|]. apply Z.pow_le_mono_r; lia.
Qed.

(** A non-negative integer without bits from 32 up fits 32 bits. *)
Lemma testbit_fits x : 0 <= x -> (forall i, 32 <= i -> Z.testbit x i = false) -> fits 32 x.
Proof.
  intros Hx Hbits. split; [done|]. destruct (decide (x = 0)) as [->|]; [lia|].
  apply Z.log2_lt_pow2; [lia|]. destruct (decide (Z.log2 x < 32)); [done|].
  assert (Z.testbit x (Z.log2 x) = true) by (apply Z.bit_log2; lia).
  rewrite Hbits in *; [done|lia].
Qed.

Lemma bitmap_set_spec bm nr :
  bitmap_ok bm -> 0 <= nr / 32 < Z.of_nat (length bm) ->
  exists bm', krhino_bitmap_set bm nr = Some bm' /\ bitmap_ok bm' /\ length bm' = length bm /\
    forall m, bit_at bm' m = if decide (m = nr) then true else bit_at bm m.
Proof.
  intros Hok Hin. destruct (proj2 (arr_get_is_Some bm (nr / 32)) Hin) as [w Hw].
  unfold krhino_bitmap_set. rewrite word_div, Hw. cbn [mbind option_bind].
  pose proof (proj1 (arr_get_Some _ _ _) Hw) as [_ Hl].
  assert (fits 32 w) as Hfw by (eapply Forall_lookup_1; eauto).
  unfold arr_set. rewrite decide_True by done. eexists. split; [done|].
  repeat split.
  - apply Forall_insert; [done|]. apply testbit_fits.
    + apply Z.lor_nonneg. split; [apply Hfw|].
      unfold BITMAP_MASK. apply Z.shiftl_nonneg. lia.
    + intros i Hi. rewrite Z.lor_spec, testbit_mask, (fits_testbit w) by (done || lia).
      rewrite bool_decide_eq_false_2; [done|]. pose proof (Z.mod_pos_bound nr 32). lia.
  - apply length_insert.
  - eapply bit_at_update; [exact Hw | unfold arr_set; by rewrite decide_True |].
    intros i Hi. rewrite Z.lor_spec, testbit_mask by lia.
    case_bool_decide; case_decide; try done; [apply orb_true_r | apply orb_false_r].
Qed.

Lemma bitmap_clear_spec bm nr :
  bitmap_ok bm -> 0 <= nr / 32 < Z.of_nat (length bm) ->
  exists bm', krhino_bitmap_clear bm nr = Some bm' /\ bitmap_ok bm' /\ length bm' = length bm /\
    forall m, bit_at bm' m = if decide (m = nr) then false else bit_at bm m.
Proof.
  intros Hok Hin. destruct (proj2 (arr_get_is_Some bm (nr / 32)) Hin) as [w Hw].
  unfold krhino_bitmap_clear. rewrite word_div, Hw. cbn [mbind option_bind].
  pose proof (proj1 (arr_get_Some _ _ _) Hw) as [_ Hl].
  assert (fits 32 w) as Hfw by (eapply Forall_lookup_1; eauto).
  unfold arr_set. rewrite decide_True by done. eexists. split; [done|].
  repeat split.
  - apply Forall_insert; [done|]. apply testbit_fits.
    + apply Z.land_nonneg. left. apply Hfw.
    + intros i Hi. by rewrite Z.land_spec, (fits_testbit w).
  - apply length_insert.
  - eapply bit_at_update; [exact Hw | unfold arr_set; by rewrite decide_True |].
    intros i Hi. rewrite Z.land_spec, Z.lnot_spec, testbit_mask by lia.
    case_bool_decide; case_decide; try done; [apply andb_false_r | apply andb_true_r].
Qed.

(** ** The leading-zero ladder *)

(** [clz_inv x n0 k (y, n)]: after testing the upper halves down to width [k],
    [y] is [x] shifted by the count and its top [k] bits are not all zero. *)
Definition clz_inv (x n0 k : Z) (yn : Z * Z) : Prop :=
  exists c, 0 <= c /\ yn = (x * 2 ^ c, n0 + c) /\ 2 ^ (32 - k) <= x * 2 ^ c < 2 ^ 32.

Lemma clz_step_inv x n0 k j yn :
  0 < k -> 0 <= j <= 32 -> k + k = j ->
  clz_inv x n0 j yn -> clz_inv x n0 k (clz_step (2 ^ 32 - 2 ^ (32 - k)) k yn).
Proof.
  intros Hk Hj Hjk (c & Hc & -> & Hlo & Hhi). unfold clz_step.
  destruct (Z.eqb_spec (Z.land (x * 2 ^ c) (2 ^ 32 - 2 ^ (32 - k))) 0) as [E|E].
  - apply land_high_mask_zero in E; [|lia|split; [|done]; pose proof (Z.pow_nonneg 2 (32 - j)); lia].
    assert (x * 2 ^ (c + k) = x * 2 ^ c * 2 ^ k) as Hp by (rewrite Z.pow_add_r by lia; lia).
    assert (2 ^ (32 - j) * 2 ^ k = 2 ^ (32 - k)) as E1 by (rewrite <- Z.pow_add_r by lia; f_equal; lia).
    assert (2 ^ (32 - k) * 2 ^ k = 2 ^ 32) as E2 by (rewrite <- Z.pow_add_r by lia; f_equal; lia).
    assert (0 < 2 ^ k) by lia. assert (0 < 2 ^ (32 - j)) by (apply Z.pow_pos_nonneg; lia).
    assert (2 ^ (32 - k) <= x * 2 ^ c * 2 ^ k) by (rewrite <- E1; apply Z.mul_le_mono_nonneg_r; lia).
    assert (x * 2 ^ c * 2 ^ k < 2 ^ 32) by (rewrite <- E2; apply Z.mul_lt_mono_pos_r; lia).
    assert (0 <= 2 ^ (32 - k)) by (apply Z.pow_nonneg; lia).
    exists (c + k). rewrite Hp, Z.shiftl_mul_pow2 by lia. unfold u32. rewrite wrap_small by lia.
    repeat split; [lia | f_equal; lia | done | done].
  - exists c. repeat split; try done.
    destruct (decide (2 ^ (32 - k) <= x * 2 ^ c)); [done|]. exfalso. apply E.
    apply land_high_mask_zero; [lia| |lia]. split; [|done]. pose proof (Z.pow_nonneg 2 (32 - j)). lia.
Qed.

Lemma clz_last_inv x n0 yn :
  0 < x -> clz_inv x n0 2 yn -> clz_last yn = n0 + (31 - Z.log2 x).
Proof.
  intros Hx (c & Hc & -> & Hlo & Hhi). unfold clz_last.
  change 0x80000000 with (2 ^ 32 - 2 ^ 31). change (2 ^ (32 - 2)) with (2 ^ 30) in Hlo.
  assert (forall d, 0 <= d -> 2 ^ 31 <= x * 2 ^ d < 2 ^ 32 -> Z.log2 x = 31 - d) as Hlog.
  { intros d Hd Hb. assert (Z.log2 (x * 2 ^ d) = 31) as E by (apply Z.log2_unique; lia).
    rewrite Z.log2_mul_pow2 in E by lia. lia. }
  destruct (Z.eqb_spec (Z.land (x * 2 ^ c) (2 ^ 32 - 2 ^ 31)) 0) as [E|E].
  - apply land_high_mask_zero in E; [|lia|split; lia].
    rewrite (Hlog (c + 1)); [lia|lia|]. rewrite Z.pow_add_r by lia. lia.
  - rewrite (Hlog c); [lia|lia|]. split; [|done].
    destruct (decide (2 ^ 31 <= x * 2 ^ c)); [done|]. exfalso. apply E.
    apply land_high_mask_zero; [lia|split; lia|lia].
Qed.

Lemma clz_ladder x n0 :
  fits 32 x -> x <> 0 ->
  clz_last (clz_step 0xC0000000 2 (clz_step 0xF0000000 4
    (clz_step 0xFF000000 8 (clz_step 0xFFFF0000 16 (x, n0))))) = n0 + (31 - Z.log2 x).
Proof.
  intros [Hx0 Hx] Hnz. apply clz_last_inv; [lia|].
  apply (clz_step_inv _ _ 2 4); [lia..|].
  apply (clz_step_inv _ _ 4 8); [lia..|].
  apply (clz_step_inv _ _ 8 16); [lia..|].
  apply (clz_step_inv _ _ 16 32); [lia..|].
  exists 0. change (2 ^ (32 - 32)) with 1. rewrite Z.pow_0_r, Z.mul_1_r, Z.add_0_r.
  repeat split; [lia|lia|done].
Qed.

(** ** The trailing-zero ladder *)

Definition ctz_inv (x k : Z) (yn : Z * Z) : Prop :=
  let '(y, n) := yn in 0 <= n /\ x = y * 2 ^ n /\ y mod 2 ^ k <> 0.

Lemma ctz_step_inv x k j yn :
  0 < k -> k + k = j -> ctz_inv x j yn -> ctz_inv x k (ctz_step (2 ^ k - 1) k yn).
Proof.
  destruct yn as [y n]. intros Hk Hj (Hn & -> & Hnz). unfold ctz_step.
  rewrite land_low_mask by lia.
  destruct (Z.eqb_spec (y mod 2 ^ k) 0) as [E|E]; [|done].
  rewrite Z.shiftr_div_pow2 by lia.
  assert (y = y / 2 ^ k * 2 ^ k) as Hy by (pose proof (Z.div_mod y (2 ^ k)); lia).
  repeat split; [lia| |].
  - rewrite Z.pow_add_r by lia. rewrite Hy at 1. ring.
  - intros H0. apply Hnz. subst j. rewrite Hy, Z.pow_add_r by lia.
    rewrite Z.mul_mod_distr_r by lia. rewrite H0. lia.
Qed.

Lemma ctz_last_inv x yn :
  ctz_inv x 2 yn -> exists y, x = y * 2 ^ ctz_last yn /\ Z.odd y = true /\ 0 <= ctz_last yn.
Proof.
  destruct yn as [y n]. intros (Hn & -> & Hnz). unfold ctz_last.
  change 0x00000001 with (2 ^ 1 - 1). rewrite land_low_mask by lia. change (2 ^ 1) with 2.
  rewrite Zmod_odd. destruct (Z.odd y) eqn:Eo; simpl; [by exists y|].
  exists (y / 2).
  assert (y = 2 * (y / 2)) as Hy.
  { pose proof (Z.div_mod y 2 ltac:(lia)) as D. rewrite Zmod_odd, Eo in D. lia. }
  repeat split; [|  |lia].
  - rewrite Z.pow_add_r, Z.pow_1_r by lia. nia.
  - destruct (Z.odd (y / 2)) eqn:E2; [done|]. exfalso. apply Hnz. change (2 ^ 2) with (2 * 2).
    rewrite Hy, Z.mul_mod_distr_l by lia. rewrite Zmod_odd, E2. done.
Qed.

(** Every scan stays inside the 32-bit word. *)
Lemma odd_part_unique_low x y n i :
  0 <= n -> x = y * 2 ^ n -> 0 <= i < n -> Z.testbit x i = false.
Proof. intros Hn -> Hi. rewrite Z.mul_pow2_bits by lia. apply Z.testbit_neg_r. lia. Qed.

(** ** Scanning the words *)

Lemma bit_at_cons_low w bm nr :
  0 <= nr < 32 -> bit_at (w :: bm) nr = Z.testbit w (31 - nr).
Proof.
  intros. rewrite (bit_at_arith _ _ w); [by rewrite Z.mod_small by lia|].
  by rewrite Z.div_small by lia.
Qed.

Lemma bit_at_cons_high w bm nr :
  32 <= nr -> bit_at (w :: bm) nr = bit_at bm (nr - 32).
Proof.
  intros. unfold bit_at. rewrite !word_div, !mask_mod.
  assert (nr / 32 = (nr - 32) / 32 + 1) as ->.
  { rewrite <- Z.div_add by lia. f_equal. lia. }
  assert (nr mod 32 = (nr - 32) mod 32) as ->.
  { rewrite <- (Z.mod_add (nr - 32) 1) by lia. f_equal. lia. }
  pose proof (Z.div_pos (nr - 32) 32).
  unfold arr_get. rewrite !decide_True by lia.
  by rewrite Z2Nat.inj_add, Nat.add_comm by lia.
Qed.

Lemma find_first_word_None bm nr :
  find_first_word bm nr = None <-> Forall (fun w => w = 0) bm.
Proof.
  revert nr. induction bm as [|w bm IH]; intros nr; cbn; [done|].
  destruct (Z.eqb_spec w 0).
  - rewrite IH, Forall_cons. naive_solver.
  - rewrite Forall_cons. naive_solver.
Qed.

Lemma bit_at_zero bm nr : Forall (fun w => w = 0) bm -> bit_at bm nr = false.
Proof.
  intros H. unfold bit_at. destruct (arr_get bm (BITMAP_WORD nr)) as [w|] eqn:E; [|done].
  apply arr_get_Some in E as [_ E]. eapply Forall_lookup_1 in H; [|done]. simpl in H. subst.
  apply Z.bits_0.
Qed.

Lemma first_bit_of_word w :
  fits 32 w -> w <> 0 ->
  0 <= 31 - Z.log2 w < 32 /\ Z.testbit w (Z.log2 w) = true /\
  forall m, m < 31 - Z.log2 w -> Z.testbit w (31 - m) = false.
Proof.
  intros [? Hw] Hnz. pose proof (Z.log2_nonneg w).
  assert (Z.log2 w < 32) by (apply Z.log2_lt_pow2; lia).
  split; [lia|]. split; [apply Z.bit_log2; lia|].
  intros m Hm. apply Z.bits_above_log2; lia.
Qed.

Lemma find_first_bit_from bm n0 :
  bitmap_ok bm ->
  match find_first_word bm n0 with
  | Some (w, nr) =>
      exists n, nr + (31 - Z.log2 w) = n0 + n /\ fits 32 w /\ w <> 0 /\
        0 <= n /\ bit_at bm n = true /\ (forall m, m < n -> bit_at bm m = false)
  | None => forall m, bit_at bm m = false
  end.
Proof.
  revert n0. induction bm as [|w bm IH]; intros n0 Hok; cbn.
  { intros m. unfold bit_at. by destruct (arr_get [] _) eqn:E; [apply arr_get_lt in E; simpl in E; lia|]. }
  apply Forall_cons in Hok as [Hw Hok]. unfold BITMAP_UNIT_SIZE.
  destruct (Z.eqb_spec w 0) as [->|Hnz].
  - specialize (IH (n0 + 32) Hok).
    assert (forall m, bit_at (0 :: bm) m = if decide (m < 32) then false else bit_at bm (m - 32)) as Hb.
    { intros m. case_decide; [|rewrite bit_at_cons_high by lia; done].
      destruct (decide (m < 0)); [by apply bit_at_neg|].
      rewrite bit_at_cons_low by lia. apply Z.bits_0. }
    destruct (find_first_word bm (n0 + 32)) as [[w' nr]|].
    + destruct IH as (n & E & ? & ? & ? & Hset & Hlow). exists (n + 32).
      split_and!; try done; try lia.
      * rewrite Hb, decide_False by lia. by replace (n + 32 - 32) with n by lia.
      * intros m Hm. rewrite Hb. case_decide; [done|]. apply Hlow. lia.
    + intros m. rewrite Hb. case_decide; auto.
  - destruct (first_bit_of_word w Hw Hnz) as (Hr & Hb & Hl).
    exists (31 - Z.log2 w). split_and!; try done; try lia.
    + rewrite bit_at_cons_low by lia. by replace (31 - (31 - Z.log2 w)) with (Z.log2 w) by lia.
    + intros m Hm. destruct (decide (m < 0)); [by apply bit_at_neg|].
      rewrite bit_at_cons_low by lia. by apply Hl.
Qed.

Lemma find_first_bit_set bm q :
  bitmap_ok bm -> bit_at bm q = true ->
  exists n, krhino_find_first_bit bm = Some n /\ 0 <= n /\ bit_at bm n = true /\
    (forall m, bit_at bm m = true -> n <= m).
Proof.
  intros Hok Hq. pose proof (find_first_bit_from bm 0 Hok) as H. unfold krhino_find_first_bit.
  destruct (find_first_word bm 0) as [[w nr]|]; [|by rewrite H in Hq]. cbn [mbind option_bind].
  destruct H as (n & E & Hw & Hnz & Hn & Hb & Hlow). rewrite clz_ladder, E by done.
  exists n. split_and!; [done..|]. intros m Hm. destruct (decide (m < n)); [|lia]. by rewrite Hlow in Hm.
Qed.

(** ** Properties *)

(** [krhino_ctz32] finds the lowest set bit. *)
Lemma ctz32_lowest x :
  fits 32 x -> x <> 0 ->
  Z.testbit x (krhino_ctz32 x) = true /\ (forall i, 0 <= i < krhino_ctz32 x -> Z.testbit x i = false).
Proof.
  intros Hx Hnz. unfold krhino_ctz32. destruct (Z.eqb_spec x 0); [done|].
  match goal with |- Z.testbit x (ctz_last ?e) = true /\ _ => assert (ctz_inv x 2 e) as Hinv end.
  { apply (ctz_step_inv _ 2 4); [lia..|]. apply (ctz_step_inv _ 4 8); [lia..|].
    apply (ctz_step_inv _ 8 16); [lia..|]. apply (ctz_step_inv _ 16 32); [lia..|].
    repeat split; [lia|lia|]. rewrite Z.mod_small by apply Hx. done. }
  apply ctz_last_inv in Hinv as (y & E & Hodd & Hn). split.
  - rewrite E at 1. rewrite Z.mul_pow2_bits, Z.sub_diag by lia. by rewrite Z.bit0_odd.
  - intros i Hi. by eapply odd_part_unique_low.
Qed.

(** [krhino_find_first_bit] returns the position of the first set bit of
    the bitmap (no earlier bit is set), and runs past the array exactly when
    no bit is set. *)
Theorem find_first_bit_correct bm :
  bitmap_ok bm ->
  match krhino_find_first_bit bm with
  | Some n => 0 <= n /\ bit_at bm n = true /\ (forall m, m < n -> bit_at bm m = false)
  | None => forall m, bit_at bm m = false
  end.
Proof.
  intros Hok. pose proof (find_first_bit_from bm 0 Hok) as H. unfold krhino_find_first_bit.
  destruct (find_first_word bm 0) as [[w nr]|]; [|done]. cbn [mbind option_bind].
  destruct H as (n & E & Hw & Hnz & H). rewrite clz_ladder by done. by rewrite E.
Qed.

(** [krhino_clz32] and [krhino_ctz32] count the zero bits above the most
    significant and below the least significant set bit; both answer 32 on 0. *)
Theorem clz_ctz_correct x :
  fits 32 x ->
  krhino_clz32 0 = 32 /\ krhino_ctz32 0 = 32 /\
  (x <> 0 -> krhino_clz32 x = 31 - Z.log2 x /\
     Z.testbit x (krhino_ctz32 x) = true /\
     (forall i, 0 <= i < krhino_ctz32 x -> Z.testbit x i = false)).
Proof.
  intros Hx. do 2 (split; [reflexivity|]). intros Hnz.
  unfold krhino_clz32. destruct (Z.eqb_spec x 0); [done|].
  rewrite clz_ladder by done. split; [lia|]. by apply ctz32_lowest.
Qed.

Lemma find_first_bit_correct_witness :
  bitmap_ok [0; 0x00210000] /\ krhino_find_first_bit [0; 0x00210000] = Some 42 /\
  bit_at [0; 0x00210000] 42 = true.
Proof.
  assert (bitmap_ok [0; 0x00210000]) as H by (repeat constructor; unfold fits; lia).
  assert (krhino_find_first_bit [0; 0x00210000] = Some 42) as E by (vm_compute; reflexivity).
  pose proof (find_first_bit_correct _ H) as P. rewrite E in P.
  split; [exact H|]. split; [exact E|]. apply P.
Defined.

Lemma clz_ctz_correct_witness :
  fits 32 0x00210000 /\ krhino_clz32 0x00210000 = 10 /\ krhino_ctz32 0x00210000 = 16 /\
  Z.testbit 0x00210000 16 = true.
Proof.
  assert (fits 32 0x00210000) as H by (unfold fits; lia).
  destruct (clz_ctz_correct _ H) as (_ & _ & P). specialize (P ltac:(lia)).
  assert (krhino_ctz32 0x00210000 = 16) as E by (vm_compute; reflexivity). rewrite E in P.
  split; [exact H|]. split; [apply P|]. split; [exact E|]. apply P.
Defined.
