(* ===== verification/CircBuf.v ===== *)
(** * Byte buffers and circular views

    [memcpy] with its bounds made explicit, and the reading of a buffer as a
    circle.  The ring buffer of the message queues ([k_ringbuf.c]) and the
    byte FIFO ([k_fifo.c]) are both proved against this view. *)

From S2P Require Import Prelude.
Local Open Scope Z_scope.

(** [n] bytes starting at [off]; [None] when they are not all inside [b]. *)
Definition slice (b : list Z) (off n : Z) : option (list Z) :=
  if decide (0 <= off /\ 0 <= n /\ off + n <= Z.of_nat (length b))
  then Some (take (Z.to_nat n) (drop (Z.to_nat off) b))
  else None.

(** [src] stored at [off]; [None] when it does not fit inside [b]. *)
Definition splice (b : list Z) (off : Z) (src : list Z) : option (list Z) :=
  if decide (0 <= off /\ off + Z.of_nat (length src) <= Z.of_nat (length b))
  then Some (take (Z.to_nat off) b ++ src ++ drop (Z.to_nat off + length src) b)
  else None.

(** [memcpy(dst + doff, src + soff, n)]: the new contents of [dst]. *)
Definition memcpy (dst : list Z) (doff : Z) (src : list Z) (soff n : Z) : option (list Z) :=
  s ← slice src soff n; splice dst doff s.

(** The [n] bytes met going round [b] from offset [h]. *)
Definition circ (b : list Z) (h n : Z) : list Z :=
  (fun i => b !!! Z.to_nat ((h + Z.of_nat i) mod Z.of_nat (length b))) <$> seq 0 (Z.to_nat n).

Lemma slice_length b off n s : slice b off n = Some s -> Z.of_nat (length s) = n.
Proof.
  unfold slice. case_decide; [|done]. intros [= <-].
  rewrite length_take, length_drop. lia.
Qed.

Lemma slice_all b : slice b 0 (Z.of_nat (length b)) = Some b.
Proof.
  unfold slice. rewrite decide_True by lia. rewrite Nat2Z.id. cbn. by rewrite firstn_all.
Qed.

Lemma slice_prefix b n : 0 <= n <= Z.of_nat (length b) -> slice b 0 n = Some (take (Z.to_nat n) b).
Proof. intros. unfold slice. rewrite decide_True by lia. done. Qed.

Lemma slice_suffix b n :
  0 <= n <= Z.of_nat (length b) ->
  slice b n (Z.of_nat (length b) - n) = Some (drop (Z.to_nat n) b).
Proof.
  intros. unfold slice. rewrite decide_True by lia. f_equal.
  rewrite take_ge; [done|]. rewrite length_drop. lia.
Qed.

Lemma splice_length b off src b' : splice b off src = Some b' -> length b' = length b.
Proof.
  unfold splice. case_decide; [|done]. intros [= <-].
  rewrite !length_app, length_take, length_drop. lia.
Qed.

Lemma splice_is_Some b off src :
  0 <= off -> off + Z.of_nat (length src) <= Z.of_nat (length b) -> is_Some (splice b off src).
Proof. intros. unfold splice. rewrite decide_True by lia. eauto. Qed.

Lemma splice_lookup b off src b' i :
  splice b off src = Some b' ->
  b' !! i = if decide (off <= Z.of_nat i < off + Z.of_nat (length src))
            then src !! (i - Z.to_nat off)%nat else b !! i.
Proof.
  unfold splice. case_decide as Hd; [|done]. intros [= <-].
  destruct (decide (Z.of_nat i < off)).
  - rewrite decide_False by lia. rewrite lookup_app_l by (rewrite length_take; lia).
    apply lookup_take_lt. lia.
  - rewrite lookup_app_r by (rewrite length_take; lia). rewrite length_take.
    rewrite Nat.min_l by lia. case_decide.
    + rewrite lookup_app_l by lia. done.
    + rewrite lookup_app_r by lia. rewrite lookup_drop. f_equal. lia.
Qed.

Lemma splice_nil b off b' : splice b off [] = Some b' -> b' = b.
Proof.
  unfold splice. case_decide; [|done]. intros [= <-]. cbn. rewrite Nat.add_0_r. apply take_drop.
Qed.

Lemma circ_length b h n : 0 <= n -> Z.of_nat (length (circ b h n)) = n.
Proof. intros. unfold circ. rewrite length_fmap, length_seq. lia. Qed.

Lemma circ_0 b h : circ b h 0 = [].
Proof. done. Qed.

Lemma circ_app b h m n : 0 <= m -> 0 <= n -> circ b h (m + n) = circ b h m ++ circ b (h + m) n.
Proof.
  intros. unfold circ. rewrite Z2Nat.inj_add, seq_app, fmap_app by lia. f_equal.
  rewrite Nat.add_0_l, <- (Nat.add_0_r (Z.to_nat m)), <- fmap_add_seq, <- list_fmap_compose.
  apply list_fmap_ext. intros _ i _. cbn. do 3 f_equal. lia.
Qed.

Lemma circ_turn b h h' n k :
  h' = h + k * Z.of_nat (length b) -> circ b h' n = circ b h n.
Proof.
  intros ->. unfold circ. apply list_fmap_ext. intros _ i _. cbn. do 2 f_equal.
  replace (h + k * Z.of_nat (length b) + Z.of_nat i) with (h + Z.of_nat i + k * Z.of_nat (length b)) by lia.
  destruct b as [|x b]; [by rewrite Z.mul_0_r, Z.add_0_r|]. rewrite Z.mod_add; [done|]. cbn; lia.
Qed.

Lemma slice_circ b h n :
  0 <= h -> 0 <= n -> h + n <= Z.of_nat (length b) -> slice b h n = Some (circ b h n).
Proof.
  intros. unfold slice. rewrite decide_True by lia. f_equal.
  apply list_eq_same_length with (n := Z.to_nat n).
  { pose proof (circ_length b h n). lia. }
  { rewrite length_take, length_drop. lia. }
  intros i x y Hi. rewrite lookup_take_lt, lookup_drop by lia. unfold circ.
  rewrite list_lookup_fmap, lookup_seq_lt by lia. cbn. intros Hx [= <-].
  rewrite Z.mod_small by lia. replace (Z.to_nat (h + Z.of_nat i)) with (Z.to_nat h + i)%nat by lia.
  symmetry. by apply list_lookup_total_correct.
Qed.

(** What was written is what is read back. *)
Lemma circ_splice_same b off src b' :
  splice b off src = Some b' -> circ b' off (Z.of_nat (length src)) = src.
Proof.
  intros Hs. pose proof (splice_length _ _ _ _ Hs).
  pose proof Hs as Hb. unfold splice in Hb. case_decide as Hd; [|done]. clear Hb.
  assert (slice b' off (Z.of_nat (length src)) = Some (circ b' off (Z.of_nat (length src)))) as E
    by (apply slice_circ; lia).
  unfold slice in E. rewrite decide_True in E by lia. injection E as <-.
  apply list_eq. intros i. destruct (decide (i < length src)%nat).
  - rewrite lookup_take_lt, lookup_drop by lia. rewrite (splice_lookup _ _ _ _ _ Hs).
    rewrite decide_True by lia. f_equal. lia.
  - rewrite lookup_take_ge, (lookup_ge_None_2 src) by lia. done.
Qed.

(** Bytes outside the written arc are kept. *)
Lemma circ_splice_other b off src b' h n k :
  splice b off src = Some b' -> 0 <= h ->
  h + n <= off + k * Z.of_nat (length b) ->
  off + k * Z.of_nat (length b) + Z.of_nat (length src) <= h + Z.of_nat (length b) ->
  circ b' h n = circ b h n.
Proof.
  intros Hs Hh Hlo Hhi. pose proof (splice_length _ _ _ _ Hs) as Hl.
  unfold circ. rewrite Hl. apply list_fmap_ext. intros i j [-> Hj]%lookup_seq. cbn. rewrite ?Nat.add_0_l.
  set (N := Z.of_nat (length b)) in *. set (p := (h + Z.of_nat i) mod N).
  pose proof Hs as Hb. unfold splice in Hb. case_decide as Hd; [|done]. clear Hb.
  destruct (decide (N = 0)) as [E0|]; [assert (length src = 0%nat) by lia|].
  - destruct b; [|cbn in *; lia]. destruct b'; [done|cbn in *; lia].
  - assert (0 <= p < N) by (apply Z.mod_pos_bound; lia).
    assert (h + Z.of_nat i = (h + Z.of_nat i) / N * N + p) as Hp
      by (unfold p; pose proof (Z.div_mod (h + Z.of_nat i) N); lia).
    rewrite !list_lookup_total_alt, (splice_lookup _ _ _ _ _ Hs).
    rewrite decide_False; [done|]. intros [H1 H2]. set (q := (h + Z.of_nat i) / N) in *.
    clearbody q p.
    assert (q = k \/ q <= k - 1 \/ k + 1 <= q) as [->|[Hq|Hq]] by lia; [lia|..].
    + assert (q * N <= (k - 1) * N) by (apply Z.mul_le_mono_nonneg_r; lia). lia.
    + assert ((k + 1) * N <= q * N) by (apply Z.mul_le_mono_nonneg_r; lia). lia.
Qed.

(** Reducing the starting point modulo the size. *)
Lemma circ_mod b h n : 0 < Z.of_nat (length b) -> circ b (h mod Z.of_nat (length b)) n = circ b h n.
Proof.
  intros HN. symmetry. apply circ_turn with (k := h / Z.of_nat (length b)).
  pose proof (Z.div_mod h (Z.of_nat (length b)) ltac:(lia)). lia.
Qed.

(** Writing [src] from position [h + used], in one piece up to the end of the
    buffer and the rest from its start. *)
Lemma circ_put b h used src off l :
  let N := Z.of_nat (length b) in
  0 < N -> 0 <= used -> used + Z.of_nat (length src) <= N ->
  off = (h + used) mod N -> l = Z.min (Z.of_nat (length src)) (N - off) ->
  exists b1 b2, memcpy b off src 0 l = Some b1 /\
    memcpy b1 0 src l (Z.of_nat (length src) - l) = Some b2 /\ length b2 = length b /\
    circ b2 h (used + Z.of_nat (length src)) = circ b h used ++ src.
Proof.
  intros N HN Hu Hlen Hoff Hl. pose proof (Z.mod_pos_bound (h + used) N HN).
  unfold memcpy. rewrite slice_prefix by lia. cbn [mbind option_bind].
  set (s1 := take (Z.to_nat l) src).
  assert (Z.of_nat (length s1) = l) as Hs1 by (unfold s1; rewrite length_take; lia).
  destruct (splice_is_Some b off s1) as [b1 Hb1]; [lia|lia|].
  rewrite slice_suffix by lia. cbn [mbind option_bind]. set (s2 := drop (Z.to_nat l) src).
  assert (Z.of_nat (length s2) = Z.of_nat (length src) - l) as Hs2 by (unfold s2; rewrite length_drop; lia).
  pose proof (splice_length _ _ _ _ Hb1) as Hl1.
  destruct (splice_is_Some b1 0 s2) as [b2 Hb2]; [lia|rewrite Hl1; lia|].
  pose proof (splice_length _ _ _ _ Hb2) as Hl2.
  exists b1, b2. split; [done|]. split; [done|]. split; [congruence|].
  set (h' := h mod N). pose proof (Z.mod_pos_bound h N HN).
  assert (exists k, h' + used = off + k * N) as [k Hk].
  { exists ((h + used) / N - h / N). unfold h'. pose proof (Z.div_mod h N). pose proof (Z.div_mod (h + used) N). lia. }
  assert (forall n, circ b2 h n = circ b2 h' n) as -> by (intros n; unfold h', N; rewrite <- Hl1, <- Hl2; symmetry; apply circ_mod; lia).
  rewrite <- (circ_mod b h used) by done. fold N h'.
  replace src with (s1 ++ s2) at 2 by apply take_drop.
  replace (used + Z.of_nat (length src)) with (used + (l + (Z.of_nat (length src) - l))) by lia.
  rewrite !circ_app, !app_assoc by lia.
  assert (circ b1 h' used = circ b h' used) as Hkeep
    by (apply (circ_splice_other b off s1 b1 h' used k); try done; fold N; lia).
  assert (circ b1 off l = s1) as Hput by (rewrite <- Hs1; by eapply circ_splice_same).
  destruct (decide (Z.of_nat (length src) - l = 0)) as [E|E].
  - assert (s2 = []) as -> by (destruct s2; [done|cbn in Hs2; lia]).
    apply splice_nil in Hb2 as ->. rewrite E, circ_0, !app_nil_r, Hkeep. f_equal.
    rewrite (circ_turn b1 off (h' + used) l k) by (rewrite Hl1; fold N; lia). done.
  - f_equal; [f_equal|].
    + rewrite (circ_splice_other b1 0 s2 b2 h' used (k + 1)) by (try done; rewrite ?Hl1; fold N; lia). exact Hkeep.
    + rewrite (circ_turn b2 off (h' + used) l k) by (rewrite Hl2, Hl1; fold N; lia).
      rewrite (circ_splice_other b1 0 s2 b2 off l 1) by (try done; rewrite ?Hl1; fold N; lia). done.
    + rewrite (circ_turn b2 0 (h' + used + l) _ (k + 1)) by (rewrite Hl2, Hl1; fold N; lia).
      rewrite <- Hs2. by eapply circ_splice_same.
Qed.

Lemma circ_take b h m n : 0 <= n <= m -> take (Z.to_nat n) (circ b h m) = circ b h n.
Proof.
  intros. replace m with (n + (m - n)) by lia. rewrite circ_app by lia.
  apply take_app_length'. pose proof (circ_length b h n). lia.
Qed.

Lemma circ_drop b h m n : 0 <= n <= m -> drop (Z.to_nat n) (circ b h m) = circ b (h + n) (m - n).
Proof.
  intros. replace m with (n + (m - n)) at 1 by lia. rewrite circ_app by lia.
  apply drop_app_length'. pose proof (circ_length b h n). lia.
Qed.

(** Reading [n] bytes from position [h], in one or two pieces. *)
Lemma circ_get b h n off l :
  let N := Z.of_nat (length b) in
  0 < N -> 0 <= n <= N -> off = h mod N -> l = Z.min n (N - off) ->
  exists s1 s2, slice b off l = Some s1 /\ slice b 0 (n - l) = Some s2 /\ s1 ++ s2 = circ b h n.
Proof.
  intros N HN Hn Hoff Hl. pose proof (Z.mod_pos_bound h N HN).
  exists (circ b off l), (circ b 0 (n - l)).
  rewrite !slice_circ by (fold N; lia). split; [done|]. split; [done|].
  rewrite <- (circ_mod b h n) by done. fold N. rewrite <- Hoff.
  replace n with (l + (n - l)) at 2 by lia. rewrite circ_app by lia. f_equal.
  destruct (decide (n - l = 0)) as [->|]; [done|].
  symmetry. apply circ_turn with (k := 1). fold N. lia.
Qed.
