(* ===== verification/RingBuf.v ===== *)
(** * Ring buffer of the message queues ([rhino/core/k_ringbuf.c])

    A [k_ringbuf_t] is the byte array between [buf] and [end] with the head and
    tail pointers kept as offsets from [buf].  An operation is [None] when it
    would touch a byte outside its buffers.  The theorems show that the split
    copies, the lazily wrapped pointers and the 1-3 byte length prefix implement
    a plain FIFO of messages. *)

From S2P Require Import Prelude KErr CircBuf.
Local Open Scope Z_scope.

Definition RINGBUF_TYPE_FIX : Z := 0.

Definition RINGBUF_TYPE_DYN : Z := 1.

Definition RINGBUF_LEN_MAX_SIZE : Z := 3.

Definition RINGBUF_LEN_MASK_ONEBIT : Z := 0x80.

Definition RINGBUF_LEN_MASK_TWOBIT : Z := 0xC0.

Definition RINGBUF_LEN_MASK_CLEAN_TWOBIT : Z := 0x3f.

Definition RINGBUF_LEN_VLE_2BYTES : Z := 0x80.

Definition RINGBUF_LEN_VLE_3BYTES : Z := 0xC0.

Definition RINGBUF_LEN_1BYTE_MAXVALUE : Z := 0x7f.

Definition RINGBUF_LEN_2BYTES_MAXVALUE : Z := 0x3fff.

Definition RINGBUF_LEN_3BYTES_MAXVALUE : Z := 0x3fffff.

Definition COMPRESS_LEN (x : Z) : Z :=
  if x <=? RINGBUF_LEN_1BYTE_MAXVALUE then 1
  else if x <=? RINGBUF_LEN_2BYTES_MAXVALUE then 2
  else if x <=? RINGBUF_LEN_3BYTES_MAXVALUE then 3
  else kstat_code RHINO_INV_PARAM.

(** [rb_buf] holds the bytes from [buf] to [end]; [rb_head] and [rb_tail] are
    [head - buf] and [tail - buf]. *)
Record k_ringbuf_t := mk_ringbuf {
  rb_buf : list Z;
  rb_head : Z;
  rb_tail : Z;
  rb_freesize : Z;
  rb_type : Z;
  rb_blk_size : Z
}.

(** [end - buf] *)
Definition rb_end (r : k_ringbuf_t) : Z := Z.of_nat (length (rb_buf r)).

(** Little-endian machine: the byte swap of [k_endian.h], and the bytes of a
    32-bit object in memory. *)
Definition krhino_ntohl (x : Z) : Z :=
  u32 (Z.lor (Z.lor (Z.lor (Z.shiftl (Z.land x 0x000000ff) 24)
                           (Z.shiftl (Z.land x 0x0000ff00) 8))
                    (Z.shiftr (Z.land x 0x00ff0000) 8))
             (Z.shiftr (Z.land x 0xff000000) 24)).

Definition u32_bytes (x : Z) : list Z :=
  [Z.land x 0xff; Z.land (Z.shiftr x 8) 0xff; Z.land (Z.shiftr x 16) 0xff; Z.land (Z.shiftr x 24) 0xff].

Definition u32_of_bytes (l : list Z) : Z :=
  (l !!! 0%nat) + (l !!! 1%nat) * 2 ^ 8 + (l !!! 2%nat) * 2 ^ 16 + (l !!! 3%nat) * 2 ^ 24.

Definition ringbuf_reset (r : k_ringbuf_t) : kstat_t * k_ringbuf_t :=
  (RHINO_SUCCESS, mk_ringbuf (rb_buf r) 0 0 (rb_end r) (rb_type r) (rb_blk_size r)).

(** [buf] is the memory handed over by the caller, [len] bytes of it are used. *)
Definition ringbuf_init (buf : list Z) (len type block_size : Z) : kstat_t * k_ringbuf_t :=
  let r := mk_ringbuf (take (Z.to_nat len) buf) 0 0 0 type block_size in
  (RHINO_SUCCESS, snd (ringbuf_reset r)).

(** Returns the number of prefix bytes and [cmp_buf]. *)
Definition ringbuf_headlen_compress (head_len : Z) : Z * list Z :=
  let be_len := krhino_ntohl head_len in
  let p_len := u32_bytes be_len in
  let len_bytes := COMPRESS_LEN head_len in
  let cmp_buf :=
    if len_bytes =? 1 then [Z.land RINGBUF_LEN_1BYTE_MAXVALUE (p_len !!! 3%nat); 0; 0]
    else if len_bytes =? 2 then [Z.lor RINGBUF_LEN_VLE_2BYTES (p_len !!! 2%nat); p_len !!! 3%nat; 0]
    else if len_bytes =? 3 then
      [Z.lor RINGBUF_LEN_VLE_3BYTES (p_len !!! 1%nat); p_len !!! 2%nat; p_len !!! 3%nat]
    else [0; 0; 0] in
  (len_bytes, cmp_buf).

Definition ringbuf_headlen_decompress (buf_len : Z) (cmp_buf : list Z) : option Z :=
  len_buf ← memcpy [0; 0; 0; 0] (4 - buf_len) cmp_buf 0 buf_len;
  len_buf ←
    (if 1 <? buf_len then
       c ← arr_get len_buf (4 - buf_len);
       arr_set len_buf (4 - buf_len) (Z.land c RINGBUF_LEN_MASK_CLEAN_TWOBIT)
     else Some len_buf);
  Some (krhino_ntohl (u32_of_bytes len_buf)).

Definition ringbuf_is_full (r : k_ringbuf_t) : bool :=
  if (rb_type r =? RINGBUF_TYPE_DYN) && (rb_freesize r <? 2) then true
  else if (rb_type r =? RINGBUF_TYPE_FIX) && (rb_freesize r <? rb_blk_size r) then true
  else false.

Definition ringbuf_is_empty (r : k_ringbuf_t) : bool := rb_freesize r =? rb_end r.

(** [if (tail == end) tail = buf;] *)
Definition rb_wrap_tail (r : k_ringbuf_t) : k_ringbuf_t :=
  if rb_tail r =? rb_end r
  then mk_ringbuf (rb_buf r) (rb_head r) 0 (rb_freesize r) (rb_type r) (rb_blk_size r) else r.

(** [if (head == end) head = buf;] *)
Definition rb_wrap_head (r : k_ringbuf_t) : k_ringbuf_t :=
  if rb_head r =? rb_end r
  then mk_ringbuf (rb_buf r) 0 (rb_tail r) (rb_freesize r) (rb_type r) (rb_blk_size r) else r.

(** [memcpy(tail, src + soff, n); tail = new_tail; freesize -= n;] *)
Definition rb_store (r : k_ringbuf_t) (src : list Z) (soff n new_tail : Z) : option k_ringbuf_t :=
  b ← memcpy (rb_buf r) (rb_tail r) src soff n;
  Some (mk_ringbuf b (rb_head r) new_tail (rb_freesize r - n) (rb_type r) (rb_blk_size r)).

(** Read [n] bytes at [head]; [head = new_head; freesize += n;] *)
Definition rb_load (r : k_ringbuf_t) (n new_head : Z) : option (list Z * k_ringbuf_t) :=
  s ← slice (rb_buf r) (rb_head r) n;
  Some (s, mk_ringbuf (rb_buf r) new_head (rb_tail r) (rb_freesize r + n) (rb_type r) (rb_blk_size r)).

(** The copy used twice by the dynamic push: [n] bytes of [src], split at the
    end of the buffer when the free space starts behind the head. *)
Definition rb_push_split (r : k_ringbuf_t) (src : list Z) (n : Z)
  : option (k_ringbuf_t * Z * Z) :=
  let split_len := rb_end r - rb_tail r in
  if (rb_head r <=? rb_tail r) && (split_len <? n) && (0 <? split_len)
  then r' ← rb_store r src 0 split_len 0; Some (r', split_len, n - split_len)
  else Some (r, 0, n).

Definition ringbuf_push (r : k_ringbuf_t) (data : list Z) (len : Z)
  : option (kstat_t * k_ringbuf_t) :=
  if ringbuf_is_full r then Some (RHINO_RINGBUF_FULL, r)
  else if rb_type r =? RINGBUF_TYPE_FIX then
    let r := rb_wrap_tail r in
    r ← rb_store r data 0 (rb_blk_size r) (rb_tail r + rb_blk_size r);
    Some (RHINO_SUCCESS, r)
  else
    let '(len_bytes, c_len) := ringbuf_headlen_compress len in
    if (len_bytes =? 0) || (RINGBUF_LEN_MAX_SIZE <? len_bytes) then Some (RHINO_INV_PARAM, r)
    else if rb_freesize r <? len_bytes + len then Some (RHINO_RINGBUF_FULL, r)
    else
      let r := rb_wrap_tail r in
      (* copy length data to buffer *)
      '(r, split_len, len_bytes) ← rb_push_split r c_len len_bytes;
      r ← (if 0 <? len_bytes
           then rb_store r c_len split_len len_bytes (rb_tail r + len_bytes) else Some r);
      (* copy data to ringbuf, if break by buffer end, split data and copy to buffer head *)
      let r := rb_wrap_tail r in
      '(r, split_len, len) ← rb_push_split r data len;
      r ← rb_store r data split_len len (rb_tail r + len);
      Some (RHINO_SUCCESS, r).

(** The first prefix byte tells how long the prefix is. *)
Definition prefix_size (c : Z) : option Z :=
  if Z.land c RINGBUF_LEN_MASK_ONEBIT =? 0 then Some 1
  else if Z.land c RINGBUF_LEN_MASK_TWOBIT =? RINGBUF_LEN_VLE_2BYTES then Some 2
  else if Z.land c RINGBUF_LEN_MASK_TWOBIT =? RINGBUF_LEN_VLE_3BYTES then Some 3
  else None.

(** The [len_bytes] prefix bytes, split at the end of the buffer. *)
Definition rb_pop_prefix (r : k_ringbuf_t) (len_bytes : Z) : option (list Z * k_ringbuf_t) :=
  let split_len := rb_end r - rb_head r in
  '(c1, r, split_len) ←
    (if (split_len <? len_bytes) && (0 <? split_len)
     then '(c1, r) ← rb_load r split_len 0; Some (c1, r, split_len)
     else Some ([], r, 0));
  '(c2, r) ←
    (if 0 <? len_bytes - split_len
     then rb_load r (len_bytes - split_len) (rb_head r + (len_bytes - split_len))
     else Some ([], r));
  Some (c1 ++ c2, r).

(** The [len] payload bytes, split when the head is behind the tail. *)
Definition rb_pop_data (r : k_ringbuf_t) (len : Z) : option (list Z * k_ringbuf_t) :=
  let split_len := rb_end r - rb_head r in
  '(d1, r, len) ←
    (if (rb_tail r <? rb_head r) && (split_len <? len)
     then '(d1, r) ← rb_load r split_len 0; Some (d1, r, len - split_len)
     else Some ([], r, len));
  '(d2, r) ← rb_load r len (rb_head r + len);
  Some (d1 ++ d2, r).

(** Answers the status, the bytes stored through [pdata] and the value stored
    through [plen] (nothing is stored on an error). *)
Definition ringbuf_pop (r : k_ringbuf_t) : option (kstat_t * option (list Z * Z) * k_ringbuf_t) :=
  if ringbuf_is_empty r then Some (RHINO_RINGBUF_EMPTY, None, r)
  else if rb_type r =? RINGBUF_TYPE_FIX then
    let r := rb_wrap_head r in
    '(d, r) ← rb_load r (rb_blk_size r) (rb_head r + rb_blk_size r);
    Some (RHINO_SUCCESS, Some (d, rb_blk_size r), r)
  else
    let r := rb_wrap_head r in
    (* decode length *)
    c ← arr_get (rb_buf r) (rb_head r);
    match prefix_size c with
    | None => Some (RHINO_INV_PARAM, None, r)
    | Some len_bytes =>
        '(c_len, r) ← rb_pop_prefix r len_bytes;
        len ← ringbuf_headlen_decompress len_bytes (take 3 (c_len ++ [0; 0; 0]));
        let r := rb_wrap_head r in
        '(d, r) ← rb_pop_data r len;
        Some (RHINO_SUCCESS, Some (d, len), r)
    end.

(** ** The vendor entry points ([RHINO_CONFIG_RINGBUF_VENDOR]) *)

Definition krhino_ringbuf_init (buf : option (list Z)) (len type block_size : Z)
  : kstat_t * option k_ringbuf_t :=
  match buf with
  | None => (RHINO_NULL_PTR, None)
  | Some buf =>
      if (len =? 0) || (negb (type =? RINGBUF_TYPE_DYN) && negb (type =? RINGBUF_TYPE_FIX))
      then (RHINO_INV_PARAM, None)
      else if (type =? RINGBUF_TYPE_FIX)
              && ((len =? 0) || (block_size =? 0) || negb (len mod block_size =? 0))
      then (RHINO_INV_PARAM, None)
      else let '(err, r) := ringbuf_init buf len type block_size in (err, Some r)
  end.

Definition krhino_ringbuf_push (r : k_ringbuf_t) (data : option (list Z)) (len : Z)
  : option (kstat_t * k_ringbuf_t) :=
  match data with
  | None => Some (RHINO_NULL_PTR, r)
  | Some data =>
      if (len <=? 0) || (RINGBUF_LEN_3BYTES_MAXVALUE <? len)
         || ((rb_type r =? RINGBUF_TYPE_FIX) && negb (len =? rb_blk_size r))
      then Some (RHINO_INV_PARAM, r)
      else ringbuf_push r data len
  end.

(** [plen_null]: the caller passed [plen == NULL]. *)
Definition krhino_ringbuf_pop (r : k_ringbuf_t) (pdata_null plen_null : bool)
  : option (kstat_t * option (list Z * Z) * k_ringbuf_t) :=
  if pdata_null then Some (RHINO_NULL_PTR, None, r)
  else if (rb_type r =? RINGBUF_TYPE_DYN) && plen_null then Some (RHINO_INV_PARAM, None, r)
  else ringbuf_pop r.

Definition krhino_ringbuf_reset (r : k_ringbuf_t) : kstat_t * k_ringbuf_t := ringbuf_reset r.

Definition krhino_ringbuf_is_full (r : k_ringbuf_t) : bool := ringbuf_is_full r.

Definition krhino_ringbuf_is_empty (r : k_ringbuf_t) : bool := ringbuf_is_empty r.

(** ** Abstraction: the byte string in the ring *)

Definition rb_used (r : k_ringbuf_t) : Z := rb_end r - rb_freesize r.

Definition rb_bytes (r : k_ringbuf_t) : list Z := circ (rb_buf r) (rb_head r) (rb_used r).

(** Head and tail are inside [buf .. end] and the tail is [used] bytes after
    the head on the circle. *)
Record rb_ok (r : k_ringbuf_t) : Prop := {
  rbo_pos : 0 < rb_end r;
  rbo_free : 0 <= rb_freesize r <= rb_end r;
  rbo_head : 0 <= rb_head r <= rb_end r;
  rbo_tail : 0 <= rb_tail r <= rb_end r;
  rbo_turn : rb_tail r = rb_head r + rb_used r
             \/ rb_tail r = rb_head r + rb_used r - rb_end r
             \/ rb_tail r = rb_head r + rb_used r - 2 * rb_end r
}.

(** ** The length prefix *)

Definition byte_of (x k : Z) : Z := (x / 2 ^ (8 * k)) mod 2 ^ 8.

Lemma byte_of_range x k : 0 <= byte_of x k < 256.
Proof. apply Z.mod_pos_bound. lia. Qed.

Lemma u32_bytes_byte_of x : u32_bytes x = [byte_of x 0; byte_of x 1; byte_of x 2; byte_of x 3].
Proof.
  unfold u32_bytes, byte_of. change 0xff with (2 ^ 8 - 1).
  rewrite !land_low_mask, !Z.shiftr_div_pow2 by lia. by rewrite Z.div_1_r.
Qed.

Lemma ntohl_bytes x :
  krhino_ntohl x = byte_of x 0 * 2 ^ 24 + byte_of x 1 * 2 ^ 16 + byte_of x 2 * 2 ^ 8 + byte_of x 3.
Proof.
  unfold krhino_ntohl.
  change 0x000000ff with ((2 ^ 8 - 1) * 2 ^ 0). change 0x0000ff00 with ((2 ^ 8 - 1) * 2 ^ 8).
  change 0x00ff0000 with ((2 ^ 8 - 1) * 2 ^ 16). change 0xff000000 with ((2 ^ 8 - 1) * 2 ^ 24).
  rewrite !land_field by lia.
  change (x / 2 ^ 0 mod 2 ^ 8) with (byte_of x 0). change (x / 2 ^ 8 mod 2 ^ 8) with (byte_of x 1).
  change (x / 2 ^ 16 mod 2 ^ 8) with (byte_of x 2). change (x / 2 ^ 24 mod 2 ^ 8) with (byte_of x 3).
  pose proof (byte_of_range x 0). pose proof (byte_of_range x 1).
  pose proof (byte_of_range x 2). pose proof (byte_of_range x 3).
  rewrite !Z.shiftl_mul_pow2, !Z.shiftr_div_pow2 by lia.
  change (2 ^ 0) with 1. rewrite Z.mul_1_r.
  replace (byte_of x 1 * 2 ^ 8 * 2 ^ 8) with (byte_of x 1 * 2 ^ 16) by lia.
  replace (byte_of x 2 * 2 ^ 16 / 2 ^ 8) with (byte_of x 2 * 2 ^ 8)
    by (change (2 ^ 16) with (2 ^ 8 * 2 ^ 8); rewrite Z.mul_assoc, Z.div_mul; lia).
  replace (byte_of x 3 * 2 ^ 24 / 2 ^ 24) with (byte_of x 3) by (rewrite Z.div_mul; lia).
  rewrite (lor_add 24) by lia.
  replace (byte_of x 0 * 2 ^ 24 + byte_of x 1 * 2 ^ 16)
    with ((byte_of x 0 * 2 ^ 8 + byte_of x 1) * 2 ^ 16) by lia.
  rewrite (lor_add 16) by lia.
  replace ((byte_of x 0 * 2 ^ 8 + byte_of x 1) * 2 ^ 16 + byte_of x 2 * 2 ^ 8)
    with ((byte_of x 0 * 2 ^ 16 + byte_of x 1 * 2 ^ 8 + byte_of x 2) * 2 ^ 8) by lia.
  rewrite (lor_add 8) by lia. unfold u32. rewrite wrap_small; lia.
Qed.

Lemma byte_of_add b0 b1 b2 b3 :
  0 <= b0 < 256 -> 0 <= b1 < 256 -> 0 <= b2 < 256 -> 0 <= b3 < 256 ->
  let x := b3 * 2 ^ 24 + b2 * 2 ^ 16 + b1 * 2 ^ 8 + b0 in
  byte_of x 0 = b0 /\ byte_of x 1 = b1 /\ byte_of x 2 = b2 /\ byte_of x 3 = b3.
Proof. intros. unfold byte_of, x. cbn -[Z.div Z.modulo]. repeat split; Z.div_mod_to_equations; lia. Qed.

(** The prefix written for a length, by range. *)
Definition enc_len (len : Z) : list Z :=
  if len <=? 0x7f then [len]
  else if len <=? 0x3fff then [0x80 + len / 2 ^ 8; len mod 2 ^ 8]
  else [0xC0 + len / 2 ^ 16; len / 2 ^ 8 mod 2 ^ 8; len mod 2 ^ 8].

Lemma compress_spec len :
  0 <= len <= RINGBUF_LEN_3BYTES_MAXVALUE ->
  exists pad, ringbuf_headlen_compress len = (Z.of_nat (length (enc_len len)), enc_len len ++ pad)
    /\ length (enc_len len ++ pad) = 3%nat.
Proof.
  unfold RINGBUF_LEN_3BYTES_MAXVALUE. intros Hlen. unfold ringbuf_headlen_compress.
  assert (u32_bytes (krhino_ntohl len) = [byte_of len 3; byte_of len 2; byte_of len 1; byte_of len 0]) as ->.
  { rewrite u32_bytes_byte_of, ntohl_bytes.
    destruct (byte_of_add (byte_of len 3) (byte_of len 2) (byte_of len 1) (byte_of len 0)) as (-> & -> & -> & ->);
      try apply byte_of_range. done. }
  cbn [lookup_total list_lookup_total].
  unfold COMPRESS_LEN, enc_len, RINGBUF_LEN_1BYTE_MAXVALUE, RINGBUF_LEN_2BYTES_MAXVALUE,
    RINGBUF_LEN_3BYTES_MAXVALUE, RINGBUF_LEN_VLE_2BYTES, RINGBUF_LEN_VLE_3BYTES, byte_of.
  destruct (Z.leb_spec len 0x7f); [|destruct (Z.leb_spec len 0x3fff); [|destruct (Z.leb_spec len 0x3fffff); [|lia]]]; cbn [Z.eqb Pos.eqb].
  - exists [0; 0]. split; [|done]. repeat f_equal. change 0x7f with (2 ^ 7 - 1).
    rewrite Z.land_comm, land_low_mask by lia. change (2 ^ (8 * 0)) with 1.
    rewrite Z.div_1_r. rewrite (Z.mod_small len (2 ^ 8)), (Z.mod_small len (2 ^ 7)) by lia. done.
  - exists [0]. split; [|done].
    replace (len / 2 ^ (8 * 1) mod 2 ^ 8) with (len / 2 ^ 8) by (change (8 * 1) with 8; Z.div_mod_to_equations; lia).
    replace (len / 2 ^ (8 * 0) mod 2 ^ 8) with (len mod 2 ^ 8) by (change (2 ^ (8 * 0)) with 1; by rewrite Z.div_1_r).
    change (Z.lor 0x80 (len / 2 ^ 8)) with (Z.lor (1 * 2 ^ 7) (len / 2 ^ 8)).
    rewrite lor_add by (Z.div_mod_to_equations; lia). done.
  - exists []. split; [|done].
    replace (len / 2 ^ (8 * 2) mod 2 ^ 8) with (len / 2 ^ 16) by (change (8 * 2) with 16; Z.div_mod_to_equations; lia).
    replace (len / 2 ^ (8 * 0) mod 2 ^ 8) with (len mod 2 ^ 8) by (change (2 ^ (8 * 0)) with 1; by rewrite Z.div_1_r).
    change (Z.lor 0xC0 (len / 2 ^ 16)) with (Z.lor (3 * 2 ^ 6) (len / 2 ^ 16)).
    rewrite lor_add by (Z.div_mod_to_equations; lia). done.
Qed.

Lemma decompress_spec len :
  0 <= len <= RINGBUF_LEN_3BYTES_MAXVALUE ->
  ringbuf_headlen_decompress (Z.of_nat (length (enc_len len))) (take 3 (enc_len len ++ [0; 0; 0])) = Some len.
Proof.
  unfold RINGBUF_LEN_3BYTES_MAXVALUE. intros Hlen. unfold enc_len.
  assert (forall b0 b1 b2 : Z, 0 <= b0 < 256 -> 0 <= b1 < 256 -> 0 <= b2 < 256 ->
    krhino_ntohl (u32_of_bytes [0; b2; b1; b0]) = b2 * 2 ^ 16 + b1 * 2 ^ 8 + b0) as Hn.
  { intros. rewrite ntohl_bytes. unfold u32_of_bytes. cbn [lookup_total list_lookup_total].
    replace (0 + b2 * 2 ^ 8 + b1 * 2 ^ 16 + b0 * 2 ^ 24) with (b0 * 2 ^ 24 + b1 * 2 ^ 16 + b2 * 2 ^ 8 + 0) by lia.
    destruct (byte_of_add 0 b2 b1 b0) as (-> & -> & -> & ->); lia. }
  destruct (Z.leb_spec len 0x7f); [|destruct (Z.leb_spec len 0x3fff)].
  - transitivity (Some (krhino_ntohl (u32_of_bytes [0; 0; 0; len]))); [reflexivity|].
    rewrite Hn by lia. f_equal; lia.
  - transitivity (Some (krhino_ntohl (u32_of_bytes
      [0; 0; Z.land (0x80 + len / 2 ^ 8) (2 ^ 6 - 1); len mod 2 ^ 8]))); [reflexivity|].
    rewrite land_low_mask by lia. rewrite Hn; [f_equal|..]; Z.div_mod_to_equations; lia.
  - transitivity (Some (krhino_ntohl (u32_of_bytes
      [0; Z.land (0xC0 + len / 2 ^ 16) (2 ^ 6 - 1); len / 2 ^ 8 mod 2 ^ 8; len mod 2 ^ 8]))); [reflexivity|].
    rewrite land_low_mask by lia. rewrite Hn; [f_equal|..]; Z.div_mod_to_equations; lia.
Qed.

(** ** Chunks on the circle *)

Ltac rb_lia :=
  unfold rb_used in *; unfold rb_end in *;
  cbn [rb_buf rb_head rb_tail rb_freesize rb_type rb_blk_size] in *; lia.

(** Same storage size and configuration. *)
Definition rb_same (r r' : k_ringbuf_t) : Prop :=
  rb_end r' = rb_end r /\ rb_type r' = rb_type r /\ rb_blk_size r' = rb_blk_size r.

#[export] Instance rb_same_trans : Transitive rb_same.
Proof. unfold rb_same. intros ???. intuition congruence. Qed.

#[export] Instance rb_same_refl : Reflexive rb_same.
Proof. done. Qed.

Lemma rb_wrap_tail_ok r :
  rb_ok r ->
  let r' := rb_wrap_tail r in
  rb_ok r' /\ rb_same r r' /\ rb_bytes r' = rb_bytes r /\ rb_freesize r' = rb_freesize r /\
  0 <= rb_tail r' < rb_end r'.
Proof.
  intros [Hp Hf Hh Ht Hturn]. unfold rb_wrap_tail.
  destruct (Z.eqb_spec (rb_tail r) (rb_end r)); cbn zeta.
  - split; [constructor; rb_lia|]. split; [done|]. split; [done|]. rb_lia.
  - split; [by constructor|]. split; [done|]. split; [done|]. lia.
Qed.

Lemma rb_wrap_head_ok r :
  rb_ok r -> 0 < rb_used r ->
  let r' := rb_wrap_head r in
  rb_ok r' /\ rb_same r r' /\ rb_bytes r' = rb_bytes r /\ rb_freesize r' = rb_freesize r /\
  0 <= rb_head r' < rb_end r'.
Proof.
  intros [Hp Hf Hh Ht Hturn] Hu. unfold rb_wrap_head.
  destruct (Z.eqb_spec (rb_head r) (rb_end r)) as [E|]; cbn zeta.
  - split; [constructor; rb_lia|]. split; [done|]. split; [|rb_lia].
    unfold rb_bytes, rb_used; unfold rb_end; cbn. symmetry. apply circ_turn with (k := 1).
    unfold rb_end in E. lia.
  - split; [by constructor|]. split; [done|]. split; [done|]. lia.
Qed.

(** Storing a chunk that fits before the end of the buffer appends it. *)
Lemma rb_store_ok r src soff n t' :
  rb_ok r -> 0 <= soff -> 0 <= n -> soff + n <= Z.of_nat (length src) ->
  n <= rb_freesize r -> rb_tail r + n <= rb_end r ->
  t' = rb_tail r + n \/ t' = 0 /\ rb_tail r + n = rb_end r ->
  exists r', rb_store r src soff n t' = Some r' /\ rb_ok r' /\ rb_same r r' /\
    rb_bytes r' = rb_bytes r ++ take (Z.to_nat n) (drop (Z.to_nat soff) src) /\
    rb_freesize r' = rb_freesize r - n /\ rb_head r' = rb_head r /\ rb_tail r' = t'.
Proof.
  intros [Hp Hf Hh Ht Hturn] Hso Hn Hsl Hnf Hfit Ht'.
  unfold rb_store, memcpy, slice. rewrite decide_True by lia. cbn [mbind option_bind].
  set (s := take (Z.to_nat n) (drop (Z.to_nat soff) src)).
  assert (Z.of_nat (length s) = n) as Hs by (unfold s; rewrite length_take, length_drop; lia).
  destruct (splice_is_Some (rb_buf r) (rb_tail r) s) as [b' Hb]; [lia|unfold rb_end in *; lia|].
  rewrite Hb. cbn [mbind option_bind]. eexists. split; [done|].
  pose proof (splice_length _ _ _ _ Hb) as Hl.
  assert (rb_end (mk_ringbuf b' (rb_head r) t' (rb_freesize r - n) (rb_type r) (rb_blk_size r)) = rb_end r) as He
    by (unfold rb_end; cbn; lia).
  split; [constructor; unfold rb_used; rewrite ?He; rb_lia|].
  split; [done|]. split; [|done]. unfold rb_bytes, rb_used. rewrite He. cbn.
  replace (rb_end r - (rb_freesize r - n)) with (rb_used r + n) by (unfold rb_used; lia).
  rewrite circ_app by (unfold rb_used; lia). unfold rb_used in *; unfold rb_end in *.
  destruct Hturn as [Hk|[Hk|Hk]].
  - f_equal; [apply (circ_splice_other _ _ _ _ _ _ 0 Hb); lia|].
    rewrite <- Hk, <- Hs. by eapply circ_splice_same.
  - f_equal; [apply (circ_splice_other _ _ _ _ _ _ 1 Hb); lia|].
    rewrite (circ_turn b' (rb_tail r) _ n 1) by lia. rewrite <- Hs. by eapply circ_splice_same.
  - f_equal; [apply (circ_splice_other _ _ _ _ _ _ 2 Hb); lia|].
    rewrite (circ_turn b' (rb_tail r) _ n 2) by lia. rewrite <- Hs. by eapply circ_splice_same.
Qed.

(** Loading a chunk that ends before the end of the buffer removes it. *)
Lemma rb_load_ok r n h' :
  rb_ok r -> 0 <= n <= rb_used r -> rb_head r + n <= rb_end r ->
  h' = rb_head r + n \/ h' = 0 /\ rb_head r + n = rb_end r /\ n < rb_used r ->
  exists r', rb_load r n h' = Some (take (Z.to_nat n) (rb_bytes r), r') /\ rb_ok r' /\ rb_same r r' /\
    rb_bytes r' = drop (Z.to_nat n) (rb_bytes r) /\
    rb_freesize r' = rb_freesize r + n /\ rb_tail r' = rb_tail r /\ rb_head r' = h'.
Proof.
  intros [Hp Hf Hh Ht Hturn] Hn Hfit Hh'. unfold rb_load.
  rewrite slice_circ by (unfold rb_end in *; lia). cbn [mbind option_bind].
  assert (rb_bytes r = circ (rb_buf r) (rb_head r) n ++ circ (rb_buf r) (rb_head r + n) (rb_used r - n)) as Hb.
  { rewrite <- circ_app by lia. unfold rb_bytes. f_equal. lia. }
  pose proof (circ_length (rb_buf r) (rb_head r) n ltac:(lia)).
  eexists. split; [do 2 f_equal; rewrite Hb; symmetry; apply take_app_length'; lia|].
  split; [constructor; rb_lia|]. split; [done|].
  split; [|done]. rewrite Hb, drop_app_length' by lia.
  unfold rb_bytes, rb_used; unfold rb_end; cbn.
  replace (Z.of_nat (length (rb_buf r)) - (rb_freesize r + n)) with (rb_used r - n) by (unfold rb_used, rb_end; lia).
  destruct Hh' as [->|(-> & E & _)]; [done|]. symmetry. apply circ_turn with (k := 1). unfold rb_end in *. lia.
Qed.

(** The two-step copies of the push, as one append. *)
Lemma rb_push_copy r src n :
  rb_ok r -> 0 < n <= rb_freesize r -> n <= Z.of_nat (length src) ->
  exists r1 off n1 r2,
    rb_push_split (rb_wrap_tail r) src n = Some (r1, off, n1) /\ 0 < n1 /\
    rb_store r1 src off n1 (rb_tail r1 + n1) = Some r2 /\
    rb_ok r2 /\ rb_same r r2 /\ rb_freesize r2 = rb_freesize r - n /\
    rb_bytes r2 = rb_bytes r ++ take (Z.to_nat n) src.
Proof.
  intros Hok Hn Hsrc. destruct (rb_wrap_tail_ok r Hok) as (Hok0 & Hsame0 & Hb0 & Hf0 & Ht0).
  set (r0 := rb_wrap_tail r) in *. rewrite <- Hb0, <- Hf0 in *.
  pose proof Hok0 as [Hp Hf Hh Ht Hturn]. unfold rb_push_split.
  destruct ((rb_head r0 <=? rb_tail r0) && (rb_end r0 - rb_tail r0 <? n) && (0 <? rb_end r0 - rb_tail r0)) eqn:E.
  - zbool. set (m := rb_end r0 - rb_tail r0) in *.
    destruct (rb_store_ok r0 src 0 m 0) as (r1 & E1 & Hok1 & Hs1 & Hb1 & Hf1 & Hh1 & Ht1); try done; try lia.
    rewrite E1. cbn [mbind option_bind].
    pose proof Hs1 as (He1 & _). pose proof Hok1 as [_ _ _ _ Hturn1]. unfold rb_used in *.
    destruct (rb_store_ok r1 src m (n - m) (rb_tail r1 + (n - m))) as (r2 & E2 & Hok2 & Hs2 & Hb2 & Hf2 & _);
      try done; try lia.
    exists r1, m, (n - m), r2. split_and!; try done; try lia.
    + etransitivity; [exact Hsame0|]. by etransitivity; [exact Hs1|].
    + rewrite Hb2, Hb1, <- app_assoc. f_equal. rewrite drop_0.
      rewrite <- (take_drop (Z.to_nat m) (take (Z.to_nat n) src)).
      rewrite take_take, Nat.min_l by lia. f_equal. rewrite skipn_firstn_comm. f_equal. lia.
  - destruct (rb_store_ok r0 src 0 n (rb_tail r0 + n)) as (r2 & E2 & Hok2 & Hs2 & Hb2 & Hf2 & _); try done; try lia.
    + unfold rb_used in *. rewrite !andb_false_iff in E. destruct E as [[E|E]|E]; zbool; lia.
    + exists r0, 0, n, r2. split_and!; try done; try lia. by etransitivity.
Qed.

(** Reading [n] bytes in the two-step fashion of the pop. [chk] is the
    additional condition [head > tail] of the second copy. *)
Lemma rb_pop_copy r n (chk : bool) :
  rb_ok r -> 0 < n <= rb_used r -> (chk = true -> rb_used r < rb_end r) ->
  let r0 := rb_wrap_head r in
  let m := rb_end r0 - rb_head r0 in
  exists r2,
    rb_ok r2 /\ rb_same r r2 /\ rb_freesize r2 = rb_freesize r + n /\
    rb_bytes r2 = drop (Z.to_nat n) (rb_bytes r) /\ 0 < m /\
    (if (if chk then rb_tail r0 <? rb_head r0 else true) && (m <? n)
     then exists d1 d2 r1, rb_load r0 m 0 = Some (d1, r1) /\
            rb_load r1 (n - m) (rb_head r1 + (n - m)) = Some (d2, r2) /\
            d1 ++ d2 = take (Z.to_nat n) (rb_bytes r)
     else rb_load r0 n (rb_head r0 + n) = Some (take (Z.to_nat n) (rb_bytes r), r2)).
Proof.
  intros Hok Hn Hchk. destruct (rb_wrap_head_ok r Hok) as (Hok0 & Hsame0 & Hb0 & Hf0 & Hh0); [lia|].
  set (r0 := rb_wrap_head r) in *. intros ? m. subst r1.
  assert (rb_used r0 = rb_used r) as Hu by (unfold rb_used; destruct Hsame0; lia).
  assert (rb_end r0 = rb_end r) as He by apply Hsame0.
  rewrite <- Hb0, <- Hf0. rewrite <- Hu, <- He in *.
  pose proof Hok0 as [Hp Hf Hh Ht Hturn].
  destruct (m <? n) eqn:Emn; zbool.
  - assert ((if chk then rb_tail r0 <? rb_head r0 else true) = true) as ->.
    { destruct chk; [|done]. specialize (Hchk eq_refl). apply Z.ltb_lt. unfold rb_used in *. lia. }
    destruct (rb_load_ok r0 m 0) as (r1 & E1 & Hok1 & Hs1 & Hb1 & Hf1 & Ht1 & Hh1); [done|lia|lia|lia|].
    assert (rb_used r1 = rb_used r0 - m) as Hu1 by (unfold rb_used; destruct Hs1; lia).
    assert (rb_end r1 = rb_end r0) as He1 by apply Hs1.
    destruct (rb_load_ok r1 (n - m) (rb_head r1 + (n - m))) as (r2 & E2 & Hok2 & Hs2 & Hb2 & Hf2 & _);
      [done|lia|unfold rb_used in *; lia|by left|].
    exists r2. split; [done|].
    split; [etransitivity; [exact Hsame0|]; by etransitivity; [exact Hs1|]|].
    split; [lia|]. split; [rewrite Hb2, Hb1, drop_drop; f_equal; lia|]. split; [lia|]. cbn [andb].
    exists (take (Z.to_nat m) (rb_bytes r0)), (take (Z.to_nat (n - m)) (rb_bytes r1)), r1.
    split; [done|]. split; [done|].
    rewrite Hb1. rewrite <- (take_drop (Z.to_nat m) (take (Z.to_nat n) (rb_bytes r0))).
    rewrite take_take, Nat.min_l by lia. f_equal. rewrite skipn_firstn_comm. f_equal. lia.
  - rewrite andb_false_r.
    destruct (rb_load_ok r0 n (rb_head r0 + n)) as (r2 & E2 & Hok2 & Hs2 & Hb2 & Hf2 & _); [done|lia|lia|by left|].
    exists r2. split; [done|]. split; [by etransitivity|]. split; [lia|]. split; [done|]. split; [lia|done].
Qed.

Lemma rb_pop_prefix_ok r n :
  rb_ok r -> 0 < n <= rb_used r ->
  exists r2, rb_pop_prefix (rb_wrap_head r) n = Some (take (Z.to_nat n) (rb_bytes r), r2) /\
    rb_ok r2 /\ rb_same r r2 /\ rb_freesize r2 = rb_freesize r + n /\
    rb_bytes r2 = drop (Z.to_nat n) (rb_bytes r).
Proof.
  intros Hok Hn. destruct (rb_pop_copy r n false) as (r2 & Hok2 & Hs2 & Hf2 & Hb2 & Hm & Hl); [done|done|done|].
  exists r2. split; [|done]. unfold rb_pop_prefix. cbn [andb] in Hl.
  destruct (Z.ltb_spec (rb_end (rb_wrap_head r) - rb_head (rb_wrap_head r)) n);
    destruct (Z.ltb_spec 0 (rb_end (rb_wrap_head r) - rb_head (rb_wrap_head r))); try lia; cbn [andb].
  - destruct Hl as (d1 & d2 & r1 & E1 & E2 & <-). rewrite E1. cbn [mbind option_bind].
    destruct (Z.ltb_spec 0 (n - (rb_end (rb_wrap_head r) - rb_head (rb_wrap_head r)))); [|lia].
    rewrite E2. done.
  - cbn [mbind option_bind]. rewrite Z.sub_0_r. destruct (Z.ltb_spec 0 n); [|lia]. by rewrite Hl.
Qed.

Lemma rb_pop_data_ok r n :
  rb_ok r -> 0 < n <= rb_used r -> rb_used r < rb_end r ->
  exists r2, rb_pop_data (rb_wrap_head r) n = Some (take (Z.to_nat n) (rb_bytes r), r2) /\
    rb_ok r2 /\ rb_same r r2 /\ rb_freesize r2 = rb_freesize r + n /\
    rb_bytes r2 = drop (Z.to_nat n) (rb_bytes r).
Proof.
  intros Hok Hn Hu. destruct (rb_pop_copy r n true) as (r2 & Hok2 & Hs2 & Hf2 & Hb2 & Hm & Hl); [done|done|done|].
  exists r2. split; [|done]. unfold rb_pop_data.
  destruct ((rb_tail (rb_wrap_head r) <? rb_head (rb_wrap_head r)) &&
            (rb_end (rb_wrap_head r) - rb_head (rb_wrap_head r) <? n)).
  - destruct Hl as (d1 & d2 & r1 & E1 & E2 & <-). rewrite E1. cbn [mbind option_bind]. by rewrite E2.
  - cbn [mbind option_bind]. by rewrite Hl.
Qed.

(** ** Messages in the ring *)

(** A message as stored in a dynamic ring: prefix and payload. *)
Definition enc_msg (m : list Z) : list Z := enc_len (Z.of_nat (length m)) ++ m.

(** Lengths the dynamic ring can carry. *)
Definition dyn_msg (m : list Z) : Prop := 0 < Z.of_nat (length m) <= RINGBUF_LEN_3BYTES_MAXVALUE.

(** [rb_repr r msgs]: the ring holds exactly the messages [msgs], oldest first. *)
Definition rb_repr (r : k_ringbuf_t) (msgs : list (list Z)) : Prop :=
  rb_ok r /\
  (rb_type r = RINGBUF_TYPE_DYN /\ Forall dyn_msg msgs /\ rb_bytes r = concat (enc_msg <$> msgs)
   \/ rb_type r = RINGBUF_TYPE_FIX /\ 0 < rb_blk_size r /\
      Forall (fun m => Z.of_nat (length m) = rb_blk_size r) msgs /\ rb_bytes r = concat msgs /\
      (rb_blk_size r | rb_end r) /\ (rb_blk_size r | rb_head r) /\ (rb_blk_size r | rb_tail r)).

Lemma rb_bytes_length r : rb_ok r -> Z.of_nat (length (rb_bytes r)) = rb_used r.
Proof. intros [? ? ? ? ?]. apply circ_length. unfold rb_used. lia. Qed.

Lemma rb_bytes_nil r : rb_used r = 0 -> rb_bytes r = [].
Proof. intros E. unfold rb_bytes. by rewrite E. Qed.

Lemma enc_len_length len : 0 <= len -> 1 <= Z.of_nat (length (enc_len len)) <= 3.
Proof. intros. unfold enc_len. repeat case_match; cbn; lia. Qed.

Lemma compress_take len n :
  0 <= len <= RINGBUF_LEN_3BYTES_MAXVALUE ->
  n = length (enc_len len) ->
  fst (ringbuf_headlen_compress len) = Z.of_nat n /\
  take n (snd (ringbuf_headlen_compress len)) = enc_len len /\
  length (snd (ringbuf_headlen_compress len)) = 3%nat.
Proof.
  intros Hlen ->. destruct (compress_spec len Hlen) as (pad & -> & Hl). cbn [fst snd].
  split; [done|]. split; [|done]. apply take_app_length.
Qed.

Lemma divide_fit k a b : 0 < k -> (k | a) -> (k | b) -> a < b -> a + k <= b.
Proof. intros Hk [x ->] [y ->] Hlt. assert (x + 1 <= y) by nia. nia. Qed.

Lemma push_fix r data msgs :
  rb_repr r msgs -> rb_type r = RINGBUF_TYPE_FIX -> Z.of_nat (length data) = rb_blk_size r ->
  rb_blk_size r <= rb_freesize r ->
  forall len, exists r', ringbuf_push r data len = Some (RHINO_SUCCESS, r') /\ rb_repr r' (msgs ++ [data]) /\
    rb_same r r'.
Proof.
  intros [Hok [[Ht _]|(_ & Hb & Hall & Hbytes & De & Dh & Dt)]] Hfix Hd Hfree len; [rewrite Ht in Hfix; discriminate Hfix|].
  unfold ringbuf_push, ringbuf_is_full. rewrite Hfix. cbn [Z.eqb andb].
  destruct (Z.ltb_spec (rb_freesize r) (rb_blk_size r)); [lia|]. cbn [andb].
  destruct (rb_wrap_tail_ok r Hok) as (Hok0 & Hs0 & Hb0 & Hf0 & Ht0).
  set (r0 := rb_wrap_tail r) in *. pose proof Hs0 as (He0 & Hty0 & Hbs0).
  assert (rb_blk_size r | rb_tail r0) as Dt0.
  { unfold r0, rb_wrap_tail. case_match; cbn; [apply Z.divide_0_r|done]. }
  assert (rb_head r0 = rb_head r) as Hh0 by (unfold r0, rb_wrap_tail; by case_match).
  pose proof (divide_fit (rb_blk_size r) (rb_tail r0) (rb_end r0)) as Hfit.
  rewrite Hbs0, He0 in *.
  destruct (rb_store_ok r0 data 0 (rb_blk_size r) (rb_tail r0 + rb_blk_size r))
    as (r' & E & Hok' & Hs' & Hb' & Hf' & Hh' & Ht'); [done|lia|lia|lia|lia|rewrite He0; apply Hfit; [lia|done|done|lia]|by left|].
  unfold RINGBUF_TYPE_FIX. cbn [Z.eqb]. rewrite E. cbn [mbind option_bind]. exists r'.
  split; [done|]. split; [|by etransitivity]. split; [done|]. right.
  destruct Hs' as (He' & Hty' & Hbs'). rewrite He', Hty', Hbs', Hh', Ht', He0, Hbs0, Hty0, Hh0.
  split_and!; try done.
  - apply Forall_app. split; [done|]. by constructor.
  - rewrite Hb', Hb0, Hbytes, drop_0, concat_app. cbn. rewrite app_nil_r, take_ge by lia. done.
  - apply Z.divide_add_r; [done|]. apply Z.divide_refl.
Qed.

Lemma push_dyn r data msgs :
  rb_repr r msgs -> rb_type r = RINGBUF_TYPE_DYN -> dyn_msg data ->
  Z.of_nat (length (enc_msg data)) <= rb_freesize r ->
  exists r', ringbuf_push r data (Z.of_nat (length data)) = Some (RHINO_SUCCESS, r') /\
    rb_repr r' (msgs ++ [data]) /\ rb_same r r'.
Proof.
  intros [Hok [(_ & Hall & Hbytes)|[Ht _]]] Hdyn Hd Hfree; [|rewrite Ht in Hdyn; discriminate Hdyn].
  set (len := Z.of_nat (length data)) in *.
  unfold enc_msg in Hfree. rewrite length_app in Hfree. fold len in Hfree.
  unfold dyn_msg in Hd. fold len in Hd.
  pose proof (enc_len_length len ltac:(lia)).
  destruct (compress_take len _ ltac:(lia) eq_refl) as (Hc1 & Hc2 & Hc3).
  unfold ringbuf_push, ringbuf_is_full. rewrite Hdyn. cbn [Z.eqb andb].
  destruct (Z.ltb_spec (rb_freesize r) 2); [lia|]. unfold RINGBUF_TYPE_DYN, RINGBUF_TYPE_FIX. cbn [Z.eqb Pos.eqb andb].
  destruct (ringbuf_headlen_compress len) as [lb c]. cbn [fst snd] in *. subst lb.
  destruct (Z.eqb_spec (Z.of_nat (length (enc_len len))) 0); [lia|].
  unfold RINGBUF_LEN_MAX_SIZE. destruct (Z.ltb_spec 3 (Z.of_nat (length (enc_len len)))); [lia|]. cbn [orb].
  destruct (Z.ltb_spec (rb_freesize r) (Z.of_nat (length (enc_len len)) + len)); [lia|].
  destruct (rb_push_copy r c (Z.of_nat (length (enc_len len)))) as (r1 & o1 & n1 & r2 & E1 & Hn1 & E2 & Hok2 & Hs2 & Hf2 & Hb2);
    [done|lia|lia|].
  rewrite E1. cbn [mbind option_bind]. destruct (Z.ltb_spec 0 n1); [|lia]. rewrite E2. cbn [mbind option_bind].
  destruct (rb_push_copy r2 data len) as (r3 & o3 & n3 & r4 & E3 & Hn3 & E4 & Hok4 & Hs4 & Hf4 & Hb4);
    [done|lia|lia|].
  rewrite E3. cbn [mbind option_bind]. rewrite E4. cbn [mbind option_bind]. exists r4.
  split; [done|]. split; [|by etransitivity]. split; [done|]. left.
  split; [destruct Hs4 as (_ & -> & _); destruct Hs2 as (_ & -> & _); done|].
  split; [apply Forall_app; split; [done|by constructor]|].
  rewrite Hb4, Hb2, Hbytes, fmap_app, concat_app. cbn. rewrite app_nil_r, <- app_assoc. f_equal.
  unfold enc_msg. fold len. rewrite Nat2Z.id, Hc2. f_equal. rewrite take_ge; [done|]. unfold len. lia.
Qed.

Lemma head_byte r c rest :
  rb_ok r -> rb_bytes r = c :: rest -> 0 <= rb_head r < rb_end r ->
  arr_get (rb_buf r) (rb_head r) = Some c.
Proof.
  intros Hok Hb Hh. pose proof (rb_bytes_length r Hok) as Hl. rewrite Hb in Hl. cbn in Hl.
  unfold rb_bytes, circ in Hb. replace (Z.to_nat (rb_used r)) with (S (length rest)) in Hb by lia.
  cbn in Hb. injection Hb as Hc _. rewrite Z.add_0_r, Z.mod_small in Hc by (unfold rb_end in *; lia).
  apply arr_get_Some. split; [lia|]. rewrite <- Hc.
  apply list_lookup_lookup_total_lt. unfold rb_end in *. lia.
Qed.

Lemma enc_len_first len :
  0 <= len <= RINGBUF_LEN_3BYTES_MAXVALUE ->
  exists c rest, enc_len len = c :: rest /\ prefix_size c = Some (Z.of_nat (length (enc_len len))).
Proof.
  unfold RINGBUF_LEN_3BYTES_MAXVALUE. intros Hlen.
  assert (forall c, prefix_size c =
    if (c / 2 ^ 7) mod 2 ^ 1 * 2 ^ 7 =? 0 then Some 1
    else if (c / 2 ^ 6) mod 2 ^ 2 * 2 ^ 6 =? 128 then Some 2
    else if (c / 2 ^ 6) mod 2 ^ 2 * 2 ^ 6 =? 192 then Some 3 else None) as Hp.
  { intros c. unfold prefix_size, RINGBUF_LEN_MASK_ONEBIT, RINGBUF_LEN_MASK_TWOBIT.
    change 0x80 with ((2 ^ 1 - 1) * 2 ^ 7) at 1. change 0xC0 with ((2 ^ 2 - 1) * 2 ^ 6) at 1 2.
    rewrite !land_field by lia. done. }
  unfold enc_len. destruct (Z.leb_spec len 0x7f); [|destruct (Z.leb_spec len 0x3fff)];
    do 2 eexists; (split; [reflexivity|]); rewrite Hp; cbn [length Z.of_nat Pos.of_succ_nat Pos.succ].
  - destruct (Z.eqb_spec (len / 2 ^ 7 mod 2 ^ 1 * 2 ^ 7) 0); [done|]. Z.div_mod_to_equations; lia.
  - set (c := 128 + len / 2 ^ 8). assert (128 <= c < 192) by (unfold c; Z.div_mod_to_equations; lia).
    destruct (Z.eqb_spec (c / 2 ^ 7 mod 2 ^ 1 * 2 ^ 7) 0); [Z.div_mod_to_equations; lia|].
    destruct (Z.eqb_spec (c / 2 ^ 6 mod 2 ^ 2 * 2 ^ 6) 128); [done|]. Z.div_mod_to_equations; lia.
  - set (c := 192 + len / 2 ^ 16). assert (192 <= c < 256) by (unfold c; Z.div_mod_to_equations; lia).
    destruct (Z.eqb_spec (c / 2 ^ 7 mod 2 ^ 1 * 2 ^ 7) 0); [Z.div_mod_to_equations; lia|].
    destruct (Z.eqb_spec (c / 2 ^ 6 mod 2 ^ 2 * 2 ^ 6) 128); [Z.div_mod_to_equations; lia|].
    destruct (Z.eqb_spec (c / 2 ^ 6 mod 2 ^ 2 * 2 ^ 6) 192); [done|]. Z.div_mod_to_equations; lia.
Qed.

Lemma pop_empty r : rb_repr r [] -> ringbuf_pop r = Some (RHINO_RINGBUF_EMPTY, None, r).
Proof.
  intros [Hok H]. unfold ringbuf_pop, ringbuf_is_empty.
  assert (rb_bytes r = []) as Hb by (destruct H as [(_ & _ & ->)|(_ & _ & _ & -> & _)]; done).
  pose proof (rb_bytes_length r Hok) as Hl. rewrite Hb in Hl. cbn in Hl. unfold rb_used in Hl.
  destruct (Z.eqb_spec (rb_freesize r) (rb_end r)); [done|lia].
Qed.

Lemma not_empty r b bs : rb_ok r -> rb_bytes r = b :: bs -> ringbuf_is_empty r = false.
Proof.
  intros Hok Hb. pose proof (rb_bytes_length r Hok) as Hl. rewrite Hb in Hl. cbn in Hl.
  unfold rb_used in Hl. unfold ringbuf_is_empty. apply Z.eqb_neq. lia.
Qed.

Lemma pop_fix r m ms :
  rb_repr r (m :: ms) -> rb_type r = RINGBUF_TYPE_FIX ->
  exists r', ringbuf_pop r = Some (RHINO_SUCCESS, Some (m, Z.of_nat (length m)), r') /\
    rb_repr r' ms /\ rb_same r r'.
Proof.
  intros [Hok [[Ht _]|(_ & Hb & Hall & Hbytes & De & Dh & Dt)]] Hfix; [rewrite Ht in Hfix; discriminate Hfix|].
  apply Forall_cons in Hall as [Hm Hall]. cbn in Hbytes.
  pose proof (rb_bytes_length r Hok) as Hl. rewrite Hbytes, length_app in Hl.
  unfold ringbuf_pop. destruct m as [|b m]; [cbn in Hm; lia|].
  rewrite (not_empty r b (m ++ concat ms)) by done. rewrite Hfix. unfold RINGBUF_TYPE_FIX. cbn [Z.eqb].
  destruct (rb_wrap_head_ok r Hok) as (Hok0 & Hs0 & Hb0 & Hf0 & Hh0); [lia|].
  set (r0 := rb_wrap_head r) in *. pose proof Hs0 as (He0 & Hty0 & Hbs0).
  assert (rb_blk_size r | rb_head r0) as Dh0.
  { unfold r0, rb_wrap_head. case_match; cbn; [apply Z.divide_0_r|done]. }
  assert (rb_tail r0 = rb_tail r) as Ht0 by (unfold r0, rb_wrap_head; by case_match).
  pose proof (divide_fit (rb_blk_size r) (rb_head r0) (rb_end r)) as Hfit.
  rewrite Hbs0.
  destruct (rb_load_ok r0 (rb_blk_size r) (rb_head r0 + rb_blk_size r))
    as (r' & E & Hok' & Hs' & Hb' & Hf' & Ht' & Hh');
    [done|unfold rb_used in *; lia|rewrite He0; apply Hfit; [lia|done|done|lia]|by left|].
  rewrite E. cbn [mbind option_bind]. exists r'. destruct Hs' as (He' & Hty' & Hbs').
  split; [|split; [|by etransitivity]].
  - rewrite Hbs', Hbs0, Hb0, Hbytes, <- Hm. do 4 f_equal. rewrite take_app_length' by lia. done.
  - split; [done|]. right. rewrite He', Hty', Hbs', Hh', Ht', He0, Hbs0, Hty0, Ht0.
    split_and!; try done.
    + rewrite Hb', Hb0, Hbytes, drop_app_length' by lia. done.
    + apply Z.divide_add_r; [done|]. apply Z.divide_refl.
Qed.

Lemma pop_dyn r m ms :
  rb_repr r (m :: ms) -> rb_type r = RINGBUF_TYPE_DYN ->
  exists r', ringbuf_pop r = Some (RHINO_SUCCESS, Some (m, Z.of_nat (length m)), r') /\
    rb_repr r' ms /\ rb_same r r'.
Proof.
  intros [Hok [(_ & Hall & Hbytes)|[Ht _]]] Hdyn; [|rewrite Ht in Hdyn; discriminate Hdyn].
  apply Forall_cons in Hall as [Hm Hall]. rewrite fmap_cons in Hbytes. cbn [concat] in Hbytes.
  unfold dyn_msg in Hm. unfold enc_msg at 1 in Hbytes. rewrite <- app_assoc in Hbytes.
  remember (Z.of_nat (length m)) as len eqn:Hlen.
  destruct (enc_len_first len ltac:(lia)) as (c & rest & Henc & Hpre).
  pose proof (enc_len_length len ltac:(lia)) as Hel. 
  remember (Z.of_nat (length (enc_len len))) as lb eqn:Hlb.
  pose proof (rb_bytes_length r Hok) as Hl. rewrite Hbytes, !length_app in Hl. pose proof Hok as [Hp Hf _ _ _].
  unfold ringbuf_pop.
  rewrite (not_empty r c (rest ++ m ++ concat (enc_msg <$> ms))) by (rewrite ?Hbytes, ?Henc; done).
  rewrite Hdyn. unfold RINGBUF_TYPE_DYN, RINGBUF_TYPE_FIX. cbn [Z.eqb].
  destruct (rb_wrap_head_ok r Hok) as (Hok0 & Hs0 & Hb0 & Hf0 & Hh0); [lia|].
  rewrite (head_byte _ c (rest ++ m ++ concat (enc_msg <$> ms))) by (rewrite ?Hb0, ?Hbytes, ?Henc; done).
  cbn [mbind option_bind]. rewrite Hpre.
  destruct (rb_pop_prefix_ok r lb) as (r2 & E2 & Hok2 & Hs2 & Hf2 & Hb2); [done|lia|].
  rewrite E2. cbn [mbind option_bind].
  assert (take (Z.to_nat lb) (rb_bytes r) = enc_len len) as -> by (rewrite Hbytes; apply take_app_length'; lia).
  subst lb. rewrite decompress_spec by lia. cbn [mbind option_bind].
  rewrite Hbytes, drop_app_length' in Hb2 by lia.
  assert (rb_used r2 = rb_used r - Z.of_nat (length (enc_len len))) as Hu2 by (unfold rb_used; destruct Hs2; lia).
  assert (rb_end r2 = rb_end r) as He2 by apply Hs2.
  destruct (rb_pop_data_ok r2 len) as (r3 & E3 & Hok3 & Hs3 & Hf3 & Hb3); [done|lia|unfold rb_used in *; lia|].
  rewrite E3. cbn [mbind option_bind]. exists r3.
  rewrite Hb2, take_app_length' by lia. rewrite Hb2, drop_app_length' in Hb3 by lia.
  split; [done|]. split; [|by etransitivity]. split; [done|]. left.
  destruct Hs3 as (_ & -> & _). destruct Hs2 as (_ & -> & _). done.
Qed.

(** ** Abstract specification: a bounded FIFO of messages *)

Record fifo := mk_fifo {
  f_cap : Z;
  f_type : Z;
  f_blk : Z;
  f_msgs : list (list Z)
}.

(** Room a message takes. *)
Definition f_size (f : fifo) (m : list Z) : Z :=
  if f_type f =? RINGBUF_TYPE_DYN then Z.of_nat (length (enc_msg m)) else f_blk f.

Definition f_free (f : fifo) : Z := f_cap f - foldr Z.add 0 (f_size f <$> f_msgs f).

Inductive rb_op := OpPush (data : list Z) | OpPop | OpReset.

Inductive rb_out := OutStat (s : kstat_t) | OutMsg (s : kstat_t) (data : list Z) (len : Z).

(** Lengths the service accepts. *)
Definition f_accepts (f : fifo) (m : list Z) : bool :=
  (0 <? Z.of_nat (length m)) && (Z.of_nat (length m) <=? RINGBUF_LEN_3BYTES_MAXVALUE)
  && ((f_type f =? RINGBUF_TYPE_DYN) || (Z.of_nat (length m) =? f_blk f)).

Definition fifo_step (f : fifo) (op : rb_op) : rb_out * fifo :=
  match op with
  | OpPush d =>
      if negb (f_accepts f d) then (OutStat RHINO_INV_PARAM, f)
      else if f_free f <? f_size f d then (OutStat RHINO_RINGBUF_FULL, f)
      else (OutStat RHINO_SUCCESS, mk_fifo (f_cap f) (f_type f) (f_blk f) (f_msgs f ++ [d]))
  | OpPop =>
      match f_msgs f with
      | [] => (OutStat RHINO_RINGBUF_EMPTY, f)
      | m :: ms => (OutMsg RHINO_SUCCESS m (Z.of_nat (length m)), mk_fifo (f_cap f) (f_type f) (f_blk f) ms)
      end
  | OpReset => (OutStat RHINO_SUCCESS, mk_fifo (f_cap f) (f_type f) (f_blk f) [])
  end.

Fixpoint fifo_run (f : fifo) (ops : list rb_op) : list rb_out :=
  match ops with
  | [] => []
  | op :: ops => let '(o, f') := fifo_step f op in o :: fifo_run f' ops
  end.

Definition rb_step (r : k_ringbuf_t) (op : rb_op) : option (rb_out * k_ringbuf_t) :=
  match op with
  | OpPush d => '(s, r') ← krhino_ringbuf_push r (Some d) (Z.of_nat (length d)); Some (OutStat s, r')
  | OpPop =>
      '(s, o, r') ← krhino_ringbuf_pop r false false;
      Some (match o with Some (d, l) => OutMsg s d l | None => OutStat s end, r')
  | OpReset => let '(s, r') := krhino_ringbuf_reset r in Some (OutStat s, r')
  end.

Fixpoint rb_run (r : k_ringbuf_t) (ops : list rb_op) : option (list rb_out) :=
  match ops with
  | [] => Some []
  | op :: ops => '(o, r') ← rb_step r op; os ← rb_run r' ops; Some (o :: os)
  end.

(** Refinement relation. *)
Definition rb_sim (r : k_ringbuf_t) (f : fifo) : Prop :=
  rb_repr r (f_msgs f) /\ rb_end r = f_cap f /\ rb_type r = f_type f /\ rb_blk_size r = f_blk f.

Lemma concat_length (ms : list (list Z)) :
  Z.of_nat (length (concat ms)) = foldr Z.add 0 ((fun m => Z.of_nat (length m)) <$> ms).
Proof. induction ms; cbn; [done|]. rewrite length_app, Nat2Z.inj_add. lia. Qed.

Lemma rb_sim_free r f : rb_sim r f -> rb_freesize r = f_free f.
Proof.
  intros ([Hok H] & He & Ht & Hbk). pose proof (rb_bytes_length r Hok) as Hl.
  unfold f_free. rewrite <- He. unfold rb_used in Hl.
  enough (Z.of_nat (length (rb_bytes r)) = foldr Z.add 0 (f_size f <$> f_msgs f)) by lia.
  destruct H as [(Hty & Hall & ->)|(Hty & Hb & Hall & -> & _)]; rewrite concat_length.
  - rewrite <- list_fmap_compose. f_equal. apply list_fmap_ext. intros i m Hm. cbn.
    unfold f_size. rewrite <- Ht, Hty. done.
  - f_equal. apply list_fmap_ext. intros i m Hm. unfold f_size. rewrite <- Ht, Hty, <- Hbk. cbn.
    eapply Forall_lookup_1 in Hall; eauto.
Qed.

Lemma rb_sim_type r f : rb_sim r f -> f_type f = RINGBUF_TYPE_DYN \/ f_type f = RINGBUF_TYPE_FIX.
Proof. intros ([_ [(? & _)|(? & _)]] & _ & <- & _); auto. Qed.

Lemma push_full r f d :
  rb_sim r f -> dyn_msg d -> f_free f < f_size f d ->
  ringbuf_push r d (Z.of_nat (length d)) = Some (RHINO_RINGBUF_FULL, r).
Proof.
  intros Hsim Hd Hfull. pose proof (rb_sim_free r f Hsim) as Hfree.
  pose proof (rb_sim_type r f Hsim) as Hty. pose proof Hsim as (_ & _ & Ht & Hbk).
  unfold dyn_msg in Hd. unfold ringbuf_push, ringbuf_is_full. rewrite Ht. unfold f_size in Hfull.
  destruct Hty as [Hty|Hty]; rewrite Hty in *; unfold RINGBUF_TYPE_DYN, RINGBUF_TYPE_FIX in *; cbn [Z.eqb Pos.eqb andb] in *.
  - destruct (Z.ltb_spec (rb_freesize r) 2); [done|].
    destruct (compress_take (Z.of_nat (length d)) _ ltac:(lia) eq_refl) as (Hc1 & _ & _).
    pose proof (enc_len_length (Z.of_nat (length d)) ltac:(lia)).
    destruct (ringbuf_headlen_compress (Z.of_nat (length d))) as [lb c]. cbn [fst snd] in *. subst lb.
    unfold enc_msg in Hfull. rewrite length_app in Hfull. unfold RINGBUF_LEN_MAX_SIZE.
    destruct (Z.eqb_spec (Z.of_nat (length (enc_len (Z.of_nat (length d))))) 0); [lia|].
    destruct (Z.ltb_spec 3 (Z.of_nat (length (enc_len (Z.of_nat (length d)))))); [lia|]. cbn [orb].
    destruct (Z.ltb_spec (rb_freesize r) (Z.of_nat (length (enc_len (Z.of_nat (length d)))) + Z.of_nat (length d))); [done|lia].
  - destruct (Z.ltb_spec (rb_freesize r) (rb_blk_size r)); [done|lia].
Qed.

Lemma rb_step_push r f d :
  rb_sim r f ->
  exists r', rb_step r (OpPush d) = Some (fst (fifo_step f (OpPush d)), r') /\
    rb_sim r' (snd (fifo_step f (OpPush d))).
Proof.
  intros Hsim. pose proof (rb_sim_free r f Hsim) as Hfree. pose proof (rb_sim_type r f Hsim) as Hty.
  pose proof Hsim as (Hrep & He & Ht & Hbk). cbn [rb_step fifo_step]. unfold krhino_ringbuf_push.
  set (len := Z.of_nat (length d)).
  assert ((len <=? 0) || (RINGBUF_LEN_3BYTES_MAXVALUE <? len)
     || (rb_type r =? RINGBUF_TYPE_FIX) && negb (len =? rb_blk_size r) = negb (f_accepts f d)) as ->.
  { unfold f_accepts. fold len. rewrite Ht, Hbk.
    destruct Hty as [->| ->]; cbn [Z.eqb RINGBUF_TYPE_DYN RINGBUF_TYPE_FIX];
      destruct (Z.leb_spec len 0), (Z.ltb_spec 0 len), (Z.ltb_spec RINGBUF_LEN_3BYTES_MAXVALUE len),
        (Z.leb_spec len RINGBUF_LEN_3BYTES_MAXVALUE), (Z.eqb_spec len (f_blk f)); cbn; try done; lia. }
  destruct (f_accepts f d) eqn:Hacc; cbn [negb]; [|by eexists].
  unfold f_accepts in Hacc. fold len in Hacc. zbool.
  destruct (Z.ltb_spec (f_free f) (f_size f d)) as [Hfull|Hroom].
  - exists r. split; [|done]. enough (ringbuf_push r d len = Some (RHINO_RINGBUF_FULL, r)) as -> by done.
    by apply (push_full r f).
  - destruct Hty as [Hty|Hty]; unfold f_size in Hroom; rewrite Hty in Hroom; cbn [Z.eqb RINGBUF_TYPE_DYN RINGBUF_TYPE_FIX] in Hroom.
    + destruct (push_dyn r d (f_msgs f)) as (r' & E & Hr' & Hs'); [done|congruence|done|cbn in *; lia|].
      unfold len. rewrite E. exists r'. split; [done|]. destruct Hs' as (? & ? & ?).
      split; [done|]. cbn. split_and!; congruence.
    + destruct (push_fix r d (f_msgs f)) with (len := len) as (r' & E & Hr' & Hs'); [done|congruence| |cbn in *; lia|].
      { rewrite Hty in *. cbn in *. zbool. unfold len in *. lia. }
      rewrite E. exists r'. split; [done|]. destruct Hs' as (? & ? & ?).
      split; [done|]. cbn. split_and!; congruence.
Qed.

Lemma rb_step_sim r f op :
  rb_sim r f ->
  exists r', rb_step r op = Some (fst (fifo_step f op), r') /\ rb_sim r' (snd (fifo_step f op)).
Proof.
  intros Hsim. destruct op as [d| |]; [by apply rb_step_push|..];
    pose proof Hsim as (Hrep & He & Ht & Hbk); pose proof (rb_sim_type r f Hsim) as Hty.
  - cbn [rb_step fifo_step]. unfold krhino_ringbuf_pop. rewrite andb_false_r.
    destruct (f_msgs f) as [|m ms] eqn:Hm.
    + rewrite pop_empty by done. exists r. by split.
    + assert (exists r', ringbuf_pop r = Some (RHINO_SUCCESS, Some (m, Z.of_nat (length m)), r') /\
                rb_repr r' ms /\ rb_same r r') as (r' & E & Hr' & ? & ? & ?).
      { destruct Hty; [apply pop_dyn|apply pop_fix]; congruence. }
      rewrite E. exists r'. split; [done|]. split; [done|]. cbn. split_and!; congruence.
  - cbn [rb_step fifo_step]. eexists. split; [done|]. destruct Hrep as [[Hp Hf Hh Htl _] H].
    split; [|done]. split; [constructor; rb_lia|].
    destruct H as [(? & _ & _)|(? & ? & _ & _ & ? & _)]; [left|right]; cbn; split_and!; try done;
      try apply Z.divide_0_r; apply rb_bytes_nil; rb_lia.
Qed.

Lemma rb_init_sim buf len type block_size r :
  0 <= len <= Z.of_nat (length buf) -> 0 <= block_size ->
  krhino_ringbuf_init (Some buf) len type block_size = (RHINO_SUCCESS, Some r) ->
  rb_sim r (mk_fifo len type block_size []).
Proof.
  intros Hlen Hbs. cbn [krhino_ringbuf_init].
  destruct ((len =? 0) || _) eqn:E1; [done|]. destruct ((type =? RINGBUF_TYPE_FIX) && _) eqn:E2; [done|].
  intros [= <-]. zbool.
  assert (Z.of_nat (length (take (Z.to_nat len) buf)) = len) as Hl by (rewrite length_take; lia).
  split; [|cbn; unfold rb_end; cbn; done].
  split; [constructor; rb_lia|].
  cbn [f_msgs]. rewrite andb_false_iff in H0. destruct H0 as [H0|H0]; zbool; [left|right].
  - cbn. split_and!; try done. apply rb_bytes_nil. rb_lia.
  - cbn. rewrite H0 in *. cbn in E2. zbool. unfold rb_end. cbn. rewrite Hl.
    split_and!; try done; try lia; try apply Z.divide_0_r; [|by apply Z.mod_divide].
    apply rb_bytes_nil. rb_lia.
Qed.

(** ** Properties *)

(** C28: the ring buffer refines a bounded FIFO of messages: whatever sequence
    of pushes, pops and resets is issued after initialisation, every status and
    every message returned is the one of the abstract FIFO, and no byte outside
    the buffers is touched (the run is never [None]). *)
Theorem ringbuf_refines_fifo buf len type block_size r ops :
  0 <= len <= Z.of_nat (length buf) -> 0 <= block_size ->
  krhino_ringbuf_init (Some buf) len type block_size = (RHINO_SUCCESS, Some r) ->
  rb_run r ops = Some (fifo_run (mk_fifo len type block_size []) ops).
Proof.
  intros Hlen Hbs Hinit. pose proof (rb_init_sim _ _ _ _ _ Hlen Hbs Hinit) as Hsim. clear Hinit.
  revert r Hsim. generalize (mk_fifo len type block_size []) as f.
  induction ops as [|op ops IH]; intros f r Hsim; cbn; [done|].
  destruct (rb_step_sim r f op Hsim) as (r' & -> & Hsim'). cbn.
  destruct (fifo_step f op) as [o f']. cbn in *. by rewrite (IH f' r' Hsim').
Qed.

(** The 1-3 byte length prefix round-trips for every length the ring
    accepts, and its first byte alone tells its size. *)
Theorem headlen_roundtrip len :
  0 <= len <= RINGBUF_LEN_3BYTES_MAXVALUE ->
  let '(len_bytes, cmp_buf) := ringbuf_headlen_compress len in
  1 <= len_bytes <= RINGBUF_LEN_MAX_SIZE /\
  prefix_size (cmp_buf !!! 0%nat) = Some len_bytes /\
  ringbuf_headlen_decompress len_bytes cmp_buf = Some len.
Proof.
  intros Hlen. destruct (compress_spec len Hlen) as (pad & -> & Hl).
  pose proof (enc_len_length len ltac:(lia)) as Hel. split; [unfold RINGBUF_LEN_MAX_SIZE; lia|].
  destruct (enc_len_first len Hlen) as (c & rest & E & Hp). split; [by rewrite E in *|].
  rewrite <- (decompress_spec len Hlen). unfold ringbuf_headlen_decompress, memcpy.
  enough (slice (enc_len len ++ pad) 0 (Z.of_nat (length (enc_len len))) = Some (enc_len len) /\
    slice (take 3 (enc_len len ++ [0; 0; 0])) 0 (Z.of_nat (length (enc_len len))) = Some (enc_len len))
    as [-> ->] by done.
  rewrite length_app in Hl.
  rewrite !slice_prefix by (rewrite ?length_take, ?length_app; cbn; lia). rewrite Nat2Z.id. split; f_equal.
  - apply take_app_length.
  - unfold enc_len. repeat case_match; reflexivity.
Qed.

(** C31: on a fixed-block ring with room, a push whose message is shorter than
    the block reads past the end of the message. *)
Theorem push_fix_overread r data len :
  rb_type r = RINGBUF_TYPE_FIX -> rb_blk_size r <= rb_freesize r ->
  Z.of_nat (length data) < rb_blk_size r ->
  ringbuf_push r data len = None.
Proof.
  intros Hty Hfree Hd. unfold ringbuf_push, ringbuf_is_full. rewrite Hty. cbn [Z.eqb andb].
  destruct (Z.ltb_spec (rb_freesize r) (rb_blk_size r)); [lia|]. cbn [andb].
  unfold rb_store, memcpy, slice, rb_wrap_tail, RINGBUF_TYPE_FIX. cbn [Z.eqb].
  destruct (rb_tail r =? rb_end r); cbn [rb_blk_size rb_buf rb_tail]; rewrite decide_False by lia; done.
Qed.

Lemma ringbuf_refines_fifo_witness :
  exists r, krhino_ringbuf_init (Some (replicate 12 0)) 10 RINGBUF_TYPE_DYN 0 = (RHINO_SUCCESS, Some r) /\
  rb_run r [OpPush [1;2;3;4;5;6]; OpPush [7;8;9]; OpPop; OpPush [7;8;9;10;11]; OpPop; OpPop] =
  Some [OutStat RHINO_SUCCESS; OutStat RHINO_RINGBUF_FULL; OutMsg RHINO_SUCCESS [1;2;3;4;5;6] 6;
        OutStat RHINO_SUCCESS; OutMsg RHINO_SUCCESS [7;8;9;10;11] 5; OutStat RHINO_RINGBUF_EMPTY].
Proof.
  eexists. split; [reflexivity|].
  rewrite (ringbuf_refines_fifo (replicate 12 0) 10 RINGBUF_TYPE_DYN 0); [reflexivity|cbn; lia|lia|reflexivity].
Defined.

Lemma headlen_roundtrip_witness :
  0 <= 0x1234 <= RINGBUF_LEN_3BYTES_MAXVALUE /\ ringbuf_headlen_compress 0x1234 = (2, [0x92; 0x34; 0]) /\
  ringbuf_headlen_decompress 2 [0x92; 0x34; 0] = Some 0x1234.
Proof.
  assert (0 <= 0x1234 <= RINGBUF_LEN_3BYTES_MAXVALUE) as H by (unfold RINGBUF_LEN_3BYTES_MAXVALUE; lia).
  pose proof (headlen_roundtrip 0x1234 H) as P.
  assert (ringbuf_headlen_compress 0x1234 = (2, [0x92; 0x34; 0])) as E by reflexivity. rewrite E in P.
  split; [exact H|]. split; [exact E|]. apply P.
Defined.

Lemma push_fix_overread_witness :
  exists r, krhino_ringbuf_init (Some (replicate 8 0)) 8 RINGBUF_TYPE_FIX 4 = (RHINO_SUCCESS, Some r) /\
    rb_blk_size r <= rb_freesize r /\ ringbuf_push r [1; 2] 2 = None.
Proof.
  eexists. split; [reflexivity|]. split; [by vm_compute|].
  apply push_fix_overread; [reflexivity|by vm_compute|by vm_compute].
Defined.
