(* ===== verification/Fifo.v ===== *)
(** * Byte FIFO ([rhino/common/k_fifo.c])

    A power-of-two buffer with two free-running 32-bit counters.  The theorems
    show that it is a byte queue, also when the counters wrap around. *)

From S2P Require Import Prelude CircBuf.
Local Open Scope Z_scope.

Record k_fifo := mk_kfifo {
  ff_in : Z;
  ff_out : Z;
  ff_mask : Z;
  ff_data : list Z;
  ff_free_bytes : Z;
  ff_size : Z
}.

Definition fifo_unused (f : k_fifo) : Z := u32 (ff_mask f + 1 - (ff_in f - ff_out f)).

Definition is_power_of_2 (n : Z) : bool := negb (n =? 0) && (Z.land n (u32 (n - 1)) =? 0).

(** Answers the status and the structure as left by the call; [f0] is the
    structure before it (the fields an early return leaves untouched). *)
Definition fifo_init (f0 : k_fifo) (buffer : list Z) (size : Z) : Z * k_fifo :=
  if negb (is_power_of_2 size) then (1, f0)
  else if size <? 2 then (1, mk_kfifo 0 0 0 buffer (ff_free_bytes f0) (ff_size f0))
  else (0, mk_kfifo 0 0 (u32 (size - 1)) buffer size size).

Definition fifo_min (x y : Z) : Z := if y <? x then y else x.

(** The new contents of [data]; [None] for an access outside a buffer. *)
Definition fifo_copy_in (f : k_fifo) (src : list Z) (len off : Z) : option (list Z) :=
  let size := u32 (ff_mask f + 1) in
  let off := Z.land off (ff_mask f) in
  let l := fifo_min len (u32 (size - off)) in
  d ← memcpy (ff_data f) off src 0 l;
  memcpy d 0 src l (len - l).

Definition fifo_in (f : k_fifo) (buf : list Z) (len : Z) : option (Z * k_fifo) :=
  let l := fifo_unused f in
  let len := if l <? len then l else len in
  d ← fifo_copy_in f buf len (ff_in f);
  Some (len, mk_kfifo (u32 (ff_in f + len)) (ff_out f) (ff_mask f) d
                      (u32 (ff_free_bytes f - len)) (ff_size f)).

(** The bytes stored to [dst]. *)
Definition kfifo_copy_out (f : k_fifo) (len off : Z) : option (list Z) :=
  let size := u32 (ff_mask f + 1) in
  let off := Z.land off (ff_mask f) in
  let l := fifo_min len (u32 (size - off)) in
  s1 ← slice (ff_data f) off l;
  s2 ← slice (ff_data f) 0 (len - l);
  Some (s1 ++ s2).

Definition internal_fifo_out_peek (f : k_fifo) (len : Z) : option (Z * list Z) :=
  let l := u32 (ff_in f - ff_out f) in
  let len := if l <? len then l else len in
  s ← kfifo_copy_out f len (ff_out f);
  Some (len, s).

Definition fifo_out_peek (f : k_fifo) (len : Z) : option (Z * list Z) := internal_fifo_out_peek f len.

Definition fifo_advance (f : k_fifo) (len : Z) : k_fifo :=
  mk_kfifo (ff_in f) (u32 (ff_out f + len)) (ff_mask f) (ff_data f)
           (u32 (ff_free_bytes f + len)) (ff_size f).

Definition fifo_out (f : k_fifo) (len : Z) : option (Z * list Z * k_fifo) :=
  '(len, s) ← internal_fifo_out_peek f len;
  Some (len, s, fifo_advance f len).

Definition fifo_out_all (f : k_fifo) : option (Z * list Z * k_fifo) :=
  let len := u32 (ff_size f - ff_free_bytes f) in
  if len =? 0 then Some (0, [], f)
  else
    '(len, s) ← internal_fifo_out_peek f len;
    Some (len, s, fifo_advance f len).

(** ** Abstraction *)

Definition ff_used (f : k_fifo) : Z := u32 (ff_in f - ff_out f).

(** The queued bytes, oldest first. *)
Definition ff_bytes (f : k_fifo) : list Z := circ (ff_data f) (ff_out f) (ff_used f).

Record ff_ok (f : k_fifo) : Prop := {
  ffo_pow : exists k, 1 <= k < 32 /\ ff_size f = 2 ^ k;
  ffo_data : Z.of_nat (length (ff_data f)) = ff_size f;
  ffo_mask : ff_mask f = ff_size f - 1;
  ffo_in : fits 32 (ff_in f);
  ffo_out : fits 32 (ff_out f);
  ffo_used : ff_used f <= ff_size f;
  ffo_free : ff_free_bytes f = ff_size f - ff_used f
}.

(** ** Lemmas *)

Lemma power_of_2_spec n :
  fits 32 n -> is_power_of_2 n = true <-> exists k, 0 <= k < 32 /\ n = 2 ^ k.
Proof.
  intros [Hn0 Hn]. unfold is_power_of_2. rewrite andb_true_iff, negb_true_iff, Z.eqb_neq, Z.eqb_eq. split.
  - intros [Hnz Hl]. exists (Z.log2 n). pose proof (Z.log2_nonneg n).
    assert (Z.log2 n < 32) by (apply Z.log2_lt_pow2; lia). split; [lia|].
    pose proof (Z.log2_spec n ltac:(lia)) as [Hlo Hhi].
    destruct (decide (n = 2 ^ Z.log2 n)) as [|Hne]; [done|]. exfalso.
    unfold u32 in Hl. rewrite wrap_small in Hl by lia.
    assert (Z.log2 (n - 1) = Z.log2 n) as E by (apply Z.log2_unique; lia).
    assert (Z.testbit (Z.land n (n - 1)) (Z.log2 n) = true) as Hb.
    { rewrite Z.land_spec, Z.bit_log2 by lia. rewrite <- E. rewrite Z.bit_log2; [done|].
      assert (0 < 2 ^ Z.log2 n) by (apply Z.pow_pos_nonneg; lia). lia. }
    rewrite Hl, Z.bits_0 in Hb. done.
  - intros (k & Hk & ->). assert (0 < 2 ^ k) by (apply Z.pow_pos_nonneg; lia). split; [lia|].
    unfold u32. rewrite wrap_small by lia. rewrite land_low_mask by lia. apply Z.mod_same. lia.
Qed.

Lemma ff_size_bounds f : ff_ok f -> 2 <= ff_size f <= 2 ^ 31.
Proof.
  intros [(k & Hk & ->) _ _ _ _ _ _]. split.
  - change 2 with (2 ^ 1) at 1. apply Z.pow_le_mono_r; lia.
  - apply Z.pow_le_mono_r; lia.
Qed.

Lemma ff_land_mask f x : ff_ok f -> Z.land x (ff_mask f) = x mod Z.of_nat (length (ff_data f)).
Proof.
  intros [(k & Hk & Hs) -> -> _ _ _ _]. rewrite Hs. apply land_low_mask. lia.
Qed.

Lemma fifo_min_min x y : fifo_min x y = Z.min x y.
Proof. unfold fifo_min. destruct (Z.ltb_spec y x); lia. Qed.

(** Wrapping a counter modulo 2^32 moves it by whole turns of the buffer. *)
Lemma circ_u32 f x n : ff_ok f -> circ (ff_data f) (u32 x) n = circ (ff_data f) x n.
Proof.
  intros [(k & Hk & Hs) Hd _ _ _ _ _]. symmetry.
  apply circ_turn with (k := x / 2 ^ 32 * 2 ^ (32 - k)). rewrite Hd, Hs.
  rewrite <- Z.mul_assoc, <- Z.pow_add_r by lia. replace (32 - k + k) with 32 by lia.
  unfold u32, wrap. pose proof (Z.div_mod x (2 ^ 32)). lia.
Qed.

Lemma ff_used_range f : ff_ok f -> 0 <= ff_used f <= ff_size f.
Proof. intros H. split; [apply wrap_range; lia|apply H]. Qed.

Lemma fifo_unused_spec f : ff_ok f -> fifo_unused f = ff_size f - ff_used f.
Proof.
  intros H. pose proof (ff_size_bounds f H). pose proof (ff_used_range f H).
  unfold fifo_unused. rewrite (ffo_mask f H). unfold ff_used, u32 in *.
  rewrite <- (wrap_sub_r 32 _ (ff_in f - ff_out f)), wrap_small; lia.
Qed.

Lemma ff_bytes_length f : ff_ok f -> Z.of_nat (length (ff_bytes f)) = ff_used f.
Proof. intros H. apply circ_length. apply ff_used_range, H. Qed.

Lemma u32_mod_size f x :
  ff_ok f -> u32 x mod Z.of_nat (length (ff_data f)) = x mod Z.of_nat (length (ff_data f)).
Proof.
  intros [(k & Hk & Hs) Hd _ _ _ _ _]. rewrite Hd, Hs. unfold u32, wrap.
  apply Z.mod_mod_divide.
  exists (2 ^ (32 - k)). rewrite <- Z.pow_add_r by lia. f_equal. lia.
Qed.

Lemma ff_in_off f :
  ff_ok f -> ff_in f mod Z.of_nat (length (ff_data f)) = (ff_out f + ff_used f) mod Z.of_nat (length (ff_data f)).
Proof.
  intros H. rewrite <- (u32_mod_size f (_ + _)) by done. f_equal.
  unfold ff_used, u32. rewrite wrap_add_r.
  replace (ff_out f + (ff_in f - ff_out f)) with (ff_in f) by lia.
  symmetry. apply wrap_small, H.
Qed.

(** The counters after [len] more bytes were queued. *)
Lemma ff_used_in f n :
  ff_ok f -> 0 <= n -> ff_used f + n <= ff_size f ->
  u32 (u32 (ff_in f + n) - ff_out f) = ff_used f + n.
Proof.
  intros H ? ?. pose proof (ff_size_bounds f H). pose proof (ff_used_range f H).
  unfold ff_used, u32 in *. rewrite wrap_sub_l.
  replace (ff_in f + n - ff_out f) with (ff_in f - ff_out f + n) by lia.
  rewrite <- wrap_add_l. apply wrap_small; lia.
Qed.

Lemma ff_used_out f n :
  ff_ok f -> 0 <= n <= ff_used f -> u32 (ff_in f - u32 (ff_out f + n)) = ff_used f - n.
Proof.
  intros H ?. pose proof (ff_size_bounds f H). pose proof (ff_used_range f H).
  unfold ff_used, u32 in *. rewrite wrap_sub_r.
  replace (ff_in f - (ff_out f + n)) with (ff_in f - ff_out f - n) by lia.
  rewrite <- wrap_sub_l. apply wrap_small; lia.
Qed.

Lemma memcpy_take dst doff src soff k n :
  0 <= soff -> 0 <= k -> soff + k <= Z.of_nat n -> (n <= length src)%nat ->
  memcpy dst doff src soff k = memcpy dst doff (take n src) soff k.
Proof.
  intros ? ? ? ?. unfold memcpy, slice. rewrite length_take, !decide_True by lia. cbn [mbind option_bind].
  f_equal. rewrite skipn_firstn_comm, take_take. f_equal. lia.
Qed.

Lemma fifo_copy_in_spec f src n :
  ff_ok f -> 0 <= n -> ff_used f + n <= ff_size f -> n <= Z.of_nat (length src) ->
  exists d, fifo_copy_in f src n (ff_in f) = Some d /\ length d = length (ff_data f) /\
    circ d (ff_out f) (ff_used f + n) = ff_bytes f ++ take (Z.to_nat n) src.
Proof.
  intros Hok Hn Hfit Hsrc. pose proof (ff_size_bounds f Hok). pose proof (ff_used_range f Hok).
  pose proof (ffo_data f Hok) as Hd. unfold fifo_copy_in. rewrite ff_land_mask, ffo_mask by done.
  replace (ff_size f - 1 + 1) with (ff_size f) by lia.
  pose proof (Z.mod_pos_bound (ff_in f) (Z.of_nat (length (ff_data f))) ltac:(lia)).
  rewrite ff_in_off in * by done.
  remember ((ff_out f + ff_used f) mod Z.of_nat (length (ff_data f))) as off eqn:Eoff.
  unfold u32. rewrite (wrap_small 32 (ff_size f)), wrap_small, fifo_min_min by lia.
  assert (Z.of_nat (length (take (Z.to_nat n) src)) = n) as Hl by (rewrite length_take; lia).
  destruct (circ_put (ff_data f) (ff_out f) (ff_used f) (take (Z.to_nat n) src) off (Z.min n (ff_size f - off)))
    as (b1 & b2 & E1 & E2 & Hl2 & Hc); try (rewrite ?Hl; lia).
  rewrite (memcpy_take _ _ _ _ _ (Z.to_nat n)), E1 by lia. cbn [mbind option_bind].
  rewrite (memcpy_take _ _ _ _ _ (Z.to_nat n)) by lia. rewrite Hl in E2, Hc.
  exists b2. by rewrite E2.
Qed.

Lemma fifo_in_spec f buf len :
  ff_ok f -> 0 <= len <= Z.of_nat (length buf) ->
  let n := Z.min len (ff_size f - ff_used f) in
  exists f', fifo_in f buf len = Some (n, f') /\ ff_ok f' /\ ff_size f' = ff_size f /\
    ff_bytes f' = ff_bytes f ++ take (Z.to_nat n) buf.
Proof.
  intros Hok Hlen n. pose proof (ff_size_bounds f Hok). pose proof (ff_used_range f Hok).
  unfold fifo_in. rewrite fifo_unused_spec by done.
  assert ((if ff_size f - ff_used f <? len then ff_size f - ff_used f else len) = n) as ->
    by (destruct (Z.ltb_spec (ff_size f - ff_used f) len); lia).
  destruct (fifo_copy_in_spec f buf n) as (d & -> & Hl & Hc); [done|lia..|].
  cbn [mbind option_bind]. eexists. split; [done|].
  pose proof (ff_used_in f n Hok ltac:(lia) ltac:(lia)) as Hu.
  set (f' := mk_kfifo _ _ _ _ _ _). change (ff_used f' = ff_used f + n) in Hu.
  destruct Hok as [Hp Hd Hm Hi Ho _ Hf]. split_and!; [|done|].
  - split; rewrite ?Hu; cbn [f' ff_size ff_data ff_mask ff_in ff_out ff_free_bytes]; try done; try lia.
    + apply wrap_range. lia.
    + rewrite Hf. unfold u32. rewrite wrap_small; lia.
  - unfold ff_bytes. rewrite Hu. done.
Qed.

Lemma fifo_peek_spec f len :
  ff_ok f -> 0 <= len ->
  let n := Z.min len (ff_used f) in
  internal_fifo_out_peek f len = Some (n, take (Z.to_nat n) (ff_bytes f)).
Proof.
  intros Hok Hlen n. pose proof (ff_size_bounds f Hok). pose proof (ff_used_range f Hok).
  pose proof (ffo_data f Hok) as Hd. unfold internal_fifo_out_peek. fold (ff_used f).
  assert ((if ff_used f <? len then ff_used f else len) = n) as ->
    by (destruct (Z.ltb_spec (ff_used f) len); lia).
  unfold kfifo_copy_out. rewrite ff_land_mask, ffo_mask by done.
  replace (ff_size f - 1 + 1) with (ff_size f) by lia.
  pose proof (Z.mod_pos_bound (ff_out f) (Z.of_nat (length (ff_data f))) ltac:(lia)).
  remember (ff_out f mod Z.of_nat (length (ff_data f))) as off eqn:Eoff.
  unfold u32. rewrite (wrap_small 32 (ff_size f)), wrap_small, fifo_min_min by lia.
  destruct (circ_get (ff_data f) (ff_out f) n off (Z.min n (ff_size f - off))) as (s1 & s2 & -> & E2 & Hc);
    [lia..|]. cbn [mbind option_bind]. rewrite E2. cbn [mbind option_bind]. rewrite Hc.
  unfold ff_bytes. by rewrite circ_take by lia.
Qed.

Lemma fifo_advance_ok f n :
  ff_ok f -> 0 <= n <= ff_used f ->
  ff_ok (fifo_advance f n) /\ ff_bytes (fifo_advance f n) = drop (Z.to_nat n) (ff_bytes f).
Proof.
  intros Hok Hn. pose proof (ff_size_bounds f Hok). pose proof (ff_used_range f Hok).
  pose proof (ff_used_out f n Hok ltac:(lia)) as Hu.
  change (ff_used (fifo_advance f n) = ff_used f - n) in Hu. split.
  - destruct Hok as [Hp Hd Hm Hi Ho _ Hf].
    split; rewrite ?Hu; cbn [fifo_advance ff_size ff_data ff_mask ff_in ff_out ff_free_bytes]; try done; try lia.
    + apply wrap_range. lia.
    + rewrite Hf. unfold u32. rewrite wrap_small; lia.
  - unfold ff_bytes. rewrite Hu, circ_drop by lia. exact (circ_u32 f _ _ Hok).
Qed.

(** ** Refinement to a bounded byte queue *)

Inductive ff_op :=
  | FIn (bs : list Z)
  | FOut (len : Z)
  | FPeek (len : Z)
  | FOutAll.

(** What each call answers (the count and the bytes delivered) and leaves in a
    byte queue of capacity [cap]. *)
Definition bq_step (cap : Z) (q : list Z) (o : ff_op) : (Z * list Z) * list Z :=
  let used := Z.of_nat (length q) in
  match o with
  | FIn bs => let n := Z.min (Z.of_nat (length bs)) (cap - used) in
              ((n, []), q ++ take (Z.to_nat n) bs)
  | FOut len => let n := Z.min len used in ((n, take (Z.to_nat n) q), drop (Z.to_nat n) q)
  | FPeek len => let n := Z.min len used in ((n, take (Z.to_nat n) q), q)
  | FOutAll => ((used, q), [])
  end.

Definition ff_step (f : k_fifo) (o : ff_op) : option ((Z * list Z) * k_fifo) :=
  match o with
  | FIn bs => '(n, f') ← fifo_in f bs (Z.of_nat (length bs)); Some ((n, []), f')
  | FOut len => '(n, s, f') ← fifo_out f len; Some ((n, s), f')
  | FPeek len => '(n, s) ← fifo_out_peek f len; Some ((n, s), f)
  | FOutAll => '(n, s, f') ← fifo_out_all f; Some ((n, s), f')
  end.

Fixpoint bq_run (cap : Z) (q : list Z) (os : list ff_op) : list (Z * list Z) * list Z :=
  match os with
  | [] => ([], q)
  | o :: os => let '(r, q1) := bq_step cap q o in
               let '(rs, q2) := bq_run cap q1 os in (r :: rs, q2)
  end.

Fixpoint ff_run (f : k_fifo) (os : list ff_op) : option (list (Z * list Z) * k_fifo) :=
  match os with
  | [] => Some ([], f)
  | o :: os => '(r, f1) ← ff_step f o; '(rs, f2) ← ff_run f1 os; Some (r :: rs, f2)
  end.

(** Lengths are 32-bit unsigned. *)
Definition ff_op_ok (o : ff_op) : Prop :=
  match o with
  | FIn bs => fits 32 (Z.of_nat (length bs))
  | FOut len | FPeek len => fits 32 len
  | FOutAll => True
  end.

Lemma ff_step_sim f o :
  ff_ok f -> ff_op_ok o ->
  exists r f', ff_step f o = Some (r, f') /\ ff_ok f' /\ ff_size f' = ff_size f /\
    bq_step (ff_size f) (ff_bytes f) o = (r, ff_bytes f').
Proof.
  intros Hok Ho. pose proof (ff_bytes_length f Hok) as Hl. pose proof (ff_used_range f Hok).
  destruct o as [bs|len|len|]; unfold ff_op_ok, fits in Ho; unfold ff_step, bq_step; rewrite ?Hl.
  - destruct (fifo_in_spec f bs (Z.of_nat (length bs)) Hok ltac:(lia)) as (f' & -> & ? & ? & Hb).
    eexists _, f'. split_and!; [done..|]. by rewrite Hb.
  - unfold fifo_out. rewrite fifo_peek_spec by (done || lia). cbn [mbind option_bind].
    destruct (fifo_advance_ok f (Z.min len (ff_used f)) Hok ltac:(lia)) as [? Hb].
    eexists _, _. split_and!; [done..|]. by rewrite Hb.
  - unfold fifo_out_peek. rewrite fifo_peek_spec by (done || lia). by eauto 10.
  - unfold fifo_out_all. rewrite ffo_free by done.
    replace (ff_size f - (ff_size f - ff_used f)) with (ff_used f) by lia.
    assert (u32 (ff_used f) = ff_used f) as -> by apply wrap_wrap.
    case_match eqn:E; zbool.
    + rewrite E in Hl. assert (ff_bytes f = []) as Hb by (destruct (ff_bytes f); [done|cbn in Hl; lia]).
      exists (0, []), f. rewrite Hb, E. done.
    + rewrite fifo_peek_spec by (done || lia). rewrite Z.min_id. cbn [mbind option_bind].
      destruct (fifo_advance_ok f (ff_used f) Hok ltac:(lia)) as [? Hd].
      rewrite drop_ge in Hd by lia. rewrite take_ge by lia.
      eexists _, _. split_and!; [done..|]. by rewrite Hd.
Qed.

Lemma ff_run_sim f os :
  ff_ok f -> Forall ff_op_ok os ->
  exists rs f', ff_run f os = Some (rs, f') /\ ff_ok f' /\ bq_run (ff_size f) (ff_bytes f) os = (rs, ff_bytes f').
Proof.
  intros Hok Hos. revert f Hok. induction Hos as [|o os Ho _ IH]; intros f Hok; cbn [ff_run bq_run]; [by eauto 10|].
  destruct (ff_step_sim f o Hok Ho) as (r & f1 & -> & Hok1 & Hs & ->). cbn [mbind option_bind].
  destruct (IH f1 Hok1) as (rs & f2 & -> & ? & Hr). rewrite <- Hs, Hr. by eauto 10.
Qed.

Lemma fifo_init_ok f0 buffer size f :
  fits 32 size -> Z.of_nat (length buffer) = size ->
  fifo_init f0 buffer size = (0, f) -> ff_ok f /\ ff_size f = size /\ ff_bytes f = [].
Proof.
  intros Hs Hl. unfold fifo_init. destruct (is_power_of_2 size) eqn:E; [|done]. cbn [negb].
  apply power_of_2_spec in E as (k & Hk & Ek); [|done]. destruct Hs.
  case_match eqn:E2; [done|zbool]. intros [= <-]. unfold ff_bytes, ff_used. cbn. split_and!; [|done|done].
  split; unfold ff_used; cbn; unfold u32; rewrite ?wrap_small; try done; try lia.
  exists k. split; [|done]. split; [|lia]. assert (k <> 0) by (intros ->; cbn in *; lia). lia.
Qed.

Lemma fifo_init_accepts f0 buffer size :
  fits 32 size ->
  fst (fifo_init f0 buffer size) = 0 <-> exists k, 1 <= k < 32 /\ size = 2 ^ k.
Proof.
  intros Hs. pose proof (power_of_2_spec size Hs) as Hp. unfold fifo_init.
  destruct (is_power_of_2 size); cbn [negb].
  - destruct (proj1 Hp eq_refl) as (k & Hk & ->). case_match eqn:E; zbool; cbn [fst].
    + split; [done|]. intros (j & Hj & Ej). rewrite Ej in E.
      assert (2 ^ 1 <= 2 ^ j) by (apply Z.pow_le_mono_r; lia). lia.
    + split; [|done]. intros _. exists k. split; [|done]. assert (k <> 0) by (intros ->; cbn in *; lia). lia.
  - split; [done|]. intros (k & Hk & E). assert (false = true) by (apply Hp; exists k; split; [lia|done]). done.
Qed.

(** ** Properties *)

(** C29: after [fifo_init] succeeds (which it does exactly for a power of two
    of at least 2), every sequence of [fifo_in], [fifo_out], [fifo_out_peek] and
    [fifo_out_all] calls runs without an access outside the buffer and answers
    what a byte queue of that capacity answers, counts and bytes, whatever the
    number of calls (the 32-bit counters wrap around). *)
Theorem fifo_refines_byte_queue f0 buffer size os :
  fits 32 size -> Z.of_nat (length buffer) = size -> Forall ff_op_ok os ->
  (fst (fifo_init f0 buffer size) = 0 <-> exists k, 1 <= k < 32 /\ size = 2 ^ k) /\
  (forall f, fifo_init f0 buffer size = (0, f) ->
     exists rs f', ff_run f os = Some (rs, f') /\ bq_run size [] os = (rs, ff_bytes f')).
Proof.
  intros Hs Hl Hos. split; [apply fifo_init_accepts; done|].
  intros f Hi. destruct (fifo_init_ok _ _ _ _ Hs Hl Hi) as (Hok & Hsz & Hb).
  destruct (ff_run_sim f os Hok Hos) as (rs & f' & Hr & _ & Hq). rewrite Hsz, Hb in Hq. eauto.
Qed.

Lemma fifo_refines_byte_queue_witness :
  let f0 := mk_kfifo 0 0 0 [] 0 0 in
  let os := [FIn [1; 2; 3]; FOut 2; FIn [4; 5; 6]; FPeek 9; FOutAll] in
  exists rs f', ff_run (snd (fifo_init f0 [0; 0; 0; 0] 4)) os = Some (rs, f') /\
    bq_run 4 [] os = (rs, ff_bytes f') /\
    rs = [(3, []); (2, [1; 2]); (3, []); (4, [3; 4; 5; 6]); (4, [3; 4; 5; 6])].
Proof.
  intros f0 os.
  destruct (fifo_refines_byte_queue f0 [0; 0; 0; 0] 4 os) as [_ H].
  - split; by vm_compute.
  - reflexivity.
  - repeat constructor; by vm_compute.
  - destruct (H (snd (fifo_init f0 [0; 0; 0; 0] 4)) eq_refl) as (rs & f' & Hr & Hq).
    exists rs, f'. split; [exact Hr|]. split; [exact Hq|].
    transitivity (fst (bq_run 4 [] os)); [by rewrite Hq|vm_compute; reflexivity].
Defined.
