(* ===== verification/KState.v ===== *)
(** * Kernel data ([rhino/core/include])

    The enumerations, control blocks and globals of the kernel, with one setter
    per field.  Control blocks are found by identity: a task or an object is a
    number that stands for its address.  Every object starts with its [blk_obj_t],
    so the address of a semaphore is the address of its [blk_obj_t]: the common
    part is kept in [blks] and the rest of the structure in the map of its kind.

    A [klist_t] ring is the list of its members in order; that the pointer code
    of [k_list.h] implements the sequence operations used here is the subject of
    the file KList. *)

From S2P Require Import Prelude KErr RingBuf.
Local Open Scope Z_scope.

Definition tid := nat.

Definition oid := nat.

Inductive task_stat_t :=
  | K_SEED
  | K_RDY
  | K_PEND
  | K_SUSPENDED
  | K_PEND_SUSPENDED
  | K_SLEEP
  | K_SLEEP_SUSPENDED
  | K_DELETED.

Inductive blk_policy_t :=
  | BLK_POLICY_PRI
  | BLK_POLICY_FIFO.

Inductive blk_state_t :=
  | BLK_FINISH
  | BLK_ABORT
  | BLK_TIMEOUT
  | BLK_DEL
  | BLK_INVALID.

Inductive kobj_type_t :=
  | RHINO_OBJ_TYPE_NONE
  | RHINO_SEM_OBJ_TYPE
  | RHINO_MUTEX_OBJ_TYPE
  | RHINO_QUEUE_OBJ_TYPE
  | RHINO_BUF_QUEUE_OBJ_TYPE
  | RHINO_TIMER_OBJ_TYPE
  | RHINO_EVENT_OBJ_TYPE
  | RHINO_MM_OBJ_TYPE.

#[global] Instance task_stat_eq_dec : EqDecision task_stat_t.
Proof. solve_decision. Defined.

#[global] Instance blk_policy_eq_dec : EqDecision blk_policy_t.
Proof. solve_decision. Defined.

#[global] Instance blk_state_eq_dec : EqDecision blk_state_t.
Proof. solve_decision. Defined.

#[global] Instance kobj_type_eq_dec : EqDecision kobj_type_t.
Proof. solve_decision. Defined.

(** ** Configuration *)

Definition RHINO_CONFIG_PRI_MAX : Z := 62.

Definition RHINO_IDLE_PRI : Z := RHINO_CONFIG_PRI_MAX - 1.

Definition RHINO_CONFIG_USER_PRI_MAX : Z := RHINO_CONFIG_PRI_MAX - 2.

Definition NUM_WORDS : Z := (RHINO_CONFIG_PRI_MAX + 31) / 32.

Definition RHINO_CONFIG_TIME_SLICE_DEFAULT : Z := 50.

Definition RHINO_CONFIG_TASK_INFO_NUM : Z := 2.

Definition SCHED_MAX_LOCK_COUNT : Z := 200.

Definition KSCHED_FIFO : Z := 0.

Definition KSCHED_RR : Z := 1.

Definition RHINO_NO_WAIT : Z := 0.

Definition RHINO_WAIT_FOREVER : Z := 2 ^ 64 - 1.

Definition K_OBJ_STATIC_ALLOC : Z := 1.

Definition K_OBJ_DYN_ALLOC : Z := 2.

(** ** Structures *)

#[local] Set Primitive Projections.

(** [k_sched.h]: [cur_list_item p] is the circular list of ready tasks of
    priority [p] read from the pointer the code keeps; [[]] is NULL. *)
Record runqueue_t := mk_rq {
  cur_list_item : list (list tid);
  task_bit_map : list Z;
  highest_pri : Z
}.

Definition set_cur_list_item (v : list (list tid)) (r : runqueue_t) : runqueue_t :=
  mk_rq v (task_bit_map r) (highest_pri r).
Definition set_task_bit_map (v : list Z) (r : runqueue_t) : runqueue_t :=
  mk_rq (cur_list_item r) v (highest_pri r).
Definition set_highest_pri (v : Z) (r : runqueue_t) : runqueue_t :=
  mk_rq (cur_list_item r) (task_bit_map r) v.

(** [k_task.h].  [tick_head] says whether the pointer is set (its only non-NULL
    value is the address of [g_tick_head]). *)
Record ktask_t := mk_task {
  task_stack : Z;
  task_name : Z;
  user_info : list Z;
  task_stack_base : Z;
  stack_size : Z;
  suspend_count : Z;
  mutex_list : option oid;
  tick_match : Z;
  tick_remain : Z;
  tick_head : bool;
  msg : Z;
  bq_msg_size : Z;
  task_state : task_stat_t;
  blk_state : blk_state_t;
  blk_obj : option oid;
  task_sem_obj : option oid;
  time_slice : Z;
  time_total : Z;
  pend_flags : Z;
  pend_info : Z;
  pend_option : Z;
  sched_policy : Z;
  cpu_num : Z;
  prio : Z;
  b_prio : Z;
  mm_alloc_flag : Z
}.

Definition set_task_stack (v : Z) (r : ktask_t) : ktask_t :=
  mk_task v (task_name r) (user_info r) (task_stack_base r) (stack_size r) (suspend_count r)
    (mutex_list r) (tick_match r) (tick_remain r) (tick_head r) (msg r) (bq_msg_size r)
    (task_state r) (blk_state r) (blk_obj r) (task_sem_obj r) (time_slice r) (time_total r)
    (pend_flags r) (pend_info r) (pend_option r) (sched_policy r) (cpu_num r) (prio r)
    (b_prio r) (mm_alloc_flag r).
Definition set_task_name (v : Z) (r : ktask_t) : ktask_t :=
  mk_task (task_stack r) v (user_info r) (task_stack_base r) (stack_size r) (suspend_count r)
    (mutex_list r) (tick_match r) (tick_remain r) (tick_head r) (msg r) (bq_msg_size r)
    (task_state r) (blk_state r) (blk_obj r) (task_sem_obj r) (time_slice r) (time_total r)
    (pend_flags r) (pend_info r) (pend_option r) (sched_policy r) (cpu_num r) (prio r)
    (b_prio r) (mm_alloc_flag r).
Definition set_user_info (v : list Z) (r : ktask_t) : ktask_t :=
  mk_task (task_stack r) (task_name r) v (task_stack_base r) (stack_size r) (suspend_count r)
    (mutex_list r) (tick_match r) (tick_remain r) (tick_head r) (msg r) (bq_msg_size r)
    (task_state r) (blk_state r) (blk_obj r) (task_sem_obj r) (time_slice r) (time_total r)
    (pend_flags r) (pend_info r) (pend_option r) (sched_policy r) (cpu_num r) (prio r)
    (b_prio r) (mm_alloc_flag r).
Definition set_task_stack_base (v : Z) (r : ktask_t) : ktask_t :=
  mk_task (task_stack r) (task_name r) (user_info r) v (stack_size r) (suspend_count r)
    (mutex_list r) (tick_match r) (tick_remain r) (tick_head r) (msg r) (bq_msg_size r)
    (task_state r) (blk_state r) (blk_obj r) (task_sem_obj r) (time_slice r) (time_total r)
    (pend_flags r) (pend_info r) (pend_option r) (sched_policy r) (cpu_num r) (prio r)
    (b_prio r) (mm_alloc_flag r).
Definition set_stack_size (v : Z) (r : ktask_t) : ktask_t :=
  mk_task (task_stack r) (task_name r) (user_info r) (task_stack_base r) v (suspend_count r)
    (mutex_list r) (tick_match r) (tick_remain r) (tick_head r) (msg r) (bq_msg_size r)
    (task_state r) (blk_state r) (blk_obj r) (task_sem_obj r) (time_slice r) (time_total r)
    (pend_flags r) (pend_info r) (pend_option r) (sched_policy r) (cpu_num r) (prio r)
    (b_prio r) (mm_alloc_flag r).
Definition set_suspend_count (v : Z) (r : ktask_t) : ktask_t :=
  mk_task (task_stack r) (task_name r) (user_info r) (task_stack_base r) (stack_size r) v
    (mutex_list r) (tick_match r) (tick_remain r) (tick_head r) (msg r) (bq_msg_size r)
    (task_state r) (blk_state r) (blk_obj r) (task_sem_obj r) (time_slice r) (time_total r)
    (pend_flags r) (pend_info r) (pend_option r) (sched_policy r) (cpu_num r) (prio r)
    (b_prio r) (mm_alloc_flag r).
Definition set_mutex_list (v : option oid) (r : ktask_t) : ktask_t :=
  mk_task (task_stack r) (task_name r) (user_info r) (task_stack_base r) (stack_size r)
    (suspend_count r) v (tick_match r) (tick_remain r) (tick_head r) (msg r) (bq_msg_size r)
    (task_state r) (blk_state r) (blk_obj r) (task_sem_obj r) (time_slice r) (time_total r)
    (pend_flags r) (pend_info r) (pend_option r) (sched_policy r) (cpu_num r) (prio r)
    (b_prio r) (mm_alloc_flag r).
Definition set_tick_match (v : Z) (r : ktask_t) : ktask_t :=
  mk_task (task_stack r) (task_name r) (user_info r) (task_stack_base r) (stack_size r)
    (suspend_count r) (mutex_list r) v (tick_remain r) (tick_head r) (msg r) (bq_msg_size r)
    (task_state r) (blk_state r) (blk_obj r) (task_sem_obj r) (time_slice r) (time_total r)
    (pend_flags r) (pend_info r) (pend_option r) (sched_policy r) (cpu_num r) (prio r)
    (b_prio r) (mm_alloc_flag r).
Definition set_tick_remain (v : Z) (r : ktask_t) : ktask_t :=
  mk_task (task_stack r) (task_name r) (user_info r) (task_stack_base r) (stack_size r)
    (suspend_count r) (mutex_list r) (tick_match r) v (tick_head r) (msg r) (bq_msg_size r)
    (task_state r) (blk_state r) (blk_obj r) (task_sem_obj r) (time_slice r) (time_total r)
    (pend_flags r) (pend_info r) (pend_option r) (sched_policy r) (cpu_num r) (prio r)
    (b_prio r) (mm_alloc_flag r).
Definition set_tick_head (v : bool) (r : ktask_t) : ktask_t :=
  mk_task (task_stack r) (task_name r) (user_info r) (task_stack_base r) (stack_size r)
    (suspend_count r) (mutex_list r) (tick_match r) (tick_remain r) v (msg r) (bq_msg_size r)
    (task_state r) (blk_state r) (blk_obj r) (task_sem_obj r) (time_slice r) (time_total r)
    (pend_flags r) (pend_info r) (pend_option r) (sched_policy r) (cpu_num r) (prio r)
    (b_prio r) (mm_alloc_flag r).
Definition set_msg (v : Z) (r : ktask_t) : ktask_t :=
  mk_task (task_stack r) (task_name r) (user_info r) (task_stack_base r) (stack_size r)
    (suspend_count r) (mutex_list r) (tick_match r) (tick_remain r) (tick_head r) v
    (bq_msg_size r) (task_state r) (blk_state r) (blk_obj r) (task_sem_obj r) (time_slice r)
    (time_total r) (pend_flags r) (pend_info r) (pend_option r) (sched_policy r) (cpu_num r)
    (prio r) (b_prio r) (mm_alloc_flag r).
Definition set_bq_msg_size (v : Z) (r : ktask_t) : ktask_t :=
  mk_task (task_stack r) (task_name r) (user_info r) (task_stack_base r) (stack_size r)
    (suspend_count r) (mutex_list r) (tick_match r) (tick_remain r) (tick_head r) (msg r) v
    (task_state r) (blk_state r) (blk_obj r) (task_sem_obj r) (time_slice r) (time_total r)
    (pend_flags r) (pend_info r) (pend_option r) (sched_policy r) (cpu_num r) (prio r)
    (b_prio r) (mm_alloc_flag r).
Definition set_task_state (v : task_stat_t) (r : ktask_t) : ktask_t :=
  mk_task (task_stack r) (task_name r) (user_info r) (task_stack_base r) (stack_size r)
    (suspend_count r) (mutex_list r) (tick_match r) (tick_remain r) (tick_head r) (msg r)
    (bq_msg_size r) v (blk_state r) (blk_obj r) (task_sem_obj r) (time_slice r) (time_total r)
    (pend_flags r) (pend_info r) (pend_option r) (sched_policy r) (cpu_num r) (prio r)
    (b_prio r) (mm_alloc_flag r).
Definition set_blk_state (v : blk_state_t) (r : ktask_t) : ktask_t :=
  mk_task (task_stack r) (task_name r) (user_info r) (task_stack_base r) (stack_size r)
    (suspend_count r) (mutex_list r) (tick_match r) (tick_remain r) (tick_head r) (msg r)
    (bq_msg_size r) (task_state r) v (blk_obj r) (task_sem_obj r) (time_slice r)
    (time_total r) (pend_flags r) (pend_info r) (pend_option r) (sched_policy r) (cpu_num r)
    (prio r) (b_prio r) (mm_alloc_flag r).
Definition set_blk_obj (v : option oid) (r : ktask_t) : ktask_t :=
  mk_task (task_stack r) (task_name r) (user_info r) (task_stack_base r) (stack_size r)
    (suspend_count r) (mutex_list r) (tick_match r) (tick_remain r) (tick_head r) (msg r)
    (bq_msg_size r) (task_state r) (blk_state r) v (task_sem_obj r) (time_slice r)
    (time_total r) (pend_flags r) (pend_info r) (pend_option r) (sched_policy r) (cpu_num r)
    (prio r) (b_prio r) (mm_alloc_flag r).
Definition set_task_sem_obj (v : option oid) (r : ktask_t) : ktask_t :=
  mk_task (task_stack r) (task_name r) (user_info r) (task_stack_base r) (stack_size r)
    (suspend_count r) (mutex_list r) (tick_match r) (tick_remain r) (tick_head r) (msg r)
    (bq_msg_size r) (task_state r) (blk_state r) (blk_obj r) v (time_slice r) (time_total r)
    (pend_flags r) (pend_info r) (pend_option r) (sched_policy r) (cpu_num r) (prio r)
    (b_prio r) (mm_alloc_flag r).
Definition set_time_slice (v : Z) (r : ktask_t) : ktask_t :=
  mk_task (task_stack r) (task_name r) (user_info r) (task_stack_base r) (stack_size r)
    (suspend_count r) (mutex_list r) (tick_match r) (tick_remain r) (tick_head r) (msg r)
    (bq_msg_size r) (task_state r) (blk_state r) (blk_obj r) (task_sem_obj r) v (time_total r)
    (pend_flags r) (pend_info r) (pend_option r) (sched_policy r) (cpu_num r) (prio r)
    (b_prio r) (mm_alloc_flag r).
Definition set_time_total (v : Z) (r : ktask_t) : ktask_t :=
  mk_task (task_stack r) (task_name r) (user_info r) (task_stack_base r) (stack_size r)
    (suspend_count r) (mutex_list r) (tick_match r) (tick_remain r) (tick_head r) (msg r)
    (bq_msg_size r) (task_state r) (blk_state r) (blk_obj r) (task_sem_obj r) (time_slice r) v
    (pend_flags r) (pend_info r) (pend_option r) (sched_policy r) (cpu_num r) (prio r)
    (b_prio r) (mm_alloc_flag r).
Definition set_pend_flags (v : Z) (r : ktask_t) : ktask_t :=
  mk_task (task_stack r) (task_name r) (user_info r) (task_stack_base r) (stack_size r)
    (suspend_count r) (mutex_list r) (tick_match r) (tick_remain r) (tick_head r) (msg r)
    (bq_msg_size r) (task_state r) (blk_state r) (blk_obj r) (task_sem_obj r) (time_slice r)
    (time_total r) v (pend_info r) (pend_option r) (sched_policy r) (cpu_num r) (prio r)
    (b_prio r) (mm_alloc_flag r).
Definition set_pend_info (v : Z) (r : ktask_t) : ktask_t :=
  mk_task (task_stack r) (task_name r) (user_info r) (task_stack_base r) (stack_size r)
    (suspend_count r) (mutex_list r) (tick_match r) (tick_remain r) (tick_head r) (msg r)
    (bq_msg_size r) (task_state r) (blk_state r) (blk_obj r) (task_sem_obj r) (time_slice r)
    (time_total r) (pend_flags r) v (pend_option r) (sched_policy r) (cpu_num r) (prio r)
    (b_prio r) (mm_alloc_flag r).
Definition set_pend_option (v : Z) (r : ktask_t) : ktask_t :=
  mk_task (task_stack r) (task_name r) (user_info r) (task_stack_base r) (stack_size r)
    (suspend_count r) (mutex_list r) (tick_match r) (tick_remain r) (tick_head r) (msg r)
    (bq_msg_size r) (task_state r) (blk_state r) (blk_obj r) (task_sem_obj r) (time_slice r)
    (time_total r) (pend_flags r) (pend_info r) v (sched_policy r) (cpu_num r) (prio r)
    (b_prio r) (mm_alloc_flag r).
Definition set_sched_policy (v : Z) (r : ktask_t) : ktask_t :=
  mk_task (task_stack r) (task_name r) (user_info r) (task_stack_base r) (stack_size r)
    (suspend_count r) (mutex_list r) (tick_match r) (tick_remain r) (tick_head r) (msg r)
    (bq_msg_size r) (task_state r) (blk_state r) (blk_obj r) (task_sem_obj r) (time_slice r)
    (time_total r) (pend_flags r) (pend_info r) (pend_option r) v (cpu_num r) (prio r)
    (b_prio r) (mm_alloc_flag r).
Definition set_cpu_num (v : Z) (r : ktask_t) : ktask_t :=
  mk_task (task_stack r) (task_name r) (user_info r) (task_stack_base r) (stack_size r)
    (suspend_count r) (mutex_list r) (tick_match r) (tick_remain r) (tick_head r) (msg r)
    (bq_msg_size r) (task_state r) (blk_state r) (blk_obj r) (task_sem_obj r) (time_slice r)
    (time_total r) (pend_flags r) (pend_info r) (pend_option r) (sched_policy r) v (prio r)
    (b_prio r) (mm_alloc_flag r).
Definition set_prio (v : Z) (r : ktask_t) : ktask_t :=
  mk_task (task_stack r) (task_name r) (user_info r) (task_stack_base r) (stack_size r)
    (suspend_count r) (mutex_list r) (tick_match r) (tick_remain r) (tick_head r) (msg r)
    (bq_msg_size r) (task_state r) (blk_state r) (blk_obj r) (task_sem_obj r) (time_slice r)
    (time_total r) (pend_flags r) (pend_info r) (pend_option r) (sched_policy r) (cpu_num r) v
    (b_prio r) (mm_alloc_flag r).
Definition set_b_prio (v : Z) (r : ktask_t) : ktask_t :=
  mk_task (task_stack r) (task_name r) (user_info r) (task_stack_base r) (stack_size r)
    (suspend_count r) (mutex_list r) (tick_match r) (tick_remain r) (tick_head r) (msg r)
    (bq_msg_size r) (task_state r) (blk_state r) (blk_obj r) (task_sem_obj r) (time_slice r)
    (time_total r) (pend_flags r) (pend_info r) (pend_option r) (sched_policy r) (cpu_num r)
    (prio r) v (mm_alloc_flag r).
Definition set_mm_alloc_flag (v : Z) (r : ktask_t) : ktask_t :=
  mk_task (task_stack r) (task_name r) (user_info r) (task_stack_base r) (stack_size r)
    (suspend_count r) (mutex_list r) (tick_match r) (tick_remain r) (tick_head r) (msg r)
    (bq_msg_size r) (task_state r) (blk_state r) (blk_obj r) (task_sem_obj r) (time_slice r)
    (time_total r) (pend_flags r) (pend_info r) (pend_option r) (sched_policy r) (cpu_num r)
    (prio r) (b_prio r) v.

(** [k_obj.h]. *)
Record blk_obj_t := mk_blk {
  blk_list : list tid;
  blk_name : Z;
  blk_policy : blk_policy_t;
  obj_type : kobj_type_t
}.

Definition set_blk_list (v : list tid) (r : blk_obj_t) : blk_obj_t :=
  mk_blk v (blk_name r) (blk_policy r) (obj_type r).
Definition set_blk_name (v : Z) (r : blk_obj_t) : blk_obj_t :=
  mk_blk (blk_list r) v (blk_policy r) (obj_type r).
Definition set_blk_policy (v : blk_policy_t) (r : blk_obj_t) : blk_obj_t :=
  mk_blk (blk_list r) (blk_name r) v (obj_type r).
Definition set_obj_type (v : kobj_type_t) (r : blk_obj_t) : blk_obj_t :=
  mk_blk (blk_list r) (blk_name r) (blk_policy r) v.

(** [k_sem.h] without the leading [blk_obj]. *)
Record ksem_t := mk_sem {
  sem_count : Z;
  peak_count : Z;
  sem_mm_flag : Z
}.

Definition set_sem_count (v : Z) (r : ksem_t) : ksem_t :=
  mk_sem v (peak_count r) (sem_mm_flag r).
Definition set_peak_count (v : Z) (r : ksem_t) : ksem_t :=
  mk_sem (sem_count r) v (sem_mm_flag r).
Definition set_sem_mm_flag (v : Z) (r : ksem_t) : ksem_t :=
  mk_sem (sem_count r) (peak_count r) v.

(** [k_mutex.h] without the leading [blk_obj]. *)
Record kmutex_t := mk_mutex {
  mutex_task : option tid;
  m_mutex_list : option oid;
  owner_nested : Z;
  mutex_mm_flag : Z
}.

Definition set_mutex_task (v : option tid) (r : kmutex_t) : kmutex_t :=
  mk_mutex v (m_mutex_list r) (owner_nested r) (mutex_mm_flag r).
Definition set_m_mutex_list (v : option oid) (r : kmutex_t) : kmutex_t :=
  mk_mutex (mutex_task r) v (owner_nested r) (mutex_mm_flag r).
Definition set_owner_nested (v : Z) (r : kmutex_t) : kmutex_t :=
  mk_mutex (mutex_task r) (m_mutex_list r) v (mutex_mm_flag r).
Definition set_mutex_mm_flag (v : Z) (r : kmutex_t) : kmutex_t :=
  mk_mutex (mutex_task r) (m_mutex_list r) (owner_nested r) v.

(** [k_queue.h] without the leading [blk_obj]. *)
Record kqueue_t := mk_queue {
  q_ringbuf : k_ringbuf_t;
  queue_start : Z;
  q_size : Z;
  q_cur_num : Z;
  q_peak_num : Z;
  q_mm_flag : Z
}.

Definition set_q_ringbuf (v : k_ringbuf_t) (r : kqueue_t) : kqueue_t :=
  mk_queue v (queue_start r) (q_size r) (q_cur_num r) (q_peak_num r) (q_mm_flag r).
Definition set_queue_start (v : Z) (r : kqueue_t) : kqueue_t :=
  mk_queue (q_ringbuf r) v (q_size r) (q_cur_num r) (q_peak_num r) (q_mm_flag r).
Definition set_q_size (v : Z) (r : kqueue_t) : kqueue_t :=
  mk_queue (q_ringbuf r) (queue_start r) v (q_cur_num r) (q_peak_num r) (q_mm_flag r).
Definition set_q_cur_num (v : Z) (r : kqueue_t) : kqueue_t :=
  mk_queue (q_ringbuf r) (queue_start r) (q_size r) v (q_peak_num r) (q_mm_flag r).
Definition set_q_peak_num (v : Z) (r : kqueue_t) : kqueue_t :=
  mk_queue (q_ringbuf r) (queue_start r) (q_size r) (q_cur_num r) v (q_mm_flag r).
Definition set_q_mm_flag (v : Z) (r : kqueue_t) : kqueue_t :=
  mk_queue (q_ringbuf r) (queue_start r) (q_size r) (q_cur_num r) (q_peak_num r) v.

(** [k_buf_queue.h] without the leading [blk_obj]. *)
Record kbuf_queue_t := mk_bufq {
  bq_buf : Z;
  bq_ringbuf : k_ringbuf_t;
  max_msg_size : Z;
  bq_cur_num : Z;
  bq_peak_num : Z;
  min_free_buf_size : Z;
  bq_mm_flag : Z
}.

Definition set_bq_buf (v : Z) (r : kbuf_queue_t) : kbuf_queue_t :=
  mk_bufq v (bq_ringbuf r) (max_msg_size r) (bq_cur_num r) (bq_peak_num r)
    (min_free_buf_size r) (bq_mm_flag r).
Definition set_bq_ringbuf (v : k_ringbuf_t) (r : kbuf_queue_t) : kbuf_queue_t :=
  mk_bufq (bq_buf r) v (max_msg_size r) (bq_cur_num r) (bq_peak_num r) (min_free_buf_size r)
    (bq_mm_flag r).
Definition set_max_msg_size (v : Z) (r : kbuf_queue_t) : kbuf_queue_t :=
  mk_bufq (bq_buf r) (bq_ringbuf r) v (bq_cur_num r) (bq_peak_num r) (min_free_buf_size r)
    (bq_mm_flag r).
Definition set_bq_cur_num (v : Z) (r : kbuf_queue_t) : kbuf_queue_t :=
  mk_bufq (bq_buf r) (bq_ringbuf r) (max_msg_size r) v (bq_peak_num r) (min_free_buf_size r)
    (bq_mm_flag r).
Definition set_bq_peak_num (v : Z) (r : kbuf_queue_t) : kbuf_queue_t :=
  mk_bufq (bq_buf r) (bq_ringbuf r) (max_msg_size r) (bq_cur_num r) v (min_free_buf_size r)
    (bq_mm_flag r).
Definition set_min_free_buf_size (v : Z) (r : kbuf_queue_t) : kbuf_queue_t :=
  mk_bufq (bq_buf r) (bq_ringbuf r) (max_msg_size r) (bq_cur_num r) (bq_peak_num r) v
    (bq_mm_flag r).
Definition set_bq_mm_flag (v : Z) (r : kbuf_queue_t) : kbuf_queue_t :=
  mk_bufq (bq_buf r) (bq_ringbuf r) (max_msg_size r) (bq_cur_num r) (bq_peak_num r)
    (min_free_buf_size r) v.

(** [k_event.h] without the leading [blk_obj]. *)
Record kevent_t := mk_event {
  ev_flags : Z;
  ev_mm_flag : Z
}.

Definition set_ev_flags (v : Z) (r : kevent_t) : kevent_t :=
  mk_event v (ev_mm_flag r).
Definition set_ev_mm_flag (v : Z) (r : kevent_t) : kevent_t :=
  mk_event (ev_flags r) v.

(** The kernel's globals ([k_obj.c]), the control blocks by identity, the words
    and message buffers of the callers that blocked tasks point to, the interrupt
    mask of the CPU, and the codes passed to [k_err_proc], latest first. *)
Record kstate := mk_kstate {
  g_sys_stat : kstat_t;
  g_idle_task_spawned : Z;
  g_ready_queue : runqueue_t;
  g_sched_lock : Z;
  g_intrpt_nested_level : Z;
  g_preferred_ready_task : option tid;
  g_active_task : option tid;
  g_tick_count : Z;
  g_tick_head : list tid;
  tasks : gmap tid ktask_t;
  blks : gmap oid blk_obj_t;
  sems : gmap oid ksem_t;
  mutexes : gmap oid kmutex_t;
  queues : gmap oid kqueue_t;
  bufqs : gmap oid kbuf_queue_t;
  events : gmap oid kevent_t;
  g_res_list : list tid;
  words : gmap Z Z;
  bytes : gmap Z (list Z);
  irq_off : bool;
  err_log : list kstat_t
}.

Definition set_g_sys_stat (v : kstat_t) (r : kstate) : kstate :=
  mk_kstate v (g_idle_task_spawned r) (g_ready_queue r) (g_sched_lock r)
    (g_intrpt_nested_level r) (g_preferred_ready_task r) (g_active_task r) (g_tick_count r)
    (g_tick_head r) (tasks r) (blks r) (sems r) (mutexes r) (queues r) (bufqs r) (events r)
    (g_res_list r) (words r) (bytes r) (irq_off r) (err_log r).
Definition set_g_idle_task_spawned (v : Z) (r : kstate) : kstate :=
  mk_kstate (g_sys_stat r) v (g_ready_queue r) (g_sched_lock r) (g_intrpt_nested_level r)
    (g_preferred_ready_task r) (g_active_task r) (g_tick_count r) (g_tick_head r) (tasks r)
    (blks r) (sems r) (mutexes r) (queues r) (bufqs r) (events r) (g_res_list r) (words r)
    (bytes r) (irq_off r) (err_log r).
Definition set_g_ready_queue (v : runqueue_t) (r : kstate) : kstate :=
  mk_kstate (g_sys_stat r) (g_idle_task_spawned r) v (g_sched_lock r)
    (g_intrpt_nested_level r) (g_preferred_ready_task r) (g_active_task r) (g_tick_count r)
    (g_tick_head r) (tasks r) (blks r) (sems r) (mutexes r) (queues r) (bufqs r) (events r)
    (g_res_list r) (words r) (bytes r) (irq_off r) (err_log r).
Definition set_g_sched_lock (v : Z) (r : kstate) : kstate :=
  mk_kstate (g_sys_stat r) (g_idle_task_spawned r) (g_ready_queue r) v
    (g_intrpt_nested_level r) (g_preferred_ready_task r) (g_active_task r) (g_tick_count r)
    (g_tick_head r) (tasks r) (blks r) (sems r) (mutexes r) (queues r) (bufqs r) (events r)
    (g_res_list r) (words r) (bytes r) (irq_off r) (err_log r).
Definition set_g_intrpt_nested_level (v : Z) (r : kstate) : kstate :=
  mk_kstate (g_sys_stat r) (g_idle_task_spawned r) (g_ready_queue r) (g_sched_lock r) v
    (g_preferred_ready_task r) (g_active_task r) (g_tick_count r) (g_tick_head r) (tasks r)
    (blks r) (sems r) (mutexes r) (queues r) (bufqs r) (events r) (g_res_list r) (words r)
    (bytes r) (irq_off r) (err_log r).
Definition set_g_preferred_ready_task (v : option tid) (r : kstate) : kstate :=
  mk_kstate (g_sys_stat r) (g_idle_task_spawned r) (g_ready_queue r) (g_sched_lock r)
    (g_intrpt_nested_level r) v (g_active_task r) (g_tick_count r) (g_tick_head r) (tasks r)
    (blks r) (sems r) (mutexes r) (queues r) (bufqs r) (events r) (g_res_list r) (words r)
    (bytes r) (irq_off r) (err_log r).
Definition set_g_active_task (v : option tid) (r : kstate) : kstate :=
  mk_kstate (g_sys_stat r) (g_idle_task_spawned r) (g_ready_queue r) (g_sched_lock r)
    (g_intrpt_nested_level r) (g_preferred_ready_task r) v (g_tick_count r) (g_tick_head r)
    (tasks r) (blks r) (sems r) (mutexes r) (queues r) (bufqs r) (events r) (g_res_list r)
    (words r) (bytes r) (irq_off r) (err_log r).
Definition set_g_tick_count (v : Z) (r : kstate) : kstate :=
  mk_kstate (g_sys_stat r) (g_idle_task_spawned r) (g_ready_queue r) (g_sched_lock r)
    (g_intrpt_nested_level r) (g_preferred_ready_task r) (g_active_task r) v (g_tick_head r)
    (tasks r) (blks r) (sems r) (mutexes r) (queues r) (bufqs r) (events r) (g_res_list r)
    (words r) (bytes r) (irq_off r) (err_log r).
Definition set_g_tick_head (v : list tid) (r : kstate) : kstate :=
  mk_kstate (g_sys_stat r) (g_idle_task_spawned r) (g_ready_queue r) (g_sched_lock r)
    (g_intrpt_nested_level r) (g_preferred_ready_task r) (g_active_task r) (g_tick_count r) v
    (tasks r) (blks r) (sems r) (mutexes r) (queues r) (bufqs r) (events r) (g_res_list r)
    (words r) (bytes r) (irq_off r) (err_log r).
Definition set_tasks (v : gmap tid ktask_t) (r : kstate) : kstate :=
  mk_kstate (g_sys_stat r) (g_idle_task_spawned r) (g_ready_queue r) (g_sched_lock r)
    (g_intrpt_nested_level r) (g_preferred_ready_task r) (g_active_task r) (g_tick_count r)
    (g_tick_head r) v (blks r) (sems r) (mutexes r) (queues r) (bufqs r) (events r)
    (g_res_list r) (words r) (bytes r) (irq_off r) (err_log r).
Definition set_blks (v : gmap oid blk_obj_t) (r : kstate) : kstate :=
  mk_kstate (g_sys_stat r) (g_idle_task_spawned r) (g_ready_queue r) (g_sched_lock r)
    (g_intrpt_nested_level r) (g_preferred_ready_task r) (g_active_task r) (g_tick_count r)
    (g_tick_head r) (tasks r) v (sems r) (mutexes r) (queues r) (bufqs r) (events r)
    (g_res_list r) (words r) (bytes r) (irq_off r) (err_log r).
Definition set_sems (v : gmap oid ksem_t) (r : kstate) : kstate :=
  mk_kstate (g_sys_stat r) (g_idle_task_spawned r) (g_ready_queue r) (g_sched_lock r)
    (g_intrpt_nested_level r) (g_preferred_ready_task r) (g_active_task r) (g_tick_count r)
    (g_tick_head r) (tasks r) (blks r) v (mutexes r) (queues r) (bufqs r) (events r)
    (g_res_list r) (words r) (bytes r) (irq_off r) (err_log r).
Definition set_mutexes (v : gmap oid kmutex_t) (r : kstate) : kstate :=
  mk_kstate (g_sys_stat r) (g_idle_task_spawned r) (g_ready_queue r) (g_sched_lock r)
    (g_intrpt_nested_level r) (g_preferred_ready_task r) (g_active_task r) (g_tick_count r)
    (g_tick_head r) (tasks r) (blks r) (sems r) v (queues r) (bufqs r) (events r)
    (g_res_list r) (words r) (bytes r) (irq_off r) (err_log r).
Definition set_queues (v : gmap oid kqueue_t) (r : kstate) : kstate :=
  mk_kstate (g_sys_stat r) (g_idle_task_spawned r) (g_ready_queue r) (g_sched_lock r)
    (g_intrpt_nested_level r) (g_preferred_ready_task r) (g_active_task r) (g_tick_count r)
    (g_tick_head r) (tasks r) (blks r) (sems r) (mutexes r) v (bufqs r) (events r)
    (g_res_list r) (words r) (bytes r) (irq_off r) (err_log r).
Definition set_bufqs (v : gmap oid kbuf_queue_t) (r : kstate) : kstate :=
  mk_kstate (g_sys_stat r) (g_idle_task_spawned r) (g_ready_queue r) (g_sched_lock r)
    (g_intrpt_nested_level r) (g_preferred_ready_task r) (g_active_task r) (g_tick_count r)
    (g_tick_head r) (tasks r) (blks r) (sems r) (mutexes r) (queues r) v (events r)
    (g_res_list r) (words r) (bytes r) (irq_off r) (err_log r).
Definition set_events (v : gmap oid kevent_t) (r : kstate) : kstate :=
  mk_kstate (g_sys_stat r) (g_idle_task_spawned r) (g_ready_queue r) (g_sched_lock r)
    (g_intrpt_nested_level r) (g_preferred_ready_task r) (g_active_task r) (g_tick_count r)
    (g_tick_head r) (tasks r) (blks r) (sems r) (mutexes r) (queues r) (bufqs r) v
    (g_res_list r) (words r) (bytes r) (irq_off r) (err_log r).
Definition set_g_res_list (v : list tid) (r : kstate) : kstate :=
  mk_kstate (g_sys_stat r) (g_idle_task_spawned r) (g_ready_queue r) (g_sched_lock r)
    (g_intrpt_nested_level r) (g_preferred_ready_task r) (g_active_task r) (g_tick_count r)
    (g_tick_head r) (tasks r) (blks r) (sems r) (mutexes r) (queues r) (bufqs r) (events r) v
    (words r) (bytes r) (irq_off r) (err_log r).
Definition set_words (v : gmap Z Z) (r : kstate) : kstate :=
  mk_kstate (g_sys_stat r) (g_idle_task_spawned r) (g_ready_queue r) (g_sched_lock r)
    (g_intrpt_nested_level r) (g_preferred_ready_task r) (g_active_task r) (g_tick_count r)
    (g_tick_head r) (tasks r) (blks r) (sems r) (mutexes r) (queues r) (bufqs r) (events r)
    (g_res_list r) v (bytes r) (irq_off r) (err_log r).
Definition set_bytes (v : gmap Z (list Z)) (r : kstate) : kstate :=
  mk_kstate (g_sys_stat r) (g_idle_task_spawned r) (g_ready_queue r) (g_sched_lock r)
    (g_intrpt_nested_level r) (g_preferred_ready_task r) (g_active_task r) (g_tick_count r)
    (g_tick_head r) (tasks r) (blks r) (sems r) (mutexes r) (queues r) (bufqs r) (events r)
    (g_res_list r) (words r) v (irq_off r) (err_log r).
Definition set_irq_off (v : bool) (r : kstate) : kstate :=
  mk_kstate (g_sys_stat r) (g_idle_task_spawned r) (g_ready_queue r) (g_sched_lock r)
    (g_intrpt_nested_level r) (g_preferred_ready_task r) (g_active_task r) (g_tick_count r)
    (g_tick_head r) (tasks r) (blks r) (sems r) (mutexes r) (queues r) (bufqs r) (events r)
    (g_res_list r) (words r) (bytes r) v (err_log r).
Definition set_err_log (v : list kstat_t) (r : kstate) : kstate :=
  mk_kstate (g_sys_stat r) (g_idle_task_spawned r) (g_ready_queue r) (g_sched_lock r)
    (g_intrpt_nested_level r) (g_preferred_ready_task r) (g_active_task r) (g_tick_count r)
    (g_tick_head r) (tasks r) (blks r) (sems r) (mutexes r) (queues r) (bufqs r) (events r)
    (g_res_list r) (words r) (bytes r) (irq_off r) v.
