(* ===== verification/KMonad.v ===== *)
(** * Kernel programs: states, undefined behaviour, critical sections

    A kernel function is a [K A]: from a state it gives a result and the next
    state, or [None] where the C program has undefined behaviour (a NULL or
    dangling pointer followed, a list node unlinked that is on no list, an array
    index out of range).  [wp m Q s] says that [m] started in [s] is defined and
    ends in a result and state satisfying [Q]. *)

From S2P Require Import Prelude KErr KState.
Local Open Scope Z_scope.

Definition K (A : Type) : Type := kstate -> option (A * kstate).

#[global] Instance K_ret : MRet K := fun A a s => Some (a, s).
#[global] Instance K_bind : MBind K := fun A B f m s =>
  match m s with Some (a, s') => f a s' | None => None end.
#[global] Typeclasses Opaque K.

Definition gets {A} (f : kstate -> A) : K A := fun s => Some (f s, s).

Definition modify (f : kstate -> kstate) : K unit := fun s => Some (tt, f s).

Definition undef {A} : K A := fun _ => None.

(** A pointer that is followed: NULL is undefined behaviour. *)
Definition deref {A} (p : option A) : K A := fun s => a ← p; Some (a, s).

Definition get_task (t : tid) : K ktask_t := fun s => k ← tasks s !! t; Some (k, s).

Definition upd_task (t : tid) (f : ktask_t -> ktask_t) : K unit := fun s =>
  k ← tasks s !! t; Some (tt, set_tasks (<[t := f k]> (tasks s)) s).

Definition get_blk (o : oid) : K blk_obj_t := fun s => b ← blks s !! o; Some (b, s).

Definition upd_blk (o : oid) (f : blk_obj_t -> blk_obj_t) : K unit := fun s =>
  b ← blks s !! o; Some (tt, set_blks (<[o := f b]> (blks s)) s).

Definition get_mutex (o : oid) : K kmutex_t := fun s => m ← mutexes s !! o; Some (m, s).

Definition upd_mutex (o : oid) (f : kmutex_t -> kmutex_t) : K unit := fun s =>
  m ← mutexes s !! o; Some (tt, set_mutexes (<[o := f m]> (mutexes s)) s).

(** [g_active_task[cpu_cur_get()]], followed by every caller. *)
Definition cur_task : K tid := t ← gets g_active_task; deref t.

(** [k_err.c]: the installed handler is told the code. *)
Definition k_err_proc (err : kstat_t) : K unit := modify (fun s => set_err_log (err :: err_log s) s).

(** [k_critical.h], [k_internal.h]: [CPSR_ALLOC] is the saved mask. *)
Definition RHINO_CPU_INTRPT_DISABLE : K bool :=
  cpsr ← gets irq_off; modify (set_irq_off true);; mret cpsr.

Definition RHINO_CPU_INTRPT_ENABLE (cpsr : bool) : K unit := modify (set_irq_off cpsr).

Definition RHINO_CRITICAL_ENTER : K bool := RHINO_CPU_INTRPT_DISABLE.

Definition RHINO_CRITICAL_EXIT (cpsr : bool) : K unit := RHINO_CPU_INTRPT_ENABLE cpsr.

(** [if (para == NULL) return RHINO_NULL_PTR]. *)
Definition NULL_PARA_CHK {A R} (r : kstat_t -> R) (para : option A) (k : A -> K R) : K R :=
  match para with None => mret (r RHINO_NULL_PTR) | Some a => k a end.

(** [if (g_intrpt_nested_level > 0) { RHINO_CRITICAL_EXIT(); return ...}]. *)
Definition INTRPT_NESTED_LEVEL_CHK {R} (r : kstat_t -> R) (cpsr : bool) (k : K R) : K R :=
  lvl ← gets g_intrpt_nested_level;
  if 0 <? lvl then RHINO_CRITICAL_EXIT cpsr;; mret (r RHINO_NOT_CALLED_BY_INTRPT) else k.

(** Leave the critical section with an error. *)
Definition critical_return {R} (cpsr : bool) (r : R) : K R := RHINO_CRITICAL_EXIT cpsr;; mret r.

(** What a call that may block does up to its rescheduling point: it returns a
    status, or the caller is now blocked and goes on from there once it is
    scheduled again. *)
Inductive call_res :=
  | Ret (r : kstat_t)
  | Blocked.

(** ** Weakest preconditions *)

Definition wp {A} (m : K A) (Q : A -> kstate -> Prop) (s : kstate) : Prop :=
  match m s with Some (a, s') => Q a s' | None => False end.

Lemma wp_iff {A} (m : K A) Q s : wp m Q s <-> exists a s', m s = Some (a, s') /\ Q a s'.
Proof. unfold wp. destruct (m s) as [[a s']|]; naive_solver. Qed.

Lemma wp_mono {A} (m : K A) (P Q : A -> kstate -> Prop) s :
  wp m P s -> (forall a s', P a s' -> Q a s') -> wp m Q s.
Proof. unfold wp. destruct (m s) as [[a s']|]; naive_solver. Qed.

Lemma wp_ret {A} (a : A) (Q : A -> kstate -> Prop) s : Q a s -> wp (mret a) Q s.
Proof. done. Qed.

Lemma wp_bind {A B} (m : K A) (f : A -> K B) Q s : wp m (fun a => wp (f a) Q) s -> wp (m ≫= f) Q s.
Proof. unfold wp, mbind, K_bind. destruct (m s) as [[a s']|]; done. Qed.

Lemma wp_unbind {A B} (m : K A) (f : A -> K B) Q s : wp (m ≫= f) Q s -> wp m (fun a => wp (f a) Q) s.
Proof. unfold wp, mbind, K_bind. destruct (m s) as [[a s']|]; done. Qed.

Lemma wp_bind_assoc {A B C} (m : K A) (n : A -> K B) (c : B -> K C) (Q : C -> kstate -> Prop) s :
  wp (x ← m; n x) (fun y => wp (c y) Q) s -> wp (x ← m; y ← n x; c y) Q s.
Proof. unfold wp, mbind, K_bind. destruct (m s) as [[x s1]|]; [|done]. by destruct (n x s1) as [[y s2]|]. Qed.

Lemma wp_gets {A} (f : kstate -> A) (Q : A -> kstate -> Prop) s : Q (f s) s -> wp (gets f) Q s.
Proof. done. Qed.

Lemma wp_modify f (Q : unit -> kstate -> Prop) s : Q tt (f s) -> wp (modify f) Q s.
Proof. done. Qed.

Lemma wp_deref {A} (p : option A) a (Q : A -> kstate -> Prop) s : p = Some a -> Q a s -> wp (deref p) Q s.
Proof. by intros ->. Qed.

Lemma wp_get_task t k (Q : ktask_t -> kstate -> Prop) s : tasks s !! t = Some k -> Q k s -> wp (get_task t) Q s.
Proof. unfold wp, get_task. by intros ->. Qed.

Lemma wp_upd_task t k f (Q : unit -> kstate -> Prop) s :
  tasks s !! t = Some k -> Q tt (set_tasks (<[t := f k]> (tasks s)) s) -> wp (upd_task t f) Q s.
Proof. unfold wp, upd_task. by intros ->. Qed.

Lemma wp_get_blk o b (Q : blk_obj_t -> kstate -> Prop) s : blks s !! o = Some b -> Q b s -> wp (get_blk o) Q s.
Proof. unfold wp, get_blk. by intros ->. Qed.

Lemma wp_upd_blk o b f (Q : unit -> kstate -> Prop) s :
  blks s !! o = Some b -> Q tt (set_blks (<[o := f b]> (blks s)) s) -> wp (upd_blk o f) Q s.
Proof. unfold wp, upd_blk. by intros ->. Qed.

Lemma wp_get_mutex o m (Q : kmutex_t -> kstate -> Prop) s : mutexes s !! o = Some m -> Q m s -> wp (get_mutex o) Q s.
Proof. unfold wp, get_mutex. by intros ->. Qed.

Lemma wp_upd_mutex o m f (Q : unit -> kstate -> Prop) s :
  mutexes s !! o = Some m -> Q tt (set_mutexes (<[o := f m]> (mutexes s)) s) -> wp (upd_mutex o f) Q s.
Proof. unfold wp, upd_mutex. by intros ->. Qed.

Lemma wp_cur_task t (Q : tid -> kstate -> Prop) s : g_active_task s = Some t -> Q t s -> wp cur_task Q s.
Proof. intros. apply wp_bind, wp_gets. by eapply wp_deref. Qed.

(** States that differ at most in the task table. *)
Lemma tasks_ext {A} (Q : A -> kstate -> Prop) a s1 s2 :
  Q a s2 -> tasks s1 = tasks s2 -> set_tasks ∅ s1 = set_tasks ∅ s2 -> Q a s1.
Proof.
  intros HQ Ht Hr. assert (s1 = s2) as ->; [|done].
  transitivity (set_tasks (tasks s1) (set_tasks ∅ s1)); [done|]. by rewrite Ht, Hr.
Qed.

(** Lookups found in the context or just written. *)
Ltac klookup := first [apply lookup_insert_eq | eassumption].

(** One step of a program. *)
Ltac kstep :=
  lazymatch goal with
  | |- wp (mbind _ _) _ _ => apply wp_bind
  | |- wp (mret _) _ _ => apply wp_ret
  | |- wp (gets _) _ _ => apply wp_gets
  | |- wp (modify _) _ _ => apply wp_modify
  | |- wp (get_task _) _ _ => eapply wp_get_task; [klookup|]
  | |- wp (upd_task _ _) _ _ => eapply wp_upd_task; [klookup|]
  | |- wp (get_blk _) _ _ => eapply wp_get_blk; [klookup|]
  | |- wp (upd_blk _ _) _ _ => eapply wp_upd_blk; [klookup|]
  | |- wp (get_mutex _) _ _ => eapply wp_get_mutex; [klookup|]
  | |- wp (upd_mutex _ _) _ _ => eapply wp_upd_mutex; [klookup|]
  | |- wp (deref _) _ _ => eapply wp_deref; [klookup|]
  | |- wp cur_task _ _ => eapply wp_cur_task; [klookup|]
  end.

Ltac ksteps := repeat kstep.

(** Conclude from the same fact about the state with repeated writes to one
    task merged. *)
Ltac kmerge H := refine (tasks_ext _ _ _ _ H _ _); [cbn; rewrite ?insert_insert_eq; reflexivity|reflexivity].
