(* ===== verification/Sched.v ===== *)
(** * Scheduler ([rhino/core/k_sched.c], single CPU)

    The run queue (one ring per priority, the occupancy bitmap, the cached
    highest priority), the choice of the next task, scheduler locking, the
    rescheduling point [core_sched] and round-robin time slices.  The run queue
    argument of the C functions is always [g_ready_queue]. *)

From S2P Require Import Prelude KErr Bitmap KState KMonad.
Local Open Scope Z_scope.

(** ** The CPU port

    The context switch is written in assembly per CPU and is not part of the
    sources: it stores the stack pointer of the outgoing task and makes the
    preferred task the active one.  The widths of three counters are typedefs of
    the port. *)

Definition switched (sp : Z) (s : kstate) : kstate :=
  set_g_active_task (g_preferred_ready_task s)
    (match g_active_task s with
     | Some t => set_tasks (alter (set_task_stack sp) t (tasks s)) s
     | None => s
     end).

Class CpuPort := {
  cpu_task_switch : K unit;
  cpu_intrpt_switch : K unit;
  cpu_task_switch_spec s : exists sp, cpu_task_switch s = Some (tt, switched sp s);
  cpu_intrpt_switch_spec s : exists sp, cpu_intrpt_switch s = Some (tt, switched sp s);
  (** the initial stack pointer of a task, from its stack, size, argument and entry *)
  cpu_task_stack_init : Z -> Z -> Z -> Z -> Z;
  sem_count_bits : Z;
  mutex_nested_bits : Z;
  suspend_nested_bits : Z;
  port_bits_pos : 0 < sem_count_bits /\ 1 < mutex_nested_bits /\ 1 < suspend_nested_bits
}.

(** ** Run queue *)

Definition runqueue_init : K unit :=
  modify (fun s => set_g_ready_queue
    (mk_rq (replicate (Z.to_nat RHINO_CONFIG_PRI_MAX) []) (task_bit_map (g_ready_queue s)) RHINO_CONFIG_PRI_MAX) s).

(** [rq->cur_list_item[p]] and assignments to it. *)
Definition cur_item (p : Z) : K (list tid) := rq ← gets g_ready_queue; deref (arr_get (cur_list_item rq) p).

Definition cur_item_set (p : Z) (l : list tid) : K unit :=
  rq ← gets g_ready_queue;
  cl ← deref (arr_set (cur_list_item rq) p l);
  modify (set_g_ready_queue (set_cur_list_item cl rq)).

Definition ready_list_init (task : tid) : K unit :=
  k ← get_task task;
  cur_item_set (prio k) [task];;
  rq ← gets g_ready_queue;
  bm ← deref (krhino_bitmap_set (task_bit_map rq) (prio k));
  modify (set_g_ready_queue (set_task_bit_map bm rq));;
  rq ← gets g_ready_queue;
  if prio k <? highest_pri rq then modify (set_g_ready_queue (set_highest_pri (prio k) rq)) else mret tt.

Definition is_ready_list_empty (p : Z) : K bool := l ← cur_item p; mret (bool_decide (l = [])).

(** Inserting before the current item is appending to the ring read from it. *)
Definition ready_list_add_tail (task : tid) : K unit :=
  k ← get_task task;
  e ← is_ready_list_empty (prio k);
  if (e : bool) then ready_list_init task
  else l ← cur_item (prio k); cur_item_set (prio k) (l ++ [task]).

Definition ready_list_add_head (task : tid) : K unit :=
  k ← get_task task;
  e ← is_ready_list_empty (prio k);
  if (e : bool) then ready_list_init task
  else l ← cur_item (prio k); cur_item_set (prio k) (task :: l).

Definition ready_list_add (task : tid) : K unit :=
  k ← get_task task;
  a ← cur_task;
  ka ← get_task a;
  if prio k =? prio ka then ready_list_add_tail task else ready_list_add_head task.

Definition list_rm (t : tid) (l : list tid) : list tid := filter (fun x => x ≠ t) l.

(** With one item left the ring is dropped, whoever it is; with several, the
    task is unlinked and must be one of them. *)
Definition ready_list_rm (task : tid) : K unit :=
  k ← get_task task;
  let pri := prio k in
  l ← cur_item pri;
  match l with
  | [] => undef
  | _ :: _ :: _ => if decide (task ∈ l) then cur_item_set pri (list_rm task l) else undef
  | [_] =>
      cur_item_set pri [];;
      rq ← gets g_ready_queue;
      bm ← deref (krhino_bitmap_clear (task_bit_map rq) pri);
      modify (set_g_ready_queue (set_task_bit_map bm rq));;
      if negb (pri =? highest_pri rq) then mret tt
      else
        i ← deref (krhino_find_first_bit bm);
        if 0 <=? i then
          rq ← gets g_ready_queue;
          modify (set_g_ready_queue (set_highest_pri i rq))
        else k_err_proc RHINO_SYS_FATAL_ERR
  end.

Definition ready_list_head_to_tail (task : tid) : K unit :=
  k ← get_task task;
  l ← cur_item (prio k);
  match l with
  | [] => undef
  | x :: l' => cur_item_set (prio k) (l' ++ [x])
  end.

Definition preferred_cpu_ready_task_get : K unit :=
  rq ← gets g_ready_queue;
  l ← cur_item (highest_pri rq);
  modify (set_g_preferred_ready_task (head l)).

(** ** Rescheduling *)

Section port.
Context `{CpuPort}.

Definition core_sched : K unit :=
  cpsr ← RHINO_CPU_INTRPT_DISABLE;
  lvl ← gets g_intrpt_nested_level;
  if 0 <? lvl then RHINO_CPU_INTRPT_ENABLE cpsr
  else
    lock ← gets g_sched_lock;
    if 0 <? lock then RHINO_CPU_INTRPT_ENABLE cpsr
    else
      preferred_cpu_ready_task_get;;
      p ← gets g_preferred_ready_task;
      a ← gets g_active_task;
      if decide (p = a) then RHINO_CPU_INTRPT_ENABLE cpsr
      else cpu_task_switch;; RHINO_CPU_INTRPT_ENABLE cpsr.

Definition RHINO_CRITICAL_EXIT_SCHED (cpsr : bool) : K unit :=
  RHINO_CPU_INTRPT_ENABLE cpsr;; core_sched.

Definition krhino_sched_disable : K kstat_t :=
  cpsr ← RHINO_CRITICAL_ENTER;
  INTRPT_NESTED_LEVEL_CHK id cpsr (
  lock ← gets g_sched_lock;
  if SCHED_MAX_LOCK_COUNT <=? lock then critical_return cpsr RHINO_SCHED_LOCK_COUNT_OVF
  else
    modify (set_g_sched_lock (u8 (lock + 1)));;
    RHINO_CRITICAL_EXIT cpsr;;
    mret RHINO_SUCCESS).

Definition krhino_sched_enable : K kstat_t :=
  cpsr ← RHINO_CRITICAL_ENTER;
  INTRPT_NESTED_LEVEL_CHK id cpsr (
  lock ← gets g_sched_lock;
  if lock =? 0 then critical_return cpsr RHINO_SCHED_ALREADY_ENABLED
  else
    modify (set_g_sched_lock (u8 (lock - 1)));;
    lock ← gets g_sched_lock;
    if 0 <? lock then critical_return cpsr RHINO_SCHED_DISABLE
    else
      RHINO_CRITICAL_EXIT_SCHED cpsr;;
      mret RHINO_SUCCESS).

End port.

Definition time_slice_update : K unit :=
  cpsr ← RHINO_CRITICAL_ENTER;
  a ← cur_task;
  ka ← get_task a;
  let task_pri := prio ka in
  e ← is_ready_list_empty task_pri;
  if (e : bool) then RHINO_CRITICAL_EXIT cpsr
  else
    head ← cur_item task_pri;
    match head with
    | [] => undef
    | task :: rest =>
        k ← get_task task;
        if sched_policy k =? KSCHED_FIFO then RHINO_CRITICAL_EXIT cpsr
        else if decide (rest = []) then RHINO_CRITICAL_EXIT cpsr
        else
          (if 0 <? time_slice k then upd_task task (set_time_slice (u32 (time_slice k - 1))) else mret tt);;
          k ← get_task task;
          if 0 <? time_slice k then RHINO_CRITICAL_EXIT cpsr
          else
            ready_list_head_to_tail task;;
            upd_task task (fun k => set_time_slice (time_total k) k);;
            RHINO_CRITICAL_EXIT cpsr
    end.

(** ** Consistency of the run queue *)

Definition rql (rq : runqueue_t) (p : Z) : list tid := default [] (arr_get (cur_list_item rq) p).

(** The bitmap marks the non-empty rings and [highest_pri] is the smallest
    marked priority ([RHINO_CONFIG_PRI_MAX] while nothing was ever queued). *)
Record rq_ok (rq : runqueue_t) : Prop := {
  rqo_len : Z.of_nat (length (cur_list_item rq)) = RHINO_CONFIG_PRI_MAX;
  rqo_bm_len : Z.of_nat (length (task_bit_map rq)) = NUM_WORDS;
  rqo_bm : bitmap_ok (task_bit_map rq);
  rqo_bits p : bit_at (task_bit_map rq) p = true <-> rql rq p <> [];
  rqo_least p : rql rq p <> [] -> highest_pri rq <= p;
  rqo_highest : rql rq (highest_pri rq) <> [] \/ (highest_pri rq = RHINO_CONFIG_PRI_MAX /\ forall p, rql rq p = [])
}.

Lemma rql_range rq p : rq_ok rq -> rql rq p <> [] -> 0 <= p < RHINO_CONFIG_PRI_MAX.
Proof.
  intros H Hp. unfold rql in Hp. destruct (arr_get (cur_list_item rq) p) eqn:E; [|done].
  apply arr_get_lt in E. by rewrite (rqo_len rq H) in E.
Qed.

Lemma cur_item_wp p (Q : list tid -> kstate -> Prop) s :
  rq_ok (g_ready_queue s) -> 0 <= p < RHINO_CONFIG_PRI_MAX ->
  Q (rql (g_ready_queue s) p) s -> wp (cur_item p) Q s.
Proof.
  intros Hok Hp HQ. unfold cur_item. kstep. kstep. unfold rql in HQ.
  assert (is_Some (arr_get (cur_list_item (g_ready_queue s)) p)) as [l E]
    by (apply arr_get_is_Some; rewrite (rqo_len _ Hok); done).
  rewrite E in HQ. by apply wp_deref with l.
Qed.

(** An assignment to one ring, before the bitmap follows. *)
Lemma cur_item_set_wp p l (Q : unit -> kstate -> Prop) s :
  Z.of_nat (length (cur_list_item (g_ready_queue s))) = RHINO_CONFIG_PRI_MAX ->
  0 <= p < RHINO_CONFIG_PRI_MAX ->
  (forall cl, length cl = length (cur_list_item (g_ready_queue s)) ->
     (forall q, default [] (arr_get cl q) = if decide (q = p) then l else rql (g_ready_queue s) q) ->
     Q tt (set_g_ready_queue (set_cur_list_item cl (g_ready_queue s)) s)) ->
  wp (cur_item_set p l) Q s.
Proof.
  intros Hlen Hp HQ. unfold cur_item_set. kstep. kstep. kstep.
  destruct (arr_set (cur_list_item (g_ready_queue s)) p l) as [cl|] eqn:E.
  - apply wp_deref with cl; [done|]. kstep. apply HQ; [by eapply arr_set_length|].
    intros q. case_decide; subst; [by erewrite arr_get_set_eq|].
    unfold rql. by erewrite arr_get_set_ne.
  - exfalso. unfold arr_set in E. case_decide; [done|lia].
Qed.

(** The two ways a task enters the run queue. *)
Lemma ready_list_init_wp t k (Q : unit -> kstate -> Prop) s :
  rq_ok (g_ready_queue s) -> tasks s !! t = Some k -> 0 <= prio k < RHINO_CONFIG_PRI_MAX ->
  rql (g_ready_queue s) (prio k) = [] ->
  (forall rq', rq_ok rq' ->
     (forall p, rql rq' p = if decide (p = prio k) then [t] else rql (g_ready_queue s) p) ->
     Q tt (set_g_ready_queue rq' s)) ->
  wp (ready_list_init t) Q s.
Proof.
  intros Hok Hk Hp Hnil HQ. unfold ready_list_init. do 2 kstep. kstep.
  apply cur_item_set_wp; [apply Hok|done|]. intros cl Hcl Hrql. do 3 kstep.
  cbn [g_ready_queue set_g_ready_queue task_bit_map set_cur_list_item].
  remember (g_ready_queue s) as rq eqn:Erq.
  destruct (bitmap_set_spec (task_bit_map rq) (prio k)) as (bm & Hbm & Hbok & Hblen & Hbits).
  { apply Hok. }
  { rewrite (rqo_bm_len _ Hok). unfold NUM_WORDS, RHINO_CONFIG_PRI_MAX in *. Z.div_mod_to_equations; lia. }
  apply wp_deref with bm; [done|]. do 4 kstep.
  cbn [g_ready_queue set_g_ready_queue highest_pri set_task_bit_map set_cur_list_item].
  pose proof (rqo_least _ Hok) as Hleast. pose proof (rqo_highest _ Hok) as Hhi.
  assert (forall h, (forall p, (if decide (p = prio k) then [t] else rql rq p) <> [] -> h <= p) ->
     (if decide (h = prio k) then [t] else rql rq h) <> [] -> rq_ok (mk_rq cl bm h)) as Hnew.
  { intros h Hl Hh. assert (forall p, rql (mk_rq cl bm h) p = if decide (p = prio k) then [t] else rql rq p) as E by apply Hrql.
    split; cbn [cur_list_item task_bit_map highest_pri]; try done.
    - rewrite Hcl. apply Hok.
    - rewrite Hblen. apply Hok.
    - intros p. rewrite E, Hbits. destruct (decide (p = prio k)); [done|]. apply Hok.
    - intros p. rewrite E. apply Hl.
    - left. by rewrite E. }
  case_match eqn:Hlt; zbool; kstep;
    [apply HQ; [apply (Hnew (prio k))|apply Hrql]|apply HQ; [apply (Hnew (highest_pri rq))|apply Hrql]].
  - intros p Hne. destruct (decide (p = prio k)); [lia|]. specialize (Hleast p Hne). lia.
  - by rewrite decide_True.
  - intros p Hne. destruct (decide (p = prio k)); [lia|by apply Hleast].
  - destruct (decide (highest_pri rq = prio k)); [done|].
    destruct Hhi as [?|[E ?]]; [done|]. lia.
Qed.

Lemma rq_ok_ring rq cl p l :
  rq_ok rq -> length cl = length (cur_list_item rq) ->
  (forall q, default [] (arr_get cl q) = if decide (q = p) then l else rql rq q) ->
  rql rq p <> [] -> l <> [] -> rq_ok (set_cur_list_item cl rq).
Proof.
  intros Hok Hcl Hrql Hp Hl.
  assert (forall q, rql (set_cur_list_item cl rq) q <> [] <-> rql rq q <> []) as E.
  { intros q. change (rql (set_cur_list_item cl rq) q) with (default [] (arr_get cl q)).
    rewrite Hrql. destruct (decide (q = p)) as [->|]; naive_solver. }
  pose proof (rqo_highest _ Hok) as Hhi.
  split; cbn [cur_list_item task_bit_map highest_pri set_cur_list_item]; try apply Hok.
  - rewrite Hcl. apply Hok.
  - intros q. rewrite E. apply Hok.
  - intros q Hq%E. by apply Hok.
  - left. apply E. destruct Hhi as [?|[_ E']]; [done|]. by rewrite E' in Hp.
Qed.

Lemma ready_list_add_tail_wp t k (Q : unit -> kstate -> Prop) s :
  rq_ok (g_ready_queue s) -> tasks s !! t = Some k -> 0 <= prio k < RHINO_CONFIG_PRI_MAX ->
  (forall rq', rq_ok rq' ->
     (forall p, rql rq' p = if decide (p = prio k) then rql (g_ready_queue s) p ++ [t] else rql (g_ready_queue s) p) ->
     Q tt (set_g_ready_queue rq' s)) ->
  wp (ready_list_add_tail t) Q s.
Proof.
  intros Hok Hk Hp HQ. unfold ready_list_add_tail, is_ready_list_empty. repeat kstep.
  apply cur_item_wp; [done..|]. kstep. case_bool_decide as Hnil.
  - apply ready_list_init_wp with k; [done..|]. intros rq' ? E. apply HQ; [done|]. intros p. rewrite E.
    destruct (decide (p = prio k)) as [->|]; [by rewrite Hnil|done].
  - kstep. apply cur_item_wp; [done..|]. apply cur_item_set_wp; [apply Hok|done|]. intros cl Hcl Hrql.
    apply HQ; [eapply rq_ok_ring; [done..|by destruct (rql _ _)]|].
    intros p. etransitivity; [apply Hrql|]. by destruct (decide (p = prio k)) as [->|].
Qed.

Lemma ready_list_add_head_wp t k (Q : unit -> kstate -> Prop) s :
  rq_ok (g_ready_queue s) -> tasks s !! t = Some k -> 0 <= prio k < RHINO_CONFIG_PRI_MAX ->
  (forall rq', rq_ok rq' ->
     (forall p, rql rq' p = if decide (p = prio k) then t :: rql (g_ready_queue s) p else rql (g_ready_queue s) p) ->
     Q tt (set_g_ready_queue rq' s)) ->
  wp (ready_list_add_head t) Q s.
Proof.
  intros Hok Hk Hp HQ. unfold ready_list_add_head, is_ready_list_empty. repeat kstep.
  apply cur_item_wp; [done..|]. kstep. case_bool_decide as Hnil.
  - apply ready_list_init_wp with k; [done..|]. intros rq' ? E. apply HQ; [done|]. intros p. rewrite E.
    destruct (decide (p = prio k)) as [->|]; [by rewrite Hnil|done].
  - kstep. apply cur_item_wp; [done..|]. apply cur_item_set_wp; [apply Hok|done|]. intros cl Hcl Hrql.
    apply HQ; [by eapply rq_ok_ring|].
    intros p. etransitivity; [apply Hrql|]. by destruct (decide (p = prio k)) as [->|].
Qed.

Lemma ready_list_add_wp t k a ka (Q : unit -> kstate -> Prop) s :
  rq_ok (g_ready_queue s) -> tasks s !! t = Some k -> 0 <= prio k < RHINO_CONFIG_PRI_MAX ->
  g_active_task s = Some a -> tasks s !! a = Some ka ->
  (forall rq', rq_ok rq' ->
     (forall p, rql rq' p = if decide (p = prio k)
        then if decide (prio k = prio ka) then rql (g_ready_queue s) p ++ [t] else t :: rql (g_ready_queue s) p
        else rql (g_ready_queue s) p) ->
     Q tt (set_g_ready_queue rq' s)) ->
  wp (ready_list_add t) Q s.
Proof.
  intros Hok Hk Hp Ha Hka HQ. unfold ready_list_add. repeat kstep.
  destruct (decide (prio k = prio ka)) as [E|E];
    [rewrite (proj2 (Z.eqb_eq _ _) E); by apply ready_list_add_tail_wp with k
    |rewrite (proj2 (Z.eqb_neq _ _) E); by apply ready_list_add_head_wp with k].
Qed.

Lemma list_rm_spec t l x : x ∈ list_rm t l <-> x ∈ l /\ x <> t.
Proof. unfold list_rm. rewrite list_elem_of_filter. naive_solver. Qed.

Lemma list_rm_nodup t l : NoDup l -> NoDup (list_rm t l).
Proof. apply NoDup_filter. Qed.

Lemma list_rm_notin t l : t ∉ l -> list_rm t l = l.
Proof.
  unfold list_rm. induction l as [|x l IH]; [done|]. rewrite not_elem_of_cons. intros [? ?].
  rewrite filter_cons_True by done. f_equal. by apply IH.
Qed.

Lemma list_rm_perm t l : NoDup l -> t ∈ l -> t :: list_rm t l ≡ₚ l.
Proof.
  intros Hnd Ht. apply NoDup_Permutation; [|done|].
  - apply NoDup_cons. split; [rewrite list_rm_spec; naive_solver|by apply list_rm_nodup].
  - intros x. rewrite elem_of_cons, list_rm_spec. destruct (decide (x = t)) as [->|]; naive_solver.
Qed.

(** A ring of several items stays non-empty without one of them. *)
Lemma list_rm_nonempty t x y l : NoDup (x :: y :: l) -> list_rm t (x :: y :: l) <> [].
Proof.
  intros Hd E. assert (forall z, z ∈ x :: y :: l -> z = t) as H.
  { intros z Hz. destruct (decide (z = t)); [done|].
    assert (z ∈ list_rm t (x :: y :: l)) as Hin by by apply list_rm_spec. rewrite E in Hin. by apply elem_of_nil in Hin. }
  apply NoDup_cons in Hd as [Hx _]. rewrite (H x), <- (H y) in Hx by set_solver. set_solver.
Qed.

Lemma rq_drop_ring rq cl bm p n :
  rq_ok rq -> length cl = length (cur_list_item rq) ->
  (forall q, default [] (arr_get cl q) = if decide (q = p) then [] else rql rq q) ->
  bitmap_ok bm -> length bm = length (task_bit_map rq) ->
  (forall m, bit_at bm m = if decide (m = p) then false else bit_at (task_bit_map rq) m) ->
  bit_at bm n = true -> (forall m, bit_at bm m = true -> n <= m) -> rq_ok (mk_rq cl bm n).
Proof.
  intros Hok Hcl Hrql Hbok Hblen Hbits Hn Hleast.
  assert (forall q, rql (mk_rq cl bm n) q = if decide (q = p) then [] else rql rq q) as E by apply Hrql.
  assert (forall q, bit_at bm q = true <-> rql (mk_rq cl bm n) q <> []) as Hb.
  { intros q. rewrite E, Hbits. destruct (decide (q = p)); [naive_solver|apply Hok]. }
  split; cbn [cur_list_item task_bit_map highest_pri]; try done.
  - rewrite Hcl. apply Hok.
  - rewrite Hblen. apply Hok.
  - intros q Hq%Hb. by apply Hleast.
  - left. by apply Hb.
Qed.

Lemma ready_list_rm_wp t k p0 u (Q : unit -> kstate -> Prop) s :
  rq_ok (g_ready_queue s) -> tasks s !! t = Some k ->
  t ∈ rql (g_ready_queue s) (prio k) -> NoDup (rql (g_ready_queue s) (prio k)) ->
  u ∈ rql (g_ready_queue s) p0 -> u <> t ->
  (forall rq', rq_ok rq' ->
     (forall p, rql rq' p = if decide (p = prio k) then list_rm t (rql (g_ready_queue s) p) else rql (g_ready_queue s) p) ->
     Q tt (set_g_ready_queue rq' s)) ->
  wp (ready_list_rm t) Q s.
Proof.
  intros Hok Hk Ht Hnd Hu Hne HQ. unfold ready_list_rm. repeat kstep.
  remember (g_ready_queue s) as rq eqn:Erq.
  assert (0 <= prio k < RHINO_CONFIG_PRI_MAX) as Hp
    by (apply (rql_range rq); [done|]; intros E; rewrite E in Ht; set_solver).
  apply cur_item_wp; rewrite <- ?Erq; [done..|]. destruct (rql rq (prio k)) as [|x [|y l]] eqn:El.
  - by apply elem_of_nil in Ht.
  - apply list_elem_of_singleton in Ht as <-.
    assert (p0 <> prio k) as Hp0 by (intros ->; rewrite El in Hu; set_solver).
    kstep. apply cur_item_set_wp; rewrite <- ?Erq; [apply Hok|done|]. intros cl Hcl Hrql. repeat kstep.
    cbn [g_ready_queue set_g_ready_queue task_bit_map set_cur_list_item].
    destruct (bitmap_clear_spec (task_bit_map rq) (prio k)) as (bm & Hbm & Hbok & Hblen & Hbits).
    { apply Hok. }
    { rewrite (rqo_bm_len _ Hok). unfold NUM_WORDS, RHINO_CONFIG_PRI_MAX in *. Z.div_mod_to_equations; lia. }
    apply wp_deref with bm; [done|]. repeat kstep. cbn [highest_pri set_cur_list_item].
    assert (bit_at bm p0 = true) as Hb0.
    { rewrite Hbits, decide_False by done. apply Hok. intros E. rewrite E in Hu. set_solver. }
    assert (forall q, (if decide (q = prio k) then [] else rql rq q) =
                      (if decide (q = prio k) then list_rm t (rql rq q) else rql rq q)) as Eq.
    { intros q. destruct (decide (q = prio k)) as [->|]; [|done]. rewrite El.
      unfold list_rm. by rewrite filter_cons_False by (intros X; by apply X). }
    case_match eqn:Ehi; zbool.
    + kstep. apply HQ; [apply (rq_drop_ring rq cl bm (prio k) (highest_pri rq)); try done|].
      * rewrite Hbits, decide_False by done. apply Hok.
        destruct (rqo_highest _ Hok) as [?|[_ E]]; [done|]. by rewrite E in El.
      * intros m. rewrite Hbits. destruct (decide (m = prio k)); [done|]. rewrite (rqo_bits _ Hok). apply (rqo_least _ Hok).
      * intros q. etransitivity; [apply Hrql|]. apply Eq.
    + destruct (find_first_bit_set bm p0) as (n & Hff & Hn0 & Hbn & Hleast); [done..|].
      kstep. apply wp_deref with n; [done|]. rewrite (proj2 (Z.leb_le 0 n)) by done. repeat kstep.
      apply HQ; [by apply (rq_drop_ring rq cl bm (prio k) n)|].
      intros q. etransitivity; [apply Hrql|]. apply Eq.
  - rewrite decide_True by done. apply cur_item_set_wp; rewrite <- ?Erq; [apply Hok|done|]. intros cl Hcl Hrql.
    rewrite <- El in *. apply HQ.
    + eapply rq_ok_ring; [done..|by rewrite El|]. rewrite El. rewrite El in Hnd. by apply list_rm_nonempty.
    + intros q. etransitivity; [apply Hrql|]. by destruct (decide (q = prio k)) as [->|].
Qed.
