(* ===== verification/Pend.v ===== *)
(** * Blocking and the tick list ([rhino/core/k_pend.c], [rhino/core/k_tick.c])

    Moving a task between the run queue, the wait list of an object and the
    list of timeouts.  [tick_list_update] is in the file Mutex, as it resets
    inherited priorities. *)

From S2P Require Import Prelude KErr KState KMonad Sched.
Local Open Scope Z_scope.

(** The loops of [pend_list_add] and [tick_list_pri_insert]: walk to the first
    member where the comparison holds and link the task before it. *)
Fixpoint scan_insert (stop : tid -> option bool) (t : tid) (l : list tid) : option (list tid) :=
  match l with
  | [] => Some [t]
  | x :: l' =>
      b ← stop x;
      if (b : bool) then Some (t :: l) else l'' ← scan_insert stop t l'; Some (x :: l'')
  end.

(** [klist_rm(&task->task_list)] of a task on a wait list. *)
Definition on_blk_list (t : tid) (s : kstate) : bool :=
  existsb (fun ob => bool_decide (t ∈ blk_list ob.2)) (map_to_list (blks s)).

Definition task_list_rm (t : tid) : K unit := fun s =>
  if on_blk_list t s
  then Some (tt, set_blks ((fun b => set_blk_list (list_rm t (blk_list b)) b) <$> blks s) s)
  else None.

Definition pend_list_add (o : oid) (task : tid) : K unit :=
  k ← get_task task;
  b ← get_blk o;
  ts ← gets tasks;
  l ← deref (scan_insert (fun x => kx ← ts !! x; Some (prio k <? prio kx)) task (blk_list b));
  upd_blk o (set_blk_list l).

(** ** Tick list *)

Definition tick_list_init : K unit := modify (set_g_tick_head []).

Definition tick_list_pri_insert (task : tid) : K unit :=
  k ← get_task task;
  let val := tick_remain k in
  ts ← gets tasks;
  now ← gets g_tick_count;
  l ← gets g_tick_head;
  l' ← deref (scan_insert (fun x => kx ← ts !! x; Some (val <? u64 (tick_match kx - now))) task l);
  modify (set_g_tick_head l').

Definition tick_list_insert (task : tid) (time : Z) : K unit :=
  if 0 <? time then
    now ← gets g_tick_count;
    upd_task task (set_tick_match (u64 (now + time)));;
    upd_task task (set_tick_remain time);;
    tick_list_pri_insert task;;
    upd_task task (set_tick_head true)
  else mret tt.

(** [klist_rm(&task->tick_list)]: the node must be on the list. *)
Definition tick_list_unlink (task : tid) : K unit :=
  l ← gets g_tick_head;
  if decide (task ∈ l) then modify (set_g_tick_head (list_rm task l)) else undef.

Definition tick_list_rm (task : tid) : K unit :=
  k ← get_task task;
  if tick_head k then tick_list_unlink task;; upd_task task (set_tick_head false) else mret tt.

(** ** Blocking and waking *)

Definition pend_task_wakeup (task : tid) : K unit :=
  k ← get_task task;
  match task_state k with
  | K_PEND =>
      task_list_rm task;;
      ready_list_add task;;
      upd_task task (set_task_state K_RDY)
  | K_PEND_SUSPENDED =>
      task_list_rm task;;
      upd_task task (set_task_state K_SUSPENDED)
  | _ => k_err_proc RHINO_SYS_FATAL_ERR
  end;;
  tick_list_rm task;;
  upd_task task (set_blk_state BLK_FINISH);;
  upd_task task (set_blk_obj None).

Definition pend_to_blk_obj (o : oid) (task : tid) (timeout : Z) : K unit :=
  upd_task task (set_blk_obj (Some o));;
  (if negb (timeout =? RHINO_WAIT_FOREVER) then tick_list_insert task timeout else mret tt);;
  upd_task task (set_task_state K_PEND);;
  ready_list_rm task;;
  b ← get_blk o;
  if decide (blk_policy b = BLK_POLICY_FIFO)
  then upd_blk o (set_blk_list (blk_list b ++ [task]))
  else pend_list_add o task.

Definition pend_task_rm (task : tid) : K unit :=
  k ← get_task task;
  match task_state k with
  | K_PEND =>
      task_list_rm task;;
      ready_list_add task;;
      upd_task task (set_task_state K_RDY)
  | K_PEND_SUSPENDED =>
      task_list_rm task;;
      upd_task task (set_task_state K_SUSPENDED)
  | _ => k_err_proc RHINO_SYS_FATAL_ERR
  end;;
  tick_list_rm task;;
  upd_task task (set_blk_state BLK_DEL);;
  upd_task task (set_blk_obj None).

Definition pend_list_reorder (task : tid) : K unit :=
  k ← get_task task;
  o ← deref (blk_obj k);
  b ← get_blk o;
  if decide (blk_policy b = BLK_POLICY_PRI) then task_list_rm task;; pend_list_add o task else mret tt.

Definition pend_state_end_proc (task : tid) : K kstat_t :=
  k ← get_task task;
  match blk_state k with
  | BLK_FINISH => mret RHINO_SUCCESS
  | BLK_ABORT => mret RHINO_BLK_ABORT
  | BLK_TIMEOUT => mret RHINO_BLK_TIMEOUT
  | BLK_DEL => mret RHINO_BLK_DEL
  | _ => k_err_proc RHINO_BLK_INV_STATE;; mret RHINO_BLK_INV_STATE
  end.

(** [while (!is_klist_empty(head)) f(first)]: at most one round per waiter, since
    each round unlinks the first.  The bound is the length of the list at entry;
    [None] when it is exceeded. *)
Fixpoint blk_drain (fuel : nat) (o : oid) (f : tid -> K unit) : K unit :=
  b ← get_blk o;
  match blk_list b, fuel with
  | [], _ => mret tt
  | _ :: _, O => undef
  | t :: _, S fuel => f t;; blk_drain fuel o f
  end.

Definition blk_wake_all (o : oid) (f : tid -> K unit) : K unit :=
  b ← get_blk o; blk_drain (length (blk_list b)) o f.
