(* ===== verification/KInv.v ===== *)
(** * Well-formed kernel states

    [WF]: every list of the kernel holds exactly the tasks whose control block
    says so (ready tasks in the ring of their priority, pending tasks on the
    list of the object they wait for, tasks with a timeout on the tick list),
    without duplicates, and wait lists are sorted by priority.  The lemmas show
    that the operations of Pend are defined on such states and keep them. *)

From S2P Require Import Prelude KErr KState KMonad Sched Pend.
Local Open Scope Z_scope.

Definition pending (k : ktask_t) : Prop := task_state k = K_PEND \/ task_state k = K_PEND_SUSPENDED.

Definition sleeping (k : ktask_t) : Prop := task_state k = K_SLEEP \/ task_state k = K_SLEEP_SUSPENDED.

Definition live (k : ktask_t) : Prop := task_state k <> K_DELETED.

Definition in_rq (p : Z) (k : ktask_t) : Prop := task_state k = K_RDY /\ prio k = p.

Definition in_blk (o : oid) (k : ktask_t) : Prop := pending k /\ blk_obj k = Some o.

Definition in_tick (k : ktask_t) : Prop := tick_head k = true.

(** [l] lists the tasks satisfying [P], each once. *)
Definition list_ok (ts : gmap tid ktask_t) (P : ktask_t -> Prop) (l : list tid) : Prop :=
  NoDup l /\ forall t, t ∈ l <-> exists k, ts !! t = Some k /\ P k.

Definition prio_of (ts : gmap tid ktask_t) (t : tid) : Z :=
  match ts !! t with Some k => prio k | None => 0 end.

Definition psorted (ts : gmap tid ktask_t) (l : list tid) : Prop :=
  StronglySorted (fun x y => prio_of ts x <= prio_of ts y) l.

Definition prio_ok (p : Z) : Prop := 0 <= p < RHINO_CONFIG_PRI_MAX.

Record task_ok (s : kstate) (k : ktask_t) : Prop := {
  to_prio : prio_ok (prio k);
  to_base : prio_ok (b_prio k);
  to_seed : task_state k <> K_SEED;
  to_pend : pending k -> exists o b, blk_obj k = Some o /\ blks s !! o = Some b;
  to_sleep : sleeping k -> tick_head k = true;
  to_tick : tick_head k = true -> sleeping k \/ pending k
}.

Definition rq_lists (ts : gmap tid ktask_t) (rq : runqueue_t) : Prop :=
  forall p, list_ok ts (in_rq p) (rql rq p).

(** Wait lists hold the tasks pending on the object, sorted by priority where
    the policy says so. *)
Definition blks_ok (ts : gmap tid ktask_t) (bl : gmap oid blk_obj_t) : Prop :=
  forall o b, bl !! o = Some b ->
    list_ok ts (in_blk o) (blk_list b) /\ (blk_policy b = BLK_POLICY_PRI -> psorted ts (blk_list b)).

Record WF (s : kstate) : Prop := {
  wf_rq : rq_ok (g_ready_queue s);
  wf_ready : rq_lists (tasks s) (g_ready_queue s);
  wf_blks : blks_ok (tasks s) (blks s);
  wf_tick : list_ok (tasks s) in_tick (g_tick_head s);
  wf_task t k : tasks s !! t = Some k -> task_ok s k
}.

(** ** Lists under the change of one task *)

Section lists.
Context (ts : gmap tid ktask_t) (t : tid).

Lemma list_ok_upd P k' l l' :
  list_ok ts P l -> NoDup l' -> (forall u, u <> t -> u ∈ l' <-> u ∈ l) -> (t ∈ l' <-> P k') ->
  list_ok (<[t := k']> ts) P l'.
Proof.
  intros [_ Hl] Hnd Ho Ht. split; [done|]. intros u. destruct (decide (u = t)) as [->|Hne].
  - rewrite Ht, lookup_insert_eq. naive_solver.
  - rewrite Ho, Hl, lookup_insert_ne by done. done.
Qed.

Lemma list_ok_same P k k' l :
  list_ok ts P l -> ts !! t = Some k -> (P k' <-> P k) -> list_ok (<[t := k']> ts) P l.
Proof.
  intros Hl Hk HP. apply list_ok_upd with l; [done|apply Hl|done|].
  rewrite (proj2 Hl). naive_solver.
Qed.

(** A task outside the list, before and after. *)
Lemma list_ok_out P k' l : list_ok ts P l -> t ∉ l -> ~ P k' -> list_ok (<[t := k']> ts) P l.
Proof. intros Hl Ht HP. apply list_ok_upd with l; [done|apply Hl|done|]. naive_solver. Qed.

Lemma list_ok_rm P k' l : list_ok ts P l -> ~ P k' -> list_ok (<[t := k']> ts) P (list_rm t l).
Proof.
  intros Hl HP. apply list_ok_upd with l; [done|apply list_rm_nodup, Hl|..].
  - intros u Hu. rewrite list_rm_spec. naive_solver.
  - rewrite list_rm_spec. naive_solver.
Qed.

Lemma list_ok_add P k' l l' :
  list_ok ts P l -> t ∉ l -> P k' -> l' ≡ₚ t :: l -> list_ok (<[t := k']> ts) P l'.
Proof.
  intros Hl Ht HP Hp. apply list_ok_upd with l; [done|..].
  - rewrite Hp. apply NoDup_cons. split; [done|apply Hl].
  - intros u Hu. rewrite Hp. set_solver.
  - rewrite Hp. set_solver.
Qed.

Lemma list_ok_notin P k l : list_ok ts P l -> ts !! t = Some k -> ~ P k -> t ∉ l.
Proof. intros [_ Hl] Hk HP Ht%Hl. naive_solver. Qed.

Lemma list_ok_in P k l : list_ok ts P l -> ts !! t = Some k -> P k -> t ∈ l.
Proof. intros [_ Hl] Hk HP. apply Hl. eauto. Qed.

Lemma list_ok_fresh P l : list_ok ts P l -> ts !! t = None -> t ∉ l.
Proof. intros [_ Hl] Hk (k & Hk' & _)%Hl. congruence. Qed.

End lists.

(** ** Sorted wait lists *)

Lemma prio_of_Some ts t k : ts !! t = Some k -> prio_of ts t = prio k.
Proof. unfold prio_of. by intros ->. Qed.

Lemma prio_of_insert ts t k : prio_of (<[t := k]> ts) t = prio k.
Proof. unfold prio_of. by rewrite lookup_insert_eq. Qed.

Lemma prio_of_insert_ne ts t u k : u <> t -> prio_of (<[t := k]> ts) u = prio_of ts u.
Proof. intros. unfold prio_of. by rewrite lookup_insert_ne. Qed.

Lemma psorted_ext ts ts' l :
  (forall u, u ∈ l -> prio_of ts' u = prio_of ts u) -> psorted ts l -> psorted ts' l.
Proof.
  unfold psorted. induction 2 as [|x l Hl IH Hx]; constructor.
  - apply IH. set_solver.
  - rewrite !Forall_forall in *. intros y Hy. rewrite !H by set_solver. by apply Hx.
Qed.

Lemma psorted_insert_notin ts t k l : t ∉ l -> psorted ts l -> psorted (<[t := k]> ts) l.
Proof. intros Ht. apply psorted_ext. intros u Hu. apply prio_of_insert_ne. set_solver. Qed.

Lemma psorted_same ts t k k' l :
  ts !! t = Some k -> prio k' = prio k -> psorted ts l -> psorted (<[t := k']> ts) l.
Proof.
  intros Hk Hp. apply psorted_ext. intros u _. destruct (decide (u = t)) as [->|].
  - by rewrite prio_of_insert, (prio_of_Some _ _ _ Hk).
  - by apply prio_of_insert_ne.
Qed.

Lemma psorted_rm ts t l : psorted ts l -> psorted ts (list_rm t l).
Proof.
  unfold psorted, list_rm. induction 1 as [|x l Hl IH Hx]; [constructor|].
  rewrite filter_cons. case_decide; [|done]. constructor; [done|].
  rewrite Forall_forall in *. intros y Hy%list_elem_of_filter. apply Hx, Hy.
Qed.

(** The insertion loop links the task somewhere, and in order when the list is. *)
Lemma scan_insert_perm stop t l :
  (forall x, x ∈ l -> is_Some (stop x)) -> exists l', scan_insert stop t l = Some l' /\ l' ≡ₚ t :: l.
Proof.
  induction l as [|x l IH]; intros Hs; cbn; [by eauto|].
  destruct (Hs x) as [b ->]; [set_solver|]. cbn [mbind option_bind].
  destruct b; [by eauto|]. destruct IH as (l' & -> & Hp); [set_solver|].
  eexists. split; [done|]. rewrite Hp. constructor.
Qed.

Lemma scan_insert_ext stop stop' t l :
  (forall x, x ∈ l -> stop x = stop' x) -> scan_insert stop t l = scan_insert stop' t l.
Proof.
  induction l as [|x l IH]; intros Heq; cbn; [done|].
  rewrite Heq by set_solver. rewrite IH by set_solver. done.
Qed.

Lemma scan_insert_sorted (f : tid -> Z) stop t l l' :
  (forall x, x ∈ l -> stop x = Some (f t <? f x)) ->
  scan_insert stop t l = Some l' ->
  StronglySorted (fun x y => f x <= f y) l -> StronglySorted (fun x y => f x <= f y) l'.
Proof.
  revert l'. induction l as [|x l IH]; intros l' Hs; cbn.
  { intros [= <-] _. repeat constructor. }
  rewrite (Hs x) by set_solver. cbn [mbind option_bind]. intros E Hsorted.
  apply StronglySorted_inv in Hsorted as [Hl Hx].
  destruct (Z.ltb_spec (f t) (f x)).
  - injection E as <-. constructor; [by constructor|]. constructor; [lia|].
    eapply Forall_impl; [exact Hx|]. cbn. intros; lia.
  - destruct (scan_insert_perm stop t l) as (l'' & E'' & Hp).
    { intros y Hy. rewrite Hs by set_solver. eauto. }
    rewrite E'' in E. injection E as <-. constructor.
    + apply IH; [intros; apply Hs; set_solver|done|done].
    + rewrite Hp. constructor; [lia|done].
Qed.

(** ** Unlinking *)

Lemma on_blk_list_true t s o b : blks s !! o = Some b -> t ∈ blk_list b -> on_blk_list t s = true.
Proof.
  intros Ho Ht. unfold on_blk_list. apply existsb_exists. exists (o, b). split.
  - apply list_elem_of_In, elem_of_map_to_list, Ho.
  - by apply bool_decide_eq_true.
Qed.

(** The wait list of [o] without [t]. *)
Definition blk_without (t : tid) (o : oid) (m : gmap oid blk_obj_t) : gmap oid blk_obj_t :=
  alter (fun b => set_blk_list (list_rm t (blk_list b)) b) o m.

(** The membership part of [blks_ok]. *)
Definition blk_lists (ts : gmap tid ktask_t) (bl : gmap oid blk_obj_t) : Prop :=
  forall o b, bl !! o = Some b -> list_ok ts (in_blk o) (blk_list b).

Lemma blks_ok_lists ts bl : blks_ok ts bl -> blk_lists ts bl.
Proof. intros H o b Hb. apply (H o b Hb). Qed.

Lemma blk_rm_only s t k o :
  blk_lists (tasks s) (blks s) -> tasks s !! t = Some k -> blk_obj k = Some o ->
  (fun b => set_blk_list (list_rm t (blk_list b)) b) <$> blks s = blk_without t o (blks s).
Proof.
  intros Hwf Hk Ho. apply map_eq. intros o'. unfold blk_without. rewrite lookup_fmap.
  destruct (decide (o' = o)) as [->|Hne]; [by rewrite lookup_alter_eq|].
  rewrite lookup_alter_ne by done. destruct (blks s !! o') as [b|] eqn:E; [|done]. cbn.
  rewrite list_rm_notin; [by destruct b|].
  intros Ht. destruct (proj1 (proj2 (Hwf o' b E) t) Ht) as (k' & Hk' & _ & Ho'). congruence.
Qed.

Lemma task_list_rm_wp t k o b (Q : unit -> kstate -> Prop) s :
  blk_lists (tasks s) (blks s) -> tasks s !! t = Some k -> in_blk o k -> blks s !! o = Some b ->
  Q tt (set_blks (blk_without t o (blks s)) s) -> wp (task_list_rm t) Q s.
Proof.
  intros Hwf Hk [Hp Ho] Hb HQ. unfold wp, task_list_rm.
  assert (t ∈ blk_list b) as Hin by (by eapply list_ok_in; [apply (Hwf o b Hb)|..]).
  by rewrite (on_blk_list_true t s o b Hb Hin), (blk_rm_only s t k o).
Qed.

Lemma tick_list_rm_wp t k (Q : unit -> kstate -> Prop) s :
  list_ok (tasks s) in_tick (g_tick_head s) -> tasks s !! t = Some k ->
  Q tt (set_g_tick_head (list_rm t (g_tick_head s)) (set_tasks (<[t := set_tick_head false k]> (tasks s)) s)) ->
  wp (tick_list_rm t) Q s.
Proof.
  intros Hl Hk HQ. unfold tick_list_rm, tick_list_unlink. repeat kstep.
  destruct (tick_head k) eqn:E.
  - repeat kstep. rewrite decide_True by (by eapply list_ok_in). repeat kstep. exact HQ.
  - kstep. rewrite list_rm_notin in HQ by (eapply list_ok_notin; [done..|]; unfold in_tick; by rewrite E).
    assert (set_tick_head false k = k) as Ek by (by rewrite <- E).
    rewrite Ek, insert_id in HQ by done. exact HQ.
Qed.

(** ** The lists when one task changes

    One lemma per list and kind of change: the task keeps its place, enters or
    leaves. *)

Definition rq_entered (t : tid) (p : Z) (rq rq' : runqueue_t) : Prop :=
  rql rq' p ≡ₚ t :: rql rq p /\ forall q, q <> p -> rql rq' q = rql rq q.

Definition rq_left (t : tid) (p : Z) (rq rq' : runqueue_t) : Prop :=
  rql rq' p = list_rm t (rql rq p) /\ forall q, q <> p -> rql rq' q = rql rq q.

Section change.
Context (ts : gmap tid ktask_t) (t : tid).

Lemma rq_keep rq k k' :
  rq_lists ts rq -> ts !! t = Some k ->
  (forall p, in_rq p k' <-> in_rq p k) -> rq_lists (<[t := k']> ts) rq.
Proof. intros Hl Hk HP p. by eapply list_ok_same. Qed.

Lemma rq_out rq k' :
  rq_lists ts rq -> (forall k, ts !! t = Some k -> task_state k <> K_RDY) -> task_state k' <> K_RDY ->
  rq_lists (<[t := k']> ts) rq.
Proof.
  intros Hl Hk Hk' p. apply list_ok_out; [done| |by intros [? _]].
  intros (k & E & ? & _)%(proj2 (Hl p)). by eapply Hk.
Qed.

Lemma rq_enter rq rq' k' :
  rq_lists ts rq -> (forall k, ts !! t = Some k -> task_state k <> K_RDY) -> task_state k' = K_RDY ->
  rq_entered t (prio k') rq rq' -> rq_lists (<[t := k']> ts) rq'.
Proof.
  intros Hl Hk Hk' [Hp Ho] p.
  assert (t ∉ rql rq p) by (intros (k & E & ? & _)%(proj2 (Hl p)); by eapply Hk).
  destruct (decide (p = prio k')) as [->|Hne].
  - by eapply list_ok_add.
  - rewrite Ho by done. apply list_ok_out; [done..|]. by intros [_ ?].
Qed.

Lemma rq_leave rq rq' k k' :
  rq_lists ts rq -> ts !! t = Some k -> task_state k' <> K_RDY ->
  rq_left t (prio k) rq rq' -> rq_lists (<[t := k']> ts) rq'.
Proof.
  intros Hl Hk Hk' [Hp Ho] p. destruct (decide (p = prio k)) as [->|Hne].
  - rewrite Hp. apply list_ok_rm; [done|]. by intros [? _].
  - rewrite Ho by done. apply list_ok_out; [done| |by intros [? _]].
    eapply list_ok_notin; [done..|]. by intros [_ ?].
Qed.

Lemma blk_keep bl k k' :
  blks_ok ts bl -> ts !! t = Some k -> (forall o, in_blk o k' <-> in_blk o k) ->
  (pending k -> prio k' = prio k) -> blks_ok (<[t := k']> ts) bl.
Proof.
  intros Hl Hk HP Hpr o b Hb. destruct (Hl o b Hb) as [Hlo Hs]. split; [by eapply list_ok_same|].
  intros Hpol. specialize (Hs Hpol). destruct (decide (t ∈ blk_list b)) as [Hin|Hin].
  - eapply psorted_same; [done| |done]. apply Hpr.
    apply (proj2 Hlo) in Hin as (k0 & ? & ? & _). by simplify_eq.
  - by apply psorted_insert_notin.
Qed.

Lemma blk_out bl k' :
  blks_ok ts bl -> (forall k, ts !! t = Some k -> ~ pending k) -> ~ pending k' -> blks_ok (<[t := k']> ts) bl.
Proof.
  intros Hl Hk Hk' o b Hb. destruct (Hl o b Hb) as [Hlo Hs].
  assert (t ∉ blk_list b) by (intros (k & E & ? & _)%(proj2 Hlo); by eapply Hk).
  split; [apply list_ok_out; [done..|by intros [? _]]|]. intros Hpol. by apply psorted_insert_notin, Hs.
Qed.

Lemma blk_leave bl k k' o :
  blks_ok ts bl -> ts !! t = Some k -> blk_obj k = Some o -> ~ pending k' ->
  blks_ok (<[t := k']> ts) (blk_without t o bl).
Proof.
  intros Hl Hk Ho Hk' o' b'. unfold blk_without. rewrite lookup_alter_Some.
  intros [(-> & b & Hb & ->)|[Hne Hb]]; destruct (Hl _ _ Hb) as [Hlo Hs].
  - split; [apply list_ok_rm; [done|by intros [? _]]|]. cbn. intros Hpol.
    apply psorted_insert_notin; [rewrite list_rm_spec; naive_solver|]. by apply psorted_rm, Hs.
  - assert (t ∉ blk_list b') by (eapply list_ok_notin; [done..|]; intros [_ ?]; congruence).
    split; [apply list_ok_out; [done..|by intros [? _]]|]. intros Hpol. by apply psorted_insert_notin, Hs.
Qed.

Lemma blk_enter bl k' o b l' :
  blks_ok ts bl -> (forall k, ts !! t = Some k -> ~ pending k) -> in_blk o k' ->
  bl !! o = Some b -> l' ≡ₚ t :: blk_list b ->
  (blk_policy b = BLK_POLICY_PRI -> psorted (<[t := k']> ts) l') ->
  blks_ok (<[t := k']> ts) (<[o := set_blk_list l' b]> bl).
Proof.
  intros Hl Hk Hk' Hb Hp Hsort o' b'. rewrite lookup_insert_Some.
  intros [[<- <-]|[Hne Hb']]; [destruct (Hl _ _ Hb) as [Hlo Hs]|destruct (Hl _ _ Hb') as [Hlo Hs]].
  - cbn. split; [|done]. eapply list_ok_add; [done| |done|done].
    intros (k & E & ? & _)%(proj2 Hlo). by eapply Hk.
  - assert (t ∉ blk_list b') by (intros (k & E & ? & _)%(proj2 Hlo); by eapply Hk).
    split; [apply list_ok_out; [done..|]; intros [_ ?]; destruct Hk'; congruence|].
    intros Hpol. by apply psorted_insert_notin, Hs.
Qed.

End change.

Lemma blk_without_dom t o bl o' : is_Some (bl !! o') <-> is_Some (blk_without t o bl !! o').
Proof.
  unfold blk_without. destruct (decide (o = o')) as [->|].
  - rewrite lookup_alter_eq. destruct (bl !! o'); cbn; split; intros []; eauto; done.
  - by rewrite lookup_alter_ne.
Qed.

Lemma task_ok_dom s s' k :
  (forall o, is_Some (blks s !! o) -> is_Some (blks s' !! o)) -> task_ok s k -> task_ok s' k.
Proof.
  intros Hd [? ? ? Hp ? ?]. split; try done. intros (o & b & ? & ?)%Hp.
  destruct (Hd o) as [b' ?]; eauto.
Qed.

Lemma lookup_only {A} (m : gmap tid A) t k (P : A -> Prop) :
  m !! t = Some k -> P k -> forall k0, m !! t = Some k0 -> P k0.
Proof. intros -> ? k0 [= <-]. done. Qed.

(** [WF] of a state in which only [t] and the lists differ. *)
Lemma wf_step s s' t k' :
  WF s -> tasks s' = <[t := k']> (tasks s) ->
  rq_ok (g_ready_queue s') -> rq_lists (tasks s') (g_ready_queue s') ->
  blks_ok (tasks s') (blks s') -> list_ok (tasks s') in_tick (g_tick_head s') ->
  (forall o, is_Some (blks s !! o) -> is_Some (blks s' !! o)) -> task_ok s' k' -> WF s'.
Proof.
  intros Hwf Ht Hrq Hr Hb Htick Hdom Hk'. split; [done..|].
  intros u ku. rewrite Ht. rewrite lookup_insert_Some. intros [[<- <-]|[Hne Hu]]; [done|].
  eapply task_ok_dom; [done|]. by eapply wf_task.
Qed.

(** ** Waking a blocked task *)

Definition set_lists (ts : gmap tid ktask_t) (bl : gmap oid blk_obj_t) (tk : list tid) (rq : runqueue_t)
    (s : kstate) : kstate :=
  set_tasks ts (set_blks bl (set_g_tick_head tk (set_g_ready_queue rq s))).

(** The run queue after [ready_list_add]. *)
Definition rq_added (t : tid) (p pa : Z) (rq rq' : runqueue_t) : Prop :=
  rq_ok rq' /\ forall q, rql rq' q =
    if decide (q = p) then if decide (p = pa) then rql rq q ++ [t] else t :: rql rq q else rql rq q.

Lemma rq_added_entered t p pa rq rq' : rq_added t p pa rq rq' -> rq_entered t p rq rq'.
Proof.
  intros [_ H]. split.
  - rewrite H, decide_True by done. destruct (decide (p = pa)); [|done]. symmetry. apply Permutation_cons_append.
  - intros q Hq. by rewrite H, decide_False.
Qed.

Definition woken_state (st : task_stat_t) : task_stat_t :=
  match st with K_PEND => K_RDY | K_PEND_SUSPENDED => K_SUSPENDED | _ => st end.

(** The control block of a task taken off its wait list. *)
Definition woken (bs : blk_state_t) (k : ktask_t) : ktask_t :=
  set_blk_obj None (set_blk_state bs (set_tick_head false (set_task_state (woken_state (task_state k)) k))).

(** Entering the run queue only when ready. *)
Definition rq_wake (t : tid) (st : task_stat_t) (p pa : Z) (rq rq' : runqueue_t) : Prop :=
  if decide (st = K_RDY) then rq_added t p pa rq rq' else rq' = rq.

(** States of tasks that wait for nothing. *)
Definition off_lists (st : task_stat_t) : bool :=
  match st with K_RDY | K_SUSPENDED | K_DELETED => true | _ => false end.

Lemma off_lists_spec k :
  off_lists (task_state k) = true -> ~ pending k /\ ~ sleeping k /\ task_state k <> K_SEED.
Proof. unfold pending, sleeping. destruct (task_state k); naive_solver. Qed.

(** A blocked task leaves its wait list and the tick list, becoming ready or
    inactive. *)
Lemma wf_unblock s t k k' o pa rq' :
  WF s -> tasks s !! t = Some k -> in_blk o k ->
  prio k' = prio k -> b_prio k' = b_prio k -> tick_head k' = false ->
  off_lists (task_state k') = true ->
  rq_wake t (task_state k') (prio k) pa (g_ready_queue s) rq' ->
  WF (set_lists (<[t := k']> (tasks s)) (blk_without t o (blks s)) (list_rm t (g_tick_head s)) rq' s).
Proof.
  intros Hwf Hk [Hpend Ho] Hp Hb Htk Hst Hrq.
  assert (~ pending k' /\ ~ sleeping k' /\ task_state k' <> K_SEED) as (Hnp & Hns & Hseed)
    by (by apply off_lists_spec).
  assert (task_state k <> K_RDY) as Hnr by (destruct Hpend as [E|E]; by rewrite E).
  apply (wf_step s _ t k'); cbn; try done.
  - unfold rq_wake in Hrq. case_decide; [apply Hrq|subst; apply Hwf].
  - unfold rq_wake in Hrq. case_decide as Hr.
    + eapply rq_enter; [apply (wf_ready s Hwf)|by apply (lookup_only _ _ _ _ Hk)|done|]. rewrite Hp. by eapply rq_added_entered.
    + subst. apply rq_out; [apply Hwf|by apply (lookup_only _ _ _ _ Hk)|done].
  - eapply blk_leave; [apply (wf_blks s Hwf)|done..].
  - apply list_ok_rm; [apply Hwf|]. unfold in_tick. by rewrite Htk.
  - intros o'. apply blk_without_dom.
  - pose proof (wf_task s Hwf t k Hk) as []. split; rewrite ?Hp, ?Hb, ?Htk; try done.
Qed.

Lemma wake_wp (bs : blk_state_t) t k a ka o b (Q : unit -> kstate -> Prop) s :
  WF s -> tasks s !! t = Some k -> in_blk o k -> blks s !! o = Some b ->
  g_active_task s = Some a -> tasks s !! a = Some ka ->
  (forall rq',
     rq_wake t (woken_state (task_state k)) (prio k) (prio ka) (g_ready_queue s) rq' ->
     let s' := set_lists (<[t := woken bs k]> (tasks s)) (blk_without t o (blks s))
                 (list_rm t (g_tick_head s)) rq' s in
     WF s' -> Q tt s') ->
  wp (match task_state k with
      | K_PEND => task_list_rm t;; ready_list_add t;; upd_task t (set_task_state K_RDY)
      | K_PEND_SUSPENDED => task_list_rm t;; upd_task t (set_task_state K_SUSPENDED)
      | _ => k_err_proc RHINO_SYS_FATAL_ERR
      end;; tick_list_rm t;; upd_task t (set_blk_state bs);; upd_task t (set_blk_obj None)) Q s.
Proof.
  intros Hwf Hk Hin Hb Ha Hka HQ. pose proof Hin as [Hpend Ho].
  pose proof (wf_task s Hwf t k Hk) as [Hp _ _ _ _ _].
  assert (forall k', tick_head k' = tick_head k -> list_ok (<[t := k']> (tasks s)) in_tick (g_tick_head s)) as Htick.
  { intros k' E. eapply list_ok_same; [apply (wf_tick s Hwf)|done|]. unfold in_tick. by rewrite E. }
  assert (forall rq', rq_wake t (woken_state (task_state k)) (prio k) (prio ka) (g_ready_queue s) rq' ->
    Q tt (set_lists (<[t := woken bs k]> (tasks s)) (blk_without t o (blks s)) (list_rm t (g_tick_head s)) rq' s)) as HQ'.
  { intros rq' Hw. apply HQ; [done|]. eapply wf_unblock; [done..| |exact Hw]. cbn. by destruct Hpend as [E|E]; rewrite E. }
  clear HQ. unfold woken in HQ'. destruct Hpend as [E|E]; rewrite E in *; cbn [woken_state] in HQ'; ksteps.
  - apply task_list_rm_wp with k o b; [apply blks_ok_lists, Hwf|done..|]. ksteps.
    apply ready_list_add_wp with k a ka; [apply Hwf|done..|]. intros rq' Hok Hr. ksteps.
    eapply tick_list_rm_wp; [by apply Htick|klookup|]. ksteps. kmerge (HQ' rq' (conj Hok Hr)).
  - apply task_list_rm_wp with k o b; [apply blks_ok_lists, Hwf|done..|]. ksteps.
    eapply tick_list_rm_wp; [by apply Htick|klookup|]. ksteps. kmerge (HQ' (g_ready_queue s) eq_refl).
Qed.

Lemma pend_task_wakeup_wp t k a ka o b (Q : unit -> kstate -> Prop) s :
  WF s -> tasks s !! t = Some k -> in_blk o k -> blks s !! o = Some b ->
  g_active_task s = Some a -> tasks s !! a = Some ka ->
  (forall rq',
     rq_wake t (woken_state (task_state k)) (prio k) (prio ka) (g_ready_queue s) rq' ->
     let s' := set_lists (<[t := woken BLK_FINISH k]> (tasks s)) (blk_without t o (blks s))
                 (list_rm t (g_tick_head s)) rq' s in
     WF s' -> Q tt s') ->
  wp (pend_task_wakeup t) Q s.
Proof. intros. unfold pend_task_wakeup. kstep. kstep. by eapply wake_wp. Qed.

Lemma pend_task_rm_wp t k a ka o b (Q : unit -> kstate -> Prop) s :
  WF s -> tasks s !! t = Some k -> in_blk o k -> blks s !! o = Some b ->
  g_active_task s = Some a -> tasks s !! a = Some ka ->
  (forall rq',
     rq_wake t (woken_state (task_state k)) (prio k) (prio ka) (g_ready_queue s) rq' ->
     let s' := set_lists (<[t := woken BLK_DEL k]> (tasks s)) (blk_without t o (blks s))
                 (list_rm t (g_tick_head s)) rq' s in
     WF s' -> Q tt s') ->
  wp (pend_task_rm t) Q s.
Proof. intros. unfold pend_task_rm. kstep. kstep. by eapply wake_wp. Qed.

(** ** Blocking the running task *)

Definition timed (timeout : Z) : bool := negb (timeout =? RHINO_WAIT_FOREVER) && (0 <? timeout).

(** The timeout fields after [tick_list_insert]. *)
Definition set_timeout (now time : Z) (k : ktask_t) : ktask_t :=
  set_tick_head true (set_tick_remain time (set_tick_match (u64 (now + time)) k)).

(** The tick list after [tick_list_insert]. *)
Definition tick_added (ts : gmap tid ktask_t) (now time : Z) (t : tid) (l l' : list tid) : Prop :=
  scan_insert (fun x => kx ← ts !! x; Some (time <? u64 (tick_match kx - now))) t l = Some l'.

Lemma tick_list_insert_wp t k time (Q : unit -> kstate -> Prop) s :
  list_ok (tasks s) in_tick (g_tick_head s) -> tasks s !! t = Some k -> tick_head k = false -> 0 < time ->
  (forall l', tick_added (tasks s) (g_tick_count s) time t (g_tick_head s) l' -> l' ≡ₚ t :: g_tick_head s ->
     Q tt (set_g_tick_head l' (set_tasks (<[t := set_timeout (g_tick_count s) time k]> (tasks s)) s))) ->
  wp (tick_list_insert t time) Q s.
Proof.
  intros Hl Hk Hoff Ht HQ. unfold tick_list_insert, tick_list_pri_insert.
  rewrite (proj2 (Z.ltb_lt 0 time)) by done. ksteps.
  assert (t ∉ g_tick_head s) as Hnot by (eapply list_ok_notin; [done..|]; unfold in_tick; by rewrite Hoff).
  destruct (scan_insert_perm (fun x => kx ← tasks s !! x; Some (time <? u64 (tick_match kx - g_tick_count s)))
    t (g_tick_head s)) as (l' & E & Hp).
  { intros x (kx & -> & _)%(proj2 Hl). by eexists. }
  apply wp_deref with l'.
  - rewrite <- E. apply scan_insert_ext. intros x Hx. cbn.
    by rewrite insert_insert_eq, lookup_insert_ne by set_solver.
  - ksteps. kmerge (HQ l' E Hp).
Qed.

(** The wait list after [pend_list_add]. *)
Definition pend_added (ts : gmap tid ktask_t) (p : Z) (t : tid) (l l' : list tid) : Prop :=
  scan_insert (fun x => kx ← ts !! x; Some (p <? prio kx)) t l = Some l'.

Lemma pend_list_add_wp o b t k (Q : unit -> kstate -> Prop) s :
  tasks s !! t = Some k -> blks s !! o = Some b -> (forall x, x ∈ blk_list b -> is_Some (tasks s !! x)) ->
  (forall l', pend_added (tasks s) (prio k) t (blk_list b) l' -> l' ≡ₚ t :: blk_list b ->
     (psorted (tasks s) (blk_list b) -> psorted (tasks s) l') ->
     Q tt (set_blks (<[o := set_blk_list l' b]> (blks s)) s)) ->
  wp (pend_list_add o t) Q s.
Proof.
  intros Hk Hb Hall HQ. unfold pend_list_add. ksteps.
  destruct (scan_insert_perm (fun x => kx ← tasks s !! x; Some (prio k <? prio kx)) t (blk_list b)) as (l' & E & Hp).
  { intros x [kx ->]%Hall. by eexists. }
  apply wp_deref with l'; [done|]. ksteps. apply HQ; [done..|].
  eapply (scan_insert_sorted _ _ t); [|exact E].
  intros x Hx. destruct (Hall x Hx) as [kx Ex]. rewrite Ex. cbn. by rewrite (prio_of_Some _ _ _ Ex), (prio_of_Some _ _ _ Hk).
Qed.

(** The control block of a task blocked on [o]. *)
Definition blocked (o : oid) (now timeout : Z) (k : ktask_t) : ktask_t :=
  set_task_state K_PEND
    (if timed timeout then set_timeout now timeout (set_blk_obj (Some o) k) else set_blk_obj (Some o) k).

Definition tick_blocked (s : kstate) (t : tid) (timeout : Z) (l' : list tid) : Prop :=
  if timed timeout then tick_added (tasks s) (g_tick_count s) timeout t (g_tick_head s) l' /\ l' ≡ₚ t :: g_tick_head s
  else l' = g_tick_head s.

Definition rq_removed (t : tid) (p : Z) (rq rq' : runqueue_t) : Prop :=
  rq_ok rq' /\ forall q, rql rq' q = if decide (q = p) then list_rm t (rql rq q) else rql rq q.

Lemma rq_removed_left t p rq rq' : rq_removed t p rq rq' -> rq_left t p rq rq'.
Proof.
  intros [_ H]. split; [by rewrite H, decide_True|]. intros q Hq. by rewrite H, decide_False.
Qed.

Lemma blocked_fields o now timeout k :
  task_state (blocked o now timeout k) = K_PEND /\ blk_obj (blocked o now timeout k) = Some o /\
  prio (blocked o now timeout k) = prio k /\ b_prio (blocked o now timeout k) = b_prio k /\
  (tick_head k = false -> tick_head (blocked o now timeout k) = timed timeout).
Proof. unfold blocked. by destruct (timed timeout). Qed.

Lemma wf_block s t k o b timeout tk' l' rq' :
  WF s -> tasks s !! t = Some k -> task_state k = K_RDY -> blks s !! o = Some b ->
  tick_blocked s t timeout tk' -> l' ≡ₚ t :: blk_list b ->
  (blk_policy b = BLK_POLICY_PRI -> psorted (<[t := blocked o (g_tick_count s) timeout k]> (tasks s)) l') ->
  rq_removed t (prio k) (g_ready_queue s) rq' ->
  WF (set_lists (<[t := blocked o (g_tick_count s) timeout k]> (tasks s)) (<[o := set_blk_list l' b]> (blks s)) tk' rq' s).
Proof.
  intros Hwf Hk Hst Hb Htk Hl Hs Hrq. pose proof (wf_task s Hwf t k Hk) as [? ? ? ? ? Htick].
  destruct (blocked_fields o (g_tick_count s) timeout k) as (E1 & E2 & E3 & E4 & E5).
  assert (tick_head k = false) as Hoff.
  { destruct (tick_head k); [|done]. unfold sleeping, pending in Htick. rewrite Hst in Htick.
    by destruct (Htick eq_refl) as [[?|?]|[?|?]]. }
  specialize (E5 Hoff). set (k' := blocked _ _ _ _) in *.
  assert (~ pending k) as Hnp by (intros [E|E]; congruence).
  apply (wf_step s _ t k'); cbn; try done.
  - apply Hrq.
  - eapply rq_leave; [apply (wf_ready s Hwf)|done|by rewrite E1|by apply rq_removed_left].
  - eapply blk_enter; [apply (wf_blks s Hwf)|by apply (lookup_only _ _ _ _ Hk)|split; [by left|done]|done..].
  - unfold tick_blocked in Htk. destruct (timed timeout) eqn:Et.
    + destruct Htk as [_ Hp]. eapply list_ok_add; [apply (wf_tick s Hwf)| |done|done].
      eapply list_ok_notin; [apply (wf_tick s Hwf)|done|]. unfold in_tick. by rewrite Hoff.
    + subst tk'. eapply list_ok_same; [apply (wf_tick s Hwf)|done|]. unfold in_tick. by rewrite E5, Hoff.
  - intros o' [b' Hb']. destruct (decide (o = o')) as [->|]; [rewrite lookup_insert_eq|rewrite lookup_insert_ne by done]; eauto.
  - split; rewrite ?E3, ?E4, ?E1; try done.
    + intros _. exists o, (set_blk_list l' b). split; [done|apply lookup_insert_eq].
    + intros [?|?]; congruence.
    + intros _. right. by left.
Qed.

Lemma rdy_no_timeout s t k : WF s -> tasks s !! t = Some k -> off_lists (task_state k) = true -> tick_head k = false.
Proof.
  intros Hwf Hk Hst. apply off_lists_spec in Hst as (? & ? & _).
  pose proof (to_tick _ _ (wf_task s Hwf t k Hk)). destruct (tick_head k); naive_solver.
Qed.

(** The timed part of blocking. *)
Lemma tick_opt_wp t k timeout (Q : unit -> kstate -> Prop) s :
  list_ok (tasks s) in_tick (g_tick_head s) -> tasks s !! t = Some k -> tick_head k = false -> 0 <= timeout ->
  (forall l', tick_blocked s t timeout l' ->
     Q tt (set_g_tick_head l' (set_tasks (<[t := if timed timeout then set_timeout (g_tick_count s) timeout k else k]> (tasks s)) s))) ->
  wp (if negb (timeout =? RHINO_WAIT_FOREVER) then tick_list_insert t timeout else mret tt) Q s.
Proof.
  intros Hl Hk Hoff Hto HQ. unfold tick_blocked, timed in HQ.
  assert (Q tt (set_g_tick_head (g_tick_head s) (set_tasks (<[t := k]> (tasks s)) s)) -> Q tt s) as Hsame
    by by rewrite insert_id.
  destruct (timeout =? RHINO_WAIT_FOREVER); cbn [negb andb] in *; [kstep; by apply Hsame, HQ|].
  destruct (Z.ltb_spec 0 timeout).
  - apply tick_list_insert_wp with k; [done..|]. intros l' ? ?. by apply HQ.
  - unfold tick_list_insert. rewrite (proj2 (Z.ltb_ge 0 timeout)) by lia. kstep. by apply Hsame, HQ.
Qed.

Lemma tick_blocked_upd s t k' timeout l' :
  t ∉ g_tick_head s -> tick_blocked (set_tasks (<[t := k']> (tasks s)) s) t timeout l' -> tick_blocked s t timeout l'.
Proof.
  intros Hn. unfold tick_blocked, tick_added. destruct (timed timeout); [|done]. intros [E ?]. split; [|done].
  rewrite <- E. apply scan_insert_ext. intros x Hx. cbn. by rewrite lookup_insert_ne by set_solver.
Qed.

Lemma pend_added_upd ts t k' p l l' : t ∉ l -> pend_added (<[t := k']> ts) p t l l' -> pend_added ts p t l l'.
Proof.
  intros Hn E. unfold pend_added. rewrite <- E. apply scan_insert_ext. intros x Hx.
  by rewrite lookup_insert_ne by set_solver.
Qed.

Lemma pend_to_blk_obj_wp o b t k timeout u p0 (Q : unit -> kstate -> Prop) s :
  WF s -> tasks s !! t = Some k -> task_state k = K_RDY -> blks s !! o = Some b ->
  0 <= timeout -> u ∈ rql (g_ready_queue s) p0 -> u <> t ->
  (forall tk' l' rq',
     tick_blocked s t timeout tk' ->
     (if decide (blk_policy b = BLK_POLICY_FIFO) then l' = blk_list b ++ [t]
      else pend_added (tasks s) (prio k) t (blk_list b) l') -> l' ≡ₚ t :: blk_list b ->
     rq_removed t (prio k) (g_ready_queue s) rq' ->
     let s' := set_lists (<[t := blocked o (g_tick_count s) timeout k]> (tasks s))
                 (<[o := set_blk_list l' b]> (blks s)) tk' rq' s in
     WF s' -> Q tt s') ->
  wp (pend_to_blk_obj o t timeout) Q s.
Proof.
  intros Hwf Hk Hst Hb Hto Hu Hut HQ.
  assert (tick_head k = false) as Hoff by (eapply rdy_no_timeout; [done..|by rewrite Hst]).
  assert (t ∉ blk_list b) as Hnb.
  { eapply list_ok_notin; [apply (wf_blks s Hwf o b Hb)|done|]. intros [[?|?] _]; congruence. }
  assert (t ∉ g_tick_head s) as Hnt.
  { eapply list_ok_notin; [apply (wf_tick s Hwf)|done|]. unfold in_tick. by rewrite Hoff. }
  destruct (blocked_fields o (g_tick_count s) timeout k) as (_ & _ & E3 & _).
  unfold pend_to_blk_obj. do 3 kstep.
  eapply tick_opt_wp; [|klookup|done|done|].
  { eapply list_ok_same; [apply (wf_tick s Hwf)|done|done]. }
  intros tk' Htk%tick_blocked_upd; [|done]. do 2 kstep. kstep.
  set (s3 := set_tasks _ _).
  assert (tasks s3 = <[t := blocked o (g_tick_count s) timeout k]> (tasks s)) as Ets.
  { cbn. rewrite !insert_insert_eq. unfold blocked. done. }
  assert (tasks s3 !! t = Some (blocked o (g_tick_count s) timeout k)) as Hk3 by (rewrite Ets; apply lookup_insert_eq).
  apply ready_list_rm_wp with (blocked o (g_tick_count s) timeout k) p0 u; rewrite ?E3; try done.
  - apply Hwf.
  - by eapply list_ok_in; [apply (wf_ready s Hwf)|..].
  - apply (wf_ready s Hwf).
  - intros rq' Hok Hrq. do 2 kstep.
    assert (rq_removed t (prio k) (g_ready_queue s) rq') as Hrem by done.
    case_decide as Hpol.
    + ksteps. refine (tasks_ext _ _ _ _ (HQ tk' (blk_list b ++ [t]) rq' Htk eq_refl _ Hrem _) _ _);
        [..|exact Ets|reflexivity].
      * symmetry. apply Permutation_cons_append.
      * apply wf_block; try done; [symmetry; apply Permutation_cons_append|congruence].
    + eapply pend_list_add_wp; [exact Hk3|done|..].
      { intros x Hx. cbn. rewrite !lookup_insert_is_Some. destruct (decide (t = x)); [by left|].
        do 3 (right; split; [done|]).
        apply (proj2 (proj1 (wf_blks s Hwf o b Hb))) in Hx as (kx & ? & _). eauto. }
      rewrite E3. intros l' Hadd Hperm Hsort. change (tasks (set_g_ready_queue rq' s3)) with (tasks s3) in *.
      rewrite Ets in *. apply pend_added_upd in Hadd; [|done].
      refine (tasks_ext _ _ _ _ (HQ tk' l' rq' Htk Hadd Hperm Hrem _) _ _); [|exact Ets|reflexivity].
      apply wf_block; try done. intros Hpri. apply Hsort, psorted_insert_notin; [done|].
      by apply (wf_blks s Hwf o b Hb).
Qed.
