(* ===== verification/Mutex.v ===== *)
(** * Mutexes and priority inheritance
      ([rhino/core/k_mutex.c], [task_pri_change] of [k_task.c], [tick_list_update] of [k_tick.c])

    The mutexes a task holds form a singly linked list that starts in the task
    and goes on through the mutexes.  A task that owns a mutex runs with the
    priority of its most urgent waiter, transitively. *)

From S2P Require Import Prelude KErr KState KMonad Sched Pend.
Local Open Scope Z_scope.

(** ** The list of held mutexes *)

(** The variable [prev] of [mutex_pri_look]: the address of the link that points
    to the current mutex. *)
Inductive mlink :=
  | LTask (t : tid)
  | LMutex (o : oid).

Definition link_get (l : mlink) : K (option oid) :=
  match l with
  | LTask t => k ← get_task t; mret (mutex_list k)
  | LMutex o => m ← get_mutex o; mret (m_mutex_list m)
  end.

Definition link_set (l : mlink) (v : option oid) : K unit :=
  match l with
  | LTask t => upd_task t (set_mutex_list v)
  | LMutex o => upd_mutex o (set_m_mutex_list v)
  end.

(** [pri] of the first waiter of [o], or [pri] unchanged when there is none. *)
Definition first_blk_pri (o : oid) (pri : Z) : K Z :=
  b ← get_blk o;
  match blk_list b with
  | [] => mret pri
  | w :: _ => k ← get_task w; mret (prio k)
  end.

(** The list ends within one round per mutex, plus the final test. *)
Definition mutex_fuel (s : kstate) : nat := S (size (mutexes s)).

Fixpoint pri_limit_loop (fuel : nat) (mutex_tmp : option oid) (pri high_pri : Z) : K Z :=
  match mutex_tmp, fuel with
  | None, _ => mret high_pri
  | Some _, O => undef
  | Some o, S fuel =>
      pri ← first_blk_pri o pri;
      m ← get_mutex o;
      pri_limit_loop fuel (m_mutex_list m) pri (if pri <? high_pri then pri else high_pri)
  end.

Definition mutex_pri_limit (task : tid) (pri : Z) : K Z :=
  k ← get_task task;
  fuel ← gets mutex_fuel;
  pri_limit_loop fuel (mutex_list k) pri pri.

Fixpoint pri_look_loop (fuel : nat) (prev : mlink) (mutex_rel : option oid) (new_pri pri : Z) : K Z :=
  mutex_tmp ← link_get prev;
  match mutex_tmp, fuel with
  | None, _ => mret new_pri
  | Some _, O => undef
  | Some o, S fuel =>
      if decide (Some o = mutex_rel) then
        m ← get_mutex o;
        link_set prev (m_mutex_list m);;
        pri_look_loop fuel prev mutex_rel new_pri pri
      else
        pri ← first_blk_pri o pri;
        pri_look_loop fuel (LMutex o) mutex_rel (if pri <? new_pri then pri else new_pri) pri
  end.

Definition mutex_pri_look (task : tid) (mutex_rel : option oid) : K Z :=
  k ← get_task task;
  fuel ← gets mutex_fuel;
  pri_look_loop fuel (LTask task) mutex_rel (b_prio k) (b_prio k).

(** ** Changing a priority *)

(** One round per task to raise and one to lower is enough, see
    [task_pri_change_wp]. *)
Definition pri_fuel (s : kstate) : nat := S (S (2 * size (tasks s))).

Fixpoint pri_change_loop (fuel : nat) (task : tid) (new_pri : Z) : K kstat_t :=
  match fuel with
  | O => undef
  | S fuel =>
      k ← get_task task;
      if prio k =? new_pri then mret RHINO_SUCCESS
      else
        match task_state k with
        | K_RDY =>
            ready_list_rm task;;
            upd_task task (set_prio new_pri);;
            a ← gets g_active_task;
            (if decide (Some task = a) then ready_list_add_head task else ready_list_add_tail task);;
            mret RHINO_SUCCESS
        | K_SLEEP | K_SUSPENDED | K_SLEEP_SUSPENDED =>
            upd_task task (set_prio new_pri);;
            mret RHINO_SUCCESS
        | K_PEND | K_PEND_SUSPENDED =>
            let old_pri := prio k in
            upd_task task (set_prio new_pri);;
            pend_list_reorder task;;
            k ← get_task task;
            o ← deref (blk_obj k);
            b ← get_blk o;
            if decide (obj_type b = RHINO_MUTEX_OBJ_TYPE) then
              m ← get_mutex o;
              mutex_task ← deref (mutex_task m);
              km ← get_task mutex_task;
              if prio k <? prio km then pri_change_loop fuel mutex_task new_pri
              else if prio km =? old_pri then
                new_pri ← mutex_pri_look mutex_task None;
                km ← get_task mutex_task;
                if negb (new_pri =? prio km) then pri_change_loop fuel mutex_task new_pri else mret RHINO_SUCCESS
              else mret RHINO_SUCCESS
            else mret RHINO_SUCCESS
        | _ => k_err_proc RHINO_INV_TASK_STATE;; mret RHINO_INV_TASK_STATE
        end
  end.

Definition task_pri_change (task : tid) (new_pri : Z) : K kstat_t :=
  fuel ← gets pri_fuel; pri_change_loop fuel task new_pri.

Definition mutex_release (task : tid) (mutex_rel : option oid) : K unit :=
  new_pri ← mutex_pri_look task mutex_rel;
  k ← get_task task;
  if negb (new_pri =? prio k) then task_pri_change task new_pri;; mret tt else mret tt.

Definition mutex_task_pri_reset (task : tid) : K unit :=
  k ← get_task task;
  o ← deref (blk_obj k);
  b ← get_blk o;
  if decide (obj_type b = RHINO_MUTEX_OBJ_TYPE) then
    m ← get_mutex o;
    mutex_task ← deref (mutex_task m);
    km ← get_task mutex_task;
    if prio km =? prio k then mutex_release mutex_task None else mret tt
  else mret tt.

(** ** The tick interrupt *)

(** [iter->next] on the tick list; [None] is the list head. *)
Fixpoint next_in (t : tid) (l : list tid) : option (option tid) :=
  match l with
  | [] => None
  | x :: l' => if decide (x = t) then Some (head l') else next_in t l'
  end.

Definition tick_expire (p_tcb : tid) : K unit :=
  k ← get_task p_tcb;
  match task_state k with
  | K_SLEEP =>
      upd_task p_tcb (set_blk_state BLK_FINISH);;
      upd_task p_tcb (set_task_state K_RDY);;
      tick_list_rm p_tcb;;
      ready_list_add p_tcb
  | K_PEND =>
      tick_list_rm p_tcb;;
      task_list_rm p_tcb;;
      ready_list_add p_tcb;;
      upd_task p_tcb (set_blk_state BLK_TIMEOUT);;
      upd_task p_tcb (set_task_state K_RDY);;
      mutex_task_pri_reset p_tcb;;
      upd_task p_tcb (set_blk_obj None)
  | K_PEND_SUSPENDED =>
      tick_list_rm p_tcb;;
      task_list_rm p_tcb;;
      upd_task p_tcb (set_blk_state BLK_TIMEOUT);;
      upd_task p_tcb (set_task_state K_SUSPENDED);;
      mutex_task_pri_reset p_tcb;;
      upd_task p_tcb (set_blk_obj None)
  | K_SLEEP_SUSPENDED =>
      upd_task p_tcb (set_task_state K_SUSPENDED);;
      upd_task p_tcb (set_blk_state BLK_FINISH);;
      tick_list_rm p_tcb
  | _ => k_err_proc RHINO_SYS_FATAL_ERR
  end.

(** One round per member of the list, plus the final test. *)
Fixpoint tick_loop (fuel : nat) (iter : option tid) : K unit :=
  match iter, fuel with
  | None, _ => mret tt
  | Some _, O => undef
  | Some p_tcb, S fuel =>
      l ← gets g_tick_head;
      iter_temp ← deref (next_in p_tcb l);
      k ← get_task p_tcb;
      now ← gets g_tick_count;
      let delta := i64 (tick_match k - now) in
      if delta <=? 0 then tick_expire p_tcb;; tick_loop fuel iter_temp else mret tt
  end.

Definition tick_list_update (ticks : Z) : K unit :=
  cpsr ← RHINO_CRITICAL_ENTER;
  modify (fun s => set_g_tick_count (u64 (g_tick_count s + ticks)) s);;
  l ← gets g_tick_head;
  tick_loop (length l) (head l);;
  RHINO_CRITICAL_EXIT cpsr.

(** ** The mutex calls *)

(** [owner_nested] is not initialised: it keeps the value of the storage. *)
Definition mutex_create (mutex : option oid) (name : option Z) (mm_alloc_flag : Z) : K kstat_t :=
  NULL_PARA_CHK id mutex (fun o =>
  NULL_PARA_CHK id name (fun name =>
  modify (fun s => set_blks (<[o := mk_blk [] name BLK_POLICY_PRI RHINO_MUTEX_OBJ_TYPE]> (blks s)) s);;
  modify (fun s => set_mutexes
    (<[o := mk_mutex None None (default 0 (owner_nested <$> mutexes s !! o)) mm_alloc_flag]> (mutexes s)) s);;
  mret RHINO_SUCCESS)).

Definition krhino_mutex_create (mutex : option oid) (name : option Z) : K kstat_t :=
  mutex_create mutex name K_OBJ_STATIC_ALLOC.

Section port.
Context `{CpuPort}.

Definition krhino_mutex_del (mutex : option oid) : K kstat_t :=
  NULL_PARA_CHK id mutex (fun o =>
  cpsr ← RHINO_CRITICAL_ENTER;
  INTRPT_NESTED_LEVEL_CHK id cpsr (
  b ← get_blk o;
  if negb (bool_decide (obj_type b = RHINO_MUTEX_OBJ_TYPE)) then critical_return cpsr RHINO_KOBJ_TYPE_ERR
  else
    m ← get_mutex o;
    if negb (mutex_mm_flag m =? K_OBJ_STATIC_ALLOC) then critical_return cpsr RHINO_KOBJ_DEL_ERR
    else
      upd_blk o (set_obj_type RHINO_OBJ_TYPE_NONE);;
      match mutex_task m with
      | Some t => mutex_release t (Some o)
      | None => mret tt
      end;;
      blk_wake_all o pend_task_rm;;
      RHINO_CRITICAL_EXIT_SCHED cpsr;;
      mret RHINO_SUCCESS)).

Definition krhino_mutex_lock (mutex : option oid) (ticks : Z) : K call_res :=
  NULL_PARA_CHK Ret mutex (fun o =>
  st ← gets g_sys_stat;
  if bool_decide (st = RHINO_STOPPED) then mret (Ret RHINO_SUCCESS)
  else
  cpsr ← RHINO_CRITICAL_ENTER;
  INTRPT_NESTED_LEVEL_CHK Ret cpsr (
  b ← get_blk o;
  if negb (bool_decide (obj_type b = RHINO_MUTEX_OBJ_TYPE)) then critical_return cpsr (Ret RHINO_KOBJ_TYPE_ERR)
  else
    a ← cur_task;
    m ← get_mutex o;
    if bool_decide (Some a = mutex_task m) then
      if owner_nested m =? wrap mutex_nested_bits (-1) then
        k_err_proc RHINO_MUTEX_NESTED_OVF;;
        critical_return cpsr (Ret RHINO_MUTEX_NESTED_OVF)
      else
        upd_mutex o (set_owner_nested (wrap mutex_nested_bits (owner_nested m + 1)));;
        critical_return cpsr (Ret RHINO_MUTEX_OWNER_NESTED)
    else
      match mutex_task m with
      | None =>
          ka ← get_task a;
          upd_mutex o (fun m => set_owner_nested 1 (set_m_mutex_list (mutex_list ka) (set_mutex_task (Some a) m)));;
          upd_task a (set_mutex_list (Some o));;
          critical_return cpsr (Ret RHINO_SUCCESS)
      | Some mutex_task =>
          if ticks =? RHINO_NO_WAIT then critical_return cpsr (Ret RHINO_NO_PEND_WAIT)
          else
            lock ← gets g_sched_lock;
            if 0 <? lock then critical_return cpsr (Ret RHINO_SCHED_DISABLE)
            else
              ka ← get_task a;
              km ← get_task mutex_task;
              (if prio ka <? prio km then task_pri_change mutex_task (prio ka);; mret tt else mret tt);;
              pend_to_blk_obj o a ticks;;
              RHINO_CRITICAL_EXIT_SCHED cpsr;;
              mret Blocked
      end)).

(** The rest of a blocking call, run when the task is scheduled again. *)
Definition pend_resume : K kstat_t :=
  cpsr ← RHINO_CPU_INTRPT_DISABLE;
  a ← cur_task;
  stat ← pend_state_end_proc a;
  RHINO_CPU_INTRPT_ENABLE cpsr;;
  mret stat.

Definition krhino_mutex_unlock (mutex : option oid) : K kstat_t :=
  NULL_PARA_CHK id mutex (fun o =>
  st ← gets g_sys_stat;
  if bool_decide (st = RHINO_STOPPED) then mret RHINO_SUCCESS
  else
  cpsr ← RHINO_CRITICAL_ENTER;
  INTRPT_NESTED_LEVEL_CHK id cpsr (
  b ← get_blk o;
  if negb (bool_decide (obj_type b = RHINO_MUTEX_OBJ_TYPE)) then critical_return cpsr RHINO_KOBJ_TYPE_ERR
  else
    a ← cur_task;
    m ← get_mutex o;
    if negb (bool_decide (Some a = mutex_task m)) then critical_return cpsr RHINO_MUTEX_NOT_RELEASED_BY_OWNER
    else
      upd_mutex o (set_owner_nested (wrap mutex_nested_bits (owner_nested m - 1)));;
      m ← get_mutex o;
      if 0 <? owner_nested m then critical_return cpsr RHINO_MUTEX_OWNER_NESTED
      else
        mutex_release a (Some o);;
        b ← get_blk o;
        match blk_list b with
        | [] =>
            upd_mutex o (set_mutex_task None);;
            critical_return cpsr RHINO_SUCCESS
        | task :: _ =>
            pend_task_wakeup task;;
            upd_mutex o (set_mutex_task (Some task));;
            k ← get_task task;
            upd_mutex o (set_m_mutex_list (mutex_list k));;
            upd_task task (set_mutex_list (Some o));;
            upd_mutex o (set_owner_nested 1);;
            RHINO_CRITICAL_EXIT_SCHED cpsr;;
            mret RHINO_SUCCESS
        end)).

End port.
