(* ===== verification/PriInv.v ===== *)
(** * Priority inheritance

    [MI]: the list of mutexes in each task is the set of mutexes it owns, a task
    waiting for a mutex waits for another task, and every task runs at the
    smallest of its base priority and the priorities of the tasks waiting for
    its mutexes.  The lemmas show that the chain walk of [task_pri_change]
    terminates and restores [MI] from a state where it holds but for one task. *)

From S2P Require Import Prelude KErr KState KMonad Sched Pend KInv Mutex.
Local Open Scope Z_scope.

(** The idle task [g_idle_task[0]]. *)
Definition g_idle_task : tid := 0%nat.

Fixpoint chain (ms : gmap oid kmutex_t) (p : option oid) (l : list oid) : Prop :=
  match l with
  | [] => p = None
  | o :: l' => p = Some o /\ exists m, ms !! o = Some m /\ chain ms (m_mutex_list m) l'
  end.

Definition is_mutex (s : kstate) (o : oid) : Prop :=
  exists b, blks s !! o = Some b /\ obj_type b = RHINO_MUTEX_OBJ_TYPE.

Definition owned (s : kstate) (o : oid) (t : tid) : Prop :=
  is_mutex s o /\ exists m, mutexes s !! o = Some m /\ mutex_task m = Some t.

Definition waits (s : kstate) (w : tid) (o : oid) : Prop :=
  is_mutex s o /\ exists k, tasks s !! w = Some k /\ in_blk o k.

Definition is_min (S : Z -> Prop) (p : Z) : Prop := S p /\ forall q, S q -> p <= q.

(** The priorities [t] may not fall below: its own, those of the waiters of its
    mutexes, and those in [X] (a waiter that is about to block). *)
Definition eff (X : tid -> Z -> Prop) (s : kstate) (t : tid) (q : Z) : Prop :=
  (exists k, tasks s !! t = Some k /\ q = b_prio k) \/
  (exists w o, owned s o t /\ waits s w o /\ q = prio_of (tasks s) w) \/
  X t q.

Record MIbase (s : kstate) : Prop := {
  mi_chain t k : tasks s !! t = Some k -> live k ->
    exists l, chain (mutexes s) (mutex_list k) l /\ NoDup l /\ forall o, o ∈ l <-> owned s o t;
  mi_owner o t : owned s o t -> t <> g_idle_task /\ exists k, tasks s !! t = Some k /\ live k;
  mi_wait w o : waits s w o -> exists t, owned s o t /\ t <> w;
  mi_mutex o b : blks s !! o = Some b -> obj_type b = RHINO_MUTEX_OBJ_TYPE ->
    blk_policy b = BLK_POLICY_PRI /\ is_Some (mutexes s !! o)
}.

Definition prio_inherited (X : tid -> Z -> Prop) (s : kstate) (t : tid) : Prop :=
  forall k, tasks s !! t = Some k -> live k -> is_min (eff X s t) (prio k).

Definition no_extra (t : tid) (q : Z) : Prop := False.

Definition MI (s : kstate) : Prop := MIbase s /\ forall t, prio_inherited no_extra s t.

(** ** Walking the held mutexes *)

Definition link_val (s : kstate) (l : mlink) : option (option oid) :=
  match l with
  | LTask t => mutex_list <$> tasks s !! t
  | LMutex o => m_mutex_list <$> mutexes s !! o
  end.

Lemma link_get_wp l v (Q : option oid -> kstate -> Prop) s :
  link_val s l = Some v -> Q v s -> wp (link_get l) Q s.
Proof.
  intros Hv HQ. destruct l as [t|o]; cbn in Hv; unfold link_get.
  - destruct (tasks s !! t) as [k|] eqn:E; cbn in Hv; [|done]. ksteps. by injection Hv as <-.
  - destruct (mutexes s !! o) as [k|] eqn:E; cbn in Hv; [|done]. ksteps. by injection Hv as <-.
Qed.

(** Every mutex of the list has its wait list, sorted, of existing tasks. *)
Definition waiters_ok (s : kstate) (l : list oid) : Prop :=
  forall o, o ∈ l -> exists b, blks s !! o = Some b /\ psorted (tasks s) (blk_list b) /\
    forall w, w ∈ blk_list b -> is_Some (tasks s !! w).

(** The priorities the walk takes the minimum of. *)
Definition waiter_prio (s : kstate) (l : list oid) (q : Z) : Prop :=
  exists o b w, o ∈ l /\ blks s !! o = Some b /\ w ∈ blk_list b /\ q = prio_of (tasks s) w.

Definition look_result (s : kstate) (l : list oid) (base r : Z) : Prop :=
  is_min (fun q => q = base \/ waiter_prio s l q) r.

Lemma first_blk_pri_wp o b pri (Q : Z -> kstate -> Prop) s :
  blks s !! o = Some b -> (forall w, w ∈ blk_list b -> is_Some (tasks s !! w)) ->
  Q (match blk_list b with [] => pri | w :: _ => prio_of (tasks s) w end) s ->
  wp (first_blk_pri o pri) Q s.
Proof.
  intros Hb Hw HQ. unfold first_blk_pri. do 2 kstep.
  destruct (blk_list b) as [|w l]; [by kstep|].
  destruct (Hw w) as [k Hk]; [set_solver|]. ksteps. by rewrite (prio_of_Some _ _ _ Hk) in HQ.
Qed.

(** Taking one more mutex into account. *)
Lemma look_step s o l b base pri r :
  blks s !! o = Some b -> psorted (tasks s) (blk_list b) -> base <= pri ->
  let pri' := match blk_list b with [] => pri | w :: _ => prio_of (tasks s) w end in
  let base' := if pri' <? base then pri' else base in
  base' <= pri' /\ (look_result s l base' r -> look_result s (o :: l) base r).
Proof.
  intros Hb Hs Hle pri' base'.
  assert (base' = Z.min pri' base) as E by (unfold base'; destruct (Z.ltb_spec pri' base); lia).
  split; [lia|]. intros [Hin Hmin]. rewrite E in *.
  assert (forall w, w ∈ blk_list b -> pri' <= prio_of (tasks s) w) as Hfirst.
  { unfold pri'. intros w Hw. destruct (blk_list b) as [|w0 ws]; [set_solver|].
    apply StronglySorted_inv in Hs as [_ Hs]. rewrite Forall_forall in Hs.
    apply elem_of_cons in Hw as [->|Hw]; [lia|]. by apply Hs. }
  split.
  - destruct Hin as [->|(o' & b' & w & ? & ? & ? & ->)]; [|right; exists o', b', w; set_solver].
    destruct (decide (pri' < base)); [|left; lia]. right.
    unfold pri' in *. destruct (blk_list b) as [|w0 ws] eqn:Ew; [lia|].
    exists o, b, w0. rewrite Ew. split_and!; [set_solver|done|set_solver|lia].
  - intros q [->|(o' & b' & w & Ho' & Hb' & Hw & ->)].
    + specialize (Hmin _ (or_introl eq_refl)). lia.
    + apply elem_of_cons in Ho' as [->|Ho'].
      * rewrite Hb in Hb'. injection Hb' as <-. specialize (Hfirst w Hw).
        specialize (Hmin _ (or_introl eq_refl)). lia.
      * apply Hmin. right. by exists o', b', w.
Qed.

Lemma look_result_nil s base r : look_result s [] base r -> r = base.
Proof. intros [[->|(o & ? & ? & ?%elem_of_nil & _)] _]; done. Qed.

Lemma look_result_base s base : look_result s [] base base.
Proof. split; [by left|]. intros q [->|(o & ? & ? & ?%elem_of_nil & _)]; [lia|done]. Qed.

(** Without the released mutex on the list nothing is written. *)
Lemma pri_look_plain fuel prev v rel l base pri (Q : Z -> kstate -> Prop) s :
  link_val s prev = Some v -> chain (mutexes s) v l -> (length l <= fuel)%nat ->
  (forall o, o ∈ l -> Some o <> rel) -> waiters_ok s l -> base <= pri ->
  (forall r, look_result s l base r -> Q r s) ->
  wp (pri_look_loop fuel prev rel base pri) Q s.
Proof.
  revert prev v l base pri Q. induction fuel as [|fuel IH]; intros prev v l base pri Q Hv Hc Hf Hrel Hw Hle HQ.
  - destruct l; [|cbn in Hf; lia]. cbn in Hc. subst v. cbn [pri_look_loop]. kstep.
    eapply link_get_wp; [done|]. cbv beta iota. kstep. apply HQ, look_result_base.
  - cbn [pri_look_loop]. kstep. eapply link_get_wp; [done|]. destruct l as [|o l]; cbn in Hc.
    + subst v. cbv beta iota. kstep. apply HQ, look_result_base.
    + destruct Hc as (-> & m & Hm & Hc). cbv beta iota. rewrite decide_False by (apply Hrel; set_solver).
      destruct (Hw o) as (b & Hb & Hs & Hex); [set_solver|]. kstep. eapply first_blk_pri_wp; [done..|].
      destruct (look_step s o l b base pri 0 Hb Hs Hle) as [Hle' _].
      eapply (IH _ (m_mutex_list m) l); [cbn; by rewrite Hm|done|cbn in Hf; lia|set_solver| |done|].
      * intros o' Ho'. apply Hw. set_solver.
      * intros r Hr. apply HQ. by eapply (look_step s o l b base pri r Hb Hs Hle).
Qed.

Lemma chain_ext ms ms' v l : (forall o, o ∈ l -> ms' !! o = ms !! o) -> chain ms v l -> chain ms' v l.
Proof.
  revert v. induction l as [|o l IH]; intros v He; cbn; [done|]. intros (-> & m & Hm & Hc).
  split; [done|]. exists m. rewrite He by set_solver. split; [done|]. apply IH; [set_solver|done].
Qed.

(** Only links of the mutexes in [D] were written. *)
Definition links_changed (D : list oid) (ms ms' : gmap oid kmutex_t) : Prop :=
  (forall o, o ∉ D -> ms' !! o = ms !! o) /\
  (forall o m, ms !! o = Some m -> exists v, ms' !! o = Some (set_m_mutex_list v m)) /\
  (forall o, ms !! o = None -> ms' !! o = None).

Lemma links_changed_refl D ms : links_changed D ms ms.
Proof. split_and!; [done| |done]. intros o m Hm. by exists (m_mutex_list m). Qed.

Lemma links_changed_one D ms p mp v :
  p ∈ D -> ms !! p = Some mp -> links_changed D ms (<[p := set_m_mutex_list v mp]> ms).
Proof.
  intros Hp Hm. split_and!.
  - intros o Ho. rewrite lookup_insert_ne; [done|]. set_solver.
  - intros o m Ho. destruct (decide (p = o)) as [->|].
    + rewrite lookup_insert_eq. simplify_eq. eauto.
    + rewrite lookup_insert_ne by done. by exists (m_mutex_list m).
  - intros o Ho. rewrite lookup_insert_ne; [done|]. congruence.
Qed.

Lemma links_changed_mono D D' ms ms' : (forall o, o ∈ D -> o ∈ D') -> links_changed D ms ms' -> links_changed D' ms ms'.
Proof. intros Hsub (H1 & H2 & H3). split_and!; [|done..]. intros o Ho. apply H1. set_solver. Qed.

Lemma list_rm_cons_eq r l : r ∉ l -> list_rm r (r :: l) = l.
Proof.
  intros Hr. unfold list_rm. rewrite filter_cons_False by (intros H; by apply H). by apply list_rm_notin.
Qed.

Lemma list_rm_cons_ne r o l : o <> r -> list_rm r (o :: l) = o :: list_rm r l.
Proof. intros. unfold list_rm. by rewrite filter_cons_True. Qed.

(** Unlinking from a mutex. *)
Lemma pri_look_unlink fuel p mp l r base pri (Q : Z -> kstate -> Prop) s :
  mutexes s !! p = Some mp -> chain (mutexes s) (m_mutex_list mp) l -> p ∉ l -> NoDup l -> r ∈ l ->
  (length l <= fuel)%nat -> waiters_ok s (list_rm r l) -> base <= pri ->
  (forall res ms' v, look_result s (list_rm r l) base res -> links_changed (p :: l) (mutexes s) ms' ->
     ms' !! p = Some (set_m_mutex_list v mp) -> chain ms' v (list_rm r l) -> Q res (set_mutexes ms' s)) ->
  wp (pri_look_loop fuel (LMutex p) (Some r) base pri) Q s.
Proof.
  revert p mp l base pri Q. induction fuel as [|fuel IH]; intros p mp l base pri Q Hp Hc Hnp Hnd Hr Hf Hw Hle HQ.
  { destruct l; [set_solver|cbn in Hf; lia]. }
  destruct l as [|o l]; [set_solver|]. destruct Hc as (Ev & m & Hm & Hc).
  apply NoDup_cons in Hnd as [Hol Hnd]. apply not_elem_of_cons in Hnp as [Hpo Hnp].
  cbn [pri_look_loop]. kstep. apply (link_get_wp _ (m_mutex_list mp)); [cbn; by rewrite Hp|]. rewrite Ev. cbv beta iota.
  destruct (decide (o = r)) as [->|Hor].
  - rewrite decide_True by done. unfold link_set. ksteps. rewrite list_rm_cons_eq in * by done.
    set (s1 := set_mutexes _ s).
    assert (chain (mutexes s1) (m_mutex_list m) l) as Hc1.
    { eapply chain_ext; [|done]. intros o' Ho'. cbn. rewrite lookup_insert_ne; [done|set_solver]. }
    eapply (pri_look_plain fuel _ (m_mutex_list m) _ l).
    + cbn. by rewrite lookup_insert_eq.
    + done.
    + cbn in Hf. lia.
    + intros o' Ho' E. set_solver.
    + done.
    + done.
    + intros res Hres. eapply (HQ res (mutexes s1) (m_mutex_list m)); [done| |apply lookup_insert_eq|done].
      apply links_changed_one; [set_solver|done].
  - rewrite decide_False by congruence. rewrite list_rm_cons_ne in * by done.
    destruct (Hw o) as (b & Hb & Hs & Hex); [set_solver|]. kstep. eapply first_blk_pri_wp; [done..|].
    destruct (look_step s o (list_rm r l) b base pri 0 Hb Hs Hle) as [Hle' _].
    eapply (IH o m l); try done; [set_solver|cbn in Hf; lia|intros o' Ho'; apply Hw; set_solver|].
    intros res ms' v Hres Hlk Ho' Hc'.
    eapply (HQ res ms' (m_mutex_list mp)).
    + by eapply (look_step s o (list_rm r l) b base pri res Hb Hs Hle).
    + eapply links_changed_mono; [|done]. set_solver.
    + rewrite (proj1 Hlk) by set_solver. done.
    + rewrite Ev. split; [done|]. eexists. split; [exact Ho'|done].
Qed.

Lemma chain_length ms v l : NoDup l -> chain ms v l -> (length l <= size ms)%nat.
Proof.
  intros Hnd Hc. rewrite <- size_dom, <- (size_list_to_set (C := gset oid) l Hnd). apply subseteq_size.
  intros o Ho%elem_of_list_to_set. clear Hnd. revert v Hc Ho.
  induction l as [|x l IH]; intros v; cbn; [set_solver|]. intros (_ & m & Hm & Hc) Ho.
  apply elem_of_cons in Ho as [->|Ho]; [by apply elem_of_dom_2 in Hm|by eapply IH].
Qed.

Lemma mutex_pri_look_plain_wp t k l rel (Q : Z -> kstate -> Prop) s :
  tasks s !! t = Some k -> chain (mutexes s) (mutex_list k) l -> NoDup l ->
  (forall o, o ∈ l -> Some o <> rel) -> waiters_ok s l ->
  (forall r, look_result s l (b_prio k) r -> Q r s) -> wp (mutex_pri_look t rel) Q s.
Proof.
  intros Hk Hc Hnd Hrel Hw HQ. unfold mutex_pri_look. ksteps.
  eapply (pri_look_plain _ _ (mutex_list k) rel l); try done.
  - cbn. by rewrite Hk.
  - pose proof (chain_length _ _ _ Hnd Hc). unfold mutex_fuel. lia.
Qed.

Lemma prio_of_set_mutex_list ts t k v u :
  ts !! t = Some k -> prio_of (<[t := set_mutex_list v k]> ts) u = prio_of ts u.
Proof.
  intros Hk. destruct (decide (u = t)) as [->|]; [|by apply prio_of_insert_ne].
  by rewrite prio_of_insert, (prio_of_Some _ _ _ Hk).
Qed.

Lemma mutex_pri_look_unlink_wp t k l r (Q : Z -> kstate -> Prop) s :
  tasks s !! t = Some k -> chain (mutexes s) (mutex_list k) l -> NoDup l -> r ∈ l -> waiters_ok s (list_rm r l) ->
  (forall res ms' v, look_result s (list_rm r l) (b_prio k) res -> links_changed l (mutexes s) ms' ->
     chain ms' v (list_rm r l) -> Q res (set_mutexes ms' (set_tasks (<[t := set_mutex_list v k]> (tasks s)) s))) ->
  wp (mutex_pri_look t (Some r)) Q s.
Proof.
  intros Hk Hc Hnd Hr Hw HQ. pose proof (chain_length _ _ _ Hnd Hc) as Hlen. unfold mutex_pri_look. ksteps.
  unfold mutex_fuel. destruct l as [|o l]; [set_solver|]. destruct Hc as (Ev & m & Hm & Hc).
  apply NoDup_cons in Hnd as [Hol Hnd]. cbn [pri_look_loop]. kstep.
  apply (link_get_wp _ (mutex_list k)); [cbn; by rewrite Hk|]. rewrite Ev. cbv beta iota.
  destruct (decide (o = r)) as [->|Hor].
  - rewrite decide_True by done. unfold link_set. ksteps. rewrite list_rm_cons_eq in * by done.
    eapply (pri_look_plain _ _ (m_mutex_list m) _ l).
    + cbn. by rewrite lookup_insert_eq.
    + done.
    + cbn in Hlen. lia.
    + intros o' Ho' E. set_solver.
    + intros o' Ho'. destruct (Hw o' Ho') as (b & Hb & Hs & Hex). exists b. split_and!; [done|..].
      * eapply psorted_same; [exact Hk|done|done].
      * intros w Hin. cbn. destruct (Hex w Hin) as [kw ?].
        destruct (decide (w = t)) as [->|]; [rewrite lookup_insert_eq|rewrite lookup_insert_ne by done]; eauto.
    + done.
    + intros res Hres. eapply (HQ res (mutexes s) (m_mutex_list m)); [|apply links_changed_refl|done].
      destruct Hres as [Hin Hmin]. split.
      * destruct Hin as [?|(o' & b & w & ? & ? & ? & E)]; [by left|]. right. exists o', b, w.
        split_and!; [done..|]. rewrite E. by apply prio_of_set_mutex_list.
      * intros q [?|(o' & b & w & ? & ? & ? & E)]; apply Hmin; [by left|]. right. exists o', b, w.
        split_and!; [done..|]. rewrite E. symmetry. by apply prio_of_set_mutex_list.
  - rewrite decide_False by congruence. rewrite list_rm_cons_ne in * by done.
    destruct (Hw o) as (b & Hb & Hs & Hex); [set_solver|]. kstep. eapply first_blk_pri_wp; [done..|].
    destruct (look_step s o (list_rm r l) b (b_prio k) (b_prio k) 0 Hb Hs ltac:(lia)) as [Hle' _].
    eapply (pri_look_unlink _ o m l r); try done; [set_solver|cbn in Hlen; lia|intros o' Ho'; apply Hw; set_solver|].
    intros res ms' v Hres Hlk Ho' Hc'.
    refine (tasks_ext _ _ _ _ (HQ res ms' (Some o) _ Hlk _) _ _).
    + by eapply (look_step s o (list_rm r l) b (b_prio k) (b_prio k) res Hb Hs).
    + split; [done|]. eexists. split; [exact Ho'|done].
    + cbn. rewrite <- Ev. change (set_mutex_list (mutex_list k) k) with k. by rewrite insert_id.
    + done.
Qed.

(** ** Changing the priority of one task *)

Lemma wf_prio_ready s t k p rq1 rq2 :
  WF s -> tasks s !! t = Some k -> task_state k = K_RDY -> prio_ok p ->
  rq_removed t (prio k) (g_ready_queue s) rq1 -> rq_ok rq2 -> rq_entered t p rq1 rq2 ->
  WF (set_lists (<[t := set_prio p k]> (tasks s)) (blks s) (g_tick_head s) rq2 s).
Proof.
  intros Hwf Hk Hst Hp H1 Hok2 H2. pose proof (wf_task s Hwf t k Hk) as [].
  apply (wf_step s _ t (set_prio p k)); cbn; try done.
  - pose (kx := set_task_state K_SUSPENDED k).
    rewrite <- (insert_insert_eq (tasks s) t (set_prio p k) kx).
    eapply rq_enter; [|by apply (lookup_only _ _ kx); [apply lookup_insert_eq|]|done|exact H2].
    eapply rq_leave; [apply (wf_ready s Hwf)|done|done|by apply rq_removed_left].
  - eapply blk_keep; [apply (wf_blks s Hwf)|done|done|]. intros [?|?]; congruence.
  - eapply list_ok_same; [apply (wf_tick s Hwf)|done..].
Qed.

Lemma wf_prio_plain s t k p :
  WF s -> tasks s !! t = Some k -> task_state k <> K_RDY -> ~ pending k -> prio_ok p ->
  WF (set_tasks (<[t := set_prio p k]> (tasks s)) s).
Proof.
  intros Hwf Hk Hst Hnp Hp. pose proof (wf_task s Hwf t k Hk) as [].
  apply (wf_step s _ t (set_prio p k)); cbn; try done.
  - apply Hwf.
  - eapply rq_keep; [apply (wf_ready s Hwf)|done|]. intros q. split; by intros [? _].
  - by eapply blk_keep; [apply (wf_blks s Hwf)|..].
  - eapply list_ok_same; [apply (wf_tick s Hwf)|done..].
Qed.

Lemma blk_lists_prio ts bl t k p :
  ts !! t = Some k -> blk_lists ts bl -> blk_lists (<[t := set_prio p k]> ts) bl.
Proof. intros Hk Hl o b Hb. eapply list_ok_same; [by apply Hl|done|done]. Qed.

(** Putting a waiter back at another place of its list. *)
Lemma blk_moved ts bl t k k' o b l' :
  blks_ok ts bl -> ts !! t = Some k -> in_blk o k -> in_blk o k' -> bl !! o = Some b -> l' ≡ₚ blk_list b ->
  (blk_policy b = BLK_POLICY_PRI -> psorted (<[t := k']> ts) l') ->
  blks_ok (<[t := k']> ts) (<[o := set_blk_list l' b]> bl).
Proof.
  intros Hbl Hk Hin Hin' Hb Hl' Hs. destruct (Hbl o b Hb) as [Hlo _].
  pose (kx := set_task_state K_SUSPENDED k).
  assert (blks_ok (<[t := kx]> ts) (blk_without t o bl)) as Hb1
    by (eapply blk_leave; [done|done|apply Hin|by intros [?|?]]).
  assert (blk_without t o bl !! o = Some (set_blk_list (list_rm t (blk_list b)) b)) as E
    by (unfold blk_without; by rewrite lookup_alter_eq, Hb).
  eapply (blk_enter _ t _ k' o _ l') in Hb1; [|by apply (lookup_only _ _ kx); [apply lookup_insert_eq|intros [?|?]]|done|exact E| |].
  - rewrite insert_insert_eq in Hb1. unfold blk_without in Hb1.
    rewrite insert_alter, decide_True in Hb1 by done. exact Hb1.
  - cbn. rewrite Hl'. symmetry. apply list_rm_perm; [apply Hlo|by eapply list_ok_in].
  - by rewrite insert_insert_eq.
Qed.

Lemma is_Some_insert {A} (m : gmap oid A) o x o' : is_Some (m !! o') -> is_Some (<[o := x]> m !! o').
Proof. intros. rewrite lookup_insert_is_Some'. by right. Qed.

Lemma wf_prio_pend s t k o b p l' :
  WF s -> tasks s !! t = Some k -> in_blk o k -> blks s !! o = Some b -> prio_ok p -> l' ≡ₚ blk_list b ->
  (blk_policy b = BLK_POLICY_PRI -> psorted (<[t := set_prio p k]> (tasks s)) l') ->
  WF (set_blks (<[o := set_blk_list l' b]> (blks s)) (set_tasks (<[t := set_prio p k]> (tasks s)) s)).
Proof.
  intros Hwf Hk Hin Hb Hp Hl' Hs. pose proof (wf_task s Hwf t k Hk) as [].
  assert (task_state k <> K_RDY) as Hnr by (destruct Hin as [[?|?] _]; congruence).
  apply (wf_step s _ t (set_prio p k)); cbn; try done.
  - apply Hwf.
  - eapply rq_keep; [apply (wf_ready s Hwf)|done|]. intros q. split; by intros [? _].
  - by eapply blk_moved; [apply (wf_blks s Hwf)|..].
  - eapply list_ok_same; [apply (wf_tick s Hwf)|done..].
  - intros o'. apply is_Some_insert.
  - split; try done. intros _. exists o, (set_blk_list l' b). split; [apply Hin|apply lookup_insert_eq].
Qed.

(** The wait list of a pending task is sorted again for its new priority. *)
Lemma pend_list_reorder_wp t k o b p (Q : unit -> kstate -> Prop) s :
  WF s -> tasks s !! t = Some k -> in_blk o k -> blks s !! o = Some b -> prio_ok p ->
  let s1 := set_tasks (<[t := set_prio p k]> (tasks s)) s in
  (forall l', l' ≡ₚ blk_list b ->
     WF (set_blks (<[o := set_blk_list l' b]> (blks s)) s1) ->
     Q tt (set_blks (<[o := set_blk_list l' b]> (blks s)) s1)) ->
  wp (pend_list_reorder t) Q s1.
Proof.
  intros Hwf Hk Hin Hb Hp s1 HQ. destruct (wf_blks s Hwf o b Hb) as [Hlo Hso].
  assert (tasks s1 !! t = Some (set_prio p k)) as Hk1 by apply lookup_insert_eq.
  assert (blk_lists (tasks s1) (blks s1)) as Hbl by (apply blk_lists_prio; [done|apply blks_ok_lists, Hwf]).
  unfold pend_list_reorder. do 2 kstep. kstep. eapply wp_deref; [apply Hin|]. do 2 kstep.
  case_decide as Hpol.
  - kstep. apply task_list_rm_wp with (set_prio p k) o b; [done..|]. set (s2 := set_blks _ s1).
    pose (b2 := set_blk_list (list_rm t (blk_list b)) b).
    assert (blks s2 !! o = Some b2) as Hb2 by (cbn; unfold blk_without; by rewrite lookup_alter_eq, Hb).
    apply pend_list_add_wp with b2 (set_prio p k); [done..| |].
    { intros x Hx%list_rm_spec. cbn. rewrite lookup_insert_ne by naive_solver.
      destruct (proj1 (proj2 Hlo x) (proj1 Hx)) as (kx & ? & _). eauto. }
    intros l' _ Hperm Hsort.
    assert (l' ≡ₚ blk_list b) as Hperm'.
    { rewrite Hperm. apply list_rm_perm; [apply Hlo|by eapply list_ok_in]. }
    assert (set_blks (<[o := set_blk_list l' b2]> (blks s2)) s2 = set_blks (<[o := set_blk_list l' b]> (blks s)) s1) as ->.
    { cbn. unfold blk_without. rewrite insert_alter, decide_True by done. done. }
    apply HQ; [done|]. apply wf_prio_pend; try done. intros _. apply Hsort. cbn.
    apply psorted_insert_notin; [rewrite list_rm_spec; naive_solver|]. by apply psorted_rm, Hso.
  - kstep. assert (s1 = set_blks (<[o := set_blk_list (blk_list b) b]> (blks s)) s1) as ->.
    { change (set_blk_list (blk_list b) b) with b. by rewrite insert_id. }
    apply HQ; [done|]. by apply wf_prio_pend.
Qed.

(** ** States that differ in priorities only *)

Record pframe (s s' : kstate) : Prop := {
  pf_tasks u : tasks s' !! u = (fun k => set_prio (prio_of (tasks s') u) k) <$> tasks s !! u;
  pf_blks o : option_relation (fun b b' => b' = set_blk_list (blk_list b') b /\ blk_list b' ≡ₚ blk_list b)
    (fun _ => False) (fun _ => False) (blks s !! o) (blks s' !! o);
  pf_rest : s' = set_lists (tasks s') (blks s') (g_tick_head s) (g_ready_queue s') s
}.

Lemma pframe_refl s : pframe s s.
Proof.
  split; [|intros o; by destruct (blks s !! o)|done].
  intros u. destruct (tasks s !! u) as [k|] eqn:E; cbn; [|done]. by rewrite (prio_of_Some _ _ _ E).
Qed.

Lemma pframe_trans s1 s2 s3 : pframe s1 s2 -> pframe s2 s3 -> pframe s1 s3.
Proof.
  intros [T1 B1 R1] [T2 B2 R2]. split.
  - intros u. rewrite T2, T1. by destruct (tasks s1 !! u).
  - intros o. specialize (B1 o). specialize (B2 o).
    destruct (blks s1 !! o), (blks s2 !! o), (blks s3 !! o); cbn in *; try done.
    destruct B1 as [E1 P1], B2 as [E2 P2]. split; [rewrite E2, E1; done|]. by rewrite P2, P1.
  - rewrite R2, R1. done.
Qed.

Lemma pframe_task s s' u k : pframe s s' -> tasks s !! u = Some k -> tasks s' !! u = Some (set_prio (prio_of (tasks s') u) k).
Proof. intros H Hk. by rewrite (pf_tasks _ _ H), Hk. Qed.

Lemma pframe_task_inv s s' u k' :
  pframe s s' -> tasks s' !! u = Some k' -> exists k, tasks s !! u = Some k /\ k' = set_prio (prio k') k.
Proof.
  intros H Hk. pose proof (pf_tasks _ _ H u) as E. rewrite Hk, (prio_of_Some _ _ _ Hk) in E.
  destruct (tasks s !! u) as [k|]; [|done]. injection E as E. eauto.
Qed.

Lemma pframe_blk s s' o b :
  pframe s s' -> blks s !! o = Some b -> exists l', blks s' !! o = Some (set_blk_list l' b) /\ l' ≡ₚ blk_list b.
Proof.
  intros H Hb. pose proof (pf_blks _ _ H o) as E. rewrite Hb in E.
  destruct (blks s' !! o) as [b'|]; [|done]. destruct E as [E ?]. exists (blk_list b'). by rewrite <- E.
Qed.

Lemma pframe_blk_inv s s' o b' :
  pframe s s' -> blks s' !! o = Some b' -> exists b, blks s !! o = Some b /\ b' = set_blk_list (blk_list b') b /\ blk_list b' ≡ₚ blk_list b.
Proof.
  intros H Hb. pose proof (pf_blks _ _ H o) as E. rewrite Hb in E.
  destruct (blks s !! o) as [b|]; [|done]. eauto.
Qed.

Lemma pframe_mutexes s s' : pframe s s' -> mutexes s' = mutexes s.
Proof. intros [_ _ ->]. done. Qed.

Section pframe.
Context (s s' : kstate) (Hf : pframe s s').

Lemma pframe_is_mutex o : is_mutex s' o <-> is_mutex s o.
Proof.
  split; intros (b & Hb & Ht).
  - destruct (pframe_blk_inv _ _ _ _ Hf Hb) as (b0 & ? & E & _). exists b0. rewrite E in Ht. done.
  - destruct (pframe_blk _ _ _ _ Hf Hb) as (l' & ? & _). by exists (set_blk_list l' b).
Qed.

Lemma pframe_owned o t : owned s' o t <-> owned s o t.
Proof. unfold owned. by rewrite pframe_is_mutex, (pframe_mutexes _ _ Hf). Qed.

Lemma pframe_waits w o : waits s' w o <-> waits s w o.
Proof.
  unfold waits. rewrite pframe_is_mutex. split; intros [? (k & Hk & Hin)]; (split; [done|]).
  - destruct (pframe_task_inv _ _ _ _ Hf Hk) as (k0 & ? & E). exists k0. rewrite E in Hin. done.
  - eexists. split; [exact (pframe_task _ _ _ _ Hf Hk)|]. done.
Qed.

Lemma pframe_MIbase : MIbase s -> MIbase s'.
Proof.
  intros [Hc Ho Hw Hm]. split.
  - intros t k' Hk' Hl. destruct (pframe_task_inv _ _ _ _ Hf Hk') as (k & Hk & E). rewrite E in Hl.
    destruct (Hc t k Hk Hl) as (l & Hch & Hnd & Hown). exists l. rewrite (pframe_mutexes _ _ Hf), E.
    split_and!; [done..|]. intros o. by rewrite pframe_owned.
  - intros o t Hown%pframe_owned. destruct (Ho o t Hown) as (? & k & Hk & ?). split; [done|].
    eexists. split; [exact (pframe_task _ _ _ _ Hf Hk)|done].
  - intros w o (t & ? & ?)%pframe_waits%Hw. exists t. by rewrite pframe_owned.
  - intros o b' Hb' Ht. destruct (pframe_blk_inv _ _ _ _ Hf Hb') as (b & Hb & E & _). rewrite E in Ht |- *.
    rewrite (pframe_mutexes _ _ Hf). by apply (Hm o b).
Qed.

(** What bounds the priority of [t], with the new priorities. *)
Lemma pframe_eff X t q :
  eff X s' t q <->
  (exists k, tasks s !! t = Some k /\ q = b_prio k) \/
  (exists w o, owned s o t /\ waits s w o /\ q = prio_of (tasks s') w) \/ X t q.
Proof.
  unfold eff. split.
  - intros [(k' & Hk' & ->)|[(w & o & Ho & Hw & ->)|?]]; [left|right; left|by right; right].
    + destruct (pframe_task_inv _ _ _ _ Hf Hk') as (k & ? & E). exists k. split; [done|]. by rewrite E.
    + exists w, o. by rewrite <- pframe_owned, <- pframe_waits.
  - intros [(k & Hk & ->)|[(w & o & Ho & Hw & ->)|?]]; [left|right; left|by right; right].
    + eexists. split; [exact (pframe_task _ _ _ _ Hf Hk)|done].
    + exists w, o. by rewrite pframe_owned, pframe_waits.
Qed.

End pframe.

(** ** One step of the chain walk *)

(** [MI] but for [t], which should run at [p]. *)
Definition MIx (X : tid -> Z -> Prop) (s : kstate) (t : tid) (p : Z) : Prop :=
  MIbase s /\ (forall u, u <> t -> prio_inherited X s u) /\ is_min (eff X s t) p.

Lemma owned_unique s o t t' : owned s o t -> owned s o t' -> t = t'.
Proof. intros [_ (m & ? & ?)] [_ (m' & ? & ?)]. simplify_eq. congruence. Qed.

Lemma waits_unique s w o o' : waits s w o -> waits s w o' -> o = o'.
Proof. intros [_ (k & ? & _ & ?)] [_ (k' & ? & _ & ?)]. simplify_eq. congruence. Qed.

Section one_step.
Context (X : tid -> Z -> Prop) (s s1 : kstate) (t : tid) (k : ktask_t) (p : Z).
Context (Hf : pframe s s1) (Ht1 : tasks s1 = <[t := set_prio p k]> (tasks s)).
Context (Hk : tasks s !! t = Some k) (HM : MIx X s t p).

Lemma step_prio_of u : prio_of (tasks s1) u = if decide (u = t) then p else prio_of (tasks s) u.
Proof.
  rewrite Ht1. destruct (decide (u = t)) as [->|]; [apply prio_of_insert|by apply prio_of_insert_ne].
Qed.

Lemma step_eff_same u q : (forall o, owned s o u -> ~ waits s t o) -> eff X s1 u q <-> eff X s u q.
Proof.
  intros Hn. rewrite (pframe_eff _ _ Hf). unfold eff.
  assert (forall w o, owned s o u -> waits s w o -> prio_of (tasks s1) w = prio_of (tasks s) w) as E.
  { intros w o Ho Hw. rewrite step_prio_of. case_decide; [|done]. subst w. by destruct (Hn o Ho). }
  split; (intros [?|[(w & o & Ho & Hw & ->)|?]]; [by left|right; left; exists w, o|by right; right]);
    (split_and!; [done..|]); [|symmetry]; by eapply E.
Qed.

Lemma step_prio_self : prio_inherited X s1 t.
Proof.
  intros k1. rewrite Ht1, lookup_insert_eq. intros [= <-] _. destruct HM as (Hb & _ & Hin & Hmin).
  assert (forall q, eff X s1 t q <-> eff X s t q) as E.
  { intros q. apply step_eff_same. intros o Ho Hw. destruct (mi_wait s Hb t o Hw) as (t' & Ho' & Hne).
    apply Hne. by eapply owned_unique. }
  split; [by apply E|]. intros q Hq%E. by apply Hmin.
Qed.

Lemma step_prio_other u : u <> t -> (forall o, owned s o u -> ~ waits s t o) -> prio_inherited X s1 u.
Proof.
  intros Hu Hn k1. rewrite Ht1, lookup_insert_ne by done. intros Hk1 Hl.
  destruct HM as (_ & Ho & _). destruct (Ho u Hu k1 Hk1 Hl) as [Hin Hmin].
  split; [by apply step_eff_same|]. intros q Hq. apply Hmin. by apply step_eff_same in Hq.
Qed.

(** [t] waits for no mutex: done. *)
Lemma step_done : (forall o, ~ waits s t o) -> forall u, prio_inherited X s1 u.
Proof.
  intros Hn u. destruct (decide (u = t)) as [->|Hu]; [apply step_prio_self|].
  apply step_prio_other; [done|]. intros o _. apply Hn.
Qed.

Context (o : oid) (tm : tid) (km : ktask_t).
Context (Hw : waits s t o) (Ho : owned s o tm) (Htm : tm <> t) (Hkm : tasks s !! tm = Some km) (Hlm : live km).

Lemma step_others u : u <> tm -> prio_inherited X s1 u.
Proof.
  intros Hu. destruct (decide (u = t)) as [->|Hut]; [apply step_prio_self|].
  apply step_prio_other; [done|]. intros o' Ho' Hw'. apply Hu.
  rewrite (waits_unique s t o' o) in Ho' by done. by eapply owned_unique.
Qed.

(** What bounds the owner now: [p] for [t], as before for the rest. *)
Lemma step_eff_owner q :
  eff X s1 tm q <->
  q = p \/ (exists k, tasks s !! tm = Some k /\ q = b_prio k) \/
  (exists w o, w <> t /\ owned s o tm /\ waits s w o /\ q = prio_of (tasks s) w) \/ X tm q.
Proof.
  rewrite (pframe_eff _ _ Hf). split.
  - intros [?|[(w & o' & ? & ? & ->)|?]]; [naive_solver| |naive_solver].
    rewrite step_prio_of. case_decide; [by left|]. right; right; left. by exists w, o'.
  - intros [->|[?|[(w & o' & ? & ? & ? & ->)|?]]]; [|naive_solver| |naive_solver].
    + right; left. exists t, o. split_and!; [done..|]. by rewrite step_prio_of, decide_True.
    + right; left. exists w, o'. split_and!; [done..|]. by rewrite step_prio_of, decide_False.
Qed.

Lemma step_owner_bound q :
  eff X s1 tm q -> q = p \/ prio km <= q.
Proof.
  rewrite step_eff_owner. destruct HM as (_ & Hi & _). destruct (Hi tm Htm km Hkm Hlm) as [_ Hmin].
  intros [?|[?|[(w & o' & ? & ? & ? & ?)|?]]]; [by left|right; apply Hmin..].
  - by left.
  - right; left. by exists w, o'.
  - by right; right.
Qed.

(** The owner is raised too. *)
Lemma step_raise : p < prio km -> MIx X s1 tm p.
Proof.
  intros Hlt. split_and!; [by eapply pframe_MIbase; [|apply HM]|apply step_others|].
  split; [apply step_eff_owner; by left|]. intros q [->|?]%step_owner_bound; lia.
Qed.

(** The owner keeps its priority. *)
Lemma step_keep : prio km <= p -> prio km <> prio k -> forall u, prio_inherited X s1 u.
Proof.
  intros Hle Hne u. destruct (decide (u = tm)) as [->|]; [|by apply step_others].
  intros k1. rewrite Ht1, lookup_insert_ne by done. rewrite Hkm. intros [= <-] _.
  destruct HM as (_ & Hi & _). destruct (Hi tm Htm km Hkm Hlm) as [Hin Hmin].
  split; [|by intros q [->|?]%step_owner_bound].
  apply step_eff_owner. destruct Hin as [?|[(w & o' & ? & ? & E)|?]]; [naive_solver| |naive_solver].
  right; right; left. exists w, o'. split_and!; try done. intros ->. apply Hne. by rewrite E, (prio_of_Some _ _ _ Hk).
Qed.

End one_step.

(** ** The walk computes the inherited priority *)

Lemma owned_waiters_ok s l :
  WF s -> MIbase s -> (forall o, o ∈ l -> is_mutex s o) -> waiters_ok s l.
Proof.
  intros Hwf Hb Hl o Ho. destruct (Hl o Ho) as (b & Hbo & Ht). exists b.
  destruct (mi_mutex s Hb o b Hbo Ht) as [Hpol _]. destruct (wf_blks s Hwf o b Hbo) as [Hlo Hs].
  split_and!; [done|by apply Hs|]. intros w (k & ? & _)%(proj2 Hlo). eauto.
Qed.

Lemma waiter_prio_waits s l t q :
  WF s -> (forall o, o ∈ l <-> owned s o t) ->
  waiter_prio s l q <-> exists w o, owned s o t /\ waits s w o /\ q = prio_of (tasks s) w.
Proof.
  intros Hwf Hl. split.
  - intros (o & b & w & Ho & Hb & Hw & ->). apply Hl in Ho. exists w, o. split_and!; [done| |done].
    split; [apply Ho|]. by apply (proj2 (proj1 (wf_blks s Hwf o b Hb))) in Hw.
  - intros (w & o & Ho & [(b & Hb & _) Hw] & ->). exists o, b, w. split_and!; [by apply Hl|done| |done].
    by apply (proj2 (proj1 (wf_blks s Hwf o b Hb))).
Qed.

Lemma is_min_ext (S S' : Z -> Prop) p : (forall q, S q <-> S' q) -> is_min S p <-> is_min S' p.
Proof. intros E. unfold is_min. setoid_rewrite E. done. Qed.

Lemma look_eff s t k l r :
  WF s -> tasks s !! t = Some k -> (forall o, o ∈ l <-> owned s o t) ->
  look_result s l (b_prio k) r <-> is_min (eff no_extra s t) r.
Proof.
  intros Hwf Hk Hl. apply is_min_ext. intros q. rewrite (waiter_prio_waits s l t q Hwf Hl). unfold eff, no_extra.
  naive_solver.
Qed.

(** [mutex_pri_look] of an owner, nothing being released. *)
Lemma mutex_pri_look_wp t k (Q : Z -> kstate -> Prop) s :
  WF s -> MIbase s -> tasks s !! t = Some k -> live k ->
  (forall r, is_min (eff no_extra s t) r -> Q r s) -> wp (mutex_pri_look t None) Q s.
Proof.
  intros Hwf Hb Hk Hl HQ. destruct (mi_chain s Hb t k Hk Hl) as (l & Hc & Hnd & Hown).
  eapply mutex_pri_look_plain_wp; [done..| |].
  - apply owned_waiters_ok; [done..|]. intros o Ho%Hown. apply Ho.
  - intros r Hr. apply HQ. by apply (look_eff s t k l).
Qed.

(** ** Termination measure *)

Definition cnt (P : ktask_t -> bool) (ts : gmap tid ktask_t) : nat := size (filter (fun tk => P tk.2 = true) ts).

Lemma cnt_le P ts : (cnt P ts <= size ts)%nat.
Proof. apply map_size_filter. Qed.

Lemma cnt_drop P ts t k k' :
  ts !! t = Some k -> P k = true -> P k' = false -> cnt P ts = S (cnt P (<[t := k']> ts)).
Proof.
  intros Hk HP HP'. unfold cnt. rewrite map_filter_insert_False by (cbn; congruence).
  rewrite map_filter_delete.
  assert (filter (fun tk : tid * ktask_t => P tk.2 = true) ts !! t = Some k) as E by (by apply map_lookup_filter_Some).
  rewrite map_size_delete_Some by eauto.
  destruct (size (filter (fun tk : tid * ktask_t => P tk.2 = true) ts)) as [|n] eqn:En; [|done].
  apply map_size_empty_inv in En. rewrite En in E. done.
Qed.

(** Rounds left: raising passes over tasks less urgent than [p]; lowering over
    tasks of the old priority, and may then raise. *)
Definition need (ts : gmap tid ktask_t) (k : ktask_t) (p : Z) : nat :=
  if p <? prio k then S (cnt (fun k' => p <? prio k') ts)
  else if prio k <? p then S (S (size ts + cnt (fun k' => prio k' =? prio k) ts))
  else 1.

Lemma need_fuel ts k p : (need ts k p <= S (S (2 * size ts)))%nat.
Proof.
  unfold need. pose proof (cnt_le (fun k' => p <? prio k') ts).
  pose proof (cnt_le (fun k' => prio k' =? prio k) ts). repeat case_match; lia.
Qed.

Lemma need_pos ts k p : (1 <= need ts k p)%nat.
Proof. unfold need. repeat case_match; lia. Qed.

(** The next task needs fewer rounds. *)
Lemma need_raise ts t k km p :
  ts !! t = Some k -> prio k <> p -> p < prio km -> (need (<[t := set_prio p k]> ts) km p < need ts k p)%nat.
Proof.
  intros Hk Hne Hm. unfold need. rewrite (proj2 (Z.ltb_lt p (prio km))) by done.
  destruct (Z.ltb_spec p (prio k)).
  - rewrite (cnt_drop _ ts t k (set_prio p k)); [lia|done|by apply Z.ltb_lt|apply Z.ltb_irrefl].
  - rewrite (proj2 (Z.ltb_lt (prio k) p)) by lia.
    pose proof (cnt_le (fun k' => p <? prio k') (<[t := set_prio p k]> ts)).
    rewrite map_size_insert_Some in * by eauto. lia.
Qed.

Lemma need_lower ts t k km p np :
  ts !! t = Some k -> prio k <> p -> prio km <= p -> prio km = prio k -> np <> prio km ->
  (need (<[t := set_prio p k]> ts) km np < need ts k p)%nat.
Proof.
  intros Hk Hne Hle Hm Hnp. unfold need. rewrite (proj2 (Z.ltb_ge p (prio k))), (proj2 (Z.ltb_lt (prio k) p)) by lia.
  rewrite (cnt_drop (fun k' => prio k' =? prio k) ts t k (set_prio p k)); [|done|apply Z.eqb_refl|apply Z.eqb_neq; cbn; lia].
  destruct (Z.ltb_spec np (prio km)).
  - pose proof (cnt_le (fun k' => np <? prio k') (<[t := set_prio p k]> ts)).
    rewrite map_size_insert_Some in * by eauto. lia.
  - rewrite (proj2 (Z.ltb_lt (prio km) np)) by lia. rewrite map_size_insert_Some, Hm by eauto. lia.
Qed.

(** ** The chain walk *)

Definition idle_ready (s : kstate) : Prop :=
  exists ki, tasks s !! g_idle_task = Some ki /\ task_state ki = K_RDY.

Lemma pframe_idle s s' : pframe s s' -> idle_ready s -> idle_ready s'.
Proof. intros Hf (ki & Hi & Hr). eexists. split; [exact (pframe_task _ _ _ _ Hf Hi)|done]. Qed.

(** Raising to [p] changes no priority that is at least as urgent. *)
Definition raised_to (p : Z) (s s' : kstate) : Prop :=
  forall u, prio_of (tasks s') u = prio_of (tasks s) u \/ (p < prio_of (tasks s) u /\ prio_of (tasks s') u = p).

Lemma raised_to_trans p s1 s2 s3 : raised_to p s1 s2 -> raised_to p s2 s3 -> raised_to p s1 s3.
Proof. intros H1 H2 u. specialize (H1 u). specialize (H2 u). lia. Qed.

Record pri_done (X : tid -> Z -> Prop) (s s' : kstate) : Prop := {
  pd_wf : WF s';
  pd_base : MIbase s';
  pd_inherit u : prio_inherited X s' u;
  pd_frame : pframe s s'
}.

(** The state after one task got priority [p], from any of its states. *)
Lemma pframe_one s s1 t k p :
  tasks s !! t = Some k -> tasks s1 = <[t := set_prio p k]> (tasks s) ->
  (forall o, option_relation (fun b b' => b' = set_blk_list (blk_list b') b /\ blk_list b' ≡ₚ blk_list b)
    (fun _ => False) (fun _ => False) (blks s !! o) (blks s1 !! o)) ->
  s1 = set_lists (tasks s1) (blks s1) (g_tick_head s) (g_ready_queue s1) s -> pframe s s1.
Proof.
  intros Hk Ht Hb Hr. split; [|done..]. intros u. rewrite Ht. destruct (decide (u = t)) as [->|].
  - by rewrite prio_of_insert, lookup_insert_eq, Hk.
  - rewrite prio_of_insert_ne, lookup_insert_ne by done. destruct (tasks s !! u) as [ku|] eqn:E; [|done].
    cbn. by rewrite (prio_of_Some _ _ _ E).
Qed.

Lemma blks_same_rel (bl : gmap oid blk_obj_t) o :
  option_relation (fun b b' => b' = set_blk_list (blk_list b') b /\ blk_list b' ≡ₚ blk_list b)
    (fun _ => False) (fun _ => False) (bl !! o) (bl !! o).
Proof. by destruct (bl !! o). Qed.

Lemma blks_moved_rel (bl : gmap oid blk_obj_t) o b l' o' :
  bl !! o = Some b -> l' ≡ₚ blk_list b ->
  option_relation (fun b b' => b' = set_blk_list (blk_list b') b /\ blk_list b' ≡ₚ blk_list b)
    (fun _ => False) (fun _ => False) (bl !! o') (<[o := set_blk_list l' b]> bl !! o').
Proof.
  intros Hb Hl. destruct (decide (o = o')) as [<-|].
  - by rewrite lookup_insert_eq, Hb.
  - rewrite lookup_insert_ne by done. apply blks_same_rel.
Qed.

Section walk.
Context (X : tid -> Z -> Prop).

(** A ready task moves to the ring of its new priority. *)
Lemma pri_change_ready_wf_wp t k p (Q : kstat_t -> kstate -> Prop) s :
  WF s -> tasks s !! t = Some k -> task_state k = K_RDY -> prio_ok p -> t <> g_idle_task -> idle_ready s ->
  (forall rq', let s' := set_lists (<[t := set_prio p k]> (tasks s)) (blks s) (g_tick_head s) rq' s in
     WF s' -> Q RHINO_SUCCESS s') ->
  wp (ready_list_rm t;; upd_task t (set_prio p);; a ← gets g_active_task;
      (if decide (Some t = a) then ready_list_add_head t else ready_list_add_tail t);; mret RHINO_SUCCESS) Q s.
Proof.
  intros Hwf Hk Hst Hp Hti (ki & Hki & Hri) HQ. kstep.
  apply ready_list_rm_wp with k (prio ki) g_idle_task; try done.
  - apply Hwf.
  - by eapply list_ok_in; [apply (wf_ready s Hwf)|..].
  - apply (wf_ready s Hwf).
  - by eapply list_ok_in; [apply (wf_ready s Hwf)|..].
  - intros rq1 Hok1 Hr1. do 5 kstep. set (s1 := set_tasks _ _).
    assert (tasks s1 !! t = Some (set_prio p k)) as Hk1 by apply lookup_insert_eq.
    assert (forall rq2, rq_ok rq2 -> rq_entered t p rq1 rq2 -> Q RHINO_SUCCESS (set_g_ready_queue rq2 s1)) as HQ'.
    { intros rq2 Hok2 Hent. apply (HQ rq2), (wf_prio_ready s t k p rq1 rq2); done. }
    case_decide as Ha.
    + apply ready_list_add_head_wp with (set_prio p k); [exact Hok1|exact Hk1|exact Hp|]. intros rq2 Hok2 Hr2. kstep. apply HQ'; [done|].
      split; [by rewrite Hr2, decide_True|]. intros q Hq. by rewrite Hr2, decide_False.
    + apply ready_list_add_tail_wp with (set_prio p k); [exact Hok1|exact Hk1|exact Hp|]. intros rq2 Hok2 Hr2. kstep. apply HQ'; [done|].
      split; [rewrite Hr2, decide_True by done; symmetry; apply Permutation_cons_append|].
      intros q Hq. by rewrite Hr2, decide_False.
Qed.

Lemma pri_change_ready_wp t k p (Q : kstat_t -> kstate -> Prop) s :
  WF s -> MIx X s t p -> tasks s !! t = Some k -> task_state k = K_RDY -> prio_ok p ->
  t <> g_idle_task -> idle_ready s ->
  (forall s', pri_done X s s' -> tasks s' = <[t := set_prio p k]> (tasks s) -> Q RHINO_SUCCESS s') ->
  wp (ready_list_rm t;; upd_task t (set_prio p);; a ← gets g_active_task;
      (if decide (Some t = a) then ready_list_add_head t else ready_list_add_tail t);; mret RHINO_SUCCESS) Q s.
Proof.
  intros Hwf HM Hk Hst Hp Hti Hid HQ. eapply pri_change_ready_wf_wp; [done..|]. intros rq' s' Hwf'.
  assert (pframe s s') as Hf by (apply (pframe_one s _ t k p); [done|done|intros; apply blks_same_rel|done]).
  apply HQ; [|done]. split; [done|by eapply pframe_MIbase; [|apply HM]| |done].
  eapply step_done; [done..|]. intros o [_ (k0 & ? & [[?|?] _])]; congruence.
Qed.

Lemma prio_ok_min s t k r :
  WF s -> tasks s !! t = Some k -> is_min (eff no_extra s t) r -> prio_ok r.
Proof.
  intros Hwf Hk [[(k' & Hk' & ->)|[(w & o & _ & [_ (kw & Hkw & _)] & ->)|[]]] _].
  - by apply (wf_task s Hwf t k').
  - rewrite (prio_of_Some _ _ _ Hkw). by apply (wf_task s Hwf w kw).
Qed.

(** The loop restores [MI]; with an extra bound [X] only from a raise. *)
Definition loop_spec (fuel : nat) : Prop := forall t k p (Q : kstat_t -> kstate -> Prop) s,
  WF s -> MIx X s t p -> tasks s !! t = Some k -> live k -> prio_ok p -> t <> g_idle_task -> idle_ready s ->
  (X = no_extra \/ p < prio k) -> (need (tasks s) k p <= fuel)%nat ->
  (forall s', pri_done X s s' -> (p < prio k -> raised_to p s s') -> Q RHINO_SUCCESS s') ->
  wp (pri_change_loop fuel t p) Q s.

Lemma raised_one s s1 t k p :
  tasks s !! t = Some k -> tasks s1 = <[t := set_prio p k]> (tasks s) -> p < prio k -> raised_to p s s1.
Proof.
  intros Hk E Hlt u. rewrite E. destruct (decide (u = t)) as [->|].
  - rewrite prio_of_insert, (prio_of_Some _ _ _ Hk). by right.
  - rewrite prio_of_insert_ne by done. by left.
Qed.

Lemma pri_change_plain_wp t k p (Q : kstat_t -> kstate -> Prop) s :
  WF s -> MIx X s t p -> tasks s !! t = Some k -> task_state k <> K_RDY -> ~ pending k -> prio_ok p ->
  (forall s', pri_done X s s' -> tasks s' = <[t := set_prio p k]> (tasks s) -> Q RHINO_SUCCESS s') ->
  wp (upd_task t (set_prio p);; mret RHINO_SUCCESS) Q s.
Proof.
  intros Hwf HM Hk Hnr Hnp Hp HQ. ksteps. apply HQ; [|done]. set (s1 := set_tasks _ s).
  assert (pframe s s1) as Hf by (apply (pframe_one s _ t k p); [done|done|intros; apply blks_same_rel|done]).
  split; [by apply wf_prio_plain|by eapply pframe_MIbase; [|apply HM]| |done].
  eapply step_done; [done..|]. intros o [_ (k0 & ? & [? _])]. naive_solver.
Qed.

(** A pending task: its wait list is sorted again and the walk goes on with the
    owner of the mutex it waits for. *)
Lemma pri_change_pend_wp fuel t k p (Q : kstat_t -> kstate -> Prop) s :
  loop_spec fuel ->
  WF s -> MIx X s t p -> tasks s !! t = Some k -> live k -> prio_ok p -> t <> g_idle_task -> idle_ready s ->
  (X = no_extra \/ p < prio k) -> (need (tasks s) k p <= S fuel)%nat -> prio k <> p -> pending k ->
  (forall s', pri_done X s s' -> (p < prio k -> raised_to p s s') -> Q RHINO_SUCCESS s') ->
  wp (upd_task t (set_prio p);; pend_list_reorder t;;
      k' ← get_task t; o ← deref (blk_obj k'); b ← get_blk o;
      if decide (obj_type b = RHINO_MUTEX_OBJ_TYPE) then
        m ← get_mutex o;
        mutex_task ← deref (mutex_task m);
        km ← get_task mutex_task;
        if prio k' <? prio km then pri_change_loop fuel mutex_task p
        else if prio km =? prio k then
          new_pri ← mutex_pri_look mutex_task None;
          km ← get_task mutex_task;
          if negb (new_pri =? prio km) then pri_change_loop fuel mutex_task new_pri else mret RHINO_SUCCESS
        else mret RHINO_SUCCESS
      else mret RHINO_SUCCESS) Q s.
Proof.
  intros IH Hwf HM Hk Hl Hp Hti Hid HX Hfuel Hne Hpend HQ.
  destruct (to_pend _ _ (wf_task s Hwf t k Hk) Hpend) as (o & b & Ho & Hb).
  kstep. kstep. kstep. apply (pend_list_reorder_wp t k o b p); [done..|].
  intros l' Hl' Hwf1. set (s1 := set_blks _ _) in *.
  assert (tasks s1 = <[t := set_prio p k]> (tasks s)) as Ht1 by done.
  assert (pframe s s1) as Hf.
  { apply (pframe_one s _ t k p); [done|done| |done]. intros o'. by apply blks_moved_rel. }
  assert (MIbase s1) as Hb1 by (by eapply pframe_MIbase; [|apply HM]).
  assert (tasks s1 !! t = Some (set_prio p k)) as Hk1 by apply lookup_insert_eq.
  assert (blks s1 !! o = Some (set_blk_list l' b)) as Hbo by apply lookup_insert_eq.
  do 3 kstep. eapply wp_deref; [exact Ho|]. do 2 kstep. cbn [obj_type set_blk_list].
  assert ((forall u, prio_inherited X s1 u) -> Q RHINO_SUCCESS s1) as Hdone.
  { intros Hall. apply HQ; [done|]. by eapply (raised_one _ _ t k). }
  case_decide as Hty.
  2: { kstep. apply Hdone. eapply step_done; [done..|]. intros o' [(b' & Hb' & ?) (k0 & Hk0 & _ & Ho')].
       rewrite Hk in Hk0. injection Hk0 as <-. rewrite Ho in Ho'. injection Ho' as <-.
       rewrite Hb in Hb'. injection Hb' as <-. done. }
  assert (waits s t o) as Hw by (split; [by exists b|by exists k]).
  destruct (mi_wait s (proj1 HM) t o Hw) as (tm & Hown & Htm). pose proof Hown as [_ (m & Hm & Hmt)].
  destruct (mi_owner s (proj1 HM) o tm Hown) as (Hmi & km & Hkm & Hlm).
  assert (tasks s1 !! tm = Some km) as Hkm1 by (rewrite Ht1; by rewrite lookup_insert_ne).
  kstep. eapply wp_get_mutex; [exact Hm|]. kstep. eapply wp_deref; [exact Hmt|]. do 2 kstep. cbn [prio set_prio].
  assert (forall p' s', MIx X s1 tm p' -> pri_done X s1 s' -> (p < prio k -> p < prio km -> p' = p) ->
    (p' < prio km -> raised_to p' s1 s') -> (p < prio k -> p < prio km) -> Q RHINO_SUCCESS s') as Hnext.
  { intros p' s' _ [? ? ? Hf'] Hpp Hr Hkk. apply HQ.
    - split; [done..|]. by eapply pframe_trans.
    - intros Hlt. rewrite (Hpp Hlt (Hkk Hlt)) in Hr. eapply raised_to_trans; [by eapply (raised_one _ _ t k)|]. by apply Hr, Hkk. }
  destruct (Z.ltb_spec p (prio km)) as [Hlt|Hge].
  - assert (MIx X s1 tm p) as HM1 by (by eapply step_raise).
    eapply (IH tm km); [done..|by eapply pframe_idle|by right| |].
    + pose proof (need_raise (tasks s) t k km p Hk Hne Hlt). rewrite Ht1. lia.
    + intros s' Hd Hr. eapply (Hnext p); try done.
  - destruct (Z.eqb_spec (prio km) (prio k)) as [Hold|Hold].
    + kstep. apply mutex_pri_look_wp with km; [done..|]. intros r Hr. do 2 kstep.
      destruct HX as [HX|HX]; [|lia].
      assert (MIx X s1 tm r) as HM1 by (split_and!; [done|by eapply step_others|by rewrite HX]).
      destruct (Z.eqb_spec r (prio km)) as [->|Hrne]; cbn [negb].
      * kstep. apply Hdone. intros u. destruct (decide (u = tm)) as [->|]; [|by apply HM1].
        intros k0 Hk0 _. rewrite Hkm1 in Hk0. injection Hk0 as <-. apply HM1.
      * eapply (IH tm km); [done..| |done|by eapply pframe_idle|by left| |].
        -- by eapply prio_ok_min.
        -- pose proof (need_lower (tasks s) t k km p r Hk Hne Hge Hold Hrne). rewrite Ht1. lia.
        -- intros s' Hd Hr'. eapply (Hnext r); try done; lia.
    + kstep. apply Hdone. by eapply step_keep.
Qed.

Lemma pri_change_loop_wp fuel : loop_spec fuel.
Proof.
  induction fuel as [|fuel IH]; intros t k p Q s Hwf HM Hk Hl Hp Hti Hid HX Hfuel HQ.
  { pose proof (need_pos (tasks s) k p). lia. }
  cbn [pri_change_loop]. do 2 kstep. destruct (Z.eqb_spec (prio k) p) as [Heq|Hne].
  { kstep. apply HQ; [|intros; lia]. split; [done|apply HM| |apply pframe_refl].
    intros u. destruct (decide (u = t)) as [->|]; [|by apply HM].
    intros k0 Hk0 _. rewrite Hk in Hk0. injection Hk0 as <-. rewrite Heq. apply HM. }
  assert (~ pending k -> task_state k <> K_RDY ->
    wp (upd_task t (set_prio p);; mret RHINO_SUCCESS) Q s) as Hplain.
  { intros. eapply pri_change_plain_wp; [done..|]. intros s' Hd Ht. apply HQ; [done|by eapply (raised_one _ _ t k)]. }
  unfold pending in Hplain. destruct (task_state k) eqn:Hst.
  all: try (apply Hplain; [by intros [?|?]|done]).
  all: try (eapply pri_change_pend_wp; [done..|unfold pending; tauto|done]).
  - exfalso. by apply (to_seed _ _ (wf_task s Hwf t k Hk)).
  - eapply pri_change_ready_wp; [done..|]. intros s' Hd Ht. apply HQ; [done|by eapply (raised_one _ _ t k)].
  - by destruct Hl.
Qed.

End walk.

(** ** [task_pri_change] and [mutex_release] *)

Lemma task_pri_change_wp X t k p (Q : kstat_t -> kstate -> Prop) s :
  WF s -> MIx X s t p -> tasks s !! t = Some k -> live k -> prio_ok p -> t <> g_idle_task -> idle_ready s ->
  (X = no_extra \/ p < prio k) ->
  (forall s', pri_done X s s' -> (p < prio k -> raised_to p s s') -> Q RHINO_SUCCESS s') ->
  wp (task_pri_change t p) Q s.
Proof.
  intros. unfold task_pri_change. do 2 kstep. eapply pri_change_loop_wp; [done..|apply need_fuel|done].
Qed.

(** The running task, without the inheritance part. *)
Lemma task_pri_change_ready_wp t k p (Q : kstat_t -> kstate -> Prop) s :
  WF s -> tasks s !! t = Some k -> task_state k = K_RDY -> prio_ok p -> t <> g_idle_task -> idle_ready s ->
  (forall rq', let s' := set_lists (<[t := set_prio p k]> (tasks s)) (blks s) (g_tick_head s) rq' s in
     WF s' -> Q RHINO_SUCCESS s') ->
  wp (task_pri_change t p) Q s.
Proof.
  intros Hwf Hk Hst Hp Hti Hid HQ. unfold task_pri_change. do 2 kstep. cbn [pri_fuel pri_change_loop]. do 2 kstep.
  destruct (Z.eqb_spec (prio k) p) as [E|E].
  - kstep. specialize (HQ (g_ready_queue s)). cbn in HQ.
    assert (set_prio p k = k) as Ek by (by rewrite <- E). rewrite Ek, insert_id in HQ by done. by apply HQ.
  - rewrite Hst. by eapply pri_change_ready_wf_wp.
Qed.

(** [MI] but possibly for [t]. *)
Definition MIe (s : kstate) (t : tid) : Prop :=
  MIbase s /\ forall u, u <> t -> prio_inherited no_extra s u.

Lemma mutex_release_none_wp t k (Q : unit -> kstate -> Prop) s :
  WF s -> MIe s t -> tasks s !! t = Some k -> live k -> t <> g_idle_task -> idle_ready s ->
  (forall s', pri_done no_extra s s' -> Q tt s') -> wp (mutex_release t None) Q s.
Proof.
  intros Hwf [Hb Ho] Hk Hl Hti Hid HQ. unfold mutex_release. kstep.
  apply mutex_pri_look_wp with k; [done..|]. intros r Hr. do 2 kstep.
  destruct (Z.eqb_spec r (prio k)) as [E|E]; cbn [negb].
  - kstep. apply HQ. split; [done|done| |apply pframe_refl].
    intros u. destruct (decide (u = t)) as [->|]; [|by apply Ho].
    intros k0 Hk0 _. rewrite Hk in Hk0. injection Hk0 as <-. by rewrite <- E.
  - kstep. eapply (task_pri_change_wp no_extra); [done|split_and!; done|done|done|by eapply prio_ok_min|done|done|by left|].
    intros s' Hd _. kstep. by apply HQ.
Qed.

(** ** Steps that do not concern mutexes *)

Definition mproj (k : ktask_t) : Z * Z * option oid * bool :=
  (prio k, b_prio k, mutex_list k, bool_decide (task_state k = K_DELETED)).

(** Owners and links of the mutexes. *)
Definition mlinks (ms : gmap oid kmutex_t) : gmap oid (option tid * option oid) :=
  (fun m => (mutex_task m, m_mutex_list m)) <$> ms.

Lemma mlinks_lookup ms ms' o m : mlinks ms' = mlinks ms -> ms !! o = Some m ->
  exists m', ms' !! o = Some m' /\ mutex_task m' = mutex_task m /\ m_mutex_list m' = m_mutex_list m.
Proof.
  intros E Hm. assert (mlinks ms' !! o = Some (mutex_task m, m_mutex_list m)) as Hl
    by (rewrite E; unfold mlinks; by rewrite lookup_fmap, Hm).
  unfold mlinks in Hl. rewrite lookup_fmap in Hl. destruct (ms' !! o) as [m'|]; [|done].
  injection Hl as ? ?. eauto.
Qed.

Lemma chain_mlinks ms ms' v l : mlinks ms' = mlinks ms -> chain ms v l -> chain ms' v l.
Proof.
  intros E. revert v. induction l as [|o l IH]; intros v; cbn; [done|]. intros (-> & m & Hm & Hc). split; [done|].
  destruct (mlinks_lookup ms ms' o m E Hm) as (m' & ? & _ & El). exists m'. rewrite El. auto.
Qed.

Record mi_equiv (s s' : kstate) : Prop := {
  me_mutexes : mlinks (mutexes s') = mlinks (mutexes s);
  me_types o b' : blks s' !! o = Some b' -> obj_type b' = RHINO_MUTEX_OBJ_TYPE ->
    exists b, blks s !! o = Some b /\ obj_type b = RHINO_MUTEX_OBJ_TYPE /\ blk_policy b' = blk_policy b;
  me_is_mutex o : is_mutex s o -> is_mutex s' o;
  me_tasks u : mproj <$> tasks s' !! u = mproj <$> tasks s !! u;
  me_waits w o : waits s' w o <-> waits s w o
}.

Lemma mproj_prio k k' : mproj k = mproj k' ->
  prio k = prio k' /\ b_prio k = b_prio k' /\ mutex_list k = mutex_list k' /\ (live k <-> live k').
Proof.
  unfold mproj, live. intros [= ? ? ? E]. split_and!; try done.
  apply not_iff_compat. rewrite <- (bool_decide_eq_true (task_state k = _)), <- (bool_decide_eq_true (task_state k' = _)). by rewrite E.
Qed.

Section mi_equiv.
Context (s s' : kstate) (He : mi_equiv s s').

Lemma me_task_inv u k' : tasks s' !! u = Some k' -> exists k, tasks s !! u = Some k /\ mproj k' = mproj k.
Proof.
  intros Hk. pose proof (me_tasks _ _ He u) as E. rewrite Hk in E.
  destruct (tasks s !! u) as [k|]; [|done]. exists k. split; [done|]. by apply (inj Some).
Qed.

Lemma me_task u k : tasks s !! u = Some k -> exists k', tasks s' !! u = Some k' /\ mproj k' = mproj k.
Proof.
  intros Hk. pose proof (me_tasks _ _ He u) as E. rewrite Hk in E.
  destruct (tasks s' !! u) as [k'|]; [|done]. exists k'. split; [done|]. by apply (inj Some).
Qed.

Lemma me_prio_of u : prio_of (tasks s') u = prio_of (tasks s) u.
Proof.
  pose proof (me_tasks _ _ He u) as E. unfold prio_of.
  destruct (tasks s' !! u) as [k'|], (tasks s !! u) as [k|]; try done. by injection E.
Qed.

Lemma me_mutex_iff o : is_mutex s' o <-> is_mutex s o.
Proof.
  split; [|apply (me_is_mutex _ _ He)].
  intros (b' & Hb' & Ht). destruct (me_types _ _ He o b' Hb' Ht) as (b & ? & ? & _). by exists b.
Qed.

Lemma me_owned o t : owned s' o t <-> owned s o t.
Proof.
  unfold owned. rewrite me_mutex_iff. split; intros [? (m & Hm & Ht)]; (split; [done|]).
  - destruct (mlinks_lookup _ _ o m (eq_sym (me_mutexes _ _ He)) Hm) as (m' & ? & E & _). exists m'. by rewrite E.
  - destruct (mlinks_lookup _ _ o m (me_mutexes _ _ He) Hm) as (m' & ? & E & _). exists m'. by rewrite E.
Qed.

Lemma me_MIbase : MIbase s -> MIbase s'.
Proof.
  intros [Hc Ho Hw Hm]. split.
  - intros t k' Hk' Hl. destruct (me_task_inv t k' Hk') as (k & Hk & E).
    destruct (mproj_prio _ _ E) as (_ & _ & El & Elive).
    destruct (Hc t k Hk) as (l & Hch & Hnd & Hown); [by apply Elive|]. exists l.
    rewrite El. split_and!; [by eapply chain_mlinks; [apply He|]|done|]. intros o. by rewrite me_owned.
  - intros o t Hown%me_owned. destruct (Ho o t Hown) as (? & k & Hk & Hl). split; [done|].
    destruct (me_task t k Hk) as (k' & Hk' & E). exists k'. split; [done|]. by apply (mproj_prio _ _ E).
  - intros w o (t & ? & ?)%(me_waits _ _ He)%Hw. exists t. by rewrite me_owned.
  - intros o b' Hb' Ht. destruct (me_types _ _ He o b' Hb' Ht) as (b & Hb & Htb & ->).
    destruct (Hm o b Hb Htb) as [? [m Hmo]]. split; [done|].
    destruct (mlinks_lookup _ _ o m (me_mutexes _ _ He) Hmo) as (m' & ? & _). eauto.
Qed.

Lemma me_eff X t q : eff X s' t q <-> eff X s t q.
Proof.
  unfold eff. split.
  - intros [(k' & Hk' & ->)|[(w & o & Ho & Hw & ->)|?]]; [left|right; left|by right; right].
    + destruct (me_task_inv t k' Hk') as (k & ? & E). exists k. split; [done|]. by destruct (mproj_prio _ _ E) as (_ & ? & _).
    + exists w, o. by rewrite <- me_owned, <- (me_waits _ _ He), me_prio_of.
  - intros [(k & Hk & ->)|[(w & o & Ho & Hw & ->)|?]]; [left|right; left|by right; right].
    + destruct (me_task t k Hk) as (k' & ? & E). exists k'. split; [done|]. by destruct (mproj_prio _ _ E) as (_ & ? & _).
    + exists w, o. by rewrite me_owned, (me_waits _ _ He), me_prio_of.
Qed.

Lemma me_inherited X t : prio_inherited X s t -> prio_inherited X s' t.
Proof.
  intros Hi k' Hk' Hl. destruct (me_task_inv t k' Hk') as (k & Hk & E).
  destruct (mproj_prio _ _ E) as (-> & _ & _ & Elive).
  apply (is_min_ext _ _ _ (me_eff X t)), Hi; [done|by apply Elive].
Qed.

Lemma me_MI : MI s -> MI s'.
Proof. intros [? ?]. split; [by apply me_MIbase|]. intros t. by apply me_inherited. Qed.

End mi_equiv.
