(* ===== verification/Sem.v ===== *)
(** * Semaphores ([rhino/core/k_sem.c], [rhino/core/k_task_sem.c]) *)

From S2P Require Import Prelude KErr KState KMonad Sched Pend.
Local Open Scope Z_scope.

Definition get_sem (o : oid) : K ksem_t := fun s => m ← sems s !! o; Some (m, s).

Definition upd_sem (o : oid) (f : ksem_t -> ksem_t) : K unit := fun s =>
  m ← sems s !! o; Some (tt, set_sems (<[o := f m]> (sems s)) s).

Lemma wp_get_sem o m (Q : ksem_t -> kstate -> Prop) s : sems s !! o = Some m -> Q m s -> wp (get_sem o) Q s.
Proof. unfold wp, get_sem. by intros ->. Qed.

Lemma wp_upd_sem o m f (Q : unit -> kstate -> Prop) s :
  sems s !! o = Some m -> Q tt (set_sems (<[o := f m]> (sems s)) s) -> wp (upd_sem o f) Q s.
Proof. unfold wp, upd_sem. by intros ->. Qed.

Definition sem_create (sem : option oid) (name : option Z) (count : Z) (mm_alloc_flag : Z) : K kstat_t :=
  NULL_PARA_CHK id sem (fun o =>
  NULL_PARA_CHK id name (fun name =>
  modify (fun s => set_blks (<[o := mk_blk [] name BLK_POLICY_PRI RHINO_SEM_OBJ_TYPE]> (blks s)) s);;
  modify (fun s => set_sems (<[o := mk_sem count count mm_alloc_flag]> (sems s)) s);;
  mret RHINO_SUCCESS)).

Definition krhino_sem_create (sem : option oid) (name : option Z) (count : Z) : K kstat_t :=
  sem_create sem name count K_OBJ_STATIC_ALLOC.

Section port.
Context `{CpuPort}.

Definition krhino_sem_del (sem : option oid) : K kstat_t :=
  NULL_PARA_CHK id sem (fun o =>
  cpsr ← RHINO_CRITICAL_ENTER;
  INTRPT_NESTED_LEVEL_CHK id cpsr (
  b ← get_blk o;
  if negb (bool_decide (obj_type b = RHINO_SEM_OBJ_TYPE)) then critical_return cpsr RHINO_KOBJ_TYPE_ERR
  else
    m ← get_sem o;
    if negb (sem_mm_flag m =? K_OBJ_STATIC_ALLOC) then critical_return cpsr RHINO_KOBJ_DEL_ERR
    else
      upd_blk o (set_obj_type RHINO_OBJ_TYPE_NONE);;
      blk_wake_all o pend_task_rm;;
      RHINO_CRITICAL_EXIT_SCHED cpsr;;
      mret RHINO_SUCCESS)).

Definition sem_give (o : oid) (opt_wake_all : bool) : K kstat_t :=
  cpsr ← RHINO_CRITICAL_ENTER;
  b ← get_blk o;
  if negb (bool_decide (obj_type b = RHINO_SEM_OBJ_TYPE)) then critical_return cpsr RHINO_KOBJ_TYPE_ERR
  else
    match blk_list b with
    | [] =>
        m ← get_sem o;
        if sem_count m =? wrap sem_count_bits (-1) then critical_return cpsr RHINO_SEM_OVF
        else
          upd_sem o (set_sem_count (wrap sem_count_bits (sem_count m + 1)));;
          m ← get_sem o;
          (if peak_count m <? sem_count m then upd_sem o (set_peak_count (sem_count m)) else mret tt);;
          critical_return cpsr RHINO_SUCCESS
    | t :: _ =>
        (if opt_wake_all then blk_wake_all o pend_task_wakeup else pend_task_wakeup t);;
        RHINO_CRITICAL_EXIT_SCHED cpsr;;
        mret RHINO_SUCCESS
    end.

Definition krhino_sem_give (sem : option oid) : K kstat_t :=
  NULL_PARA_CHK id sem (fun o => sem_give o false).

Definition krhino_sem_give_all (sem : option oid) : K kstat_t :=
  NULL_PARA_CHK id sem (fun o => sem_give o true).

(** Up to the point where the caller is blocked; [pend_resume] is the rest. *)
Definition krhino_sem_take (sem : option oid) (ticks : Z) : K call_res :=
  NULL_PARA_CHK Ret sem (fun o =>
  cpsr ← RHINO_CRITICAL_ENTER;
  INTRPT_NESTED_LEVEL_CHK Ret cpsr (
  b ← get_blk o;
  if negb (bool_decide (obj_type b = RHINO_SEM_OBJ_TYPE)) then critical_return cpsr (Ret RHINO_KOBJ_TYPE_ERR)
  else
    m ← get_sem o;
    if 0 <? sem_count m then
      upd_sem o (set_sem_count (wrap sem_count_bits (sem_count m - 1)));;
      critical_return cpsr (Ret RHINO_SUCCESS)
    else if ticks =? RHINO_NO_WAIT then critical_return cpsr (Ret RHINO_NO_PEND_WAIT)
    else
      lock ← gets g_sched_lock;
      if 0 <? lock then critical_return cpsr (Ret RHINO_SCHED_DISABLE)
      else
        a ← cur_task;
        pend_to_blk_obj o a ticks;;
        RHINO_CRITICAL_EXIT_SCHED cpsr;;
        mret Blocked)).

Definition krhino_sem_count_set (sem : option oid) (count : Z) : K kstat_t :=
  NULL_PARA_CHK id sem (fun o =>
  cpsr ← RHINO_CRITICAL_ENTER;
  INTRPT_NESTED_LEVEL_CHK id cpsr (
  b ← get_blk o;
  if negb (bool_decide (obj_type b = RHINO_SEM_OBJ_TYPE)) then critical_return cpsr RHINO_KOBJ_TYPE_ERR
  else
    m ← get_sem o;
    if (0 <? sem_count m) || bool_decide (blk_list b = []) then
      upd_sem o (set_sem_count count);;
      m ← get_sem o;
      (if peak_count m <? sem_count m then upd_sem o (set_peak_count (sem_count m)) else mret tt);;
      critical_return cpsr RHINO_SUCCESS
    else critical_return cpsr RHINO_SEM_TASK_WAITING)).

(** The count is the out parameter. *)
Definition krhino_sem_count_get (sem : option oid) (count : option unit) : K (kstat_t * option Z) :=
  NULL_PARA_CHK (fun r => (r, None)) sem (fun o =>
  NULL_PARA_CHK (fun r => (r, None)) count (fun _ =>
  cpsr ← RHINO_CRITICAL_ENTER;
  m ← get_sem o;
  RHINO_CRITICAL_EXIT cpsr;;
  mret (RHINO_SUCCESS, Some (sem_count m)))).

(** ** Task semaphores *)

Definition krhino_task_sem_create (task : option tid) (sem : option oid) (name : option Z) (count : Z) : K kstat_t :=
  NULL_PARA_CHK id task (fun t =>
  ret ← krhino_sem_create sem name count;
  upd_task t (set_task_sem_obj (if bool_decide (ret = RHINO_SUCCESS) then sem else None));;
  mret ret).

Definition krhino_task_sem_del (task : option tid) : K kstat_t :=
  NULL_PARA_CHK id task (fun t => k ← get_task t; krhino_sem_del (task_sem_obj k)).

Definition krhino_task_sem_give (task : option tid) : K kstat_t :=
  NULL_PARA_CHK id task (fun t => k ← get_task t; krhino_sem_give (task_sem_obj k)).

Definition krhino_task_sem_take (ticks : Z) : K call_res :=
  a ← cur_task; k ← get_task a; krhino_sem_take (task_sem_obj k) ticks.

Definition krhino_task_sem_count_set (task : option tid) (count : Z) : K kstat_t :=
  NULL_PARA_CHK id task (fun t => k ← get_task t; krhino_sem_count_set (task_sem_obj k) count).

Definition krhino_task_sem_count_get (task : option tid) (count : option unit) : K (kstat_t * option Z) :=
  NULL_PARA_CHK (fun r => (r, None)) task (fun t => k ← get_task t; krhino_sem_count_get (task_sem_obj k) count).

End port.
