(* ===== verification/Task.v ===== *)
(** * Tasks ([rhino/core/k_task.c])

    Creation, deletion, sleeping, suspension, priorities and the small
    accessors.  [krhino_task_stack_min_free] and [krhino_task_stack_cur_free],
    which inspect stack memory, are not modelled. *)

From S2P Require Import Prelude KErr KState KMonad Sched Pend Mutex Sem.
Local Open Scope Z_scope.

(** [memset(task, 0, sizeof(ktask_t))]. *)
Definition zero_task : ktask_t :=
  mk_task 0 0 (replicate (Z.to_nat RHINO_CONFIG_TASK_INFO_NUM) 0) 0 0 0 None 0 0 false 0 0 K_SEED BLK_FINISH
    None None 0 0 0 0 0 0 0 0 0 0.

(** The semaphore [g_res_sem] of the resource collector. *)
Definition g_res_sem : oid := 0%nat.

Section port.
Context `{CpuPort}.

(** The control block filled in by [task_create]. *)
Definition new_task (name arg pri ticks stack_buf size entry autorun flag cpu : Z) : ktask_t :=
  let total := if 0 <? ticks then u32 ticks else RHINO_CONFIG_TIME_SLICE_DEFAULT in
  let k := set_sched_policy KSCHED_RR (set_time_slice total (set_time_total total zero_task)) in
  let k := if 0 <? autorun then set_task_state K_RDY k
           else set_suspend_count 1 (set_task_state K_SUSPENDED k) in
  let k := set_task_stack_base stack_buf k in
  let k := set_cpu_num cpu (set_mm_alloc_flag flag (set_stack_size size
             (set_b_prio pri (set_prio pri (set_task_name name k))))) in
  set_task_stack (cpu_task_stack_init stack_buf size arg entry) k.

(** The two critical sections of the C function are one step here: the control
    block is private to the caller in between. *)
Definition task_create (task : option tid) (name : option Z) (arg : Z) (pri ticks : Z) (stack_buf : option Z)
    (size : Z) (entry : option Z) (autorun : Z) (flag cpu : Z) : K kstat_t :=
  NULL_PARA_CHK id task (fun t =>
  NULL_PARA_CHK id name (fun name =>
  NULL_PARA_CHK id entry (fun entry =>
  NULL_PARA_CHK id stack_buf (fun stack_buf =>
  if size =? 0 then mret RHINO_TASK_INV_STACK_SIZE
  else if RHINO_CONFIG_PRI_MAX <=? pri then mret RHINO_BEYOND_MAX_PRI
  else
  cpsr ← RHINO_CRITICAL_ENTER;
  INTRPT_NESTED_LEVEL_CHK id cpsr (
  spawned ← gets g_idle_task_spawned;
  if (pri =? RHINO_IDLE_PRI) && (0 <? spawned) then critical_return cpsr RHINO_IDLE_TASK_EXIST
  else
    (if pri =? RHINO_IDLE_PRI then modify (set_g_idle_task_spawned 1) else mret tt);;
    RHINO_CRITICAL_EXIT cpsr;;
    modify (fun s => set_tasks (<[t := new_task name arg pri ticks stack_buf size entry autorun flag cpu]> (tasks s)) s);;
    cpsr ← RHINO_CRITICAL_ENTER;
    (if 0 <? autorun then
       ready_list_add_tail t;;
       st ← gets g_sys_stat;
       if bool_decide (st = RHINO_RUNNING) then RHINO_CRITICAL_EXIT_SCHED cpsr else RHINO_CRITICAL_EXIT cpsr
     else RHINO_CRITICAL_EXIT cpsr);;
    mret RHINO_SUCCESS))))).

Definition krhino_task_create (task : option tid) (name : option Z) (arg : Z) (pri ticks : Z)
    (stack_buf : option Z) (size : Z) (entry : option Z) (autorun : Z) : K kstat_t :=
  task_create task name arg pri ticks stack_buf size entry autorun K_OBJ_STATIC_ALLOC 0.

(** Up to the point where the caller sleeps; [pend_resume] is the rest. *)
Definition krhino_task_sleep (ticks : Z) : K call_res :=
  if ticks =? 0 then mret (Ret RHINO_INV_PARAM)
  else
  cpsr ← RHINO_CRITICAL_ENTER;
  INTRPT_NESTED_LEVEL_CHK Ret cpsr (
  lock ← gets g_sched_lock;
  if 0 <? lock then critical_return cpsr (Ret RHINO_SCHED_DISABLE)
  else
    a ← cur_task;
    upd_task a (set_task_state K_SLEEP);;
    tick_list_insert a ticks;;
    ready_list_rm a;;
    RHINO_CRITICAL_EXIT_SCHED cpsr;;
    mret Blocked).

Definition krhino_task_yield : K kstat_t :=
  cpsr ← RHINO_CRITICAL_ENTER;
  a ← cur_task;
  ready_list_head_to_tail a;;
  RHINO_CRITICAL_EXIT_SCHED cpsr;;
  mret RHINO_SUCCESS.

Definition krhino_cur_task_get : K (option tid) :=
  cpsr ← RHINO_CRITICAL_ENTER;
  t ← gets g_active_task;
  RHINO_CRITICAL_EXIT cpsr;;
  mret t.

Definition task_suspend (task : tid) : K kstat_t :=
  cpsr ← RHINO_CRITICAL_ENTER;
  a ← gets g_active_task;
  lock ← gets g_sched_lock;
  if bool_decide (Some task = a) && (0 <? lock) then critical_return cpsr RHINO_SCHED_DISABLE
  else
    k ← get_task task;
    match task_state k with
    | K_RDY =>
        upd_task task (set_suspend_count 1);;
        upd_task task (set_task_state K_SUSPENDED);;
        ready_list_rm task;;
        RHINO_CRITICAL_EXIT_SCHED cpsr;; mret RHINO_SUCCESS
    | K_SLEEP =>
        upd_task task (set_suspend_count 1);;
        upd_task task (set_task_state K_SLEEP_SUSPENDED);;
        RHINO_CRITICAL_EXIT_SCHED cpsr;; mret RHINO_SUCCESS
    | K_PEND =>
        upd_task task (set_suspend_count 1);;
        upd_task task (set_task_state K_PEND_SUSPENDED);;
        RHINO_CRITICAL_EXIT_SCHED cpsr;; mret RHINO_SUCCESS
    | K_SUSPENDED | K_SLEEP_SUSPENDED | K_PEND_SUSPENDED =>
        if suspend_count k =? wrap suspend_nested_bits (-1) then critical_return cpsr RHINO_SUSPENDED_COUNT_OVF
        else
          upd_task task (set_suspend_count (wrap suspend_nested_bits (suspend_count k + 1)));;
          RHINO_CRITICAL_EXIT_SCHED cpsr;; mret RHINO_SUCCESS
    | _ => critical_return cpsr RHINO_INV_TASK_STATE
    end.

Definition krhino_task_suspend (task : option tid) : K kstat_t :=
  NULL_PARA_CHK id task (fun t =>
  k ← get_task t;
  if prio k =? RHINO_IDLE_PRI then mret RHINO_TASK_SUSPEND_NOT_ALLOWED else task_suspend t).

Definition task_resume (task : tid) : K kstat_t :=
  cpsr ← RHINO_CRITICAL_ENTER;
  k ← get_task task;
  match task_state k with
  | K_RDY | K_SLEEP | K_PEND => critical_return cpsr RHINO_TASK_NOT_SUSPENDED
  | K_SUSPENDED =>
      upd_task task (set_suspend_count (wrap suspend_nested_bits (suspend_count k - 1)));;
      k ← get_task task;
      (if suspend_count k =? 0 then upd_task task (set_task_state K_RDY);; ready_list_add task else mret tt);;
      RHINO_CRITICAL_EXIT_SCHED cpsr;; mret RHINO_SUCCESS
  | K_SLEEP_SUSPENDED =>
      upd_task task (set_suspend_count (wrap suspend_nested_bits (suspend_count k - 1)));;
      k ← get_task task;
      (if suspend_count k =? 0 then upd_task task (set_task_state K_SLEEP) else mret tt);;
      RHINO_CRITICAL_EXIT_SCHED cpsr;; mret RHINO_SUCCESS
  | K_PEND_SUSPENDED =>
      upd_task task (set_suspend_count (wrap suspend_nested_bits (suspend_count k - 1)));;
      k ← get_task task;
      (if suspend_count k =? 0 then upd_task task (set_task_state K_PEND) else mret tt);;
      RHINO_CRITICAL_EXIT_SCHED cpsr;; mret RHINO_SUCCESS
  | _ => critical_return cpsr RHINO_INV_TASK_STATE
  end.

Definition krhino_task_resume (task : option tid) : K kstat_t :=
  NULL_PARA_CHK id task (fun t => task_resume t).

(** The old priority is the out parameter. *)
Definition krhino_task_pri_change (task : option tid) (pri : Z) (old_pri : option unit) : K (kstat_t * option Z) :=
  let ret r := (r, None) in
  NULL_PARA_CHK ret task (fun t =>
  NULL_PARA_CHK ret old_pri (fun _ =>
  k ← get_task t;
  if RHINO_IDLE_PRI <=? prio k then mret (ret RHINO_PRI_CHG_NOT_ALLOWED)
  else if RHINO_IDLE_PRI <=? pri then mret (ret RHINO_PRI_CHG_NOT_ALLOWED)
  else if bool_decide (task_state k = K_DELETED) then mret (ret RHINO_INV_TASK_STATE)
  else
  cpsr ← RHINO_CRITICAL_ENTER;
  INTRPT_NESTED_LEVEL_CHK ret cpsr (
  pri_limit ← mutex_pri_limit t pri;
  upd_task t (set_b_prio pri);;
  k ← get_task t;
  error ← task_pri_change t pri_limit;
  if negb (bool_decide (error = RHINO_SUCCESS)) then critical_return cpsr (error, Some (prio k))
  else
    RHINO_CRITICAL_EXIT_SCHED cpsr;;
    mret (RHINO_SUCCESS, Some (prio k))))).

Definition krhino_task_wait_abort (task : option tid) : K kstat_t :=
  NULL_PARA_CHK id task (fun t =>
  cpsr ← RHINO_CRITICAL_ENTER;
  INTRPT_NESTED_LEVEL_CHK id cpsr (
  k ← get_task t;
  match task_state k with
  | K_RDY => RHINO_CRITICAL_EXIT_SCHED cpsr;; mret RHINO_SUCCESS
  | K_SUSPENDED =>
      upd_task t (set_task_state K_RDY);;
      ready_list_add t;;
      RHINO_CRITICAL_EXIT_SCHED cpsr;; mret RHINO_SUCCESS
  | K_SLEEP | K_SLEEP_SUSPENDED =>
      tick_list_rm t;;
      ready_list_add t;;
      upd_task t (set_task_state K_RDY);;
      upd_task t (set_blk_state BLK_ABORT);;
      RHINO_CRITICAL_EXIT_SCHED cpsr;; mret RHINO_SUCCESS
  | K_PEND_SUSPENDED | K_PEND =>
      tick_list_rm t;;
      task_list_rm t;;
      ready_list_add t;;
      upd_task t (set_task_state K_RDY);;
      upd_task t (set_blk_state BLK_ABORT);;
      mutex_task_pri_reset t;;
      upd_task t (set_blk_obj None);;
      RHINO_CRITICAL_EXIT_SCHED cpsr;; mret RHINO_SUCCESS
  | _ => critical_return cpsr RHINO_INV_TASK_STATE
  end)).

(** ** Deletion *)

(** One round per mutex held. *)
Fixpoint mutex_free_loop (fuel : nat) (next_mutex : option oid) : K unit :=
  match next_mutex, fuel with
  | None, _ => mret tt
  | Some _, O => undef
  | Some o, S fuel =>
      m ← get_mutex o;
      let next_mutex := m_mutex_list m in
      b ← get_blk o;
      match blk_list b with
      | next_task :: _ =>
          pend_task_wakeup next_task;;
          upd_mutex o (set_mutex_task (Some next_task));;
          k ← get_task next_task;
          upd_mutex o (set_m_mutex_list (mutex_list k));;
          upd_task next_task (set_mutex_list (Some o))
      | [] => upd_mutex o (set_mutex_task None)
      end;;
      mutex_free_loop fuel next_mutex
  end.

Definition task_mutex_free (task : tid) : K unit :=
  k ← get_task task;
  fuel ← gets mutex_fuel;
  mutex_free_loop fuel (mutex_list k).

(** The final switch of both deletions; [bad] is what its default case does. *)
Definition task_del_unlink (task : tid) (bad : K bool) : K bool :=
  k ← get_task task;
  match task_state k with
  | K_RDY =>
      ready_list_rm task;;
      upd_task task (set_task_state K_DELETED);; mret true
  | K_SUSPENDED => upd_task task (set_task_state K_DELETED);; mret true
  | K_SLEEP | K_SLEEP_SUSPENDED =>
      tick_list_rm task;;
      upd_task task (set_task_state K_DELETED);; mret true
  | K_PEND | K_PEND_SUSPENDED =>
      tick_list_rm task;;
      task_list_rm task;;
      upd_task task (set_task_state K_DELETED);;
      mutex_task_pri_reset task;; mret true
  | _ => bad
  end.

(** The early return for the idle task does not leave the critical section. *)
Definition krhino_task_del (task : option tid) : K kstat_t :=
  cpsr ← RHINO_CRITICAL_ENTER;
  INTRPT_NESTED_LEVEL_CHK id cpsr (
  t ← (match task with Some t => mret t | None => cur_task end);
  k ← get_task t;
  if prio k =? RHINO_IDLE_PRI then mret RHINO_TASK_DEL_NOT_ALLOWED
  else if negb (mm_alloc_flag k =? K_OBJ_STATIC_ALLOC) then critical_return cpsr RHINO_KOBJ_DEL_ERR
  else
    a ← gets g_active_task;
    lock ← gets g_sched_lock;
    if bool_decide (Some t = a) && (0 <? lock) then critical_return cpsr RHINO_SCHED_DISABLE
    else
      task_mutex_free t;;
      ok ← task_del_unlink t (mret false);
      if (ok : bool) then RHINO_CRITICAL_EXIT_SCHED cpsr;; mret RHINO_SUCCESS
      else critical_return cpsr RHINO_INV_TASK_STATE).

(** The resources of the task are queued for [dyn_mem_proc_task]: the record of
    what to free lives in the stack of the deleted task, so [g_res_list] lists
    tasks. *)
Definition krhino_task_dyn_del (task : option tid) : K kstat_t :=
  cpsr ← RHINO_CRITICAL_ENTER;
  INTRPT_NESTED_LEVEL_CHK id cpsr (
  t ← (match task with Some t => mret t | None => cur_task end);
  k ← get_task t;
  if prio k =? RHINO_IDLE_PRI then critical_return cpsr RHINO_TASK_DEL_NOT_ALLOWED
  else if negb (mm_alloc_flag k =? K_OBJ_DYN_ALLOC) then critical_return cpsr RHINO_KOBJ_DEL_ERR
  else
    a ← gets g_active_task;
    lock ← gets g_sched_lock;
    if bool_decide (Some t = a) && (0 <? lock) then critical_return cpsr RHINO_SCHED_DISABLE
    else if bool_decide (task_state k = K_DELETED) then critical_return cpsr RHINO_INV_TASK_STATE
    else
      modify (fun s => set_g_sched_lock (u8 (g_sched_lock s + 1)) s);;
      modify (fun s => set_g_res_list (g_res_list s ++ [t]) s);;
      ret ← krhino_sem_give (Some g_res_sem);
      modify (fun s => set_g_sched_lock (u8 (g_sched_lock s - 1)) s);;
      if negb (bool_decide (ret = RHINO_SUCCESS)) then
        RHINO_CRITICAL_EXIT cpsr;;
        k_err_proc RHINO_SYS_SP_ERR;;
        mret ret
      else
        task_mutex_free t;;
        task_del_unlink t (mret true);;
        RHINO_CRITICAL_EXIT_SCHED cpsr;;
        mret RHINO_SUCCESS).

Definition krhino_task_deathbed : K kstat_t :=
  t ← krhino_cur_task_get;
  t ← deref t;
  k ← get_task t;
  if mm_alloc_flag k =? K_OBJ_DYN_ALLOC then krhino_task_dyn_del None else krhino_task_del None.

(** ** Accessors *)

Definition krhino_task_time_slice_set (task : option tid) (slice : Z) : K kstat_t :=
  NULL_PARA_CHK id task (fun t =>
  cpsr ← RHINO_CRITICAL_ENTER;
  INTRPT_NESTED_LEVEL_CHK id cpsr (
  upd_task t (set_time_total (if 0 <? slice then u32 slice else RHINO_CONFIG_TIME_SLICE_DEFAULT));;
  upd_task t (fun k => set_time_slice (time_total k) k);;
  critical_return cpsr RHINO_SUCCESS)).

Definition krhino_sched_policy_set (task : option tid) (policy : Z) : K kstat_t :=
  NULL_PARA_CHK id task (fun t =>
  if negb (policy =? KSCHED_FIFO) && negb (policy =? KSCHED_RR) then mret RHINO_INV_SCHED_WAY
  else
  cpsr ← RHINO_CRITICAL_ENTER;
  INTRPT_NESTED_LEVEL_CHK id cpsr (
  upd_task t (set_sched_policy policy);;
  critical_return cpsr RHINO_SUCCESS)).

Definition krhino_sched_policy_get (task : option tid) (policy : option unit) : K (kstat_t * option Z) :=
  NULL_PARA_CHK (fun r => (r, None)) task (fun t =>
  NULL_PARA_CHK (fun r => (r, None)) policy (fun _ =>
  cpsr ← RHINO_CRITICAL_ENTER;
  INTRPT_NESTED_LEVEL_CHK (fun r => (r, None)) cpsr (
  k ← get_task t;
  critical_return cpsr (RHINO_SUCCESS, Some (sched_policy k))))).

Definition krhino_task_info_set (task : option tid) (idx info : Z) : K kstat_t :=
  NULL_PARA_CHK id task (fun t =>
  if RHINO_CONFIG_TASK_INFO_NUM <=? idx then mret RHINO_INV_PARAM
  else
  cpsr ← RHINO_CPU_INTRPT_DISABLE;
  k ← get_task t;
  l ← deref (arr_set (user_info k) idx info);
  upd_task t (set_user_info l);;
  RHINO_CPU_INTRPT_ENABLE cpsr;;
  mret RHINO_SUCCESS).

Definition krhino_task_info_get (task : option tid) (idx : Z) (info : option unit) : K (kstat_t * option Z) :=
  NULL_PARA_CHK (fun r => (r, None)) task (fun t =>
  NULL_PARA_CHK (fun r => (r, None)) info (fun _ =>
  if RHINO_CONFIG_TASK_INFO_NUM <=? idx then mret (RHINO_INV_PARAM, None)
  else
  k ← get_task t;
  v ← deref (arr_get (user_info k) idx);
  mret (RHINO_SUCCESS, Some v))).

End port.
