(* ===== verification/Event.v ===== *)
(** * Event flags ([rhino/core/k_event.c])

    A waiting task records the flags it wants, how, and the address where the
    flags that released it are stored. *)

From S2P Require Import Prelude KErr KState KMonad Sched Pend Mutex.
Local Open Scope Z_scope.

Definition RHINO_FLAGS_AND_MASK : Z := 0x2.

Definition RHINO_FLAGS_CLEAR_MASK : Z := 0x1.

Definition RHINO_AND : Z := 0x02.

Definition RHINO_AND_CLEAR : Z := 0x03.

Definition RHINO_OR : Z := 0x00.

Definition RHINO_OR_CLEAR : Z := 0x01.

Definition get_event (o : oid) : K kevent_t := fun s => e ← events s !! o; Some (e, s).

Definition upd_event (o : oid) (f : kevent_t -> kevent_t) : K unit := fun s =>
  e ← events s !! o; Some (tt, set_events (<[o := f e]> (events s)) s).

(** [*addr = v] for a word of the callers. *)
Definition store_word (addr v : Z) : K unit := modify (fun s => set_words (<[addr := v]> (words s)) s).

Lemma wp_get_event o e (Q : kevent_t -> kstate -> Prop) s : events s !! o = Some e -> Q e s -> wp (get_event o) Q s.
Proof. unfold wp, get_event. by intros ->. Qed.

Lemma wp_upd_event o e f (Q : unit -> kstate -> Prop) s :
  events s !! o = Some e -> Q tt (set_events (<[o := f e]> (events s)) s) -> wp (upd_event o f) Q s.
Proof. unfold wp, upd_event. by intros ->. Qed.

Definition event_create (event : option oid) (name : option Z) (flags : Z) (mm_alloc_flag : Z) : K kstat_t :=
  NULL_PARA_CHK id event (fun o =>
  NULL_PARA_CHK id name (fun name =>
  modify (fun s => set_blks (<[o := mk_blk [] name BLK_POLICY_PRI RHINO_EVENT_OBJ_TYPE]> (blks s)) s);;
  modify (fun s => set_events (<[o := mk_event flags mm_alloc_flag]> (events s)) s);;
  mret RHINO_SUCCESS)).

Definition krhino_event_create (event : option oid) (name : option Z) (flags : Z) : K kstat_t :=
  event_create event name flags K_OBJ_STATIC_ALLOC.

(** Are the wanted [flags] present among [cur], all of them or any of them? *)
Definition flags_met (opt cur flags : Z) : bool :=
  if negb (Z.land opt RHINO_FLAGS_AND_MASK =? 0) then Z.land cur flags =? flags
  else 0 <? Z.land cur flags.

(** [iter->next] on the wait list of the event; [None] is the list head. *)
Fixpoint event_set_loop (fuel : nat) (o : oid) (cur_event_flags : Z) (iter : option tid) : K unit :=
  match iter, fuel with
  | None, _ => mret tt
  | Some _, O => undef
  | Some task, S fuel =>
      b ← get_blk o;
      iter_temp ← deref (next_in task (blk_list b));
      k ← get_task task;
      (if flags_met (pend_option k) cur_event_flags (pend_flags k) then
         store_word (pend_info k) cur_event_flags;;
         pend_task_wakeup task;;
         k ← get_task task;
         if negb (Z.land (pend_option k) RHINO_FLAGS_CLEAR_MASK =? 0)
         then upd_event o (fun e => set_ev_flags (Z.land (ev_flags e) (u32 (Z.lnot (pend_flags k)))) e)
         else mret tt
       else mret tt);;
      event_set_loop fuel o cur_event_flags iter_temp
  end.

Section port.
Context `{CpuPort}.

Definition krhino_event_del (event : option oid) : K kstat_t :=
  NULL_PARA_CHK id event (fun o =>
  cpsr ← RHINO_CRITICAL_ENTER;
  INTRPT_NESTED_LEVEL_CHK id cpsr (
  b ← get_blk o;
  if negb (bool_decide (obj_type b = RHINO_EVENT_OBJ_TYPE)) then critical_return cpsr RHINO_KOBJ_TYPE_ERR
  else
    e ← get_event o;
    if negb (ev_mm_flag e =? K_OBJ_STATIC_ALLOC) then critical_return cpsr RHINO_KOBJ_DEL_ERR
    else
      upd_blk o (set_obj_type RHINO_OBJ_TYPE_NONE);;
      blk_wake_all o pend_task_rm;;
      upd_event o (set_ev_flags 0);;
      RHINO_CRITICAL_EXIT_SCHED cpsr;;
      mret RHINO_SUCCESS)).

(** Up to the point where the caller is blocked; [pend_resume] is the rest. *)
Definition krhino_event_get (event : option oid) (flags opt : Z) (actl_flags : option Z) (ticks : Z) : K call_res :=
  NULL_PARA_CHK Ret event (fun o =>
  NULL_PARA_CHK Ret actl_flags (fun addr =>
  if negb (opt =? RHINO_AND) && negb (opt =? RHINO_OR) && negb (opt =? RHINO_AND_CLEAR) && negb (opt =? RHINO_OR_CLEAR)
  then mret (Ret RHINO_NO_THIS_EVENT_OPT)
  else
  cpsr ← RHINO_CRITICAL_ENTER;
  INTRPT_NESTED_LEVEL_CHK Ret cpsr (
  b ← get_blk o;
  if negb (bool_decide (obj_type b = RHINO_EVENT_OBJ_TYPE)) then critical_return cpsr (Ret RHINO_KOBJ_TYPE_ERR)
  else
    e ← get_event o;
    if flags_met opt (ev_flags e) flags then
      store_word addr (ev_flags e);;
      (if negb (Z.land opt RHINO_FLAGS_CLEAR_MASK =? 0)
       then upd_event o (fun e => set_ev_flags (Z.land (ev_flags e) (u32 (Z.lnot flags))) e) else mret tt);;
      critical_return cpsr (Ret RHINO_SUCCESS)
    else if ticks =? RHINO_NO_WAIT then critical_return cpsr (Ret RHINO_NO_PEND_WAIT)
    else
      lock ← gets g_sched_lock;
      if 0 <? lock then critical_return cpsr (Ret RHINO_SCHED_DISABLE)
      else
        a ← cur_task;
        upd_task a (set_pend_option opt);;
        upd_task a (set_pend_flags flags);;
        upd_task a (set_pend_info addr);;
        pend_to_blk_obj o a ticks;;
        RHINO_CRITICAL_EXIT_SCHED cpsr;;
        mret Blocked))).

Definition event_set (o : oid) (flags opt : Z) : K kstat_t :=
  cpsr ← RHINO_CRITICAL_ENTER;
  b ← get_blk o;
  if negb (bool_decide (obj_type b = RHINO_EVENT_OBJ_TYPE)) then critical_return cpsr RHINO_KOBJ_TYPE_ERR
  else if negb (Z.land opt RHINO_FLAGS_AND_MASK =? 0) then
    upd_event o (fun e => set_ev_flags (Z.land (ev_flags e) flags) e);;
    critical_return cpsr RHINO_SUCCESS
  else
    upd_event o (fun e => set_ev_flags (Z.lor (ev_flags e) flags) e);;
    e ← get_event o;
    event_set_loop (length (blk_list b)) o (ev_flags e) (head (blk_list b));;
    RHINO_CRITICAL_EXIT_SCHED cpsr;;
    mret RHINO_SUCCESS.

Definition krhino_event_set (event : option oid) (flags opt : Z) : K kstat_t :=
  NULL_PARA_CHK id event (fun o =>
  if negb (opt =? RHINO_AND) && negb (opt =? RHINO_OR) then mret RHINO_NO_THIS_EVENT_OPT
  else event_set o flags opt).

End port.
