(* ===== verification/Queue.v ===== *)
(** * Message queues ([rhino/core/k_queue.c])

    A queue of pointer-sized messages over a fixed-block ring buffer.  A pointer
    is 4 bytes, little-endian. *)

From S2P Require Import Prelude KErr RingBuf KState KMonad Sched Pend.
Local Open Scope Z_scope.

(** [sizeof(void * )] *)
Definition PTR_SIZE : Z := 4.

Definition get_queue (o : oid) : K kqueue_t := fun s => q ← queues s !! o; Some (q, s).

Definition upd_queue (o : oid) (f : kqueue_t -> kqueue_t) : K unit := fun s =>
  q ← queues s !! o; Some (tt, set_queues (<[o := f q]> (queues s)) s).

Lemma wp_get_queue o q (Q : kqueue_t -> kstate -> Prop) s : queues s !! o = Some q -> Q q s -> wp (get_queue o) Q s.
Proof. unfold wp, get_queue. by intros ->. Qed.

Lemma wp_upd_queue o q f (Q : unit -> kstate -> Prop) s :
  queues s !! o = Some q -> Q tt (set_queues (<[o := f q]> (queues s)) s) -> wp (upd_queue o f) Q s.
Proof. unfold wp, upd_queue. by intros ->. Qed.

Definition task_msg_recv (task : tid) (m : Z) : K unit :=
  upd_task task (set_msg m);;
  pend_task_wakeup task.

(** [start]: the address of the message storage and its bytes. *)
Definition queue_create (queue : option oid) (name : option Z) (start : option (Z * list Z)) (msg_num : Z)
    (mm_alloc_flag : Z) : K kstat_t :=
  NULL_PARA_CHK id queue (fun o =>
  NULL_PARA_CHK id start (fun start =>
  NULL_PARA_CHK id name (fun name =>
  if msg_num =? 0 then mret RHINO_INV_PARAM
  else
    modify (fun s => set_blks (<[o := mk_blk [] name BLK_POLICY_PRI RHINO_QUEUE_OBJ_TYPE]> (blks s)) s);;
    let rb := snd (ringbuf_init (snd start) (u32 (msg_num * PTR_SIZE)) RINGBUF_TYPE_FIX PTR_SIZE) in
    modify (fun s => set_queues (<[o := mk_queue rb (fst start) msg_num 0 0 mm_alloc_flag]> (queues s)) s);;
    mret RHINO_SUCCESS))).

Definition krhino_queue_create (queue : option oid) (name : option Z) (start : option (Z * list Z)) (msg_num : Z)
  : K kstat_t := queue_create queue name start msg_num K_OBJ_STATIC_ALLOC.

Section port.
Context `{CpuPort}.

Definition krhino_queue_del (queue : option oid) : K kstat_t :=
  NULL_PARA_CHK id queue (fun o =>
  cpsr ← RHINO_CRITICAL_ENTER;
  INTRPT_NESTED_LEVEL_CHK id cpsr (
  b ← get_blk o;
  if negb (bool_decide (obj_type b = RHINO_QUEUE_OBJ_TYPE)) then critical_return cpsr RHINO_KOBJ_TYPE_ERR
  else
    q ← get_queue o;
    if negb (q_mm_flag q =? K_OBJ_STATIC_ALLOC) then critical_return cpsr RHINO_KOBJ_DEL_ERR
    else
      upd_blk o (set_obj_type RHINO_OBJ_TYPE_NONE);;
      blk_wake_all o pend_task_rm;;
      upd_queue o (fun q => set_q_ringbuf (snd (ringbuf_reset (q_ringbuf q))) q);;
      RHINO_CRITICAL_EXIT_SCHED cpsr;;
      mret RHINO_SUCCESS)).

Definition msg_send (p_q : option oid) (p_void : Z) (opt_wake_all : bool) : K kstat_t :=
  NULL_PARA_CHK id p_q (fun o =>
  cpsr ← RHINO_CRITICAL_ENTER;
  b ← get_blk o;
  if negb (bool_decide (obj_type b = RHINO_QUEUE_OBJ_TYPE)) then critical_return cpsr RHINO_KOBJ_TYPE_ERR
  else
    q ← get_queue o;
    if q_size q <=? q_cur_num q then critical_return cpsr RHINO_QUEUE_FULL
    else
      match blk_list b with
      | [] =>
          upd_queue o (set_q_cur_num (q_cur_num q + 1));;
          q ← get_queue o;
          (if q_peak_num q <? q_cur_num q then upd_queue o (set_q_peak_num (q_cur_num q)) else mret tt);;
          '(_, rb) ← deref (ringbuf_push (q_ringbuf q) (u32_bytes p_void) PTR_SIZE);
          upd_queue o (set_q_ringbuf rb);;
          critical_return cpsr RHINO_SUCCESS
      | t :: _ =>
          (if opt_wake_all then blk_wake_all o (fun t => task_msg_recv t p_void) else task_msg_recv t p_void);;
          RHINO_CRITICAL_EXIT_SCHED cpsr;;
          mret RHINO_SUCCESS
      end).

Definition krhino_queue_back_send (queue : option oid) (m : Z) : K kstat_t := msg_send queue m false.

Definition krhino_queue_all_send (queue : option oid) (m : Z) : K kstat_t := msg_send queue m true.

(** The second component is what is stored through [msg]; 0 is NULL. *)
Definition krhino_queue_recv (queue : option oid) (ticks : Z) (pmsg : option unit) : K (call_res * option Z) :=
  let ret r := (Ret r, None) in
  NULL_PARA_CHK ret queue (fun o =>
  NULL_PARA_CHK ret pmsg (fun _ =>
  cpsr ← RHINO_CRITICAL_ENTER;
  lvl ← gets g_intrpt_nested_level;
  if (0 <? lvl) && negb (ticks =? RHINO_NO_WAIT) then critical_return cpsr (ret RHINO_NOT_CALLED_BY_INTRPT)
  else
  b ← get_blk o;
  if negb (bool_decide (obj_type b = RHINO_QUEUE_OBJ_TYPE)) then critical_return cpsr (ret RHINO_KOBJ_TYPE_ERR)
  else
    q ← get_queue o;
    if 0 <? q_cur_num q then
      '(_, out, rb) ← deref (ringbuf_pop (q_ringbuf q));
      upd_queue o (set_q_ringbuf rb);;
      upd_queue o (set_q_cur_num (q_cur_num q - 1));;
      critical_return cpsr (Ret RHINO_SUCCESS, (fun d => u32_of_bytes (fst d)) <$> out)
    else if ticks =? RHINO_NO_WAIT then critical_return cpsr (Ret RHINO_NO_PEND_WAIT, Some 0)
    else
      lock ← gets g_sched_lock;
      if 0 <? lock then critical_return cpsr (Ret RHINO_SCHED_DISABLE, Some 0)
      else
        a ← cur_task;
        pend_to_blk_obj o a ticks;;
        RHINO_CRITICAL_EXIT_SCHED cpsr;;
        mret (Blocked, None))).

(** The rest of a blocked receive. *)
Definition queue_recv_resume : K (kstat_t * Z) :=
  cpsr ← RHINO_CPU_INTRPT_DISABLE;
  a ← cur_task;
  ret ← pend_state_end_proc a;
  k ← get_task a;
  RHINO_CPU_INTRPT_ENABLE cpsr;;
  mret (ret, if bool_decide (ret = RHINO_SUCCESS) then msg k else 0).

Definition krhino_queue_is_full (queue : option oid) : K kstat_t :=
  NULL_PARA_CHK id queue (fun o =>
  cpsr ← RHINO_CRITICAL_ENTER;
  b ← get_blk o;
  if negb (bool_decide (obj_type b = RHINO_QUEUE_OBJ_TYPE)) then critical_return cpsr RHINO_KOBJ_TYPE_ERR
  else
    q ← get_queue o;
    critical_return cpsr (if q_size q <=? q_cur_num q then RHINO_QUEUE_FULL else RHINO_QUEUE_NOT_FULL)).

Definition krhino_queue_flush (queue : option oid) : K kstat_t :=
  NULL_PARA_CHK id queue (fun o =>
  cpsr ← RHINO_CRITICAL_ENTER;
  INTRPT_NESTED_LEVEL_CHK id cpsr (
  b ← get_blk o;
  if negb (bool_decide (obj_type b = RHINO_QUEUE_OBJ_TYPE)) then critical_return cpsr RHINO_KOBJ_TYPE_ERR
  else
    upd_queue o (set_q_cur_num 0);;
    upd_queue o (fun q => set_q_ringbuf (snd (ringbuf_reset (q_ringbuf q))) q);;
    critical_return cpsr RHINO_SUCCESS)).

(** [info->msg_q] and whether [info->pend_entry] is a waiting task. *)
Record msg_info_t := mk_msg_info {
  i_peak_num : Z;
  i_cur_num : Z;
  i_queue_start : Z;
  i_size : Z;
  i_pend_entry : option tid
}.

Definition krhino_queue_info_get (queue : option oid) (info : option unit) : K (kstat_t * option msg_info_t) :=
  let ret r := (r, None) in
  NULL_PARA_CHK ret queue (fun o =>
  NULL_PARA_CHK ret info (fun _ =>
  cpsr ← RHINO_CPU_INTRPT_DISABLE;
  b ← get_blk o;
  if negb (bool_decide (obj_type b = RHINO_QUEUE_OBJ_TYPE)) then critical_return cpsr (ret RHINO_KOBJ_TYPE_ERR)
  else
    q ← get_queue o;
    critical_return cpsr (RHINO_SUCCESS,
      Some (mk_msg_info (q_peak_num q) (q_cur_num q) (queue_start q) (q_size q) (head (blk_list b)))))).

End port.
