(* ===== verification/BufQueue.v ===== *)
(** * Buffer queues ([rhino/core/k_buf_queue.c])

    A queue of byte messages over a ring buffer.  A blocked receiver leaves the
    address of its buffer in its control block and the sender copies into it;
    the buffers of the receivers are the arrays of [bytes]. *)

From S2P Require Import Prelude KErr CircBuf RingBuf KState KMonad Sched Pend.
Local Open Scope Z_scope.

Definition get_bufq (o : oid) : K kbuf_queue_t := fun s => q ← bufqs s !! o; Some (q, s).

Definition upd_bufq (o : oid) (f : kbuf_queue_t -> kbuf_queue_t) : K unit := fun s =>
  q ← bufqs s !! o; Some (tt, set_bufqs (<[o := f q]> (bufqs s)) s).

Lemma wp_get_bufq o q (Q : kbuf_queue_t -> kstate -> Prop) s : bufqs s !! o = Some q -> Q q s -> wp (get_bufq o) Q s.
Proof. unfold wp, get_bufq. by intros ->. Qed.

Lemma wp_upd_bufq o q f (Q : unit -> kstate -> Prop) s :
  bufqs s !! o = Some q -> Q tt (set_bufqs (<[o := f q]> (bufqs s)) s) -> wp (upd_bufq o f) Q s.
Proof. unfold wp, upd_bufq. by intros ->. Qed.

(** [memcpy(addr, data, length data)] into a receiver's buffer. *)
Definition store_bytes (addr : Z) (data : list Z) : K unit :=
  bs ← gets bytes;
  buf ← deref (bs !! addr);
  buf ← deref (splice buf 0 data);
  modify (set_bytes (<[addr := buf]> bs)).

(** [buf]: the address of the storage and its bytes. *)
Definition buf_queue_create (queue : option oid) (name : option Z) (buf : option (Z * list Z)) (size max_msg : Z)
    (mm_alloc_flag type : Z) : K kstat_t :=
  NULL_PARA_CHK id queue (fun o =>
  NULL_PARA_CHK id buf (fun buf =>
  NULL_PARA_CHK id name (fun name =>
  if max_msg =? 0 then mret RHINO_INV_PARAM
  else if size =? 0 then mret RHINO_BUF_QUEUE_SIZE_ZERO
  else
    modify (fun s => set_blks (<[o := mk_blk [] name BLK_POLICY_PRI RHINO_BUF_QUEUE_OBJ_TYPE]> (blks s)) s);;
    let rb := snd (ringbuf_init (snd buf) size type max_msg) in
    modify (fun s => set_bufqs
      (<[o := mk_bufq (fst buf) rb max_msg 0 0 (rb_freesize rb) mm_alloc_flag]> (bufqs s)) s);;
    mret RHINO_SUCCESS))).

Definition krhino_buf_queue_create (queue : option oid) (name : option Z) (buf : option (Z * list Z))
    (size max_msg : Z) : K kstat_t :=
  buf_queue_create queue name buf size max_msg K_OBJ_STATIC_ALLOC RINGBUF_TYPE_DYN.

Definition krhino_fix_buf_queue_create (queue : option oid) (name : option Z) (buf : option (Z * list Z))
    (msg_size msg_num : Z) : K kstat_t :=
  buf_queue_create queue name buf (u32 (msg_size * msg_num)) msg_size K_OBJ_STATIC_ALLOC RINGBUF_TYPE_FIX.

Section port.
Context `{CpuPort}.

Definition krhino_buf_queue_del (queue : option oid) : K kstat_t :=
  NULL_PARA_CHK id queue (fun o =>
  cpsr ← RHINO_CRITICAL_ENTER;
  INTRPT_NESTED_LEVEL_CHK id cpsr (
  b ← get_blk o;
  if negb (bool_decide (obj_type b = RHINO_BUF_QUEUE_OBJ_TYPE)) then critical_return cpsr RHINO_KOBJ_TYPE_ERR
  else
    q ← get_bufq o;
    if negb (bq_mm_flag q =? K_OBJ_STATIC_ALLOC) then critical_return cpsr RHINO_KOBJ_DEL_ERR
    else
      upd_blk o (set_obj_type RHINO_OBJ_TYPE_NONE);;
      blk_wake_all o pend_task_rm;;
      upd_bufq o (fun q => set_bq_ringbuf (snd (ringbuf_reset (bq_ringbuf q))) q);;
      RHINO_CRITICAL_EXIT_SCHED cpsr;;
      mret RHINO_SUCCESS)).

(** [m] is the memory at [msg]; [msg_size] bytes of it are the message. *)
Definition buf_queue_send (o : oid) (m : list Z) (msg_size : Z) : K kstat_t :=
  cpsr ← RHINO_CRITICAL_ENTER;
  b ← get_blk o;
  if negb (bool_decide (obj_type b = RHINO_BUF_QUEUE_OBJ_TYPE)) then critical_return cpsr RHINO_KOBJ_TYPE_ERR
  else
    q ← get_bufq o;
    if max_msg_size q <? msg_size then critical_return cpsr RHINO_BUF_QUEUE_MSG_SIZE_OVERFLOW
    else if msg_size =? 0 then critical_return cpsr RHINO_INV_PARAM
    else
      match blk_list b with
      | [] =>
          '(err, rb) ← deref (ringbuf_push (bq_ringbuf q) m msg_size);
          upd_bufq o (set_bq_ringbuf rb);;
          if negb (bool_decide (err = RHINO_SUCCESS)) then
            critical_return cpsr (if bool_decide (err = RHINO_RINGBUF_FULL) then RHINO_BUF_QUEUE_FULL else err)
          else
            upd_bufq o (fun q => set_bq_cur_num (bq_cur_num q + 1) q);;
            q ← get_bufq o;
            (if bq_peak_num q <? bq_cur_num q then upd_bufq o (set_bq_peak_num (bq_cur_num q)) else mret tt);;
            (if rb_freesize (bq_ringbuf q) <? min_free_buf_size q
             then upd_bufq o (set_min_free_buf_size (rb_freesize (bq_ringbuf q))) else mret tt);;
            critical_return cpsr RHINO_SUCCESS
      | task :: _ =>
          k ← get_task task;
          d ← deref (slice m 0 msg_size);
          store_bytes (msg k) d;;
          upd_task task (set_bq_msg_size msg_size);;
          pend_task_wakeup task;;
          RHINO_CRITICAL_EXIT_SCHED cpsr;;
          mret RHINO_SUCCESS
      end.

Definition krhino_buf_queue_send (queue : option oid) (m : option (list Z)) (size : Z) : K kstat_t :=
  NULL_PARA_CHK id queue (fun o =>
  NULL_PARA_CHK id m (fun m => buf_queue_send o m size)).

(** [msg] is the address of the receiver's buffer; the second component is what
    is stored through [size]. *)
Definition krhino_buf_queue_recv (queue : option oid) (ticks : Z) (addr : option Z) (psize : option unit)
  : K (call_res * option Z) :=
  let ret r := (Ret r, None) in
  NULL_PARA_CHK ret queue (fun o =>
  NULL_PARA_CHK ret addr (fun addr =>
  NULL_PARA_CHK ret psize (fun _ =>
  cpsr ← RHINO_CRITICAL_ENTER;
  lvl ← gets g_intrpt_nested_level;
  if (0 <? lvl) && negb (ticks =? RHINO_NO_WAIT) then critical_return cpsr (ret RHINO_NOT_CALLED_BY_INTRPT)
  else
  b ← get_blk o;
  if negb (bool_decide (obj_type b = RHINO_BUF_QUEUE_OBJ_TYPE)) then critical_return cpsr (ret RHINO_KOBJ_TYPE_ERR)
  else
    q ← get_bufq o;
    if negb (ringbuf_is_empty (bq_ringbuf q)) then
      '(_, out, rb) ← deref (ringbuf_pop (bq_ringbuf q));
      match out with
      | Some (d, _) => store_bytes addr d
      | None => mret tt
      end;;
      upd_bufq o (set_bq_ringbuf rb);;
      upd_bufq o (fun q => set_bq_cur_num (bq_cur_num q - 1) q);;
      critical_return cpsr (Ret RHINO_SUCCESS, snd <$> out)
    else if ticks =? RHINO_NO_WAIT then critical_return cpsr (Ret RHINO_NO_PEND_WAIT, Some 0)
    else
      lock ← gets g_sched_lock;
      if 0 <? lock then critical_return cpsr (Ret RHINO_SCHED_DISABLE, Some 0)
      else
        a ← cur_task;
        upd_task a (set_msg addr);;
        pend_to_blk_obj o a ticks;;
        RHINO_CRITICAL_EXIT_SCHED cpsr;;
        mret (Blocked, None)))).

(** The rest of a blocked receive. *)
Definition buf_queue_recv_resume : K (kstat_t * Z) :=
  cpsr ← RHINO_CPU_INTRPT_DISABLE;
  a ← cur_task;
  ret ← pend_state_end_proc a;
  k ← get_task a;
  RHINO_CPU_INTRPT_ENABLE cpsr;;
  mret (ret, if bool_decide (ret = RHINO_SUCCESS) then bq_msg_size k else 0).

Definition krhino_buf_queue_flush (queue : option oid) : K kstat_t :=
  NULL_PARA_CHK id queue (fun o =>
  cpsr ← RHINO_CRITICAL_ENTER;
  INTRPT_NESTED_LEVEL_CHK id cpsr (
  b ← get_blk o;
  if negb (bool_decide (obj_type b = RHINO_BUF_QUEUE_OBJ_TYPE)) then critical_return cpsr RHINO_KOBJ_TYPE_ERR
  else
    upd_bufq o (fun q => set_bq_ringbuf (snd (ringbuf_reset (bq_ringbuf q))) q);;
    upd_bufq o (set_bq_cur_num 0);;
    upd_bufq o (set_bq_peak_num 0);;
    upd_bufq o (fun q => set_min_free_buf_size (rb_freesize (bq_ringbuf q)) q);;
    critical_return cpsr RHINO_SUCCESS)).

Record kbuf_queue_info_t := mk_bufq_info {
  i_buf_size : Z;
  i_max_msg_size : Z;
  i_bq_cur_num : Z;
  i_bq_peak_num : Z;
  i_free_buf_size : Z;
  i_min_free_buf_size : Z
}.

Definition krhino_buf_queue_info_get (queue : option oid) (info : option unit)
  : K (kstat_t * option kbuf_queue_info_t) :=
  let ret r := (r, None) in
  NULL_PARA_CHK ret queue (fun o =>
  NULL_PARA_CHK ret info (fun _ =>
  cpsr ← RHINO_CRITICAL_ENTER;
  b ← get_blk o;
  if negb (bool_decide (obj_type b = RHINO_BUF_QUEUE_OBJ_TYPE)) then critical_return cpsr (ret RHINO_KOBJ_TYPE_ERR)
  else
    q ← get_bufq o;
    critical_return cpsr (RHINO_SUCCESS,
      Some (mk_bufq_info (rb_end (bq_ringbuf q)) (max_msg_size q) (bq_cur_num q) (bq_peak_num q)
              (rb_freesize (bq_ringbuf q)) (min_free_buf_size q))))).

End port.
