(* ===== verification/Inv.v ===== *)
(** * The kernel invariant

    [CI] is what holds whenever the kernel is not inside a list operation:
    well-formed lists, inherited priorities, a ready idle task and a tick list
    sorted by remaining time.  [Inv] adds the objects, the scheduler lock and that
    the top ready task runs; it holds at the boundary of every call. *)

From S2P Require Import Prelude KErr RingBuf KState KMonad Sched Pend KInv Mutex PriInv Event Queue.
Local Open Scope Z_scope.

(** ** The tick list *)

(** Ticks left before the timeout of a task. *)
Definition tick_rem (s : kstate) (k : ktask_t) : Z := u64 (tick_match k - g_tick_count s).

Definition rem_of (s : kstate) (t : tid) : Z :=
  match tasks s !! t with Some k => tick_rem s k | None => 0 end.

(** Sorted, with every timeout in the future and within half the range of the
    counter, where signed and unsigned comparison agree. *)
Record tick_inv (s : kstate) : Prop := {
  ti_sorted : StronglySorted (fun x y => rem_of s x <= rem_of s y) (g_tick_head s);
  ti_range t k : tasks s !! t = Some k -> tick_head k = true -> 0 < tick_rem s k < 2 ^ 63
}.

Definition timeout_ok (ticks : Z) : Prop := 0 <= ticks < 2 ^ 63 \/ ticks = RHINO_WAIT_FOREVER.

Record CI (s : kstate) : Prop := {
  ci_wf : WF s;
  ci_mi : MI s;
  ci_tick : tick_inv s;
  ci_idle : exists ki, tasks s !! g_idle_task = Some ki /\ task_state ki = K_RDY /\ b_prio ki = RHINO_IDLE_PRI;
  ci_active : exists a ka, g_active_task s = Some a /\ tasks s !! a = Some ka
}.

(** ** Wait-list bookkeeping that leaves object types alone *)

Definition blk_types (bl : gmap oid blk_obj_t) : gmap oid (kobj_type_t * blk_policy_t) :=
  (fun b => (obj_type b, blk_policy b)) <$> bl.

Lemma blk_types_without t o bl : blk_types (blk_without t o bl) = blk_types bl.
Proof.
  unfold blk_types, blk_without. apply map_eq. intros o'. rewrite !lookup_fmap.
  destruct (decide (o = o')) as [->|]; [rewrite lookup_alter_eq|by rewrite lookup_alter_ne].
  by destruct (bl !! o').
Qed.

Lemma blk_types_list o b l bl : bl !! o = Some b -> blk_types (<[o := set_blk_list l b]> bl) = blk_types bl.
Proof.
  intros Hb. unfold blk_types. rewrite fmap_insert. apply insert_id. by rewrite lookup_fmap, Hb.
Qed.

Lemma blk_types_lookup bl bl' o b' :
  blk_types bl' = blk_types bl -> bl' !! o = Some b' ->
  exists b, bl !! o = Some b /\ obj_type b = obj_type b' /\ blk_policy b = blk_policy b'.
Proof.
  intros E Hb'. assert (blk_types bl !! o = Some (obj_type b', blk_policy b')) as Hl.
  { rewrite <- E. unfold blk_types. by rewrite lookup_fmap, Hb'. }
  unfold blk_types in Hl. rewrite lookup_fmap in Hl. destruct (bl !! o) as [b|]; [|done].
  injection Hl as ? ?. eauto.
Qed.

Lemma is_mutex_types s s' o : blk_types (blks s') = blk_types (blks s) -> is_mutex s' o <-> is_mutex s o.
Proof.
  intros E. split; intros (b & Hb & Ht);
    [destruct (blk_types_lookup _ _ _ _ E Hb) as (b' & ? & ? & _)
    |destruct (blk_types_lookup _ _ _ _ (eq_sym E) Hb) as (b' & ? & ? & _)]; exists b'; split; [done|congruence..].
Qed.

(** ** One task changes *)

Lemma mi_equiv_one s s' t k k' :
  tasks s !! t = Some k -> tasks s' = <[t := k']> (tasks s) -> mutexes s' = mutexes s ->
  blk_types (blks s') = blk_types (blks s) -> mproj k' = mproj k ->
  (forall o, is_mutex s o -> in_blk o k' <-> in_blk o k) -> mi_equiv s s'.
Proof.
  intros Hk Ht Hm Hb Hp Hin. split; [by rewrite Hm|..].
  - intros o b' Hb' Hty. destruct (blk_types_lookup _ _ _ _ Hb Hb') as (b & ? & ? & ?). exists b. split_and!; congruence.
  - intros o. by apply is_mutex_types.
  - intros u. rewrite Ht. destruct (decide (u = t)) as [->|]; [|by rewrite lookup_insert_ne].
    rewrite lookup_insert_eq, Hk. cbn. by rewrite Hp.
  - intros w o. unfold waits. rewrite (is_mutex_types s s' o Hb). split; intros [Hmu (kw & Hkw & Hi)]; (split; [done|]).
    + rewrite Ht in Hkw. apply lookup_insert_Some in Hkw as [[<- <-]|[? ?]]; [exists k|by exists kw].
      split; [done|]. by apply Hin.
    + rewrite Ht. destruct (decide (w = t)) as [->|]; [exists k'|exists kw; by rewrite lookup_insert_ne].
      rewrite lookup_insert_eq. split; [done|]. apply Hin; [done|]. by simplify_eq.
Qed.

Lemma rem_of_ne s s' t k' u :
  tasks s' = <[t := k']> (tasks s) -> g_tick_count s' = g_tick_count s -> u <> t -> rem_of s' u = rem_of s u.
Proof. intros Ht Hc Hu. unfold rem_of, tick_rem. by rewrite Ht, Hc, lookup_insert_ne. Qed.

Lemma sorted_ext {A} (f g : A -> Z) l :
  (forall x, x ∈ l -> g x = f x) -> StronglySorted (fun x y => f x <= f y) l -> StronglySorted (fun x y => g x <= g y) l.
Proof.
  intros He. induction 1 as [|x l Hl IH Hx]; constructor.
  - apply IH. set_solver.
  - rewrite Forall_forall in *. intros y Hy. rewrite !He by set_solver. by apply Hx.
Qed.

Lemma sorted_rm (f : tid -> Z) t l :
  StronglySorted (fun x y => f x <= f y) l -> StronglySorted (fun x y => f x <= f y) (list_rm t l).
Proof.
  unfold list_rm. induction 1 as [|x l Hl IH Hx]; [constructor|].
  rewrite filter_cons. case_decide; [|done]. constructor; [done|].
  rewrite Forall_forall in *. intros y Hy%list_elem_of_filter. apply Hx, Hy.
Qed.

Section tick_step.
Context (s s' : kstate) (t : tid) (k' : ktask_t).
Context (Hi : tick_inv s) (Ht : tasks s' = <[t := k']> (tasks s)) (Hc : g_tick_count s' = g_tick_count s).

Lemma tick_inv_keep k :
  tasks s !! t = Some k -> tick_head k' = tick_head k -> tick_match k' = tick_match k ->
  g_tick_head s' = g_tick_head s -> tick_inv s'.
Proof.
  intros Hk Hh Hm Hl. assert (forall u, rem_of s' u = rem_of s u) as E.
  { intros u. destruct (decide (u = t)) as [->|]; [|by eapply rem_of_ne].
    unfold rem_of, tick_rem. by rewrite Ht, lookup_insert_eq, Hk, Hm, Hc. }
  split.
  - rewrite Hl. eapply sorted_ext; [|apply Hi]. done.
  - intros u ku. rewrite Ht, lookup_insert_Some. unfold tick_rem. rewrite Hc. intros [[<- <-]|[? Hu]] Hth.
    + rewrite Hm. rewrite Hh in Hth. exact (ti_range s Hi t k Hk Hth).
    + exact (ti_range s Hi u ku Hu Hth).
Qed.

Lemma tick_inv_leave :
  tick_head k' = false -> g_tick_head s' = list_rm t (g_tick_head s) -> tick_inv s'.
Proof.
  intros Hh Hl. split.
  - rewrite Hl. eapply sorted_ext; [|apply sorted_rm, Hi].
    intros u [_ Hu]%list_rm_spec. by eapply rem_of_ne.
  - intros u ku. rewrite Ht, lookup_insert_Some. unfold tick_rem. rewrite Hc. intros [[<- <-]|[? Hu]] Hth.
    + congruence.
    + exact (ti_range s Hi u ku Hu Hth).
Qed.

Lemma tick_inv_enter time :
  list_ok (tasks s) in_tick (g_tick_head s) -> t ∉ g_tick_head s -> 0 < time < 2 ^ 63 ->
  tick_match k' = u64 (g_tick_count s + time) ->
  tick_added (tasks s) (g_tick_count s) time t (g_tick_head s) (g_tick_head s') -> tick_inv s'.
Proof.
  intros Hlo Hnot Htime Hm Hadd.
  assert (tick_rem s' k' = time) as Hr.
  { unfold tick_rem. rewrite Hm, Hc. unfold u64. rewrite wrap_sub_l, Z.add_simpl_l. apply wrap_small. lia. }
  assert (rem_of s' t = time) as Hrt by (unfold rem_of; by rewrite Ht, lookup_insert_eq).
  split.
  - eapply (scan_insert_sorted (rem_of s') _ t); [|exact Hadd|].
    + intros x Hx. rewrite Hrt. assert (x <> t) by (intros ->; done). rewrite (rem_of_ne s s' t k') by done.
      apply (proj2 Hlo) in Hx as (kx & Hkx & _). unfold rem_of. rewrite Hkx. done.
    + eapply sorted_ext; [|apply Hi]. intros x Hx. eapply rem_of_ne; [done..|]. set_solver.
  - intros u ku. rewrite Ht, lookup_insert_Some. intros [[<- <-]|[? Hu]] Hth; [lia|].
    unfold tick_rem. rewrite Hc. exact (ti_range s Hi u ku Hu Hth).
Qed.

End tick_step.

(** [CI] from the parts that a step of one task leaves to show. *)
Lemma ci_step s s' t k k' :
  CI s -> tasks s !! t = Some k -> tasks s' = <[t := k']> (tasks s) -> mutexes s' = mutexes s ->
  blk_types (blks s') = blk_types (blks s) -> mproj k' = mproj k ->
  (forall o, is_mutex s o -> in_blk o k' <-> in_blk o k) ->
  g_active_task s' = g_active_task s -> (t = g_idle_task -> task_state k' = K_RDY) ->
  WF s' -> tick_inv s' -> CI s'.
Proof.
  intros HI Hk Ht Hm Hb Hp Hin Ha Hidle Hwf Htick. split; [done| |done|..].
  - eapply me_MI; [|apply HI]. by eapply mi_equiv_one.
  - destruct (ci_idle s HI) as (ki & Hki & Hr & Hbp). rewrite Ht. destruct (decide (t = g_idle_task)) as [->|].
    + exists k'. rewrite lookup_insert_eq. split_and!; [done|by apply Hidle|].
      rewrite Hk in Hki. injection Hki as <-. by destruct (mproj_prio _ _ Hp) as (_ & -> & _).
    + exists ki. by rewrite lookup_insert_ne.
  - destruct (ci_active s HI) as (a & ka & Haa & Hka). rewrite Ha, Ht. exists a.
    destruct (decide (t = a)) as [->|]; [exists k'|exists ka]; (split; [done|]);
      [apply lookup_insert_eq|by rewrite lookup_insert_ne].
Qed.

(** ** Fields the invariant does not depend on *)

Lemma wf_same s s' :
  tasks s' = tasks s -> blks s' = blks s -> g_ready_queue s' = g_ready_queue s -> g_tick_head s' = g_tick_head s ->
  WF s -> WF s'.
Proof.
  intros Ht Hb Hr Hk [? ? ? ? Htk]. split; rewrite ?Ht, ?Hb, ?Hr, ?Hk; try done.
  intros t k Hl. eapply task_ok_dom; [|by apply (Htk t)]. by rewrite Hb.
Qed.

Lemma mi_same s s' :
  tasks s' = tasks s -> blks s' = blks s -> mutexes s' = mutexes s -> mi_equiv s s'.
Proof.
  intros Ht Hb Hm. split; [by rewrite Hm|..]; unfold waits, is_mutex; rewrite ?Ht, ?Hb; try done. eauto.
Qed.

Lemma ci_same s s' :
  tasks s' = tasks s -> blks s' = blks s -> g_ready_queue s' = g_ready_queue s -> g_tick_head s' = g_tick_head s ->
  g_tick_count s' = g_tick_count s -> mutexes s' = mutexes s ->
  (exists a ka, g_active_task s' = Some a /\ tasks s' !! a = Some ka) -> CI s -> CI s'.
Proof.
  intros Ht Hb Hr Hk Hc Hm Ha [Hwf Hmi [Hs Hrg] Hi _]. split; try done.
  - by eapply wf_same.
  - eapply me_MI; [by apply mi_same|done].
  - split; [rewrite Hk; eapply sorted_ext; [|exact Hs]; intros; unfold rem_of|]; unfold tick_rem; by rewrite ?Ht, ?Hc.
  - by rewrite Ht.
Qed.

Lemma ci_irq b s : CI s -> CI (set_irq_off b s).
Proof. intros HI. apply (ci_same s); [reflexivity..|apply HI|done]. Qed.

(** ** Rescheduling *)

Definition postponed (s : kstate) : bool := (0 <? g_intrpt_nested_level s) || (0 <? g_sched_lock s).

(** The first task of the most urgent non-empty ring. *)
Definition top_task (s : kstate) : option tid := head (rql (g_ready_queue s) (highest_pri (g_ready_queue s))).

(** What [core_sched] does: nothing when postponed, else the top task becomes the
    active one, with the stack pointer of the outgoing task stored if it changes. *)
Definition resched (s s' : kstate) : Prop :=
  if postponed s then s' = s
  else exists ts', s' = set_g_active_task (top_task s) (set_g_preferred_ready_task (top_task s) (set_tasks ts' s)) /\
    (ts' = tasks s \/ exists sp a, ts' = alter (set_task_stack sp) a (tasks s)).

Lemma ci_top s : CI s -> exists t k, top_task s = Some t /\ tasks s !! t = Some k /\
  task_state k = K_RDY /\ prio k = highest_pri (g_ready_queue s).
Proof.
  intros HI. pose proof (ci_wf s HI) as Hwf. destruct (ci_idle s HI) as (ki & Hki & Hr & _).
  assert (g_idle_task ∈ rql (g_ready_queue s) (prio ki)) as Hin
    by (by eapply list_ok_in; [apply (wf_ready s Hwf)|..]).
  destruct (rqo_highest _ (wf_rq s Hwf)) as [Hne|[_ Hall]]; [|rewrite Hall in Hin; set_solver].
  unfold top_task. destruct (rql _ (highest_pri _)) as [|t l] eqn:E; [done|]. exists t.
  assert (t ∈ rql (g_ready_queue s) (highest_pri (g_ready_queue s))) as Ht by (rewrite E; set_solver).
  apply (proj2 (wf_ready s Hwf _)) in Ht as (k & ? & ? & ?). by exists k.
Qed.

Lemma preferred_get_wp (Q : unit -> kstate -> Prop) s :
  CI s -> Q tt (set_g_preferred_ready_task (top_task s) s) -> wp preferred_cpu_ready_task_get Q s.
Proof.
  intros HI HQ. unfold preferred_cpu_ready_task_get. do 3 kstep.
  apply cur_item_wp; [apply (ci_wf s HI)| |by kstep].
  destruct (ci_top s HI) as (t & k & _ & Hk & _ & E).
  pose proof (to_prio _ _ (wf_task s (ci_wf s HI) t k Hk)) as Hp. by rewrite E in Hp.
Qed.

Lemma switch_resched s sp :
  postponed s = false ->
  resched s (set_irq_off (irq_off s) (switched sp (set_g_preferred_ready_task (top_task s) (set_irq_off true s)))).
Proof.
  intros Hp. unfold resched. rewrite Hp. unfold switched. cbn. destruct (g_active_task s) as [a|].
  - eexists. split; [|right; by exists sp, a]. done.
  - exists (tasks s). split; [done|by left].
Qed.

Lemma stay_resched s :
  postponed s = false -> top_task s = g_active_task s ->
  resched s (set_irq_off (irq_off s) (set_g_preferred_ready_task (top_task s) (set_irq_off true s))).
Proof.
  intros Hp Ha. unfold resched. rewrite Hp. exists (tasks s). split; [|by left]. by rewrite Ha.
Qed.

Section port.
Context `{CpuPort}.

Lemma core_sched_wp (Q : unit -> kstate -> Prop) s :
  CI s -> (forall s', resched s s' -> Q tt s') -> wp core_sched Q s.
Proof.
  intros HI HQ. assert (postponed s = true -> Q tt s) as Hp by (intros E; apply HQ; unfold resched; by rewrite E).
  unfold core_sched, RHINO_CPU_INTRPT_DISABLE, RHINO_CPU_INTRPT_ENABLE. ksteps.
  destruct (0 <? g_intrpt_nested_level _) eqn:E1; cbn in E1; [kstep; apply Hp; unfold postponed; by rewrite E1|]. ksteps.
  destruct (0 <? g_sched_lock _) eqn:E2; cbn in E2; [kstep; apply Hp; unfold postponed; by rewrite E1, E2|].
  assert (postponed s = false) as Hnp by (unfold postponed; by rewrite E1, E2).
  kstep. apply preferred_get_wp; [by apply ci_irq|]. ksteps. case_decide as Ha.
  - kstep. apply HQ. exact (stay_resched s Hnp Ha).
  - kstep. match goal with |- wp cpu_task_switch _ ?x => destruct (cpu_task_switch_spec x) as [sp E] end.
    apply wp_iff. eexists _, _. split; [exact E|]. kstep. apply HQ. exact (switch_resched s sp Hnp).
Qed.

Lemma exit_sched_wp cpsr (Q : unit -> kstate -> Prop) s :
  CI s -> (forall s', resched (set_irq_off cpsr s) s' -> Q tt s') -> wp (RHINO_CRITICAL_EXIT_SCHED cpsr) Q s.
Proof.
  intros HI HQ. unfold RHINO_CRITICAL_EXIT_SCHED, RHINO_CPU_INTRPT_ENABLE. do 2 kstep.
  apply core_sched_wp; [by apply ci_irq|done].
Qed.

End port.

(** ** The objects

    What the body of an object of each type satisfies, and what is true of a
    task that waits for it: a semaphore with waiters has count 0, a queue with
    waiters is empty, the flags a task waits for are not set. *)

Definition queue_repr (q : kqueue_t) (msgs : list Z) : Prop :=
  rb_sim (q_ringbuf q) (mk_fifo (q_size q * PTR_SIZE) RINGBUF_TYPE_FIX PTR_SIZE (u32_bytes <$> msgs)) /\
  q_cur_num q = Z.of_nat (length msgs) /\ Forall (fits 32) msgs.

Definition bufq_repr (q : kbuf_queue_t) (f : fifo) : Prop :=
  rb_sim (bq_ringbuf q) f /\ (f_type f = RINGBUF_TYPE_FIX -> f_blk f = max_msg_size q) /\
  bq_cur_num q = Z.of_nat (length (f_msgs f)) /\
  Forall (fun m => Z.of_nat (length m) <= max_msg_size q) (f_msgs f).

Section objs.
Context `{CpuPort}.

Definition body_ok (s : kstate) (o : oid) (ty : kobj_type_t) : Prop :=
  match ty with
  | RHINO_SEM_OBJ_TYPE => exists m, sems s !! o = Some m /\ fits sem_count_bits (sem_count m)
  | RHINO_MUTEX_OBJ_TYPE => exists m, mutexes s !! o = Some m /\
      (mutex_task m <> None -> 1 <= owner_nested m < 2 ^ mutex_nested_bits)
  | RHINO_QUEUE_OBJ_TYPE => exists q msgs, queues s !! o = Some q /\ queue_repr q msgs
  | RHINO_BUF_QUEUE_OBJ_TYPE => exists q f, bufqs s !! o = Some q /\ bufq_repr q f
  | RHINO_EVENT_OBJ_TYPE => exists e, events s !! o = Some e /\ fits 32 (ev_flags e)
  | _ => True
  end.

Definition waiter_ok (s : kstate) (o : oid) (ty : kobj_type_t) (k : ktask_t) : Prop :=
  match ty with
  | RHINO_SEM_OBJ_TYPE => forall m, sems s !! o = Some m -> sem_count m = 0
  | RHINO_MUTEX_OBJ_TYPE => True
  | RHINO_QUEUE_OBJ_TYPE => forall q, queues s !! o = Some q -> q_cur_num q = 0
  | RHINO_BUF_QUEUE_OBJ_TYPE => forall q, bufqs s !! o = Some q -> bq_cur_num q = 0 /\
      exists buf, bytes s !! msg k = Some buf /\ max_msg_size q <= Z.of_nat (length buf)
  | RHINO_EVENT_OBJ_TYPE => forall e, events s !! o = Some e -> flags_met (pend_option k) (ev_flags e) (pend_flags k) = false
  | _ => False
  end.

Definition obj_ok (s : kstate) (o : oid) : Prop := forall b, blks s !! o = Some b ->
  blk_policy b = BLK_POLICY_PRI /\ body_ok s o (obj_type b) /\
  forall t k, tasks s !! t = Some k -> in_blk o k -> waiter_ok s o (obj_type b) k.

(** The bodies of the objects, all kinds together. *)
Definition bodies (s : kstate) :=
  (sems s, owner_nested <$> mutexes s, mutex_task <$> mutexes s, queues s, bufqs s, events s, bytes s).

(** What the rest of the invariant reads. *)
Definition core (s : kstate) :=
  (tasks s, blks s, g_ready_queue s, g_tick_head s, g_tick_count s, mutexes s, g_active_task s, g_sched_lock s,
   g_intrpt_nested_level s, g_sys_stat s).

(** What the wait condition reads of a task. *)
Definition wproj (k : ktask_t) : Z * Z * Z := (msg k, pend_option k, pend_flags k).

Lemma body_ok_bodies s s' o ty : bodies s' = bodies s -> body_ok s o ty -> body_ok s' o ty.
Proof.
  unfold bodies. intros [= E1 E2 E3 E4 E5 E6 E7]. destruct ty; cbn; rewrite ?E1, ?E4, ?E5, ?E6; try done.
  intros (m & Hm & Hr). assert (owner_nested <$> mutexes s' !! o = Some (owner_nested m)) as En
    by (by rewrite <- lookup_fmap, E2, lookup_fmap, Hm).
  assert (mutex_task <$> mutexes s' !! o = Some (mutex_task m)) as Et
    by (by rewrite <- lookup_fmap, E3, lookup_fmap, Hm).
  destruct (mutexes s' !! o) as [m'|]; [|done]. exists m'. split; [done|]. cbn in En, Et.
  injection En as En. injection Et as Et. intros Hne. specialize (Hr ltac:(congruence)). lia.
Qed.

Lemma waiter_ok_bodies s s' o ty k k' :
  bodies s' = bodies s -> wproj k' = wproj k -> waiter_ok s o ty k -> waiter_ok s' o ty k'.
Proof.
  unfold bodies, wproj. intros [= E1 _ _ E4 E5 E6 E7] [= F1 F2 F3].
  destruct ty; cbn; rewrite ?E1, ?E4, ?E5, ?E6, ?E7, ?F1, ?F2, ?F3; done.
Qed.

(** Waiters only leave, bodies and types stay. *)
Lemma obj_ok_step s s' o :
  bodies s' = bodies s -> blk_types (blks s') = blk_types (blks s) ->
  (forall t k', tasks s' !! t = Some k' -> in_blk o k' ->
     exists k, tasks s !! t = Some k /\ in_blk o k /\ wproj k' = wproj k) ->
  obj_ok s o -> obj_ok s' o.
Proof.
  intros Hbo Hty Hw Ho b' Hb'. destruct (blk_types_lookup _ _ _ _ Hty Hb') as (b & Hb & E & Ep).
  destruct (Ho b Hb) as (Hpol & Hbody & Hwait). rewrite <- E, <- Ep. split_and!; [done|by eapply body_ok_bodies|].
  intros t k' Hk' Hin. destruct (Hw t k' Hk' Hin) as (k & Hk & Hik & Hp).
  eapply waiter_ok_bodies; [done..|]. by eapply Hwait.
Qed.

Lemma obj_ok_one s s' o t k k' :
  bodies s' = bodies s -> blk_types (blks s') = blk_types (blks s) ->
  tasks s !! t = Some k -> tasks s' = <[t := k']> (tasks s) ->
  (in_blk o k' -> in_blk o k /\ wproj k' = wproj k) -> obj_ok s o -> obj_ok s' o.
Proof.
  intros Hbo Hty Hk Ht Hin. apply obj_ok_step; [done..|].
  intros u ku. rewrite Ht, lookup_insert_Some. intros [[<- <-]|[Hne Hu]] Hi; [exists k|by exists ku].
  split; [done|]. by apply Hin.
Qed.

End objs.

(** ** The invariant at the boundary of every call *)

Definition lock_ok (s : kstate) : Prop :=
  g_sched_lock s <> 0 -> exists a ka, g_active_task s = Some a /\ tasks s !! a = Some ka /\ task_state ka = K_RDY.

Section inv.
Context `{CpuPort}.

(** Before rescheduling, with the object [x] possibly being deleted. *)
Record Inv0x (x : option oid) (s : kstate) : Prop := {
  i0_ci : CI s;
  i0_objs o : Some o <> x -> obj_ok s o;
  i0_lock : lock_ok s;
  i0_nest : fits 8 (g_intrpt_nested_level s);
  i0_lock_range : 0 <= g_sched_lock s <= SCHED_MAX_LOCK_COUNT;
  i0_stat : g_sys_stat s = RHINO_RUNNING
}.

Definition Inv0 : kstate -> Prop := Inv0x None.

Record Inv (s : kstate) : Prop := {
  inv_0 : Inv0 s;
  inv_top : postponed s = false -> g_active_task s = top_task s
}.

(** The active task is ready unless an interrupt handler blocked it. *)
Lemma inv_active s : Inv s -> g_intrpt_nested_level s = 0 -> exists a ka, g_active_task s = Some a /\
  tasks s !! a = Some ka /\ task_state ka = K_RDY.
Proof.
  intros [H0 Ht] Hn. destruct (decide (g_sched_lock s = 0)) as [Hl|Hl]; [|by apply (i0_lock _ s H0)].
  destruct (ci_top s (i0_ci _ s H0)) as (t & k & E & Hk & Hr & _).
  exists t, k. split_and!; [|done..]. rewrite Ht; [done|]. unfold postponed. by rewrite Hn, Hl.
Qed.

(** States that agree on what the invariant reads. *)
Lemma inv0_core x s s' :
  core s' = core s -> (forall o, Some o <> x -> obj_ok s o -> obj_ok s' o) -> Inv0x x s -> Inv0x x s'.
Proof.
  unfold core. intros [= Ht Hb Hr Hk Hc Hm Ha Hl Hn Hst] Hobj [HC HO HL ? ? ?].
  split; rewrite ?Hl, ?Hn, ?Hst; try done.
  - eapply (ci_same s); try done. rewrite Ha, Ht. apply HC.
  - intros o Ho. apply Hobj; [done|]. by apply HO.
  - unfold lock_ok. by rewrite Hl, Ha, Ht.
Qed.

Lemma inv_core s s' :
  core s' = core s -> (forall o, obj_ok s o -> obj_ok s' o) -> Inv s -> Inv s'.
Proof.
  intros E Hobj [H0 Ht]. split; [by eapply (inv0_core _ s); [|auto|]|].
  unfold core in E. injection E as ? ? Hr ? ? ? Ha Hl Hn ?.
  unfold postponed, top_task in *. by rewrite Hl, Hn, Hr, Ha.
Qed.

Lemma obj_ok_same s s' o : core s' = core s -> bodies s' = bodies s -> obj_ok s o -> obj_ok s' o.
Proof.
  unfold core. intros [= Ht Hb _ _ _ _ _ _ _ _] Hbo. apply obj_ok_step; [done|by rewrite Hb|]. rewrite Ht. eauto.
Qed.

Lemma inv0_irq x b s : Inv0x x s -> Inv0x x (set_irq_off b s).
Proof. apply inv0_core; [done|]. intros o _. by apply obj_ok_same. Qed.

Lemma inv_irq b s : Inv s -> Inv (set_irq_off b s).
Proof. apply inv_core; [done|]. intros o. by apply obj_ok_same. Qed.

(** The body of one object changes. *)
Lemma obj_ok_body s s' o :
  core s' = core s ->
  (forall ty, body_ok s o ty -> body_ok s' o ty) ->
  (forall ty k, waiter_ok s o ty k -> waiter_ok s' o ty k) -> obj_ok s o -> obj_ok s' o.
Proof.
  unfold core. intros [= Ht Hb _ _ _ _ _ _ _ _] H1 H2 Ho b Hbo. rewrite Hb in Hbo.
  destruct (Ho b Hbo) as (? & ? & Hw). rewrite Ht. split_and!; [done|by apply H1|]. intros. eapply H2, Hw; done.
Qed.

Lemma waiter_listed s o b t k :
  CI s -> blks s !! o = Some b -> tasks s !! t = Some k -> in_blk o k -> blk_list b <> [].
Proof.
  intros HC Hb Hk Hin E. assert (t ∈ blk_list b) as Hel
    by (by eapply list_ok_in; [apply (wf_blks s (ci_wf s HC) o b Hb)|..]). rewrite E in Hel. set_solver.
Qed.

(** ** The body of one object changes *)

(** Bodies other than that of [o] are the same. *)
Record other_bodies (o : oid) (s s' : kstate) : Prop := {
  ob_sems o' : o' <> o -> sems s' !! o' = sems s !! o';
  ob_mutexes o' : o' <> o -> mutexes s' !! o' = mutexes s !! o';
  ob_queues o' : o' <> o -> queues s' !! o' = queues s !! o';
  ob_bufqs o' : o' <> o -> bufqs s' !! o' = bufqs s !! o';
  ob_events o' : o' <> o -> events s' !! o' = events s !! o';
  ob_bytes : bytes s' = bytes s
}.


Lemma other_body_ok o s s' o' ty : other_bodies o s s' -> o' <> o -> body_ok s o' ty -> body_ok s' o' ty.
Proof. intros [] Hne. destruct ty; cbn; try done; rewrite ?ob_sems0, ?ob_mutexes0, ?ob_queues0, ?ob_bufqs0, ?ob_events0 by done; done. Qed.

Lemma other_waiter_ok o s s' o' ty k : other_bodies o s s' -> o' <> o -> waiter_ok s o' ty k -> waiter_ok s' o' ty k.
Proof.
  intros [] Hne. destruct ty; cbn; try done; rewrite ?ob_sems0, ?ob_mutexes0, ?ob_queues0, ?ob_bufqs0, ?ob_events0, ?ob_bytes0 by done; done.
Qed.

(** The body of a deleted object may hold anything. *)
Lemma inv0_dead s s' o b :
  Inv0 s -> core s' = core s -> other_bodies o s s' -> blks s !! o = Some b -> obj_type b = RHINO_OBJ_TYPE_NONE -> Inv0 s'.
Proof.
  intros H0 Hc Hob Hb Hty. apply (inv0_core None s); [done| |done]. intros o' _ Ho' b' Hb'.
  pose proof Hc as Hc'. unfold core in Hc'. injection Hc' as Et Eb _ _ _ _ _ _ _ _. rewrite Eb in Hb'. rewrite Et.
  destruct (Ho' b' Hb') as (Hpol & Hbd & Hwt). destruct (decide (o' = o)) as [->|Hne].
  - assert (b' = b) as -> by congruence. rewrite Hty in *. by split_and!.
  - split_and!; [done|by eapply other_body_ok|]. intros t k Hk Hin. eapply other_waiter_ok; [done..|]. by eapply Hwt.
Qed.

Lemma inv_body s s' o b :
  Inv s -> core s' = core s -> other_bodies o s s' -> blks s !! o = Some b -> body_ok s' o (obj_type b) ->
  (forall t k, tasks s !! t = Some k -> in_blk o k -> waiter_ok s' o (obj_type b) k) -> Inv s'.
Proof.
  intros HI Hc Hob Hb Hbody Hw. apply (inv_core s); [done| |done]. intros o' Ho' b' Hb'.
  pose proof Hc as Hc'. unfold core in Hc'. injection Hc' as Et Eb _ _ _ _ _ _ _ _. rewrite Eb in Hb'. rewrite Et.
  destruct (Ho' b' Hb') as (Hpol & Hbd & Hwt). destruct (decide (o' = o)) as [->|Hne].
  - assert (b' = b) as -> by congruence. by split_and!.
  - split_and!; [done|by eapply other_body_ok|]. intros t k Hk Hin. eapply other_waiter_ok; [done..|]. by eapply Hwt.
Qed.

(** ** Only the stack pointer of a task changes *)

Lemma ci_stack s sp a act :
  CI s -> is_Some (tasks s !! act) ->
  CI (set_g_active_task (Some act) (set_tasks (alter (set_task_stack sp) a (tasks s)) s)).
Proof.
  intros HI Hact. destruct (tasks s !! a) as [k|] eqn:Hk.
  - assert (alter (set_task_stack sp) a (tasks s) = <[a := set_task_stack sp k]> (tasks s)) as ->
      by (by apply map_eq; intros i; destruct (decide (a = i)) as [<-|];
        [rewrite lookup_alter_eq, lookup_insert_eq, Hk|rewrite lookup_alter_ne, lookup_insert_ne]).
    apply (ci_same (set_tasks (<[a := set_task_stack sp k]> (tasks s)) s)); try done.
    { exists act. destruct Hact as [ka Hka]. cbn.
      destruct (decide (act = a)) as [->|]; [rewrite lookup_insert_eq|rewrite lookup_insert_ne by done]; eauto. }
    pose proof (ci_wf s HI) as Hwf.
    eapply (ci_step s _ a k (set_task_stack sp k)); try done.
    + intros ->. destruct (ci_idle s HI) as (ki & Hki & ? & _). cbn. by simplify_eq.
    + eapply (wf_step s _ a); try done; try apply Hwf; cbn.
      * eapply rq_keep; [apply (wf_ready s Hwf)|done|done].
      * eapply blk_keep; [apply (wf_blks s Hwf)|done..].
      * eapply list_ok_same; [apply (wf_tick s Hwf)|done|done].
      * pose proof (wf_task s Hwf a k Hk) as []. by split.
    + eapply (tick_inv_keep s _ a _ (ci_tick s HI)); done.
  - rewrite alter_id by (intros x Hx; congruence). apply (ci_same s); try done.
    destruct Hact as [ka ?]. by exists act, ka.
Qed.

Lemma resched_inv s s' : Inv0 s -> resched s s' -> Inv s'.
Proof.
  intros H0 Hr. unfold resched in Hr. destruct (postponed s) eqn:Hp; [subst; by split; [|congruence]|].
  destruct Hr as (ts' & -> & Hts). destruct (ci_top s (i0_ci _ s H0)) as (t & k & E & Hk & Hrdy & _).
  assert (g_sched_lock s = 0 \/ g_sched_lock s < 0) as Hl.
  { unfold postponed in Hp. apply orb_false_iff in Hp as [_ ?]. zbool. lia. }
  split; [|done]. destruct H0 as [HC HO HL ? ? ?].
  assert (forall u k', ts' !! u = Some k' -> exists k0, tasks s !! u = Some k0 /\ wproj k' = wproj k0 /\
    (forall o, in_blk o k' <-> in_blk o k0)) as Hin.
  { intros u k'. destruct Hts as [->|(sp & a & ->)]; [by eauto|]. rewrite lookup_alter_Some.
    intros [(-> & k0 & Hk0 & ->)|[_ ?]]; [by exists k0|by eauto]. }
  split; try done.
  - rewrite E. destruct Hts as [->|(sp & a & ->)].
    + apply (ci_same s); try done. by exists t, k.
    + eapply (ci_same (set_g_active_task (Some t) (set_tasks (alter (set_task_stack sp) a (tasks s)) s))); try done.
      * exists t. cbn. destruct (decide (a = t)) as [->|]; [rewrite lookup_alter_eq, Hk|rewrite lookup_alter_ne, Hk by done]; eauto.
      * apply ci_stack; [done|eauto].
  - intros o Ho. eapply (obj_ok_step s); [done..| |by apply HO]. intros u k' Hu Hb.
    destruct (Hin u k' Hu) as (k0 & ? & ? & Hio). exists k0. by rewrite <- Hio.
  - intros Hn. cbn in Hn. lia.
Qed.

Lemma exit_sched_inv {A} cpsr (r : A) (Q : A -> kstate -> Prop) s :
  Inv0 s -> (forall s', resched (set_irq_off cpsr s) s' -> Inv s' -> Q r s') ->
  wp (RHINO_CRITICAL_EXIT_SCHED cpsr;; mret r) Q s.
Proof.
  intros H0 HQ. kstep. apply exit_sched_wp; [apply H0|]. intros s' Hr. kstep. apply HQ; [done|].
  eapply resched_inv; [by apply inv0_irq|done].
Qed.

End inv.

(** ** Rescheduling, seen from a call *)

Lemma resched_eq s s' : resched s s' -> exists ts a p,
  s' = set_g_active_task a (set_g_preferred_ready_task p (set_tasks ts s)) /\
  forall u, exists sp, ts !! u = set_task_stack sp <$> tasks s !! u.
Proof.
  unfold resched. destruct (postponed s).
  - intros ->. exists (tasks s), (g_active_task s), (g_preferred_ready_task s). split; [done|]. intros u.
    destruct (tasks s !! u) as [k|]; [|by exists 0]. by exists (task_stack k).
  - intros (ts' & -> & Hts). exists ts', (top_task s), (top_task s). split; [done|]. intros u.
    assert (exists sp, tasks s !! u = set_task_stack sp <$> tasks s !! u) as [sp0 Hsame]
      by (destruct (tasks s !! u) as [k|]; [by exists (task_stack k)|by exists 0]).
    destruct Hts as [->|(sp & a & ->)]; [by exists sp0|]. destruct (decide (u = a)) as [->|].
    + exists sp. by rewrite lookup_alter_eq.
    + exists sp0. by rewrite lookup_alter_ne.
Qed.

(** ** Critical sections *)

Lemma wp_critical_enter (Q : bool -> kstate -> Prop) s :
  Q (irq_off s) (set_irq_off true s) -> wp RHINO_CRITICAL_ENTER Q s.
Proof. done. Qed.

Lemma wp_critical_return {R} cpsr (r : R) (Q : R -> kstate -> Prop) s :
  Q r (set_irq_off cpsr s) -> wp (critical_return cpsr r) Q s.
Proof. done. Qed.

Lemma wp_nested_chk {R} (r : kstat_t -> R) cpsr k (Q : R -> kstate -> Prop) s :
  (0 < g_intrpt_nested_level s -> Q (r RHINO_NOT_CALLED_BY_INTRPT) (set_irq_off cpsr s)) ->
  (g_intrpt_nested_level s <= 0 -> wp k Q s) -> wp (INTRPT_NESTED_LEVEL_CHK r cpsr k) Q s.
Proof.
  intros H1 H2. unfold INTRPT_NESTED_LEVEL_CHK. ksteps. destruct (Z.ltb_spec 0 (g_intrpt_nested_level s)).
  - by apply H1.
  - by apply H2.
Qed.

(** A critical section that leaves the state as it was. *)
Lemma irq_restore s : set_irq_off (irq_off s) (set_irq_off true s) = s.
Proof. done. Qed.
