(* ===== verification/Moves.v ===== *)
(** * Moving tasks between lists

    Waking, blocking and draining as transformations that keep the kernel
    invariant.  The state after each is given exactly, up to the position in the
    run queue, so that the calls built from them can say what they did. *)

From S2P Require Import Prelude KErr RingBuf KState KMonad Sched Pend KInv Mutex PriInv Event Queue Inv.
Local Open Scope Z_scope.

(** Only the task table, the wait lists, the tick list and the run queue differ. *)
Definition lists_only (s s' : kstate) : Prop :=
  s' = set_lists (tasks s') (blks s') (g_tick_head s') (g_ready_queue s') s.

Lemma lists_only_refl s : lists_only s s.
Proof. done. Qed.

Lemma lists_only_trans s1 s2 s3 : lists_only s1 s2 -> lists_only s2 s3 -> lists_only s1 s3.
Proof. unfold lists_only. intros E1 E2. rewrite E2 at 1. rewrite E1. done. Qed.

Lemma idle_is_ready s : CI s -> idle_ready s.
Proof. intros HI. destruct (ci_idle s HI) as (ki & ? & ? & _). by exists ki. Qed.

(** ** Fields of a task that no list depends on *)

Definition kproj (k : ktask_t) := (task_state k, prio k, b_prio k, blk_obj k, tick_head k).

Lemma wf_kproj s t k k' :
  WF s -> tasks s !! t = Some k -> kproj k' = kproj k -> WF (set_tasks (<[t := k']> (tasks s)) s).
Proof.
  intros Hwf Hk [= E1 E2 E3 E4 E5]. apply (wf_step s _ t k'); try done; try apply Hwf; cbn.
  - eapply rq_keep; [apply (wf_ready s Hwf)|done|]. intros p. unfold in_rq. by rewrite E1, E2.
  - eapply blk_keep; [apply (wf_blks s Hwf)|done| |by rewrite E2]. intros o. unfold in_blk, pending. by rewrite E1, E4.
  - eapply list_ok_same; [apply (wf_tick s Hwf)|done|]. unfold in_tick. by rewrite E5.
  - pose proof (wf_task s Hwf t k Hk) as []. split; unfold pending, sleeping in *; by rewrite ?E1, ?E2, ?E3, ?E4, ?E5.
Qed.

Section moves.
Context `{CpuPort}.

(** The invariant from the parts that the move of one task leaves to show. *)
Lemma inv0_step x s s' t k k' :
  Inv0x x s -> CI s' -> lists_only s s' -> blk_types (blks s') = blk_types (blks s) ->
  tasks s !! t = Some k -> tasks s' = <[t := k']> (tasks s) ->
  (forall o, in_blk o k' -> in_blk o k /\ wproj k' = wproj k) ->
  (g_active_task s = Some t -> g_sched_lock s <> 0 -> task_state k = K_RDY -> task_state k' = K_RDY) ->
  Inv0x x s'.
Proof.
  intros [HC HO HL Hn Hl Hst] HC' Hf Hty Hk Ht Hin Hlk. unfold lists_only in Hf.
  split; [done|..]; rewrite Hf; try done.
  - intros o Ho. rewrite <- Hf. eapply (obj_ok_one s s' o t); try done; [by rewrite Hf|by apply Hin|by apply HO].
  - rewrite <- Hf. intros Hne. rewrite Hf in Hne. destruct (HL Hne) as (a & ka & Ha & Hka & Hr).
    rewrite Ht. exists a. destruct (decide (t = a)) as [->|].
    + exists k'. rewrite lookup_insert_eq. split_and!; [by rewrite Hf|done|]. apply Hlk; [done..|congruence].
    + exists ka. rewrite lookup_insert_ne by done. by rewrite Hf.
Qed.

Lemma inv0_active x s : Inv0x x s -> exists a ka, g_active_task s = Some a /\ tasks s !! a = Some ka.
Proof. intros H0. apply (ci_active s (i0_ci x s H0)). Qed.

(** ** Waking *)

(** The task [t] taken off the list of [o], its control block becoming [g k]. *)
Definition left_list (g : ktask_t -> ktask_t) (t : tid) (o : oid) (s s' : kstate) : Prop :=
  tasks s' = alter g t (tasks s) /\ blks s' = blk_without t o (blks s) /\ lists_only s s'.

Lemma alter_insert {A} (g : A -> A) (m : gmap nat A) t k : m !! t = Some k -> alter g t m = <[t := g k]> m.
Proof.
  intros Hk. apply map_eq. intros i. destruct (decide (t = i)) as [<-|].
  - by rewrite lookup_alter_eq, lookup_insert_eq, Hk.
  - by rewrite lookup_alter_ne, lookup_insert_ne.
Qed.

Lemma woken_off k bs : pending k -> off_lists (task_state (woken bs k)) = true.
Proof. intros [E|E]; cbn; by rewrite E. Qed.

(** [g] takes a pending task off its lists and changes nothing inheritance reads. *)
Definition leaves (g : ktask_t -> ktask_t) : Prop := forall k, pending k ->
  off_lists (task_state (g k)) = true /\ mproj (g k) = mproj k /\ tick_head (g k) = false.

Lemma leaves_woken bs : leaves (woken bs).
Proof. intros k Hp. split_and!; [by apply woken_off| |done]. unfold mproj. cbn. destruct Hp as [E|E]; by rewrite E. Qed.

Lemma leaves_edit bs e :
  (forall k, kproj (e k) = kproj k) -> (forall k, mutex_list (e k) = mutex_list k) -> leaves (fun k => woken bs (e k)).
Proof.
  intros He Hm k Hp. specialize (He k). injection He as E1 E2 E3 E4 E5.
  destruct (leaves_woken bs (e k)) as (H1 & H2 & H3); [unfold pending; by rewrite E1|]. split_and!; [done| |done].
  rewrite H2. unfold mproj. by rewrite E1, E2, E3, Hm.
Qed.

Section wake.
Context (x : option oid) (g : ktask_t -> ktask_t) (Hg : leaves g) (f : tid -> K unit).
Context (f_wp : forall t k a ka o b (Q : unit -> kstate -> Prop) s,
  WF s -> tasks s !! t = Some k -> in_blk o k -> blks s !! o = Some b ->
  g_active_task s = Some a -> tasks s !! a = Some ka ->
  (forall rq', let s' := set_lists (<[t := g k]> (tasks s)) (blk_without t o (blks s))
                 (list_rm t (g_tick_head s)) rq' s in WF s' -> Q tt s') ->
  wp (f t) Q s).

Lemma ci_left s t k o rq' tk' :
  CI s -> tasks s !! t = Some k -> in_blk o k -> ~ is_mutex s o -> tk' = list_rm t (g_tick_head s) ->
  let s' := set_lists (<[t := g k]> (tasks s)) (blk_without t o (blks s)) tk' rq' s in WF s' -> CI s'.
Proof.
  intros HI Hk [Hp Ho] Hm -> s' Hwf. destruct (Hg k Hp) as (Hoff%off_lists_spec & Hmp & Hth).
  apply (ci_step s s' t k (g k)); try done.
  - by apply blk_types_without.
  - intros o' Ho'. split; intros [? Eo]; [by destruct Hoff|]. congruence.
  - intros ->. destruct (ci_idle s HI) as (ki & Hki & Hr & _). destruct Hp; congruence.
  - by eapply (tick_inv_leave s _ t _ (ci_tick s HI)).
Qed.

Lemma wake_inv_wp t k o b (Q : unit -> kstate -> Prop) s :
  Inv0x x s -> tasks s !! t = Some k -> in_blk o k -> blks s !! o = Some b -> obj_type b <> RHINO_MUTEX_OBJ_TYPE ->
  (forall s', Inv0x x s' -> left_list g t o s s' -> Q tt s') -> wp (f t) Q s.
Proof.
  intros H0 Hk Hin Hb Hty HQ. pose proof (i0_ci x s H0) as HC.
  destruct (inv0_active x s H0) as (a & ka & Ha & Hka).
  eapply f_wp; [apply HC|done..|]. intros rq' s' Hwf. apply HQ.
  - assert (~ is_mutex s o) by (intros (b' & ? & ?); congruence).
    apply (inv0_step x s _ t k (g k)); try done.
    + by apply (ci_left s t k o).
    + by apply blk_types_without.
    + intros o' [Hp _]. destruct (Hg k (proj1 Hin)) as (Hoff & _). by destruct (off_lists_spec _ Hoff).
    + intros _ _ Hr. destruct Hin as [[E|E] _]; congruence.
  - split; [|done]. cbn. by rewrite (alter_insert _ _ _ _ Hk).
Qed.

End wake.

Lemma wakeup_inv_wp x t k o b (Q : unit -> kstate -> Prop) s :
  Inv0x x s -> tasks s !! t = Some k -> in_blk o k -> blks s !! o = Some b -> obj_type b <> RHINO_MUTEX_OBJ_TYPE ->
  (forall s', Inv0x x s' -> left_list (woken BLK_FINISH) t o s s' -> Q tt s') -> wp (pend_task_wakeup t) Q s.
Proof.
  apply wake_inv_wp; [apply leaves_woken|]. intros t0 k0 a ka o0 b0 Q0 s0 Hwf Hk Hin Hb Ha Hka HQ.
  eapply (pend_task_wakeup_wp t0 k0 a ka o0 b0); [done..|]. intros rq' _. apply HQ.
Qed.

Lemma rm_inv_wp x t k o b (Q : unit -> kstate -> Prop) s :
  Inv0x x s -> tasks s !! t = Some k -> in_blk o k -> blks s !! o = Some b -> obj_type b <> RHINO_MUTEX_OBJ_TYPE ->
  (forall s', Inv0x x s' -> left_list (woken BLK_DEL) t o s s' -> Q tt s') -> wp (pend_task_rm t) Q s.
Proof.
  apply wake_inv_wp; [apply leaves_woken|]. intros t0 k0 a ka o0 b0 Q0 s0 Hwf Hk Hin Hb Ha Hka HQ.
  eapply (pend_task_rm_wp t0 k0 a ka o0 b0); [done..|]. intros rq' _. apply HQ.
Qed.

(** A waiter is handed something before it is woken. *)
Lemma edit_wakeup_inv_wp x e t k o b (Q : unit -> kstate -> Prop) s :
  (forall k, kproj (e k) = kproj k) -> (forall k, mutex_list (e k) = mutex_list k) ->
  Inv0x x s -> tasks s !! t = Some k -> in_blk o k -> blks s !! o = Some b -> obj_type b <> RHINO_MUTEX_OBJ_TYPE ->
  (forall s', Inv0x x s' -> left_list (fun k => woken BLK_FINISH (e k)) t o s s' -> Q tt s') ->
  wp (upd_task t e;; pend_task_wakeup t) Q s.
Proof.
  intros He Hm. apply (wake_inv_wp x (fun k => woken BLK_FINISH (e k)) (leaves_edit BLK_FINISH e He Hm)
    (fun t => upd_task t e;; pend_task_wakeup t)). clear - He.
  intros t k a ka o b Q s Hwf Hk Hin Hb Ha Hka HQ. do 2 kstep. set (s0 := set_tasks _ s).
  assert (exists ka', tasks s0 !! a = Some ka') as [ka' Hka'].
  { cbn. destruct (decide (t = a)) as [->|]; [rewrite lookup_insert_eq|rewrite lookup_insert_ne by done]; eauto. }
  pose proof (He k) as [= E1 E2 E3 E4 E5].
  eapply (pend_task_wakeup_wp t (e k) a ka' o b); [by eapply wf_kproj|apply lookup_insert_eq| |done..|].
  { unfold in_blk, pending. by rewrite E1, E4. }
  intros rq' _ s' Hwf'. assert (s' = set_lists (<[t := woken BLK_FINISH (e k)]> (tasks s)) (blk_without t o (blks s))
    (list_rm t (g_tick_head s)) rq' s) as Es by (unfold s', s0; cbn; by rewrite insert_insert_eq).
  rewrite Es in *. by apply HQ.
Qed.

(** ** Waking every waiter *)

Definition all_left (g : ktask_t -> ktask_t) (o : oid) (b : blk_obj_t) (s s' : kstate) : Prop :=
  (forall u, tasks s' !! u = if decide (u ∈ blk_list b) then g <$> tasks s !! u else tasks s !! u) /\
  blks s' = <[o := set_blk_list [] b]> (blks s) /\ lists_only s s'.

Section drain.
Context (x : option oid) (o : oid) (g : ktask_t -> ktask_t) (f : tid -> K unit).
Context (f_inv_wp : forall t k b (Q : unit -> kstate -> Prop) s,
  Inv0x x s -> tasks s !! t = Some k -> in_blk o k -> blks s !! o = Some b -> obj_type b <> RHINO_MUTEX_OBJ_TYPE ->
  (forall s', Inv0x x s' -> left_list g t o s s' -> Q tt s') -> wp (f t) Q s).

Lemma all_left_cons t l b s s1 s2 :
  blks s !! o = Some b -> blk_list b = t :: l -> t ∉ l -> left_list g t o s s1 ->
  all_left g o (set_blk_list l b) s1 s2 -> all_left g o b s s2.
Proof.
  intros Hb Hl Ht (Et & Eb & Ef) (Et2 & Eb2 & Ef2). split_and!.
  - intros u. rewrite Et2, Et, Hl. cbn. destruct (decide (u = t)) as [->|Hne].
    + rewrite decide_False, decide_True by set_solver. by rewrite lookup_alter_eq.
    + rewrite lookup_alter_ne by done. destruct (decide (u ∈ l)); [rewrite decide_True|rewrite decide_False]; set_solver.
  - rewrite Eb2, Eb. unfold blk_without. by rewrite insert_alter, decide_True.
  - by eapply lists_only_trans.
Qed.

Lemma blk_drain_wp n b (Q : unit -> kstate -> Prop) s :
  Inv0x x s -> blks s !! o = Some b -> obj_type b <> RHINO_MUTEX_OBJ_TYPE -> n = length (blk_list b) ->
  (forall s', Inv0x x s' -> all_left g o b s s' -> Q tt s') -> wp (blk_drain n o f) Q s.
Proof.
  revert b Q s. induction n as [|n IH]; intros b Q s H0 Hb Hty Hn HQ; cbn [blk_drain]; do 2 kstep;
    (destruct (blk_list b) as [|t l] eqn:El; [|]); try done.
  - kstep. apply HQ; [done|]. split_and!; [|by rewrite insert_id; [|rewrite <- El]|done].
    intros u. rewrite decide_False; [done|]. rewrite El. set_solver.
  - pose proof (wf_blks s (ci_wf s (i0_ci x s H0)) o b Hb) as [[Hnd Hin] _]. rewrite El in *.
    destruct (proj1 (Hin t)) as (k & Hk & Hik); [set_solver|]. apply NoDup_cons in Hnd as [Htl _].
    kstep. eapply f_inv_wp; [done..|]. intros s1 H1 Hleft. pose proof Hleft as (_ & Eb & _).
    eapply (IH (set_blk_list l b)); [done| |done|by injection Hn|].
    + rewrite Eb. unfold blk_without. rewrite lookup_alter_eq, Hb. cbn. by rewrite El, list_rm_cons_eq.
    + intros s2 H2 Hall. apply HQ; [done|]. by eapply all_left_cons.
Qed.

Lemma blk_wake_all_wp b (Q : unit -> kstate -> Prop) s :
  Inv0x x s -> blks s !! o = Some b -> obj_type b <> RHINO_MUTEX_OBJ_TYPE ->
  (forall s', Inv0x x s' -> all_left g o b s s' -> Q tt s') -> wp (blk_wake_all o f) Q s.
Proof. intros. unfold blk_wake_all. do 2 kstep. by eapply blk_drain_wp. Qed.

End drain.

End moves.

Lemma inv0_kproj `{CpuPort} x s t k k' :
  Inv0x x s -> tasks s !! t = Some k -> kproj k' = kproj k -> mutex_list k' = mutex_list k ->
  tick_match k' = tick_match k -> (pending k -> wproj k' = wproj k) ->
  Inv0x x (set_tasks (<[t := k']> (tasks s)) s).
Proof.
  intros H0 Hk Hp Hm Ht Hw. pose proof (i0_ci x s H0) as HC. pose proof Hp as Hp'. injection Hp' as E1 E2 E3 E4 E5.
  assert (forall o, in_blk o k' <-> in_blk o k) as Hin by (intros o; unfold in_blk, pending; by rewrite E1, E4).
  apply (inv0_step x s _ t k k'); try done.
  - apply (ci_step s _ t k k'); try done.
    + unfold mproj. by rewrite E1, E2, E3, Hm.
    + intros ->. destruct (ci_idle s HC) as (ki & Hki & Hr & _). rewrite E1. congruence.
    + by eapply wf_kproj; [apply HC|..].
    + by eapply (tick_inv_keep s _ t _ (ci_tick s HC)).
  - intros o Hi. split; [by apply Hin|]. apply Hw. by apply Hin in Hi as [? _].
  - by rewrite E1.
Qed.

(** ** The invariant without the inheritance part

    Between the steps of a mutex operation the priorities are not inherited, but
    the rest of the invariant holds. *)

Section ni.
Context `{CpuPort}.

Record NI (x : option oid) (s : kstate) : Prop := {
  ni_wf : WF s;
  ni_tick : tick_inv s;
  ni_idle : exists ki, tasks s !! g_idle_task = Some ki /\ task_state ki = K_RDY /\ b_prio ki = RHINO_IDLE_PRI;
  ni_active : exists a ka, g_active_task s = Some a /\ tasks s !! a = Some ka;
  ni_objs o : Some o <> x -> obj_ok s o;
  ni_lock : lock_ok s;
  ni_nest : fits 8 (g_intrpt_nested_level s);
  ni_lock_range : 0 <= g_sched_lock s <= SCHED_MAX_LOCK_COUNT;
  ni_stat : g_sys_stat s = RHINO_RUNNING
}.

Lemma inv0_ni x s : Inv0x x s -> NI x s.
Proof. intros [[] ? ? ? ? ?]. by split. Qed.

Lemma ni_inv0 x s : NI x s -> MI s -> Inv0x x s.
Proof. intros [] ?. by split. Qed.

Lemma ni_idle_ready x s : NI x s -> idle_ready s.
Proof. intros Hn. destruct (ni_idle x s Hn) as (ki & ? & ? & _). by exists ki. Qed.

Lemma ni_step x s s' t k k' :
  NI x s -> WF s' -> tick_inv s' -> lists_only s s' -> blk_types (blks s') = blk_types (blks s) ->
  tasks s !! t = Some k -> tasks s' = <[t := k']> (tasks s) -> b_prio k' = b_prio k ->
  (t = g_idle_task -> task_state k' = K_RDY) ->
  (forall o, in_blk o k' -> in_blk o k /\ wproj k' = wproj k) ->
  (g_active_task s = Some t -> g_sched_lock s <> 0 -> task_state k = K_RDY -> task_state k' = K_RDY) ->
  NI x s'.
Proof.
  intros [Hwf Htk (ki & Hki & Hri & Hbi) (a & ka & Ha & Hka) HO HL Hn Hl Hst] Hwf' Htk' Hf Hty Hk Ht Hbp Hid Hin Hlk.
  unfold lists_only in Hf. split; try done; try (rewrite Hf; done).
  - rewrite Ht. destruct (decide (t = g_idle_task)) as [->|].
    + exists k'. rewrite lookup_insert_eq. split_and!; [done|by apply Hid|]. congruence.
    + exists ki. by rewrite lookup_insert_ne.
  - exists a. rewrite Ht. destruct (decide (t = a)) as [->|]; [exists k'|exists ka]; (split; [by rewrite Hf|]);
      [apply lookup_insert_eq|by rewrite lookup_insert_ne].
  - intros o Ho. eapply (obj_ok_one s s' o t); try done; [by rewrite Hf|by apply Hin|by apply HO].
  - intros Hne. rewrite Hf in Hne. destruct (HL Hne) as (a' & ka' & Ha' & Hka' & Hr).
    rewrite Ht. exists a'. destruct (decide (t = a')) as [->|].
    + exists k'. rewrite lookup_insert_eq. split_and!; [by rewrite Hf|done|]. apply Hlk; [done..|congruence].
    + exists ka'. rewrite lookup_insert_ne by done. by rewrite Hf.
Qed.

Lemma ni_core x s s' :
  core s' = core s \/ (exists ms, core s' = core (set_mutexes ms s)) ->
  (forall o, Some o <> x -> obj_ok s o -> obj_ok s' o) -> NI x s -> NI x s'.
Proof.
  intros Hc Hobj [Hwf [? ?] Hid Ha HO HL ? ? ?].
  assert (tasks s' = tasks s /\ blks s' = blks s /\ g_ready_queue s' = g_ready_queue s /\ g_tick_head s' = g_tick_head s /\
    g_tick_count s' = g_tick_count s /\ g_active_task s' = g_active_task s /\ g_sched_lock s' = g_sched_lock s /\
    g_intrpt_nested_level s' = g_intrpt_nested_level s /\ g_sys_stat s' = g_sys_stat s) as (Et & Eb & Er & Ek & Ec & Ea & El & En & Es).
  { unfold core in Hc. destruct Hc as [[=]|(ms & [=])]; by split_and!. }
  split; rewrite ?El, ?En, ?Es; try done.
  - by eapply (wf_same s).
  - split; [rewrite Ek; eapply sorted_ext; [|done]; intros; unfold rem_of|]; unfold tick_rem; by rewrite ?Et, ?Ec.
  - by rewrite Et.
  - by rewrite Ea, Et.
  - intros o Ho. apply Hobj; [done|]. by apply HO.
  - unfold lock_ok. by rewrite El, Ea, Et.
Qed.

Lemma ni_wake x s t k o bs rq' tk' :
  NI x s -> tasks s !! t = Some k -> in_blk o k -> tk' = list_rm t (g_tick_head s) ->
  let s' := set_lists (<[t := woken bs k]> (tasks s)) (blk_without t o (blks s)) tk' rq' s in WF s' -> NI x s'.
Proof.
  intros Hn Hk [Hp Ho] -> s' Hwf. pose proof (woken_off k bs Hp) as Hoff%off_lists_spec.
  apply (ni_step x s s' t k (woken bs k)); try done.
  - by eapply (tick_inv_leave s _ t _ (ni_tick x s Hn)).
  - by apply blk_types_without.
  - intros ->. destruct (ni_idle x s Hn) as (ki & Hki & Hr & _). destruct Hp; congruence.
  - intros o' [? _]. by destruct Hoff.
  - intros _ _ Hr. destruct Hp; congruence.
Qed.

(** Fields no list depends on, the link of held mutexes included. *)
Lemma ni_kproj x s t k k' :
  NI x s -> tasks s !! t = Some k -> kproj k' = kproj k -> tick_match k' = tick_match k ->
  (pending k -> wproj k' = wproj k) -> NI x (set_tasks (<[t := k']> (tasks s)) s).
Proof.
  intros Hn Hk Hp Ht Hw. pose proof Hp as Hp'. injection Hp' as E1 E2 E3 E4 E5.
  assert (forall o, in_blk o k' <-> in_blk o k) as Hin by (intros o; unfold in_blk, pending; by rewrite E1, E4).
  apply (ni_step x s _ t k k'); try done.
  - by eapply wf_kproj; [apply Hn|..].
  - by eapply (tick_inv_keep s _ t _ (ni_tick x s Hn)).
  - intros ->. destruct (ni_idle x s Hn) as (ki & Hki & Hr & _). rewrite E1. congruence.
  - intros o Hi. split; [by apply Hin|]. apply Hw. by apply Hin in Hi as [? _].
  - by rewrite E1.
Qed.

(** The priority of one task, its lists having followed. *)
Lemma ni_prio x s t k p rq' :
  NI x s -> tasks s !! t = Some k ->
  let s' := set_lists (<[t := set_prio p k]> (tasks s)) (blks s) (g_tick_head s) rq' s in WF s' -> NI x s'.
Proof.
  intros Hn Hk s' Hwf. apply (ni_step x s s' t k (set_prio p k)); try done.
  - by eapply (tick_inv_keep s _ t _ (ni_tick x s Hn)).
  - intros ->. destruct (ni_idle x s Hn) as (ki & Hki & Hr & _). cbn. congruence.
Qed.

(** Priorities only. *)
Lemma ni_pframe x s s' : NI x s -> pframe s s' -> WF s' -> NI x s'.
Proof.
  intros [_ [Hs Hr] (ki & Hki & Hri & Hbi) (a & ka & Ha & Hka) HO HL Hn Hl Hst] Hf Hwf'. pose proof (pf_rest _ _ Hf) as E.
  assert (forall u, rem_of s' u = rem_of s u) as Hrem.
  { intros u. unfold rem_of, tick_rem. rewrite (pf_tasks _ _ Hf u), E. by destruct (tasks s !! u). }
  split; try done; try (rewrite E; done).
  - split.
    { assert (g_tick_head s' = g_tick_head s) as -> by (by rewrite E). eapply sorted_ext; [|exact Hs]. intros; apply Hrem. }
    intros t k' Hk'. destruct (pframe_task_inv _ _ _ _ Hf Hk') as (k & Hk & Ek). assert (g_tick_count s' = g_tick_count s) as Ec by (by rewrite E).
    unfold tick_rem. rewrite Ek, Ec. exact (Hr t k Hk).
  - eexists. split; [exact (pframe_task _ _ _ _ Hf Hki)|done].
  - exists a. eexists. split; [by rewrite E|]. exact (pframe_task _ _ _ _ Hf Hka).
  - intros o Ho. eapply (obj_ok_step s); [by rewrite E| | |by apply HO].
    + unfold blk_types. apply map_eq. intros o'. rewrite !lookup_fmap. destruct (blks s !! o') as [b|] eqn:Eb.
      * destruct (pframe_blk _ _ _ _ Hf Eb) as (l' & -> & _). done.
      * destruct (blks s' !! o') as [b'|] eqn:Eb'; [|done].
        destruct (pframe_blk_inv _ _ _ _ Hf Eb') as (b & ? & _). congruence.
    + intros t k' Hk' Hin. destruct (pframe_task_inv _ _ _ _ Hf Hk') as (k & Hk & Ek). exists k. rewrite Ek in Hin |- *. done.
  - intros Hne. rewrite E in Hne. destruct (HL Hne) as (a' & ka' & Ha' & Hka' & ?). exists a'. eexists.
    split_and!; [by rewrite E|exact (pframe_task _ _ _ _ Hf Hka')|done].
Qed.

End ni.

(** ** Blocking *)

(** Insertion into a wait list: after the tasks that are at least as urgent. *)
Fixpoint pri_enqueue (p : tid -> Z) (t : tid) (l : list tid) : list tid :=
  match l with
  | [] => [t]
  | x :: l' => if p t <? p x then t :: l else x :: pri_enqueue p t l'
  end.

Lemma pri_enqueue_perm p t l : pri_enqueue p t l ≡ₚ t :: l.
Proof.
  induction l as [|x l IH]; cbn; [done|]. destruct (p t <? p x); [done|]. rewrite IH. constructor.
Qed.

Lemma pend_added_enqueue ts t k l l' :
  ts !! t = Some k -> (forall x, x ∈ l -> is_Some (ts !! x)) -> pend_added ts (prio k) t l l' ->
  l' = pri_enqueue (prio_of ts) t l.
Proof.
  intros Hk. unfold pend_added. revert l'. induction l as [|x l IH]; intros l' Hl; cbn; [congruence|].
  destruct (Hl x) as [kx Hx]; [set_solver|]. rewrite Hx, (prio_of_Some _ _ _ Hk), (prio_of_Some _ _ _ Hx). cbn.
  destruct (prio k <? prio kx); [congruence|].
  destruct (scan_insert _ t l) as [l1|]; cbn; [|done]. intros [= <-]. f_equal. apply IH; [set_solver|done].
Qed.

Section block.
Context `{CpuPort}.

Lemma tick_inv_blocked s t k o timeout tk' bl' rq' :
  WF s -> tick_inv s -> tasks s !! t = Some k -> task_state k = K_RDY -> timeout_ok timeout -> tick_blocked s t timeout tk' ->
  tick_inv (set_lists (<[t := blocked o (g_tick_count s) timeout k]> (tasks s)) bl' tk' rq' s).
Proof.
  intros Hwf Hti Hk Hr Hto Htk. assert (tick_head k = false) as Hoff by (eapply rdy_no_timeout; [done..|by rewrite Hr]).
  unfold blocked, tick_blocked in *. destruct (timed timeout) eqn:Et.
  - unfold timed in Et. unfold timeout_ok in Hto. apply andb_true_iff in Et as [? ?]. zbool. destruct Htk as [Htk _].
    eapply (tick_inv_enter s _ t); [done|reflexivity|done|apply (wf_tick s Hwf)| |instantiate (1 := timeout); lia|done|done].
    eapply list_ok_notin; [apply (wf_tick s Hwf)|done|]. unfold in_tick. by rewrite Hoff.
  - subst tk'. by eapply (tick_inv_keep s _ t _ Hti).
Qed.

(** The running task blocks on [o]. *)
Lemma ni_block_wp x t k o b timeout (Q : unit -> kstate -> Prop) s :
  NI x s -> tasks s !! t = Some k -> task_state k = K_RDY -> t <> g_idle_task ->
  g_sched_lock s = 0 -> blks s !! o = Some b -> blk_policy b = BLK_POLICY_PRI -> timeout_ok timeout ->
  (Some o <> x -> waiter_ok s o (obj_type b) k) ->
  (forall s', NI x s' -> lists_only s s' ->
     tasks s' = <[t := blocked o (g_tick_count s) timeout k]> (tasks s) ->
     blks s' = <[o := set_blk_list (pri_enqueue (prio_of (tasks s)) t (blk_list b)) b]> (blks s) -> Q tt s') ->
  wp (pend_to_blk_obj o t timeout) Q s.
Proof.
  intros Hni Hk Hr Hidle Hl Hb Hpol Hto Hw HQ. pose proof (ni_wf x s Hni) as Hwf.
  destruct (ni_idle_ready x s Hni) as (ki & Hki & Hri).
  eapply (pend_to_blk_obj_wp o b t k timeout g_idle_task (prio ki)); try done.
  { destruct Hto as [?|Hto]; [lia|]. by rewrite Hto. }
  { by eapply list_ok_in; [apply (wf_ready s Hwf)|..]. }
  intros tk' l' rq' Htk Hadd _ _ s' Hwf'. rewrite decide_False in Hadd by congruence.
  apply (pend_added_enqueue _ _ _ _ _ Hk) in Hadd; [|intros y (ky & ? & _)%(proj1 (wf_blks s Hwf o b Hb)); eauto].
  apply HQ; [|done|done|by rewrite <- Hadd]. destruct Hni as [_ Hti (k0 & Hk0 & ? & ?) (a & ka & Ha & Hka) HO _ Hn Hlr Hst].
  destruct (blocked_fields o (g_tick_count s) timeout k) as (E1 & E2 & E3 & E4 & E5).
  split; try done; [by apply tick_inv_blocked|exists k0; cbn; by rewrite lookup_insert_ne by done| | |intros Hne; cbn in Hne; lia].
  - exists a. cbn. destruct (decide (t = a)) as [->|]; [rewrite lookup_insert_eq|rewrite lookup_insert_ne by done]; eauto.
  - intros o' Ho' b' Hb'. destruct (blk_types_lookup (blks s) _ _ _ (blk_types_list o b l' (blks s) Hb) Hb') as (b0 & Hb0 & Et & Ep).
    destruct (HO o' Ho' b0 Hb0) as (Hpol' & Hbody & Hwait). rewrite <- Et, <- Ep. split_and!; [done|by eapply (body_ok_bodies s)|].
    intros u ku. cbn. rewrite lookup_insert_Some. intros [[<- <-]|[? Hu]] Hin.
    + assert (o' = o) as -> by (destruct Hin; congruence). assert (b0 = b) as -> by congruence.
      eapply (waiter_ok_bodies s); [done| |by apply Hw]. unfold blocked. by destruct (timed timeout).
    + eapply (waiter_ok_bodies s); [done..|]. by eapply Hwait.
Qed.

Lemma block_inv_wp x t k o b timeout (Q : unit -> kstate -> Prop) s :
  Inv0x x s -> tasks s !! t = Some k -> task_state k = K_RDY -> t <> g_idle_task ->
  g_sched_lock s = 0 -> blks s !! o = Some b -> blk_policy b = BLK_POLICY_PRI -> obj_type b <> RHINO_MUTEX_OBJ_TYPE -> timeout_ok timeout ->
  (Some o <> x -> waiter_ok s o (obj_type b) k) ->
  (forall s', Inv0x x s' -> lists_only s s' ->
     tasks s' = <[t := blocked o (g_tick_count s) timeout k]> (tasks s) ->
     blks s' = <[o := set_blk_list (pri_enqueue (prio_of (tasks s)) t (blk_list b)) b]> (blks s) -> Q tt s') ->
  wp (pend_to_blk_obj o t timeout) Q s.
Proof.
  intros H0 Hk Hr Hidle Hl Hb Hpol Hty Hto Hw HQ. eapply ni_block_wp; [by apply inv0_ni|done..|].
  intros s' Hn' Hf Et Eb. apply HQ; try done. apply ni_inv0; [done|].
  destruct (blocked_fields o (g_tick_count s) timeout k) as (E1 & E2 & E3 & E4 & E5).
  eapply (me_MI s); [|apply H0]. eapply (mi_equiv_one s s' t); [done|done|by rewrite Hf|rewrite Eb; by apply blk_types_list|..].
  - unfold mproj. rewrite E3, E4, E1, Hr. unfold blocked. by destruct (timed timeout).
  - intros o' (b' & Hb' & Hm'). split; intros [Hp Eo]; [congruence|]. destruct Hp; congruence.
Qed.

End block.

(** ** Tasks that were let go *)

(** A waiting task that was let go: ready, or suspended if it was suspended meanwhile. *)
Definition released (bs : blk_state_t) (s s' : kstate) (t : tid) : Prop :=
  exists k k', tasks s !! t = Some k /\ tasks s' !! t = Some k' /\
    task_state k' = woken_state (task_state k) /\ blk_state k' = bs /\ blk_obj k' = None.

Lemma released_resched bs s s1 s' t c :
  released bs s s1 t -> resched (set_irq_off c s1) s' -> released bs s s' t.
Proof.
  intros (k & k1 & Hk & Hk1 & ? & ? & ?) (ts & a & p & -> & Hts)%resched_eq.
  destruct (Hts t) as [sp E]. cbn in E. rewrite Hk1 in E. by exists k, (set_task_stack sp k1).
Qed.

Lemma irq_resched s s' c : resched (set_irq_off c s) s' -> irq_off s' = c.
Proof. by intros (ts & a & p & -> & _)%resched_eq. Qed.

(** [g] lets a waiter go with status [bs]. *)
Definition lets_go (bs : blk_state_t) (g : ktask_t -> ktask_t) : Prop := forall k,
  task_state (g k) = woken_state (task_state k) /\ blk_state (g k) = bs /\ blk_obj (g k) = None.

Lemma lets_go_woken bs : lets_go bs (woken bs).
Proof. by intros k. Qed.

(** Tasks woken from the list of [o]. *)
Lemma all_left_go bs g o b s s1 t :
  lets_go bs g -> WF s -> blks s !! o = Some b -> all_left g o b s s1 -> t ∈ blk_list b -> released bs s s1 t.
Proof.
  intros Hg Hwf Hb (Et & _) Ht. pose proof Ht as (k & Hk & _)%(proj2 (proj1 (wf_blks s Hwf o b Hb))).
  exists k, (g k). destruct (Hg k) as (? & ? & ?). split_and!; try done. by rewrite Et, decide_True, Hk by done.
Qed.

Lemma all_left_released bs o b s s1 t :
  WF s -> blks s !! o = Some b -> all_left (woken bs) o b s s1 -> t ∈ blk_list b -> released bs s s1 t.
Proof. apply all_left_go, lets_go_woken. Qed.

Lemma first_waiter s o b t l :
  WF s -> blks s !! o = Some b -> blk_list b = t :: l -> exists k, tasks s !! t = Some k /\ in_blk o k /\ t ∉ l.
Proof.
  intros Hwf Hb El. destruct (wf_blks s Hwf o b Hb) as [[Hnd Hin] _]. rewrite El in *.
  apply NoDup_cons in Hnd as [? _]. destruct (proj1 (Hin t)) as (k & ? & ?); [set_solver|by exists k].
Qed.

Lemma left_first g s s1 o b t l :
  blks s !! o = Some b -> blk_list b = t :: l -> t ∉ l -> left_list g t o s s1 ->
  blks s1 !! o = Some (set_blk_list l b).
Proof.
  intros Hb El Ht (_ & -> & _). unfold blk_without. rewrite lookup_alter_eq, Hb. cbn. by rewrite El, list_rm_cons_eq.
Qed.

Lemma left_go bs g o s s1 t k :
  lets_go bs g -> tasks s !! t = Some k -> left_list g t o s s1 -> released bs s s1 t /\ tasks s1 !! t = Some (g k).
Proof.
  intros Hg Hk (E & _). assert (tasks s1 !! t = Some (g k)) as Hk1 by (by rewrite E, lookup_alter_eq, Hk).
  split; [|done]. exists k, (g k). destruct (Hg k) as (? & ? & ?). by split_and!.
Qed.

Lemma left_released bs o s s1 t k : tasks s !! t = Some k -> left_list (woken bs) t o s s1 -> released bs s s1 t.
Proof. intros Hk Hl. exact (proj1 (left_go bs _ o s s1 t k (lets_go_woken bs) Hk Hl)). Qed.

(** ** The common start of the calls on an object *)

Lemma obj_call_wp {R} (r : kstat_t -> R) o b ty (body : bool -> blk_obj_t -> K R) (Q : R -> kstate -> Prop) s :
  blks s !! o = Some b ->
  (0 < g_intrpt_nested_level s -> Q (r RHINO_NOT_CALLED_BY_INTRPT) s) ->
  (g_intrpt_nested_level s <= 0 -> obj_type b <> ty -> Q (r RHINO_KOBJ_TYPE_ERR) s) ->
  (g_intrpt_nested_level s <= 0 -> obj_type b = ty -> wp (body (irq_off s) b) Q (set_irq_off true s)) ->
  wp (cpsr ← RHINO_CRITICAL_ENTER; INTRPT_NESTED_LEVEL_CHK r cpsr (
      b ← get_blk o;
      if negb (bool_decide (obj_type b = ty)) then critical_return cpsr (r RHINO_KOBJ_TYPE_ERR) else body cpsr b)) Q s.
Proof.
  intros Hb H1 H2 H3. kstep. apply wp_critical_enter, wp_nested_chk; [done|]. intros Hn. do 2 kstep.
  destruct (decide (obj_type b = ty)); [rewrite bool_decide_true by done; by apply H3|].
  rewrite bool_decide_false by done. by apply H2.
Qed.

(** The common end of the calls that block; [k'] is what the caller left in its
    control block for whoever wakes it. *)
Lemma block_edit_wp `{CpuPort} {R} (r : R) cpsr o b a k k' ticks (Q : R -> kstate -> Prop) s :
  Inv s -> g_intrpt_nested_level s <= 0 -> g_sched_lock s <= 0 -> g_active_task s = Some a -> a <> g_idle_task ->
  tasks s !! a = Some k -> kproj k' = kproj k -> mutex_list k' = mutex_list k -> tick_match k' = tick_match k ->
  blks s !! o = Some b -> blk_policy b = BLK_POLICY_PRI -> obj_type b <> RHINO_MUTEX_OBJ_TYPE -> timeout_ok ticks ->
  waiter_ok s o (obj_type b) k' ->
  (forall s1 s', lists_only s s1 -> tasks s1 = <[a := blocked o (g_tick_count s) ticks k']> (tasks s) ->
     blks s1 = <[o := set_blk_list (pri_enqueue (prio_of (tasks s)) a (blk_list b)) b]> (blks s) ->
     resched (set_irq_off cpsr s1) s' -> Inv s' -> Q r s') ->
  wp (pend_to_blk_obj o a ticks;; RHINO_CRITICAL_EXIT_SCHED cpsr;; mret r) Q (set_tasks (<[a := k']> (tasks s)) s).
Proof.
  intros HI Hn Hl Ha Hidle Hk Hp Hm Htm Hb Hpol Hty Hto Hw HQ. pose proof (inv_0 s HI) as H0.
  destruct (inv_active s HI) as (a0 & k0 & Ha0 & Hk0 & Hr); [pose proof (i0_nest _ s H0) as []; lia|].
  assert (a0 = a) as -> by congruence. assert (k0 = k) as -> by congruence. pose proof Hp as [= E1 E2 E3 E4 E5].
  set (s1 := set_tasks _ s). assert (Inv0 s1) as H1 by (eapply (inv0_kproj None s a k); try done; intros [E|E]; congruence).
  assert (forall u, prio_of (tasks s1) u = prio_of (tasks s) u) as Hpr.
  { intros u. cbn. destruct (decide (u = a)) as [->|]; [|by apply prio_of_insert_ne]. by rewrite prio_of_insert, (prio_of_Some _ _ _ Hk). }
  kstep. eapply (block_inv_wp None a k'); [exact H1|apply lookup_insert_eq|congruence|done| |done..| |].
  { pose proof (i0_lock_range _ s H0). cbn. lia. }
  { intros _. by eapply (waiter_ok_bodies s). }
  intros s2 H2 Ef Et Eb. apply exit_sched_inv; [done|]. intros s' Hre HI'. apply (HQ s2 s'); try done.
  - rewrite Et. cbn. by rewrite insert_insert_eq.
  - rewrite Eb. cbn [blks s1 set_tasks]. do 2 f_equal. clear -Hpr.
    induction (blk_list b) as [|x l IH]; [done|]. cbn [pri_enqueue]. rewrite !Hpr. by rewrite IH.
Qed.

Lemma block_call_wp `{CpuPort} {R} (r : R) cpsr o b ticks (Q : R -> kstate -> Prop) s :
  Inv s -> g_intrpt_nested_level s <= 0 -> g_sched_lock s <= 0 -> g_active_task s <> Some g_idle_task ->
  blks s !! o = Some b -> blk_policy b = BLK_POLICY_PRI -> obj_type b <> RHINO_MUTEX_OBJ_TYPE -> timeout_ok ticks ->
  (forall a k, g_active_task s = Some a -> tasks s !! a = Some k -> waiter_ok s o (obj_type b) k) ->
  (forall a k s1 s', g_active_task s = Some a -> tasks s !! a = Some k -> lists_only s s1 ->
     tasks s1 = <[a := blocked o (g_tick_count s) ticks k]> (tasks s) ->
     blks s1 = <[o := set_blk_list (pri_enqueue (prio_of (tasks s)) a (blk_list b)) b]> (blks s) ->
     resched (set_irq_off cpsr s1) s' -> Inv s' -> Q r s') ->
  wp (a ← cur_task; pend_to_blk_obj o a ticks;; RHINO_CRITICAL_EXIT_SCHED cpsr;; mret r) Q s.
Proof.
  intros HI Hn Hl Hidle Hb Hpol Hty Hto Hw HQ. destruct (ci_active s (i0_ci _ s (inv_0 s HI))) as (a & k & Ha & Hk).
  do 2 kstep. assert (set_tasks (<[a := k]> (tasks s)) s = s) as Es by (by rewrite insert_id). rewrite <- Es.
  eapply (block_edit_wp r cpsr o b a k k); try done; [congruence|by eapply Hw|]. intros s1 s'. by apply HQ.
Qed.

(** ** Deleting an object *)

Lemma wf_retype s o b ty :
  WF s -> blks s !! o = Some b -> WF (set_blks (<[o := set_obj_type ty b]> (blks s)) s).
Proof.
  intros [? ? Hb ? Hk] Ho. split; try done.
  - intros o' b'. cbn. rewrite lookup_insert_Some. intros [[<- <-]|[? ?]]; [by apply (Hb o b)|by apply Hb].
  - intros t k Ht. eapply task_ok_dom; [|by apply (Hk t)]. intros o' ?. by apply is_Some_insert.
Qed.

(** An object without an owner: not a mutex, or a free one. *)
Lemma mi_untyped s o b ty :
  MI s -> blks s !! o = Some b -> (forall t, ~ owned s o t) -> ty <> RHINO_MUTEX_OBJ_TYPE ->
  MI (set_blks (<[o := set_obj_type ty b]> (blks s)) s).
Proof.
  intros Hmi Hb Hno Hty. pose proof Hmi as [[Hc Ho Hw Hmu] Hin]. set (s' := set_blks _ s).
  assert (forall o', is_mutex s' o' <-> is_mutex s o' /\ o' <> o) as Hm.
  { intros o'. unfold is_mutex. cbn. destruct (decide (o' = o)) as [->|].
    - rewrite lookup_insert_eq. split; [by intros (b' & [= <-] & ?)|by intros [_ ?]].
    - rewrite lookup_insert_ne by done. naive_solver. }
  assert (forall w o', waits s' w o' <-> waits s w o') as Hwt.
  { intros w o'. unfold waits at 1. rewrite Hm. split; [intros [[? _] ?]; by split|]. intros Hx. pose proof Hx as [? ?].
    split_and!; [done| |done]. intros ->. destruct (Hw w o Hx) as (t & Ht & _). by apply Hno in Ht. }
  assert (forall o' t, owned s' o' t <-> owned s o' t) as Hown.
  { intros o' t. unfold owned at 1. rewrite Hm. split; [intros [[? _] ?]; by split|]. intros Hx. pose proof Hx as [? ?].
    split_and!; [done| |done]. intros ->. by apply Hno in Hx. }
  split; [split|].
  - intros t k Hk Hl. destruct (Hc t k Hk Hl) as (l & ? & ? & Hl'). exists l. split_and!; [done..|]. intros o'. by rewrite Hown.
  - intros o' t Ht%Hown. by apply (Ho o').
  - intros w o' Hx%Hwt. destruct (Hw w o' Hx) as (t & ? & ?). exists t. by rewrite Hown.
  - intros o' b'. cbn. rewrite lookup_insert_Some. intros [[<- <-]|[? Hb']] ?; [done|by apply (Hmu o' b')].
  - intros t k Hk Hl. eapply is_min_ext; [|exact (Hin t k Hk Hl)]. intros q. unfold eff. by setoid_rewrite Hown; setoid_rewrite Hwt.
Qed.

Section del.
Context `{CpuPort}.

Lemma ni_retype s o b :
  NI None s -> blks s !! o = Some b ->
  NI (Some o) (set_blks (<[o := set_obj_type RHINO_OBJ_TYPE_NONE b]> (blks s)) s).
Proof.
  intros [Hwf [] ? ? HO ? ? ? ?] Hb. split; try done; [by apply wf_retype|].
  intros o' Ho' b'. cbn. rewrite lookup_insert_ne by congruence. intros Hb'.
  destruct (HO o' ltac:(done) b' Hb') as (? & Hbd & Hw). split_and!; [done|by eapply (body_ok_bodies s)|].
  intros t k Hk Hin. by eapply (waiter_ok_bodies s), Hw.
Qed.

Lemma inv0_retype s o b :
  Inv0 s -> blks s !! o = Some b -> (forall t, ~ owned s o t) ->
  Inv0x (Some o) (set_blks (<[o := set_obj_type RHINO_OBJ_TYPE_NONE b]> (blks s)) s).
Proof.
  intros H0 Hb Hno. apply ni_inv0; [by apply ni_retype; [apply inv0_ni|]|]. apply mi_untyped; try done. apply H0.
Qed.

Lemma inv0_deleted s o b :
  Inv0x (Some o) s -> blks s !! o = Some b -> obj_type b = RHINO_OBJ_TYPE_NONE -> blk_policy b = BLK_POLICY_PRI ->
  blk_list b = [] -> Inv0 s.
Proof.
  intros [HC HO HL ? ? ?] Hb Hty Hpol Hl. split; try done. intros o' _.
  destruct (decide (o' = o)) as [->|]; [|by apply HO; congruence]. intros b' Hb'.
  assert (b' = b) as -> by congruence. rewrite Hty. split_and!; try done.
  intros t k Hk Hin. by apply (waiter_listed s o b t k).
Qed.

Lemma drain_deleted_wp {R} o b (next : K R) (Q : R -> kstate -> Prop) s :
  Inv0x (Some o) s -> blks s !! o = Some b -> obj_type b = RHINO_OBJ_TYPE_NONE -> blk_policy b = BLK_POLICY_PRI ->
  (forall s1, Inv0 s1 -> lists_only s s1 -> blks s1 = <[o := set_blk_list [] b]> (blks s) ->
     Forall (released BLK_DEL s s1) (blk_list b) -> wp next Q s1) ->
  wp (blk_wake_all o pend_task_rm;; next) Q s.
Proof.
  intros H0 Hb Hty Hpol HQ. kstep.
  eapply (blk_wake_all_wp (Some o) o (woken BLK_DEL)); [intros; by eapply (rm_inv_wp (Some o))|exact H0|exact Hb|congruence|].
  intros s1 H1 Hall. pose proof Hall as (_ & Eb & Ef). apply HQ; [|done|done|].
  - eapply inv0_deleted; [done|rewrite Eb; apply lookup_insert_eq|done..].
  - apply Forall_forall. intros t Ht. by eapply (all_left_released BLK_DEL o _ s); [apply H0|..].
Qed.

Lemma del_drain_wp {R} o b (next : K R) (Q : R -> kstate -> Prop) s :
  Inv0 s -> blks s !! o = Some b -> obj_type b <> RHINO_MUTEX_OBJ_TYPE -> blk_policy b = BLK_POLICY_PRI ->
  (forall s1, Inv0 s1 -> lists_only s s1 ->
     blks s1 = <[o := set_blk_list [] (set_obj_type RHINO_OBJ_TYPE_NONE b)]> (blks s) ->
     Forall (released BLK_DEL s s1) (blk_list b) -> wp next Q s1) ->
  wp (upd_blk o (set_obj_type RHINO_OBJ_TYPE_NONE);; blk_wake_all o pend_task_rm;; next) Q s.
Proof.
  intros H0 Hb Hty Hpol HQ. do 2 kstep. set (s0 := set_blks _ s).
  eapply (drain_deleted_wp o (set_obj_type RHINO_OBJ_TYPE_NONE b) next Q s0); [apply inv0_retype; [done..|intros t [(b' & ? & ?) _]; congruence]|apply lookup_insert_eq|done..|].
  intros s1 H1 Ef Eb Hrel. apply HQ; try done. rewrite Eb. unfold s0. cbn. by rewrite insert_insert_eq.
Qed.

End del.
