(* ===== verification/Create.v ===== *)
(** * Creating objects

    The storage of an object may be used for a new object when no task waits for
    it and no task holds it as a mutex; the kernel invariant then holds with the
    new object in it. *)

From S2P Require Import Prelude KErr RingBuf KState KMonad Sched Pend KInv Mutex PriInv Sem Event Queue BufQueue Inv Moves.
Local Open Scope Z_scope.

(** Nobody waits for [o] and nobody holds it. *)
Definition obj_idle (s : kstate) (o : oid) : Prop :=
  (forall b, blks s !! o = Some b -> blk_list b = []) /\ forall t, ~ owned s o t.

Lemma obj_fresh_idle s o : blks s !! o = None -> obj_idle s o.
Proof. intros E. split; [intros b Hb; congruence|]. intros t [(b & Hb & _) _]. congruence. Qed.

Section idle.
Context (s : kstate) (o : oid) (nb : blk_obj_t) (Hidle : obj_idle s o).
Context (Hl : blk_list nb = []).

Definition with_obj : kstate := set_blks (<[o := nb]> (blks s)) s.

Lemma idle_no_waiter t k : WF s -> tasks s !! t = Some k -> ~ in_blk o k.
Proof using Hidle.
  clear Hl.
  intros Hwf Hk [Hp Ho]. destruct (to_pend _ _ (wf_task s Hwf t k Hk) Hp) as (o' & b & Ho' & Hb).
  assert (o' = o) as -> by congruence. assert (t ∈ blk_list b) as Hin
    by (by eapply list_ok_in; [apply (wf_blks s Hwf o b Hb)|..]). rewrite (proj1 Hidle b Hb) in Hin. set_solver.
Qed.

Lemma with_obj_wf : WF s -> WF with_obj.
Proof.
  intros Hwf. pose proof Hwf as [? ? Hb ? Hk]. split; try done.
  - intros o' b'. cbn. rewrite lookup_insert_Some. intros [[<- <-]|[? ?]]; [|by apply Hb]. rewrite Hl. split.
    + split; [constructor|]. intros t. split; [set_solver|]. intros (k & Hkt & Hin). by destruct (idle_no_waiter t k Hwf Hkt).
    + intros _. constructor.
  - intros t k Ht. eapply task_ok_dom; [|by apply (Hk t)]. intros o' ?. by apply is_Some_insert.
Qed.

(** With the links of [o] itself overwritten too. *)
Lemma with_obj_mi ms' :
  WF s -> MI s -> (forall o', o' <> o -> ms' !! o' = mutexes s !! o') ->
  (obj_type nb = RHINO_MUTEX_OBJ_TYPE -> blk_policy nb = BLK_POLICY_PRI /\ exists m, ms' !! o = Some m /\ mutex_task m = None) ->
  MI (set_mutexes ms' with_obj).
Proof.
  intros Hwf [[Hc Ho Hw Hmu] Hin] Hms Hnew. set (s' := set_mutexes ms' _).
  assert (forall o', o' <> o -> is_mutex s' o' <-> is_mutex s o') as Hm
    by (intros o' Hne; unfold is_mutex; cbn; by rewrite lookup_insert_ne).
  assert (forall o' t, owned s' o' t <-> owned s o' t) as Hown.
  { intros o' t. destruct (decide (o' = o)) as [->|Hne].
    - split; [|by intros Hx%Hidle]. intros [(b & Hb & Ht) (m & Hmo & Et)]. cbn in Hb, Hmo. rewrite lookup_insert_eq in Hb.
      injection Hb as <-. destruct (Hnew Ht) as (_ & m' & Hm' & ?). congruence.
    - unfold owned. rewrite Hm by done. cbn. by rewrite Hms. }
  assert (forall w o', waits s' w o' <-> waits s w o') as Hwt.
  { intros w o'. destruct (decide (o' = o)) as [->|Hne]; [|unfold waits; by rewrite Hm].
    split; intros [_ (k & Hk & Hik)]; by destruct (idle_no_waiter w k Hwf Hk). }
  split; [split|].
  - intros t k Hk Hlv. destruct (Hc t k Hk Hlv) as (l & Hch & ? & Hl'). exists l. split_and!; [|done|intros o'; by rewrite Hown].
    eapply chain_ext; [|exact Hch]. intros o' Ho'. apply Hms. intros ->. apply Hl' in Ho'. by apply Hidle in Ho'.
  - intros o' t Ht%Hown. by apply (Ho o').
  - intros w o' Hx%Hwt. destruct (Hw w o' Hx) as (t & ? & ?). exists t. by rewrite Hown.
  - intros o' b'. cbn. rewrite lookup_insert_Some. intros [[<- <-]|[Hne Hb']] Ht.
    + destruct (Hnew Ht) as (? & m & ? & _). eauto.
    + rewrite Hms by done. by apply (Hmu o' b').
  - intros t k Hk Hlv. eapply is_min_ext; [|exact (Hin t k Hk Hlv)]. intros q. unfold eff. by setoid_rewrite Hown; setoid_rewrite Hwt.
Qed.

End idle.

Section create.
Context `{CpuPort}.

(** Nothing but the object [o], now of control block [nb], differs. *)
Definition created (o : oid) (nb : blk_obj_t) (s s' : kstate) : Prop :=
  other_bodies o s s' /\
  core s' = core (set_mutexes (mutexes s') (with_obj s o nb)) /\ irq_off s' = irq_off s.

Lemma created_inv o nb s s' :
  Inv s -> obj_idle s o -> created o nb s s' -> blk_list nb = [] -> blk_policy nb = BLK_POLICY_PRI ->
  body_ok s' o (obj_type nb) ->
  (obj_type nb = RHINO_MUTEX_OBJ_TYPE -> exists m, mutexes s' !! o = Some m /\ mutex_task m = None) -> Inv s'.
Proof.
  intros [H0 Ht] Hidle (Hob & Hc & _) Hl Hp Hbody Hmu. pose proof (inv0_ni _ s H0) as Hn. pose proof (ni_wf _ s Hn) as Hwf.
  set (s1 := set_mutexes (mutexes s') (with_obj s o nb)) in *.
  assert (Inv0 s') as H0'.
  { apply ni_inv0.
    - destruct Hn as [_ [Hs Hr] Hid Ha HO HL ? ? ?]. unfold core in Hc. cbn in Hc.
      injection Hc as Et Eb Er Ek Ec Ea El En Es.
      split; rewrite ?Et, ?Ea, ?El, ?En, ?Es; try done.
      + by apply (wf_same (with_obj s o nb)); [..|apply with_obj_wf].
      + split; [rewrite Ek; eapply sorted_ext; [|exact Hs]; intros; unfold rem_of|]; unfold tick_rem; by rewrite ?Et, ?Ec.
      + intros o' _ b'. rewrite Eb, lookup_insert_Some. intros [[<- <-]|[Hne Hb']].
        * split_and!; [done..|]. intros t k Hk Hin. rewrite Et in Hk. by destruct (idle_no_waiter s o Hidle t k Hwf Hk).
        * destruct (HO o' ltac:(done) b' Hb') as (? & Hbd & Hw). split_and!; [done|by eapply other_body_ok|].
          intros t k Hk Hin. rewrite Et in Hk. eapply other_waiter_ok; [done..|]. by eapply Hw.
      + unfold lock_ok. by rewrite El, Ea, Et.
    - apply (me_MI s1).
      + unfold core in Hc. cbn in Hc. injection Hc as Et Eb _ _ _ _ _ _ _. by apply mi_same.
      + apply with_obj_mi; [done..|apply H0|apply Hob|]. intros Hty. split; [done|]. by apply Hmu. }
  split; [done|]. unfold core in Hc. cbn in Hc. injection Hc as _ _ Hr _ _ Ha El En _.
  unfold postponed, top_task. rewrite Hr, Ha, El, En. exact Ht.
Qed.

(** ** The creation calls *)

Inductive new_obj :=
  | NewSem (count : Z)
  | NewMutex
  | NewQueue (start : Z * list Z) (msg_num : Z)
  | NewBufQueue (buf : Z * list Z) (size max_msg : Z)
  | NewFixBufQueue (buf : Z * list Z) (msg_size msg_num : Z)
  | NewEvent (flags : Z).

Definition new_type (n : new_obj) : kobj_type_t :=
  match n with
  | NewSem _ => RHINO_SEM_OBJ_TYPE
  | NewMutex => RHINO_MUTEX_OBJ_TYPE
  | NewQueue _ _ => RHINO_QUEUE_OBJ_TYPE
  | NewBufQueue _ _ _ | NewFixBufQueue _ _ _ => RHINO_BUF_QUEUE_OBJ_TYPE
  | NewEvent _ => RHINO_EVENT_OBJ_TYPE
  end.

Definition create_exec (o : oid) (name : Z) (n : new_obj) : K kstat_t :=
  match n with
  | NewSem count => krhino_sem_create (Some o) (Some name) count
  | NewMutex => krhino_mutex_create (Some o) (Some name)
  | NewQueue start msg_num => krhino_queue_create (Some o) (Some name) (Some start) msg_num
  | NewBufQueue buf size max_msg => krhino_buf_queue_create (Some o) (Some name) (Some buf) size max_msg
  | NewFixBufQueue buf msg_size msg_num => krhino_fix_buf_queue_create (Some o) (Some name) (Some buf) msg_size msg_num
  | NewEvent flags => krhino_event_create (Some o) (Some name) flags
  end.

(** The same, for an object whose storage is of the kind [flag]. *)
Definition create_with (flag : Z) (o : oid) (name : Z) (n : new_obj) : K kstat_t :=
  match n with
  | NewSem count => sem_create (Some o) (Some name) count flag
  | NewMutex => mutex_create (Some o) (Some name) flag
  | NewQueue start msg_num => queue_create (Some o) (Some name) (Some start) msg_num flag
  | NewBufQueue buf size max_msg => buf_queue_create (Some o) (Some name) (Some buf) size max_msg flag RINGBUF_TYPE_DYN
  | NewFixBufQueue buf msg_size msg_num =>
      buf_queue_create (Some o) (Some name) (Some buf) (u32 (msg_size * msg_num)) msg_size flag RINGBUF_TYPE_FIX
  | NewEvent flags => event_create (Some o) (Some name) flags flag
  end.

Lemma create_static o name n : create_exec o name n = create_with K_OBJ_STATIC_ALLOC o name n.
Proof. by destruct n. Qed.

(** How the storage of an object was obtained, and the storage of its messages. *)
Definition obj_flag (s : kstate) (o : oid) (ty : kobj_type_t) : option Z :=
  match ty with
  | RHINO_SEM_OBJ_TYPE => sem_mm_flag <$> sems s !! o
  | RHINO_MUTEX_OBJ_TYPE => mutex_mm_flag <$> mutexes s !! o
  | RHINO_QUEUE_OBJ_TYPE => q_mm_flag <$> queues s !! o
  | RHINO_BUF_QUEUE_OBJ_TYPE => bq_mm_flag <$> bufqs s !! o
  | RHINO_EVENT_OBJ_TYPE => ev_mm_flag <$> events s !! o
  | _ => None
  end.

Definition obj_buf (s : kstate) (o : oid) (ty : kobj_type_t) : option Z :=
  match ty with
  | RHINO_QUEUE_OBJ_TYPE => queue_start <$> queues s !! o
  | RHINO_BUF_QUEUE_OBJ_TYPE => bq_buf <$> bufqs s !! o
  | _ => None
  end.

Definition new_buf (n : new_obj) : option Z :=
  match n with
  | NewQueue start _ => Some start.1
  | NewBufQueue buf _ _ | NewFixBufQueue buf _ _ => Some buf.1
  | _ => None
  end.

(** The sizes passed are those of the memory passed. *)
Definition create_pre (n : new_obj) : Prop :=
  match n with
  | NewSem count => fits sem_count_bits count
  | NewMutex => True
  | NewEvent flags => fits 32 flags
  | NewQueue start msg_num => 0 < msg_num /\ msg_num * PTR_SIZE <= Z.of_nat (length (snd start)) /\ msg_num * PTR_SIZE < 2 ^ 32
  | NewBufQueue buf size max_msg => 0 < max_msg /\ 0 < size <= Z.of_nat (length (snd buf))
  | NewFixBufQueue buf msg_size msg_num =>
      0 < msg_size /\ 0 < msg_num /\ msg_size * msg_num <= Z.of_nat (length (snd buf)) /\ msg_size * msg_num < 2 ^ 32
  end.

(** What a new object holds. *)
Definition new_body (o : oid) (n : new_obj) (s : kstate) : Prop :=
  match n with
  | NewSem count => exists m, sems s !! o = Some m /\ sem_count m = count
  | NewMutex => exists m, mutexes s !! o = Some m /\ mutex_task m = None
  | NewQueue _ msg_num => exists q, queues s !! o = Some q /\ q_size q = msg_num /\ queue_repr q []
  | NewBufQueue _ size max_msg => exists q, bufqs s !! o = Some q /\ max_msg_size q = max_msg /\
      bufq_repr q (mk_fifo size RINGBUF_TYPE_DYN max_msg [])
  | NewFixBufQueue _ msg_size msg_num => exists q, bufqs s !! o = Some q /\ max_msg_size q = msg_size /\
      bufq_repr q (mk_fifo (msg_size * msg_num) RINGBUF_TYPE_FIX msg_size [])
  | NewEvent flags => exists e, events s !! o = Some e /\ ev_flags e = flags
  end.

Ltac new_created := split_and!; [split; cbn; auto using lookup_insert_other|reflexivity|reflexivity].

Ltac new_flag := try reflexivity; cbn; by rewrite lookup_insert_eq.

Lemma ring_new buf len type block_size :
  0 < len <= Z.of_nat (length buf) -> 0 < block_size ->
  type = RINGBUF_TYPE_DYN \/ type = RINGBUF_TYPE_FIX /\ len mod block_size = 0 ->
  rb_sim (snd (ringbuf_init buf len type block_size)) (mk_fifo len type block_size []).
Proof.
  intros Hlen Hbs Hty. apply (rb_init_sim buf); [lia..|]. cbn [krhino_ringbuf_init].
  rewrite (proj2 (Z.eqb_neq len 0)), (proj2 (Z.eqb_neq block_size 0)) by lia.
  destruct Hty as [->|[-> E]]; [done|]. by rewrite E.
Qed.

Lemma create_wp flag o name n s :
  create_pre n ->
  wp (create_with flag o name n) (fun r s' => r = RHINO_SUCCESS /\ created o (mk_blk [] name BLK_POLICY_PRI (new_type n)) s s' /\
    new_body o n s' /\ obj_flag s' o (new_type n) = Some flag /\ obj_buf s' o (new_type n) = new_buf n) s.
Proof.
  intros Hpre. destruct n as [count| |[addr mem] msg_num|[addr mem] size max_msg|[addr mem] msg_size msg_num|flags]; cbn in Hpre; cbn [create_with].
  - ksteps. split_and!; [done|new_created| |new_flag..]. eexists. split; [apply lookup_insert_eq|done].
  - ksteps. split_and!; [done|new_created| |new_flag..]. eexists. split; [apply lookup_insert_eq|done].
  - unfold queue_create. cbn [NULL_PARA_CHK]. rewrite (proj2 (Z.eqb_neq msg_num 0)) by lia. ksteps.
    split_and!; [done|new_created| |new_flag..]. eexists. split; [apply lookup_insert_eq|]. split; [done|]. split_and!; [|done|constructor].
    unfold PTR_SIZE in *. unfold u32. rewrite wrap_small by lia. apply (ring_new mem (msg_num * 4)); [lia..|]. right. split; [done|]. by apply Z.mod_mul.
  - unfold buf_queue_create. cbn [NULL_PARA_CHK].
    rewrite (proj2 (Z.eqb_neq max_msg 0)), (proj2 (Z.eqb_neq size 0)) by lia. ksteps.
    split_and!; [done|new_created| |new_flag..]. eexists. split; [apply lookup_insert_eq|]. split; [done|]. split_and!; [|done..|constructor].
    cbn [snd]. apply ring_new; [lia..|]. by left.
  - destruct Hpre as (H1 & H2 & H3 & H4). pose proof (Z.mul_pos_pos _ _ H1 H2).
    unfold buf_queue_create, u32. cbn [NULL_PARA_CHK]. rewrite wrap_small by lia.
    rewrite (proj2 (Z.eqb_neq msg_size 0)), (proj2 (Z.eqb_neq (msg_size * msg_num) 0)) by lia. ksteps.
    split_and!; [done|new_created| |new_flag..]. eexists. split; [apply lookup_insert_eq|]. split; [done|]. split_and!; [|done..|constructor].
    cbn [snd] in *. apply ring_new; [lia..|]. right. split; [done|]. rewrite Z.mul_comm. apply Z.mod_mul. lia.
  - ksteps. split_and!; [done|new_created| |new_flag..]. eexists. split; [apply lookup_insert_eq|done].
Qed.

Lemma new_body_ok o n s : create_pre n -> new_body o n s -> body_ok s o (new_type n).
Proof.
  destruct n; cbn; intros Hpre.
  - intros (m & ? & <-). eauto.
  - intros (m & ? & E). exists m. split; [done|]. by rewrite E.
  - intros (q & ? & _ & ?). eauto.
  - intros (q & ? & _ & ?). eauto.
  - intros (q & ? & _ & ?). eauto.
  - intros (e & ? & <-). eauto.
Qed.

Lemma create_with_inv flag o name n s :
  Inv s -> obj_idle s o -> create_pre n ->
  wp (create_with flag o name n) (fun r s' => r = RHINO_SUCCESS /\ Inv s' /\
    created o (mk_blk [] name BLK_POLICY_PRI (new_type n)) s s' /\ new_body o n s' /\
    obj_flag s' o (new_type n) = Some flag /\ obj_buf s' o (new_type n) = new_buf n) s.
Proof.
  intros HI Hidle Hpre. eapply wp_mono; [by apply create_wp|]. intros r s' (-> & Hc & Hb & Hf & Hbf). split_and!; try done.
  eapply created_inv; [done..|by apply new_body_ok|]. destruct n; try done; cbn in Hb; eauto.
Qed.

Lemma create_inv o name n s :
  Inv s -> obj_idle s o -> create_pre n ->
  wp (create_exec o name n) (fun r s' => r = RHINO_SUCCESS /\ Inv s' /\
    created o (mk_blk [] name BLK_POLICY_PRI (new_type n)) s s' /\ new_body o n s') s.
Proof.
  intros HI Hidle Hpre. rewrite create_static. eapply wp_mono; [by apply create_with_inv|].
  by intros r s' (-> & ? & ? & ? & _).
Qed.

End create.
