(* ===== verification/KSys.v ===== *)
(** * System start, interrupts and time
      ([rhino/core/k_sys.c], [rhino/core/k_time.c], [rhino/core/k_dyn_mem_proc.c]) *)

From S2P Require Import Prelude KErr KState KMonad Sched Pend Mutex PriInv Sem Task.
Local Open Scope Z_scope.

Section port.
Context `{CpuPort}.

Definition krhino_intrpt_enter : K kstat_t :=
  cpsr ← RHINO_CPU_INTRPT_DISABLE;
  modify (fun s => set_g_intrpt_nested_level (u8 (g_intrpt_nested_level s + 1)) s);;
  RHINO_CPU_INTRPT_ENABLE cpsr;;
  mret RHINO_SUCCESS.

Definition krhino_intrpt_exit : K unit :=
  cpsr ← RHINO_CPU_INTRPT_DISABLE;
  modify (fun s => set_g_intrpt_nested_level (u8 (g_intrpt_nested_level s - 1)) s);;
  lvl ← gets g_intrpt_nested_level;
  if 0 <? lvl then RHINO_CPU_INTRPT_ENABLE cpsr
  else
    lock ← gets g_sched_lock;
    if 0 <? lock then RHINO_CPU_INTRPT_ENABLE cpsr
    else
      preferred_cpu_ready_task_get;;
      p ← gets g_preferred_ready_task;
      a ← gets g_active_task;
      if decide (p = a) then RHINO_CPU_INTRPT_ENABLE cpsr
      else cpu_intrpt_switch;; RHINO_CPU_INTRPT_ENABLE cpsr.

(** The tick interrupt handler. *)
Definition krhino_tick_proc : K unit :=
  tick_list_update 1;;
  time_slice_update.

Definition krhino_sys_tick_get : K Z :=
  cpsr ← RHINO_CPU_INTRPT_DISABLE;
  n ← gets g_tick_count;
  RHINO_CPU_INTRPT_ENABLE cpsr;;
  mret n.

(** ** Start-up

    [krhino_init] without the optional components (memory pool, work queue,
    timer, CPU usage statistics).  The addresses of the static names, stacks and
    entry points are arbitrary non-NULL values. *)

Definition g_dyn_task : tid := 1%nat.

Definition RHINO_CONFIG_K_DYN_MEM_TASK_PRI : Z := RHINO_CONFIG_USER_PRI_MAX.

Definition RHINO_CONFIG_K_DYN_TASK_STACK : Z := 256.

Definition RHINO_CONFIG_IDLE_TASK_STACK_SIZE : Z := 100.

Definition static_addr : option Z := Some 1.

Definition dyn_mem_proc_task_start : K kstat_t :=
  krhino_task_create (Some g_dyn_task) static_addr 0 RHINO_CONFIG_K_DYN_MEM_TASK_PRI 0 static_addr
    RHINO_CONFIG_K_DYN_TASK_STACK static_addr 1.

Definition krhino_init : K kstat_t :=
  modify (set_g_sys_stat RHINO_STOPPED);;
  runqueue_init;;
  tick_list_init;;
  modify (set_g_res_list []);;
  krhino_sem_create (Some g_res_sem) static_addr 0;;
  dyn_mem_proc_task_start;;
  krhino_task_create (Some g_idle_task) static_addr 0 RHINO_IDLE_PRI 0 static_addr
    RHINO_CONFIG_IDLE_TASK_STACK_SIZE static_addr 1;;
  mret RHINO_SUCCESS.

(** Up to [cpu_first_task_start], which does not return. *)
Definition krhino_start : K kstat_t :=
  st ← gets g_sys_stat;
  if bool_decide (st = RHINO_STOPPED) then
    preferred_cpu_ready_task_get;;
    modify (fun s => set_g_active_task (g_preferred_ready_task s) s);;
    modify (set_g_sys_stat RHINO_RUNNING);;
    mret RHINO_SYS_FATAL_ERR
  else mret RHINO_RUNNING.

End port.

(** The zero-initialised globals before [krhino_init]. *)
Definition bss_state : kstate :=
  mk_kstate RHINO_SUCCESS 0 (mk_rq (replicate (Z.to_nat RHINO_CONFIG_PRI_MAX) []) (replicate (Z.to_nat NUM_WORDS) 0) 0)
    0 0 None None 0 [] ∅ ∅ ∅ ∅ ∅ ∅ ∅ [] ∅ ∅ false [].

(** ** Time conversion *)

Definition RHINO_CONFIG_TICKS_PER_SECOND : Z := 100.

Definition krhino_ms_to_ticks (ms : Z) : Z :=
  let surplus := u16 (ms mod 1000) in
  let ticks := u64 (ms / 1000 * RHINO_CONFIG_TICKS_PER_SECOND) in
  let padding := u16 (1000 / RHINO_CONFIG_TICKS_PER_SECOND) in
  let padding := u16 (if 0 <? padding then padding - 1 else 0) in
  u64 (ticks + (surplus + padding) * RHINO_CONFIG_TICKS_PER_SECOND / 1000).

Definition krhino_ticks_to_ms (ticks : Z) : Z :=
  let surplus := u32 (ticks mod RHINO_CONFIG_TICKS_PER_SECOND) in
  let time := u64 (ticks / RHINO_CONFIG_TICKS_PER_SECOND * 1000) in
  let padding := u32 (RHINO_CONFIG_TICKS_PER_SECOND / 1000) in
  let padding := u32 (if 0 <? padding then padding - 1 else 0) in
  u64 (time + (surplus + padding) * 1000 / RHINO_CONFIG_TICKS_PER_SECOND).

Definition krhino_sys_time_get : K Z :=
  n ← krhino_sys_tick_get; mret (u64 (n * 1000) / RHINO_CONFIG_TICKS_PER_SECOND).
