(* ===== verification/Boot.v ===== *)
(** * Start-up establishes the invariant *)

From S2P Require Import Prelude KErr Bitmap RingBuf KState KMonad Sched Pend KInv Mutex PriInv Sem Task Event Queue Inv Moves Create KSys.
Local Open Scope Z_scope.

Section boot.
Context `{CpuPort}.

(** A run queue holding exactly the tasks [l] gives for each priority. *)
Lemma rq_empty_ok bm : bm = replicate (Z.to_nat NUM_WORDS) 0 ->
  let rq := mk_rq (replicate (Z.to_nat RHINO_CONFIG_PRI_MAX) []) bm RHINO_CONFIG_PRI_MAX in
  rq_ok rq /\ forall p, rql rq p = [].
Proof.
  intros -> rq. assert (forall p, rql rq p = []) as E.
  { intros p. unfold rql, arr_get. case_decide; [|done]. cbn [cur_list_item rq].
    destruct (replicate _ [] !! Z.to_nat p) as [l|] eqn:El; [|done]. by apply lookup_replicate_1 in El as [-> _]. }
  split; [|done]. split.
  - done.
  - done.
  - apply Forall_forall. intros w [-> _]%elem_of_replicate. by vm_compute.
  - intros p. rewrite E. split; [|done]. cbn [task_bit_map rq]. unfold bit_at, arr_get. case_decide; [|done].
    destruct (replicate _ 0 !! _) as [w|] eqn:Ew; [|done]. apply lookup_replicate_1 in Ew as [-> _].
    by rewrite Z.testbit_0_l.
  - intros p Hp. by rewrite E in Hp.
  - right. split; [done|apply E].
Qed.

(** Creating a ready task while the system is stopped. *)
Lemma boot_create_wp t pri size (Q : kstat_t -> kstate -> Prop) s :
  g_sys_stat s = RHINO_STOPPED -> g_intrpt_nested_level s = 0 -> rq_ok (g_ready_queue s) -> prio_ok pri ->
  (pri = RHINO_IDLE_PRI -> g_idle_task_spawned s = 0) -> size <> 0 ->
  (forall rq', rq_ok rq' ->
     (forall q, rql rq' q = if decide (q = pri) then rql (g_ready_queue s) q ++ [t] else rql (g_ready_queue s) q) ->
     Q RHINO_SUCCESS (set_g_ready_queue rq' (set_tasks
       (<[t := new_task 1 0 pri 0 1 size 1 1 K_OBJ_STATIC_ALLOC 0]> (tasks s))
       (set_g_idle_task_spawned (if pri =? RHINO_IDLE_PRI then 1 else g_idle_task_spawned s) s)))) ->
  wp (krhino_task_create (Some t) static_addr 0 pri 0 static_addr size static_addr 1) Q s.
Proof.
  intros Hst Hn Hrq Hp Hsp Hsz HQ. unfold krhino_task_create, task_create, static_addr. cbn [NULL_PARA_CHK].
  rewrite (proj2 (Z.eqb_neq size 0)) by done. destruct (Z.leb_spec RHINO_CONFIG_PRI_MAX pri); [unfold prio_ok in Hp; lia|].
  kstep. apply wp_critical_enter, wp_nested_chk; [cbn; lia|]. intros _. do 2 kstep. cbn [g_idle_task_spawned set_irq_off].
  assert ((pri =? RHINO_IDLE_PRI) && (0 <? g_idle_task_spawned s) = false) as ->
    by (destruct (Z.eqb_spec pri RHINO_IDLE_PRI) as [E|]; [rewrite (Hsp E)|]; done).
  kstep. eapply (wp_mono _ (fun _ s' => s' = set_irq_off true
    (set_g_idle_task_spawned (if pri =? RHINO_IDLE_PRI then 1 else g_idle_task_spawned s) s))).
  { by destruct (pri =? RHINO_IDLE_PRI); kstep. }
  intros [] ? ->. unfold RHINO_CRITICAL_EXIT, RHINO_CPU_INTRPT_ENABLE. do 5 kstep.
  apply wp_critical_enter. cbn [Z.ltb Z.compare].
  do 2 kstep. eapply ready_list_add_tail_wp; [exact Hrq|apply lookup_insert_eq|exact Hp|]. intros rq' Hok Hr.
  do 2 kstep. cbn [g_sys_stat set_g_ready_queue set_irq_off set_tasks set_g_idle_task_spawned]. rewrite Hst.
  rewrite bool_decide_false by done. do 2 kstep. exact (HQ rq' Hok Hr).
Qed.

(** The two tasks and the semaphore of the kernel. *)
Definition boot_task (pri size : Z) : ktask_t := new_task 1 0 pri 0 1 size 1 1 K_OBJ_STATIC_ALLOC 0.

Definition boot_tasks : gmap tid ktask_t :=
  <[g_idle_task := boot_task RHINO_IDLE_PRI RHINO_CONFIG_IDLE_TASK_STACK_SIZE]>
    (<[g_dyn_task := boot_task RHINO_CONFIG_K_DYN_MEM_TASK_PRI RHINO_CONFIG_K_DYN_TASK_STACK]> ∅).

Definition boot_rql (p : Z) : list tid :=
  if decide (p = RHINO_IDLE_PRI) then [g_idle_task]
  else if decide (p = RHINO_CONFIG_K_DYN_MEM_TASK_PRI) then [g_dyn_task] else [].

(** What start-up leaves behind. *)
Record booted (s : kstate) : Prop := {
  bo_tasks : tasks s = boot_tasks;
  bo_blks : blks s = {[ g_res_sem := mk_blk [] 1 BLK_POLICY_PRI RHINO_SEM_OBJ_TYPE ]};
  bo_sems : sems s = {[ g_res_sem := mk_sem 0 0 K_OBJ_STATIC_ALLOC ]};
  bo_mutexes : mutexes s = ∅;
  bo_tick : g_tick_head s = [];
  bo_rq : rq_ok (g_ready_queue s) /\ forall p, rql (g_ready_queue s) p = boot_rql p;
  bo_ctl : g_sched_lock s = 0 /\ g_intrpt_nested_level s = 0 /\ g_sys_stat s = RHINO_RUNNING /\ irq_off s = false;
  bo_active : g_active_task s = top_task s
}.

Lemma boot_task_inv t k : boot_tasks !! t = Some k ->
  t = g_idle_task /\ k = boot_task RHINO_IDLE_PRI RHINO_CONFIG_IDLE_TASK_STACK_SIZE \/
  t = g_dyn_task /\ k = boot_task RHINO_CONFIG_K_DYN_MEM_TASK_PRI RHINO_CONFIG_K_DYN_TASK_STACK.
Proof.
  unfold boot_tasks. rewrite !lookup_insert_Some, lookup_empty. naive_solver.
Qed.

Lemma boot_task_fields pri size : task_state (boot_task pri size) = K_RDY /\ prio (boot_task pri size) = pri /\
  b_prio (boot_task pri size) = pri /\ tick_head (boot_task pri size) = false /\ mutex_list (boot_task pri size) = None.
Proof. done. Qed.

Lemma booted_wf s : booted s -> WF s.
Proof.
  intros [Et Eb Es Em Ek [Hok Hr] _ _].
  assert (forall t k, tasks s !! t = Some k -> exists pri size, k = boot_task pri size /\ prio_ok pri) as Hk.
  { rewrite Et. intros t k [[_ ->]|[_ ->]]%boot_task_inv; eexists _, _; (split; [done|]); by vm_compute. }
  split; [done|..].
  - intros p. rewrite Hr. unfold boot_rql. split.
    + repeat case_decide; first [apply NoDup_singleton|apply NoDup_nil_2].
    + intros t. rewrite Et. split.
      * repeat case_decide; intros ?%list_elem_of_singleton || intros ?%not_elem_of_nil; subst; try done; eexists; done.
      * intros (k & [[-> ->]|[-> ->]]%boot_task_inv & _ & <-); cbn; set_solver.
  - intros o b. rewrite Eb, lookup_singleton_Some. intros [<- <-]. cbn. split; [|intros _; constructor].
    split; [constructor|]. intros t. split; [set_solver|].
    intros (k & (pri & size & -> & _)%Hk & [[?|?] _]); done.
  - rewrite Ek. split; [constructor|]. intros t. split; [set_solver|]. by intros (k & (pri & size & -> & _)%Hk & ?).
  - intros t k (pri & size & -> & Hp)%Hk. by split; try done; intros [?|?].
Qed.

Lemma booted_mi s : booted s -> MI s.
Proof.
  intros [Et Eb Es Em _ _ _ _].
  assert (forall o, ~ is_mutex s o) as Hnm.
  { intros o (b & Hb & Hty). rewrite Eb, lookup_singleton_Some in Hb. destruct Hb as [_ <-]. done. }
  split; [split|].
  - intros t k. rewrite Et. intros Hk _. exists []. split_and!; [|constructor|].
    + by apply boot_task_inv in Hk as [[_ ->]|[_ ->]].
    + intros o. split; [set_solver|]. intros [Hm _]. by destruct (Hnm o).
  - intros o t [Hm _]. by destruct (Hnm o).
  - intros w o [Hm _]. by destruct (Hnm o).
  - intros o b Hb Hty. destruct (Hnm o). by exists b.
  - intros t k Hk _. assert (prio k = b_prio k) as -> by (rewrite Et in Hk; by apply boot_task_inv in Hk as [[_ ->]|[_ ->]]).
    split; [left; by exists k|]. intros q [(k' & Hk' & ->)|[(w & o & [Hm _] & _)|[]]]; [|by destruct (Hnm o)].
    assert (k' = k) as -> by congruence. lia.
Qed.

Lemma booted_inv s : booted s -> Inv s.
Proof.
  intros Hbo. pose proof (booted_wf s Hbo) as Hwf. pose proof (booted_mi s Hbo) as Hmi.
  destruct Hbo as [Et Eb Es Em Ek [Hok Hr] (El & En & Est & _) Ea].
  assert (CI (set_g_active_task (Some g_idle_task) s)) as HC.
  { split.
    - by apply (wf_same s).
    - eapply (me_MI s); [by apply mi_same|done].
    - split; [cbn; rewrite Ek; constructor|]. intros t k. cbn. rewrite Et. by intros [[_ ->]|[_ ->]]%boot_task_inv.
    - cbn. rewrite Et. eexists. by split.
    - eexists _, _. cbn. by rewrite Et. }
  destruct (ci_top _ HC) as (t & k & Htop & Hk & _).
  split; [|done]. split; rewrite ?El, ?En, ?Est; try done.
  - apply (ci_same (set_g_active_task (Some g_idle_task) s)); try done. rewrite Ea. by exists t, k.
  - intros o _ b. rewrite Eb, lookup_singleton_Some. intros [<- <-]. split_and!; [done|..]; cbn.
    + eexists. rewrite Es, lookup_singleton_eq. split; [done|]. pose proof port_bits_pos as (? & _).
      split; cbn; [lia|]. apply Z.pow_pos_nonneg; lia.
    + intros u ku Hu [[?|?] _]; rewrite Et in Hu; by apply boot_task_inv in Hu as [[_ ->]|[_ ->]].
  - by intros Hne.
Qed.

Lemma boot_wp : wp (krhino_init;; krhino_start) (fun _ => booted) bss_state.
Proof.
  kstep. unfold krhino_init, runqueue_init, tick_list_init, krhino_sem_create, sem_create, static_addr.
  cbn [NULL_PARA_CHK]. ksteps. unfold dyn_mem_proc_task_start.
  destruct (rq_empty_ok _ eq_refl) as [Hok0 Hr0].
  apply boot_create_wp; [done|done|exact Hok0|by vm_compute|done|done|]. intros rq1 Hok1 Hr1. ksteps.
  apply boot_create_wp; [done|done|exact Hok1|by vm_compute|done|done|]. intros rq2 Hok2 Hr2.
  assert (forall p, rql rq2 p = boot_rql p) as Hr.
  { intros p. etransitivity; [exact (Hr2 p)|]. unfold boot_rql. cbn [g_ready_queue set_g_ready_queue].
    rewrite (Hr1 p). pose proof (Hr0 p) as E0. destruct (decide (p = RHINO_IDLE_PRI)) as [->|].
    - rewrite decide_False by done. exact (f_equal (.++ [g_idle_task]) E0).
    - destruct (decide _); [exact (f_equal (.++ [g_dyn_task]) E0)|exact E0]. }
  clear Hr1 Hr2. ksteps. unfold krhino_start. ksteps. rewrite bool_decide_true by done.
  kstep. unfold preferred_cpu_ready_task_get. do 3 kstep. apply cur_item_wp; [exact Hok2| |].
  { apply (rql_range rq2); [done|]. destruct (rqo_highest rq2 Hok2) as [?|[_ E]]; [done|].
    specialize (E RHINO_IDLE_PRI). by rewrite Hr in E. }
  ksteps. by split.
Qed.

(** Starting the kernel ([krhino_init] then [krhino_start]) on zeroed
    memory runs without undefined behaviour and ends in a state that satisfies
    the kernel invariant, with interrupts enabled and the deferred-free task, the
    most urgent one, running. *)
Theorem startup_establishes_invariant :
  wp (krhino_init;; krhino_start) (fun _ s => Inv s /\ g_active_task s = Some g_dyn_task /\ irq_off s = false) bss_state.
Proof.
  eapply wp_mono; [apply boot_wp|]. intros r s Hb. pose proof (booted_inv s Hb) as HI.
  destruct Hb as [_ _ _ _ _ [Hok Hr] (_ & _ & _ & Hirq) Ha]. split_and!; [done| |done].
  rewrite Ha. unfold top_task. rewrite Hr.
  enough (highest_pri (g_ready_queue s) = RHINO_CONFIG_K_DYN_MEM_TASK_PRI) as -> by done.
  pose proof (rqo_least _ Hok RHINO_CONFIG_K_DYN_MEM_TASK_PRI) as Hle. rewrite Hr in Hle. specialize (Hle ltac:(done)).
  destruct (rqo_highest _ Hok) as [Hne|[E _]]; [|rewrite E in Hle; by destruct Hle]. rewrite Hr in Hne. unfold boot_rql in Hne.
  case_decide as E; [rewrite E in Hle; by destruct Hle|]. by case_decide.
Qed.

End boot.

(** ** A concrete system, for examples *)

(** A port that stores 0 as the stack pointer of every task. *)
#[global] Instance demo_port : CpuPort.
Proof.
  refine {|
    cpu_task_switch := fun s => Some (tt, switched 0 s);
    cpu_intrpt_switch := fun s => Some (tt, switched 0 s);
    cpu_task_stack_init := fun stack _ _ _ => stack;
    sem_count_bits := 32;
    mutex_nested_bits := 8;
    suspend_nested_bits := 8
  |}; [by exists 0|by exists 0|done].
Defined.

(** The state after a program, or the state before it if it is undefined. *)
Definition after {A} (m : K A) (s : kstate) : kstate := match m s with Some (_, s') => s' | None => s end.

Lemma after_wp {A} (m : K A) (Q : A -> kstate -> Prop) s : wp m Q s -> exists a, Q a (after m s).
Proof. intros (a & s' & E & HQ)%wp_iff. exists a. unfold after. by rewrite E. Qed.

Definition demo_boot : kstate := after (krhino_init;; krhino_start) bss_state.

Lemma demo_boot_inv : Inv demo_boot.
Proof. destruct (after_wp _ _ _ boot_wp) as [a Hb]. by apply booted_inv. Qed.

(** The same with one object created. *)
Definition demo_with (n : new_obj) : kstate := after (create_exec 1%nat 0 n) demo_boot.

Lemma demo_with_inv n : create_pre n -> Inv (demo_with n) /\ new_body 1%nat n (demo_with n).
Proof.
  intros Hn. assert (obj_idle demo_boot 1%nat) as Hidle by (apply obj_fresh_idle; by vm_compute).
  destruct (after_wp _ _ _ (create_inv 1%nat 0 n demo_boot demo_boot_inv Hidle Hn)) as [r (_ & HI & _ & Hb)]. by split.
Qed.
