(* ===== verification/SemSpec.v ===== *)
(** * Semaphores keep the invariant and refine a counting semaphore *)

From S2P Require Import Prelude KErr RingBuf KState KMonad Sched Pend KInv Mutex PriInv Sem Event Queue Inv Moves Task KSys Boot.
Local Open Scope Z_scope.

(** ** The abstract semaphore: a count and the waiting tasks, most urgent first *)

Record asem := mk_asem {
  as_count : Z;
  as_wait : list tid;
  as_static : bool
}.

(** What an operation gives: the result, the tasks let go and the semaphore
    afterwards ([None]: not a semaphore, or deleted). *)
Record as_result := mk_as_result {
  ar_ret : call_res;
  ar_released : list tid;
  ar_sem : option asem
}.

Inductive sem_op :=
  | SemGive (all : bool)
  | SemTake (ticks : Z)
  | SemCountSet (count : Z)
  | SemDel.

Definition as_set_count (c : Z) (q : asem) : asem := mk_asem c (as_wait q) (as_static q).

Definition as_set_wait (l : list tid) (q : asem) : asem := mk_asem (as_count q) l (as_static q).

Definition as_give (max : Z) (all : bool) (q : asem) : as_result :=
  match as_wait q with
  | [] =>
      if as_count q =? max then mk_as_result (Ret RHINO_SEM_OVF) [] (Some q)
      else mk_as_result (Ret RHINO_SUCCESS) [] (Some (as_set_count (as_count q + 1) q))
  | t :: l => mk_as_result (Ret RHINO_SUCCESS) (if all then t :: l else [t])
                (Some (as_set_wait (if all then [] else l) q))
  end.

(** A take by task [a], the scheduler being locked or not. *)
Definition as_take (p : tid -> Z) (a : tid) (ticks : Z) (locked : bool) (q : asem) : as_result :=
  if 0 <? as_count q then mk_as_result (Ret RHINO_SUCCESS) [] (Some (as_set_count (as_count q - 1) q))
  else if ticks =? RHINO_NO_WAIT then mk_as_result (Ret RHINO_NO_PEND_WAIT) [] (Some q)
  else if locked then mk_as_result (Ret RHINO_SCHED_DISABLE) [] (Some q)
  else mk_as_result Blocked [] (Some (as_set_wait (pri_enqueue p a (as_wait q)) q)).

Definition as_count_set (count : Z) (q : asem) : as_result :=
  match as_wait q with
  | [] => mk_as_result (Ret RHINO_SUCCESS) [] (Some (as_set_count count q))
  | _ => mk_as_result (Ret RHINO_SEM_TASK_WAITING) [] (Some q)
  end.

Definition as_del (q : asem) : as_result :=
  if as_static q then mk_as_result (Ret RHINO_SUCCESS) (as_wait q) None
  else mk_as_result (Ret RHINO_KOBJ_DEL_ERR) [] (Some q).

(** Only giving is allowed in interrupt handlers. *)
Definition as_step (max : Z) (p : tid -> Z) (a : tid) (intrpt locked : bool) (op : sem_op) (q : option asem)
  : as_result :=
  if (match op with SemGive _ => false | _ => intrpt end) then mk_as_result (Ret RHINO_NOT_CALLED_BY_INTRPT) [] q
  else match q with
       | None => mk_as_result (Ret RHINO_KOBJ_TYPE_ERR) [] None
       | Some q =>
           match op with
           | SemGive all => as_give max all q
           | SemTake ticks => as_take p a ticks locked q
           | SemCountSet count => as_count_set count q
           | SemDel => as_del q
           end
       end.

(** The status with which a released task leaves its call. *)
Definition as_blk_state (op : sem_op) : blk_state_t := match op with SemDel => BLK_DEL | _ => BLK_FINISH end.

Definition sem_of (m : ksem_t) (b : blk_obj_t) : asem :=
  mk_asem (sem_count m) (blk_list b) (sem_mm_flag m =? K_OBJ_STATIC_ALLOC).

Definition sem_abs (s : kstate) (o : oid) : option asem :=
  b ← blks s !! o; m ← sems s !! o;
  if decide (obj_type b = RHINO_SEM_OBJ_TYPE) then Some (sem_of m b) else None.

Lemma sem_abs_intro s o b m : blks s !! o = Some b -> sems s !! o = Some m -> obj_type b = RHINO_SEM_OBJ_TYPE ->
  sem_abs s o = Some (sem_of m b).
Proof. intros Hb Hm Hty. unfold sem_abs. rewrite Hb, Hm. cbn. by rewrite decide_True. Qed.

Lemma sem_abs_none s o b : blks s !! o = Some b -> obj_type b <> RHINO_SEM_OBJ_TYPE -> sem_abs s o = None.
Proof. intros Hb Hty. unfold sem_abs. rewrite Hb. cbn. destruct (sems s !! o); [|done]. cbn. by rewrite decide_False. Qed.

Lemma sem_abs_resched s s' o c : resched (set_irq_off c s) s' -> sem_abs s' o = sem_abs s o.
Proof. by intros (ts & a & p & -> & _)%resched_eq. Qed.

Section sem.
Context `{CpuPort}.

Definition sem_exec (o : oid) (op : sem_op) : K call_res :=
  match op with
  | SemGive false => r ← krhino_sem_give (Some o); mret (Ret r)
  | SemGive true => r ← krhino_sem_give_all (Some o); mret (Ret r)
  | SemTake ticks => krhino_sem_take (Some o) ticks
  | SemCountSet count => r ← krhino_sem_count_set (Some o) count; mret (Ret r)
  | SemDel => r ← krhino_sem_del (Some o); mret (Ret r)
  end.

(** What the caller owes: a sensible timeout or count, and not being the idle
    task when the call may block. *)
Definition sem_pre (s : kstate) (op : sem_op) : Prop :=
  match op with
  | SemTake ticks => timeout_ok ticks /\ g_active_task s <> Some g_idle_task
  | SemCountSet count => fits sem_count_bits count
  | _ => True
  end.

(** The state after an operation with result [res]. *)
Definition sem_post (s : kstate) (o : oid) (bs : blk_state_t) (res : as_result) (r : call_res) (s' : kstate) : Prop :=
  Inv s' /\ irq_off s' = irq_off s /\ r = ar_ret res /\ sem_abs s' o = ar_sem res /\
  Forall (released bs s s') (ar_released res).

(** ** Changing the body of one semaphore *)

Lemma inv_sem_count s o b m' :
  Inv s -> blks s !! o = Some b -> obj_type b = RHINO_SEM_OBJ_TYPE ->
  fits sem_count_bits (sem_count m') -> (blk_list b <> [] -> sem_count m' = 0) ->
  Inv (set_sems (<[o := m']> (sems s)) s).
Proof.
  intros HI Hb Hty Hf Hw. apply (inv_body s _ o b); try done; [by split; cbn; auto using lookup_insert_other|..]; rewrite Hty.
  - exists m'. cbn. by rewrite lookup_insert_eq.
  - intros t k Hk Hin m0. cbn. rewrite lookup_insert_eq. intros [= <-]. apply Hw. by eapply waiter_listed; [apply HI|..].
Qed.

Ltac sem_step := first [kstep
  | lazymatch goal with
    | |- wp (get_sem _) _ _ => eapply wp_get_sem; [klookup|]
    | |- wp (upd_sem _ _) _ _ => eapply wp_upd_sem; [klookup|]
    end].

Lemma sem_body s o b :
  Inv s -> blks s !! o = Some b -> obj_type b = RHINO_SEM_OBJ_TYPE -> exists m, sems s !! o = Some m /\
  fits sem_count_bits (sem_count m) /\ (blk_list b <> [] -> sem_count m = 0) /\ blk_policy b = BLK_POLICY_PRI.
Proof.
  intros HI Hb Hty. destruct (i0_objs _ s (inv_0 s HI) o ltac:(done) b Hb) as (Hpol & Hbody & Hwait).
  rewrite Hty in *. destruct Hbody as (m & Hm & Hf). exists m. split_and!; try done.
  intros Hne. destruct (blk_list b) as [|t l] eqn:E; [done|].
  destruct (first_waiter s o b t l) as (k & Hk & Hik & _); [apply HI|done..|]. by apply (Hwait t k).
Qed.

(** Writing a count and following the peak. *)
Lemma sem_set_count_wp {A} o m c (next : K A) (Q : A -> kstate -> Prop) s :
  sems s !! o = Some m ->
  (forall m', sem_count m' = c -> sem_mm_flag m' = sem_mm_flag m -> wp next Q (set_sems (<[o := m']> (sems s)) s)) ->
  wp (upd_sem o (set_sem_count c);; m ← get_sem o;
      (if peak_count m <? sem_count m then upd_sem o (set_peak_count (sem_count m)) else mret tt);; next) Q s.
Proof.
  intros Hm HQ. repeat sem_step. destruct (peak_count _ <? _).
  - eapply wp_upd_sem; [klookup|]. cbn. rewrite insert_insert_eq. by apply HQ.
  - kstep. by apply HQ.
Qed.

(** The state after the count of [o] was written. *)
Lemma sem_counted s o b m m' c :
  Inv s -> blks s !! o = Some b -> obj_type b = RHINO_SEM_OBJ_TYPE -> sem_mm_flag m' = sem_mm_flag m ->
  sem_count m' = c -> fits sem_count_bits c -> (blk_list b <> [] -> c = 0) ->
  let s' := set_sems (<[o := m']> (sems s)) s in
  Inv s' /\ sem_abs s' o = Some (as_set_count c (sem_of m b)).
Proof.
  intros HI Hb Hty Hfl Hc Hf Hw s'. split; [apply (inv_sem_count s o b); try done; by rewrite Hc|].
  rewrite (sem_abs_intro s' o b m'); [|done|apply lookup_insert_eq|done]. unfold sem_of, as_set_count. cbn. by rewrite Hfl, Hc.
Qed.

(** ** The operations *)

Lemma sem_wake_all_spec o b m (f : tid -> K unit) bs x s res :
  (forall t k o b (Q : unit -> kstate -> Prop) s, Inv0x x s -> tasks s !! t = Some k -> in_blk o k ->
     blks s !! o = Some b -> obj_type b <> RHINO_MUTEX_OBJ_TYPE ->
     (forall s', Inv0x x s' -> left_list (woken bs) t o s s' -> Q tt s') -> wp (f t) Q s) ->
  Inv0x x s -> blks s !! o = Some b -> obj_type b <> RHINO_MUTEX_OBJ_TYPE -> sems s !! o = Some m ->
  (forall s1, Inv0x x s1 -> blks s1 !! o = Some (set_blk_list [] b) -> (forall t k, tasks s1 !! t = Some k -> ~ in_blk o k) ->
     sems s1 = sems s -> irq_off s1 = irq_off s -> Forall (released bs s s1) (blk_list b) -> res s1) ->
  wp (blk_wake_all o f) (fun _ s1 => res s1) s.
Proof.
  intros Hf H0 Hb Hty Hm Hres. eapply (blk_wake_all_wp x o (woken bs)); [intros; by eapply Hf|done..|].
  intros s1 H1 Hall. pose proof Hall as (Et & Eb & Ef). apply Hres; try done.
  - rewrite Eb. apply lookup_insert_eq.
  - intros t k Hk Hin. eapply (waiter_listed s1 o (set_blk_list [] b)); [apply H1| |done..|done].
    rewrite Eb. apply lookup_insert_eq.
  - by rewrite Ef.
  - by rewrite Ef.
  - apply Forall_forall. intros t Ht. by eapply all_left_released; [apply H0|..].
Qed.

Lemma sem_give_spec o all b s :
  Inv s -> blks s !! o = Some b ->
  wp (sem_give o all) (fun r => sem_post s o BLK_FINISH
    (as_step (2 ^ sem_count_bits - 1) (prio_of (tasks s)) 0%nat false false (SemGive all) (sem_abs s o)) (Ret r)) s.
Proof.
  intros HI Hb. unfold sem_give, as_step. kstep. apply wp_critical_enter. do 2 kstep.
  destruct (decide (obj_type b = RHINO_SEM_OBJ_TYPE)) as [Hty|Hty];
    [rewrite bool_decide_true by done|rewrite bool_decide_false by done; apply wp_critical_return;
      rewrite (sem_abs_none s o b) by done; by split_and!; try done; apply sem_abs_none with b].
  destruct (sem_body s o b HI Hb Hty) as (m & Hm & Hf & Hz & _). rewrite (sem_abs_intro s o b m) by done.
  unfold as_give. cbn [negb sem_of as_wait as_count]. destruct (blk_list b) as [|t l] eqn:El.
  - sem_step. sem_step. rewrite wrap_neg1 by apply port_bits_pos.
    destruct (Z.eqb_spec (sem_count m) (2 ^ sem_count_bits - 1)) as [E|E].
    + apply wp_critical_return. rewrite irq_restore. split_and!; try done. by rewrite (sem_abs_intro s o b m).
    + apply (sem_set_count_wp _ m); [done|]. intros m' Hc Hfl. apply wp_critical_return.
      unfold fits in Hf. rewrite wrap_small in Hc by lia.
      destruct (sem_counted (set_irq_off true s) o b m m' (sem_count m + 1)) as [HI' Ha']; try done;
        [by apply inv_irq|unfold fits; lia|].
      split_and!; try done. by apply (inv_irq (irq_off s)).
  - assert (Inv0 (set_irq_off true s)) as H0 by apply inv0_irq, HI.
    assert (obj_type b <> RHINO_MUTEX_OBJ_TYPE) as Hnm by congruence. kstep. destruct all.
    + eapply (sem_wake_all_spec o b m _ BLK_FINISH); [apply (wakeup_inv_wp None)|exact H0|done..|].
      intros s1 H1 Hb1 _ Es Ei Hrel. apply exit_sched_inv; [done|]. intros s' Hr HI'.
      split_and!; [done|by apply irq_resched in Hr|done|..].
      * rewrite (sem_abs_resched _ _ _ _ Hr). erewrite sem_abs_intro; [|done|by rewrite Es|done]. done.
      * rewrite El in Hrel. eapply Forall_impl; [exact Hrel|]. intros u Hu. by eapply released_resched.
    + destruct (first_waiter (set_irq_off true s) o b t l) as (k & Hk & Hin & Htl); [apply H0|done..|].
      eapply (wakeup_inv_wp None); [exact H0|done..|]. intros s1 H1 Hleft. pose proof Hleft as (_ & _ & Ef).
      apply exit_sched_inv; [done|]. intros s' Hr HI'. split_and!; [done|by apply irq_resched in Hr|done|..].
      * rewrite (sem_abs_resched _ _ _ _ Hr).
        erewrite sem_abs_intro; [|eapply left_first; [|exact El|exact Htl|exact Hleft]; done|by rewrite Ef|done]. done.
      * apply Forall_singleton. eapply released_resched; [|done]. by eapply (left_released _ o (set_irq_off true s)).
Qed.

(** The priority, caller and context an operation runs in. *)
Definition as_run (s : kstate) (op : sem_op) (q : option asem) : as_result :=
  as_step (2 ^ sem_count_bits - 1) (prio_of (tasks s)) (default 0%nat (g_active_task s))
    (0 <? g_intrpt_nested_level s) (0 <? g_sched_lock s) op q.

Lemma sem_take_spec o ticks b s :
  Inv s -> blks s !! o = Some b -> timeout_ok ticks -> g_active_task s <> Some g_idle_task ->
  wp (krhino_sem_take (Some o) ticks) (sem_post s o BLK_FINISH (as_run s (SemTake ticks) (sem_abs s o))) s.
Proof.
  intros HI Hb Hto Hidle. unfold krhino_sem_take, as_run, as_step. cbn [NULL_PARA_CHK]. apply (obj_call_wp Ret o b); [done|..].
  - intros Hn. rewrite (proj2 (Z.ltb_lt _ _) Hn). by split_and!.
  - intros Hn Hty. rewrite (proj2 (Z.ltb_ge _ _) Hn), (sem_abs_none s o b) by done.
    split_and!; try done. by apply (sem_abs_none s o b).
  - intros Hn Hty. destruct (sem_body s o b HI Hb Hty) as (m & Hm & Hf & Hz & Hpol).
    rewrite (proj2 (Z.ltb_ge _ _) Hn), (sem_abs_intro s o b m) by done. unfold as_take. cbn [sem_of as_wait as_count].
    do 2 sem_step. destruct (Z.ltb_spec 0 (sem_count m)) as [Hpos|Hzero].
    + assert (blk_list b = []) as El by (destruct (blk_list b); [done|]; specialize (Hz ltac:(done)); lia).
      do 2 sem_step. apply wp_critical_return. unfold fits in Hf. rewrite wrap_small by lia.
      destruct (sem_counted (set_irq_off true s) o b m (set_sem_count (sem_count m - 1) m) (sem_count m - 1)) as [HI' Ha']; try done;
        [by apply inv_irq|unfold fits; lia|].
      split_and!; try done. by apply (inv_irq (irq_off s)).
    + destruct (Z.eqb_spec ticks RHINO_NO_WAIT) as [Ew|Ew].
      { apply wp_critical_return. split_and!; try done. by apply sem_abs_intro. }
      do 2 kstep. cbn [g_sched_lock set_irq_off]. destruct (Z.ltb_spec 0 (g_sched_lock s)) as [Hl|Hl].
      { apply wp_critical_return. split_and!; try done. by apply sem_abs_intro. }
      eapply (block_call_wp Blocked); try done; [by apply inv_irq|congruence| |].
      { intros a0 k0 _ _. rewrite Hty. intros m0 Hm0. cbn in Hm0. unfold fits in Hf. assert (m0 = m) as -> by congruence. lia. }
      intros a k s1 s' Ha Hk Ef Et Eb Hr HI'. cbn in Ha. rewrite Ha.
      split_and!; [done|by apply irq_resched in Hr|done| |done].
      rewrite (sem_abs_resched _ _ _ _ Hr). erewrite sem_abs_intro; [|rewrite Eb; apply lookup_insert_eq|by rewrite Ef|done]. done.
Qed.

Lemma sem_count_set_spec o count b s :
  Inv s -> blks s !! o = Some b -> fits sem_count_bits count ->
  wp (krhino_sem_count_set (Some o) count)
    (fun r => sem_post s o BLK_FINISH (as_run s (SemCountSet count) (sem_abs s o)) (Ret r)) s.
Proof.
  intros HI Hb Hfc. unfold krhino_sem_count_set, as_run, as_step. cbn [NULL_PARA_CHK]. apply (obj_call_wp id o b); [done|..].
  - intros Hn. rewrite (proj2 (Z.ltb_lt _ _) Hn). by split_and!.
  - intros Hn Hty. rewrite (proj2 (Z.ltb_ge _ _) Hn), (sem_abs_none s o b) by done.
    split_and!; try done. by apply (sem_abs_none s o b).
  - intros Hn Hty. destruct (sem_body s o b HI Hb Hty) as (m & Hm & Hf & Hz & Hpol).
    rewrite (proj2 (Z.ltb_ge _ _) Hn), (sem_abs_intro s o b m) by done. unfold as_count_set. cbn [sem_of as_wait as_count].
    do 2 sem_step. destruct (blk_list b) as [|t l] eqn:El.
    + rewrite orb_true_r. apply (sem_set_count_wp _ m); [done|]. intros m' Hc Hfl. apply wp_critical_return.
      destruct (sem_counted (set_irq_off true s) o b m m' count) as [HI' Ha']; try done; [by apply inv_irq|].
      split_and!; try done. by apply (inv_irq (irq_off s)).
    + rewrite Hz by done. cbn. apply wp_critical_return. split_and!; try done. by apply sem_abs_intro.
Qed.

Lemma sem_del_spec o b s :
  Inv s -> blks s !! o = Some b ->
  wp (krhino_sem_del (Some o)) (fun r => sem_post s o BLK_DEL (as_run s SemDel (sem_abs s o)) (Ret r)) s.
Proof.
  intros HI Hb. unfold krhino_sem_del, as_run, as_step. cbn [NULL_PARA_CHK]. apply (obj_call_wp id o b); [done|..].
  - intros Hn. rewrite (proj2 (Z.ltb_lt _ _) Hn). by split_and!.
  - intros Hn Hty. rewrite (proj2 (Z.ltb_ge _ _) Hn), (sem_abs_none s o b) by done.
    split_and!; try done. by apply (sem_abs_none s o b).
  - intros Hn Hty. destruct (sem_body s o b HI Hb Hty) as (m & Hm & Hf & Hz & Hpol).
    rewrite (proj2 (Z.ltb_ge _ _) Hn), (sem_abs_intro s o b m) by done. unfold as_del. cbn [sem_of as_wait as_static].
    do 2 sem_step. destruct (sem_mm_flag m =? K_OBJ_STATIC_ALLOC) eqn:Efl; cbn [negb].
    + apply (del_drain_wp o b); [apply inv0_irq, HI|done|congruence|done|]. intros s1 H1 Ef Eb Hrel.
      apply exit_sched_inv; [done|]. intros s' Hr HI'. split_and!; [done|by apply irq_resched in Hr|done|..].
      * rewrite (sem_abs_resched _ _ _ _ Hr). eapply sem_abs_none; [rewrite Eb; apply lookup_insert_eq|done].
      * eapply Forall_impl; [exact Hrel|]. intros u Hu. by eapply released_resched.
    + apply wp_critical_return. split_and!; try done. by apply sem_abs_intro.
Qed.

(** Every semaphore call. *)
Lemma sem_call_spec o op s :
  Inv s -> is_Some (blks s !! o) -> sem_pre s op ->
  wp (sem_exec o op) (sem_post s o (as_blk_state op) (as_run s op (sem_abs s o))) s.
Proof.
  intros HI [b Hb] Hpre. destruct op as [[]|ticks|count|]; cbn [sem_exec]; cbn in Hpre.
  - kstep. eapply wp_mono; [by apply (sem_give_spec o true b)|done].
  - kstep. eapply wp_mono; [by apply (sem_give_spec o false b)|done].
  - destruct Hpre. by apply (sem_take_spec o ticks b).
  - kstep. eapply wp_mono; [by apply (sem_count_set_spec o count b)|done].
  - kstep. eapply wp_mono; [by apply (sem_del_spec o b)|done].
Qed.

(** C8: a kernel semaphore refines a counting semaphore with a wait list
    sorted by priority: from any state satisfying the kernel invariant, giving
    (to one or to all waiters), taking, setting the count and deleting return the
    abstract result, leave the abstract semaphore, let go exactly the abstract
    tasks (ready, with the status of the operation), keep the invariant and
    restore the interrupt mask. *)
Theorem sem_refines_counting_semaphore o op s :
  Inv s -> is_Some (blks s !! o) -> sem_pre s op ->
  wp (sem_exec o op) (sem_post s o (as_blk_state op) (as_run s op (sem_abs s o))) s.
Proof. apply sem_call_spec. Qed.

End sem.

Lemma sem_refines_counting_semaphore_witness :
  Inv demo_boot /\ sem_pre demo_boot (SemTake 5) /\
  as_run demo_boot (SemTake 5) (sem_abs demo_boot g_res_sem) = mk_as_result Blocked [] (Some (mk_asem 0 [g_dyn_task] true)) /\
  wp (sem_exec g_res_sem (SemTake 5))
    (sem_post demo_boot g_res_sem BLK_FINISH (as_run demo_boot (SemTake 5) (sem_abs demo_boot g_res_sem))) demo_boot.
Proof.
  assert (sem_pre demo_boot (SemTake 5)) as Hpre by (split; [left; lia|by vm_compute]).
  split_and!; [apply demo_boot_inv|exact Hpre|by vm_compute|].
  apply (sem_refines_counting_semaphore g_res_sem (SemTake 5) demo_boot); [apply demo_boot_inv|by eexists; vm_compute|exact Hpre].
Defined.
