(* ===== verification/Handover.v ===== *)
(** * A mutex changes hands

    How ownership moves from one task to the next, or to nobody: the lists of
    held mutexes, the waiters and the inherited priorities afterwards. *)

From S2P Require Import Prelude KErr RingBuf KState KMonad Sched Pend KInv Mutex PriInv Sem Event Queue Inv Moves Task KSys Boot.
Local Open Scope Z_scope.

(** ** A mutex changes hands *)

(** The priority of [u] is still inherited when the waiters that count for it are
    the same, up to new ones that are no more urgent. *)
Lemma inherit_ext s s' u :
  prio_inherited no_extra s u ->
  (forall k', tasks s' !! u = Some k' -> live k' ->
     exists k, tasks s !! u = Some k /\ live k /\ prio k' = prio k /\ b_prio k' = b_prio k) ->
  (forall w o, owned s' o u -> waits s' w o ->
     owned s o u /\ waits s w o /\ prio_of (tasks s') w = prio_of (tasks s) w \/
     prio_of (tasks s) u <= prio_of (tasks s') w) ->
  (forall w o, owned s o u -> waits s w o ->
     owned s' o u /\ waits s' w o /\ prio_of (tasks s') w = prio_of (tasks s) w) ->
  prio_inherited no_extra s' u.
Proof.
  intros Hi Hk Hnew Hold k' Hk' Hl'. destruct (Hk k' Hk' Hl') as (k & Hku & Hl & -> & Eb).
  destruct (Hi k Hku Hl) as [Hin Hmin]. split.
  - destruct Hin as [(k0 & Hk0 & E)|[(w & o & Ho & Hw & E)|[]]].
    + left. exists k'. rewrite Hku in Hk0. injection Hk0 as <-. by rewrite Eb.
    + right. left. destruct (Hold w o Ho Hw) as (? & ? & Ep). exists w, o. by rewrite Ep.
  - intros q [(k0 & Hk0 & ->)|[(w & o & Ho & Hw & ->)|[]]].
    + rewrite Hk' in Hk0. injection Hk0 as <-. rewrite Eb. apply Hmin. left. by exists k.
    + destruct (Hnew w o Ho Hw) as [(? & ? & ->)|Hle].
      * apply Hmin. right. left. by exists w, o.
      * by rewrite (prio_of_Some _ _ _ Hku) in Hle.
Qed.

Section handover.
Context (s s' : kstate) (a : tid) (ka : ktask_t) (o : oid) (l : list oid) (v : option oid) (y : option tid).
Context (Hb : MIbase s) (Hka : tasks s !! a = Some ka).
Context (Hch : chain (mutexes s) (mutex_list ka) l) (Hnd : NoDup l) (Hown : forall o', o' ∈ l <-> owned s o' a) (Ho : o ∈ l).

(** [o] leaves the list of its owner [a] and goes to [y], if anybody. *)
Record handed : Prop := {
  ho_owned o' t : owned s' o' t <-> (o' <> o /\ owned s o' t) \/ (o' = o /\ y = Some t);
  ho_waits w o' : waits s' w o' -> waits s w o' /\ y <> Some w /\ (o' = o -> y <> None);
  ho_tasks u k' : tasks s' !! u = Some k' -> live k' -> exists k, tasks s !! u = Some k /\ live k /\
    mutex_list k' = if decide (u = a) then v else if decide (y = Some u) then Some o else mutex_list k;
  ho_live u k : tasks s !! u = Some k -> live k -> exists k', tasks s' !! u = Some k' /\ live k';
  ho_mutexes o' : o' <> o -> o' ∉ l -> mutexes s' !! o' = mutexes s !! o';
  ho_chain : chain (mutexes s') v (list_rm o l);
  ho_new w : y = Some w -> w <> a /\ w <> g_idle_task /\ exists kw m, tasks s !! w = Some kw /\ live kw /\
    mutexes s' !! o = Some m /\ m_mutex_list m = mutex_list kw;
  ho_mutex o' b : blks s' !! o' = Some b -> obj_type b = RHINO_MUTEX_OBJ_TYPE ->
    blk_policy b = BLK_POLICY_PRI /\ is_Some (mutexes s' !! o')
}.

Lemma handed_base : handed -> MIbase s'.
Proof.
  intros [Hown' Hwait' Htask Hlive Hms Hcv Hnew Hmu]. split.
  - intros u k' Hk' Hl'. destruct (Htask u k' Hk' Hl') as (k & Hk & Hl & ->).
    destruct (decide (u = a)) as [->|Hua].
    + exists (list_rm o l). split_and!; [done|by apply list_rm_nodup|]. intros o'. rewrite list_rm_spec, Hown, Hown'.
      assert (y <> Some a) by (intros E; destruct (Hnew a E); done). naive_solver.
    + destruct (mi_chain s Hb u k Hk Hl) as (lu & Hcu & Hndu & Hou).
      assert (o ∉ lu) as Hol.
      { intros Hx%Hou. apply Hua. eapply owned_unique; [exact Hx|]. by apply Hown. }
      assert (chain (mutexes s') (mutex_list k) lu) as Hcu'.
      { eapply chain_ext; [|exact Hcu]. intros o' Ho'. apply Hms; [by intros ->|].
        intros Hin%Hown. apply Hua. eapply owned_unique; [|exact Hin]. by apply Hou. }
      destruct (decide (y = Some u)) as [Ey|Ey].
      * destruct (Hnew u Ey) as (_ & _ & kw & m & Hkw & _ & Hm & El). assert (kw = k) as -> by congruence.
        exists (o :: lu). split_and!; [split; [done|]; exists m; by rewrite El|by apply NoDup_cons|].
        intros o'. rewrite elem_of_cons, Hou, Hown'. naive_solver.
      * exists lu. split_and!; [done..|]. intros o'. rewrite Hou, Hown'. split; [|naive_solver].
        intros Hx. left. split; [|done]. intros ->. by apply Hol, Hou.
  - intros o' t [[_ Ht]|[_ Ey]]%Hown'.
    + destruct (mi_owner s Hb o' t Ht) as (? & k & Hk & Hl). split; [done|]. by eapply Hlive.
    + destruct (Hnew t Ey) as (_ & ? & kw & m & Hkw & Hl & _). split; [done|]. by eapply Hlive.
  - intros w o' (Hw & Hy & Hyo)%Hwait'. destruct (mi_wait s Hb w o' Hw) as (t & Ht & Htw).
    destruct (decide (o' = o)) as [->|Hne].
    + destruct y as [w'|]; [|by destruct (Hyo eq_refl)]. exists w'. split; [|congruence]. apply Hown'. by right.
    + exists t. split; [|done]. apply Hown'. by left.
  - done.
Qed.

(** Everybody else keeps an inherited priority; the new owner because it was the
    most urgent waiter. *)
Lemma handed_inherit u :
  handed -> u <> a ->
  (forall w, tasks s' !! w <> None -> prio_of (tasks s') w = prio_of (tasks s) w \/ (w = a /\ forall o', ~ waits s a o')) ->
  (forall k', tasks s' !! u = Some k' -> forall k, tasks s !! u = Some k -> b_prio k' = b_prio k) ->
  (forall w o', waits s w o' -> o' <> o -> waits s' w o') ->
  (y = Some u -> forall w, waits s w o -> prio_of (tasks s) u <= prio_of (tasks s) w) ->
  prio_inherited no_extra s u -> prio_inherited no_extra s' u.
Proof.
  intros Hh Hua Hpr Hbp Hkeep Hfirst. pose proof Hh as [Hown' Hwait' Htask _ _ _ _ _].
  assert (forall w o', waits s w o' -> waits s' w o' -> prio_of (tasks s') w = prio_of (tasks s) w) as Hpw.
  { intros w o' Hw [_ (kw & Hkw & _)]. destruct (Hpr w) as [?|[-> Hno]]; [congruence|done|]. by apply Hno in Hw. }
  assert (~ owned s o u) as Hnou by (intros Hx; apply Hua; eapply owned_unique; [exact Hx|by apply Hown]).
  intros Hi. eapply inherit_ext; [exact Hi|..].
  - intros k' Hk' Hl'. destruct (Htask u k' Hk' Hl') as (k & Hk & Hl & _). exists k. split_and!; [done|done| |by eapply Hbp].
    destruct (Hpr u) as [E|[-> _]]; [by rewrite Hk'| |done]. by rewrite (prio_of_Some _ _ _ Hk'), (prio_of_Some _ _ _ Hk) in E.
  - intros w o' [[Hne Hou]|[Eo Ey]]%Hown' Hw'; destruct (Hwait' w o' Hw') as (Hw & _).
    + left. split_and!; [done..|]. by eapply Hpw.
    + right. rewrite (Hpw w o' Hw Hw'). subst o'. by apply Hfirst.
  - intros w o' Hou Hw. assert (o' <> o) as Hne by (by intros ->).
    split_and!; [by apply Hown'; left|by apply Hkeep|]. eapply Hpw; [done|by apply Hkeep].
Qed.

End handover.

(** The releasing task ends at the priority the walk computed. *)
Lemma handed_self s s' a ka o l v y res :
  WF s -> tasks s !! a = Some ka -> (forall o', o' ∈ l <-> owned s o' a) ->
  handed s s' a o l v y -> y <> Some a ->
  (forall k', tasks s' !! a = Some k' -> b_prio k' = b_prio ka) -> is_Some (tasks s' !! a) ->
  (forall w o', waits s w o' -> o' <> o -> waits s' w o' /\ prio_of (tasks s') w = prio_of (tasks s) w) ->
  look_result s (list_rm o l) (b_prio ka) res -> is_min (eff no_extra s' a) res.
Proof.
  intros Hwf Hka Hown Hh Hya Hbp [ka' Hka'] Hw Hres. pose proof Hh as [Hown' Hwait' _ _ _ _ _ _].
  eapply is_min_ext; [|exact Hres]. intros q. split.
  - intros [(k & Hk & ->)|[(w & o' & Ho' & Hwo & ->)|[]]]; [left; by apply Hbp|right].
    apply Hown' in Ho' as [[Hne Ho']|[_ ?]]; [|done]. destruct (Hwait' w o' Hwo) as (Hwo1 & _).
    destruct (Hw w o' Hwo1 Hne) as [_ ->]. pose proof Hwo1 as [(b & Hb & _) (kw & Hkw & Hin)]. exists o', b, w.
    split_and!; [by apply list_rm_spec; split; [apply Hown|]|done| |done].
    by eapply list_ok_in; [apply (wf_blks s Hwf o' b Hb)|..].
  - intros [->|(o' & b & w & [Ho' Hne]%list_rm_spec & Hb & Hwb & ->)]; [left; exists ka'; by rewrite (Hbp ka')|right; left].
    apply Hown in Ho'. assert (waits s w o') as Hwo.
    { split; [apply Ho'|]. by apply (proj2 (proj1 (wf_blks s Hwf o' b Hb))) in Hwb. }
    destruct (Hw w o' Hwo Hne) as [? Ep]. exists w, o'. split_and!; [by apply Hown'; left|done|done].
Qed.

Lemma links_changed_maps D ms ms' :
  links_changed D ms ms' -> owner_nested <$> ms' = owner_nested <$> ms /\ mutex_task <$> ms' = mutex_task <$> ms.
Proof.
  intros (_ & H1 & H2). split; apply map_eq; intros o; rewrite !lookup_fmap; destruct (ms !! o) as [m|] eqn:E.
  1,3: by destruct (H1 o m E) as [v ->].
  all: by rewrite H2.
Qed.

Lemma links_changed_owned D s ms' ts :
  links_changed D (mutexes s) ms' -> forall o t, owned (set_mutexes ms' (set_tasks ts s)) o t <-> owned s o t.
Proof.
  intros (_ & H1 & H2) o t. unfold owned. split; intros [Hm (m & Hmo & Ht)]; (split; [exact Hm|]); cbn in *.
  - destruct (mutexes s !! o) as [m0|] eqn:E; [|by rewrite H2 in Hmo]. destruct (H1 o m0 E) as [v E'].
    exists m0. split; [done|]. rewrite E' in Hmo. by injection Hmo as <-.
  - destruct (H1 o m Hmo) as [v E']. by exists (set_m_mutex_list v m).
Qed.

Section release.
Context `{CpuPort}.

Lemma look_prio_ok s l base r : WF s -> prio_ok base -> look_result s l base r -> prio_ok r.
Proof.
  intros Hwf Hb [[->|(o & b & w & _ & Hbo & Hw & ->)] _]; [done|].
  apply (proj2 (proj1 (wf_blks s Hwf o b Hbo))) in Hw as (k & Hk & _). rewrite (prio_of_Some _ _ _ Hk).
  by apply (wf_task s Hwf w k).
Qed.

(** The running task unlinks [o] and falls back to the priority of what it still holds. *)
Lemma mutex_release_running_wp x a ka o l (Q : unit -> kstate -> Prop) s :
  NI x s -> MIbase s -> tasks s !! a = Some ka -> task_state ka = K_RDY -> a <> g_idle_task ->
  chain (mutexes s) (mutex_list ka) l -> NoDup l -> (forall o', o' ∈ l <-> owned s o' a) -> o ∈ l ->
  (forall res ms' v rq',
     let s' := set_lists (<[a := set_prio res (set_mutex_list v ka)]> (tasks s)) (blks s) (g_tick_head s) rq'
                 (set_mutexes ms' s) in
     NI x s' -> look_result s (list_rm o l) (b_prio ka) res -> links_changed l (mutexes s) ms' ->
     chain ms' v (list_rm o l) -> (res = prio ka -> rq' = g_ready_queue s) -> Q tt s') ->
  wp (mutex_release a (Some o)) Q s.
Proof.
  intros Hn Hb Hka Hr Hai Hch Hnd Hown Ho HQ. pose proof (ni_wf x s Hn) as Hwf. unfold mutex_release. kstep.
  eapply mutex_pri_look_unlink_wp; [done..| |].
  { apply owned_waiters_ok; [done..|]. intros o' [Ho' _]%list_rm_spec. by apply Hown in Ho' as [? _]. }
  intros res ms' v Hres Hlk Hcv. set (s2 := set_mutexes ms' _).
  assert (NI x s2) as Hn2.
  { apply (ni_core x (set_tasks (<[a := set_mutex_list v ka]> (tasks s)) s)).
    - right. by exists ms'.
    - intros o' _ Hobj. eapply obj_ok_step; [| | |exact Hobj]; [|done|by eauto].
      unfold bodies. cbn. destruct (links_changed_maps _ _ _ Hlk) as [E1 E2]. by rewrite E1, E2.
    - by eapply (ni_kproj x s a ka). }
  kstep. assert (tasks s2 !! a = Some (set_mutex_list v ka)) as Hk2 by apply lookup_insert_eq.
  eapply wp_get_task; [exact Hk2|]. destruct (Z.eqb_spec res (prio (set_mutex_list v ka))) as [E|E]; cbn [negb].
  - kstep. specialize (HQ res ms' v (g_ready_queue s)). cbn zeta in HQ.
    assert (set_prio res (set_mutex_list v ka) = set_mutex_list v ka) as Ek by (by rewrite E). rewrite Ek in HQ.
    exact (HQ Hn2 Hres Hlk Hcv (fun _ => eq_refl)).
  - kstep. eapply task_pri_change_ready_wp; [apply Hn2|exact Hk2|done|by eapply look_prio_ok; [| |exact Hres]; [|apply (wf_task s Hwf a ka)]|done|by eapply ni_idle_ready|].
    intros rq' s' Hwf'. kstep. assert (NI x s') as Hn' by (by eapply (ni_prio x s2)).
    subst s'. unfold s2 in *. cbn in Hn' |- *. rewrite insert_insert_eq in Hn' |- *. apply (HQ res ms' v rq'); try done.
Qed.

End release.

(** ** The state after a mutex went to its next owner

    [ho_step] is what unlocking does to tasks and mutexes: [a] leaves [o] and gets
    priority [res], [y] (the next owner, if any) is woken and links [o]. *)

Section ho_step.
Context (s s' : kstate) (a : tid) (ka : ktask_t) (o : oid) (l : list oid) (v : option oid) (y : option tid) (res : Z).

Record ho_step : Prop := {
  hs_tasks u k' : tasks s' !! u = Some k' -> exists k, tasks s !! u = Some k /\ b_prio k' = b_prio k /\
    (live k' <-> live k) /\ prio k' = (if decide (u = a) then res else prio k) /\
    mutex_list k' = (if decide (u = a) then v else if decide (y = Some u) then Some o else mutex_list k) /\
    forall o', in_blk o' k' <-> in_blk o' k /\ y <> Some u;
  hs_dom u : is_Some (tasks s !! u) -> is_Some (tasks s' !! u);
  hs_types : blk_types (blks s') = blk_types (blks s);
  hs_mutexes : exists ms m, links_changed l (mutexes s) ms /\ chain ms v (list_rm o l) /\
    mutexes s' = <[o := m]> ms /\ mutex_task m = y /\
    forall w kw, y = Some w -> tasks s !! w = Some kw -> m_mutex_list m = mutex_list kw;
  hs_next : match y with
            | None => forall w, ~ waits s w o
            | Some w => waits s w o /\ forall w', waits s w' o -> prio_of (tasks s) w <= prio_of (tasks s) w'
            end
}.

Context (Hwf : WF s) (Hbase : MIbase s) (Hidle : idle_ready s) (Hka : tasks s !! a = Some ka).
Context (Hch : chain (mutexes s) (mutex_list ka) l) (Hnd : NoDup l) (Hown : forall o', o' ∈ l <-> owned s o' a) (Ho : o ∈ l).
Context (Hs : ho_step).

Lemma ho_task u k : tasks s !! u = Some k -> exists k', tasks s' !! u = Some k' /\ b_prio k' = b_prio k /\
  (live k' <-> live k) /\ prio k' = (if decide (u = a) then res else prio k) /\
  forall o', in_blk o' k' <-> in_blk o' k /\ y <> Some u.
Proof.
  intros Hk. destruct (hs_dom Hs u) as [k' Hk']; [by eexists|]. exists k'. split; [done|].
  destruct (hs_tasks Hs u k' Hk') as (k0 & Hk0 & ? & ? & ? & _ & ?). rewrite Hk in Hk0. by injection Hk0 as <-.
Qed.

Lemma ho_waits_iff w o' : waits s' w o' <-> waits s w o' /\ y <> Some w.
Proof.
  unfold waits. rewrite (is_mutex_types s s' o' (hs_types Hs)). split.
  - intros [Hm (k' & Hk' & Hin)]. destruct (hs_tasks Hs w k' Hk') as (k & Hk & _ & _ & _ & _ & Hb).
    destruct (proj1 (Hb o') Hin) as [Hin' Hy]. split; [|done]. split; [done|]. by exists k.
  - intros [[Hm (k & Hk & Hin)] Hy]. split; [done|]. destruct (ho_task w k Hk) as (k' & Hk' & _ & _ & _ & Hb).
    exists k'. split; [done|]. by apply Hb.
Qed.

Lemma ho_prio_of w : w <> a -> prio_of (tasks s') w = prio_of (tasks s) w.
Proof.
  intros Hw. destruct (tasks s !! w) as [k|] eqn:Hk.
  - destruct (ho_task w k Hk) as (k' & Hk' & _ & _ & E & _). rewrite decide_False in E by done.
    by rewrite (prio_of_Some _ _ _ Hk), (prio_of_Some _ _ _ Hk').
  - unfold prio_of. rewrite Hk. destruct (tasks s' !! w) as [k'|] eqn:Hk'; [|done].
    destruct (hs_tasks Hs w k' Hk') as (k & ? & _). congruence.
Qed.

Lemma ho_owned_iff o' t : owned s' o' t <-> (o' <> o /\ owned s o' t) \/ (o' = o /\ y = Some t).
Proof.
  destruct (hs_mutexes Hs) as (ms & m & (_ & H1 & H2) & _ & E & Ey & _). unfold owned.
  rewrite (is_mutex_types s s' o' (hs_types Hs)), E. destruct (decide (o' = o)) as [->|Hne].
  - rewrite lookup_insert_eq. split.
    + intros [_ (m0 & [= <-] & ?)]. right. split; [done|]. congruence.
    + intros [[? _]|[_ ->]]; [done|]. split; [apply (proj1 (Hown o) Ho)|]. by exists m.
  - rewrite lookup_insert_ne by done. split.
    + intros [Hm (m0 & Hm0 & Ht)]. left. split; [done|]. split; [done|].
      destruct (mutexes s !! o') as [m1|] eqn:E1; [|by rewrite H2 in Hm0].
      destruct (H1 o' m1 E1) as [v1 E2]. rewrite E2 in Hm0. injection Hm0 as <-. by exists m1.
    + intros [[_ [Hm (m0 & Hm0 & Ht)]]|[? _]]; [|done]. split; [done|].
      destruct (H1 o' m0 Hm0) as [v1 E2]. eexists. by split.
Qed.

Lemma ho_next_ne w : y = Some w -> waits s w o /\ w <> a /\ w <> g_idle_task.
Proof.
  intros Ey. pose proof (hs_next Hs) as Hn. rewrite Ey in Hn. destruct Hn as [Hw _]. split; [done|]. split.
  - intros ->. destruct (mi_wait s Hbase a o Hw) as (t & Ht & Hne). apply Hne. eapply owned_unique; [exact Ht|by apply Hown].
  - intros ->. destruct Hw as [_ (k & Hk & [[E|E] _])], Hidle as (ki & Hki & Hr); congruence.
Qed.

Lemma waits_live w o' k : waits s w o' -> tasks s !! w = Some k -> live k.
Proof. intros [_ (k0 & Hk0 & [[E|E] _])] Hk; assert (k0 = k) as -> by congruence; unfold live; by rewrite E. Qed.

Lemma ho_handed : handed s s' a o l v y.
Proof.
  destruct (hs_mutexes Hs) as (ms & m & (H0 & H1 & H2) & Hcv & E & Ey & El). split.
  - apply ho_owned_iff.
  - intros w o' [Hw Hy]%ho_waits_iff. split_and!; [done..|]. intros -> Ey'. pose proof (hs_next Hs) as Hn.
    rewrite Ey' in Hn. by apply (Hn w).
  - intros u k' Hk' Hl. destruct (hs_tasks Hs u k' Hk') as (k & Hk & _ & Hlv & _ & Em & _). exists k.
    split_and!; [done|by apply Hlv|done].
  - intros u k Hk Hl. destruct (ho_task u k Hk) as (k' & Hk' & _ & Hlv & _). exists k'. split; [done|]. by apply Hlv.
  - intros o' Hne Hnl. rewrite E, lookup_insert_ne by done. by apply H0.
  - eapply chain_ext; [|exact Hcv]. intros o' [_ Hne]%list_rm_spec. by rewrite E, lookup_insert_ne.
  - intros w Eyw. destruct (ho_next_ne w Eyw) as (Hw & ? & ?). split_and!; [done..|].
    pose proof Hw as [_ (kw & Hkw & _)]. exists kw, m. split_and!; [done|by eapply waits_live| |by eapply El].
    rewrite E. apply lookup_insert_eq.
  - intros o' b' Hb' Hty. destruct (blk_types_lookup _ _ _ _ (hs_types Hs) Hb') as (b & Hb & Et & Ep).
    destruct (mi_mutex s Hbase o' b Hb) as [Hpol [m0 Hm0]]; [congruence|]. split; [congruence|]. rewrite E.
    apply lookup_insert_is_Some. destruct (decide (o = o')); [by left|right]. split; [done|]. destruct (H1 o' m0 Hm0) as [v1 ->]. eauto.
Qed.

Lemma ho_keep w o' : waits s w o' -> o' <> o -> waits s' w o'.
Proof.
  intros Hw Hne. apply ho_waits_iff. split; [done|]. intros Ey. destruct (ho_next_ne w Ey) as (Hwo & _).
  apply Hne. by eapply waits_unique.
Qed.

Lemma ho_base : MIbase s'.
Proof. by eapply (handed_base s s' a ka); [..|apply ho_handed]. Qed.

(** Tasks other than [a], if what [a] waits for is not affected. *)
Lemma ho_other u :
  u <> a -> res = prio ka \/ (forall o', ~ waits s a o') -> prio_inherited no_extra s u -> prio_inherited no_extra s' u.
Proof.
  intros Hua Hres. eapply (handed_inherit s s' a o l v y); try done; [by apply ho_handed|..|apply ho_keep|].
  - intros w Hw. destruct (decide (w = a)) as [->|]; [|left; by apply ho_prio_of]. destruct Hres as [Er|?]; [left|by right].
    destruct (ho_task a ka Hka) as (k' & Hk' & _ & _ & E & _). rewrite decide_True in E by done.
    rewrite (prio_of_Some _ _ _ Hk'), (prio_of_Some _ _ _ Hka). congruence.
  - intros k' Hk' k Hk. destruct (hs_tasks Hs u k' Hk') as (k0 & Hk0 & -> & _). congruence.
  - intros Ey w Hw. pose proof (hs_next Hs) as Hn. rewrite Ey in Hn. by apply Hn.
Qed.

Lemma ho_mi :
  MI s -> (forall o', ~ waits s a o') -> look_result s (list_rm o l) (b_prio ka) res -> MI s'.
Proof.
  intros [_ Hinh] Hnw Hres. pose proof ho_handed as Hh. split; [apply ho_base|].
  intros u. destruct (decide (u = a)) as [->|Hua]; [|apply ho_other; [done|by right|apply Hinh]].
  intros k' Hk' Hl'. destruct (hs_tasks Hs a k' Hk') as (k & Hk & Eb & _ & -> & _ & _). rewrite decide_True by done.
  eapply (handed_self s s' a ka o l v y); try done.
  - intros Ey. by destruct (ho_next_ne a Ey) as (_ & ? & _).
  - intros k0 Hk0. congruence.
  - intros w o' Hw Hne. split; [by apply ho_keep|]. apply ho_prio_of. intros ->. by apply (Hnw o').
Qed.

End ho_step.
