(* ===== verification/MutexSpec.v ===== *)
(** * Mutex calls keep the invariant and refine an owned lock with inheritance *)

From S2P Require Import Prelude KErr RingBuf KState KMonad Sched Pend KInv Mutex PriInv Sem Event Queue Inv Moves Task KSys Boot Create Handover.
Local Open Scope Z_scope.

(** ** The abstract mutex: owner, nesting depth and waiting tasks *)

Record amutex := mk_amutex {
  am_owner : option tid;
  am_nested : Z;
  am_wait : list tid;
  am_static : bool
}.

Inductive mutex_op :=
  | MutexLock (ticks : Z)
  | MutexUnlock
  | MutexDel.

(** The result, the tasks let go, and the mutex afterwards. *)
Record am_result := mk_am_result {
  mr_ret : call_res;
  mr_released : list tid;
  mr_mutex : option amutex
}.

Definition am_stay (r : kstat_t) (q : option amutex) : am_result := mk_am_result (Ret r) [] q.

Definition am_set_nested (n : Z) (q : amutex) : amutex := mk_amutex (am_owner q) n (am_wait q) (am_static q).

(** A lock by task [a]: nested, free or contended. *)
Definition am_lock (max : Z) (a : tid) (ticks : Z) (locked : bool) (q : amutex) : am_result :=
  if bool_decide (am_owner q = Some a) then
    if am_nested q =? max then am_stay RHINO_MUTEX_NESTED_OVF (Some q)
    else am_stay RHINO_MUTEX_OWNER_NESTED (Some (am_set_nested (am_nested q + 1) q))
  else match am_owner q with
       | None => am_stay RHINO_SUCCESS (Some (mk_amutex (Some a) 1 (am_wait q) (am_static q)))
       | Some _ =>
           if ticks =? RHINO_NO_WAIT then am_stay RHINO_NO_PEND_WAIT (Some q)
           else if locked then am_stay RHINO_SCHED_DISABLE (Some q)
           else mk_am_result Blocked [] (Some (mk_amutex (am_owner q) (am_nested q) (a :: am_wait q) (am_static q)))
       end.

(** An unlock: the first waiter becomes the owner. *)
Definition am_unlock (a : tid) (q : amutex) : am_result :=
  if bool_decide (am_owner q = Some a) then
    if 1 <? am_nested q then am_stay RHINO_MUTEX_OWNER_NESTED (Some (am_set_nested (am_nested q - 1) q))
    else match am_wait q with
         | [] => am_stay RHINO_SUCCESS (Some (mk_amutex None 0 [] (am_static q)))
         | w :: l => mk_am_result (Ret RHINO_SUCCESS) [w] (Some (mk_amutex (Some w) 1 l (am_static q)))
         end
  else am_stay RHINO_MUTEX_NOT_RELEASED_BY_OWNER (Some q).

Definition am_del (q : amutex) : am_result :=
  if am_static q then mk_am_result (Ret RHINO_SUCCESS) (am_wait q) None else am_stay RHINO_KOBJ_DEL_ERR (Some q).

Definition am_step (max : Z) (a : tid) (intrpt locked : bool) (op : mutex_op) (q : option amutex) : am_result :=
  if intrpt then am_stay RHINO_NOT_CALLED_BY_INTRPT q
  else match q with
       | None => am_stay RHINO_KOBJ_TYPE_ERR None
       | Some q =>
           match op with
           | MutexLock ticks => am_lock max a ticks locked q
           | MutexUnlock => am_unlock a q
           | MutexDel => am_del q
           end
       end.

Definition am_blk_state (op : mutex_op) : blk_state_t := match op with MutexDel => BLK_DEL | _ => BLK_FINISH end.

Definition mutex_of (m : kmutex_t) (b : blk_obj_t) : amutex :=
  mk_amutex (mutex_task m) (owner_nested m) (blk_list b) (mutex_mm_flag m =? K_OBJ_STATIC_ALLOC).

Definition mutex_abs (s : kstate) (o : oid) : option amutex :=
  b ← blks s !! o; m ← mutexes s !! o;
  if decide (obj_type b = RHINO_MUTEX_OBJ_TYPE) then Some (mutex_of m b) else None.

(** The order of the waiters is the one of their priorities at the time, so
    abstract and concrete lists agree up to permutation. *)
Definition am_equiv (q q' : option amutex) : Prop :=
  option_Forall2 (fun q q' => am_owner q = am_owner q' /\ am_nested q = am_nested q' /\ am_static q = am_static q' /\
    am_wait q ≡ₚ am_wait q') q q'.

#[global] Instance am_equiv_refl : Reflexive am_equiv.
Proof. intros [q|]; [constructor|constructor]. by split_and!. Qed.

Lemma mutex_abs_intro s o b m : blks s !! o = Some b -> mutexes s !! o = Some m -> obj_type b = RHINO_MUTEX_OBJ_TYPE ->
  mutex_abs s o = Some (mutex_of m b).
Proof. intros Hb Hm Hty. unfold mutex_abs. rewrite Hb, Hm. cbn. by rewrite decide_True. Qed.

Lemma mutex_abs_none s o b : blks s !! o = Some b -> obj_type b <> RHINO_MUTEX_OBJ_TYPE -> mutex_abs s o = None.
Proof. intros Hb Hty. unfold mutex_abs. rewrite Hb. cbn. destruct (mutexes s !! o); [|done]. cbn. by rewrite decide_False. Qed.

Lemma mutex_abs_resched s s' o c : resched (set_irq_off c s) s' -> mutex_abs s' o = mutex_abs s o.
Proof. by intros (ts & a & p & -> & _)%resched_eq. Qed.

Section mutex.
Context `{CpuPort}.

Definition mutex_exec (o : oid) (op : mutex_op) : K call_res :=
  match op with
  | MutexLock ticks => krhino_mutex_lock (Some o) ticks
  | MutexUnlock => r ← krhino_mutex_unlock (Some o); mret (Ret r)
  | MutexDel => r ← krhino_mutex_del (Some o); mret (Ret r)
  end.

Definition mutex_pre (s : kstate) (op : mutex_op) : Prop :=
  match op with
  | MutexLock ticks => timeout_ok ticks /\ g_active_task s <> Some g_idle_task
  | _ => True
  end.

Definition mutex_post (s : kstate) (o : oid) (bs : blk_state_t) (res : am_result) (r : call_res) (s' : kstate) : Prop :=
  Inv s' /\ irq_off s' = irq_off s /\ r = mr_ret res /\ am_equiv (mutex_abs s' o) (mr_mutex res) /\
  Forall (released bs s s') (mr_released res).

(** The caller and context an operation runs in. *)
Definition am_run (s : kstate) (op : mutex_op) (q : option amutex) : am_result :=
  am_step (2 ^ mutex_nested_bits - 1) (default 0%nat (g_active_task s))
    (0 <? g_intrpt_nested_level s) (0 <? g_sched_lock s) op q.

Lemma mutex_body s o b :
  Inv s -> blks s !! o = Some b -> obj_type b = RHINO_MUTEX_OBJ_TYPE -> exists m, mutexes s !! o = Some m /\
  (mutex_task m <> None -> 1 <= owner_nested m < 2 ^ mutex_nested_bits) /\ blk_policy b = BLK_POLICY_PRI.
Proof.
  intros HI Hb Hty. destruct (i0_objs _ s (inv_0 s HI) o ltac:(done) b Hb) as (Hpol & Hbody & _).
  rewrite Hty in *. destruct Hbody as (m & Hm & Hn). by exists m.
Qed.

(** ** Nested locking *)

Lemma mi_mlinks s ms' : MI s -> mlinks ms' = mlinks (mutexes s) -> MI (set_mutexes ms' s).
Proof.
  intros Hmi E. eapply (me_MI s); [|exact Hmi]. split; try done. intros o b Hb Hty. by exists b.
Qed.

Lemma mlinks_insert ms o m m' :
  ms !! o = Some m -> mutex_task m' = mutex_task m -> m_mutex_list m' = m_mutex_list m ->
  mlinks (<[o := m']> ms) = mlinks ms.
Proof.
  intros Hm E1 E2. unfold mlinks. rewrite fmap_insert, E1, E2. apply insert_id. by rewrite lookup_fmap, Hm.
Qed.

(** Objects other than the mutex [o] do not see its body. *)
Lemma obj_ok_mutex s o o' m' :
  o' <> o -> obj_ok s o' -> obj_ok (set_mutexes (<[o := m']> (mutexes s)) s) o'.
Proof.
  intros Hne Hob b Hb. destruct (Hob b Hb) as (Hp & Hbd & Hw). split_and!; [done| |].
  - destruct (obj_type b); try done. cbn in *. by rewrite lookup_insert_ne.
  - intros t k Hk Hin. specialize (Hw t k Hk Hin). by destruct (obj_type b).
Qed.

Lemma obj_ok_mutex_self s o b m' :
  obj_ok s o -> blks s !! o = Some b -> obj_type b = RHINO_MUTEX_OBJ_TYPE ->
  (mutex_task m' <> None -> 1 <= owner_nested m' < 2 ^ mutex_nested_bits) ->
  obj_ok (set_mutexes (<[o := m']> (mutexes s)) s) o.
Proof.
  intros Hob Hb Hty Hn b' Hb'. cbn in Hb'. assert (b' = b) as -> by congruence. destruct (Hob b Hb) as (Hp & _ & _).
  rewrite Hty. split_and!; [done| |done]. exists m'. cbn. by rewrite lookup_insert_eq.
Qed.

Lemma inv_nested s o b m n :
  Inv s -> blks s !! o = Some b -> obj_type b = RHINO_MUTEX_OBJ_TYPE -> mutexes s !! o = Some m ->
  1 <= n < 2 ^ mutex_nested_bits -> Inv (set_mutexes (<[o := set_owner_nested n m]> (mutexes s)) s).
Proof.
  intros [H0 Ht] Hb Hty Hm Hn. split; [|done]. apply ni_inv0.
  - apply (ni_core None s); [right; by eexists| |by apply inv0_ni]. intros o' _ Hob.
    destruct (decide (o' = o)) as [->|]; [by eapply obj_ok_mutex_self|by apply obj_ok_mutex].
  - apply mi_mlinks; [apply H0|]. by eapply mlinks_insert.
Qed.

(** ** Unlocking *)

(** The running task waits for nothing. *)
Lemma ready_no_wait s a ka o : tasks s !! a = Some ka -> task_state ka = K_RDY -> ~ waits s a o.
Proof. intros Hk Hr [_ (k & Hk' & [[E|E] _])]; congruence. Qed.

Lemma no_waiters s o b : WF s -> blks s !! o = Some b -> blk_list b = [] -> forall w, ~ waits s w o.
Proof.
  intros Hwf Hb El w [_ (k & Hk & Hin)]. assert (w ∈ blk_list b) as Hw
    by (by eapply list_ok_in; [apply (wf_blks s Hwf o b Hb)|..]). rewrite El in Hw. set_solver.
Qed.

Lemma first_most_urgent s o b w l :
  WF s -> blks s !! o = Some b -> blk_policy b = BLK_POLICY_PRI -> blk_list b = w :: l ->
  forall w', waits s w' o -> prio_of (tasks s) w <= prio_of (tasks s) w'.
Proof.
  intros Hwf Hb Hp El w' [_ (k & Hk & Hin)]. destruct (wf_blks s Hwf o b Hb) as [Hlo Hs]. specialize (Hs Hp).
  assert (w' ∈ blk_list b) as Hw by (by eapply list_ok_in). rewrite El in *. apply StronglySorted_inv in Hs as [_ Hs].
  apply elem_of_cons in Hw as [->|Hw]; [done|]. rewrite Forall_forall in Hs. by apply Hs.
Qed.

Lemma is_min_unique S p q : is_min S p -> is_min S q -> p = q.
Proof. intros [Hp Hp'] [Hq Hq']. specialize (Hp' q Hq). specialize (Hq' p Hp). lia. Qed.

(** What [mutex_release] leaves when [a] holds [l], [o] among it. *)
Definition released_state (s : kstate) (a : tid) (ka : ktask_t) (res : Z) (ms' : gmap oid kmutex_t) (v : option oid)
    (rq' : runqueue_t) : kstate :=
  set_lists (<[a := set_prio res (set_mutex_list v ka)]> (tasks s)) (blks s) (g_tick_head s) rq' (set_mutexes ms' s).

Section unlock.
Context (s : kstate) (a : tid) (ka : ktask_t) (o : oid) (b : blk_obj_t) (l : list oid).
Context (Hn : NI (Some o) s) (Hmi : MI s) (Hka : tasks s !! a = Some ka) (Hr : task_state ka = K_RDY).
Context (Hb : blks s !! o = Some b) (Hty : obj_type b = RHINO_MUTEX_OBJ_TYPE) (Hpol : blk_policy b = BLK_POLICY_PRI).
Context (Hch : chain (mutexes s) (mutex_list ka) l) (Hnd : NoDup l) (Hown : forall o', o' ∈ l <-> owned s o' a) (Ho : o ∈ l).
Context (res : Z) (ms' : gmap oid kmutex_t) (v : option oid) (rq' : runqueue_t).
Context (Hn' : NI (Some o) (released_state s a ka res ms' v rq')).
Context (Hres : look_result s (list_rm o l) (b_prio ka) res) (Hlk : links_changed l (mutexes s) ms').
Context (Hcv : chain ms' v (list_rm o l)).

Lemma release_same_prio : blk_list b = [] -> res = prio ka.
Proof.
  intros El. pose proof (ni_wf _ s Hn) as Hwf.
  assert (live ka) as Hlv by (unfold live; by rewrite Hr). pose proof (proj2 Hmi a ka Hka Hlv) as Hmin.
  apply (look_eff s a ka l _ Hwf Hka Hown) in Hmin. eapply is_min_unique; [exact Hres|].
  eapply is_min_ext; [|exact Hmin]. intros q. apply or_iff_compat_l. split.
  - intros (o' & b' & w & [Ho' _]%list_rm_spec & ? & ? & ?). by exists o', b', w.
  - intros (o' & b' & w & Ho' & Hb' & Hw & ?). exists o', b', w. split_and!; try done. apply list_rm_spec. split; [done|].
    intros ->. assert (b' = b) as -> by congruence. rewrite El in Hw. set_solver.
Qed.

Lemma released_m : exists m2, ms' !! o = Some m2.
Proof.
  destruct Hlk as (_ & H1 & _). destruct (proj1 (Hown o) Ho) as [_ (m & Hm & _)]. destruct (H1 o m Hm) as [v1 E]. eauto.
Qed.

(** Nobody waits: the mutex is free. *)
Lemma unlock_free m' :
  blk_list b = [] -> mutex_task m' = None ->
  Inv0 (set_mutexes (<[o := m']> ms') (released_state s a ka res ms' v rq')).
Proof.
  intros El Ey. pose proof (ni_wf _ s Hn) as Hwf. set (s' := set_mutexes _ _). apply ni_inv0.
  - assert (NI (Some o) s') as Hx.
    { apply (ni_core _ (released_state s a ka res ms' v rq')); [right; by eexists| |done].
      intros o' Hne Hob. apply obj_ok_mutex; [congruence|done]. }
    destruct Hx as [? ? ? ? HO ? ? ? ?]. split; try done. intros o' _. destruct (decide (o' = o)) as [->|]; [|apply HO; congruence].
    intros b' Hb'. cbn in Hb'. assert (b' = b) as -> by congruence. rewrite Hty. split_and!; [done| |done].
    exists m'. cbn. by rewrite lookup_insert_eq, Ey.
  - eapply (ho_mi s s' a ka o l v None res); try done.
    + apply Hmi.
    + by eapply ni_idle_ready.
    + split.
      * intros u k'. cbn. rewrite lookup_insert_Some. intros [[<- <-]|[Hne Hk]].
        -- exists ka. rewrite !decide_True by done. split_and!; try done. by intros o'; split; [|by intros [? _]].
        -- exists k'. rewrite !decide_False by done. split_and!; try done. by intros o'; split; [|by intros [? _]].
      * intros u Hu. cbn. apply lookup_insert_is_Some. destruct (decide (a = u)); [by left|by right].
      * done.
      * by exists ms', m'.
      * by eapply no_waiters.
    + intros o'. by apply (ready_no_wait s a ka).
Qed.

(** The first waiter becomes the owner. *)
Lemma unlock_next w kw lw rq2 m' :
  blk_list b = w :: lw -> tasks s !! w = Some kw -> in_blk o kw -> w <> a ->
  let s4 := set_lists (<[w := woken BLK_FINISH kw]> (tasks (released_state s a ka res ms' v rq')))
              (blk_without w o (blks s)) (list_rm w (g_tick_head s)) rq2 (released_state s a ka res ms' v rq') in
  WF s4 -> mutex_task m' = Some w -> m_mutex_list m' = mutex_list kw -> owner_nested m' = 1 ->
  Inv0 (set_tasks (<[w := set_mutex_list (Some o) (woken BLK_FINISH kw)]> (tasks s4)) (set_mutexes (<[o := m']> ms') s4)).
Proof.
  intros El Hkw Hin Hwa s4 Hwf4 Ey Em En. pose proof (ni_wf _ s Hn) as Hwf. set (s' := set_tasks _ _).
  assert (tasks (released_state s a ka res ms' v rq') !! w = Some kw) as Hkw' by (cbn; by rewrite lookup_insert_ne).
  assert (NI (Some o) s4) as Hn4 by (by eapply (ni_wake (Some o) (released_state s a ka res ms' v rq') w kw o BLK_FINISH)).
  assert (blk_types (blks s4) = blk_types (blks s)) as Hbt by apply blk_types_without.
  apply ni_inv0.
  - assert (NI (Some o) s') as Hx.
    { eapply (ni_kproj _ (set_mutexes (<[o := m']> ms') s4) w (woken BLK_FINISH kw)); try done; [|apply lookup_insert_eq].
      apply (ni_core _ s4); [right; by eexists| |done]. intros o' Hne Hob.
      apply (obj_ok_mutex s4 o o' m'); [congruence|done]. }
    destruct Hx as [? ? ? ? HO ? ? ? ?]. split; try done. intros o' _. destruct (decide (o' = o)) as [->|]; [|apply HO; congruence].
    intros b' Hb'. destruct (blk_types_lookup _ _ _ _ Hbt Hb') as (b0 & Hb0 & Et & Ep).
    assert (b0 = b) as -> by congruence. rewrite <- Et, <- Ep, Hty. split_and!; [done| |done].
    exists m'. cbn. rewrite lookup_insert_eq, En. split; [done|]. intros _. pose proof port_bits_pos as (_ & Hbits & _).
    split; [lia|]. apply Z.pow_gt_1; lia.
  - eapply (ho_mi s s' a ka o l v (Some w) res); try done.
    + apply Hmi.
    + by eapply ni_idle_ready.
    + split.
      * intros u k'. cbn. rewrite insert_insert_eq, !lookup_insert_Some. intros [[<- <-]|[Hne [[<- <-]|[Hne' Hk]]]].
        -- exists kw. rewrite !(decide_False (P := w = a)), decide_True by done. split_and!; try done.
           ++ unfold live. cbn. destruct Hin as [[E|E] _]; by rewrite E.
           ++ intros o'. split; [|by intros [_ ?]]. intros [Hp _].
              by destruct (off_lists_spec _ (woken_off kw BLK_FINISH (proj1 Hin))).
        -- exists ka. rewrite !decide_True by done. split_and!; try done. intros o'. split; [|by intros [? _]].
           intros ?. split; [done|]. congruence.
        -- exists k'. rewrite !decide_False by congruence. split_and!; try done. intros o'. split; [|by intros [? _]].
           intros ?. split; [done|]. congruence.
      * intros u Hu. cbn. rewrite insert_insert_eq, !lookup_insert_is_Some.
        destruct (decide (w = u)); [by left|right]. split; [done|]. destruct (decide (a = u)); [by left|by right].
      * done.
      * exists ms', m'. split_and!; try done. intros w' kw' [= <-] ?. congruence.
      * split; [|by eapply first_most_urgent]. split; [by exists b|by exists kw].
    + intros o'. by apply (ready_no_wait s a ka).
Qed.

End unlock.

(** The mutex [o] is being changed. *)
Lemma ni_forget s o m' : Inv0 s -> NI (Some o) (set_mutexes (<[o := m']> (mutexes s)) s).
Proof.
  intros H0. assert (NI (Some o) s) as Hn
    by (destruct (inv0_ni _ _ H0) as [? ? ? ? HO ? ? ? ?]; split; try done; intros o' _; by apply HO).
  apply (ni_core _ s); [right; by eexists| |done]. intros o' Hne Hob. apply obj_ok_mutex; [congruence|done].
Qed.

(** The last level is unlocked. *)
Lemma unlock_last_wp o b m a ka s cpsr :
  Inv s -> blks s !! o = Some b -> obj_type b = RHINO_MUTEX_OBJ_TYPE -> blk_policy b = BLK_POLICY_PRI ->
  mutexes s !! o = Some m -> mutex_task m = Some a -> g_active_task s = Some a -> tasks s !! a = Some ka ->
  task_state ka = K_RDY ->
  wp (mutex_release a (Some o);;
      b ← get_blk o;
      match blk_list b with
      | [] => upd_mutex o (set_mutex_task None);; critical_return cpsr RHINO_SUCCESS
      | task :: _ =>
          pend_task_wakeup task;;
          upd_mutex o (set_mutex_task (Some task));;
          k ← get_task task;
          upd_mutex o (set_m_mutex_list (mutex_list k));;
          upd_task task (set_mutex_list (Some o));;
          upd_mutex o (set_owner_nested 1);;
          RHINO_CRITICAL_EXIT_SCHED cpsr;;
          mret RHINO_SUCCESS
      end)
    (fun r s' => Inv s' /\ irq_off s' = cpsr /\ r = RHINO_SUCCESS /\
       mutex_abs s' o = Some (match blk_list b with
                              | [] => mk_amutex None 0 [] (mutex_mm_flag m =? K_OBJ_STATIC_ALLOC)
                              | w :: l => mk_amutex (Some w) 1 l (mutex_mm_flag m =? K_OBJ_STATIC_ALLOC)
                              end) /\
       Forall (released BLK_FINISH s s') (take 1 (blk_list b)))
    (set_mutexes (<[o := set_owner_nested 0 m]> (mutexes s)) s).
Proof.
  intros HI Hb Hty Hpol Hm Eo Ha Hka Hr. pose proof (inv_0 s HI) as H0. set (s1 := set_mutexes _ s).
  assert (MI s1) as Hmi by (apply mi_mlinks; [apply H0|by eapply mlinks_insert]).
  assert (NI (Some o) s1) as Hn1 by (by apply ni_forget).
  assert (live ka) as Hlv by (unfold live; by rewrite Hr).
  destruct (mi_chain s1 (proj1 Hmi) a ka Hka Hlv) as (l & Hch & Hnd & Hown).
  assert (o ∈ l) as Ho.
  { apply Hown. split; [by exists b|]. eexists. split; [apply lookup_insert_eq|done]. }
  assert (a <> g_idle_task) as Hai by (apply (mi_owner s1 (proj1 Hmi) o a); by apply Hown).
  kstep. eapply mutex_release_running_wp; [exact Hn1|apply Hmi|exact Hka|done..|].
  intros res ms' v rq' s2 Hn2 Hres Hlk Hcv Hrq. do 2 kstep.
  assert (exists m2, ms' !! o = Some m2 /\ owner_nested m2 = 0 /\ mutex_mm_flag m2 = mutex_mm_flag m) as (m2 & Hm2 & En2 & Ef2).
  { destruct Hlk as (_ & H1 & _). destruct (H1 o _ (lookup_insert_eq _ _ _)) as [v1 E1]. eexists. by split. }
  destruct (blk_list b) as [|w lw] eqn:El.
  - do 2 kstep. apply wp_critical_return.
    assert (res = prio ka) as Ep by (by eapply (release_same_prio s1 a ka o b l)).
    split_and!; [|done..| |constructor].
    + apply inv_irq. split; [by eapply (unlock_free s1 a ka o b l)|]. unfold postponed, top_task. cbn.
      rewrite (Hrq Ep). exact (inv_top s HI).
    + erewrite mutex_abs_intro; [|done|apply lookup_insert_eq|done]. unfold mutex_of. cbn. by rewrite En2, Ef2, El.
  - destruct (first_waiter s o b w lw (ci_wf s (i0_ci _ s H0)) Hb El) as (kw & Hkw & Hin & Hw).
    assert (w <> a) as Hwa by (intros ->; destruct Hin as [[E|E] _]; congruence).
    assert (tasks s2 !! w = Some kw) as Hkw2 by (cbn; by rewrite lookup_insert_ne).
    assert (tasks s2 !! a = Some (set_prio res (set_mutex_list v ka))) as Hka2 by apply lookup_insert_eq.
    kstep. eapply (pend_task_wakeup_wp w kw a _ o b); [apply Hn2|exact Hkw2|exact Hin|done|done|exact Hka2|].
    intros rq2 _ s4 Hwf4. do 10 kstep.
    set (m' := set_owner_nested 1 (set_m_mutex_list (mutex_list kw) (set_mutex_task (Some w) m2))).
    set (s5 := set_tasks (<[w := set_mutex_list (Some o) (woken BLK_FINISH kw)]> (tasks s4)) (set_mutexes (<[o := m']> ms') s4)).
    match goal with |- wp _ _ ?x => assert (x = s5) as -> by (unfold s5; cbn; rewrite ?insert_insert_eq; reflexivity) end.
    apply exit_sched_inv; [by eapply (unlock_next s1 a ka o b l)|].
    intros s' Hre HI'. split_and!; [done|by eapply irq_resched|done|..].
    + erewrite mutex_abs_resched by exact Hre.
      rewrite (mutex_abs_intro s5 o (set_blk_list lw b) m'); [|cbn|apply lookup_insert_eq|done].
      * unfold mutex_of. cbn. by rewrite Ef2.
      * unfold blk_without. rewrite lookup_alter_eq, Hb. cbn. by rewrite El, list_rm_cons_eq.
    + constructor; [|constructor]. eapply released_resched; [|exact Hre]. exists kw. eexists.
      split_and!; [done|apply lookup_insert_eq|done..].
Qed.

Lemma mutex_unlock_spec o b s :
  Inv s -> blks s !! o = Some b ->
  wp (krhino_mutex_unlock (Some o)) (fun r => mutex_post s o BLK_FINISH (am_run s MutexUnlock (mutex_abs s o)) (Ret r)) s.
Proof.
  intros HI Hb. unfold krhino_mutex_unlock, am_run, am_step. cbn [NULL_PARA_CHK]. do 2 kstep.
  rewrite bool_decide_false by (intros E; by pose proof (eq_trans (eq_sym (i0_stat _ s (inv_0 s HI))) E)). apply (obj_call_wp id o b); [done|..].
  - intros Hn. rewrite (proj2 (Z.ltb_lt _ _) Hn). by split_and!.
  - intros Hn Hty. rewrite (proj2 (Z.ltb_ge _ _) Hn), (mutex_abs_none s o b) by done.
    split_and!; try done. by rewrite (mutex_abs_none s o b).
  - intros Hn Hty. destruct (mutex_body s o b HI Hb Hty) as (m & Hm & Hnest & Hpol).
    rewrite (proj2 (Z.ltb_ge _ _) Hn), (mutex_abs_intro s o b m) by done. unfold am_unlock. cbn [mutex_of am_owner am_nested am_wait].
    destruct (inv_active s HI) as (a & ka & Ha & Hka & Hr); [pose proof (i0_nest _ s (inv_0 s HI)) as []; lia|].
    rewrite Ha. cbn [default from_option id]. do 4 kstep. destruct (decide (mutex_task m = Some a)) as [Eo|Eo].
    2: { rewrite !bool_decide_false by congruence. cbn [negb]. apply wp_critical_return. rewrite irq_restore.
         split_and!; try done. by rewrite (mutex_abs_intro s o b m). }
    rewrite !bool_decide_true by congruence. cbn [negb]. specialize (Hnest ltac:(congruence)).
    do 4 kstep. cbn [owner_nested set_owner_nested]. rewrite wrap_small by lia.
    destruct (Z.ltb_spec 0 (owner_nested m - 1)) as [Hgt|Hle].
    + rewrite (proj2 (Z.ltb_lt 1 (owner_nested m))) by lia. apply wp_critical_return. split_and!; try done.
      * apply (inv_irq (irq_off s)), (inv_nested (set_irq_off true s) o b); try done; [by apply inv_irq|lia].
      * erewrite mutex_abs_intro; [|done|apply lookup_insert_eq|done]. done.
    + rewrite (proj2 (Z.ltb_ge 1 (owner_nested m))) by lia.
      assert (owner_nested m - 1 = 0) as -> by lia.
      eapply wp_mono; [by eapply (unlock_last_wp o b m a ka (set_irq_off true s)); [apply inv_irq|..]|].
      intros r s' (HI' & Hirq & -> & Habs & Hrel). split_and!; try done; by destruct (blk_list b); try rewrite Habs.
Qed.

(** ** Locking *)

(** A free mutex: nobody waits for it, so owning it raises nothing. *)
Section take.
Context (s : kstate) (a : tid) (ka : ktask_t) (o : oid) (b : blk_obj_t) (m m' : kmutex_t).
Context (Hmi : MI s) (Hka : tasks s !! a = Some ka) (Hlv : live ka) (Hai : a <> g_idle_task).
Context (Hb : blks s !! o = Some b) (Hty : obj_type b = RHINO_MUTEX_OBJ_TYPE).
Context (Hm : mutexes s !! o = Some m) (Hfree : mutex_task m = None).
Context (Ey : mutex_task m' = Some a) (Em : m_mutex_list m' = mutex_list ka).

Definition taken : kstate :=
  set_tasks (<[a := set_mutex_list (Some o) ka]> (tasks s)) (set_mutexes (<[o := m']> (mutexes s)) s).

Lemma free_not_owned t : ~ owned s o t.
Proof. intros [_ (m0 & Hm0 & ?)]. congruence. Qed.

Lemma free_no_waits w : ~ waits s w o.
Proof. intros Hw. destruct (mi_wait s (proj1 Hmi) w o Hw) as (t & Ht & _). by apply free_not_owned in Ht. Qed.

Lemma taken_owned o' t : owned taken o' t <-> owned s o' t \/ o' = o /\ t = a.
Proof.
  unfold owned. cbn. destruct (decide (o' = o)) as [->|Hne].
  - rewrite lookup_insert_eq. split.
    + intros [_ (m0 & [= <-] & E)]. right. split; [done|]. congruence.
    + intros [Ho|[_ ->]]; [by apply free_not_owned in Ho|]. split; [by exists b|]. by exists m'.
  - rewrite lookup_insert_ne by done. split; [by left|]. by intros [?|[? _]].
Qed.

Lemma taken_task u k' : tasks taken !! u = Some k' -> exists k, tasks s !! u = Some k /\
  k' = if decide (u = a) then set_mutex_list (Some o) k else k.
Proof.
  cbn. rewrite lookup_insert_Some. intros [[<- <-]|[Hne Hk]]; [exists ka|exists k']; (split; [done|]);
    [by rewrite decide_True|by rewrite decide_False].
Qed.

Lemma taken_task_fwd u k : tasks s !! u = Some k -> tasks taken !! u = Some (if decide (u = a) then set_mutex_list (Some o) k else k).
Proof.
  intros Hk. cbn. destruct (decide (u = a)) as [->|]; [rewrite lookup_insert_eq; congruence|by rewrite lookup_insert_ne].
Qed.

Lemma taken_waits w o' : waits taken w o' <-> waits s w o'.
Proof.
  unfold waits. apply and_iff_compat_l. split; intros (k & Hk & Hin).
  - destruct (taken_task w k Hk) as (k0 & Hk0 & ->). exists k0. split; [done|]. by destruct (decide (w = a)).
  - eexists. split; [by apply taken_task_fwd|]. by destruct (decide (w = a)).
Qed.

Lemma taken_prio_of w : prio_of (tasks taken) w = prio_of (tasks s) w.
Proof. cbn. by apply prio_of_set_mutex_list. Qed.

Lemma taken_base : MIbase taken.
Proof.
  destruct (proj1 Hmi) as [Hc Ho Hw Hmu]. split.
  - intros u k' Hk' Hl'. destruct (taken_task u k' Hk') as (k & Hk & E).
    assert (live k) as Hl by (rewrite E in Hl'; by destruct (decide (u = a))).
    destruct (Hc u k Hk Hl) as (l & Hch & Hnd & Hown).
    assert (o ∉ l) as Hnl by (intros Hx%Hown; by apply free_not_owned in Hx).
    assert (chain (mutexes taken) (mutex_list k) l) as Hch'.
    { eapply chain_ext; [|exact Hch]. intros o' Ho'. cbn. rewrite lookup_insert_ne; [done|]. by intros ->. }
    destruct (decide (u = a)) as [->|Hne].
    + assert (k = ka) as -> by congruence. exists (o :: l). rewrite E. split_and!; [|by apply NoDup_cons|].
      * split; [done|]. exists m'. rewrite Em. split; [apply lookup_insert_eq|done].
      * intros o'. rewrite elem_of_cons, taken_owned, Hown. naive_solver.
    + exists l. rewrite E. split_and!; [done..|]. intros o'. rewrite taken_owned, Hown. naive_solver.
  - intros o' t [Ht|[-> ->]]%taken_owned.
    + destruct (Ho o' t Ht) as (? & k & Hk & ?). split; [done|]. eexists. split; [by apply taken_task_fwd|]. by destruct (decide (t = a)).
    + split; [done|]. eexists. split; [by apply taken_task_fwd|]. by rewrite decide_True.
  - intros w o' Hwo%taken_waits. destruct (Hw w o' Hwo) as (t & ? & ?). exists t. split; [|done]. apply taken_owned. by left.
  - intros o' b' Hb' Ht. destruct (Hmu o' b' Hb' Ht) as [? ?]. split; [done|]. by apply is_Some_insert.
Qed.

Lemma taken_mi : MI taken.
Proof.
  split; [apply taken_base|]. intros u. eapply inherit_ext; [apply (proj2 Hmi)|..].
  - intros k' Hk' Hl. destruct (taken_task u k' Hk') as (k & Hk & ->). exists k. by destruct (decide (u = a)).
  - intros w o' Ho' Hw%taken_waits. left. rewrite taken_prio_of. split_and!; try done.
    apply taken_owned in Ho' as [?|[-> _]]; [done|]. by apply free_no_waits in Hw.
  - intros w o' Ho' Hw. rewrite taken_prio_of, taken_owned, taken_waits. split_and!; try done. by left.
Qed.

End take.

Lemma taken_inv s a ka o b m :
  Inv s -> tasks s !! a = Some ka -> live ka -> a <> g_idle_task -> blks s !! o = Some b ->
  obj_type b = RHINO_MUTEX_OBJ_TYPE -> mutexes s !! o = Some m -> mutex_task m = None ->
  Inv (taken s a ka o (set_owner_nested 1 (set_m_mutex_list (mutex_list ka) (set_mutex_task (Some a) m)))).
Proof.
  intros [H0 Ht] Hka Hlv Hai Hb Hty Hm Hfree. set (m' := set_owner_nested 1 _). split; [|done]. apply ni_inv0.
  - eapply (ni_kproj None (set_mutexes (<[o := m']> (mutexes s)) s)); try done.
    apply (ni_core _ s); [right; by eexists| |by apply inv0_ni]. intros o' _ Hob.
    destruct (decide (o' = o)) as [->|]; [|by apply obj_ok_mutex]. eapply obj_ok_mutex_self; [done..|].
    intros _. cbn. pose proof port_bits_pos as (_ & Hbits & _). split; [lia|]. apply Z.pow_gt_1; lia.
  - by eapply taken_mi; [apply H0|..].
Qed.

(** A held mutex: the owner is raised to the priority of the new waiter, which
    then blocks. *)
Section contend.
Context (a t : tid) (ka : ktask_t).

Definition waiter_extra (u : tid) (q : Z) : Prop := u = t /\ q = prio ka.

Lemma lock_raise_wp km (Q : unit -> kstate -> Prop) s :
  Inv0 s -> tasks s !! a = Some ka -> tasks s !! t = Some km -> live km -> t <> g_idle_task ->
  (forall s1, pri_done waiter_extra s s1 -> tasks s1 !! a = Some ka -> Q tt s1) ->
  wp (if prio ka <? prio km then task_pri_change t (prio ka);; mret tt else mret tt) Q s.
Proof.
  intros H0 Hka Hkm Hlm Hti HQ. pose proof (i0_ci _ s H0) as HC. pose proof (ci_wf s HC) as Hwf.
  destruct (ci_mi s HC) as [Hb Hin].
  assert (forall u q, eff waiter_extra s u q <-> eff no_extra s u q \/ u = t /\ q = prio ka) as Heff
    by (intros u q; unfold eff, waiter_extra, no_extra; tauto).
  assert (forall u, u <> t -> prio_inherited waiter_extra s u) as Ho.
  { intros u Hu k Hk Hl. eapply is_min_ext; [|exact (Hin u k Hk Hl)]. intros q. rewrite Heff. naive_solver. }
  destruct (Hin t km Hkm Hlm) as [Ht Hmin]. destruct (Z.ltb_spec (prio ka) (prio km)) as [Hlt|Hge].
  - kstep. eapply (task_pri_change_wp waiter_extra t km); try done; [| |by apply idle_is_ready|by right|].
    + split_and!; [done|done|]. split; [apply Heff; by right|]. intros q [Hq|[_ ->]]%Heff; [|done]. specialize (Hmin q Hq). lia.
    + by apply (wf_task s Hwf a ka).
    + intros s1 Hd Hr. kstep. apply HQ; [done|]. rewrite (pframe_task _ _ _ _ (pd_frame _ _ _ Hd) Hka). f_equal.
      destruct (Hr Hlt a) as [->|[? _]]; rewrite (prio_of_Some _ _ _ Hka) in *; [done|lia].
  - kstep. apply HQ; [|done]. split; [done|done| |apply pframe_refl]. intros u. destruct (decide (u = t)) as [->|]; [|by apply Ho].
    intros k Hk _. rewrite Hkm in Hk. injection Hk as <-. split; [apply Heff; by left|]. intros q [Hq|[_ ->]]%Heff; [by apply Hmin|done].
Qed.

Lemma contended_mi s1 s2 o ticks :
  MIbase s1 -> (forall u, prio_inherited waiter_extra s1 u) -> tasks s1 !! a = Some ka -> task_state ka = K_RDY ->
  owned s1 o t -> t <> a -> lists_only s1 s2 ->
  tasks s2 = <[a := blocked o (g_tick_count s1) ticks ka]> (tasks s1) -> blk_types (blks s2) = blk_types (blks s1) -> MI s2.
Proof.
  intros Hb Hin Hka Hr Hot Hta Hf Et Ebt. set (kb := blocked o (g_tick_count s1) ticks ka) in *.
  destruct (blocked_fields o (g_tick_count s1) ticks ka) as (E1 & E2 & E3 & E4 & E5). fold kb in E1, E2, E3, E4, E5.
  assert (mutex_list kb = mutex_list ka) as Eml by (unfold kb, blocked; by destruct (timed ticks)).
  assert (live kb /\ live ka) as [Hlb Hla] by (unfold live; by rewrite E1, Hr).
  assert (mutexes s2 = mutexes s1) as Em by (by rewrite Hf).
  assert (forall o' u, owned s2 o' u <-> owned s1 o' u) as Hown
    by (intros o' u; unfold owned; by rewrite (is_mutex_types s1 s2 o' Ebt), Em).
  assert (forall w o', waits s2 w o' <-> waits s1 w o' \/ w = a /\ o' = o) as Hwt.
  { intros w o'. unfold waits. rewrite (is_mutex_types s1 s2 o' Ebt), Et. split.
    - intros [Hm (k & Hk & Hi)]. apply lookup_insert_Some in Hk as [[<- <-]|[? Hk]]; [right|left; by eauto].
      split; [done|]. destruct Hi as [_ ?]. congruence.
    - intros [[Hm (k & Hk & Hi)]|[-> ->]].
      + split; [done|]. exists k. rewrite lookup_insert_ne; [done|]. intros <-. destruct Hi as [[?|?] _]; congruence.
      + split; [apply Hot|]. exists kb. rewrite lookup_insert_eq. by split; [|split; [left|]]. }
  assert (forall u, prio_of (tasks s2) u = prio_of (tasks s1) u) as Hp.
  { intros u. rewrite Et. destruct (decide (u = a)) as [->|]; [|by apply prio_of_insert_ne].
    by rewrite prio_of_insert, (prio_of_Some _ _ _ Hka). }
  assert (forall u k', tasks s2 !! u = Some k' -> exists k, tasks s1 !! u = Some k /\ mutex_list k' = mutex_list k /\
    (live k' <-> live k) /\ prio k' = prio k /\ b_prio k' = b_prio k) as Hk.
  { intros u k'. rewrite Et, lookup_insert_Some. intros [[<- <-]|[? ?]]; [by exists ka|by exists k']. }
  split; [split|].
  - intros u k' Hk' Hl'. destruct (Hk u k' Hk') as (k & Hk0 & -> & Hl & _). rewrite Em.
    destruct (mi_chain s1 Hb u k Hk0 ltac:(by apply Hl)) as (l & ? & ? & Ho). exists l. split_and!; [done..|].
    intros o'. by rewrite Hown.
  - intros o' u Ho%Hown. destruct (mi_owner s1 Hb o' u Ho) as (? & k & Hk0 & Hl). split; [done|]. rewrite Et.
    destruct (decide (a = u)) as [->|]; [exists kb|exists k; by rewrite lookup_insert_ne]. by rewrite lookup_insert_eq.
  - intros w o' [Hw|[-> ->]]%Hwt; [|exists t; by rewrite Hown]. destruct (mi_wait s1 Hb w o' Hw) as (u & ? & ?).
    exists u. by rewrite Hown.
  - intros o' b' Hb' Hty. destruct (blk_types_lookup _ _ _ _ Ebt Hb') as (b0 & Hb0 & E & <-).
    rewrite Em. apply (mi_mutex s1 Hb o' b0 Hb0). congruence.
  - intros u k' Hk' Hl'. destruct (Hk u k' Hk') as (k & Hk0 & _ & Hl & -> & Ebp).
    eapply is_min_ext; [|apply (Hin u k Hk0); by apply Hl]. intros q. unfold eff, waiter_extra, no_extra. split.
    + intros [(k1 & Hk1 & ->)|[(w & o' & Ho' & Hw & ->)|[]]]; [left; exists k; split; [done|congruence]|].
      rewrite Hp. apply Hown in Ho'. apply Hwt in Hw as [Hw|[-> ->]]; [right; left; by eauto|]. right. right.
      split; [by eapply owned_unique|]. by rewrite (prio_of_Some _ _ _ Hka).
    + intros [(k1 & Hk1 & ->)|[(w & o' & Ho' & Hw & ->)|[-> ->]]]; [left; exists k'; split; [done|congruence]|right; left..].
      * exists w, o'. rewrite Hown, Hp. split_and!; try done. apply Hwt. by left.
      * exists a, o. rewrite Hown, Hp, (prio_of_Some _ _ _ Hka). split_and!; try done. apply Hwt. by right.
Qed.

End contend.

Lemma lock_contended_wp o b m a ka t ticks cpsr s :
  Inv0 s -> blks s !! o = Some b -> obj_type b = RHINO_MUTEX_OBJ_TYPE -> blk_policy b = BLK_POLICY_PRI ->
  mutexes s !! o = Some m -> mutex_task m = Some t -> tasks s !! a = Some ka -> task_state ka = K_RDY ->
  a <> g_idle_task -> t <> a -> g_sched_lock s = 0 -> timeout_ok ticks ->
  wp (ka ← get_task a;
      km ← get_task t;
      (if prio ka <? prio km then task_pri_change t (prio ka);; mret tt else mret tt);;
      pend_to_blk_obj o a ticks;;
      RHINO_CRITICAL_EXIT_SCHED cpsr;;
      mret Blocked)
    (fun r s' => Inv s' /\ irq_off s' = cpsr /\ r = Blocked /\
       am_equiv (mutex_abs s' o) (Some (mk_amutex (Some t) (owner_nested m) (a :: blk_list b) (mutex_mm_flag m =? K_OBJ_STATIC_ALLOC)))) s.
Proof.
  intros H0 Hb Hty Hpol Hm Ht Hka Hr Hai Hta Hl Hto.
  assert (owned s o t) as Hot by (split; [by exists b|by exists m]).
  destruct (mi_owner s (proj1 (ci_mi s (i0_ci _ s H0))) o t Hot) as (Hti & km & Hkm & Hlm).
  do 5 kstep. eapply (lock_raise_wp a t ka km); [done..|]. intros s1 [Hwf1 Hb1 Hin1 Hf1] Hka1. kstep.
  assert (NI None s1) as Hn1 by (by eapply (ni_pframe None s); [apply inv0_ni|..]).
  destruct (pframe_blk _ _ _ _ Hf1 Hb) as (lw & Hbo & Hlw). pose proof (pf_rest _ _ Hf1) as E1.
  eapply (ni_block_wp None a ka o); try done; [by rewrite E1|intros _; cbn; by rewrite Hty|]. intros s2 Hn2 Hf2 Et2 Eb2.
  assert (MI s2) as Hmi2.
  { eapply (contended_mi a t ka s1 s2 o); try done; [by apply (pframe_owned _ _ Hf1)|]. rewrite Eb2. by apply blk_types_list. }
  apply exit_sched_inv; [by apply ni_inv0|]. intros s' Hre HI'. split_and!; [done|by eapply irq_resched|done|].
  erewrite mutex_abs_resched by exact Hre.
  erewrite mutex_abs_intro; [|rewrite Eb2; apply lookup_insert_eq|rewrite Hf2; cbn; rewrite (pframe_mutexes _ _ Hf1); exact Hm|done].
  constructor. unfold mutex_of. cbn. split_and!; try done. by rewrite pri_enqueue_perm, Hlw.
Qed.

Lemma mutex_lock_spec o ticks b s :
  Inv s -> timeout_ok ticks -> g_active_task s <> Some g_idle_task -> blks s !! o = Some b ->
  wp (krhino_mutex_lock (Some o) ticks) (mutex_post s o BLK_FINISH (am_run s (MutexLock ticks) (mutex_abs s o))) s.
Proof.
  intros HI Hto Hidle Hb. unfold krhino_mutex_lock, am_run, am_step. cbn [NULL_PARA_CHK]. do 2 kstep.
  rewrite bool_decide_false by (intros E; by pose proof (eq_trans (eq_sym (i0_stat _ s (inv_0 s HI))) E)).
  apply (obj_call_wp Ret o b); [done|..].
  - intros Hn. rewrite (proj2 (Z.ltb_lt _ _) Hn). by split_and!.
  - intros Hn Hty. rewrite (proj2 (Z.ltb_ge _ _) Hn), (mutex_abs_none s o b) by done.
    split_and!; try done. by rewrite (mutex_abs_none s o b).
  - intros Hn Hty. destruct (mutex_body s o b HI Hb Hty) as (m & Hm & Hnest & Hpol).
    rewrite (proj2 (Z.ltb_ge _ _) Hn), (mutex_abs_intro s o b m) by done. unfold am_lock. cbn [mutex_of am_owner am_nested am_wait].
    destruct (inv_active s HI) as (a & ka & Ha & Hka & Hr); [pose proof (i0_nest _ s (inv_0 s HI)) as []; lia|].
    rewrite Ha. cbn [default from_option id]. do 4 kstep. pose proof (mutex_abs_intro s o b m Hb Hm Hty) as Habs.
    destruct (decide (mutex_task m = Some a)) as [Eo|Eo].
    + rewrite !bool_decide_true by congruence. specialize (Hnest ltac:(congruence)).
      rewrite wrap_neg1 by (pose proof port_bits_pos as (_ & ? & _); lia).
      destruct (Z.eqb_spec (owner_nested m) (2 ^ mutex_nested_bits - 1)) as [E|E].
      * unfold k_err_proc. do 2 kstep. apply wp_critical_return. split_and!; try done; [|by rewrite <- Habs].
        apply inv_irq, (inv_core s); [done| |done]. intros o'. by apply obj_ok_same.
      * do 2 kstep. apply wp_critical_return. rewrite wrap_small by lia. split_and!; try done.
        -- apply (inv_irq (irq_off s)), (inv_nested (set_irq_off true s) o b); try done; [by apply inv_irq|lia].
        -- erewrite mutex_abs_intro; [|done|apply lookup_insert_eq|done]. done.
    + rewrite !bool_decide_false by congruence. destruct (mutex_task m) as [t|] eqn:Et.
      * destruct (Z.eqb_spec ticks RHINO_NO_WAIT); [apply wp_critical_return; rewrite irq_restore; split_and!; by rewrite ?Habs|].
        do 2 kstep. cbn [g_sched_lock set_irq_off]. destruct (Z.ltb_spec 0 (g_sched_lock s)).
        { apply wp_critical_return; rewrite irq_restore; split_and!; by rewrite ?Habs. }
        eapply wp_mono; [eapply (lock_contended_wp o b m a ka t ticks); try done; [apply inv0_irq, HI|congruence..|]|].
        { pose proof (i0_lock_range _ s (inv_0 s HI)). cbn. lia. }
        intros r s' (? & ? & -> & ?). by split_and!.
      * do 6 kstep. apply wp_critical_return. split_and!; try done.
        -- apply inv_irq. eapply (taken_inv (set_irq_off true s)); try done; [by apply inv_irq|unfold live; by rewrite Hr|congruence].
        -- erewrite mutex_abs_intro; [|done|apply lookup_insert_eq|done]. done.
Qed.

(** ** Deleting *)

Section untake.
Context (s : kstate) (t : tid) (kt : ktask_t) (o : oid) (b : blk_obj_t) (l : list oid).
Context (Hn : NI None s) (Hmi : MI s) (Hkt : tasks s !! t = Some kt) (Hlv : live kt).
Context (Hb : blks s !! o = Some b).
Context (Hch : chain (mutexes s) (mutex_list kt) l) (Hnd : NoDup l) (Hown : forall o', o' ∈ l <-> owned s o' t) (Ho : o ∈ l).

Definition untyped : kstate := set_blks (<[o := set_obj_type RHINO_OBJ_TYPE_NONE b]> (blks s)) s.

Definition unlinked (ms' : gmap oid kmutex_t) (v : option oid) : kstate :=
  set_mutexes ms' (set_tasks (<[t := set_mutex_list v kt]> (tasks untyped)) untyped).

Lemma untyped_blk o' : o' <> o -> blks untyped !! o' = blks s !! o'.
Proof. intros Hne. cbn. by rewrite lookup_insert_ne. Qed.

Lemma untyped_mutex o' : is_mutex untyped o' <-> is_mutex s o' /\ o' <> o.
Proof.
  unfold is_mutex. cbn. destruct (decide (o' = o)) as [->|].
  - rewrite lookup_insert_eq. split; [by intros (b' & [= <-] & ?)|by intros [_ ?]].
  - rewrite lookup_insert_ne by done. naive_solver.
Qed.

Lemma untyped_waiters_ok : waiters_ok untyped (list_rm o l).
Proof.
  intros o' Hin. pose proof Hin as [Ho' Hne]%list_rm_spec.
  destruct (owned_waiters_ok s (list_rm o l) (ni_wf _ s Hn) (proj1 Hmi)) with o' as (b' & Hb' & ?); [|done|].
  { intros o1 [Ho1 _]%list_rm_spec. apply (proj1 (Hown o1) Ho1). }
  exists b'. by rewrite untyped_blk.
Qed.

Lemma untyped_look res : look_result untyped (list_rm o l) (b_prio kt) res -> look_result s (list_rm o l) (b_prio kt) res.
Proof.
  apply is_min_ext. intros q. apply or_iff_compat_l. unfold waiter_prio.
  split; intros (o' & b' & w & Ho' & Hb' & Hw & E); exists o', b', w; pose proof Ho' as [_ Hne]%list_rm_spec.
  - rewrite untyped_blk by done. by split_and!.
  - rewrite untyped_blk in Hb' by done. by split_and!.
Qed.

Context (ms' : gmap oid kmutex_t) (v : option oid) (Hlk : links_changed l (mutexes s) ms') (Hcv : chain ms' v (list_rm o l)).

Lemma unlinked_task u k' : tasks (unlinked ms' v) !! u = Some k' -> exists k, tasks s !! u = Some k /\
  k' = if decide (u = t) then set_mutex_list v k else k.
Proof.
  cbn. rewrite lookup_insert_Some. intros [[<- <-]|[Hne Hk]]; [exists kt|exists k']; (split; [done|]);
    [by rewrite decide_True|by rewrite decide_False].
Qed.

Lemma unlinked_task_fwd u k : tasks s !! u = Some k ->
  tasks (unlinked ms' v) !! u = Some (if decide (u = t) then set_mutex_list v k else k).
Proof.
  intros Hk. cbn. destruct (decide (u = t)) as [->|]; [rewrite lookup_insert_eq; congruence|by rewrite lookup_insert_ne].
Qed.

Lemma unlinked_waits w o' : waits (unlinked ms' v) w o' <-> waits s w o' /\ o' <> o.
Proof.
  unfold waits. change (is_mutex (unlinked ms' v) o') with (is_mutex untyped o'). rewrite untyped_mutex. split.
  - intros [[? ?] (k & Hk & Hin)]. destruct (unlinked_task w k Hk) as (k0 & Hk0 & ->). split; [|done]. split; [done|].
    exists k0. split; [done|]. by destruct (decide (w = t)).
  - intros [[? (k & Hk & Hin)] ?]. split; [done|]. eexists. split; [by apply unlinked_task_fwd|]. by destruct (decide (w = t)).
Qed.

Lemma unlinked_owned o' u : owned (unlinked ms' v) o' u <-> o' <> o /\ owned s o' u.
Proof.
  unfold owned. change (is_mutex (unlinked ms' v) o') with (is_mutex untyped o'). rewrite untyped_mutex.
  destruct Hlk as (_ & H1 & H2). split.
  - intros [[? ?] (m & Hm & Ht)]. split_and!; try done. destruct (mutexes s !! o') as [m0|] eqn:E; [|cbn in Hm; by rewrite H2 in Hm].
    destruct (H1 o' m0 E) as [v1 E1]. exists m0. split; [done|]. cbn in Hm. rewrite E1 in Hm. by injection Hm as <-.
  - intros [? [? (m & Hm & Ht)]]. split; [done|]. destruct (H1 o' m Hm) as [v1 E1]. by exists (set_m_mutex_list v1 m).
Qed.

Lemma unlinked_handed : handed s (unlinked ms' v) t o l v None.
Proof.
  split.
  - intros o' u. rewrite unlinked_owned. naive_solver.
  - intros w o' [? ?]%unlinked_waits. split_and!; try done.
  - intros u k' Hk' Hl'. destruct (unlinked_task u k' Hk') as (k & Hk & ->). exists k. split; [done|].
    by destruct (decide (u = t)).
  - intros u k Hk Hl. eexists. split; [by apply unlinked_task_fwd|]. by destruct (decide (u = t)).
  - intros o' _ Hnl. by apply Hlk.
  - exact Hcv.
  - done.
  - intros o' b' Hb' Hty. assert (o' <> o) as Hne.
    { intros ->. cbn in Hb'. rewrite lookup_insert_eq in Hb'. by injection Hb' as <-. }
    cbn in Hb'. rewrite lookup_insert_ne in Hb' by done. destruct (mi_mutex s (proj1 Hmi) o' b' Hb' Hty) as [? [m Hm]].
    split; [done|]. destruct (proj1 (proj2 Hlk) o' m Hm) as [v1 E]. eauto.
Qed.

Lemma unlinked_prio_of u : prio_of (tasks (unlinked ms' v)) u = prio_of (tasks s) u.
Proof. cbn. by apply prio_of_set_mutex_list. Qed.

Lemma unlinked_ni : NI (Some o) (unlinked ms' v).
Proof.
  apply (ni_core (Some o) (set_tasks (<[t := set_mutex_list v kt]> (tasks untyped)) untyped)).
  - right. by exists ms'.
  - intros o' _ Hobj. eapply obj_ok_step; [| | |exact Hobj]; [|done|by eauto].
    unfold bodies. cbn. destruct (links_changed_maps _ _ _ Hlk) as [E1 E2]. by rewrite E1, E2.
  - eapply (ni_kproj (Some o) untyped t kt); try done. by apply ni_retype.
Qed.

Lemma unlinked_mix res : look_result untyped (list_rm o l) (b_prio kt) res -> MIx no_extra (unlinked ms' v) t res.
Proof.
  intros Hres%untyped_look. pose proof unlinked_handed as Hh. split_and!.
  - by eapply (handed_base s _ t kt o l v None); [apply Hmi|..].
  - intros u Hu. eapply (handed_inherit s _ t o l v None); try done.
    + intros w _. left. apply unlinked_prio_of.
    + intros k' Hk' k Hk. destruct (unlinked_task u k' Hk') as (k0 & Hk0 & ->). assert (k0 = k) as -> by congruence.
      by destruct (decide (u = t)).
    + intros w o' Hw Hne. by apply unlinked_waits.
    + apply Hmi.
  - eapply (handed_self s _ t kt o l v None); try done; [apply Hn| | |].
    + intros k' Hk'. destruct (unlinked_task t k' Hk') as (k0 & Hk0 & ->). assert (k0 = kt) as -> by congruence.
      by rewrite decide_True.
    + eexists. by apply unlinked_task_fwd.
    + intros w o' Hw Hne. rewrite unlinked_waits, unlinked_prio_of. done.
Qed.

End untake.

Definition same_states (s s' : kstate) : Prop :=
  forall u k', tasks s' !! u = Some k' -> exists k, tasks s !! u = Some k /\ task_state k' = task_state k.

Lemma pframe_states s s' : pframe s s' -> same_states s s'.
Proof. intros Hf u k' Hk'. destruct (pframe_task_inv _ _ _ _ Hf Hk') as (k & Hk & E). exists k. by rewrite E. Qed.

Lemma same_states_trans s1 s2 s3 : same_states s1 s2 -> same_states s2 s3 -> same_states s1 s3.
Proof. intros H1 H2 u k3 Hk3. destruct (H2 u k3 Hk3) as (k2 & Hk2 & ->). by apply H1. Qed.

Lemma released_states bs s s1 s' t : same_states s s1 -> released bs s1 s' t -> released bs s s' t.
Proof.
  intros Hs (k1 & k' & Hk1 & Hk' & E & ? & ?). destruct (Hs t k1 Hk1) as (k & Hk & Ek). exists k, k'.
  split_and!; try done. by rewrite E, Ek.
Qed.

(** A step of the deletion of [o]: other objects keep their kind, and all of them their storage. *)
Record del_frame (o : oid) (s s' : kstate) : Prop := {
  df_states : same_states s s';
  df_types o' : o' <> o -> obj_type <$> blks s' !! o' = obj_type <$> blks s !! o';
  df_flags : mutex_mm_flag <$> mutexes s' = mutex_mm_flag <$> mutexes s;
  df_bodies : (sems s', queues s', bufqs s', events s') = (sems s, queues s, bufqs s, events s)
}.

Lemma pframe_types s s' o : pframe s s' -> obj_type <$> blks s' !! o = obj_type <$> blks s !! o.
Proof.
  intros Hf. pose proof (pf_blks _ _ Hf o) as E. destruct (blks s !! o), (blks s' !! o); try done. destruct E as [E _]. cbn. by rewrite E.
Qed.

Lemma del_frame_pframe o s s1 s2 : del_frame o s s1 -> pframe s1 s2 -> del_frame o s s2.
Proof.
  intros [Hs Ht Hf Hb] Hp. split.
  - by eapply same_states_trans, pframe_states.
  - intros o' Hne. rewrite (pframe_types _ _ _ Hp). by apply Ht.
  - rewrite (pf_rest _ _ Hp). exact Hf.
  - rewrite (pf_rest _ _ Hp). exact Hb.
Qed.

Lemma links_changed_flags D ms ms' : links_changed D ms ms' -> mutex_mm_flag <$> ms' = mutex_mm_flag <$> ms.
Proof.
  intros (_ & H1 & H2). apply map_eq. intros o. rewrite !lookup_fmap. destruct (ms !! o) as [m|] eqn:E.
  - by destruct (H1 o m E) as [v ->].
  - by rewrite H2.
Qed.

(** The owner of a deleted mutex loses what it inherited through it. *)
Lemma del_release_wp s t o b (Q : unit -> kstate -> Prop) :
  Inv0 s -> blks s !! o = Some b -> owned s o t ->
  (forall s2 lw, Inv0x (Some o) s2 -> blks s2 !! o = Some (set_blk_list lw (set_obj_type RHINO_OBJ_TYPE_NONE b)) ->
     lw ≡ₚ blk_list b -> del_frame o s s2 -> Q tt s2) ->
  wp (mutex_release t (Some o)) Q (untyped s o b).
Proof.
  intros H0 Hb Ho HQ. pose proof (ci_mi s (i0_ci _ s H0)) as Hmi. pose proof (inv0_ni _ s H0) as Hn.
  destruct (mi_owner s (proj1 Hmi) o t Ho) as (Hti & kt & Hkt & Hlv).
  destruct (mi_chain s (proj1 Hmi) t kt Hkt Hlv) as (l & Hch & Hnd & Hown). unfold mutex_release. kstep.
  eapply mutex_pri_look_unlink_wp; [exact Hkt|exact Hch|exact Hnd|by apply Hown|by eapply untyped_waiters_ok|].
  intros res ms' v Hres Hlk Hcv. fold (unlinked s t kt o b ms' v). set (s1 := unlinked s t kt o b ms' v).
  assert (NI (Some o) s1) as Hn1 by (by eapply unlinked_ni).
  assert (MIx no_extra s1 t res) as Hx by (by eapply unlinked_mix; [..|by apply Hown|exact Hlk|exact Hcv|]).
  assert (del_frame o s s1) as Hs1.
  { split; [|intros o' Hne; cbn; by rewrite lookup_insert_ne|by eapply links_changed_flags|done].
    intros u k' Hk'. destruct (unlinked_task s t kt o b Hkt ms' v u k' Hk') as (k & Hk & ->). exists k. by destruct (decide (u = t)). }
  assert (tasks s1 !! t = Some (set_mutex_list v kt)) as Hkt1 by apply lookup_insert_eq.
  kstep. eapply wp_get_task; [exact Hkt1|]. cbn [prio set_mutex_list]. destruct (Z.eqb_spec res (prio kt)) as [E|E]; cbn [negb].
  - kstep. apply (HQ s1 (blk_list b)); [|apply lookup_insert_eq|done|done]. apply ni_inv0; [done|]. split; [apply Hx|].
    intros u. destruct (decide (u = t)) as [->|]; [|by apply Hx]. intros k1 Hk1 _. rewrite Hkt1 in Hk1. injection Hk1 as <-.
    destruct Hx as (_ & _ & Hmin). by rewrite E in Hmin.
  - kstep. eapply (task_pri_change_wp no_extra); [apply Hn1|exact Hx|exact Hkt1|done| |done|by eapply ni_idle_ready|by left|].
    { by eapply prio_ok_min; [apply Hn1|exact Hkt1|apply Hx]. }
    intros s2 [Hwf2 Hb2 Hin2 Hf2] _. kstep.
    destruct (pframe_blk s1 s2 o (set_obj_type RHINO_OBJ_TYPE_NONE b) Hf2 (lookup_insert_eq _ _ _)) as (lw & Hbo & Hlw).
    apply (HQ s2 lw); [|done|done|by eapply del_frame_pframe]. apply ni_inv0; [by eapply ni_pframe|by split].
Qed.

Lemma mutex_del_spec o b s :
  Inv s -> blks s !! o = Some b ->
  wp (krhino_mutex_del (Some o)) (fun r => mutex_post s o BLK_DEL (am_run s MutexDel (mutex_abs s o)) (Ret r)) s.
Proof.
  intros HI Hb. unfold krhino_mutex_del, am_run, am_step. cbn [NULL_PARA_CHK]. apply (obj_call_wp id o b); [done|..].
  - intros Hn. rewrite (proj2 (Z.ltb_lt _ _) Hn). by split_and!.
  - intros Hn Hty. rewrite (proj2 (Z.ltb_ge _ _) Hn), (mutex_abs_none s o b) by done.
    split_and!; try done. by rewrite (mutex_abs_none s o b).
  - intros Hn Hty. destruct (mutex_body s o b HI Hb Hty) as (m & Hm & Hnest & Hpol).
    pose proof (mutex_abs_intro s o b m Hb Hm Hty) as Habs.
    rewrite (proj2 (Z.ltb_ge _ _) Hn), Habs. unfold am_del. cbn [mutex_of am_static am_wait]. do 2 kstep.
    destruct (mutex_mm_flag m =? K_OBJ_STATIC_ALLOC) eqn:Ef; cbn [negb].
    2: { apply wp_critical_return. rewrite irq_restore. by split_and!; rewrite ?Habs. }
    set (s0 := set_irq_off true s). assert (Inv0 s0) as H0 by apply inv0_irq, HI. do 2 kstep.
    assert (forall s2 lw, Inv0x (Some o) s2 -> blks s2 !! o = Some (set_blk_list lw (set_obj_type RHINO_OBJ_TYPE_NONE b)) ->
      lw ≡ₚ blk_list b -> same_states s0 s2 ->
      wp (blk_wake_all o pend_task_rm;; RHINO_CRITICAL_EXIT_SCHED (irq_off s);; mret RHINO_SUCCESS)
        (fun r => mutex_post s o BLK_DEL (mk_am_result (Ret RHINO_SUCCESS) (blk_list b) None) (Ret r)) s2) as Hdrain.
    { intros s2 lw H2 Hb2 Hlw Hs2. eapply drain_deleted_wp; [exact H2|exact Hb2|done..|]. intros s3 H3 _ Eb3 Hrel.
      apply exit_sched_inv; [done|]. intros s' Hre HI'. split_and!; [done|by eapply irq_resched|done|..].
      - erewrite mutex_abs_resched by exact Hre. by erewrite mutex_abs_none; [|rewrite Eb3; apply lookup_insert_eq|].
      - cbn [mr_released]. rewrite <- Hlw. eapply Forall_impl; [exact Hrel|]. intros u Hu.
        eapply released_resched; [|exact Hre]. by eapply released_states. }
    kstep. destruct (mutex_task m) as [t|] eqn:Et.
    + eapply (del_release_wp s0 t o b); [done|done| |].
      * split; [by exists b|by exists m].
      * intros s2 lw ? ? ? []. by eapply Hdrain.
    + kstep. eapply (Hdrain _ (blk_list b)); [|apply lookup_insert_eq|done|by intros u k Hk; exists k].
      apply (inv0_retype s0); [done..|]. intros t [_ (m0 & Hm0 & ?)]. cbn in Hm0. congruence.
Qed.

(** Every mutex call. *)
Lemma mutex_call_spec o op s :
  Inv s -> is_Some (blks s !! o) -> mutex_pre s op ->
  wp (mutex_exec o op) (mutex_post s o (am_blk_state op) (am_run s op (mutex_abs s o))) s.
Proof.
  intros HI [b Hb] Hpre. destruct op as [ticks| |]; cbn [mutex_exec]; cbn in Hpre.
  - destruct Hpre. by apply (mutex_lock_spec o ticks b).
  - kstep. eapply wp_mono; [by apply (mutex_unlock_spec o b)|done].
  - kstep. eapply wp_mono; [by apply (mutex_del_spec o b)|done].
Qed.

(** C1: a kernel mutex refines an owned, nesting lock with a set of
    waiters: from any state satisfying the kernel invariant, locking (nested,
    free or contended, with the owner raised along the chain of mutexes),
    unlocking (handing over to the first waiter) and deleting return the abstract
    result, leave the abstract mutex up to the order of its waiters, let go
    exactly the abstract tasks, restore the interrupt mask and keep the kernel
    invariant, which contains that every task runs at the most urgent of its own
    priority and those of the tasks waiting for a mutex it holds. *)
Theorem mutex_refines_owned_lock o op s :
  Inv s -> is_Some (blks s !! o) -> mutex_pre s op ->
  wp (mutex_exec o op) (mutex_post s o (am_blk_state op) (am_run s op (mutex_abs s o))) s.
Proof. apply mutex_call_spec. Qed.

End mutex.

Lemma mutex_refines_owned_lock_witness :
  Inv (demo_with NewMutex) /\ mutex_pre (demo_with NewMutex) (MutexLock 5) /\
  am_run (demo_with NewMutex) (MutexLock 5) (mutex_abs (demo_with NewMutex) 1%nat) =
    am_stay RHINO_SUCCESS (Some (mk_amutex (Some g_dyn_task) 1 [] true)) /\
  wp (mutex_exec 1%nat (MutexLock 5))
    (mutex_post (demo_with NewMutex) 1%nat BLK_FINISH (am_run (demo_with NewMutex) (MutexLock 5) (mutex_abs (demo_with NewMutex) 1%nat))) (demo_with NewMutex).
Proof.
  assert (mutex_pre (demo_with NewMutex) (MutexLock 5)) as Hpre by (split; [left; lia|by vm_compute]).
  split_and!; [apply (proj1 (demo_with_inv NewMutex I))|exact Hpre|by vm_compute|].
  apply (mutex_refines_owned_lock 1%nat (MutexLock 5) (demo_with NewMutex)); [apply (proj1 (demo_with_inv NewMutex I))|by eexists; vm_compute|exact Hpre].
Defined.
