(* ===== verification/QueueSpec.v ===== *)
(** * Message queues keep the invariant and refine a bounded queue of words *)

From S2P Require Import Prelude KErr RingBuf KState KMonad Sched Pend KInv Mutex PriInv Sem Event Queue BufQueue Inv Moves Create Task KSys Boot.
Local Open Scope Z_scope.

(** ** The abstract queue: the words in it, its size and the waiting receivers *)

Record aqueue := mk_aqueue {
  aq_msgs : list Z;
  aq_size : Z;
  aq_wait : list tid;
  aq_static : bool
}.

Inductive queue_op :=
  | QueueSend (all : bool) (m : Z)
  | QueueRecv (ticks : Z)
  | QueueIsFull
  | QueueFlush
  | QueueDel.

(** The status and the word stored for the caller, the tasks let go and the
    queue afterwards. *)
Record aq_result := mk_aq_result {
  qr_ret : call_res;
  qr_out : option Z;
  qr_released : list tid;
  qr_queue : option aqueue
}.

Definition aq_stay (r : kstat_t) (out : option Z) (q : option aqueue) : aq_result := mk_aq_result (Ret r) out [] q.

Definition aq_set_msgs (l : list Z) (q : aqueue) : aqueue := mk_aqueue l (aq_size q) (aq_wait q) (aq_static q).

Definition aq_set_wait (l : list tid) (q : aqueue) : aqueue := mk_aqueue (aq_msgs q) (aq_size q) l (aq_static q).

Definition aq_full (q : aqueue) : bool := aq_size q <=? Z.of_nat (length (aq_msgs q)).

Definition aq_send (all : bool) (m : Z) (q : aqueue) : aq_result :=
  if aq_full q then aq_stay RHINO_QUEUE_FULL None (Some q)
  else match aq_wait q with
       | [] => aq_stay RHINO_SUCCESS None (Some (aq_set_msgs (aq_msgs q ++ [m]) q))
       | t :: l => mk_aq_result (Ret RHINO_SUCCESS) None (if all then t :: l else [t])
                     (Some (aq_set_wait (if all then [] else l) q))
       end.

Definition aq_recv (p : tid -> Z) (a : tid) (ticks : Z) (locked : bool) (q : aqueue) : aq_result :=
  match aq_msgs q with
  | m :: l => aq_stay RHINO_SUCCESS (Some m) (Some (aq_set_msgs l q))
  | [] =>
      if ticks =? RHINO_NO_WAIT then aq_stay RHINO_NO_PEND_WAIT (Some 0) (Some q)
      else if locked then aq_stay RHINO_SCHED_DISABLE (Some 0) (Some q)
      else mk_aq_result Blocked None [] (Some (aq_set_wait (pri_enqueue p a (aq_wait q)) q))
  end.

Definition aq_del (q : aqueue) : aq_result :=
  if aq_static q then mk_aq_result (Ret RHINO_SUCCESS) None (aq_wait q) None
  else aq_stay RHINO_KOBJ_DEL_ERR None (Some q).

(** Interrupt handlers may send, ask and receive without waiting. *)
Definition aq_in_intrpt (op : queue_op) : bool :=
  match op with
  | QueueSend _ _ | QueueIsFull => true
  | QueueRecv ticks => ticks =? RHINO_NO_WAIT
  | QueueFlush | QueueDel => false
  end.

Definition aq_step (p : tid -> Z) (a : tid) (intrpt locked : bool) (op : queue_op) (q : option aqueue) : aq_result :=
  if intrpt && negb (aq_in_intrpt op) then aq_stay RHINO_NOT_CALLED_BY_INTRPT None q
  else match q with
       | None => aq_stay RHINO_KOBJ_TYPE_ERR None None
       | Some q =>
           match op with
           | QueueSend all m => aq_send all m q
           | QueueRecv ticks => aq_recv p a ticks locked q
           | QueueIsFull => aq_stay (if aq_full q then RHINO_QUEUE_FULL else RHINO_QUEUE_NOT_FULL) None (Some q)
           | QueueFlush => aq_stay RHINO_SUCCESS None (Some (aq_set_msgs [] q))
           | QueueDel => aq_del q
           end
       end.

(** ** The refinement relation *)

Definition queue_rel (s : kstate) (o : oid) (aq : option aqueue) : Prop :=
  exists b, blks s !! o = Some b /\
    match aq with
    | None => obj_type b <> RHINO_QUEUE_OBJ_TYPE
    | Some a => obj_type b = RHINO_QUEUE_OBJ_TYPE /\ aq_wait a = blk_list b /\ exists q, queues s !! o = Some q /\
        queue_repr q (aq_msgs a) /\ aq_size a = q_size q /\ aq_static a = (q_mm_flag q =? K_OBJ_STATIC_ALLOC)
    end.

Lemma queue_rel_resched s s' o aq c : resched (set_irq_off c s) s' -> queue_rel s o aq -> queue_rel s' o aq.
Proof. by intros (ts & a & p & -> & _)%resched_eq. Qed.

(** ** The ring of a queue *)

Lemma u32_roundtrip v : fits 32 v -> u32_of_bytes (u32_bytes v) = v.
Proof.
  intros [? ?]. rewrite u32_bytes_byte_of. unfold u32_of_bytes, byte_of. cbn [lookup_total list_lookup_total].
  change (8 * 0) with 0. change (8 * 1) with 8. change (8 * 2) with 16. change (8 * 3) with 24. rewrite Z.div_1_r.
  rewrite (Z.mod_small (v / 2 ^ 24)) by (split; [apply Z.div_pos; lia|apply Z.div_lt_upper_bound; lia]).
  pose proof (Z.div_mod v (2 ^ 8) ltac:(lia)). pose proof (Z.div_mod (v / 2 ^ 8) (2 ^ 8) ltac:(lia)).
  pose proof (Z.div_mod (v / 2 ^ 8 / 2 ^ 8) (2 ^ 8) ltac:(lia)).
  rewrite !Z.div_div in * by lia. change (2 ^ 8 * 2 ^ 8) with (2 ^ 16) in *. change (2 ^ 16 * 2 ^ 8) with (2 ^ 24) in *. lia.
Qed.

Lemma f_free_fix cap blk msgs :
  f_free (mk_fifo cap RINGBUF_TYPE_FIX blk msgs) = cap - blk * Z.of_nat (length msgs).
Proof.
  unfold f_free. cbn [f_cap f_msgs]. f_equal. unfold f_size. cbn. induction msgs as [|m ms IH]; cbn; [lia|].
  rewrite IH. lia.
Qed.

Lemma queue_push q msgs v :
  queue_repr q msgs -> Z.of_nat (length msgs) < q_size q -> fits 32 v ->
  exists rb, ringbuf_push (q_ringbuf q) (u32_bytes v) PTR_SIZE = Some (RHINO_SUCCESS, rb) /\
    forall q', q_ringbuf q' = rb -> q_size q' = q_size q -> q_cur_num q' = q_cur_num q + 1 -> queue_repr q' (msgs ++ [v]).
Proof.
  intros (Hsim & Hn & Hall) Hlt Hv. pose proof (rb_sim_free _ _ Hsim) as Hf. rewrite f_free_fix, length_fmap in Hf.
  destruct Hsim as (Hrep & He & Ht & Hb). cbn in Ht, Hb, He.
  destruct (push_fix (q_ringbuf q) (u32_bytes v) _ Hrep Ht) with (len := PTR_SIZE) as (rb & Ep & Hrep' & ? & ? & ?).
  { by rewrite Hb. }
  { rewrite Hb, Hf. unfold PTR_SIZE in *. lia. }
  exists rb. split; [done|]. intros q' Er Es Ec. split_and!.
  - rewrite Er, Es, fmap_app. split; [done|]. cbn. split_and!; congruence.
  - rewrite Ec, Hn, length_app. cbn. lia.
  - apply Forall_app. split; [done|]. by apply Forall_singleton.
Qed.

Lemma queue_pop q m msgs :
  queue_repr q (m :: msgs) ->
  exists rb, ringbuf_pop (q_ringbuf q) = Some (RHINO_SUCCESS, Some (u32_bytes m, 4), rb) /\ fits 32 m /\
    forall q', q_ringbuf q' = rb -> q_size q' = q_size q -> q_cur_num q' = q_cur_num q - 1 -> queue_repr q' msgs.
Proof.
  intros (Hsim & Hn & Hall). apply Forall_cons in Hall as [Hm Hall]. destruct Hsim as (Hrep & He & Ht & Hb).
  cbn in Ht, Hb, He, Hrep. destruct (pop_fix (q_ringbuf q) _ _ Hrep Ht) as (rb & Ep & Hrep' & ? & ? & ?).
  exists rb. split_and!; [done..|]. intros q' Er Es Ec. split_and!; [|rewrite Ec, Hn; cbn; lia|done].
  rewrite Er, Es. split; [done|]. cbn. split_and!; congruence.
Qed.

Lemma queue_reset q msgs q' :
  queue_repr q msgs -> q_ringbuf q' = snd (ringbuf_reset (q_ringbuf q)) -> q_size q' = q_size q -> q_cur_num q' = 0 ->
  queue_repr q' [].
Proof.
  intros (Hsim & _ & _) Er Es Ec. split_and!; [|done|constructor]. rewrite Er, Es.
  destruct (rb_step_sim _ _ OpReset Hsim) as (r' & E & Hs). cbn in E. injection E as <-. exact Hs.
Qed.

(** ** The calls *)

Section queue.
Context `{CpuPort}.

Definition queue_exec (o : oid) (op : queue_op) : K (call_res * option Z) :=
  match op with
  | QueueSend false m => r ← krhino_queue_back_send (Some o) m; mret (Ret r, None)
  | QueueSend true m => r ← krhino_queue_all_send (Some o) m; mret (Ret r, None)
  | QueueRecv ticks => krhino_queue_recv (Some o) ticks (Some tt)
  | QueueIsFull => r ← krhino_queue_is_full (Some o); mret (Ret r, None)
  | QueueFlush => r ← krhino_queue_flush (Some o); mret (Ret r, None)
  | QueueDel => r ← krhino_queue_del (Some o); mret (Ret r, None)
  end.

Definition queue_pre (s : kstate) (op : queue_op) : Prop :=
  match op with
  | QueueSend _ m => fits 32 m
  | QueueRecv ticks => timeout_ok ticks /\ g_active_task s <> Some g_idle_task
  | _ => True
  end.

(** The status with which waiters leave, and the word they are handed. *)
Definition aq_let_go (op : queue_op) (s s' : kstate) (t : tid) : Prop :=
  match op with
  | QueueSend _ m => released BLK_FINISH s s' t /\ msg <$> tasks s' !! t = Some m
  | _ => released BLK_DEL s s' t
  end.

Definition queue_post (s : kstate) (o : oid) (op : queue_op) (res : aq_result) (r : call_res * option Z) (s' : kstate) : Prop :=
  Inv s' /\ irq_off s' = irq_off s /\ r = (qr_ret res, qr_out res) /\ queue_rel s' o (qr_queue res) /\
  Forall (aq_let_go op s s') (qr_released res).

Definition aq_run (s : kstate) (op : queue_op) (q : option aqueue) : aq_result :=
  aq_step (prio_of (tasks s)) (default 0%nat (g_active_task s)) (0 <? g_intrpt_nested_level s) (0 <? g_sched_lock s) op q.

Ltac queue_step := first [kstep
  | lazymatch goal with
    | |- wp (get_queue _) _ _ => eapply wp_get_queue; [klookup|]
    | |- wp (upd_queue _ _) _ _ => eapply wp_upd_queue; [klookup|]
    end].

(** What the invariant says of a queue. *)
Lemma queue_body s o b a q :
  Inv s -> blks s !! o = Some b -> obj_type b = RHINO_QUEUE_OBJ_TYPE -> queues s !! o = Some q -> queue_repr q (aq_msgs a) ->
  blk_policy b = BLK_POLICY_PRI /\ 0 < q_size q /\ (blk_list b <> [] -> aq_msgs a = []).
Proof.
  intros HI Hb Hty Hq Hr. destruct (i0_objs _ s (inv_0 s HI) o ltac:(done) b Hb) as (Hpol & _ & Hwait). rewrite Hty in *.
  split_and!; [done|..].
  - destruct Hr as (((Hok & _) & He & _) & _). pose proof (rbo_pos _ Hok). cbn in He. unfold PTR_SIZE in He. lia.
  - intros Hne. destruct (blk_list b) as [|t l] eqn:E; [done|].
    destruct (first_waiter s o b t l) as (k & Hk & Hik & _); [apply HI|done..|]. specialize (Hwait t k Hk Hik q Hq).
    destruct Hr as (_ & Hn & _). destruct (aq_msgs a); [done|]. cbn in Hn. lia.
Qed.

Lemma inv_queue s o b q' msgs :
  Inv s -> blks s !! o = Some b -> obj_type b = RHINO_QUEUE_OBJ_TYPE -> queue_repr q' msgs ->
  (blk_list b <> [] -> msgs = []) -> Inv (set_queues (<[o := q']> (queues s)) s).
Proof.
  intros HI Hb Hty Hr Hw. apply (inv_body s _ o b); try done; [by split; cbn; auto using lookup_insert_other|..]; rewrite Hty.
  - exists q', msgs. cbn. by rewrite lookup_insert_eq.
  - intros t k Hk Hin q0. cbn. rewrite lookup_insert_eq. intros [= <-]. destruct Hr as (_ & -> & _). rewrite Hw; [done|].
    by eapply waiter_listed; [apply HI|..].
Qed.

(** The state after the body of the queue was written. *)
Lemma queue_written s o b a q q' msgs op c :
  Inv s -> blks s !! o = Some b -> obj_type b = RHINO_QUEUE_OBJ_TYPE -> aq_wait a = blk_list b ->
  aq_size a = q_size q -> aq_static a = (q_mm_flag q =? K_OBJ_STATIC_ALLOC) ->
  queue_repr q' msgs -> (blk_list b <> [] -> msgs = []) -> q_size q' = q_size q -> q_mm_flag q' = q_mm_flag q ->
  forall r out, c = irq_off s ->
  queue_post s o op (aq_stay r out (Some (aq_set_msgs msgs a))) (Ret r, out)
    (set_irq_off c (set_queues (<[o := q']> (queues s)) (set_irq_off true s))).
Proof.
  intros HI Hb Hty Hwt Hs Hst Hr Hw Hs' Hf r out ->. split_and!; try done.
  - apply (inv_irq (irq_off s)), (inv_queue (set_irq_off true s) o b q' msgs); try done. by apply inv_irq.
  - exists b. split; [done|]. split_and!; try done. exists q'. cbn. rewrite lookup_insert_eq. split_and!; try done; congruence.
Qed.

(** Waking receivers with the word. *)
Definition handed_word (m : Z) (k : ktask_t) : ktask_t := woken BLK_FINISH (set_msg m k).

Lemma handed_word_go m : lets_go BLK_FINISH (handed_word m).
Proof. by intros k. Qed.

Lemma msg_recv_inv_wp x m t k o b (Q : unit -> kstate -> Prop) s :
  Inv0x x s -> tasks s !! t = Some k -> in_blk o k -> blks s !! o = Some b -> obj_type b <> RHINO_MUTEX_OBJ_TYPE ->
  (forall s', Inv0x x s' -> left_list (handed_word m) t o s s' -> Q tt s') -> wp (task_msg_recv t m) Q s.
Proof. by apply edit_wakeup_inv_wp. Qed.

Lemma queue_rel_wait s s' o b a l :
  queue_rel s o (Some a) -> blks s !! o = Some b -> lists_only s s' -> blks s' !! o = Some (set_blk_list l b) ->
  queue_rel s' o (Some (aq_set_wait l a)).
Proof.
  intros (b0 & Hb0 & Hty & _ & q & Hq & Hr) Hb Hf Hb'. assert (b0 = b) as -> by congruence.
  exists (set_blk_list l b). split; [done|]. split_and!; try done. exists q. by rewrite Hf.
Qed.

Lemma queue_wake_wp (all : bool) m o b a t l s :
  Inv0 s -> queue_rel s o (Some a) -> blks s !! o = Some b -> blk_list b = t :: l ->
  wp (if all then blk_wake_all o (fun t => task_msg_recv t m) else task_msg_recv t m)
    (fun _ s1 => Inv0 s1 /\ queue_rel s1 o (Some (aq_set_wait (if all then [] else l) a)) /\
       Forall (aq_let_go (QueueSend all m) s s1) (if all then t :: l else [t])) s.
Proof.
  intros H0 Hq Hb El. pose proof Hq as (b0 & Hb0 & Hty & _). assert (b0 = b) as -> by congruence.
  destruct all.
  - eapply (blk_wake_all_wp None o (handed_word m)); [intros; by eapply (msg_recv_inv_wp None)|exact H0|done|congruence|].
    intros s1 H1 Hall. pose proof Hall as (Et & Eb & Ef). split_and!; [done|..].
    + eapply queue_rel_wait; [done..|]. rewrite Eb. apply lookup_insert_eq.
    + rewrite <- El. apply Forall_forall. intros u Hu. split; [by eapply all_left_go; [apply handed_word_go|apply H0|..]|].
      rewrite Et, decide_True by done. pose proof Hu as (k & -> & _)%(proj2 (proj1 (wf_blks s (ci_wf s (i0_ci _ s H0)) o b Hb))). done.
  - destruct (first_waiter s o b t l) as (k & Hk & Hin & Htl); [apply H0|done..|].
    eapply (msg_recv_inv_wp None); [exact H0|done..|congruence|]. intros s1 H1 Hleft. pose proof Hleft as (_ & _ & Ef).
    split_and!; [done|eapply queue_rel_wait; [done..|]; by eapply left_first|].
    apply Forall_singleton. destruct (left_go BLK_FINISH (handed_word m) o s s1 t k) as [? E]; [apply handed_word_go|done..|].
    split; [done|]. by rewrite E.
Qed.

Lemma queue_send_spec o all m aq s :
  Inv s -> queue_rel s o aq -> fits 32 m ->
  wp (msg_send (Some o) m all) (fun r => queue_post s o (QueueSend all m) (aq_run s (QueueSend all m) aq) (Ret r, None)) s.
Proof.
  intros HI Hrel Hm. pose proof Hrel as (b & Hb & Hq). unfold msg_send, aq_run, aq_step. cbn [NULL_PARA_CHK aq_in_intrpt negb].
  rewrite andb_false_r. kstep. apply wp_critical_enter. do 2 kstep. destruct aq as [a|].
  2: { rewrite bool_decide_false by done. apply wp_critical_return. by split_and!. }
  destruct Hq as (Hty & Hwt & q & Hq & Hr & Hs & Hst). rewrite bool_decide_true by done. cbn [negb].
  destruct (queue_body s o b a q) as (_ & _ & Hempty); [done..|]. unfold aq_send, aq_full. rewrite Hs, Hwt.
  assert (Z.of_nat (length (aq_msgs a)) = q_cur_num q) as -> by (symmetry; apply Hr). do 2 queue_step.
  destruct (Z.leb_spec (q_size q) (q_cur_num q)).
  { apply wp_critical_return. rewrite irq_restore. by split_and!. }
  destruct (blk_list b) as [|t l] eqn:El.
  - destruct (queue_push q (aq_msgs a) m) as (rb & Ep & Hr'); [done|destruct Hr as (_ & <- & _); lia|done|].
    do 4 queue_step. cbn [q_peak_num q_cur_num set_q_cur_num q_ringbuf]. kstep.
    assert (forall pk, wp ('(_, rb) ← deref (ringbuf_push (q_ringbuf q) (u32_bytes m) PTR_SIZE); upd_queue o (set_q_ringbuf rb);;
      critical_return (irq_off s) RHINO_SUCCESS) (fun r => queue_post s o (QueueSend all m)
        (aq_stay RHINO_SUCCESS None (Some (aq_set_msgs (aq_msgs a ++ [m]) a))) (Ret r, None))
      (set_queues (<[o := set_q_peak_num pk (set_q_cur_num (q_cur_num q + 1) q)]> (queues s)) (set_irq_off true s))) as Hput.
    { intros pk. kstep. eapply wp_deref; [exact Ep|]. cbv beta iota. kstep. eapply wp_upd_queue; [apply lookup_insert_eq|].
      apply wp_critical_return. cbn [queues set_queues]. rewrite insert_insert_eq.
      apply (queue_written s o b a q); try done; [congruence|by apply Hr']. }
    destruct (q_peak_num q <? q_cur_num q + 1).
    + eapply wp_upd_queue; [apply lookup_insert_eq|]. cbn [queues set_queues]. rewrite insert_insert_eq. apply Hput.
    + kstep. apply (Hput (q_peak_num q)).
  - kstep. eapply wp_mono; [by eapply (queue_wake_wp all m o b a t l (set_irq_off true s)); [apply inv0_irq, HI|..]|].
    intros _ s1 (H1 & Hq1 & Hgo). apply exit_sched_inv; [done|]. intros s' Hre HI'.
    split_and!; [done|by eapply irq_resched|done|by eapply queue_rel_resched|].
    eapply Forall_impl; [exact Hgo|]. intros u [Hu Hmsg]. split; [by eapply released_resched|].
    apply resched_eq in Hre as (ts & ? & ? & -> & Hts). destruct (Hts u) as [sp E]. cbn in E |- *. rewrite E. by destruct (tasks s1 !! u).
Qed.

Lemma queue_recv_spec o ticks aq s :
  Inv s -> queue_rel s o aq -> timeout_ok ticks -> g_active_task s <> Some g_idle_task ->
  wp (krhino_queue_recv (Some o) ticks (Some tt)) (queue_post s o (QueueRecv ticks) (aq_run s (QueueRecv ticks) aq)) s.
Proof.
  intros HI Hrel Hto Hidle. pose proof Hrel as (b & Hb & Hq). unfold krhino_queue_recv, aq_run, aq_step.
  cbn [NULL_PARA_CHK aq_in_intrpt negb]. kstep. apply wp_critical_enter. do 2 kstep. cbn [g_intrpt_nested_level set_irq_off].
  destruct ((0 <? g_intrpt_nested_level s) && negb (ticks =? RHINO_NO_WAIT)) eqn:Ei.
  { apply wp_critical_return. rewrite irq_restore. by split_and!. }
  do 2 kstep. destruct aq as [a|].
  2: { rewrite bool_decide_false by done. apply wp_critical_return. by split_and!. }
  destruct Hq as (Hty & Hwt & q & Hq & Hr & Hs & Hst). rewrite bool_decide_true by done. cbn [negb].
  destruct (queue_body s o b a q) as (Hpol & _ & Hempty); [done..|]. unfold aq_recv. do 2 queue_step.
  assert (q_cur_num q = Z.of_nat (length (aq_msgs a))) as En by apply Hr. rewrite En.
  destruct (aq_msgs a) as [|m l] eqn:Em; cbn [length].
  - rewrite Z.ltb_irrefl. destruct (Z.eqb_spec ticks RHINO_NO_WAIT) as [Ew|Ew].
    { apply wp_critical_return. rewrite irq_restore. by split_and!. }
    do 2 kstep. cbn [g_sched_lock set_irq_off]. destruct (Z.ltb_spec 0 (g_sched_lock s)) as [Hl|Hl].
    { apply wp_critical_return. rewrite irq_restore. by split_and!. }
    rewrite andb_true_r in Ei. apply Z.ltb_ge in Ei.
    eapply (block_call_wp (Blocked, None)); try done; [by apply inv_irq|congruence| |].
    { intros a0 k0 _ _. rewrite Hty. intros q0 Hq0. cbn in Hq0. assert (q0 = q) as -> by congruence. done. }
    intros a0 k s1 s' Ha Hk Ef Et Eb Hre HI'. cbn in Ha. rewrite Ha.
    split_and!; [done|by eapply irq_resched|done| |constructor]. eapply queue_rel_resched; [exact Hre|].
    eapply (queue_rel_wait (set_irq_off true s)); [done|done|exact Ef|]. rewrite Eb, Hwt. apply lookup_insert_eq.
  - destruct (queue_pop q m l Hr) as (rb & Ep & Hm & Hr'). rewrite (proj2 (Z.ltb_lt 0 _)) by lia.
    kstep. eapply wp_deref; [exact Ep|]. cbv beta iota. do 4 queue_step. apply wp_critical_return.
    cbn [queues set_queues fmap option_fmap option_map fst]. rewrite insert_insert_eq, u32_roundtrip by done.
    apply (queue_written s o b a q); try done.
    + apply Hr'; try done. cbn [q_cur_num set_q_cur_num set_q_ringbuf]. cbn in En. lia.
    + intros Hne. specialize (Hempty Hne). congruence.
Qed.

Lemma queue_is_full_spec o aq s :
  Inv s -> queue_rel s o aq ->
  wp (krhino_queue_is_full (Some o)) (fun r => queue_post s o QueueIsFull (aq_run s QueueIsFull aq) (Ret r, None)) s.
Proof.
  intros HI Hrel. pose proof Hrel as (b & Hb & Hq). unfold krhino_queue_is_full, aq_run, aq_step. cbn [NULL_PARA_CHK aq_in_intrpt negb].
  rewrite andb_false_r. kstep. apply wp_critical_enter. do 2 kstep. destruct aq as [a|].
  2: { rewrite bool_decide_false by done. apply wp_critical_return. by split_and!. }
  destruct Hq as (Hty & Hwt & q & Hq & Hr & Hs & Hst). rewrite bool_decide_true by done. cbn [negb]. do 2 queue_step.
  apply wp_critical_return. rewrite irq_restore. unfold aq_full. destruct Hr as (_ & <- & _). rewrite Hs. by split_and!.
Qed.

Lemma queue_flush_spec o aq s :
  Inv s -> queue_rel s o aq ->
  wp (krhino_queue_flush (Some o)) (fun r => queue_post s o QueueFlush (aq_run s QueueFlush aq) (Ret r, None)) s.
Proof.
  intros HI Hrel. pose proof Hrel as (b & Hb & Hq). unfold krhino_queue_flush, aq_run, aq_step. cbn [NULL_PARA_CHK aq_in_intrpt negb].
  rewrite andb_true_r. apply (obj_call_wp id o b); [done|..].
  - intros Hn. rewrite (proj2 (Z.ltb_lt _ _) Hn). by split_and!.
  - intros Hn Hty. rewrite (proj2 (Z.ltb_ge _ _) Hn). destruct aq as [a|]; [by destruct Hq|]. by split_and!.
  - intros Hn Hty. rewrite (proj2 (Z.ltb_ge _ _) Hn). destruct aq as [a|]; [|done].
    destruct Hq as (_ & Hwt & q & Hq & Hr & Hs & Hst). do 4 queue_step. apply wp_critical_return.
    cbn [queues set_queues]. rewrite insert_insert_eq. apply (queue_written s o b a q); try done. by eapply queue_reset.
Qed.

Lemma queue_del_spec o aq s :
  Inv s -> queue_rel s o aq ->
  wp (krhino_queue_del (Some o)) (fun r => queue_post s o QueueDel (aq_run s QueueDel aq) (Ret r, None)) s.
Proof.
  intros HI Hrel. pose proof Hrel as (b & Hb & Hq). unfold krhino_queue_del, aq_run, aq_step. cbn [NULL_PARA_CHK aq_in_intrpt negb].
  rewrite andb_true_r. apply (obj_call_wp id o b); [done|..].
  - intros Hn. rewrite (proj2 (Z.ltb_lt _ _) Hn). by split_and!.
  - intros Hn Hty. rewrite (proj2 (Z.ltb_ge _ _) Hn). destruct aq as [a|]; [by destruct Hq|]. by split_and!.
  - intros Hn Hty. rewrite (proj2 (Z.ltb_ge _ _) Hn). destruct aq as [a|]; [|done].
    destruct Hq as (_ & Hwt & q & Hq & Hr & Hs & Hst). destruct (queue_body s o b a q) as (Hpol & _ & _); [done..|].
    unfold aq_del. rewrite Hst. do 2 queue_step. destruct (q_mm_flag q =? K_OBJ_STATIC_ALLOC) eqn:Efl; cbn [negb].
    2: { apply wp_critical_return. rewrite irq_restore. by split_and!. }
    apply (del_drain_wp o b); [apply inv0_irq, HI|done|congruence|done|]. intros s1 H1 Ef Eb Hgo.
    assert (queues s1 !! o = Some q) as Hq1 by (by rewrite Ef). kstep. eapply wp_upd_queue; [exact Hq1|].
    apply exit_sched_inv.
    { eapply (inv0_dead s1 _ o); [done|done|by split; cbn; auto using lookup_insert_other|rewrite Eb; apply lookup_insert_eq|done]. }
    intros s' Hre HI'. split_and!; [done|by eapply irq_resched|done| |].
    + eapply queue_rel_resched; [exact Hre|]. eexists. split; [cbn; rewrite Eb; apply lookup_insert_eq|done].
    + cbn [qr_released]. rewrite Hwt. eapply Forall_impl; [exact Hgo|]. intros u Hu. cbn.
      eapply (released_resched _ s); [|exact Hre]. exact Hu.
Qed.

(** Every object has an abstraction, a queue or not. *)
Lemma queue_rel_exists s o : Inv s -> is_Some (blks s !! o) -> exists aq, queue_rel s o aq.
Proof.
  intros HI [b Hb]. destruct (decide (obj_type b = RHINO_QUEUE_OBJ_TYPE)) as [E|E]; [|by exists None, b].
  destruct (i0_objs _ s (inv_0 s HI) o ltac:(done) b Hb) as (_ & Hbody & _). rewrite E in Hbody.
  destruct Hbody as (q & msgs & Hq & Hr). exists (Some (mk_aqueue msgs (q_size q) (blk_list b) (q_mm_flag q =? K_OBJ_STATIC_ALLOC))), b.
  split; [done|]. split_and!; try done. by exists q.
Qed.

(** Every queue call. *)
Lemma queue_call_spec o op s :
  Inv s -> is_Some (blks s !! o) -> queue_pre s op ->
  (exists aq, queue_rel s o aq) /\
  forall aq, queue_rel s o aq -> wp (queue_exec o op) (queue_post s o op (aq_run s op aq)) s.
Proof.
  intros HI Hb Hpre. split; [by apply queue_rel_exists|]. intros aq Hq.
  destruct op as [[] m|ticks| | |]; cbn [queue_exec]; cbn in Hpre.
  - kstep. eapply wp_mono; [by apply (queue_send_spec o true m aq)|done].
  - kstep. eapply wp_mono; [by apply (queue_send_spec o false m aq)|done].
  - destruct Hpre. by apply (queue_recv_spec o ticks aq).
  - kstep. eapply wp_mono; [by apply (queue_is_full_spec o aq)|done].
  - kstep. eapply wp_mono; [by apply (queue_flush_spec o aq)|done].
  - kstep. eapply wp_mono; [by apply (queue_del_spec o aq)|done].
Qed.

(** C10: a kernel message queue refines a bounded queue of words with
    waiting receivers: from any state satisfying the kernel invariant there is
    such a queue, and sending (to one or all receivers), receiving, asking,
    flushing and deleting return the abstract status and word, leave the abstract
    queue, let go exactly the abstract tasks (handed the word that was sent),
    restore the interrupt mask and keep the invariant. *)
Theorem queue_refines_word_queue o op s :
  Inv s -> is_Some (blks s !! o) -> queue_pre s op ->
  (exists aq, queue_rel s o aq) /\
  forall aq, queue_rel s o aq -> wp (queue_exec o op) (queue_post s o op (aq_run s op aq)) s.
Proof. apply queue_call_spec. Qed.

End queue.

Lemma queue_refines_word_queue_witness :
  let d := demo_with (NewQueue (0, replicate 8 0) 2) in
  let aq := Some (mk_aqueue [] 2 [] true) in
  Inv d /\ queue_rel d 1%nat aq /\
  aq_run d (QueueSend false 7) aq = aq_stay RHINO_SUCCESS None (Some (mk_aqueue [7] 2 [] true)) /\
  wp (queue_exec 1%nat (QueueSend false 7)) (queue_post d 1%nat (QueueSend false 7) (aq_run d (QueueSend false 7) aq)) d.
Proof.
  intros d aq. destruct (demo_with_inv (NewQueue (0, replicate 8 0) 2)) as [HI (q & Hq & Hs & Hr)]; [by vm_compute|].
  assert (queue_rel d 1%nat aq) as Hrel.
  { eexists. split; [by vm_compute|]. split_and!; [done..|]. exists q. split_and!; [exact Hq|exact Hr|by rewrite Hs|].
    pose proof (f_equal (fmap q_mm_flag) Hq) as E. vm_compute in E. injection E as E.
    symmetry. apply Z.eqb_eq. symmetry. exact E. }
  split_and!; [exact HI|exact Hrel|by vm_compute|].
  apply (queue_refines_word_queue 1%nat (QueueSend false 7) d); [exact HI|by eexists; vm_compute|by split|exact Hrel].
Defined.
