(* ===== verification/EventSpec.v ===== *)
(** * Event flags keep the invariant and refine a flag word with waiting tasks *)

From S2P Require Import Prelude KErr RingBuf KState KMonad Sched Pend KInv Mutex PriInv Sem Event Queue BufQueue Inv Moves Create Task KSys Boot.
Local Open Scope Z_scope.

(** ** The abstract event: flags, waiting tasks, and what each of them wants *)

Record aevent := mk_aevent {
  ae_flags : Z;
  ae_wait : list tid;
  ae_want : tid -> Z * Z;
  ae_static : bool
}.

Inductive event_op :=
  | EventGet (flags opt ticks : Z)
  | EventSet (flags opt : Z)
  | EventDel.

(** The status, the flags stored for the caller, the tasks let go, the flags
    they are told, and the event afterwards. *)
Record ae_result := mk_ae_result {
  er_ret : call_res;
  er_out : option Z;
  er_released : list tid;
  er_told : Z;
  er_event : option aevent
}.

Definition ae_stay (r : kstat_t) (out : option Z) (q : option aevent) : ae_result := mk_ae_result (Ret r) out [] 0 q.

Definition ae_set_flags (f : Z) (q : aevent) : aevent := mk_aevent f (ae_wait q) (ae_want q) (ae_static q).

(** Task [t] wants what is set. *)
Definition ae_met (want : tid -> Z * Z) (cur : Z) (t : tid) : bool := flags_met (fst (want t)) cur (snd (want t)).

(** What a satisfied request with option [opt] for [flags] leaves of [f]. *)
Definition ae_clear (opt flags f : Z) : Z :=
  if negb (Z.land opt RHINO_FLAGS_CLEAR_MASK =? 0) then Z.land f (u32 (Z.lnot flags)) else f.

Definition ae_valid (opt : Z) : bool :=
  (opt =? RHINO_AND) || (opt =? RHINO_OR) || (opt =? RHINO_AND_CLEAR) || (opt =? RHINO_OR_CLEAR).

Definition ae_get (p : tid -> Z) (a : tid) (flags opt ticks : Z) (locked : bool) (q : aevent) : ae_result :=
  if flags_met opt (ae_flags q) flags
  then ae_stay RHINO_SUCCESS (Some (ae_flags q)) (Some (ae_set_flags (ae_clear opt flags (ae_flags q)) q))
  else if ticks =? RHINO_NO_WAIT then ae_stay RHINO_NO_PEND_WAIT None (Some q)
  else if locked then ae_stay RHINO_SCHED_DISABLE None (Some q)
  else mk_ae_result Blocked None [] 0 (Some (mk_aevent (ae_flags q) (pri_enqueue p a (ae_wait q))
         (fun t => if decide (t = a) then (opt, flags) else ae_want q t) (ae_static q))).

(** Setting flags lets go every waiter that wants what is set then; those that
    asked for it clear their flags, in the order of the wait list. *)
Definition ae_set (flags opt : Z) (q : aevent) : ae_result :=
  if opt =? RHINO_AND then ae_stay RHINO_SUCCESS None (Some (ae_set_flags (Z.land (ae_flags q) flags) q))
  else
    let cur := Z.lor (ae_flags q) flags in
    let go := filter (fun t => ae_met (ae_want q) cur t = true) (ae_wait q) in
    mk_ae_result (Ret RHINO_SUCCESS) None go cur
      (Some (mk_aevent (foldl (fun f t => ae_clear (fst (ae_want q t)) (snd (ae_want q t)) f) cur go)
               (filter (fun t => ae_met (ae_want q) cur t <> true) (ae_wait q)) (ae_want q) (ae_static q))).

Definition ae_del (q : aevent) : ae_result :=
  if ae_static q then mk_ae_result (Ret RHINO_SUCCESS) None (ae_wait q) 0 None
  else ae_stay RHINO_KOBJ_DEL_ERR None (Some q).

(** Only setting is allowed in interrupt handlers. *)
Definition ae_step (p : tid -> Z) (a : tid) (intrpt locked : bool) (op : event_op) (q : option aevent) : ae_result :=
  if (match op with
      | EventGet _ opt _ => negb (ae_valid opt)
      | EventSet _ opt => negb (opt =? RHINO_AND) && negb (opt =? RHINO_OR)
      | EventDel => false end) then ae_stay RHINO_NO_THIS_EVENT_OPT None q
  else if intrpt && (match op with EventSet _ _ => false | _ => true end) then ae_stay RHINO_NOT_CALLED_BY_INTRPT None q
  else match q with
       | None => ae_stay RHINO_KOBJ_TYPE_ERR None None
       | Some q =>
           match op with
           | EventGet flags opt ticks => ae_get p a flags opt ticks locked q
           | EventSet flags opt => ae_set flags opt q
           | EventDel => ae_del q
           end
       end.

(** ** Flags *)

Lemma fits_land w x y : fits w x -> fits w (Z.land x y).
Proof.
  intros [H1 H2]. destruct (decide (x = 0)) as [->|Hne]; [by rewrite Z.land_0_l|].
  assert (0 <= w) by (destruct (Z_lt_ge_dec w 0); [rewrite Z.pow_neg_r in H2 by done; lia|lia]).
  assert (0 <= Z.land x y) by (apply Z.land_nonneg; by left). split; [done|].
  destruct (decide (Z.land x y = 0)) as [->|Hn0]; [by apply Z.pow_pos_nonneg|].
  apply Z.log2_lt_pow2; [lia|]. destruct (Z_le_gt_dec 0 y) as [Hy|Hy].
  - pose proof (Z.log2_land x y H1 Hy). apply Z.log2_lt_pow2 in H2; lia.
  - apply Z.log2_lt_pow2 in H2; [|lia]. apply Z.nle_gt. intros Hle.
    assert (Z.testbit (Z.land x y) (Z.log2 (Z.land x y)) = true) as Hb by (apply Z.bit_log2; lia).
    rewrite Z.land_spec, Z.bits_above_log2 in Hb; [done|lia..].
Qed.

Lemma fits_lor w x y : 0 < w -> fits w x -> fits w y -> fits w (Z.lor x y).
Proof.
  intros Hw [? Hx] [? Hy]. assert (0 <= Z.lor x y) by (by apply Z.lor_nonneg). split; [done|].
  destruct (decide (Z.lor x y = 0)) as [->|]; [apply Z.pow_pos_nonneg; lia|]. apply Z.log2_lt_pow2; [lia|].
  rewrite Z.log2_lor by done. apply Z.max_lub_lt.
  - destruct (decide (x = 0)) as [->|]; [done|]. apply Z.log2_lt_pow2; lia.
  - destruct (decide (y = 0)) as [->|]; [done|]. apply Z.log2_lt_pow2; lia.
Qed.

(** Clearing bits satisfies nobody. *)
Lemma flags_met_land opt cur m flags :
  0 <= cur -> flags_met opt cur flags = false -> flags_met opt (Z.land cur m) flags = false.
Proof.
  intros Hc. unfold flags_met. destruct (negb _).
  - intros Hn%Z.eqb_neq. apply Z.eqb_neq. intros E. apply Hn.
    assert (Z.land cur flags = Z.land cur (Z.land (Z.land cur m) flags)) as -> by (by rewrite E).
    rewrite !Z.land_assoc, Z.land_diag. by rewrite E.
  - intros Hn%Z.ltb_ge. apply Z.ltb_ge. assert (Z.land cur flags = 0) as E.
    { assert (0 <= Z.land cur flags) by (apply Z.land_nonneg; by left). lia. }
    rewrite <- Z.land_assoc, (Z.land_comm m), Z.land_assoc, E. by rewrite Z.land_0_l.
Qed.

Lemma ae_clear_land opt flags f : exists m, ae_clear opt flags f = Z.land f m.
Proof. unfold ae_clear. destruct (negb _); [by eexists|]. exists (-1). by rewrite Z.land_m1_r. Qed.

Lemma ae_clear_fits opt flags f : fits 32 f -> fits 32 (ae_clear opt flags f).
Proof. intros Hf. destruct (ae_clear_land opt flags f) as [m ->]. by apply fits_land. Qed.

Lemma ae_clear_unmet opt flags f opt' flags' :
  fits 32 f -> flags_met opt' f flags' = false -> flags_met opt' (ae_clear opt flags f) flags' = false.
Proof. intros [Hf _]. destruct (ae_clear_land opt flags f) as [m ->]. by apply flags_met_land. Qed.

(** ** The refinement relation *)

Definition wanted (s : kstate) (t : tid) : Z * Z :=
  match tasks s !! t with Some k => (pend_option k, pend_flags k) | None => (0, 0) end.

Definition event_rel (s : kstate) (o : oid) (aq : option aevent) : Prop :=
  exists b, blks s !! o = Some b /\
    match aq with
    | None => obj_type b <> RHINO_EVENT_OBJ_TYPE
    | Some q => obj_type b = RHINO_EVENT_OBJ_TYPE /\ ae_wait q = blk_list b /\ (forall t, t ∈ ae_wait q -> wanted s t = ae_want q t) /\
        exists e, events s !! o = Some e /\ ae_flags q = ev_flags e /\ ae_static q = (ev_mm_flag e =? K_OBJ_STATIC_ALLOC)
    end.

Lemma wanted_resched s s' c t : resched (set_irq_off c s) s' -> wanted s' t = wanted s t.
Proof.
  intros (ts & a & p & -> & Hts)%resched_eq. unfold wanted. cbn. destruct (Hts t) as [sp ->]. cbn.
  by destruct (tasks s !! t).
Qed.

Lemma event_rel_resched s s' o aq c : resched (set_irq_off c s) s' -> event_rel s o aq -> event_rel s' o aq.
Proof.
  intros Hre (b & Hb & Hq). pose proof Hre as (ts & a & p & E & _)%resched_eq. exists b. split; [by rewrite E|].
  destruct aq as [q|]; [|done]. destruct Hq as (? & ? & Hw & e & ? & ?). split_and!; [done..| |exists e; by rewrite E].
  intros t Ht. rewrite (wanted_resched _ _ _ _ Hre). by apply Hw.
Qed.

(** ** The loop of [event_set] *)

Lemma next_in_app t pre post : t ∉ pre -> next_in t (pre ++ t :: post) = Some (head post).
Proof.
  induction pre as [|x pre IH]; cbn; [by rewrite decide_True|]. intros Hn. rewrite decide_False by set_solver. apply IH. set_solver.
Qed.

Section event.
Context `{CpuPort}.

Ltac event_step := first [kstep
  | lazymatch goal with
    | |- wp (get_event _) _ _ => eapply wp_get_event; [klookup|]
    | |- wp (upd_event _ _) _ _ => eapply wp_upd_event; [klookup|]
    end].

(** Writing words or the flags of an event under change. *)
Lemma inv0_event o s e' ws :
  Inv0x (Some o) s -> Inv0x (Some o) (set_events (<[o := e']> (events s)) (set_words ws s)).
Proof.
  apply (inv0_core (Some o) s); [done|]. intros o' Hne. apply (obj_ok_body s); [done|..].
  - intros ty. destruct ty; cbn; try done. by rewrite lookup_insert_ne by congruence.
  - intros ty k. destruct ty; cbn; try done. by rewrite lookup_insert_ne by congruence.
Qed.

(** The waiters in [go] were let go and told [cur]. *)
Record event_woken (o : oid) (b : blk_obj_t) (cur : Z) (go rest : list tid) (s s' : kstate) : Prop := {
  ew_tasks u : tasks s' !! u = if decide (u ∈ go) then woken BLK_FINISH <$> tasks s !! u else tasks s !! u;
  ew_blks : blks s' !! o = Some (set_blk_list rest b);
  ew_words t k : t ∈ go -> tasks s !! t = Some k -> words s' !! pend_info k = Some cur;
  ew_kept addr : words s !! addr = Some cur -> words s' !! addr = Some cur
}.

Section loop.
Context (o : oid) (cur : Z) (want : tid -> Z * Z).

Definition cleared (f : Z) (go : list tid) : Z := foldl (fun f t => ae_clear (fst (want t)) (snd (want t)) f) f go.

Lemma event_wake_wp t k e b (Q : unit -> kstate -> Prop) s :
  Inv0x (Some o) s -> tasks s !! t = Some k -> in_blk o k -> blks s !! o = Some b -> obj_type b = RHINO_EVENT_OBJ_TYPE ->
  events s !! o = Some e -> (pend_option k, pend_flags k) = want t ->
  (forall s', Inv0x (Some o) s' -> tasks s' = alter (woken BLK_FINISH) t (tasks s) -> blks s' = blk_without t o (blks s) ->
     events s' !! o = Some (set_ev_flags (ae_clear (fst (want t)) (snd (want t)) (ev_flags e)) e) ->
     words s' = <[pend_info k := cur]> (words s) -> Q tt s') ->
  wp (store_word (pend_info k) cur;; pend_task_wakeup t;; k ← get_task t;
      if negb (Z.land (pend_option k) RHINO_FLAGS_CLEAR_MASK =? 0)
      then upd_event o (fun e => set_ev_flags (Z.land (ev_flags e) (u32 (Z.lnot (pend_flags k)))) e) else mret tt) Q s.
Proof.
  intros H0 Hk Hin Hb Hty He Hw HQ. unfold store_word. do 3 kstep. set (s0 := set_words _ s).
  assert (Inv0x (Some o) s0) as H0'.
  { apply (inv0_core (Some o) s); [done| |done]. intros o' _. by apply obj_ok_same. }
  eapply (wakeup_inv_wp (Some o) t k o b); [exact H0'|exact Hk|done|done|congruence|]. intros s1 H1 (Et & Eb & Ef).
  assert (tasks s1 !! t = Some (woken BLK_FINISH k)) as Hk1 by (rewrite Et, lookup_alter_eq; cbn; by rewrite Hk).
  assert (events s1 !! o = Some e) as He1 by (by rewrite Ef).
  kstep. eapply wp_get_task; [exact Hk1|]. unfold ae_clear in HQ. rewrite <- Hw in HQ. cbn [fst snd] in HQ.
  cbn [pend_option pend_flags woken set_blk_obj set_blk_state set_tick_head set_task_state].
  destruct (negb (Z.land (pend_option k) RHINO_FLAGS_CLEAR_MASK =? 0)).
  - eapply wp_upd_event; [exact He1|]. apply HQ; [by apply (inv0_event o s1 _ (words s1))|done|done|apply lookup_insert_eq|by rewrite Ef].
  - kstep. apply HQ; [done|done|done|done|by rewrite Ef].
Qed.

Lemma list_rm_mid t pre post : t ∉ pre -> t ∉ post -> list_rm t (pre ++ t :: post) = pre ++ post.
Proof.
  intros H1 H2. unfold list_rm. rewrite filter_app. fold (list_rm t pre). fold (list_rm t (t :: post)).
  by rewrite list_rm_notin, list_rm_cons_eq.
Qed.

Lemma event_woken_cons t k b go rest s s1 s2 :
  t ∉ go -> tasks s !! t = Some k -> tasks s1 = alter (woken BLK_FINISH) t (tasks s) ->
  words s1 = <[pend_info k := cur]> (words s) -> forall l, event_woken o (set_blk_list l b) cur go rest s1 s2 ->
  event_woken o b cur (t :: go) rest s s2.
Proof.
  intros Hn Hk Et Ew l [Ht Hb Hw Hkp]. split; [|done|..].
  - intros u. rewrite Ht, Et. destruct (decide (u = t)) as [->|Hne].
    + rewrite decide_False, decide_True by set_solver. by rewrite lookup_alter_eq, Hk.
    + rewrite lookup_alter_ne by done. destruct (decide (u ∈ go)); [rewrite decide_True|rewrite decide_False]; set_solver.
  - intros u ku Hu Hku. destruct (decide (u = t)) as [->|Hne].
    + assert (ku = k) as -> by congruence. apply Hkp. rewrite Ew. apply lookup_insert_eq.
    + apply (Hw u); [set_solver|]. by rewrite Et, lookup_alter_ne.
  - intros addr Ha. apply Hkp. rewrite Ew. destruct (decide (pend_info k = addr)) as [->|]; [apply lookup_insert_eq|].
    by rewrite lookup_insert_ne.
Qed.

Lemma event_loop_wp post : forall fuel pre e b (Q : unit -> kstate -> Prop) s,
  (length post <= fuel)%nat -> Inv0x (Some o) s -> blks s !! o = Some b -> obj_type b = RHINO_EVENT_OBJ_TYPE ->
  blk_list b = pre ++ post -> events s !! o = Some e -> (forall t, t ∈ post -> wanted s t = want t) ->
  (forall s' e', Inv0x (Some o) s' ->
     event_woken o b cur (filter (fun t => ae_met want cur t = true) post)
       (pre ++ filter (fun t => ae_met want cur t <> true) post) s s' ->
     events s' !! o = Some e' -> ev_flags e' = cleared (ev_flags e) (filter (fun t => ae_met want cur t = true) post) ->
     ev_mm_flag e' = ev_mm_flag e -> Q tt s') ->
  wp (event_set_loop fuel o cur (head post)) Q s.
Proof.
  induction post as [|t post IH]; intros fuel pre e b Q s Hf H0 Hb Hty El He Hw HQ.
  { assert (event_set_loop fuel o cur (head []) = mret tt) as -> by (by destruct fuel). kstep. apply (HQ s e); try done.
    split; [done| |set_solver|done]. rewrite app_nil_r in El |- *. by rewrite <- El. }
  destruct fuel as [|fuel]; [cbn in Hf; lia|]. cbn [event_set_loop head].
  pose proof (proj1 (wf_blks s (ci_wf s (i0_ci _ s H0)) o b Hb)) as [Hnd Hel].
  rewrite El in Hnd. apply NoDup_app in Hnd as (_ & Hdis & [Htp Hnd]%NoDup_cons).
  assert (t ∉ pre) as Htpre by (intros Hx; apply (Hdis t Hx); set_solver).
  destruct (proj1 (Hel t)) as (k & Hk & Hin); [rewrite El; set_solver|].
  assert ((pend_option k, pend_flags k) = want t) as Hwt.
  { rewrite <- (Hw t) by set_solver. unfold wanted. by rewrite Hk. }
  do 3 kstep. eapply wp_deref; [rewrite El; by apply next_in_app|]. do 3 kstep.
  assert (flags_met (pend_option k) cur (pend_flags k) = ae_met want cur t) as -> by (unfold ae_met; by rewrite <- Hwt).
  rewrite !filter_cons in HQ. destruct (ae_met want cur t) eqn:Em.
  - rewrite decide_True, decide_False in HQ by (try done; by intros []). eapply (event_wake_wp t k e b); try done.
    intros s1 H1 Et Eb He1 Ew. eapply (IH fuel pre _ (set_blk_list (pre ++ post) b)); [cbn in Hf; lia|done| |done|done|exact He1| |].
    + rewrite Eb. unfold blk_without. rewrite lookup_alter_eq, Hb. cbn. by rewrite El, list_rm_mid.
    + intros u Hu. rewrite <- (Hw u) by set_solver. unfold wanted. rewrite Et, lookup_alter_ne by (by intros ->). done.
    + intros s2 e2 H2 Hwk He2 Hfl Hmm. apply (HQ s2 e2); try done.
      eapply event_woken_cons; [|done..|exact Hwk]. intros [_ ?]%list_elem_of_filter. done.
  - kstep. rewrite decide_False, decide_True in HQ by done.
    eapply (IH fuel (pre ++ [t]) e b); [cbn in Hf; lia|done..|by rewrite El, <- app_assoc|done|set_solver|].
    intros s2 e2 H2 Hwk He2 Hfl Hmm. apply (HQ s2 e2); try done. by rewrite <- app_assoc in Hwk.
Qed.

End loop.

(** ** The calls *)

Definition event_exec (o : oid) (addr : Z) (op : event_op) : K call_res :=
  match op with
  | EventGet flags opt ticks => krhino_event_get (Some o) flags opt (Some addr) ticks
  | EventSet flags opt => r ← krhino_event_set (Some o) flags opt; mret (Ret r)
  | EventDel => r ← krhino_event_del (Some o); mret (Ret r)
  end.

Definition event_pre (s : kstate) (op : event_op) : Prop :=
  match op with
  | EventGet _ _ ticks => timeout_ok ticks /\ g_active_task s <> Some g_idle_task
  | EventSet flags _ => fits 32 flags
  | EventDel => True
  end.

(** The status with which waiters leave, and the flags they are told. *)
Definition ae_let_go (op : event_op) (told : Z) (s s' : kstate) (t : tid) : Prop :=
  match op with
  | EventSet _ _ => released BLK_FINISH s s' t /\ forall k, tasks s !! t = Some k -> words s' !! pend_info k = Some told
  | _ => released BLK_DEL s s' t
  end.

Definition event_post (s : kstate) (o : oid) (addr : Z) (op : event_op) (res : ae_result) (r : call_res) (s' : kstate) : Prop :=
  Inv s' /\ irq_off s' = irq_off s /\ r = er_ret res /\ event_rel s' o (er_event res) /\
  (forall f, er_out res = Some f -> words s' !! addr = Some f) /\
  Forall (ae_let_go op (er_told res) s s') (er_released res).

Definition ae_run (s : kstate) (op : event_op) (q : option aevent) : ae_result :=
  ae_step (prio_of (tasks s)) (default 0%nat (g_active_task s)) (0 <? g_intrpt_nested_level s) (0 <? g_sched_lock s) op q.

(** What the invariant says of an event. *)
Lemma event_body s o b e :
  Inv s -> blks s !! o = Some b -> obj_type b = RHINO_EVENT_OBJ_TYPE -> events s !! o = Some e ->
  blk_policy b = BLK_POLICY_PRI /\ fits 32 (ev_flags e) /\
  forall t k, tasks s !! t = Some k -> in_blk o k -> flags_met (pend_option k) (ev_flags e) (pend_flags k) = false.
Proof.
  intros HI Hb Hty He. destruct (i0_objs _ s (inv_0 s HI) o ltac:(done) b Hb) as (Hpol & Hbody & Hwait). rewrite Hty in *.
  destruct Hbody as (e0 & He0 & Hf). assert (e0 = e) as -> by congruence. split_and!; try done. intros t k Hk Hin. by eapply Hwait.
Qed.

(** The state after the flags were written. *)
Lemma event_written s o b q e f ws :
  Inv s -> blks s !! o = Some b -> obj_type b = RHINO_EVENT_OBJ_TYPE -> events s !! o = Some e -> event_rel s o (Some q) ->
  fits 32 f -> (forall t k, tasks s !! t = Some k -> in_blk o k -> flags_met (pend_option k) f (pend_flags k) = false) ->
  let s' := set_events (<[o := set_ev_flags f e]> (events s)) (set_words ws s) in
  Inv s' /\ event_rel s' o (Some (ae_set_flags f q)).
Proof.
  intros HI Hb Hty He (b0 & Hb0 & _ & Hwt & Hwd & e0 & He0 & _ & Hst) Hf Hun s'. split.
  - apply (inv_body s _ o b); try done; [by split; cbn; auto using lookup_insert_other|..]; rewrite Hty; cbn; rewrite lookup_insert_eq.
    + by eexists.
    + intros t k Hk Hin e1 [= <-]. by apply (Hun t k).
  - exists b0. split; [done|]. assert (b0 = b) as -> by congruence. split_and!; try done. eexists. cbn.
    rewrite lookup_insert_eq. split_and!; [done..|]. assert (e0 = e) as -> by congruence. done.
Qed.

Lemma ae_valid_eq opt :
  negb (opt =? RHINO_AND) && negb (opt =? RHINO_OR) && negb (opt =? RHINO_AND_CLEAR) && negb (opt =? RHINO_OR_CLEAR) = negb (ae_valid opt).
Proof. unfold ae_valid. by rewrite !negb_orb. Qed.

(** The caller notes what it wants and blocks. *)
Lemma event_block_wp o b q e flags opt addr ticks cpsr s :
  Inv s -> g_intrpt_nested_level s <= 0 -> g_sched_lock s <= 0 -> g_active_task s <> Some g_idle_task ->
  blks s !! o = Some b -> obj_type b = RHINO_EVENT_OBJ_TYPE -> events s !! o = Some e -> event_rel s o (Some q) ->
  flags_met opt (ev_flags e) flags = false -> timeout_ok ticks ->
  wp (a ← cur_task;
      upd_task a (set_pend_option opt);; upd_task a (set_pend_flags flags);; upd_task a (set_pend_info addr);;
      pend_to_blk_obj o a ticks;; RHINO_CRITICAL_EXIT_SCHED cpsr;; mret Blocked)
    (fun r s' => Inv s' /\ irq_off s' = cpsr /\ r = Blocked /\ exists a, g_active_task s = Some a /\
       event_rel s' o (Some (mk_aevent (ae_flags q) (pri_enqueue (prio_of (tasks s)) a (ae_wait q))
         (fun t => if decide (t = a) then (opt, flags) else ae_want q t) (ae_static q)))) s.
Proof.
  intros HI Hn Hl Hidle Hb Hty He Hrel Hun Hto. pose proof (inv_0 s HI) as H0.
  destruct (event_body s o b e) as (Hpol & _ & _); [done..|].
  destruct (inv_active s HI) as (a & k & Ha & Hk & Hr); [pose proof (i0_nest _ s H0) as []; lia|].
  do 8 kstep. cbn [tasks set_tasks]. set (k' := set_pend_info addr (set_pend_flags flags (set_pend_option opt k))).
  match goal with |- wp _ _ ?x => assert (x = set_tasks (<[a := k']> (tasks s)) s) as -> by (cbn; by rewrite !insert_insert_eq) end.
  eapply (block_edit_wp Blocked cpsr o b a k k'); try done; [congruence..| |].
  { rewrite Hty. intros e1 He1. assert (e1 = e) as -> by congruence. done. }
  intros s2 s' Ef Et Eb Hre HI'. split_and!; [done|by eapply irq_resched|done|].
  exists a. split; [done|]. eapply event_rel_resched; [exact Hre|]. destruct Hrel as (b0 & Hb0 & _ & Hwt & Hwd & e0 & He0 & Hfl & Hst).
  assert (b0 = b) as -> by congruence.
  eexists. split; [rewrite Eb; apply lookup_insert_eq|]. split_and!; [done|cbn; by rewrite Hwt| |].
  - intros t Ht. unfold wanted. rewrite Et. cbn [ae_want ae_wait] in *. destruct (decide (t = a)) as [->|Hne].
    + rewrite lookup_insert_eq. unfold k', blocked. by destruct (timed ticks).
    + rewrite lookup_insert_ne by done. rewrite (pri_enqueue_perm _ _ _), elem_of_cons in Ht. destruct Ht as [?|Ht]; [done|].
      by apply (Hwd t).
  - exists e0. by rewrite Ef.
Qed.

(** Clearing flags in turn satisfies nobody who was not satisfied. *)
Lemma cleared_spec want go : forall c, fits 32 c ->
  fits 32 (cleared want c go) /\ forall t, ae_met want c t = false -> ae_met want (cleared want c go) t = false.
Proof.
  induction go as [|u go IH]; intros c Hc; [done|].
  destruct (IH (ae_clear (fst (want u)) (snd (want u)) c)) as [? Hm]; [by apply ae_clear_fits|].
  split; [done|]. intros t Ht. apply Hm. by apply ae_clear_unmet.
Qed.

Lemma event_get_spec o addr flags opt ticks aq s :
  Inv s -> event_rel s o aq -> timeout_ok ticks -> g_active_task s <> Some g_idle_task ->
  wp (krhino_event_get (Some o) flags opt (Some addr) ticks)
    (event_post s o addr (EventGet flags opt ticks) (ae_run s (EventGet flags opt ticks) aq)) s.
Proof.
  intros HI Hrel Hto Hidle. pose proof Hrel as (b & Hb & Hq). unfold krhino_event_get, ae_run, ae_step. cbn [NULL_PARA_CHK].
  rewrite ae_valid_eq, andb_true_r. destruct (negb (ae_valid opt)); [kstep; by split_and!|]. apply (obj_call_wp Ret o b); [done|..].
  - intros Hn. rewrite (proj2 (Z.ltb_lt _ _) Hn). by split_and!.
  - intros Hn Hty. rewrite (proj2 (Z.ltb_ge _ _) Hn). destruct aq as [q|]; [by destruct Hq|]. by split_and!.
  - intros Hn Hty. rewrite (proj2 (Z.ltb_ge _ _) Hn). destruct aq as [q|]; [|done].
    destruct Hq as (_ & Hwt & Hwd & e & He & Hfl & Hst). destruct (event_body s o b e) as (Hpol & Hf & Hun); [done..|].
    unfold ae_get. rewrite Hfl. do 2 event_step. destruct (flags_met opt (ev_flags e) flags) eqn:Em.
    + unfold store_word. do 3 kstep.
      destruct (event_written (set_irq_off true s) o b q e (ae_clear opt flags (ev_flags e)) (<[addr := ev_flags e]> (words s)))
        as [HI' Hr']; try done; [by apply inv_irq|by apply ae_clear_fits|intros t k Hk Hin; apply ae_clear_unmet; [done|by eapply Hun]|].
      assert (wp (if negb (Z.land opt RHINO_FLAGS_CLEAR_MASK =? 0)
        then upd_event o (fun e => set_ev_flags (Z.land (ev_flags e) (u32 (Z.lnot flags))) e) else mret tt)
        (fun _ s1 => s1 = set_events (<[o := set_ev_flags (ae_clear opt flags (ev_flags e)) e]> (events s))
           (set_words (<[addr := ev_flags e]> (words s)) (set_irq_off true s)))
        (set_words (<[addr := ev_flags e]> (words s)) (set_irq_off true s))) as Hclr.
      { unfold ae_clear. destruct (negb _); [by event_step|]. kstep.
        by assert (<[o := set_ev_flags (ev_flags e) e]> (events s) = events s) as -> by (by apply insert_id). }
      eapply wp_mono; [exact Hclr|]. intros _ s1 ->. apply wp_critical_return. split_and!; try done.
      * by apply (inv_irq (irq_off s)).
      * intros f [= <-]. cbn. apply lookup_insert_eq.
    + destruct (Z.eqb_spec ticks RHINO_NO_WAIT); [apply wp_critical_return; rewrite irq_restore; by split_and!|].
      do 2 kstep. cbn [g_sched_lock set_irq_off]. destruct (Z.ltb_spec 0 (g_sched_lock s)).
      { apply wp_critical_return. rewrite irq_restore. by split_and!. }
      eapply wp_mono; [by eapply (event_block_wp o b q e flags opt addr ticks); [apply inv_irq|..]|].
      intros r s' (? & ? & -> & a & Ha & Hr'). cbn in Ha. rewrite Ha. cbn in Hr'. rewrite Hfl in Hr'. by split_and!.
Qed.

Lemma event_set_spec o addr flags opt aq s :
  Inv s -> event_rel s o aq -> fits 32 flags ->
  wp (krhino_event_set (Some o) flags opt)
    (fun r => event_post s o addr (EventSet flags opt) (ae_run s (EventSet flags opt) aq) (Ret r)) s.
Proof.
  intros HI Hrel Hfl. pose proof Hrel as (b & Hb & Hq). unfold krhino_event_set, ae_run, ae_step. cbn [NULL_PARA_CHK].
  rewrite andb_false_r. destruct (negb (opt =? RHINO_AND) && negb (opt =? RHINO_OR)) eqn:Ev; [kstep; by split_and!|].
  unfold event_set. kstep. apply wp_critical_enter. do 2 kstep. destruct aq as [q|].
  2: { rewrite bool_decide_false by done. apply wp_critical_return. by split_and!. }
  destruct Hq as (Hty & Hwt & Hwd & e & He & Ef & Hst). destruct (event_body s o b e) as (Hpol & Hfe & Hun); [done..|].
  rewrite bool_decide_true by done. cbn [negb]. unfold ae_set. rewrite Ef.
  destruct (Z.eqb_spec opt RHINO_AND) as [->|Hne].
  - change (negb (Z.land RHINO_AND RHINO_FLAGS_AND_MASK =? 0)) with true. cbv beta iota. do 2 event_step. apply wp_critical_return.
    destruct (event_written (set_irq_off true s) o b q e (Z.land (ev_flags e) flags) (words s)) as [HI' Hr']; try done;
      [by apply inv_irq|by apply fits_land|intros t k Hk Hin; apply flags_met_land; [apply Hfe|by eapply Hun]|].
    split_and!; try done. by apply (inv_irq (irq_off s)).
  - assert (opt = RHINO_OR) as -> by (by apply negb_false_iff, Z.eqb_eq in Ev).
    change (negb (Z.land RHINO_OR RHINO_FLAGS_AND_MASK =? 0)) with false. cbv beta iota. do 4 event_step.
    cbn [ev_flags set_ev_flags]. set (cur := Z.lor (ev_flags e) flags). kstep. set (s1 := set_events _ _).
    assert (fits 32 cur) as Hcur by (by apply fits_lor).
    eapply (event_loop_wp o cur (ae_want q) (blk_list b) _ [] (set_ev_flags cur e) b); [done| |done|done|done|apply lookup_insert_eq|by rewrite <- Hwt|].
    { apply (inv0_event o (set_irq_off true s) _ (words s)).
      destruct (inv0_irq None true s (inv_0 s HI)) as [? HO ? ? ? ?]. split; try done. intros o' _. by apply HO. }
    intros s2 e2 H2 Hwk He2 Hf2 Hmm2. cbn [ev_flags set_ev_flags] in Hf2. pose proof Hwk as [Et Eb Ew _]. rewrite app_nil_l in Eb.
    destruct (cleared_spec (ae_want q) (filter (fun t => ae_met (ae_want q) cur t = true) (blk_list b)) cur Hcur) as [Hfe2 Hun2].
    rewrite <- Hf2 in Hfe2, Hun2.
    assert (forall t, t ∈ filter (fun t => ae_met (ae_want q) cur t <> true) (blk_list b) ->
      wanted s2 t = ae_want q t /\ ae_met (ae_want q) (ev_flags e2) t = false) as Hrest.
    { intros t [Hm Ht]%list_elem_of_filter. split; [|by apply Hun2, not_true_is_false].
      unfold wanted. rewrite Et, decide_False; [|intros [? _]%list_elem_of_filter; done]. rewrite <- (Hwd t) by (by rewrite Hwt). done. }
    apply exit_sched_inv.
    + split; try apply H2. intros o' _. destruct (decide (o' = o)) as [->|]; [|apply H2; congruence].
      intros b' Hb'. rewrite Eb in Hb'. injection Hb' as <-. cbn. rewrite Hty. split_and!; [done|by exists e2|].
      intros t k Hk Hin e3 He3. assert (e3 = e2) as -> by congruence.
      pose proof (proj2 (proj2 (proj1 (wf_blks s2 (ci_wf s2 (i0_ci _ s2 H2)) o _ Eb)) t) (ex_intro _ k (conj Hk Hin))) as Ht.
      destruct (Hrest t Ht) as [Hw Hm]. unfold ae_met in Hm. rewrite <- Hw in Hm. unfold wanted in Hm. by rewrite Hk in Hm.
    + intros s' Hre HI'. split_and!; [done|by eapply irq_resched|done|..]; [|done|].
      * eapply event_rel_resched; [exact Hre|]. eexists. split; [exact Eb|]. cbn. rewrite Hwt.
        split_and!; [done|done|by intros t Ht; apply Hrest|]. exists e2. rewrite Hmm2. split_and!; [done|by rewrite Hf2|done].
      * cbn [er_released er_told]. rewrite Hwt. apply Forall_forall. intros t Ht. cbn. pose proof Ht as [_ Hin]%list_elem_of_filter.
        pose proof Hin as (k & Hk & _)%(proj2 (proj1 (wf_blks s (ci_wf s (i0_ci _ s (inv_0 s HI))) o b Hb))). split.
        -- eapply (released_resched _ s); [|exact Hre]. exists k, (woken BLK_FINISH k). split_and!; try done. rewrite Et, decide_True by done. cbn. by rewrite Hk.
        -- intros k' Hk'. assert (k' = k) as -> by congruence. pose proof Hre as (ts & ? & ? & -> & _)%resched_eq. by apply (Ew t).
Qed.

Lemma event_del_spec o addr aq s :
  Inv s -> event_rel s o aq ->
  wp (krhino_event_del (Some o)) (fun r => event_post s o addr EventDel (ae_run s EventDel aq) (Ret r)) s.
Proof.
  intros HI Hrel. pose proof Hrel as (b & Hb & Hq). unfold krhino_event_del, ae_run, ae_step. cbn [NULL_PARA_CHK].
  rewrite andb_true_r. apply (obj_call_wp id o b); [done|..].
  - intros Hn. rewrite (proj2 (Z.ltb_lt _ _) Hn). by split_and!.
  - intros Hn Hty. rewrite (proj2 (Z.ltb_ge _ _) Hn). destruct aq as [q|]; [by destruct Hq|]. by split_and!.
  - intros Hn Hty. rewrite (proj2 (Z.ltb_ge _ _) Hn). destruct aq as [q|]; [|done].
    destruct Hq as (_ & Hwt & Hwd & e & He & Ef & Hst). destruct (event_body s o b e) as (Hpol & _ & _); [done..|].
    unfold ae_del. rewrite Hst. do 2 event_step. destruct (ev_mm_flag e =? K_OBJ_STATIC_ALLOC) eqn:Efl; cbn [negb].
    2: { apply wp_critical_return. rewrite irq_restore. by split_and!. }
    apply (del_drain_wp o b); [apply inv0_irq, HI|done|congruence|done|]. intros s1 H1 Hf1 Eb Hgo.
    assert (events s1 !! o = Some e) as He1 by (by rewrite Hf1). kstep. eapply wp_upd_event; [exact He1|].
    apply exit_sched_inv.
    { eapply (inv0_dead s1 _ o); [done|done|by split; cbn; auto using lookup_insert_other|rewrite Eb; apply lookup_insert_eq|done]. }
    intros s' Hre HI'. split_and!; [done|by eapply irq_resched|done| |done|].
    + eapply event_rel_resched; [exact Hre|]. eexists. split; [cbn; rewrite Eb; apply lookup_insert_eq|done].
    + cbn [er_released]. rewrite Hwt. eapply Forall_impl; [exact Hgo|]. intros u Hu. cbn.
      eapply (released_resched _ s); [|exact Hre]. exact Hu.
Qed.

(** Every object has an abstraction, an event or not. *)
Lemma event_rel_exists s o : Inv s -> is_Some (blks s !! o) -> exists aq, event_rel s o aq.
Proof.
  intros HI [b Hb]. destruct (decide (obj_type b = RHINO_EVENT_OBJ_TYPE)) as [E|E]; [|by exists None, b].
  destruct (i0_objs _ s (inv_0 s HI) o ltac:(done) b Hb) as (_ & Hbody & _). rewrite E in Hbody.
  destruct Hbody as (e & He & _). exists (Some (mk_aevent (ev_flags e) (blk_list b) (wanted s) (ev_mm_flag e =? K_OBJ_STATIC_ALLOC))), b.
  split; [done|]. split_and!; try done. by exists e.
Qed.

(** Every event call. *)
Lemma event_call_spec o addr op s :
  Inv s -> is_Some (blks s !! o) -> event_pre s op ->
  (exists aq, event_rel s o aq) /\
  forall aq, event_rel s o aq -> wp (event_exec o addr op) (event_post s o addr op (ae_run s op aq)) s.
Proof.
  intros HI Hb Hpre. split; [by apply event_rel_exists|]. intros aq Hq.
  destruct op as [flags opt ticks|flags opt|]; cbn [event_exec]; cbn in Hpre.
  - destruct Hpre. by apply event_get_spec.
  - kstep. eapply wp_mono; [by apply (event_set_spec o addr flags opt aq)|done].
  - kstep. eapply wp_mono; [by apply (event_del_spec o addr aq)|done].
Qed.

(** C11: a kernel event refines a word of flags with waiting tasks: from any
    state satisfying the kernel invariant there is such an event, and getting,
    setting (which lets go every waiter that wants what is set then and applies
    their clear requests in order) and deleting return the abstract status, store
    the abstract flags for the caller and for each waiter let go, leave the
    abstract event, let go exactly the abstract tasks, restore the interrupt mask
    and keep the invariant. *)
Theorem event_refines_flag_word o addr op s :
  Inv s -> is_Some (blks s !! o) -> event_pre s op ->
  (exists aq, event_rel s o aq) /\
  forall aq, event_rel s o aq -> wp (event_exec o addr op) (event_post s o addr op (ae_run s op aq)) s.
Proof. apply event_call_spec. Qed.

End event.

Lemma event_refines_flag_word_witness :
  let d := demo_with (NewEvent 5) in
  let aq := Some (mk_aevent 5 [] (wanted d) true) in
  Inv d /\ event_rel d 1%nat aq /\
  ae_run d (EventGet 4 RHINO_AND_CLEAR 0) aq = ae_stay RHINO_SUCCESS (Some 5) (Some (mk_aevent 1 [] (wanted d) true)) /\
  wp (event_exec 1%nat 100 (EventGet 4 RHINO_AND_CLEAR 0))
    (event_post d 1%nat 100 (EventGet 4 RHINO_AND_CLEAR 0) (ae_run d (EventGet 4 RHINO_AND_CLEAR 0) aq)) d.
Proof.
  intros d aq. destruct (demo_with_inv (NewEvent 5)) as [HI _]; [by vm_compute|].
  assert (event_rel d 1%nat aq) as Hrel.
  { eexists. split; [by vm_compute|]. split_and!; [done..|]. eexists. split; [by vm_compute|done]. }
  split_and!; [exact HI|exact Hrel|by vm_compute|].
  apply (event_refines_flag_word 1%nat 100 (EventGet 4 RHINO_AND_CLEAR 0) d); [exact HI|by eexists; vm_compute| |exact Hrel].
  split; [left; lia|by vm_compute].
Defined.
