(* ===== verification/BufQueueSpec.v ===== *)
(** * Buffer queues keep the invariant and refine a bounded queue of byte strings *)

From S2P Require Import Prelude KErr CircBuf RingBuf KState KMonad Sched Pend KInv Mutex PriInv Sem Event Queue BufQueue Inv Moves Create Task KSys Boot.
Local Open Scope Z_scope.

(** ** The abstract queue: a bounded FIFO of messages and the waiting receivers *)

Record abufq := mk_abufq {
  ab_fifo : fifo;
  ab_max : Z;
  ab_wait : list tid;
  ab_static : bool
}.

Inductive bufq_op :=
  | BufqSend (m : list Z)
  | BufqRecv (ticks addr : Z)
  | BufqFlush
  | BufqDel.

(** The status, the size and the message stored for the caller, the tasks let go
    and the queue afterwards. *)
Record ab_result := mk_ab_result {
  br_ret : call_res;
  br_out : option Z;
  br_msg : option (list Z);
  br_released : list tid;
  br_queue : option abufq
}.

Definition ab_stay (r : kstat_t) (out : option Z) (q : option abufq) : ab_result := mk_ab_result (Ret r) out None [] q.

Definition ab_set_fifo (f : fifo) (q : abufq) : abufq := mk_abufq f (ab_max q) (ab_wait q) (ab_static q).

Definition ab_set_wait (l : list tid) (q : abufq) : abufq := mk_abufq (ab_fifo q) (ab_max q) l (ab_static q).

Definition ab_send (m : list Z) (q : abufq) : ab_result :=
  if ab_max q <? Z.of_nat (length m) then ab_stay RHINO_BUF_QUEUE_MSG_SIZE_OVERFLOW None (Some q)
  else if Z.of_nat (length m) =? 0 then ab_stay RHINO_INV_PARAM None (Some q)
  else match ab_wait q with
       | [] =>
           if f_free (ab_fifo q) <? f_size (ab_fifo q) m then ab_stay RHINO_BUF_QUEUE_FULL None (Some q)
           else ab_stay RHINO_SUCCESS None (Some (ab_set_fifo (snd (fifo_step (ab_fifo q) (OpPush m))) q))
       | t :: l => mk_ab_result (Ret RHINO_SUCCESS) None None [t] (Some (ab_set_wait l q))
       end.

Definition ab_recv (p : tid -> Z) (a : tid) (ticks : Z) (locked : bool) (q : abufq) : ab_result :=
  match f_msgs (ab_fifo q) with
  | m :: _ => mk_ab_result (Ret RHINO_SUCCESS) (Some (Z.of_nat (length m))) (Some m) []
                (Some (ab_set_fifo (snd (fifo_step (ab_fifo q) OpPop)) q))
  | [] =>
      if ticks =? RHINO_NO_WAIT then ab_stay RHINO_NO_PEND_WAIT (Some 0) (Some q)
      else if locked then ab_stay RHINO_SCHED_DISABLE (Some 0) (Some q)
      else mk_ab_result Blocked None None [] (Some (ab_set_wait (pri_enqueue p a (ab_wait q)) q))
  end.

Definition ab_del (q : abufq) : ab_result :=
  if ab_static q then mk_ab_result (Ret RHINO_SUCCESS) None None (ab_wait q) None
  else ab_stay RHINO_KOBJ_DEL_ERR None (Some q).

Definition ab_in_intrpt (op : bufq_op) : bool :=
  match op with
  | BufqSend _ => true
  | BufqRecv ticks _ => ticks =? RHINO_NO_WAIT
  | BufqFlush | BufqDel => false
  end.

Definition ab_step (p : tid -> Z) (a : tid) (intrpt locked : bool) (op : bufq_op) (q : option abufq) : ab_result :=
  if intrpt && negb (ab_in_intrpt op) then ab_stay RHINO_NOT_CALLED_BY_INTRPT None q
  else match q with
       | None => ab_stay RHINO_KOBJ_TYPE_ERR None None
       | Some q =>
           match op with
           | BufqSend m => ab_send m q
           | BufqRecv ticks _ => ab_recv p a ticks locked q
           | BufqFlush => ab_stay RHINO_SUCCESS None (Some (ab_set_fifo (snd (fifo_step (ab_fifo q) OpReset)) q))
           | BufqDel => ab_del q
           end
       end.

(** ** The refinement relation *)

Definition bufq_rel (s : kstate) (o : oid) (aq : option abufq) : Prop :=
  exists b, blks s !! o = Some b /\
    match aq with
    | None => obj_type b <> RHINO_BUF_QUEUE_OBJ_TYPE
    | Some a => obj_type b = RHINO_BUF_QUEUE_OBJ_TYPE /\ ab_wait a = blk_list b /\ exists q, bufqs s !! o = Some q /\
        bufq_repr q (ab_fifo a) /\ ab_max a = max_msg_size q /\ ab_static a = (bq_mm_flag q =? K_OBJ_STATIC_ALLOC)
    end.

Lemma bufq_rel_resched s s' o aq c : resched (set_irq_off c s) s' -> bufq_rel s o aq -> bufq_rel s' o aq.
Proof. by intros (ts & a & p & -> & _)%resched_eq. Qed.

(** ** The ring of a queue *)

Lemma ring_push r f d :
  rb_sim r f -> f_accepts f d = true ->
  exists r', ringbuf_push r d (Z.of_nat (length d)) =
      Some (if f_free f <? f_size f d then RHINO_RINGBUF_FULL else RHINO_SUCCESS, r') /\
    rb_sim r' (snd (fifo_step f (OpPush d))).
Proof.
  intros Hsim Hacc. destruct (rb_step_push r f d Hsim) as (r' & E & Hs). exists r'. split; [|done].
  cbn [rb_step fifo_step] in E. rewrite Hacc in E. cbn [negb] in E. unfold krhino_ringbuf_push in E.
  assert ((Z.of_nat (length d) <=? 0) || (RINGBUF_LEN_3BYTES_MAXVALUE <? Z.of_nat (length d))
    || (rb_type r =? RINGBUF_TYPE_FIX) && negb (Z.of_nat (length d) =? rb_blk_size r) = false) as Hc.
  { destruct Hsim as (_ & _ & Ht & Hb). unfold f_accepts in Hacc. rewrite Ht, Hb. zbool.
    rewrite (proj2 (Z.leb_gt _ 0)), (proj2 (Z.ltb_ge RINGBUF_LEN_3BYTES_MAXVALUE _)) by lia. cbn.
    apply orb_true_iff in H0 as [E0|E0]; [apply Z.eqb_eq in E0; by rewrite E0|]. by rewrite E0, andb_false_r. }
  rewrite Hc in E. destruct (ringbuf_push r d (Z.of_nat (length d))) as [[st r1]|]; cbn in E; [|done].
  injection E as E ->. destruct (f_free f <? f_size f d); cbn in E; by injection E as ->.
Qed.

Lemma ring_pop r f m ms :
  rb_sim r f -> f_msgs f = m :: ms ->
  ringbuf_is_empty r = false /\ exists r', ringbuf_pop r = Some (RHINO_SUCCESS, Some (m, Z.of_nat (length m)), r') /\
    rb_sim r' (snd (fifo_step f OpPop)).
Proof.
  intros Hsim Hm. destruct (rb_step_sim r f OpPop Hsim) as (r' & E & Hs). cbn [rb_step fifo_step] in E. rewrite Hm in E.
  unfold krhino_ringbuf_pop in E. rewrite andb_false_r in E. split.
  - destruct (ringbuf_is_empty r) eqn:Ee; [|done]. unfold ringbuf_pop in E. by rewrite Ee in E.
  - exists r'. split; [|done]. destruct (ringbuf_pop r) as [[[st o] r1]|]; [|done]. cbn in E.
    injection E as E ->. destruct o as [[d l]|]; [|done]. by injection E as -> -> ->.
Qed.

Lemma ring_empty r f : rb_sim r f -> f_msgs f = [] -> ringbuf_is_empty r = true.
Proof.
  intros Hsim Hm. pose proof (rb_sim_free r f Hsim) as Hf. destruct Hsim as (_ & He & _). unfold ringbuf_is_empty.
  apply Z.eqb_eq. rewrite Hf, He. unfold f_free. rewrite Hm. cbn. lia.
Qed.

(** ** The calls *)

(** The buffer at [addr] starts with [m]. *)
Definition holds (s : kstate) (addr : Z) (m : list Z) : Prop := exists rest, bytes s !! addr = Some (m ++ rest).

Section bufq.
Context `{CpuPort}.

Definition bufq_exec (o : oid) (op : bufq_op) : K (call_res * option Z) :=
  match op with
  | BufqSend m => r ← krhino_buf_queue_send (Some o) (Some m) (Z.of_nat (length m)); mret (Ret r, None)
  | BufqRecv ticks addr => krhino_buf_queue_recv (Some o) ticks (Some addr) (Some tt)
  | BufqFlush => r ← krhino_buf_queue_flush (Some o); mret (Ret r, None)
  | BufqDel => r ← krhino_buf_queue_del (Some o); mret (Ret r, None)
  end.

(** A message for a fixed-block queue has the size of a block, one for the other
    kind a size the length prefix can hold; a receiver has room for any message. *)
Definition bufq_pre (s : kstate) (op : bufq_op) (aq : option abufq) : Prop :=
  match op, aq with
  | BufqSend m, Some a => f_accepts (ab_fifo a) m = true \/ m = [] \/ ab_max a < Z.of_nat (length m)
  | BufqRecv ticks addr, Some a => timeout_ok ticks /\ g_active_task s <> Some g_idle_task /\
      exists buf, bytes s !! addr = Some buf /\ ab_max a <= Z.of_nat (length buf)
  | _, _ => True
  end.

(** The status with which waiters leave, and what they find. *)
Definition ab_let_go (op : bufq_op) (s s' : kstate) (t : tid) : Prop :=
  match op with
  | BufqSend m => released BLK_FINISH s s' t /\ bq_msg_size <$> tasks s' !! t = Some (Z.of_nat (length m)) /\
      forall k, tasks s !! t = Some k -> holds s' (msg k) m
  | _ => released BLK_DEL s s' t
  end.

Definition bufq_post (s : kstate) (o : oid) (op : bufq_op) (res : ab_result) (r : call_res * option Z) (s' : kstate) : Prop :=
  Inv s' /\ irq_off s' = irq_off s /\ r = (br_ret res, br_out res) /\ bufq_rel s' o (br_queue res) /\
  (forall ticks addr m, op = BufqRecv ticks addr -> br_msg res = Some m -> holds s' addr m) /\
  Forall (ab_let_go op s s') (br_released res).

Definition ab_run (s : kstate) (op : bufq_op) (q : option abufq) : ab_result :=
  ab_step (prio_of (tasks s)) (default 0%nat (g_active_task s)) (0 <? g_intrpt_nested_level s) (0 <? g_sched_lock s) op q.

Ltac bufq_step := first [kstep
  | lazymatch goal with
    | |- wp (get_bufq _) _ _ => eapply wp_get_bufq; [klookup|]
    | |- wp (upd_bufq _ _) _ _ => eapply wp_upd_bufq; [klookup|]
    end].

(** Copying into a receiver's buffer. *)
Lemma store_bytes_wp addr d buf (Q : unit -> kstate -> Prop) s :
  bytes s !! addr = Some buf -> (length d <= length buf)%nat ->
  Q tt (set_bytes (<[addr := d ++ drop (length d) buf]> (bytes s)) s) -> wp (store_bytes addr d) Q s.
Proof.
  intros Hb Hl HQ. unfold store_bytes. do 3 kstep. eapply wp_deref; [exact Hb|]. kstep.
  eapply wp_deref; [unfold splice; rewrite decide_True by lia; done|]. kstep. cbn. exact HQ.
Qed.

Lemma inv0_bytes x s addr buf buf' :
  Inv0x x s -> bytes s !! addr = Some buf -> length buf' = length buf ->
  Inv0x x (set_bytes (<[addr := buf']> (bytes s)) s).
Proof.
  intros H0 Hb Hl. apply (inv0_core x s); [done| |done]. intros o' _. apply (obj_ok_body s); [done|by intros []|].
  intros ty k. destruct ty; try done. cbn. intros Hw q Hq. destruct (Hw q Hq) as (? & bf & Hbf & Hlen). split; [done|].
  destruct (decide (addr = msg k)) as [E|Hne]; [subst addr; rewrite lookup_insert_eq|rewrite lookup_insert_ne by done; eauto].
  eexists. split; [done|]. rewrite Hb in Hbf. injection Hbf as <-. by rewrite Hl.
Qed.

Lemma inv_bytes s addr buf buf' :
  Inv s -> bytes s !! addr = Some buf -> length buf' = length buf -> Inv (set_bytes (<[addr := buf']> (bytes s)) s).
Proof. intros [H0 Ht] ? ?. split; [|done]. by eapply inv0_bytes. Qed.

(** What the invariant says of a buffer queue. *)
Lemma bufq_body s o b a q :
  Inv s -> blks s !! o = Some b -> obj_type b = RHINO_BUF_QUEUE_OBJ_TYPE -> bufqs s !! o = Some q -> bufq_repr q (ab_fifo a) ->
  blk_policy b = BLK_POLICY_PRI /\ (blk_list b <> [] -> f_msgs (ab_fifo a) = []) /\
  forall t k, tasks s !! t = Some k -> in_blk o k -> exists buf, bytes s !! msg k = Some buf /\ max_msg_size q <= Z.of_nat (length buf).
Proof.
  intros HI Hb Hty Hq Hr. destruct (i0_objs _ s (inv_0 s HI) o ltac:(done) b Hb) as (Hpol & _ & Hwait). rewrite Hty in *.
  split_and!; [done|..].
  - intros Hne. destruct (blk_list b) as [|t l] eqn:E; [done|].
    destruct (first_waiter s o b t l) as (k & Hk & Hik & _); [apply HI|done..|]. destruct (Hwait t k Hk Hik q Hq) as [Hc _].
    destruct Hr as (_ & _ & Hn & _). destruct (f_msgs (ab_fifo a)); [done|]. cbn in Hn. lia.
  - intros t k Hk Hin. by destruct (Hwait t k Hk Hin q Hq).
Qed.

(** The state after the body of the queue was written. *)
Lemma bufq_written s o b a q q' f :
  Inv s -> blks s !! o = Some b -> obj_type b = RHINO_BUF_QUEUE_OBJ_TYPE -> ab_wait a = blk_list b -> bufqs s !! o = Some q ->
  bufq_repr q (ab_fifo a) -> ab_max a = max_msg_size q -> ab_static a = (bq_mm_flag q =? K_OBJ_STATIC_ALLOC) ->
  bufq_repr q' f -> (blk_list b <> [] -> f_msgs f = []) -> max_msg_size q' = max_msg_size q -> bq_mm_flag q' = bq_mm_flag q ->
  let s' := set_bufqs (<[o := q']> (bufqs s)) s in
  Inv s' /\ bufq_rel s' o (Some (ab_set_fifo f a)).
Proof.
  intros HI Hb Hty Hwt Hq Hr Hmax Hst Hr' Hw Hm' Hf' s'. split.
  - destruct (bufq_body s o b a q) as (_ & _ & Hbuf); [done..|].
    apply (inv_body s _ o b); try done; [by split; cbn; auto using lookup_insert_other|..]; rewrite Hty; cbn.
    + rewrite lookup_insert_eq. by eexists _, _.
    + intros t k Hk Hin q0. rewrite lookup_insert_eq. intros [= <-]. rewrite Hm'. split; [|by eapply Hbuf].
      destruct Hr' as (_ & _ & -> & _). rewrite Hw; [done|]. by eapply waiter_listed; [apply HI|..].
  - exists b. split; [done|]. split_and!; try done. exists q'. cbn. rewrite lookup_insert_eq. split_and!; try done; congruence.
Qed.

Lemma bufq_rel_wait s s' o b a l :
  bufq_rel s o (Some a) -> blks s !! o = Some b -> bufqs s' = bufqs s -> blks s' !! o = Some (set_blk_list l b) ->
  bufq_rel s' o (Some (ab_set_wait l a)).
Proof.
  intros (b0 & Hb0 & Hty & _ & q & Hq & Hr) Hb Hf Hb'. assert (b0 = b) as -> by congruence.
  exists (set_blk_list l b). split; [done|]. split_and!; try done. exists q. by rewrite Hf.
Qed.

Lemma bufq_push_repr q f m q' rb :
  bufq_repr q f -> rb_sim rb (mk_fifo (f_cap f) (f_type f) (f_blk f) (f_msgs f ++ [m])) -> Z.of_nat (length m) <= max_msg_size q ->
  bq_ringbuf q' = rb -> bq_cur_num q' = bq_cur_num q + 1 -> max_msg_size q' = max_msg_size q ->
  bufq_repr q' (mk_fifo (f_cap f) (f_type f) (f_blk f) (f_msgs f ++ [m])).
Proof.
  intros (_ & Hfix & Hn & Hall) Hs Hl Er Ec Em. split_and!; cbn [f_type f_blk f_msgs].
  - by rewrite Er.
  - intros E. rewrite Em. by apply Hfix.
  - rewrite Ec, Hn, length_app. cbn. lia.
  - rewrite Em. apply Forall_app. split; [done|]. by apply Forall_singleton.
Qed.

(** The ring was full or took the message; the rest is bookkeeping. *)
Lemma bufq_put_wp o b a q m s :
  Inv s -> blks s !! o = Some b -> obj_type b = RHINO_BUF_QUEUE_OBJ_TYPE -> ab_wait a = blk_list b -> blk_list b = [] ->
  bufqs s !! o = Some q -> bufq_repr q (ab_fifo a) -> ab_max a = max_msg_size q ->
  ab_static a = (bq_mm_flag q =? K_OBJ_STATIC_ALLOC) -> f_accepts (ab_fifo a) m = true -> Z.of_nat (length m) <= max_msg_size q ->
  wp ('(err, rb) ← deref (ringbuf_push (bq_ringbuf q) m (Z.of_nat (length m)));
      upd_bufq o (set_bq_ringbuf rb);;
      if negb (bool_decide (err = RHINO_SUCCESS)) then
        critical_return (irq_off s) (if bool_decide (err = RHINO_RINGBUF_FULL) then RHINO_BUF_QUEUE_FULL else err)
      else
        upd_bufq o (fun q => set_bq_cur_num (bq_cur_num q + 1) q);;
        q ← get_bufq o;
        (if bq_peak_num q <? bq_cur_num q then upd_bufq o (set_bq_peak_num (bq_cur_num q)) else mret tt);;
        (if rb_freesize (bq_ringbuf q) <? min_free_buf_size q
         then upd_bufq o (set_min_free_buf_size (rb_freesize (bq_ringbuf q))) else mret tt);;
        critical_return (irq_off s) RHINO_SUCCESS)
    (fun r => bufq_post s o (BufqSend m)
       (if f_free (ab_fifo a) <? f_size (ab_fifo a) m then ab_stay RHINO_BUF_QUEUE_FULL None (Some a)
        else ab_stay RHINO_SUCCESS None (Some (ab_set_fifo (snd (fifo_step (ab_fifo a) (OpPush m))) a))) (Ret r, None))
    (set_irq_off true s).
Proof.
  intros HI Hb Hty Hwt El Hq Hr Hmax Hst Hacc Hlen. destruct (ring_push (bq_ringbuf q) (ab_fifo a) m) as (rb & Ep & Hs); [apply Hr|done|].
  kstep. eapply wp_deref; [exact Ep|]. cbv beta iota. do 2 bufq_step. cbn [fifo_step] in Hs |- *. rewrite Hacc in Hs |- *. cbn [negb] in Hs |- *.
  assert (Inv (set_irq_off true s)) as HI0 by (by apply inv_irq).
  destruct (f_free (ab_fifo a) <? f_size (ab_fifo a) m) eqn:Ef; cbn [snd] in Hs |- *.
  - rewrite bool_decide_false, bool_decide_true by done. cbn [negb]. apply wp_critical_return.
    destruct (bufq_written (set_irq_off true s) o b a q (set_bq_ringbuf rb q) (ab_fifo a)) as [HI' Hr']; try done.
    { destruct Hr as (_ & ? & ? & ?). by split_and!. }
    split_and!; try done. by apply (inv_irq (irq_off s)).
  - rewrite bool_decide_true by done. cbn [negb]. do 5 bufq_step. cbn [bufqs set_bufqs].
    assert (forall q', bq_ringbuf q' = rb -> bq_cur_num q' = bq_cur_num q + 1 -> max_msg_size q' = max_msg_size q ->
      bq_mm_flag q' = bq_mm_flag q -> bufq_post s o (BufqSend m) (ab_stay RHINO_SUCCESS None
        (Some (ab_set_fifo (mk_fifo (f_cap (ab_fifo a)) (f_type (ab_fifo a)) (f_blk (ab_fifo a)) (f_msgs (ab_fifo a) ++ [m])) a)))
        (Ret RHINO_SUCCESS, None) (set_irq_off (irq_off s) (set_bufqs (<[o := q']> (bufqs s)) (set_irq_off true s)))) as Hput.
    { intros q' E1 E2 E3 E4. destruct (bufq_written (set_irq_off true s) o b a q q'
        (mk_fifo (f_cap (ab_fifo a)) (f_type (ab_fifo a)) (f_blk (ab_fifo a)) (f_msgs (ab_fifo a) ++ [m]))) as [HI' Hr']; try done.
      { by eapply bufq_push_repr. }
      split_and!; try done. by apply (inv_irq (irq_off s)). }
    repeat (try kstep; match goal with |- wp (if ?c then _ else _) _ _ => destruct c end; [bufq_step|kstep]; cbn [bufqs set_bufqs]);
      apply wp_critical_return; rewrite !insert_insert_eq; by apply Hput.
Qed.

(** The first waiter is handed the message. *)
Lemma bufq_hand_wp o b a q m t l cpsr s :
  Inv s -> bufq_rel s o (Some a) -> blks s !! o = Some b -> obj_type b = RHINO_BUF_QUEUE_OBJ_TYPE -> blk_list b = t :: l ->
  bufqs s !! o = Some q -> bufq_repr q (ab_fifo a) -> Z.of_nat (length m) <= max_msg_size q ->
  wp (k ← get_task t; d ← deref (slice m 0 (Z.of_nat (length m))); store_bytes (msg k) d;;
      upd_task t (set_bq_msg_size (Z.of_nat (length m)));; pend_task_wakeup t;;
      RHINO_CRITICAL_EXIT_SCHED cpsr;; mret RHINO_SUCCESS)
    (fun r s' => Inv s' /\ irq_off s' = cpsr /\ r = RHINO_SUCCESS /\ bufq_rel s' o (Some (ab_set_wait l a)) /\
       ab_let_go (BufqSend m) s s' t) s.
Proof.
  intros HI Hrel Hb Hty El Hq Hr Hlen. destruct (bufq_body s o b a q) as (_ & _ & Hbuf); [done..|].
  destruct (first_waiter s o b t l) as (k & Hk & Hin & Htl); [apply HI|done..|]. destruct (Hbuf t k Hk Hin) as (buf & Hmem & Hroom).
  do 3 kstep. eapply wp_deref; [apply slice_all|]. kstep. eapply store_bytes_wp; [exact Hmem|lia|].
  set (s0 := set_bytes _ s). assert (Inv0 s0) as H0.
  { eapply inv0_bytes; [apply HI|exact Hmem|]. rewrite length_app, length_drop. lia. }
  apply (wp_bind_assoc (upd_task t _) (fun _ => pend_task_wakeup t)).
  eapply (edit_wakeup_inv_wp None _ t k o b); try done; [congruence|]. intros s1 H1 Hleft. pose proof Hleft as (_ & _ & Ef).
  destruct (left_go BLK_FINISH (fun k => woken BLK_FINISH (set_bq_msg_size (Z.of_nat (length m)) k)) o s0 s1 t k) as [Hrl Ek]; [by intros ?|done|done|].
  apply exit_sched_inv; [done|]. intros s' Hre HI'. split_and!; [done|by eapply irq_resched|done|..].
  - eapply bufq_rel_resched; [exact Hre|]. eapply (bufq_rel_wait s); [done|done|by rewrite Ef|]. by eapply (left_first _ s0).
  - split_and!; [by eapply (released_resched _ s0)|..]; pose proof Hre as (ts & ? & ? & -> & Hts)%resched_eq.
    + destruct (Hts t) as [sp E]. cbn in E |- *. by rewrite E, Ek.
    + intros k0 Hk0. assert (k0 = k) as -> by congruence. exists (drop (length m) buf). rewrite Ef. cbn. apply lookup_insert_eq.
Qed.

Lemma bufq_send_spec o m aq s :
  Inv s -> bufq_rel s o aq -> bufq_pre s (BufqSend m) aq ->
  wp (krhino_buf_queue_send (Some o) (Some m) (Z.of_nat (length m)))
    (fun r => bufq_post s o (BufqSend m) (ab_run s (BufqSend m) aq) (Ret r, None)) s.
Proof.
  intros HI Hrel Hpre. pose proof Hrel as (b & Hb & Hq). unfold krhino_buf_queue_send, buf_queue_send, ab_run, ab_step.
  cbn [NULL_PARA_CHK ab_in_intrpt negb]. rewrite andb_false_r. kstep. apply wp_critical_enter. do 2 kstep. destruct aq as [a|].
  2: { rewrite bool_decide_false by done. apply wp_critical_return. by split_and!. }
  destruct Hq as (Hty & Hwt & q & Hq & Hr & Hs & Hst). rewrite bool_decide_true by done. cbn [negb]. do 2 bufq_step.
  unfold ab_send. rewrite Hs. destruct (Z.ltb_spec (max_msg_size q) (Z.of_nat (length m))) as [Ho|Ho].
  { apply wp_critical_return. rewrite irq_restore. by split_and!. }
  destruct (Z.eqb_spec (Z.of_nat (length m)) 0) as [Ez|Ez].
  { apply wp_critical_return. rewrite irq_restore. by split_and!. }
  rewrite Hwt. destruct (blk_list b) as [|t l] eqn:El.
  - eapply (bufq_put_wp o b a q m s); try done; [congruence|]. destruct Hpre as [?|[->|?]]; [done|done|lia].
  - eapply wp_mono; [eapply (bufq_hand_wp o b a q m t l (irq_off s) (set_irq_off true s)); try done; by apply inv_irq|].
    intros r s' (? & ? & -> & ? & Hgo). split_and!; try done. by apply Forall_singleton.
Qed.

Lemma bufq_recv_spec o ticks addr aq s :
  Inv s -> bufq_rel s o aq -> bufq_pre s (BufqRecv ticks addr) aq ->
  wp (krhino_buf_queue_recv (Some o) ticks (Some addr) (Some tt))
    (bufq_post s o (BufqRecv ticks addr) (ab_run s (BufqRecv ticks addr) aq)) s.
Proof.
  intros HI Hrel Hpre. pose proof Hrel as (b & Hb & Hq). unfold krhino_buf_queue_recv, ab_run, ab_step.
  cbn [NULL_PARA_CHK ab_in_intrpt negb]. kstep. apply wp_critical_enter. do 2 kstep. cbn [g_intrpt_nested_level set_irq_off].
  destruct ((0 <? g_intrpt_nested_level s) && negb (ticks =? RHINO_NO_WAIT)) eqn:Ei.
  { apply wp_critical_return. rewrite irq_restore. by split_and!. }
  do 2 kstep. destruct aq as [a|].
  2: { rewrite bool_decide_false by done. apply wp_critical_return. by split_and!. }
  destruct Hpre as (Hto & Hidle & buf & Hmem & Hroom).
  destruct Hq as (Hty & Hwt & q & Hq & Hr & Hs & Hst). rewrite bool_decide_true by done. cbn [negb].
  destruct (bufq_body s o b a q) as (Hpol & Hempty & _); [done..|]. unfold ab_recv. do 2 bufq_step.
  pose proof Hr as (Hsim & Hfix & Hn & Hall). destruct (f_msgs (ab_fifo a)) as [|m l] eqn:Em.
  - rewrite (ring_empty _ _ Hsim Em). cbn [negb]. destruct (Z.eqb_spec ticks RHINO_NO_WAIT) as [Ew|Ew].
    { apply wp_critical_return. rewrite irq_restore. by split_and!. }
    do 2 kstep. cbn [g_sched_lock set_irq_off]. destruct (Z.ltb_spec 0 (g_sched_lock s)) as [Hl|Hl].
    { apply wp_critical_return. rewrite irq_restore. by split_and!. }
    rewrite andb_true_r in Ei. apply Z.ltb_ge in Ei.
    destruct (ci_active s (i0_ci _ s (inv_0 s HI))) as (t & k & Ha & Hk). rewrite Ha. cbn [default from_option id].
    do 4 kstep. change (tasks (set_irq_off true s)) with (tasks s).
    eapply (block_edit_wp (Blocked, None) (irq_off s) o b t k (set_msg addr k) ticks _ (set_irq_off true s)); try done;
      [by apply inv_irq|congruence|congruence| |].
    { rewrite Hty. intros q0 Hq0. cbn in Hq0. assert (q0 = q) as -> by congruence. split; [done|]. exists buf. by rewrite <- Hs. }
    intros s1 s' Ef Et Eb Hre HI'. split_and!; [done|by eapply irq_resched|done| |done|constructor].
    eapply bufq_rel_resched; [exact Hre|]. eapply (bufq_rel_wait s); [done|done|by rewrite Ef|]. rewrite Eb, Hwt. apply lookup_insert_eq.
  - destruct (ring_pop _ _ m l Hsim Em) as (-> & rb & Ep & Hs'). cbn [negb]. kstep. eapply wp_deref; [exact Ep|]. cbv beta iota.
    assert (Z.of_nat (length m) <= max_msg_size q) as Hlm by (by apply Forall_cons in Hall as [? _]).
    kstep. eapply store_bytes_wp; [exact Hmem|lia|]. do 4 bufq_step. apply wp_critical_return.
    cbn [bufqs set_bufqs fmap option_fmap option_map snd]. rewrite insert_insert_eq.
    set (s0 := set_bytes _ (set_irq_off true s)). assert (Inv s0) as HI0.
    { eapply inv_bytes; [by apply inv_irq|exact Hmem|]. rewrite length_app, length_drop. lia. }
    set (q' := set_bq_cur_num _ _). cbn [fifo_step]. rewrite Em. cbn [snd].
    destruct (bufq_written s0 o b a q q' (mk_fifo (f_cap (ab_fifo a)) (f_type (ab_fifo a)) (f_blk (ab_fifo a)) l)) as [HI' Hr']; try done.
    { cbn [fifo_step snd] in Hs'. rewrite Em in Hs'. split_and!; try done; cbn [bq_cur_num q' set_bq_cur_num f_msgs].
      - cbn in Hn |- *. lia.
      - by apply Forall_cons in Hall as [_ ?]. }
    { intros Hne. specialize (Hempty Hne). congruence. }
    split_and!; try done; [by apply (inv_irq (irq_off s))|].
    intros ? ? ? [= _ <-] [= <-]. eexists. apply lookup_insert_eq.
Qed.

Lemma bufq_flush_spec o aq s :
  Inv s -> bufq_rel s o aq ->
  wp (krhino_buf_queue_flush (Some o)) (fun r => bufq_post s o BufqFlush (ab_run s BufqFlush aq) (Ret r, None)) s.
Proof.
  intros HI Hrel. pose proof Hrel as (b & Hb & Hq). unfold krhino_buf_queue_flush, ab_run, ab_step. cbn [NULL_PARA_CHK ab_in_intrpt negb].
  rewrite andb_true_r. apply (obj_call_wp id o b); [done|..].
  - intros Hn. rewrite (proj2 (Z.ltb_lt _ _) Hn). by split_and!.
  - intros Hn Hty. rewrite (proj2 (Z.ltb_ge _ _) Hn). destruct aq as [a|]; [by destruct Hq|]. by split_and!.
  - intros Hn Hty. rewrite (proj2 (Z.ltb_ge _ _) Hn). destruct aq as [a|]; [|done].
    destruct Hq as (_ & Hwt & q & Hq & Hr & Hs & Hst). do 8 bufq_step. apply wp_critical_return.
    cbn [bufqs set_bufqs]. rewrite !insert_insert_eq. set (q' := set_min_free_buf_size _ _).
    destruct (bufq_written (set_irq_off true s) o b a q q' (snd (fifo_step (ab_fifo a) OpReset))) as [HI' Hr']; try done.
    { by apply inv_irq. }
    { destruct Hr as (Hsim & Hfix & _ & _). destruct (rb_step_sim _ _ OpReset Hsim) as (r' & E & Hs'). cbn in E. injection E as <-.
      by split_and!; cbn. }
    split_and!; try done. by apply (inv_irq (irq_off s)).
Qed.

Lemma bufq_del_spec o aq s :
  Inv s -> bufq_rel s o aq ->
  wp (krhino_buf_queue_del (Some o)) (fun r => bufq_post s o BufqDel (ab_run s BufqDel aq) (Ret r, None)) s.
Proof.
  intros HI Hrel. pose proof Hrel as (b & Hb & Hq). unfold krhino_buf_queue_del, ab_run, ab_step. cbn [NULL_PARA_CHK ab_in_intrpt negb].
  rewrite andb_true_r. apply (obj_call_wp id o b); [done|..].
  - intros Hn. rewrite (proj2 (Z.ltb_lt _ _) Hn). by split_and!.
  - intros Hn Hty. rewrite (proj2 (Z.ltb_ge _ _) Hn). destruct aq as [a|]; [by destruct Hq|]. by split_and!.
  - intros Hn Hty. rewrite (proj2 (Z.ltb_ge _ _) Hn). destruct aq as [a|]; [|done].
    destruct Hq as (_ & Hwt & q & Hq & Hr & Hs & Hst). destruct (bufq_body s o b a q) as (Hpol & _ & _); [done..|].
    unfold ab_del. rewrite Hst. do 2 bufq_step. destruct (bq_mm_flag q =? K_OBJ_STATIC_ALLOC) eqn:Efl; cbn [negb].
    2: { apply wp_critical_return. rewrite irq_restore. by split_and!. }
    apply (del_drain_wp o b); [apply inv0_irq, HI|done|congruence|done|]. intros s1 H1 Ef Eb Hgo.
    assert (bufqs s1 !! o = Some q) as Hq1 by (by rewrite Ef). kstep. eapply wp_upd_bufq; [exact Hq1|].
    apply exit_sched_inv.
    { eapply (inv0_dead s1 _ o); [done|done|by split; cbn; auto using lookup_insert_other|rewrite Eb; apply lookup_insert_eq|done]. }
    intros s' Hre HI'. split_and!; [done|by eapply irq_resched|done| |done|].
    + eapply bufq_rel_resched; [exact Hre|]. eexists. split; [cbn; rewrite Eb; apply lookup_insert_eq|done].
    + cbn [br_released]. rewrite Hwt. eapply Forall_impl; [exact Hgo|]. intros u Hu. cbn.
      eapply (released_resched _ s); [|exact Hre]. exact Hu.
Qed.

(** Every object has an abstraction, a buffer queue or not. *)
Lemma bufq_rel_exists s o : Inv s -> is_Some (blks s !! o) -> exists aq, bufq_rel s o aq.
Proof.
  intros HI [b Hb]. destruct (decide (obj_type b = RHINO_BUF_QUEUE_OBJ_TYPE)) as [E|E]; [|by exists None, b].
  destruct (i0_objs _ s (inv_0 s HI) o ltac:(done) b Hb) as (_ & Hbody & _). rewrite E in Hbody.
  destruct Hbody as (q & f & Hq & Hr). exists (Some (mk_abufq f (max_msg_size q) (blk_list b) (bq_mm_flag q =? K_OBJ_STATIC_ALLOC))), b.
  split; [done|]. split_and!; try done. by exists q.
Qed.

(** Every buffer queue call. *)
Lemma bufq_call_spec o op s :
  Inv s -> is_Some (blks s !! o) ->
  (exists aq, bufq_rel s o aq) /\
  forall aq, bufq_rel s o aq -> bufq_pre s op aq -> wp (bufq_exec o op) (bufq_post s o op (ab_run s op aq)) s.
Proof.
  intros HI Hb. split; [by apply bufq_rel_exists|]. intros aq Hq Hpre. destruct op as [m|ticks addr| |]; cbn [bufq_exec].
  - kstep. eapply wp_mono; [by apply (bufq_send_spec o m aq)|done].
  - by apply bufq_recv_spec.
  - kstep. eapply wp_mono; [by apply (bufq_flush_spec o aq)|done].
  - kstep. eapply wp_mono; [by apply (bufq_del_spec o aq)|done].
Qed.

(** C9: a kernel buffer queue refines a bounded FIFO of byte strings with
    waiting receivers: from any state satisfying the kernel invariant there is
    such a queue, and sending (into the ring, or straight into the buffer of the
    first receiver), receiving, flushing and deleting return the abstract status
    and size, copy exactly the message sent into the receiver's buffer, leave the
    abstract queue, let go exactly the abstract tasks, touch no byte outside the
    buffers, restore the interrupt mask and keep the invariant. *)
Theorem bufq_refines_message_fifo o op s :
  Inv s -> is_Some (blks s !! o) ->
  (exists aq, bufq_rel s o aq) /\
  forall aq, bufq_rel s o aq -> bufq_pre s op aq -> wp (bufq_exec o op) (bufq_post s o op (ab_run s op aq)) s.
Proof. apply bufq_call_spec. Qed.

End bufq.

Lemma bufq_refines_message_fifo_witness :
  let d := demo_with (NewBufQueue (0, replicate 16 0) 16 8) in
  let aq := Some (mk_abufq (mk_fifo 16 RINGBUF_TYPE_DYN 8 []) 8 [] true) in
  Inv d /\ bufq_rel d 1%nat aq /\ bufq_pre d (BufqSend [1; 2; 3]) aq /\
  ab_run d (BufqSend [1; 2; 3]) aq =
    ab_stay RHINO_SUCCESS None (Some (mk_abufq (mk_fifo 16 RINGBUF_TYPE_DYN 8 [[1; 2; 3]]) 8 [] true)) /\
  wp (bufq_exec 1%nat (BufqSend [1; 2; 3])) (bufq_post d 1%nat (BufqSend [1; 2; 3]) (ab_run d (BufqSend [1; 2; 3]) aq)) d.
Proof.
  intros d aq. destruct (demo_with_inv (NewBufQueue (0, replicate 16 0) 16 8)) as [HI (q & Hq & Hs & Hr)]; [by vm_compute|].
  assert (bufq_rel d 1%nat aq) as Hrel.
  { eexists. split; [by vm_compute|]. split_and!; [done..|]. exists q. split_and!; [exact Hq|exact Hr|by rewrite Hs|].
    pose proof (f_equal (fmap bq_mm_flag) Hq) as E. vm_compute in E. injection E as E.
    symmetry. apply Z.eqb_eq. symmetry. exact E. }
  assert (bufq_pre d (BufqSend [1; 2; 3]) aq) as Hpre by (left; by vm_compute).
  split_and!; [exact HI|exact Hrel|exact Hpre|by vm_compute|].
  apply (bufq_refines_message_fifo 1%nat (BufqSend [1; 2; 3]) d); [exact HI|by eexists; vm_compute|exact Hrel|exact Hpre].
Defined.
