(* ===== verification/SchedSpec.v ===== *)
(** * Scheduling, interrupts and round robin

    What the scheduler calls do to a state that satisfies the kernel invariant:
    locking and unlocking, yielding, entering and leaving interrupts, and the
    time slices of tasks of equal priority. *)

From S2P Require Import Prelude KErr RingBuf KState KMonad Sched Pend KInv Mutex PriInv Sem Event Queue Inv Moves Task KSys Boot.
Local Open Scope Z_scope.

(** ** Rotating a ring *)

Lemma wf_rq_perm s rq' :
  WF s -> rq_ok rq' -> (forall p, rql rq' p ≡ₚ rql (g_ready_queue s) p) -> WF (set_g_ready_queue rq' s).
Proof.
  intros [? Hr ? ? Hk] Hok Hp. split; try done.
  - intros p. cbn. destruct (Hr p) as [Hnd Hin]. split; [by rewrite Hp|]. intros t. rewrite Hp. apply Hin.
  - intros t k Ht. by eapply task_ok_dom; [|apply (Hk t)].
Qed.

Lemma head_to_tail_wp t k x l (Q : unit -> kstate -> Prop) s :
  rq_ok (g_ready_queue s) -> tasks s !! t = Some k -> rql (g_ready_queue s) (prio k) = x :: l ->
  (forall rq', rq_ok rq' ->
     (forall p, rql rq' p = if decide (p = prio k) then l ++ [x] else rql (g_ready_queue s) p) ->
     Q tt (set_g_ready_queue rq' s)) ->
  wp (ready_list_head_to_tail t) Q s.
Proof.
  intros Hok Hk El HQ. unfold ready_list_head_to_tail. ksteps.
  assert (0 <= prio k < RHINO_CONFIG_PRI_MAX) as Hp by (apply (rql_range (g_ready_queue s)); [done|by rewrite El]).
  apply cur_item_wp; [done..|]. rewrite El. apply cur_item_set_wp; [apply Hok|done|]. intros cl Hcl Hrql.
  apply HQ; [|exact Hrql]. eapply rq_ok_ring; [done..|by rewrite El|by destruct l].
Qed.

Section sched.
Context `{CpuPort}.

Lemma inv0_rq x s rq' :
  Inv0x x s -> rq_ok rq' -> (forall p, rql rq' p ≡ₚ rql (g_ready_queue s) p) -> Inv0x x (set_g_ready_queue rq' s).
Proof.
  intros [HC HO HL ? ? ?] Hok Hp. pose proof HC as [Hwf Hmi [] ? ?]. split; try done.
  - split; [by apply wf_rq_perm|by eapply (me_MI s); [apply mi_same|]|by split|done|done].
Qed.

Lemma inv0_lock x n s :
  Inv0x x s -> 0 <= n <= SCHED_MAX_LOCK_COUNT ->
  (n <> 0 -> exists a ka, g_active_task s = Some a /\ tasks s !! a = Some ka /\ task_state ka = K_RDY) ->
  Inv0x x (set_g_sched_lock n s).
Proof.
  intros [HC HO HL ? ? ?] Hn Ha. split; try done.
  - apply (ci_same s); [reflexivity..|apply HC|done].
Qed.

Lemma inv0_nested x n s : Inv0x x s -> fits 8 n -> Inv0x x (set_g_intrpt_nested_level n s).
Proof.
  intros [HC HO HL ? ? ?] Hn. split; try done.
  - apply (ci_same s); [reflexivity..|apply HC|done].
Qed.

(** ** Locking the scheduler *)

Lemma locked_postponed s : 0 < g_sched_lock s -> postponed s = true.
Proof. intros Hl. unfold postponed. by rewrite (proj2 (Z.ltb_lt _ _) Hl), orb_true_r. Qed.

Lemma nested_postponed s : 0 < g_intrpt_nested_level s -> postponed s = true.
Proof. intros Hl. unfold postponed. by rewrite (proj2 (Z.ltb_lt _ _) Hl). Qed.

Lemma sched_disable_spec s :
  Inv s ->
  wp krhino_sched_disable (fun r s' => Inv s' /\
    if 0 <? g_intrpt_nested_level s then r = RHINO_NOT_CALLED_BY_INTRPT /\ s' = s
    else if g_sched_lock s =? SCHED_MAX_LOCK_COUNT then r = RHINO_SCHED_LOCK_COUNT_OVF /\ s' = s
    else r = RHINO_SUCCESS /\ s' = set_g_sched_lock (g_sched_lock s + 1) s) s.
Proof.
  intros HI. pose proof (inv_0 s HI) as H0. pose proof (i0_lock_range _ s H0) as Hlr.
  unfold krhino_sched_disable. kstep. apply wp_critical_enter, wp_nested_chk; cbn [g_intrpt_nested_level set_irq_off].
  { intros Hn. rewrite (proj2 (Z.ltb_lt _ _)) by done. done. }
  intros Hn. rewrite (proj2 (Z.ltb_ge _ _)) by done. ksteps. cbn [g_sched_lock set_irq_off].
  destruct (Z.leb_spec SCHED_MAX_LOCK_COUNT (g_sched_lock s)).
  - rewrite (proj2 (Z.eqb_eq _ _)) by lia. done.
  - rewrite (proj2 (Z.eqb_neq _ _)) by lia. unfold RHINO_CRITICAL_EXIT, RHINO_CPU_INTRPT_ENABLE. ksteps.
    unfold u8. rewrite wrap_small by (unfold SCHED_MAX_LOCK_COUNT in *; lia). split; [|done]. split.
    + apply (inv0_lock None (g_sched_lock s + 1) s); [done|lia|]. intros _. apply inv_active; [done|]. pose proof (i0_nest _ s H0) as []. lia.
    + rewrite locked_postponed by (cbn; lia). done.
Qed.

Lemma sched_enable_spec s :
  Inv s ->
  wp krhino_sched_enable (fun r s' => Inv s' /\
    if 0 <? g_intrpt_nested_level s then r = RHINO_NOT_CALLED_BY_INTRPT /\ s' = s
    else if g_sched_lock s =? 0 then r = RHINO_SCHED_ALREADY_ENABLED /\ s' = s
    else if g_sched_lock s =? 1 then r = RHINO_SUCCESS /\ resched (set_g_sched_lock 0 s) s'
    else r = RHINO_SCHED_DISABLE /\ s' = set_g_sched_lock (g_sched_lock s - 1) s) s.
Proof.
  intros HI. pose proof (inv_0 s HI) as H0. pose proof (i0_lock_range _ s H0) as Hlr.
  unfold krhino_sched_enable. kstep. apply wp_critical_enter, wp_nested_chk; cbn [g_intrpt_nested_level set_irq_off].
  { intros Hn. rewrite (proj2 (Z.ltb_lt _ _)) by done. done. }
  intros Hn. rewrite (proj2 (Z.ltb_ge _ _)) by done. ksteps. cbn [g_sched_lock set_irq_off].
  destruct (Z.eqb_spec (g_sched_lock s) 0) as [E|E]; [done|]. ksteps. cbn [g_sched_lock set_g_sched_lock].
  unfold u8. rewrite wrap_small by (unfold SCHED_MAX_LOCK_COUNT in *; lia).
  destruct (Z.eqb_spec (g_sched_lock s) 1) as [E1|E1].
  - rewrite E1. apply (exit_sched_inv (irq_off s) RHINO_SUCCESS _ (set_g_sched_lock 0 (set_irq_off true s))).
    + by apply inv0_lock; [apply inv0_irq|unfold SCHED_MAX_LOCK_COUNT; lia|].
    + intros s' Hre HI'. done.
  - rewrite (proj2 (Z.ltb_lt 0 _)) by lia. apply wp_critical_return. split; [|done]. split.
    + apply (inv0_lock None (g_sched_lock s - 1) s); [done|lia|]. intros _. by apply (i0_lock _ s H0).
    + rewrite locked_postponed by (cbn; lia). done.
Qed.

(** ** Yielding *)

Lemma rotate_perm {A} (x : A) l : l ++ [x] ≡ₚ x :: l.
Proof. symmetry. apply Permutation_cons_append. Qed.

Lemma ready_ring s t k :
  WF s -> tasks s !! t = Some k -> task_state k = K_RDY -> exists x l, rql (g_ready_queue s) (prio k) = x :: l.
Proof.
  intros Hwf Hk Hr. assert (t ∈ rql (g_ready_queue s) (prio k)) as Hin by (by eapply list_ok_in; [apply (wf_ready s Hwf)|..]).
  destruct (rql (g_ready_queue s) (prio k)) as [|x l]; [set_solver|eauto].
Qed.

(** The ring of priority [p] rotated by one. *)
Definition rotated (p : Z) (rq rq' : runqueue_t) : Prop :=
  forall q, rql rq' q = if decide (q = p) then drop 1 (rql rq q) ++ take 1 (rql rq q) else rql rq q.

Lemma rotated_perm p rq rq' q : rotated p rq rq' -> rql rq' q ≡ₚ rql rq q.
Proof.
  intros Hr. rewrite Hr. destruct (decide (q = p)); [|done]. rewrite Permutation_app_comm. by rewrite take_drop.
Qed.

Lemma rotate_wp t k (Q : unit -> kstate -> Prop) s :
  WF s -> tasks s !! t = Some k -> (exists x l, rql (g_ready_queue s) (prio k) = x :: l) ->
  (forall rq', rq_ok rq' -> rotated (prio k) (g_ready_queue s) rq' -> Q tt (set_g_ready_queue rq' s)) ->
  wp (ready_list_head_to_tail t) Q s.
Proof.
  intros Hwf Hk (x & l & El) HQ. eapply head_to_tail_wp; [apply Hwf|done..|]. intros rq' Hok Hrq. apply HQ; [done|].
  intros q. rewrite Hrq. destruct (decide (q = prio k)) as [->|]; [|done]. by rewrite El.
Qed.

Lemma task_yield_spec s :
  Inv s -> g_intrpt_nested_level s = 0 ->
  wp krhino_task_yield (fun r s' => Inv s' /\ r = RHINO_SUCCESS /\ irq_off s' = irq_off s /\
    exists a ka rq', g_active_task s = Some a /\ tasks s !! a = Some ka /\ rotated (prio ka) (g_ready_queue s) rq' /\
      resched (set_g_ready_queue rq' s) s') s.
Proof.
  intros HI Hn. pose proof (inv_0 s HI) as H0. pose proof (ci_wf s (i0_ci _ s H0)) as Hwf.
  destruct (inv_active s HI Hn) as (a & ka & Ha & Hka & Hr).
  unfold krhino_task_yield. kstep. apply wp_critical_enter. do 3 kstep.
  apply (rotate_wp a ka); [by apply (wf_same s)|done|by apply (ready_ring s a)|]. intros rq' Hok Hrot.
  apply exit_sched_inv; [apply inv0_rq; [by apply inv0_irq|done|intros p; by eapply rotated_perm]|].
  intros s' Hre HI'. split_and!; [done..|by eapply irq_resched|]. by exists a, ka, rq'.
Qed.

(** ** Interrupts *)

Lemma intrpt_enter_spec s :
  Inv s -> g_intrpt_nested_level s < 255 ->
  wp krhino_intrpt_enter (fun r s' => Inv s' /\ r = RHINO_SUCCESS /\
    s' = set_g_intrpt_nested_level (g_intrpt_nested_level s + 1) s) s.
Proof.
  intros HI Hn. pose proof (inv_0 s HI) as H0. pose proof (i0_nest _ s H0) as [Hn0 _].
  unfold krhino_intrpt_enter, RHINO_CPU_INTRPT_DISABLE, RHINO_CPU_INTRPT_ENABLE. ksteps.
  cbn [g_intrpt_nested_level set_irq_off]. unfold u8. rewrite wrap_small by lia. split_and!; [|done..]. split.
  - apply (inv0_nested None (g_intrpt_nested_level s + 1) s); [done|]. unfold fits. lia.
  - rewrite nested_postponed by (cbn; lia). done.
Qed.

(** Leaving the outermost interrupt reschedules. *)
Lemma intrpt_exit_spec s :
  Inv s -> 0 < g_intrpt_nested_level s ->
  wp krhino_intrpt_exit (fun _ s' => Inv s' /\ irq_off s' = irq_off s /\
    g_intrpt_nested_level s' = g_intrpt_nested_level s - 1 /\
    resched (set_g_intrpt_nested_level (g_intrpt_nested_level s - 1) s) s') s.
Proof.
  intros HI Hn. pose proof (inv_0 s HI) as H0. pose proof (i0_nest _ s H0) as [_ Hn1]. change (2 ^ 8) with 256 in Hn1.
  assert (Inv0 (set_g_intrpt_nested_level (g_intrpt_nested_level s - 1) s)) as H1
    by (apply inv0_nested; [done|unfold fits; lia]).
  set (s1 := set_g_intrpt_nested_level (g_intrpt_nested_level s - 1) s) in *.
  assert (forall s', resched s1 s' -> Inv s' /\ irq_off s' = irq_off s /\
    g_intrpt_nested_level s' = g_intrpt_nested_level s - 1 /\ resched s1 s') as HQ.
  { intros s' Hre. split_and!; [by eapply resched_inv|by apply (irq_resched s1 s' (irq_off s))| |done].
    by destruct (resched_eq _ _ Hre) as (ts & a & p & -> & _). }
  assert (postponed s1 = true -> resched s1 s1) as Hpo by (unfold resched; by intros ->).
  unfold krhino_intrpt_exit, RHINO_CPU_INTRPT_DISABLE, RHINO_CPU_INTRPT_ENABLE. ksteps.
  cbn [g_intrpt_nested_level set_irq_off set_g_intrpt_nested_level]. unfold u8. rewrite wrap_small by lia.
  destruct (0 <? g_intrpt_nested_level s - 1) eqn:E1;
    [kstep; apply HQ, Hpo; unfold postponed, s1; cbn [g_intrpt_nested_level set_g_intrpt_nested_level]; by rewrite E1|]. ksteps.
  destruct (0 <? g_sched_lock _) eqn:E2; cbn in E2;
    [kstep; apply HQ, Hpo, locked_postponed; zbool; by cbn|].
  assert (postponed s1 = false) as Hnp
    by (unfold postponed, s1; cbn [g_intrpt_nested_level g_sched_lock set_g_intrpt_nested_level]; by rewrite E1, E2).
  kstep. apply preferred_get_wp; [apply (ci_irq true s1), H1|]. ksteps. case_decide as Ha.
  - kstep. apply HQ. exact (stay_resched s1 Hnp Ha).
  - kstep. match goal with |- wp cpu_intrpt_switch _ ?x => destruct (cpu_intrpt_switch_spec x) as [sp E] end.
    apply wp_iff. eexists _, _. split; [exact E|]. kstep. apply HQ. exact (switch_resched s1 sp Hnp).
Qed.

(** ** Time slices *)

(** What one tick does to the ring of the active task. *)
Definition sliced (s s' : kstate) : Prop := exists a ka, g_active_task s = Some a /\ tasks s !! a = Some ka /\
  match rql (g_ready_queue s) (prio ka) with
  | t :: _ :: _ => exists k, tasks s !! t = Some k /\
      let n := if 0 <? time_slice k then u32 (time_slice k - 1) else time_slice k in
      if sched_policy k =? KSCHED_FIFO then s' = s
      else if 0 <? n then s' = set_tasks (<[t := set_time_slice n k]> (tasks s)) s
      else exists rq', rotated (prio ka) (g_ready_queue s) rq' /\ rq_ok rq' /\
        s' = set_g_ready_queue rq' (set_tasks (<[t := set_time_slice (time_total k) k]> (tasks s)) s)
  | _ => s' = s
  end.

Lemma time_slice_inv x s s' : Inv0x x s -> sliced s s' -> Inv0x x s'.
Proof.
  intros H0 (a & ka & Ha & Hka & Hs). destruct (rql _ _) as [|t [|u l]] eqn:El; [by subst..|].
  destruct Hs as (k & Hk & Hs). cbv zeta in Hs. set (n := if 0 <? time_slice k then _ else _) in Hs.
  destruct (sched_policy k =? KSCHED_FIFO); [by subst|]. destruct (0 <? n); [subst s'; by eapply inv0_kproj|].
  destruct Hs as (rq' & Hrot & Hok & ->). apply inv0_rq; [by eapply inv0_kproj|done|]. intros q. cbn. by eapply rotated_perm.
Qed.

Lemma time_slice_update_wp x (Q : unit -> kstate -> Prop) s :
  Inv0x x s -> (forall s', sliced s s' -> Q tt s') -> wp time_slice_update Q s.
Proof.
  intros H0 HQ. pose proof (ci_wf s (i0_ci _ s H0)) as Hwf. destruct (inv0_active x s H0) as (a & ka & Ha & Hka).
  assert (0 <= prio ka < RHINO_CONFIG_PRI_MAX) as Hp by (apply (to_prio _ _ (wf_task s Hwf a ka Hka))).
  unfold time_slice_update, is_ready_list_empty, RHINO_CRITICAL_EXIT, RHINO_CPU_INTRPT_ENABLE. kstep.
  apply wp_critical_enter. ksteps. apply cur_item_wp; [apply Hwf|done|]. ksteps. cbn [g_ready_queue set_irq_off].
  assert (match rql (g_ready_queue s) (prio ka) with _ :: _ :: _ => False | _ => True end -> Q tt s) as Hsame.
  { intros Hsh. apply HQ. exists a, ka. split_and!; [done..|]. by destruct (rql _ _) as [|t [|u l]]. }
  destruct (rql (g_ready_queue s) (prio ka)) as [|t rest] eqn:El; [rewrite bool_decide_true by done; kstep; by apply Hsame|].
  rewrite bool_decide_false by done. kstep. apply cur_item_wp; [apply Hwf|done|]. cbn [g_ready_queue set_irq_off].
  rewrite El. assert (t ∈ rql (g_ready_queue s) (prio ka)) as Hin by (rewrite El; set_solver).
  apply (proj2 (wf_ready s Hwf _)) in Hin as (k & Hk & Hr & Epr). ksteps.
  assert (forall s', (exists u l, rest = u :: l) -> (let n := if 0 <? time_slice k then u32 (time_slice k - 1) else time_slice k in
      if sched_policy k =? KSCHED_FIFO then s' = s
      else if 0 <? n then s' = set_tasks (<[t := set_time_slice n k]> (tasks s)) s
      else exists rq', rotated (prio ka) (g_ready_queue s) rq' /\ rq_ok rq' /\
        s' = set_g_ready_queue rq' (set_tasks (<[t := set_time_slice (time_total k) k]> (tasks s)) s)) -> Q tt s') as HQ'.
  { intros s' (u & l & ->) Hs'. apply HQ. exists a, ka. rewrite El. split_and!; [done..|]. by exists k. }
  destruct rest as [|u l]; [destruct (sched_policy k =? KSCHED_FIFO); [|rewrite decide_True by done]; kstep; by apply Hsame|].
  cbv zeta in HQ'. destruct (sched_policy k =? KSCHED_FIFO); [kstep; apply HQ'; eauto|]. rewrite decide_False by done.
  set (n := if 0 <? time_slice k then u32 (time_slice k - 1) else time_slice k) in *. kstep.
  apply (wp_mono _ (fun _ s1 => s1 = set_tasks (<[t := set_time_slice n k]> (tasks s)) (set_irq_off true s))).
  { unfold n. destruct (0 <? time_slice k); kstep; [done|]. cbn. by rewrite insert_id. }
  intros [] s1 ->. do 2 kstep. cbn [time_slice set_time_slice]. destruct (0 <? n); [kstep; apply HQ'; eauto|]. kstep.
  assert (WF (set_tasks (<[t := set_time_slice n k]> (tasks s)) (set_irq_off true s))) as Hwf1 by (eapply (wf_kproj (set_irq_off true s)); [by apply (wf_same s)|done|done]).
  eapply rotate_wp; [exact Hwf1|klookup|exists t, (u :: l); cbn; congruence|]. cbn [prio set_time_slice g_ready_queue set_tasks set_irq_off].
  rewrite Epr. intros rq' Hok Hrot. ksteps. apply HQ'; [by eauto|]. exists rq'. split_and!; [done..|].
  cbn. by rewrite insert_insert_eq.
Qed.

End sched.

(** ** Round robin

    A ring as the tasks in it, each with what is left of its slice and its full
    slice.  When every member is scheduled round robin, a tick either uses up
    part of the slice of the head or moves the head to the end. *)

Definition slot : Type := tid * Z * Z.

Definition rr_slot (s : kstate) (t : tid) : slot :=
  match tasks s !! t with Some k => (t, time_slice k, time_total k) | None => (t, 0, 0) end.

Definition rr_ring (s : kstate) (p : Z) : list slot := rr_slot s <$> rql (g_ready_queue s) p.

Definition rr_tick (l : list slot) : list slot :=
  match l with
  | (t, n, c) :: y :: rest => if 1 <? n then (t, n - 1, c) :: y :: rest else y :: rest ++ [(t, c, c)]
  | _ => l
  end.

Definition full (x : slot) : Prop := x.1.2 = x.2 /\ 1 <= x.2 < 2 ^ 32.

Definition slots_total (l : list slot) : nat := foldr (fun x n => (Z.to_nat x.2 + n)%nat) 0%nat l.

Lemma rr_turn_part t n c rest :
  rest <> [] -> (1 <= n)%nat -> Nat.iter n rr_tick ((t, Z.of_nat n, c) :: rest) = rest ++ [(t, c, c)].
Proof.
  intros Hne. induction n as [|[|n] IH]; intros Hn; [lia|destruct rest; [congruence|reflexivity]|].
  rewrite Nat.iter_succ_r. destruct rest as [|y rest]; [done|]. cbn [rr_tick].
  rewrite (proj2 (Z.ltb_lt _ _)) by lia. replace (Z.of_nat (S (S n)) - 1) with (Z.of_nat (S n)) by lia. apply IH. lia.
Qed.

(** After the slices of the tasks ahead of it, every task has its turn. *)
Lemma rr_round l1 l2 :
  Forall full l1 -> (2 <= length (l1 ++ l2))%nat -> Nat.iter (slots_total l1) rr_tick (l1 ++ l2) = l2 ++ l1.
Proof.
  revert l2. induction l1 as [|[[t n] c] l1 IH]; intros l2 Hf Hlen; [by rewrite app_nil_r|].
  apply Forall_cons in Hf as [[E Hc] Hf]. cbn in E, Hc, Hlen. subst n. cbn [slots_total foldr snd].
  rewrite Nat.add_comm, Nat.iter_add. fold (slots_total l1).
  transitivity (Nat.iter (slots_total l1) rr_tick (l1 ++ (l2 ++ [(t, c, c)]))).
  - f_equal. rewrite <- app_comm_cons, (assoc_L (++)).
    etransitivity; [|apply (rr_turn_part t (Z.to_nat c) c (l1 ++ l2)); [|lia]]; [by rewrite Z2Nat.id by lia|].
    intros Hnil. rewrite Hnil in Hlen. cbn in Hlen. lia.
  - rewrite IH; [by rewrite <- (assoc_L (++))|done|]. rewrite !length_app in *. cbn. lia.
Qed.

Definition all_rr (s : kstate) (p : Z) : Prop :=
  forall t k, t ∈ rql (g_ready_queue s) p -> tasks s !! t = Some k -> sched_policy k = KSCHED_RR.

Lemma rr_slot_ne s s' t k' (l : list tid) : tasks s' = <[t := k']> (tasks s) -> t ∉ l -> rr_slot s' <$> l = rr_slot s <$> l.
Proof.
  intros Et Hl. apply list_fmap_ext. intros i u Hu. unfold rr_slot. rewrite Et, lookup_insert_ne; [done|].
  intros ->. apply Hl. by eapply list_elem_of_lookup_2.
Qed.

Lemma sliced_ring s s' a ka :
  WF s -> sliced s s' -> g_active_task s = Some a -> tasks s !! a = Some ka -> all_rr s (prio ka) ->
  Forall (fun x => fits 32 x.1.2) (rr_ring s (prio ka)) ->
  rr_ring s' (prio ka) = rr_tick (rr_ring s (prio ka)).
Proof.
  intros Hwf (a0 & ka0 & Ha0 & Hka0 & Hs) Ha Hka Hrr Hfit. assert (a0 = a) as -> by congruence. assert (ka0 = ka) as -> by congruence.
  unfold rr_ring in *. destruct (rql (g_ready_queue s) (prio ka)) as [|t [|u l]] eqn:El.
  1: subst s'; by rewrite El. 1: subst s'; rewrite El; cbn; by destruct (rr_slot s t) as [[??]?].
  destruct Hs as (k & Hk & Hs). pose proof (proj1 (wf_ready s Hwf (prio ka))) as Hnd. rewrite El in Hnd.
  apply NoDup_cons in Hnd as [Ht _]. rewrite (Hrr t k) in Hs by (try done; rewrite El; set_solver).
  apply Forall_cons in Hfit as [Hfit _]. cbn [fmap list_fmap] in *. unfold rr_slot at 1 in Hfit. rewrite Hk in Hfit. cbn in Hfit.
  unfold fits in Hfit. replace (rr_slot s t) with (t, time_slice k, time_total k) by (unfold rr_slot; by rewrite Hk).
  cbn [rr_tick]. cbv zeta in Hs. set (n := if 0 <? time_slice k then _ else _) in Hs. change (KSCHED_RR =? KSCHED_FIFO) with false in Hs.
  assert (n = Z.max 0 (time_slice k - 1)) as En.
  { unfold n. destruct (Z.ltb_spec 0 (time_slice k)); [|lia]. unfold u32. rewrite wrap_small by lia. lia. }
  destruct (Z.ltb_spec 1 (time_slice k)).
  - rewrite (proj2 (Z.ltb_lt 0 n)) in Hs by lia. subst s'. cbn [g_ready_queue set_tasks]. rewrite El.
    set (s1 := set_tasks _ s). transitivity (rr_slot s1 t :: (rr_slot s1 <$> u :: l)); [done|].
    rewrite (rr_slot_ne s s1 t (set_time_slice n k) (u :: l)) by done.
    f_equal. unfold rr_slot, s1. cbn [tasks set_tasks]. rewrite lookup_insert_eq. cbn. do 2 f_equal. lia.
  - rewrite (proj2 (Z.ltb_ge 0 n)) in Hs by lia. destruct Hs as (rq' & Hrot & _ & ->). cbn [g_ready_queue set_g_ready_queue].
    rewrite Hrot, decide_True, El by done. cbn [drop take]. rewrite fmap_app. set (s1 := set_g_ready_queue _ _).
    rewrite (rr_slot_ne s s1 t (set_time_slice (time_total k) k) (u :: l)) by done. f_equal.
    cbn. unfold rr_slot, s1. cbn. by rewrite lookup_insert_eq.
Qed.
