(* ===== verification/Timeout.v ===== *)
(** * Leaving a wait early

    A task taken off its wait list by a timeout, an abort or its deletion, not by
    the object it waits for.  If that object is a mutex, its owner may have run
    at the priority of the task and is recomputed. *)

From S2P Require Import Prelude KErr RingBuf KState KMonad Sched Pend KInv Mutex PriInv Sem Event Queue Inv Moves Task KSys Boot Handover.
Local Open Scope Z_scope.

(** ** Inheritance without one waiter *)

Section unwait.
Context (s s1 : kstate) (t : tid) (k k' : ktask_t).
Context (Hk : tasks s !! t = Some k) (Ht : tasks s1 = <[t := k']> (tasks s)) (Hm : mutexes s1 = mutexes s).
Context (Hty : blk_types (blks s1) = blk_types (blks s)).
Context (Ep : prio k' = prio k) (Eb : b_prio k' = b_prio k) (El : live k' -> mutex_list k' = mutex_list k) (Hnp : ~ pending k').
Context (Hlk : live k) (Hlv : live k' \/ forall o, ~ owned s o t).

Lemma unwait_task u k1 : tasks s1 !! u = Some k1 -> exists k0, tasks s !! u = Some k0 /\
  prio k1 = prio k0 /\ b_prio k1 = b_prio k0 /\ (live k1 -> mutex_list k1 = mutex_list k0) /\ (live k1 -> live k0) /\ (u <> t -> k1 = k0).
Proof. rewrite Ht, lookup_insert_Some. intros [[<- <-]|[? ?]]; [exists k|exists k1]; naive_solver. Qed.

Lemma unwait_task_fwd u k0 : tasks s !! u = Some k0 -> tasks s1 !! u = Some (if decide (u = t) then k' else k0).
Proof. intros Hu. rewrite Ht. destruct (decide (u = t)) as [->|]; [apply lookup_insert_eq|by rewrite lookup_insert_ne]. Qed.

Lemma unwait_waits w o : waits s1 w o <-> waits s w o /\ w <> t.
Proof.
  unfold waits. rewrite (is_mutex_types s s1 o Hty). split.
  - intros [Hmu (k1 & Hk1 & Hin)]. destruct (unwait_task w k1 Hk1) as (k0 & Hk0 & _ & _ & _ & _ & E).
    assert (w <> t) as Hw by (intros ->; rewrite Ht, lookup_insert_eq in Hk1; injection Hk1 as <-; by destruct Hin).
    split; [|done]. split; [done|]. exists k0. split; [done|]. by rewrite <- (E Hw).
  - intros [[Hmu (k0 & Hk0 & Hin)] Hw]. split; [done|]. exists k0. split; [|done]. by rewrite (unwait_task_fwd w k0 Hk0), decide_False.
Qed.

Lemma unwait_owned o u : owned s1 o u <-> owned s o u.
Proof. unfold owned. by rewrite (is_mutex_types s s1 o Hty), Hm. Qed.

Lemma unwait_prio_of u : prio_of (tasks s1) u = prio_of (tasks s) u.
Proof.
  rewrite Ht. destruct (decide (u = t)) as [->|]; [|by apply prio_of_insert_ne].
  by rewrite prio_of_insert, (prio_of_Some _ _ _ Hk).
Qed.

Lemma unwait_base : MIbase s -> MIbase s1.
Proof.
  intros [Hc Ho Hw Hmu]. split.
  - intros u k1 Hk1 Hl. destruct (unwait_task u k1 Hk1) as (k0 & Hk0 & _ & _ & El0 & Hl0 & _). rewrite Hm, (El0 Hl).
    destruct (Hc u k0 Hk0 (Hl0 Hl)) as (l & ? & ? & Hin). exists l. split_and!; [done..|]. intros o. by rewrite unwait_owned.
  - intros o u Hou%unwait_owned. destruct (Ho o u Hou) as (? & k0 & Hk0 & Hl). split; [done|].
    eexists. split; [by apply unwait_task_fwd|]. destruct (decide (u = t)) as [->|]; [|done].
    destruct Hlv as [?|Hno]; [done|]. by destruct (Hno o).
  - intros w o [Hwo Hne]%unwait_waits. destruct (Hw w o Hwo) as (u & ? & ?). exists u. by rewrite unwait_owned.
  - intros o b Hb Hmt. destruct (blk_types_lookup _ _ _ _ Hty Hb) as (b0 & Hb0 & E1 & E2). rewrite Hm.
    destruct (Hmu o b0 Hb0) as [? ?]; [congruence|]. split; [congruence|done].
Qed.

(** Tasks that did not inherit from [t]. *)
Lemma unwait_inherit u :
  prio_inherited no_extra s u ->
  (forall o, owned s o u -> waits s t o -> forall ku, tasks s !! u = Some ku -> prio ku <> prio k) ->
  prio_inherited no_extra s1 u.
Proof.
  intros Hi Hno k1 Hk1 Hl. destruct (unwait_task u k1 Hk1) as (k0 & Hk0 & -> & Eb1 & _ & Hl0 & _).
  destruct (Hi k0 Hk0 (Hl0 Hl)) as [Hin Hmin]. split.
  - destruct Hin as [(k2 & Hk2 & E)|[(w & o & Ho & Hw & E)|[]]].
    + left. exists k1. split; [done|]. congruence.
    + right. left. exists w, o. rewrite unwait_owned, unwait_waits, unwait_prio_of. split_and!; try done.
      intros ->. apply (Hno o Ho Hw k0 Hk0). by rewrite E, (prio_of_Some _ _ _ Hk).
  - intros q [(k2 & Hk2 & ->)|[(w & o & Ho & [Hw _]%unwait_waits & ->)|[]]]; apply Hmin.
    + left. exists k0. split; [done|]. congruence.
    + right. left. exists w, o. by rewrite unwait_prio_of, <- unwait_owned.
Qed.

End unwait.

(** ** [mutex_task_pri_reset] of a task that just left a wait list *)

Lemma pri_reset_wp s s1 t k k' o (Q : unit -> kstate -> Prop) :
  tasks s !! t = Some k -> in_blk o k -> tasks s1 = <[t := k']> (tasks s) -> mutexes s1 = mutexes s ->
  blk_types (blks s1) = blk_types (blks s) ->
  prio k' = prio k -> b_prio k' = b_prio k -> (live k' -> mutex_list k' = mutex_list k) -> blk_obj k' = Some o -> ~ pending k' ->
  (live k' \/ forall o, ~ owned s o t) -> WF s -> WF s1 -> idle_ready s1 ->
  MIbase s -> (forall u, u <> t \/ live k' -> prio_inherited no_extra s u) ->
  (forall s2, pri_done no_extra s1 s2 -> Q tt s2) -> wp (mutex_task_pri_reset t) Q s1.
Proof.
  intros Hk Hin Ht Hm Hty Ep Eb El Eo Hnp Hlv Hwf Hwf1 Hid Hbase Hinh HQ.
  assert (live k) as Hlk by (destruct Hin as [[E|E] _]; unfold live; by rewrite E).
  assert (MIbase s1) as Hbase1 by (by eapply (unwait_base s s1 t k k')).
  assert (forall u, (forall o', owned s o' u -> waits s t o' -> forall ku, tasks s !! u = Some ku -> prio ku <> prio k) ->
    prio_inherited no_extra s1 u) as Hinh1.
  { intros u Hno. destruct (decide (u = t /\ ~ live k')) as [[-> Hd]|Hd].
    - intros k1. rewrite Ht, lookup_insert_eq. by intros [= <-].
    - eapply (unwait_inherit s s1 t k k'); try done. apply Hinh. destruct (decide (u = t)); [right|by left].
      destruct (decide (live k')); [done|]. by destruct Hd. }
  assert (forall o', waits s t o' -> o' = o) as Huniq by (intros o' [_ (k0 & ? & _ & ?)]; destruct Hin; congruence).
  assert ((forall u, prio_inherited no_extra s1 u) -> pri_done no_extra s1 s1) as Hdone by (intros ?; split; try done; apply pframe_refl).
  destruct (to_pend _ _ (wf_task s Hwf t k Hk) (proj1 Hin)) as (o0 & b & E0 & Hb). assert (o0 = o) as -> by (destruct Hin; congruence).
  destruct (blk_types_lookup (blks s1) (blks s) o b (eq_sym Hty) Hb) as (b1 & Hb1 & Et1 & _).
  assert (tasks s1 !! t = Some k') as Hk1 by (rewrite Ht; apply lookup_insert_eq).
  unfold mutex_task_pri_reset. ksteps. destruct (decide (obj_type b1 = RHINO_MUTEX_OBJ_TYPE)) as [Hmt|Hmt].
  - assert (waits s t o) as Hw by (split; [exists b; split; [done|congruence]|by exists k]).
    destruct (mi_wait s Hbase t o Hw) as (tm & Ho & Hne). destruct (mi_owner s Hbase o tm Ho) as (Hti & km & Hkm & Hlm).
    pose proof Ho as [_ (m & Hmo & Emt)]. rewrite <- Hm in Hmo. assert (tasks s1 !! tm = Some km) as Hkm1 by (by rewrite Ht, lookup_insert_ne).
    ksteps. destruct (Z.eqb_spec (prio km) (prio k')) as [E|E].
    + eapply mutex_release_none_wp; [done|split; [done|]|done..]. intros u Hu. apply Hinh1.
      intros o' Ho' ->%Huniq. destruct Hu. by eapply owned_unique.
    + kstep. apply HQ, Hdone. intros u. apply Hinh1. intros o' Ho' ->%Huniq ku Hku.
      assert (u = tm) as -> by (by eapply owned_unique). congruence.
  - kstep. apply HQ, Hdone. intros u. apply Hinh1. intros o' _ Hw. destruct (Huniq o' Hw). destruct Hw as [(b2 & ? & ?) _].
    destruct Hmt. congruence.
Qed.

(** ** The kernel invariant at another tick count

    While the tick interrupt works through the expired timeouts, the clock is
    already ahead: the invariant holds of the state with the clock set back. *)

Definition at_tick (c : Z) (s : kstate) : kstate := set_g_tick_count c s.

Lemma at_tick_now s : at_tick (g_tick_count s) s = s.
Proof. done. Qed.

Lemma pframe_at_tick c s s' : pframe s s' -> pframe (at_tick c s) (at_tick c s').
Proof. intros [? ? E]. split; [done..|]. rewrite E. done. Qed.

Lemma mi_at_tick c s : MI s <-> MI (at_tick c s).
Proof. split; (apply me_MI, mi_same; reflexivity). Qed.

Lemma wf_at_tick c s : WF s <-> WF (at_tick c s).
Proof. split; (apply wf_same; reflexivity). Qed.

Lemma same_prio_of ts u : ts !! u = (fun k => set_prio (prio_of ts u) k) <$> ts !! u.
Proof. destruct (ts !! u) as [k|] eqn:E; [|done]. by rewrite (prio_of_Some _ _ _ E). Qed.

Section leave.
Context `{CpuPort}.
Context (x : option oid) (c : Z).

Lemma leave_wait_wp t k k' o pa rq' (Q : unit -> kstate -> Prop) s :
  let s1 := set_lists (<[t := k']> (tasks s)) (blk_without t o (blks s)) (list_rm t (g_tick_head s)) rq' s in
  NI x (at_tick c s) -> MIbase s -> (forall u, u <> t \/ live k' -> prio_inherited no_extra s u) ->
  tasks s !! t = Some k -> in_blk o k ->
  prio k' = prio k -> b_prio k' = b_prio k -> (live k' -> mutex_list k' = mutex_list k) -> blk_obj k' = Some o ->
  tick_head k' = false -> off_lists (task_state k') = true -> (live k' \/ forall o, ~ owned s o t) ->
  rq_wake t (task_state k') (prio k) pa (g_ready_queue s) rq' ->
  (forall s2, NI x (at_tick c s2) -> MI s2 -> pframe s1 s2 -> Q tt s2) -> wp (mutex_task_pri_reset t) Q s1.
Proof.
  intros s1 Hn Hbase Hinh Hk Hin Ep Eb El Eo Eth Hoff Hlv Hrq HQ.
  assert (WF s) as Hwf by (by apply (wf_at_tick c s), Hn).
  assert (WF s1) as Hwf1 by (by eapply wf_unblock).
  pose proof (off_lists_spec _ Hoff) as (Hnp & _ & _).
  assert (t <> g_idle_task) as Hti.
  { intros ->. destruct (ni_idle_ready x _ Hn) as (ki & Hki & Hr). cbn in Hki. destruct Hin as [[E|E] _]; congruence. }
  assert (NI x (at_tick c s1)) as Hn1.
  { apply (ni_step x (at_tick c s) _ t k k'); try done.
    - by apply wf_at_tick.
    - by eapply (tick_inv_leave (at_tick c s) _ t k' (ni_tick x _ Hn)).
    - by apply blk_types_without.
    - intros o' [? _]. done.
    - intros _ _ Hr. destruct Hin as [[E|E] _]; congruence. }
  eapply (pri_reset_wp s s1 t k k' o); try done.
  - by apply blk_types_without.
  - apply (ni_idle_ready x _ Hn1).
  - intros s2 [Hwf2 Hb2 Hi2 Hf2]. apply HQ; [|by split|done].
    eapply ni_pframe; [exact Hn1|by apply pframe_at_tick|by apply wf_at_tick].
Qed.

(** The unlinking both timeouts, aborts and deletions start with. *)
Lemma unlink_wait_wp {R} t k o (next : K R) (Q : R -> kstate -> Prop) s :
  WF s -> tasks s !! t = Some k -> in_blk o k ->
  wp next Q (set_lists (<[t := set_tick_head false k]> (tasks s)) (blk_without t o (blks s)) (list_rm t (g_tick_head s)) (g_ready_queue s) s) ->
  wp (tick_list_rm t;; task_list_rm t;; next) Q s.
Proof.
  intros Hwf Hk Hin HQ. destruct (to_pend _ _ (wf_task s Hwf t k Hk) (proj1 Hin)) as (o0 & b & E0 & Hb).
  assert (o0 = o) as -> by (destruct Hin; congruence). kstep.
  eapply tick_list_rm_wp; [apply Hwf|done|]. kstep.
  eapply (task_list_rm_wp t (set_tick_head false k) o b); [|apply lookup_insert_eq|done|done|exact HQ].
  intros o' b' Hb'. eapply list_ok_same; [apply (wf_blks s Hwf o' b' Hb')|done|done].
Qed.

(** A task that waits for nothing forgets what it waited for. *)
Lemma inv0_blk_obj s t k v :
  Inv0x x s -> tasks s !! t = Some k -> ~ pending k -> Inv0x x (set_tasks (<[t := set_blk_obj v k]> (tasks s)) s).
Proof.
  intros H0 Hk Hp. pose proof (i0_ci x s H0) as HC. pose proof (ci_wf s HC) as Hwf.
  assert (forall o, ~ in_blk o (set_blk_obj v k)) as Hin by (by intros o [? _]).
  assert (forall o, ~ in_blk o k) as Hin0 by (by intros o [? _]).
  apply (inv0_step x s _ t k (set_blk_obj v k)); try done; [|intros o Hi; by apply Hin in Hi].
  apply (ci_step s _ t k (set_blk_obj v k)); try done.
  - intros o _. split; intros Hi; [by apply Hin in Hi|by apply Hin0 in Hi].
  - intros ->. destruct (ci_idle s HC) as (ki & Hki & Hr & _). cbn. congruence.
  - apply (wf_step s _ t (set_blk_obj v k)); try done; try apply Hwf; cbn.
    + eapply rq_keep; [apply (wf_ready s Hwf)|done|done].
    + apply blk_out; [apply Hwf|by apply (lookup_only _ _ _ _ Hk)|done].
    + eapply list_ok_same; [apply (wf_tick s Hwf)|done|done].
    + pose proof (wf_task s Hwf t k Hk) as []. by split.
  - by eapply (tick_inv_keep s _ t _ (ci_tick s HC)).
Qed.

(** A task that is neither ready nor waiting for an object becomes ready, or
    stays inactive, without a timeout. *)
Lemma wf_roused s t k k' pa rq' :
  WF s -> tasks s !! t = Some k -> ~ pending k -> task_state k <> K_RDY -> prio k' = prio k -> b_prio k' = b_prio k ->
  tick_head k' = false -> off_lists (task_state k') = true -> rq_wake t (task_state k') (prio k) pa (g_ready_queue s) rq' ->
  WF (set_lists (<[t := k']> (tasks s)) (blks s) (list_rm t (g_tick_head s)) rq' s).
Proof.
  intros Hwf Hk Hp Hr Ep Eb Eth Hoff Hrq. pose proof (off_lists_spec _ Hoff) as (Hnp & Hns & Hseed).
  apply (wf_step s _ t k'); cbn; try done.
  - unfold rq_wake in Hrq. case_decide; [apply Hrq|subst; apply Hwf].
  - unfold rq_wake in Hrq. case_decide.
    + eapply rq_enter; [apply (wf_ready s Hwf)|by apply (lookup_only _ _ _ _ Hk)|done|]. rewrite Ep. by eapply rq_added_entered.
    + subst. apply rq_out; [apply Hwf|by apply (lookup_only _ _ _ _ Hk)|done].
  - apply blk_out; [apply Hwf|by apply (lookup_only _ _ _ _ Hk)|done].
  - apply list_ok_rm; [apply Hwf|]. unfold in_tick. by rewrite Eth.
  - pose proof (wf_task s Hwf t k Hk) as []. split; rewrite ?Ep, ?Eb, ?Eth; try done.
Qed.

Lemma roused_inv0 t k k' pa tk' rq' s :
  let s1 := set_lists (<[t := k']> (tasks s)) (blks s) tk' rq' s in tk' = list_rm t (g_tick_head s) ->
  NI x (at_tick c s) -> MIbase s -> (forall u, u <> t \/ live k' -> prio_inherited no_extra s u) ->
  tasks s !! t = Some k -> ~ pending k -> task_state k <> K_RDY -> live k ->
  prio k' = prio k -> b_prio k' = b_prio k -> (live k' -> mutex_list k' = mutex_list k) ->
  tick_head k' = false -> off_lists (task_state k') = true -> (live k' \/ forall o, ~ owned s o t) ->
  rq_wake t (task_state k') (prio k) pa (g_ready_queue s) rq' -> Inv0x x (at_tick c s1).
Proof.
  intros s1 Etk Hn Hbase Hinh Hk Hp Hr Hlk Ep Eb El Eth Hoff Hlv Hrq.
  assert (WF s) as Hwf by (by apply (wf_at_tick c s), Hn). pose proof (off_lists_spec _ Hoff) as (Hnp & _ & _).
  apply ni_inv0.
  - apply (ni_step x (at_tick c s) _ t k k'); try done.
    + apply wf_at_tick. unfold s1. rewrite Etk. by eapply wf_roused.
    + by eapply (tick_inv_leave (at_tick c s) _ t k' (ni_tick x _ Hn)).
    + intros ->. destruct (ni_idle_ready x _ Hn) as (ki & Hki & ?). cbn in Hki. congruence.
    + intros o' [? _]. done.
  - apply mi_at_tick. split; [by eapply (unwait_base s s1 t k k')|]. intros u.
    destruct (decide (u = t /\ ~ live k')) as [[-> Hd]|Hd].
    + intros k1. cbn. rewrite lookup_insert_eq. by intros [= <-].
    + eapply (unwait_inherit s s1 t k k'); try done.
      * apply Hinh. destruct (decide (u = t)); [right|by left]. destruct (decide (live k')); [done|]. by destruct Hd.
      * intros o _ [_ (k0 & Hk0 & Hp0 & _)]. congruence.
Qed.

(** The task [t] off its wait list with control block [k'], others at most with
    another inherited priority. *)
Record left_wait (t : tid) (k' : ktask_t) (s s' : kstate) : Prop := {
  lw_lists : lists_only s s';
  lw_tick : g_tick_head s' = list_rm t (g_tick_head s);
  lw_self : exists p, tasks s' !! t = Some (set_prio p k');
  lw_other u : u <> t -> tasks s' !! u = (fun k => set_prio (prio_of (tasks s') u) k) <$> tasks s !! u
}.

Lemma left_wait_wp t k k' o pa rq' (Q : unit -> kstate -> Prop) s :
  let s1 := set_lists (<[t := k']> (tasks s)) (blk_without t o (blks s)) (list_rm t (g_tick_head s)) rq' s in
  Inv0x x (at_tick c s) -> tasks s !! t = Some k -> in_blk o k ->
  prio k' = prio k -> b_prio k' = b_prio k -> mutex_list k' = mutex_list k -> blk_obj k' = Some o ->
  tick_head k' = false -> off_lists (task_state k') = true -> live k' ->
  rq_wake t (task_state k') (prio k) pa (g_ready_queue s) rq' ->
  (forall s', Inv0x x (at_tick c s') -> left_wait t (set_blk_obj None k') s s' -> Q tt s') ->
  wp (mutex_task_pri_reset t;; upd_task t (set_blk_obj None)) Q s1.
Proof.
  intros s1 H0 Hk Hin Ep Eb El Eo Eth Hoff Hlv Hrq HQ. assert (MI s) as [Hbase Hinh] by (apply (mi_at_tick c s), H0).
  kstep. eapply (leave_wait_wp t k k' o pa); try done; [by apply inv0_ni|by left|].
  intros s2 Hn2 Hmi2 Hf. pose proof (pf_rest _ _ Hf) as Er.
  assert (tasks s2 !! t = Some (set_prio (prio_of (tasks s2) t) k')) as Hk2 by (eapply pframe_task; [done|apply lookup_insert_eq]).
  kstep. apply HQ.
  - eapply (inv0_blk_obj (at_tick c s2) t); [apply ni_inv0; [done|by apply mi_at_tick]|exact Hk2|].
    pose proof (off_lists_spec _ Hoff) as (? & _ & _). done.
  - split; [rewrite Er; done|by rewrite Er|exists (prio_of (tasks s2) t); cbn; by rewrite lookup_insert_eq|].
    intros u Hu. cbn. rewrite lookup_insert_ne, prio_of_insert_ne by done.
    rewrite (pf_tasks _ _ Hf u). cbn. by rewrite lookup_insert_ne by done.
Qed.

End leave.
