(* ===== verification/TickSpec.v ===== *)
(** * The tick interrupt

    One tick lets exactly those tasks go whose timeout is one tick away, brings
    the other timeouts one tick nearer and advances the time slice of the running
    ring. *)

From S2P Require Import Prelude KErr RingBuf KState KMonad Sched Pend KInv Mutex PriInv Sem Event Queue Inv Moves Task KSys Boot Handover SchedSpec Timeout.
Local Open Scope Z_scope.

(** The control block of a task whose timeout expired. *)
Definition timed_out (k : ktask_t) : ktask_t :=
  match task_state k with
  | K_SLEEP => set_tick_head false (set_task_state K_RDY (set_blk_state BLK_FINISH k))
  | K_SLEEP_SUSPENDED => set_tick_head false (set_blk_state BLK_FINISH (set_task_state K_SUSPENDED k))
  | K_PEND => set_blk_obj None (set_task_state K_RDY (set_blk_state BLK_TIMEOUT (set_tick_head false k)))
  | K_PEND_SUSPENDED => set_blk_obj None (set_task_state K_SUSPENDED (set_blk_state BLK_TIMEOUT (set_tick_head false k)))
  | _ => k
  end.

(** Only the tasks in [E] timed out; other tasks at most changed their inherited
    priority. *)
Definition expires (E : tid -> Prop) `{forall t, Decision (E t)} (s s' : kstate) : Prop :=
  (forall u, tasks s' !! u =
     (fun k => set_prio (prio_of (tasks s') u) (if decide (E u) then timed_out k else k)) <$> tasks s !! u) /\
  lists_only s s'.

Lemma prio_timed_out k : prio (timed_out k) = prio k.
Proof. unfold timed_out. by destruct (task_state k). Qed.

Lemma set_prio_id k : set_prio (prio k) k = k.
Proof. done. Qed.

Lemma expires_intro s s' t k p :
  tasks s !! t = Some k -> lists_only s s' -> tasks s' !! t = Some (set_prio p (timed_out k)) ->
  (forall u, u <> t -> tasks s' !! u = (fun k => set_prio (prio_of (tasks s') u) k) <$> tasks s !! u) ->
  expires (eq t) s s'.
Proof.
  intros Hk Hl Ht Hu. split; [|done]. intros u. destruct (decide (t = u)) as [<-|]; [|by rewrite Hu by congruence].
  by rewrite (prio_of_Some _ _ _ Ht), Ht, Hk.
Qed.

Section tick.
Context `{CpuPort}.
Context (x : option oid) (c : Z).

(** A sleeping task. *)
Lemma expire_sleep_wp t k (Q : unit -> kstate -> Prop) s :
  Inv0x x (at_tick c s) -> tasks s !! t = Some k -> sleeping k ->
  (forall s', Inv0x x (at_tick c s') -> expires (eq t) s s' -> g_tick_head s' = list_rm t (g_tick_head s) -> Q tt s') ->
  wp (tick_expire t) Q s.
Proof.
  intros H0 Hk Hs HQ. pose proof (i0_ci _ _ H0) as HC. assert (WF s) as Hwf by (by apply (wf_at_tick c s), HC).
  destruct (inv0_active x _ H0) as (a & ka & Ha & Hka). cbn in Ha, Hka.
  assert (MI s) as [Hbase Hinh] by (apply (mi_at_tick c s), HC).
  assert (forall pa rq', rq_wake t (task_state (timed_out k)) (prio k) pa (g_ready_queue s) rq' ->
    Q tt (set_lists (<[t := timed_out k]> (tasks s)) (blks s) (list_rm t (g_tick_head s)) rq' s)) as HQ'.
  { intros pa rq' Hrq. apply HQ; [|apply (expires_intro s _ t k (prio k)); try done|done].
    - eapply (roused_inv0 x c t k (timed_out k)); try done; try (unfold timed_out; destruct Hs as [E|E]; by rewrite E).
      + by apply inv0_ni.
      + intros [E|E]; destruct Hs; congruence.
      + unfold live. destruct Hs as [E|E]; by rewrite E.
      + left. unfold live, timed_out. destruct Hs as [E|E]; by rewrite E.
    - cbn. rewrite lookup_insert_eq, <- prio_timed_out. done.
    - intros u Hu. cbn. rewrite prio_of_insert_ne, lookup_insert_ne by done. apply same_prio_of. }
  assert (forall k', tick_head k' = tick_head k -> list_ok (<[t := k']> (tasks s)) in_tick (g_tick_head s)) as Htick.
  { intros k' E. eapply list_ok_same; [apply (wf_tick s Hwf)|done|]. unfold in_tick. by rewrite E. }
  unfold tick_expire. unfold timed_out in HQ'. do 2 kstep. destruct Hs as [E|E]; rewrite E in *; ksteps.
  - eapply tick_list_rm_wp; [cbn; rewrite insert_insert_eq; by apply Htick|klookup|].
    match goal with |- wp _ _ ?s1 => assert (exists ka', tasks s1 !! a = Some ka') as [ka' Hka'] end.
    { cbn. rewrite !insert_insert_eq. apply lookup_insert_is_Some. destruct (decide (t = a)); [by left|right; eauto]. }
    eapply (ready_list_add_wp t); [apply Hwf|klookup|apply (to_prio _ _ (wf_task s Hwf t k Hk))|exact Ha|exact Hka'|].
    intros rq' Hok Hr. kmerge (HQ' (prio ka') rq' (conj Hok Hr)).
  - eapply tick_list_rm_wp; [cbn; rewrite insert_insert_eq; by apply Htick|klookup|]. kmerge (HQ' 0 (g_ready_queue s) eq_refl).
Qed.

(** A task waiting for an object. *)
Lemma expire_pend_wp t k (Q : unit -> kstate -> Prop) s :
  Inv0x x (at_tick c s) -> tasks s !! t = Some k -> pending k ->
  (forall s', Inv0x x (at_tick c s') -> expires (eq t) s s' -> g_tick_head s' = list_rm t (g_tick_head s) -> Q tt s') ->
  wp (tick_expire t) Q s.
Proof.
  intros H0 Hk Hp HQ. pose proof (i0_ci _ _ H0) as HC. assert (WF s) as Hwf by (by apply (wf_at_tick c s), HC).
  destruct (inv0_active x _ H0) as (a & ka & Ha & Hka). cbn in Ha, Hka.
  destruct (to_pend _ _ (wf_task s Hwf t k Hk) Hp) as (o & b & Eo & Hb). assert (in_blk o k) as Hin by done.
  assert (forall s', Inv0x x (at_tick c s') -> left_wait t (timed_out k) s s' -> Q tt s') as HQ'.
  { intros s' H' [Hl Htk [p Hs] Ho]. apply HQ; [done| |done]. by eapply expires_intro. }
  unfold tick_expire. unfold timed_out in HQ'. do 2 kstep. destruct Hp as [E|E]; rewrite E in *;
    (eapply unlink_wait_wp; [exact Hwf|exact Hk|exact Hin|]).
  - match goal with |- wp _ _ ?s1 => assert (exists ka', tasks s1 !! a = Some ka') as [ka' Hka'] end.
    { cbn. apply lookup_insert_is_Some. destruct (decide (t = a)); [by left|right; eauto]. }
    kstep. eapply (ready_list_add_wp t); [apply Hwf|cbn; klookup|apply (to_prio _ _ (wf_task s Hwf t k Hk))|exact Ha|exact Hka'|].
    intros rq' Hok Hr. do 4 kstep. match goal with |- wp _ _ ?s1 => assert (s1 = set_lists
      (<[t := set_task_state K_RDY (set_blk_state BLK_TIMEOUT (set_tick_head false k))]> (tasks s)) (blk_without t o (blks s))
      (list_rm t (g_tick_head s)) rq' s) as -> by (cbn; rewrite !insert_insert_eq; reflexivity) end.
    by eapply (left_wait_wp x c t k _ o (prio ka')).
  - do 4 kstep. match goal with |- wp _ _ ?s1 => assert (s1 = set_lists
      (<[t := set_task_state K_SUSPENDED (set_blk_state BLK_TIMEOUT (set_tick_head false k))]> (tasks s)) (blk_without t o (blks s))
      (list_rm t (g_tick_head s)) (g_ready_queue s) s) as -> by (cbn; rewrite !insert_insert_eq; reflexivity) end.
    by eapply (left_wait_wp x c t k _ o 0).
Qed.

Lemma tick_expire_wp t k (Q : unit -> kstate -> Prop) s :
  Inv0x x (at_tick c s) -> tasks s !! t = Some k -> tick_head k = true ->
  (forall s', Inv0x x (at_tick c s') -> expires (eq t) s s' -> g_tick_head s' = list_rm t (g_tick_head s) -> Q tt s') ->
  wp (tick_expire t) Q s.
Proof.
  intros H0 Hk Hh HQ. assert (WF s) as Hwf by (apply (wf_at_tick c s), H0).
  destruct (to_tick _ _ (wf_task s Hwf t k Hk) Hh); [by eapply expire_sleep_wp|by eapply expire_pend_wp].
Qed.

End tick.

(** ** The loop over the tick list *)

Lemma filter_all {A} (P : A -> Prop) `{forall x, Decision (P x)} (l : list A) : (forall x, P x) -> filter P l = l.
Proof. intros Hp. induction l as [|y l IH]; [done|]. by rewrite filter_cons_True, IH. Qed.

Section expires.
Context (E1 E2 E : tid -> Prop) `{forall t, Decision (E1 t)} `{forall t, Decision (E2 t)} `{forall t, Decision (E t)}.

Lemma expires_trans s s1 s2 :
  (forall u, E u <-> E1 u \/ E2 u) -> (forall u, E1 u -> ~ E2 u) -> expires E1 s s1 -> expires E2 s1 s2 -> expires E s s2.
Proof.
  intros HE Hd [T1 L1] [T2 L2]. split; [|by eapply lists_only_trans]. intros u. rewrite T2, T1. rewrite <- option_fmap_compose.
  destruct (tasks s !! u) as [k|]; [|done]. cbn. f_equal. specialize (HE u). specialize (Hd u).
  destruct (decide (E1 u)), (decide (E2 u)), (decide (E u)); try done; try tauto.
  unfold timed_out. cbn. by destruct (task_state k).
Qed.

Lemma expires_none s : (forall u k, tasks s !! u = Some k -> ~ E u) -> expires E s s.
Proof.
  intros HE. split; [|done]. intros u. rewrite (same_prio_of (tasks s) u) at 1. destruct (tasks s !! u) as [k|] eqn:Hk; [|done].
  cbn. by rewrite decide_False by (by eapply HE).
Qed.

End expires.

Lemma expires_rem E `{forall t, Decision (E t)} s s' c u :
  expires E s s' -> ~ E u -> rem_of (at_tick c s') u = rem_of (at_tick c s) u.
Proof.
  intros [T _] Hu. unfold rem_of. cbn. rewrite T. destruct (tasks s !! u) as [k|]; [|done]. cbn. by rewrite decide_False.
Qed.

Lemma tick_less m c : 0 < u64 (m - c) < 2 ^ 63 -> u64 (m - u64 (c + 1)) = u64 (m - c) - 1.
Proof.
  intros Hr. unfold u64 in *. rewrite wrap_sub_r. replace (m - (c + 1)) with (m - c - 1) by lia.
  rewrite <- wrap_sub_l. apply wrap_small. lia.
Qed.

Lemma tick_delta c m : 0 < u64 (m - c) < 2 ^ 63 -> (i64 (m - u64 (c + 1)) <=? 0) = bool_decide (u64 (m - c) = 1).
Proof.
  intros Hr. pose proof (tick_less m c Hr) as E. unfold i64, signed, u64 in *.
  rewrite E, (proj2 (Z.ltb_lt _ _)) by lia. apply eq_true_iff_eq. rewrite Z.leb_le, bool_decide_eq_true. lia.
Qed.

Section loop.
Context `{CpuPort}.
Context (x : option oid) (c : Z).

(** Due at the tick after [c]. *)
Definition due (s : kstate) (u : tid) : Prop := u ∈ g_tick_head s /\ rem_of (at_tick c s) u = 1.

#[global] Instance due_dec s u : Decision (due s u).
Proof. unfold due. apply _. Defined.

Lemma due_next s s1 t l u :
  NoDup (t :: l) -> g_tick_head s = t :: l -> g_tick_head s1 = l -> expires (eq t) s s1 ->
  due s1 u <-> due s u /\ t <> u.
Proof.
  intros [Ht _]%NoDup_cons El El1 He. unfold due. rewrite El, El1. destruct (decide (t = u)) as [<-|Hne]; [naive_solver|].
  rewrite (expires_rem (eq t) s s1) by done. set_solver.
Qed.

Lemma tick_loop_wp fuel (Q : unit -> kstate -> Prop) s :
  Inv0x x (at_tick c s) -> g_tick_count s = u64 (c + 1) -> (length (g_tick_head s) <= fuel)%nat ->
  (forall s', Inv0x x (at_tick c s') -> expires (due s) s s' -> (forall u, ~ due s' u) ->
     g_tick_head s' = filter (fun u => ~ due s u) (g_tick_head s) -> Q tt s') ->
  wp (tick_loop fuel (head (g_tick_head s))) Q s.
Proof.
  revert Q s. induction fuel as [|fuel IH]; intros Q s H0 Hc Hlen HQ; destruct (g_tick_head s) as [|t l] eqn:El;
    try (cbn in Hlen; lia); rewrite <- El in HQ.
  1,2: (apply HQ; [done|apply expires_none|intros u [Hu _]; rewrite El in Hu; set_solver|by rewrite El]; 
        intros u k _ [Hu _]; rewrite El in Hu; set_solver).
  pose proof (i0_ci _ _ H0) as HC. assert (WF s) as Hwf by (by apply (wf_at_tick c s), HC).
  pose proof (wf_tick s Hwf) as [Hnd Hin]. rewrite El in *. destruct (proj1 (Hin t)) as (k & Hk & Hth); [set_solver|].
  destruct (ci_tick _ HC) as [Hsort Hrange]. cbn [g_tick_head at_tick set_g_tick_count] in Hsort. rewrite El in Hsort.
  pose proof (Hrange t k Hk Hth) as Hr. unfold tick_rem in Hr. cbn [g_tick_count at_tick set_g_tick_count] in Hr.
  assert (rem_of (at_tick c s) t = u64 (tick_match k - c)) as Erem by (unfold rem_of; cbn; by rewrite Hk).
  cbn [head tick_loop]. do 3 kstep.
  apply wp_deref with (head l); [transitivity (next_in t (t :: l)); [f_equal; exact El|cbn; by rewrite decide_True]|]. ksteps.
  assert ((i64 (tick_match k - g_tick_count s) <=? 0) = bool_decide (u64 (tick_match k - c) = 1)) as Ed by (by rewrite Hc, tick_delta).
  refine (eq_ind_r (fun b : bool => wp (if b then _ else _) Q s) _ Ed). case_bool_decide as Hdue.
  - kstep. eapply (tick_expire_wp x c t k); [done..|]. intros s1 H1 He Eh. rewrite El, list_rm_cons_eq in Eh by (by apply NoDup_cons in Hnd as [? _]).
    assert (due s t) as Hdt by (split; [rewrite El; set_solver|congruence]).
    rewrite <- Eh. apply IH; [done|by destruct He as [_ ->]|rewrite Eh; cbn in Hlen; lia|].
    intros s' H' He' Hno Eh'. apply HQ; [done| |done|].
    + eapply (expires_trans (eq t) (due s1)); [| |done|done].
      * intros u. rewrite (due_next s s1 t l u) by done. destruct (decide (t = u)) as [<-|]; naive_solver.
      * intros u <-. rewrite (due_next s s1 t l t) by done. naive_solver.
    + rewrite Eh', Eh. rewrite filter_cons_False by naive_solver. apply filter_ext_in.
      intros u Hu. rewrite (due_next s s1 t l u) by done. split; [|naive_solver]. intros Hn Hd. apply Hn. split; [done|].
      intros <-. by apply NoDup_cons in Hnd as [? _].
  - kstep. assert (forall u, ~ due s u) as Hno.
    { intros u [Hu E1]. rewrite El in Hu. apply StronglySorted_inv in Hsort as [_ Hall]. rewrite Forall_forall in Hall.
      apply elem_of_cons in Hu as [->|Hu]; [congruence|]. specialize (Hall u Hu). rewrite Erem in Hall. lia. }
    apply HQ; [done|by apply expires_none|done|]. rewrite El. symmetry. by apply filter_all.
Qed.

End loop.

(** ** One tick *)

Lemma sorted_shift {A} (f : A -> Z) l :
  StronglySorted (fun x y => f x <= f y) l -> StronglySorted (fun x y => f x - 1 <= f y - 1) l.
Proof. induction 1 as [|u l _ IH Hu]; constructor; [done|]. eapply Forall_impl; [exact Hu|]. cbn. lia. Qed.

Section proc.
Context `{CpuPort}.

(** With nothing due any more the clock has caught up. *)
Lemma clock_caught_up x c s :
  Inv0x x (at_tick c s) -> g_tick_count s = u64 (c + 1) -> (forall u, ~ due c s u) -> Inv0x x s.
Proof.
  intros [[Hwf Hmi [Hs Hr] Hid Ha] HO HL ? ? ?] Hc Hno.
  assert (forall t k, tasks s !! t = Some k -> tick_head k = true ->
    tick_rem s k = tick_rem (at_tick c s) k - 1 /\ 0 < tick_rem s k < 2 ^ 63) as Hrem.
  { intros t k Hk Hh. pose proof (Hr t k Hk Hh) as Hrg. assert (tick_rem (at_tick c s) k <> 1) as Hne.
    { intros E. apply (Hno t). split; [|unfold rem_of; cbn; by rewrite Hk].
      by eapply list_ok_in; [apply (wf_tick _ (proj2 (wf_at_tick c s) Hwf))|..]. }
    unfold tick_rem in *. cbn [g_tick_count at_tick set_g_tick_count] in *. rewrite Hc, tick_less; lia. }
  split; try done. split; try done.
  - by apply (wf_at_tick c s).
  - by apply (mi_at_tick c s).
  - split; [|intros t k Hk Hh; by apply (Hrem t k)].
    eapply (sorted_ext (fun u => rem_of (at_tick c s) u - 1)).
    + intros u (k & Hk & Hh)%(proj2 (wf_tick _ Hwf)). unfold rem_of. cbn. cbn in Hk. rewrite Hk. by apply (Hrem u k).
    + exact (sorted_shift _ _ Hs).
Qed.

Lemma tick_list_update_wp (Q : unit -> kstate -> Prop) s :
  Inv0 s ->
  (forall s', Inv0 s' -> expires (due (g_tick_count s) s) (set_g_tick_count (u64 (g_tick_count s + 1)) s) s' -> Q tt s') ->
  wp (tick_list_update 1) Q s.
Proof.
  intros H0 HQ. unfold tick_list_update, RHINO_CRITICAL_EXIT, RHINO_CPU_INTRPT_ENABLE. kstep. apply wp_critical_enter. do 5 kstep.
  set (s1 := set_g_tick_count _ _). apply (tick_loop_wp None (g_tick_count s)); [by apply (inv0_irq None true s)|done|done|].
  intros s2 H2 He Hno _. kstep. apply HQ.
  - apply (inv0_irq None (irq_off s) s2). by eapply clock_caught_up; [done| |done]; destruct He as [_ ->].
  - destruct He as [Ht Hl]. split; [exact Ht|]. unfold lists_only in *. rewrite Hl. done.
Qed.

(** What a tick leaves of a task. *)
Definition after_tick (s : kstate) (k : ktask_t) : ktask_t :=
  if tick_head k && (tick_rem s k =? 1) then timed_out k else k.

Definition upto_sched (k k' : ktask_t) : Prop := k' = set_time_slice (time_slice k') (set_prio (prio k') k).

Lemma due_iff s t k : WF s -> tasks s !! t = Some k -> due (g_tick_count s) s t <-> tick_head k && (tick_rem s k =? 1) = true.
Proof.
  intros Hwf Hk. unfold due, rem_of. cbn. rewrite Hk, andb_true_iff, Z.eqb_eq, at_tick_now.
  split; intros [Hh ?]; (split; [|done]).
  - apply (proj2 (wf_tick s Hwf)) in Hh as (k0 & ? & ?). by simplify_eq.
  - by eapply list_ok_in; [apply (wf_tick s Hwf)|..].
Qed.

(** A timeout that is still pending has more than one tick to go. *)
Lemma after_tick_on s t k :
  WF s -> tasks s !! t = Some k -> tick_head (after_tick s k) = true -> after_tick s k = k /\ tick_head k = true /\ tick_rem s k <> 1.
Proof.
  intros Hwf Hk. unfold after_tick. destruct (tick_head k) eqn:Hh; cbn [andb]; [|congruence].
  destruct (Z.eqb_spec (tick_rem s k) 1) as [E|E]; [|done]. unfold timed_out.
  destruct (to_tick _ _ (wf_task s Hwf t k Hk) Hh) as [[Es|Es]|[Es|Es]]; by rewrite Es.
Qed.

Lemma sliced_task s s' t k : sliced s s' -> tasks s !! t = Some k -> exists n, tasks s' !! t = Some (set_time_slice n k).
Proof.
  intros (a & ka & _ & _ & Hs) Hk. assert (exists n, tasks s !! t = Some (set_time_slice n k)) as Hsame by (by exists (time_slice k)).
  destruct (rql _ _) as [|u [|v l]]; [by subst..|]. destruct Hs as (ku & Hku & Hs). cbv zeta in Hs.
  assert (forall m, exists n, <[u := set_time_slice m ku]> (tasks s) !! t = Some (set_time_slice n k)) as Hset.
  { intros m. destruct (decide (u = t)) as [<-|]; [|by rewrite lookup_insert_ne]. rewrite lookup_insert_eq. exists m. congruence. }
  destruct (sched_policy ku =? KSCHED_FIFO); [by subst|]. destruct (0 <? _); [subst s'; apply Hset|].
  destruct Hs as (rq' & _ & _ & ->). apply Hset.
Qed.

Lemma sliced_frame s s' : sliced s s' -> exists ts rq, s' = set_tasks ts (set_g_ready_queue rq s).
Proof.
  intros (a & ka & _ & _ & Hs). assert (exists ts rq, s = set_tasks ts (set_g_ready_queue rq s)) as Hsame by (by exists (tasks s), (g_ready_queue s)).
  destruct (rql _ _) as [|u [|v l]]; [by subst..|]. destruct Hs as (ku & Hku & Hs). cbv zeta in Hs.
  destruct (sched_policy ku =? KSCHED_FIFO); [by subst|]. destruct (0 <? _); [subst s'; by eexists _, (g_ready_queue s)|].
  destruct Hs as (rq' & _ & _ & ->). by eexists _, rq'.
Qed.

Lemma tick_proc_spec s :
  Inv s -> 0 < g_intrpt_nested_level s ->
  wp krhino_tick_proc (fun _ s' => Inv s' /\ irq_off s' = irq_off s /\ g_tick_count s' = u64 (g_tick_count s + 1) /\
    g_intrpt_nested_level s' = g_intrpt_nested_level s /\ g_active_task s' = g_active_task s /\
    forall u k, tasks s !! u = Some k -> exists k', tasks s' !! u = Some k' /\ upto_sched (after_tick s k) k' /\
      (tick_head k' = true -> tick_rem s' k' = tick_rem s k - 1)) s.
Proof.
  intros HI Hn. pose proof (inv_0 s HI) as H0. pose proof (ci_wf s (i0_ci _ s H0)) as Hwf. unfold krhino_tick_proc. kstep.
  apply tick_list_update_wp; [done|]. intros s1 H1 [Ht Hl]. eapply time_slice_update_wp; [exact H1|]. intros s2 Hs.
  pose proof (time_slice_inv None s1 s2 H1 Hs) as H2. pose proof (sliced_frame s1 s2 Hs) as (ts & rq & E2).
  assert (s2 = set_lists (tasks s2) (blks s1) (g_tick_head s1) rq (set_g_tick_count (u64 (g_tick_count s + 1)) s)) as E
    by (rewrite E2, Hl; done).
  clear E2. split_and!; try (rewrite E; done).
  - split; [done|]. rewrite nested_postponed; [done|]. by rewrite E.
  - intros u k Hk. specialize (Ht u). cbn in Ht. rewrite Hk in Ht. cbn in Ht.
    destruct (sliced_task s1 s2 u _ Hs Ht) as [n Hk2]. rewrite (decide_ext _ _ _ _ (due_iff s u k Hwf Hk)) in Hk2.
    replace (if decide (tick_head k && (tick_rem s k =? 1) = true) then timed_out k else k) with (after_tick s k) in Hk2
      by (unfold after_tick; by destruct (tick_head k && _)).
    eexists. split; [exact Hk2|]. split; [done|]. intros Hh. cbn in Hh.
    destruct (after_tick_on s u k Hwf Hk Hh) as (Ea & Hth & Hne). unfold tick_rem. rewrite E, Ea. cbn.
    pose proof (ti_range s (ci_tick s (i0_ci _ s H0)) u k Hk Hth) as Hr. unfold tick_rem in *. by apply tick_less.
Qed.

End proc.
