(* ===== verification/TaskSpec.v ===== *)
(** * Sleeping, suspending, resuming and aborting

    Each task is an abstract state machine: what it waits for, and independently
    whether it is suspended.  The calls refine it and keep the kernel invariant. *)

From S2P Require Import Prelude KErr RingBuf KState KMonad Sched Pend KInv Mutex PriInv Sem Event Queue Inv Moves Task KSys Boot Handover SchedSpec Timeout TickSpec.
Local Open Scope Z_scope.

(** ** The abstract task *)

Inductive await := ASleep | APend (o : oid).

Record atask := mk_atask {
  at_wait : option await;
  at_susp : bool;
  at_count : Z
}.

(** [None] for a deleted task. *)
Definition task_abs (k : ktask_t) : option atask :=
  let w := APend <$> blk_obj k in
  match task_state k with
  | K_RDY => Some (mk_atask None false (suspend_count k))
  | K_SUSPENDED => Some (mk_atask None true (suspend_count k))
  | K_SLEEP => Some (mk_atask (Some ASleep) false (suspend_count k))
  | K_SLEEP_SUSPENDED => Some (mk_atask (Some ASleep) true (suspend_count k))
  | K_PEND => Some (mk_atask w false (suspend_count k))
  | K_PEND_SUSPENDED => Some (mk_atask w true (suspend_count k))
  | _ => None
  end.

(** Suspensions nest; the count has [bits] bits. *)
Definition at_suspend (bits : Z) (q : option atask) : kstat_t * option atask :=
  match q with
  | None => (RHINO_INV_TASK_STATE, q)
  | Some (mk_atask w true n) =>
      if n =? 2 ^ bits - 1 then (RHINO_SUSPENDED_COUNT_OVF, q) else (RHINO_SUCCESS, Some (mk_atask w true (wrap bits (n + 1))))
  | Some (mk_atask w false n) => (RHINO_SUCCESS, Some (mk_atask w true 1))
  end.

Definition at_resume (bits : Z) (q : option atask) : kstat_t * option atask :=
  match q with
  | None => (RHINO_INV_TASK_STATE, q)
  | Some (mk_atask w true n) =>
      let n' := wrap bits (n - 1) in (RHINO_SUCCESS, Some (mk_atask w (negb (n' =? 0)) n'))
  | Some (mk_atask w false n) => (RHINO_TASK_NOT_SUSPENDED, q)
  end.

Definition at_abort (q : option atask) : kstat_t * option atask :=
  match q with
  | None => (RHINO_INV_TASK_STATE, q)
  | Some a => (RHINO_SUCCESS, Some (mk_atask None false (at_count a)))
  end.

(** ** State changes that keep a task on its lists *)

Section retag.
Context `{CpuPort}.

Record retag (k k' : ktask_t) : Prop := {
  rt_prio : prio k' = prio k;
  rt_base : b_prio k' = b_prio k;
  rt_list : mutex_list k' = mutex_list k;
  rt_obj : blk_obj k' = blk_obj k;
  rt_head : tick_head k' = tick_head k;
  rt_match : tick_match k' = tick_match k;
  rt_wait : wproj k' = wproj k;
  rt_rdy : task_state k <> K_RDY /\ task_state k' <> K_RDY;
  rt_pend : pending k' <-> pending k;
  rt_sleep : sleeping k' <-> sleeping k;
  rt_live : live k /\ live k' /\ task_state k' <> K_SEED
}.

Lemma retag_inv0 x s t k k' :
  Inv0x x s -> tasks s !! t = Some k -> retag k k' -> Inv0x x (set_tasks (<[t := k']> (tasks s)) s).
Proof.
  intros H0 Hk [Ep Eb El Eo Eh Em Ew [Hr Hr'] Hp Hs (Hl & Hl' & Hse)]. pose proof (i0_ci x s H0) as HC. pose proof (ci_wf s HC) as Hwf.
  assert (forall o, in_blk o k' <-> in_blk o k) as Hin by (intros o; unfold in_blk; by rewrite Hp, Eo).
  apply (inv0_step x s _ t k k'); try done; [|intros o Hi; split; [by apply Hin|done]].
  apply (ci_step s _ t k k'); try done.
  - unfold mproj. rewrite Ep, Eb, El. by rewrite !bool_decide_false.
  - intros ->. destruct (ci_idle s HC) as (ki & Hki & ? & _). congruence.
  - apply (wf_step s _ t k'); try done; try apply Hwf; cbn.
    + apply rq_out; [apply Hwf|by apply (lookup_only _ _ _ _ Hk)|done].
    + eapply blk_keep; [apply (wf_blks s Hwf)|done|done|done].
    + eapply list_ok_same; [apply (wf_tick s Hwf)|done|]. unfold in_tick. by rewrite Eh.
    + pose proof (wf_task s Hwf t k Hk) as []. split; rewrite ?Ep, ?Eb, ?Eo, ?Eh, ?Hp, ?Hs; done.
  - by eapply (tick_inv_keep s _ t _ (ci_tick s HC)).
Qed.

End retag.

(** ** What the calls leave of the tasks *)

Definition tabs (s : kstate) (t : tid) : option atask := tasks s !! t ≫= task_abs.

Lemma tabs_Some s t k : tasks s !! t = Some k -> tabs s t = task_abs k.
Proof. unfold tabs. by intros ->. Qed.

Lemma tabs_resched s s' t c : resched (set_irq_off c s) s' -> tabs s' t = tabs s t.
Proof.
  intros (ts & a & p & -> & Hts)%resched_eq. unfold tabs. cbn. destruct (Hts t) as [sp ->]. cbn. by destruct (tasks s !! t).
Qed.

(** Only [t] changed, to [q]. *)
Definition tabs_only (t : tid) (q : option atask) (s s' : kstate) : Prop :=
  tabs s' t = q /\ forall u, u <> t -> tabs s' u = tabs s u.

Lemma tabs_only_insert t k' s s1 : tasks s1 = <[t := k']> (tasks s) -> tabs_only t (task_abs k') s s1.
Proof.
  intros E. unfold tabs_only, tabs. rewrite E. split; [by rewrite lookup_insert_eq|].
  intros u Hu. by rewrite lookup_insert_ne.
Qed.

Lemma tabs_only_same t s : tabs_only t (tabs s t) s s.
Proof. done. Qed.

Lemma tabs_only_resched t q s s1 s' c : tabs_only t q s s1 -> resched (set_irq_off c s1) s' -> tabs_only t q s s'.
Proof. intros [E Ho] Hr. split; [by rewrite (tabs_resched s1 s' t c)|]. intros u Hu. by rewrite (tabs_resched s1 s' u c), Ho. Qed.

Section task.
Context `{CpuPort}.

(** Suspension counts that cannot wrap. *)
Definition at_ok (q : option atask) : Prop :=
  match q with Some a => at_susp a = true -> 1 <= at_count a < 2 ^ suspend_nested_bits | None => True end.

Lemma idle_prio s ki : MI s -> tasks s !! g_idle_task = Some ki -> live ki -> b_prio ki = RHINO_IDLE_PRI -> prio ki = RHINO_IDLE_PRI.
Proof.
  intros [Hb Hi] Hk Hl Eb. destruct (Hi g_idle_task ki Hk Hl) as [[(k & Hk' & ->)|[(w & o & Ho & _)|[]]] _]; [congruence|].
  by destruct (mi_owner s Hb o _ Ho).
Qed.

Lemma inv_idle_prio s t k : Inv s -> tasks s !! t = Some k -> prio k <> RHINO_IDLE_PRI -> t <> g_idle_task.
Proof.
  intros HI Hk Hp ->. pose proof (i0_ci _ s (inv_0 s HI)) as HC. destruct (ci_idle s HC) as (ki & Hki & Hr & Hb).
  assert (ki = k) as -> by congruence. apply Hp. eapply idle_prio; [apply HC|done|unfold live; by rewrite Hr|done].
Qed.

(** A ready task leaves the run queue. *)
Lemma unready_wp t k k' (Q : unit -> kstate -> Prop) s :
  rq_ok (g_ready_queue s) -> rq_lists (tasks s) (g_ready_queue s) -> idle_ready s -> tasks s !! t = Some k -> task_state k = K_RDY -> t <> g_idle_task -> prio k' = prio k ->
  (forall rq', rq_removed t (prio k) (g_ready_queue s) rq' ->
     Q tt (set_g_ready_queue rq' (set_tasks (<[t := k']> (tasks s)) s))) ->
  wp (ready_list_rm t) Q (set_tasks (<[t := k']> (tasks s)) s).
Proof.
  intros Hok0 Hl (ki & Hki & Hri) Hk Hr Hti Ep HQ.
  eapply (ready_list_rm_wp t k' (prio ki) g_idle_task); [done|apply lookup_insert_eq|rewrite ?Ep..|by apply not_eq_sym|].
  - by eapply list_ok_in; [apply Hl|..].
  - apply Hl.
  - by eapply list_ok_in; [apply Hl|..].
  - intros rq' Hok Hrq. apply HQ. split; [done|]. intros q. rewrite Hrq. by rewrite Ep.
Qed.

Lemma inactive_inv0 x s t k k' rq' :
  Inv0x x s -> tasks s !! t = Some k -> task_state k = K_RDY -> t <> g_idle_task ->
  (g_active_task s = Some t -> g_sched_lock s = 0) ->
  mproj k' = mproj k -> tick_head k' = false -> tick_match k' = tick_match k -> task_state k' = K_SUSPENDED ->
  rq_removed t (prio k) (g_ready_queue s) rq' ->
  Inv0x x (set_g_ready_queue rq' (set_tasks (<[t := k']> (tasks s)) s)).
Proof.
  intros H0 Hk Hr Hti Hlk Hm Hh Htm Hst Hrq. pose proof (i0_ci x s H0) as HC. pose proof (ci_wf s HC) as Hwf.
  destruct (mproj_prio _ _ Hm) as (Ep & Eb & El & _).
  assert (tick_head k = false) as Hoff by (eapply rdy_no_timeout; [done..|by rewrite Hr]).
  assert (~ pending k' /\ ~ sleeping k') as [Hnp Hns] by (split; intros [E|E]; congruence).
  apply (inv0_step x s _ t k k'); try done; [|by intros o [? _]|intros ? Hne; by rewrite Hlk in Hne].
  apply (ci_step s _ t k k'); try done.
  - intros o _. split; intros [Hp _]; [done|]. destruct Hp; congruence.
  - apply (wf_step s _ t k'); try done; cbn.
    + apply Hrq.
    + eapply rq_leave; [apply (wf_ready s Hwf)|done|congruence|by apply rq_removed_left].
    + apply blk_out; [apply Hwf| |done]. apply (lookup_only _ _ _ _ Hk). intros [E|E]; congruence.
    + eapply list_ok_same; [apply (wf_tick s Hwf)|done|]. unfold in_tick. by rewrite Hh, Hoff.
    + pose proof (wf_task s Hwf t k Hk) as []. split; rewrite ?Ep, ?Eb, ?Hst; try done. by rewrite Hh.
  - eapply (tick_inv_keep s _ t k' (ci_tick s HC)); [reflexivity|reflexivity|done|congruence|done|done].
Qed.

(** ** Suspending and resuming *)

Ltac retag_tac E := split; unfold pending, sleeping, live, wproj; cbn; rewrite ?E; naive_solver.

(** The state with the writes to the control block of [t] merged. *)
Ltac one_task s t k' :=
  match goal with |- wp _ _ ?x => assert (x = set_tasks (<[t := k']> (tasks s)) (set_irq_off true s)) as ->
    by (cbn; rewrite ?insert_insert_eq; reflexivity) end.

Definition task_post (s : kstate) (t : tid) (res : kstat_t * option atask) (r : kstat_t) (s' : kstate) : Prop :=
  Inv s' /\ irq_off s' = irq_off s /\ r = res.1 /\ tabs_only t res.2 s s'.

Lemma task_finish_wp t r q s s1 :
  Inv0 s1 -> tabs_only t q s s1 -> wp (RHINO_CRITICAL_EXIT_SCHED (irq_off s);; mret r) (task_post s t (r, q)) s1.
Proof.
  intros H1 Ht. apply exit_sched_inv; [done|]. intros s' Hre HI'. split_and!; [done|by eapply irq_resched|done|].
  by eapply tabs_only_resched.
Qed.

Lemma task_same_wp t r s : Inv s -> wp (critical_return (irq_off s) r) (task_post s t (r, tabs s t)) (set_irq_off true s).
Proof. intros HI. apply wp_critical_return. split_and!; try done. Qed.

Lemma susp_max_wrap : wrap suspend_nested_bits (-1) = 2 ^ suspend_nested_bits - 1.
Proof. apply wrap_neg1. pose proof port_bits_pos. lia. Qed.

Definition suspend_result (s : kstate) (t : tid) : kstat_t * option atask :=
  if bool_decide (g_active_task s = Some t) && (0 <? g_sched_lock s) then (RHINO_SCHED_DISABLE, tabs s t)
  else at_suspend suspend_nested_bits (tabs s t).

(** The three branches that only change the tag and the count. *)
Lemma suspend_tag_wp t k k' q r s :
  Inv s -> tasks s !! t = Some k -> retag k k' -> task_abs k' = q ->
  wp (RHINO_CRITICAL_EXIT_SCHED (irq_off s);; mret r) (task_post s t (r, q)) (set_tasks (<[t := k']> (tasks s)) (set_irq_off true s)).
Proof.
  intros HI Hk Hrt <-. apply task_finish_wp; [|by apply tabs_only_insert].
  eapply (retag_inv0 None (set_irq_off true s)); [by apply inv0_irq, HI|done|done].
Qed.

(** One more suspension of a suspended task. *)
Lemma suspend_more_wp t k w s :
  Inv s -> tasks s !! t = Some k -> task_abs k = Some (mk_atask w true (suspend_count k)) ->
  wp (if suspend_count k =? wrap suspend_nested_bits (-1) then critical_return (irq_off s) RHINO_SUSPENDED_COUNT_OVF
      else upd_task t (set_suspend_count (wrap suspend_nested_bits (suspend_count k + 1)));;
        RHINO_CRITICAL_EXIT_SCHED (irq_off s);; mret RHINO_SUCCESS)
    (task_post s t (at_suspend suspend_nested_bits (Some (mk_atask w true (suspend_count k))))) (set_irq_off true s).
Proof.
  intros HI Hk Ea. rewrite susp_max_wrap. cbn [at_suspend]. destruct (Z.eqb_spec (suspend_count k) (2 ^ suspend_nested_bits - 1)) as [E|E].
  - rewrite <- Ea, <- (tabs_Some s t k Hk). by apply task_same_wp.
  - do 2 kstep. apply (suspend_tag_wp t k (set_suspend_count (wrap suspend_nested_bits (suspend_count k + 1)) k) _ _ s); [done..| |].
    + unfold task_abs in Ea.
      destruct (task_state k) eqn:Est; try discriminate Ea; retag_tac Est.
    + unfold task_abs in *. cbn [task_state set_suspend_count blk_obj suspend_count].
      destruct (task_state k) eqn:Est; try discriminate Ea; injection Ea as <-; done.
Qed.

Lemma task_suspend_spec t k s :
  Inv s -> tasks s !! t = Some k -> t <> g_idle_task ->
  wp (task_suspend t) (task_post s t (suspend_result s t)) s.
Proof.
  intros HI Hk Hti. pose proof (inv_0 s HI) as H0. pose proof (i0_ci _ s H0) as HC. unfold suspend_result. rewrite (tabs_Some s t k Hk).
  unfold task_suspend. kstep. apply wp_critical_enter. ksteps. cbn [g_active_task g_sched_lock set_irq_off].
  rewrite (bool_decide_ext (Some t = g_active_task s) (g_active_task s = Some t)) by naive_solver.
  destruct (bool_decide _ && _) eqn:Elk; [rewrite <- (tabs_Some s t k Hk); by apply task_same_wp|]. ksteps.
  unfold task_abs. destruct (task_state k) eqn:Est; cbn [at_suspend at_susp at_count].
  - by apply (wf_task s (ci_wf s HC) t k Hk) in Est.
  - do 4 kstep. one_task s t (set_task_state K_SUSPENDED (set_suspend_count 1 k)). kstep.
    eapply (unready_wp t k _ _ (set_irq_off true s)); [apply HC|apply (wf_ready s), HC|by apply idle_is_ready, ci_irq|done..|].
    intros rq' Hrq. apply task_finish_wp; [|by apply (tabs_only_insert t (set_task_state K_SUSPENDED (set_suspend_count 1 k)))].
    apply (inactive_inv0 None (set_irq_off true s) t k); try done; [by apply inv0_irq| | |apply (rdy_no_timeout s t k); [apply HC|done|by rewrite Est]].
    + intros Ha. cbn in Ha. rewrite bool_decide_true in Elk by done. cbn in Elk. zbool. pose proof (i0_lock_range _ s H0). cbn. lia.
    + unfold mproj. cbn. by rewrite Est.
  - do 4 kstep. one_task s t (set_task_state K_PEND_SUSPENDED (set_suspend_count 1 k)).
    apply (suspend_tag_wp t k); [done..|retag_tac Est|reflexivity].
  - apply suspend_more_wp; [done|done|by unfold task_abs; rewrite Est].
  - apply suspend_more_wp; [done|done|by unfold task_abs; rewrite Est].
  - do 4 kstep. one_task s t (set_task_state K_SLEEP_SUSPENDED (set_suspend_count 1 k)).
    apply (suspend_tag_wp t k); [done..|retag_tac Est|reflexivity].
  - apply suspend_more_wp; [done|done|by unfold task_abs; rewrite Est].
  - eapply wp_mono; [by apply (task_same_wp t)|]. intros r s'. by rewrite (tabs_Some s t k Hk); unfold task_abs; rewrite Est.
Qed.

(** The call refuses the idle task, the one task of the lowest priority. *)
Definition suspend_call_result (s : kstate) (t : tid) : kstat_t * option atask :=
  if bool_decide (prio <$> tasks s !! t = Some RHINO_IDLE_PRI) then (RHINO_TASK_SUSPEND_NOT_ALLOWED, tabs s t) else suspend_result s t.

Lemma suspend_call_spec t k s :
  Inv s -> tasks s !! t = Some k -> wp (krhino_task_suspend (Some t)) (task_post s t (suspend_call_result s t)) s.
Proof.
  intros HI Hk. unfold krhino_task_suspend, suspend_call_result. cbn [NULL_PARA_CHK]. do 2 kstep. rewrite Hk. cbn [fmap option_fmap option_map].
  destruct (prio k =? RHINO_IDLE_PRI) eqn:E; zbool.
  - rewrite bool_decide_true by exact (f_equal Some E). kstep. by split_and!.
  - rewrite bool_decide_false by (intros [= X]; exact (E X)). apply (task_suspend_spec t k); [done..|]. by eapply inv_idle_prio.
Qed.

Lemma roused_now x s t k k' pa tk' rq' :
  Inv0x x s -> tk' = list_rm t (g_tick_head s) -> tasks s !! t = Some k -> ~ pending k -> task_state k <> K_RDY -> live k ->
  prio k' = prio k -> b_prio k' = b_prio k -> mutex_list k' = mutex_list k -> tick_head k' = false -> task_state k' = K_RDY ->
  rq_added t (prio k) pa (g_ready_queue s) rq' ->
  Inv0x x (set_lists (<[t := k']> (tasks s)) (blks s) tk' rq' s).
Proof.
  intros H0 -> Hk Hp Hr Hl Ep Eb El Eh Est Hrq. pose proof (ci_mi s (i0_ci x s H0)) as [Hbase Hinh].
  apply (roused_inv0 x (g_tick_count s) t k k' pa _ rq' s); try done.
  - by apply inv0_ni.
  - by rewrite Est.
  - left. unfold live. by rewrite Est.
  - unfold rq_wake. by rewrite Est.
Qed.

(** A suspended task that waits for nothing becomes ready. *)
Lemma rouse_suspended_wp t k k' r q s :
  Inv s -> tasks s !! t = Some k -> task_state k = K_SUSPENDED ->
  prio k' = prio k -> b_prio k' = b_prio k -> mutex_list k' = mutex_list k -> tick_head k' = tick_head k -> task_state k' = K_RDY ->
  task_abs k' = q ->
  wp (ready_list_add t) (fun _ => wp (RHINO_CRITICAL_EXIT_SCHED (irq_off s);; mret r) (task_post s t (r, q)))
    (set_tasks (<[t := k']> (tasks s)) (set_irq_off true s)).
Proof.
  intros HI Hk Hst Ep Eb El Eh Est Ea. pose proof (inv_0 s HI) as H0. pose proof (ci_wf s (i0_ci _ s H0)) as Hwf.
  destruct (inv0_active None s H0) as (a & ka & Ha & Hka).
  assert (tick_head k = false) as Hoff by (eapply rdy_no_timeout; [done..|by rewrite Hst]).
  assert (exists ka', <[t := k']> (tasks s) !! a = Some ka') as [ka' Hka']
    by (apply lookup_insert_is_Some; destruct (decide (t = a)); [by left|right; eauto]).
  eapply (ready_list_add_wp t k' a ka'); [apply Hwf|apply lookup_insert_eq|rewrite Ep; apply (to_prio _ _ (wf_task s Hwf t k Hk))|done|done|].
  intros rq' Hok Hr. rewrite Ep in Hr. apply task_finish_wp; [|rewrite <- Ea; by apply tabs_only_insert].
  assert (t ∉ g_tick_head s) as Hnt by (eapply list_ok_notin; [apply (wf_tick s Hwf)|done|]; unfold in_tick; by rewrite Hoff).
  apply (roused_now None (set_irq_off true s) t k k' (prio ka') (g_tick_head s) rq'); try done;
    [by apply inv0_irq|symmetry; by apply list_rm_notin|intros [E|E]; congruence|congruence|unfold live; by rewrite Hst|congruence].
Qed.

Lemma task_resume_spec t k s :
  Inv s -> tasks s !! t = Some k ->
  wp (task_resume t) (task_post s t (at_resume suspend_nested_bits (tabs s t))) s.
Proof.
  intros HI Hk.
  assert (forall r q, task_abs k = q -> wp (critical_return (irq_off s) r) (task_post s t (r, q)) (set_irq_off true s)) as Hsame
    by (intros r q <-; rewrite <- (tabs_Some s t k Hk); by apply task_same_wp).
  rewrite (tabs_Some s t k Hk). unfold task_resume. kstep. apply wp_critical_enter. do 2 kstep.
  unfold task_abs. destruct (task_state k) eqn:Est; cbn [at_resume].
  all: try (apply Hsame; unfold task_abs; by rewrite Est).
  all: set (n := wrap suspend_nested_bits (suspend_count k - 1)); do 4 kstep; cbn [suspend_count set_suspend_count];
    destruct (n =? 0); cbn [negb].
  2,4,6: do 2 kstep; apply (suspend_tag_wp t k (set_suspend_count n k) _ _ s);
    [done..|retag_tac Est|unfold task_abs; cbn; by rewrite Est].
  - do 3 kstep. one_task s t (set_task_state K_RDY (set_suspend_count n k)). by apply (rouse_suspended_wp t k).
  - do 2 kstep. one_task s t (set_task_state K_PEND (set_suspend_count n k)).
    apply (suspend_tag_wp t k); [done..|retag_tac Est|done].
  - do 2 kstep. one_task s t (set_task_state K_SLEEP (set_suspend_count n k)).
    apply (suspend_tag_wp t k); [done..|retag_tac Est|done].
Qed.

(** ** Aborting a wait *)

Lemma tabs_left_wait t k' s s' : left_wait t k' s s' -> tabs_only t (task_abs k') s s'.
Proof.
  intros [_ _ [p Hs] Ho]. split; [by rewrite (tabs_Some _ _ _ Hs)|]. intros u Hu. unfold tabs. rewrite (Ho u Hu).
  by destruct (tasks s !! u).
Qed.

Definition abort_result (s : kstate) (t : tid) : kstat_t * option atask :=
  if 0 <? g_intrpt_nested_level s then (RHINO_NOT_CALLED_BY_INTRPT, tabs s t) else at_abort (tabs s t).

Lemma abort_pend_wp t k o q s :
  Inv s -> tasks s !! t = Some k -> in_blk o k -> q = Some (mk_atask None false (suspend_count k)) ->
  wp (tick_list_rm t;; task_list_rm t;; ready_list_add t;; upd_task t (set_task_state K_RDY);;
      upd_task t (set_blk_state BLK_ABORT);; mutex_task_pri_reset t;; upd_task t (set_blk_obj None);;
      RHINO_CRITICAL_EXIT_SCHED (irq_off s);; mret RHINO_SUCCESS) (task_post s t (RHINO_SUCCESS, q)) (set_irq_off true s).
Proof.
  intros HI Hk Hin ->. pose proof (inv_0 s HI) as H0. pose proof (ci_wf s (i0_ci _ s H0)) as Hwf.
  destruct (inv0_active None s H0) as (a & ka & Ha & Hka).
  eapply (unlink_wait_wp t k o); [by apply (wf_same s)|done..|].
  assert (exists ka', <[t := set_tick_head false k]> (tasks s) !! a = Some ka') as [ka' Hka']
    by (apply lookup_insert_is_Some; destruct (decide (t = a)); [by left|right; eauto]).
  kstep. eapply (ready_list_add_wp t _ a ka'); [apply Hwf|cbn; apply lookup_insert_eq|apply (to_prio _ _ (wf_task s Hwf t k Hk))|done|done|].
  intros rq' Hok Hr. do 4 kstep. set (k' := set_blk_state BLK_ABORT (set_task_state K_RDY (set_tick_head false k))).
  match goal with |- wp _ _ ?x => assert (x = set_lists (<[t := k']> (tasks s)) (blk_without t o (blks s)) (list_rm t (g_tick_head s)) rq'
    (set_irq_off true s)) as -> by (cbn; rewrite !insert_insert_eq; reflexivity) end.
  apply wp_bind_assoc. eapply (left_wait_wp None (g_tick_count s) t k k' o (prio ka') rq' _ (set_irq_off true s)); try done.
  - by apply (inv0_irq None true s).
  - apply Hin.
  - intros s1 H1 Hl. apply task_finish_wp; [|by apply (tabs_left_wait t (set_blk_obj None k') (set_irq_off true s) s1)].
    destruct Hl as [Hl _ _ _]. rewrite Hl in H1 |- *. exact H1.
Qed.

Lemma abort_sleep_wp t k q s :
  Inv s -> tasks s !! t = Some k -> sleeping k -> q = Some (mk_atask None false (suspend_count k)) ->
  wp (tick_list_rm t;; ready_list_add t;; upd_task t (set_task_state K_RDY);; upd_task t (set_blk_state BLK_ABORT);;
      RHINO_CRITICAL_EXIT_SCHED (irq_off s);; mret RHINO_SUCCESS) (task_post s t (RHINO_SUCCESS, q)) (set_irq_off true s).
Proof.
  intros HI Hk Hs ->. pose proof (inv_0 s HI) as H0. pose proof (ci_wf s (i0_ci _ s H0)) as Hwf.
  destruct (inv0_active None s H0) as (a & ka & Ha & Hka).
  kstep. eapply (tick_list_rm_wp t k); [apply Hwf|done|].
  assert (exists ka', <[t := set_tick_head false k]> (tasks s) !! a = Some ka') as [ka' Hka']
    by (apply lookup_insert_is_Some; destruct (decide (t = a)); [by left|right; eauto]).
  kstep. eapply (ready_list_add_wp t _ a ka'); [apply Hwf|cbn; apply lookup_insert_eq|apply (to_prio _ _ (wf_task s Hwf t k Hk))|done|done|].
  intros rq' Hok Hr. do 4 kstep. set (k' := set_blk_state BLK_ABORT (set_task_state K_RDY (set_tick_head false k))).
  match goal with |- wp _ _ ?x => assert (x = set_lists (<[t := k']> (tasks s)) (blks s) (list_rm t (g_tick_head s)) rq'
    (set_irq_off true s)) as -> by (cbn; rewrite !insert_insert_eq; reflexivity) end.
  apply task_finish_wp; [|by apply (tabs_only_insert t k')].
  apply (roused_now None (set_irq_off true s) t k k' (prio ka')); try done; [by apply inv0_irq|..].
  - intros [E|E]; destruct Hs; congruence.
  - destruct Hs; congruence.
  - unfold live. destruct Hs as [E|E]; by rewrite E.
Qed.

Lemma task_wait_abort_spec t k s :
  Inv s -> tasks s !! t = Some k -> wp (krhino_task_wait_abort (Some t)) (task_post s t (abort_result s t)) s.
Proof.
  intros HI Hk. unfold krhino_task_wait_abort, abort_result. cbn [NULL_PARA_CHK]. kstep.
  apply wp_critical_enter, wp_nested_chk; cbn [g_intrpt_nested_level set_irq_off].
  { intros Hn. rewrite (proj2 (Z.ltb_lt _ _)) by done. by split_and!. }
  intros Hn. rewrite (proj2 (Z.ltb_ge _ _)) by done. do 2 kstep. rewrite (tabs_Some s t k Hk).
  pose proof (wf_task s (ci_wf s (i0_ci _ s (inv_0 s HI))) t k Hk) as Hto.
  assert (pending k -> exists o, in_blk o k) as Hpend by (intros Hp; destruct (to_pend _ _ Hto Hp) as (o & b & Eo & _); by exists o).
  unfold task_abs, pending in *. destruct (task_state k) eqn:Est; cbn [at_abort at_count].
  - by apply Hto in Est.
  - apply task_finish_wp; [by apply inv0_irq, HI|]. split; [|done].
    transitivity (task_abs k); [exact (tabs_Some s t k Hk)|unfold task_abs; by rewrite Est].
  - destruct Hpend as [o Hin]; [by left|]. by apply (abort_pend_wp t k o).
  - do 3 kstep. one_task s t (set_task_state K_RDY k). by apply (rouse_suspended_wp t k).
  - destruct Hpend as [o Hin]; [by right|]. by apply (abort_pend_wp t k o).
  - apply (abort_sleep_wp t k); [done..|by left|done].
  - apply (abort_sleep_wp t k); [done..|by right|done].
  - eapply wp_mono; [by apply (task_same_wp t)|]. intros r s'. by rewrite (tabs_Some s t k Hk); unfold task_abs; rewrite Est.
Qed.

(** ** Sleeping *)

Definition asleep (now ticks : Z) (k : ktask_t) : ktask_t := set_timeout now ticks (set_task_state K_SLEEP k).

Lemma asleep_inv0 x s a k ticks tk' rq' :
  Inv0x x s -> tasks s !! a = Some k -> task_state k = K_RDY -> a <> g_idle_task -> g_sched_lock s = 0 -> 0 < ticks < 2 ^ 63 ->
  tick_added (tasks s) (g_tick_count s) ticks a (g_tick_head s) tk' -> tk' ≡ₚ a :: g_tick_head s ->
  rq_removed a (prio k) (g_ready_queue s) rq' ->
  Inv0x x (set_lists (<[a := asleep (g_tick_count s) ticks k]> (tasks s)) (blks s) tk' rq' s).
Proof.
  intros H0 Hk Hr Hi Hl Ht Hadd Hp Hrq. pose proof (i0_ci x s H0) as HC. pose proof (ci_wf s HC) as Hwf.
  assert (tick_head k = false) as Hoff by (eapply rdy_no_timeout; [done..|by rewrite Hr]).
  assert (a ∉ g_tick_head s) as Hnt by (eapply list_ok_notin; [apply (wf_tick s Hwf)|done|]; unfold in_tick; by rewrite Hoff).
  set (k' := asleep _ _ k). assert (~ pending k') as Hnp by (by intros [E|E]).
  assert (~ pending k) as Hnp0 by (intros [E|E]; congruence).
  apply (inv0_step x s _ a k k'); try done; [|by intros o [? _]].
  apply (ci_step s _ a k k'); try done.
  - unfold mproj. cbn. by rewrite Hr.
  - intros o _. split; by intros [? _].
  - apply (wf_step s _ a k'); try done; cbn.
    + apply Hrq.
    + eapply rq_leave; [apply (wf_ready s Hwf)|done|done|by apply rq_removed_left].
    + apply blk_out; [apply Hwf|by apply (lookup_only _ _ _ _ Hk)|done].
    + by eapply list_ok_add; [apply (wf_tick s Hwf)|..].
    + pose proof (wf_task s Hwf a k Hk) as []. split; try done. intros _. left. by left.
  - eapply (tick_inv_enter s _ a k' (ci_tick s HC)); [reflexivity|reflexivity|apply Hwf|done|exact Ht|done|done].
Qed.

Lemma asleep_rem s k ticks : 0 < ticks < 2 ^ 63 -> tick_rem s (asleep (g_tick_count s) ticks k) = ticks.
Proof.
  intros Ht. unfold tick_rem. cbn. unfold u64. rewrite wrap_sub_l, Z.add_simpl_l. apply wrap_small. lia.
Qed.

Lemma task_sleep_spec ticks s :
  Inv s -> 0 <= ticks < 2 ^ 63 -> g_active_task s <> Some g_idle_task ->
  wp (krhino_task_sleep ticks) (fun r s' => Inv s' /\ irq_off s' = irq_off s /\
    if ticks =? 0 then r = Ret RHINO_INV_PARAM /\ s' = s
    else if 0 <? g_intrpt_nested_level s then r = Ret RHINO_NOT_CALLED_BY_INTRPT /\ s' = s
    else if 0 <? g_sched_lock s then r = Ret RHINO_SCHED_DISABLE /\ s' = s
    else r = Blocked /\ exists a k k', g_active_task s = Some a /\ tasks s !! a = Some k /\
      tabs_only a (Some (mk_atask (Some ASleep) false (suspend_count k))) s s' /\
      tasks s' !! a = Some k' /\ tick_head k' = true /\ tick_rem s' k' = ticks) s.
Proof.
  intros HI Ht Hidle. pose proof (inv_0 s HI) as H0. unfold krhino_task_sleep.
  destruct (Z.eqb_spec ticks 0) as [E|E]; [by kstep|]. kstep.
  apply wp_critical_enter, wp_nested_chk; cbn [g_intrpt_nested_level set_irq_off].
  { intros Hn. rewrite (proj2 (Z.ltb_lt _ _)) by done. done. }
  intros Hn. rewrite (proj2 (Z.ltb_ge _ _)) by done. do 2 kstep. cbn [g_sched_lock set_irq_off].
  destruct (Z.ltb_spec 0 (g_sched_lock s)); [done|].
  destruct (inv_active s HI) as (a & k & Ha & Hk & Hr); [pose proof (i0_nest _ s H0) as []; lia|].
  pose proof (ci_wf s (i0_ci _ s H0)) as Hwf. pose proof (i0_lock_range _ s H0).
  assert (a <> g_idle_task) as Hai by congruence.
  assert (tick_head k = false) as Hoff by (eapply rdy_no_timeout; [done..|by rewrite Hr]).
  assert (a ∉ g_tick_head s) as Hnt by (eapply list_ok_notin; [apply (wf_tick s Hwf)|done|]; unfold in_tick; by rewrite Hoff).
  do 5 kstep. eapply tick_list_insert_wp; [|cbn; apply lookup_insert_eq|done|lia|].
  { cbn. eapply list_ok_same; [apply (wf_tick s Hwf)|done|done]. }
  intros tk' Hadd Hp. cbn [tasks g_tick_count g_tick_head set_tasks set_irq_off] in Hadd, Hp.
  assert (tick_added (tasks s) (g_tick_count s) ticks a (g_tick_head s) tk') as Hadd'.
  { unfold tick_added in *. rewrite <- Hadd. apply scan_insert_ext. intros x Hx. cbn. by rewrite lookup_insert_ne by set_solver. }
  set (s0 := set_g_tick_head tk' (set_irq_off true s)).
  match goal with |- wp _ _ ?x => assert (x = set_tasks (<[a := asleep (g_tick_count s) ticks k]> (tasks s0)) s0) as ->
    by (cbn; rewrite ?insert_insert_eq; reflexivity) end.
  kstep. eapply (unready_wp a k _ _ s0); [apply Hwf|apply (wf_ready s Hwf)|exact (idle_is_ready s (i0_ci _ s H0))|done..|].
  intros rq' Hrq. set (s1 := set_g_ready_queue rq' _). apply exit_sched_inv.
  { apply (asleep_inv0 None (set_irq_off true s) a k ticks tk' rq'); try done; [by apply inv0_irq|cbn; lia|lia]. }
  intros s' Hre HI'. split_and!; [done|by eapply irq_resched|done|].
  destruct (resched_eq _ _ Hre) as (ts & a' & p' & Es' & Hts). destruct (Hts a) as [sp Esp].
  exists a, k, (set_task_stack sp (asleep (g_tick_count s) ticks k)). split_and!; try done.
  - by eapply tabs_only_resched; [apply (tabs_only_insert a (asleep (g_tick_count s) ticks k) s s1)|].
  - rewrite Es'. cbn. rewrite Esp. cbn. by rewrite lookup_insert_eq.
  - rewrite Es'. apply (asleep_rem s k ticks). lia.
Qed.

End task.
