(* ===== verification/TaskLife.v ===== *)
(** * Creating and deleting tasks *)

From S2P Require Import Prelude KErr RingBuf KState KMonad Sched Pend KInv Mutex PriInv Sem Event Queue Inv Moves Task KSys Boot Handover SchedSpec Timeout TickSpec TaskSpec.
Local Open Scope Z_scope.

(** ** Creation *)

(** Storage that holds no task: never used, or of a deleted task. *)
Definition task_free (s : kstate) (t : tid) : Prop := forall k, tasks s !! t = Some k -> task_state k = K_DELETED.

(** A task that holds and waits for nothing appears. *)
Lemma mi_new_task s s1 t k' :
  MI s -> task_free s t -> tasks s1 = <[t := k']> (tasks s) -> mutexes s1 = mutexes s -> blks s1 = blks s ->
  mutex_list k' = None -> prio k' = b_prio k' -> ~ pending k' -> live k' -> MI s1.
Proof.
  intros [Hb Hi] Hfree Ht Hm Hbl El Ep Hnp Hlv.
  assert (forall o u, owned s1 o u <-> owned s o u) as Hown by (intros; unfold owned, is_mutex; by rewrite Hm, Hbl).
  assert (forall o, ~ owned s o t) as Hno.
  { intros o Ho. destruct (mi_owner s Hb o t Ho) as (_ & k & Hk & Hl). by apply Hl, Hfree. }
  assert (forall w o, waits s w o -> w <> t) as Hwt.
  { intros w o [_ (k & Hk & [[E|E] _])] ->; specialize (Hfree k Hk); congruence. }
  assert (forall w o, waits s1 w o <-> waits s w o) as Hw.
  { intros w o. split; intros Hx; pose proof Hx as [Hmu (k & Hk & Hin)].
    - rewrite Ht, lookup_insert_Some in Hk. destruct Hk as [[<- <-]|[? ?]]; [by destruct Hin|].
      split; [unfold is_mutex in *; by rewrite Hbl in Hmu|by exists k].
    - split; [unfold is_mutex in *; by rewrite Hbl|]. exists k. split; [|done]. rewrite Ht, lookup_insert_ne; [done|].
      apply not_eq_sym. by eapply Hwt. }
  assert (forall w, w <> t -> prio_of (tasks s1) w = prio_of (tasks s) w) as Hpr by (intros w Hne; rewrite Ht; by apply prio_of_insert_ne).
  split; [split|].
  - intros u k. rewrite Ht, lookup_insert_Some, Hm. intros [[<- <-]|[Hne Hk]] Hl.
    + exists []. rewrite El. split_and!; [done|constructor|]. intros o. rewrite Hown. split; [set_solver|]. intros Ho. by apply Hno in Ho.
    + destruct (mi_chain s Hb u k Hk Hl) as (l & ? & ? & ?). exists l. split_and!; [done..|]. intros o. by rewrite Hown.
  - intros o u Ho%Hown. destruct (mi_owner s Hb o u Ho) as (? & k & Hk & ?). split; [done|]. exists k. split; [|done].
    rewrite Ht, lookup_insert_ne; [done|]. intros ->. by apply Hno in Ho.
  - intros w o Hx%Hw. destruct (mi_wait s Hb w o Hx) as (u & ? & ?). exists u. by rewrite Hown.
  - rewrite Hbl, Hm. apply (mi_mutex s Hb).
  - intros u. destruct (decide (u = t)) as [->|Hne].
    + intros k Hk _. rewrite Ht, lookup_insert_eq in Hk. injection Hk as <-. split.
      * left. exists k'. by rewrite Ht, lookup_insert_eq.
      * intros q [(k & Hk & ->)|[(w & o & Ho%Hown & _)|[]]]; [|by apply Hno in Ho].
        rewrite Ht, lookup_insert_eq in Hk. injection Hk as <-. lia.
    + apply (inherit_ext s); [apply Hi|..].
      * intros k Hk Hl. rewrite Ht, lookup_insert_ne in Hk by done. by exists k.
      * intros w o Ho%Hown Hx%Hw. left. split_and!; [done..|]. apply Hpr. by eapply Hwt.
      * intros w o Ho Hx. rewrite Hown, Hw. split_and!; [done..|]. apply Hpr. by eapply Hwt.
Qed.

Section life.
Context `{CpuPort}.

Lemma new_task_inv0 s t k' rq' :
  Inv0 s -> task_free s t -> g_active_task s <> Some t ->
  prio_ok (prio k') -> b_prio k' = prio k' -> mutex_list k' = None -> tick_head k' = false ->
  (task_state k' = K_RDY /\ rq_ok rq' /\ rq_entered t (prio k') (g_ready_queue s) rq' \/
   task_state k' = K_SUSPENDED /\ rq' = g_ready_queue s) ->
  Inv0 (set_g_ready_queue rq' (set_tasks (<[t := k']> (tasks s)) s)).
Proof.
  intros [HC HO HL Hn Hl Hst] Hfree Hact Hp Eb El Eh Hrq. pose proof HC as [Hwf Hmi [Hs Hrg] (ki & Hki & Hri & Hbi) (a & ka & Ha & Hka)].
  set (s1 := set_g_ready_queue _ _).
  assert (forall k, tasks s !! t = Some k -> task_state k <> K_RDY /\ ~ pending k /\ tick_head k = false) as Hold.
  { intros k Hk. pose proof (Hfree k Hk) as E. split_and!; [congruence|intros [?|?]; congruence|].
    eapply rdy_no_timeout; [done..|by rewrite E]. }
  assert (~ pending k' /\ ~ sleeping k' /\ task_state k' <> K_SEED /\ live k') as (Hnp & Hns & Hse & Hlv)
    by (unfold pending, sleeping, live; destruct Hrq as [[E _]|[E _]]; rewrite E; naive_solver).
  assert (t ∉ g_tick_head s) as Hnt.
  { intros (k & Hk & Hh)%(proj2 (wf_tick s Hwf)). destruct (Hold k Hk) as (_ & _ & E). unfold in_tick in Hh. congruence. }
  assert (t <> g_idle_task) as Hti by (intros ->; specialize (Hfree ki Hki); congruence).
  assert (tasks s1 !! a = Some ka) as Hka1 by (cbn; rewrite lookup_insert_ne; [done|congruence]).
  split; try done.
  - split.
    + apply (wf_step s s1 t k'); try done; cbn.
      * destruct Hrq as [(_ & ? & _)|[_ ->]]; [done|apply Hwf].
      * destruct Hrq as [(? & _ & ?)|[? ->]]; [eapply rq_enter; [apply (wf_ready s Hwf)|by intros; apply Hold|done..]
          |apply rq_out; [apply (wf_ready s Hwf)|by intros; apply Hold|congruence]].
      * apply blk_out; [apply Hwf|by intros; apply Hold|done].
      * apply list_ok_out; [apply Hwf|done|]. unfold in_tick. by rewrite Eh.
      * split; rewrite ?Eb, ?Eh; done.
    + by apply (mi_new_task s s1 t k').
    + split.
      * eapply sorted_ext; [|exact Hs]. intros u Hu. eapply rem_of_ne; [done..|]. intros ->. done.
      * intros u ku. cbn. rewrite lookup_insert_Some. intros [[<- <-]|[_ Hu]] Hh; [congruence|]. exact (Hrg u ku Hu Hh).
    + exists ki. cbn. by rewrite lookup_insert_ne.
    + by exists a, ka.
  - intros o Ho. eapply (obj_ok_step s); [done..| |by apply HO]. intros u ku. cbn. rewrite lookup_insert_Some.
    intros [[<- <-]|[_ Hu]] Hi; [by destruct Hi|eauto].
  - intros Hne. destruct (HL Hne) as (a' & ka' & Ha' & Hka' & Hr'). exists a', ka'. split_and!; [done| |done].
    cbn. rewrite lookup_insert_ne; [done|congruence].
Qed.

(** What [krhino_task_create] returns, and the new task. *)
Definition create_result (s : kstate) (t : tid) (name stack_buf entry : option Z) (size pri autorun : Z) : kstat_t * option atask :=
  if negb (bool_decide (is_Some name /\ is_Some entry /\ is_Some stack_buf)) then (RHINO_NULL_PTR, tabs s t)
  else if size =? 0 then (RHINO_TASK_INV_STACK_SIZE, tabs s t)
  else if RHINO_CONFIG_PRI_MAX <=? pri then (RHINO_BEYOND_MAX_PRI, tabs s t)
  else if 0 <? g_intrpt_nested_level s then (RHINO_NOT_CALLED_BY_INTRPT, tabs s t)
  else if (pri =? RHINO_IDLE_PRI) && (0 <? g_idle_task_spawned s) then (RHINO_IDLE_TASK_EXIST, tabs s t)
  else (RHINO_SUCCESS, Some (mk_atask None (negb (0 <? autorun)) (if 0 <? autorun then 0 else 1))).

Lemma new_task_fields name arg pri ticks st size entry autorun flag cpu :
  let k := new_task name arg pri ticks st size entry autorun flag cpu in
  prio k = pri /\ b_prio k = pri /\ mutex_list k = None /\ tick_head k = false /\
  task_state k = (if 0 <? autorun then K_RDY else K_SUSPENDED) /\
  task_abs k = Some (mk_atask None (negb (0 <? autorun)) (if 0 <? autorun then 0 else 1)).
Proof. cbn. unfold new_task, task_abs. by destruct (0 <? autorun), (0 <? ticks). Qed.

Lemma inv0_spawned x n s : Inv0x x s -> Inv0x x (set_g_idle_task_spawned n s).
Proof. apply inv0_core; [done|]. intros o _. by apply obj_ok_same. Qed.

Lemma task_create_wp t name arg pri ticks stack_buf size entry autorun flag cpu s :
  Inv s -> task_free s t -> g_active_task s <> Some t -> 0 <= pri ->
  wp (task_create (Some t) name arg pri ticks stack_buf size entry autorun flag cpu)
    (task_post s t (create_result s t name stack_buf entry size pri autorun)) s.
Proof.
  intros HI Hfree Hact Hpri. pose proof (inv_0 s HI) as H0.
  assert (forall r, wp (mret r) (task_post s t (r, tabs s t)) s) as Hret by (intros r; kstep; by split_and!).
  unfold task_create, create_result. cbn [NULL_PARA_CHK].
  destruct name as [name|]; cbn [NULL_PARA_CHK]; [|rewrite bool_decide_false; [by apply Hret|intros [[? ?] _]; done]].
  destruct entry as [entry|]; cbn [NULL_PARA_CHK]; [|rewrite bool_decide_false; [by apply Hret|intros (_ & [? ?] & _); done]].
  destruct stack_buf as [st|]; cbn [NULL_PARA_CHK]; [|rewrite bool_decide_false; [by apply Hret|intros (_ & _ & [? ?]); done]].
  rewrite bool_decide_true by eauto. cbn [negb]. destruct (size =? 0); [by apply Hret|].
  destruct (Z.leb_spec RHINO_CONFIG_PRI_MAX pri) as [|Hmax]; [by apply Hret|]. kstep.
  apply wp_critical_enter, wp_nested_chk; cbn [g_intrpt_nested_level set_irq_off].
  { intros Hn. rewrite (proj2 (Z.ltb_lt _ _) Hn). by split_and!. }
  intros Hn. rewrite (proj2 (Z.ltb_ge _ _) Hn). do 2 kstep. cbn [g_idle_task_spawned set_irq_off].
  destruct (_ && (0 <? g_idle_task_spawned s)); [by apply task_same_wp|]. kstep.
  apply (wp_mono _ (fun _ s1 => exists n, s1 = set_irq_off true (set_g_idle_task_spawned n s))).
  { destruct (pri =? RHINO_IDLE_PRI); kstep; [by eexists|by exists (g_idle_task_spawned s)]. }
  intros [] s1 [n ->]. unfold RHINO_CRITICAL_EXIT, RHINO_CPU_INTRPT_ENABLE. do 5 kstep. apply wp_critical_enter.
  set (k := new_task _ _ _ _ _ _ _ _ _ _).
  destruct (new_task_fields name arg pri ticks st size entry autorun flag cpu) as (Ep & Eb & El & Eh & Est & Ea). fold k in Ep, Eb, El, Eh, Est, Ea.
  set (s0 := set_irq_off true (set_g_idle_task_spawned n s)). assert (Inv0 s0) as Hs0 by (by apply inv0_irq, inv0_spawned).
  match goal with |- wp _ _ ?x => change x with (set_tasks (<[t := k]> (tasks s0)) s0) end. cbn [irq_off set_tasks set_g_idle_task_spawned].
  rewrite <- Ea. destruct (0 <? autorun).
  - do 2 kstep. eapply (ready_list_add_tail_wp t k); [apply Hs0|apply lookup_insert_eq|rewrite Ep; done|].
    intros rq' Hok Hrq. do 2 kstep. cbn [g_sys_stat set_g_ready_queue set_tasks]. rewrite (i0_stat _ s0 Hs0), bool_decide_true by done.
    apply wp_unbind, (task_finish_wp t _ _ s); [|by apply (tabs_only_insert t k)].
    apply new_task_inv0; try done. left. split_and!; [done..|]. split.
    + etransitivity; [by rewrite Hrq, decide_True|apply rotate_perm].
    + intros q Hq. by rewrite Hrq, decide_False.
  - ksteps. assert (Inv0 (set_g_ready_queue (g_ready_queue s0) (set_tasks (<[t := k]> (tasks s0)) s0))) as Hn1
      by (apply new_task_inv0; try done; by right).
    split_and!; [|done|done|by apply (tabs_only_insert t k s)]. split; [exact (inv0_irq None (irq_off s) _ Hn1)|].
    intros Hpo. exact (inv_top s HI Hpo).
Qed.

Lemma task_create_spec t name arg pri ticks stack_buf size entry autorun s :
  Inv s -> task_free s t -> g_active_task s <> Some t -> 0 <= pri ->
  wp (krhino_task_create (Some t) name arg pri ticks stack_buf size entry autorun)
    (task_post s t (create_result s t name stack_buf entry size pri autorun)) s.
Proof. apply task_create_wp. Qed.

End life.
