(* ===== verification/TaskDel.v ===== *)
(** * Deleting a task

    The mutexes of the task go to their first waiters, the task leaves its lists,
    and if it waited for a mutex the owner of that is recomputed. *)

From S2P Require Import Prelude KErr RingBuf KState KMonad Sched Pend KInv Mutex PriInv Sem Event Queue Inv Moves Task KSys Boot Handover MutexSpec SchedSpec Timeout TickSpec TaskSpec.
Local Open Scope Z_scope.

(** The state as if the list of mutexes of [t] started at [v]. *)
Definition holding (t : tid) (kt : ktask_t) (v : option oid) (s : kstate) : kstate :=
  set_tasks (<[t := set_mutex_list v kt]> (tasks s)) s.

Section free.
Context `{CpuPort}.

(** While [task_mutex_free] works: [t] still owns [l], starting at [v]; its own
    list is stale and its priority not recomputed. *)
Record freeing (t : tid) (kt : ktask_t) (v : option oid) (l : list oid) (s : kstate) : Prop := {
  fr_task : tasks s !! t = Some kt;
  fr_live : live kt;
  fr_ni : NI None s;
  fr_base : MIbase (holding t kt v s);
  fr_inherit u : u <> t -> prio_inherited no_extra (holding t kt v s) u;
  fr_chain : chain (mutexes s) v l;
  fr_nodup : NoDup l;
  fr_owned o : o ∈ l <-> owned s o t
}.

Lemma holding_wf t kt v s : WF s -> tasks s !! t = Some kt -> WF (holding t kt v s).
Proof. intros Hwf Hk. by eapply wf_kproj. Qed.

Lemma holding_waits t kt v s w o : tasks s !! t = Some kt -> waits (holding t kt v s) w o <-> waits s w o.
Proof.
  intros Hk. unfold waits. split; intros [Hm (k & Hkw & Hin)]; (split; [exact Hm|]).
  - unfold holding in Hkw. cbn in Hkw. rewrite lookup_insert_Some in Hkw. destruct Hkw as [[<- <-]|[? ?]]; [by exists kt|by exists k].
  - unfold holding. cbn. destruct (decide (t = w)) as [<-|]; [|exists k; by rewrite lookup_insert_ne].
    exists (set_mutex_list v kt). rewrite lookup_insert_eq. split; [done|]. assert (k = kt) as -> by congruence. exact Hin.
Qed.

Lemma holding_prio_of t kt v s u : tasks s !! t = Some kt -> prio_of (tasks (holding t kt v s)) u = prio_of (tasks s) u.
Proof.
  intros Hk. unfold holding. cbn. destruct (decide (u = t)) as [->|]; [|by apply prio_of_insert_ne].
  by rewrite prio_of_insert, (prio_of_Some _ _ _ Hk).
Qed.

Lemma ni_mutex s o b m' :
  NI None s -> blks s !! o = Some b -> obj_type b = RHINO_MUTEX_OBJ_TYPE ->
  (mutex_task m' <> None -> 1 <= owner_nested m' < 2 ^ mutex_nested_bits) -> NI None (set_mutexes (<[o := m']> (mutexes s)) s).
Proof.
  intros Hn Hb Hty Hne. apply (ni_core None s); [right; by eexists| |done]. intros o' _ Hob.
  destruct (decide (o' = o)) as [->|]; [by eapply obj_ok_mutex_self|by apply obj_ok_mutex].
Qed.

(** What both cases of one round share. *)
Section round.
Context (t : tid) (kt : ktask_t) (o : oid) (l : list oid) (m : kmutex_t) (b : blk_obj_t) (s : kstate).
Context (Hf : freeing t kt (Some o) (o :: l) s) (Hm : mutexes s !! o = Some m) (Hb : blks s !! o = Some b).

Lemma round_owned : owned s o t.
Proof using Hf. apply (fr_owned _ _ _ _ _ Hf). apply elem_of_cons. by left. Qed.

Lemma round_type : obj_type b = RHINO_MUTEX_OBJ_TYPE.
Proof. destruct round_owned as [(b' & ? & ?) _]. congruence. Qed.

Lemma round_body : mutex_task m = Some t /\ 1 <= owner_nested m < 2 ^ mutex_nested_bits /\ blk_policy b = BLK_POLICY_PRI.
Proof.
  destruct round_owned as [_ (m' & ? & Et)]. assert (m' = m) as -> by congruence.
  destruct (ni_objs _ _ (fr_ni _ _ _ _ _ Hf) o ltac:(done) b Hb) as (Hpol & Hbody & _). rewrite round_type in Hbody.
  destruct Hbody as (m' & ? & Hn). assert (m' = m) as -> by congruence. split_and!; [done|apply Hn; congruence..|done].
Qed.

Lemma round_chain : chain (mutexes s) (m_mutex_list m) l /\ o ∉ l /\ NoDup l.
Proof.
  destruct (fr_chain _ _ _ _ _ Hf) as (_ & m' & ? & Hc). assert (m' = m) as -> by congruence.
  split; [done|]. by apply NoDup_cons, (fr_nodup _ _ _ _ _ Hf).
Qed.

Lemma round_unlink : list_rm o (o :: l) = l.
Proof. apply list_rm_cons_eq, round_chain. Qed.

(** The next state, if its tasks, types and mutexes are as they should be. *)
Lemma round_next y s' :
  tasks s' !! t = Some kt -> NI None s' ->
  ho_step (holding t kt (Some o) s) (holding t kt (m_mutex_list m) s') t o (o :: l) (m_mutex_list m) y (prio kt) ->
  freeing t kt (m_mutex_list m) l s'.
Proof.
  intros Hk' Hn' Hs. pose proof Hf as [Hk Hl Hn Hbase Hinh Hch Hnd Hown].
  assert (WF (holding t kt (Some o) s)) as Hwf by (by apply holding_wf; [apply Hn|]).
  assert (idle_ready (holding t kt (Some o) s)) as Hid.
  { destruct (ni_idle_ready _ _ Hn) as (ki & Hki & Hr). destruct (decide (t = g_idle_task)) as [->|].
    - exists (set_mutex_list (Some o) kt). unfold holding. cbn. rewrite lookup_insert_eq. split; [done|]. cbn. congruence.
    - exists ki. unfold holding. cbn. by rewrite lookup_insert_ne. }
  assert (tasks (holding t kt (Some o) s) !! t = Some (set_mutex_list (Some o) kt)) as Hkh by (unfold holding; cbn; apply lookup_insert_eq).
  assert (o ∈ o :: l) as Ho by set_solver. pose proof round_chain as (Hcl & Hol & Hndl).
  assert (forall o', o' ∈ o :: l <-> owned (holding t kt (Some o) s) o' t) as Hownh by exact Hown.
  assert (forall o' u, owned s' o' u <-> (o' <> o /\ owned s o' u) \/ (o' = o /\ y = Some u)) as Hown'
    by exact (ho_owned_iff _ _ _ _ _ _ _ _ Hownh Ho Hs).
  assert (y <> Some t) as Hyt by (intros Ey; by destruct (ho_next_ne _ _ _ _ _ _ _ _ Hbase Hid Hownh Ho Hs t Ey) as (_ & ? & _)).
  split; try done.
  - exact (ho_base _ _ _ _ _ _ _ _ _ Hbase Hid Hkh Hnd Hownh Ho Hs).
  - intros u Hu. exact (ho_other _ _ _ _ _ _ _ _ _ Hbase Hid Hkh Hownh Ho Hs u Hu (or_introl eq_refl) (Hinh u Hu)).
  - destruct (hs_mutexes _ _ _ _ _ _ _ _ Hs) as (ms & m' & _ & Hc & E & _). rewrite round_unlink in Hc.
    eapply chain_ext; [|exact Hc]. intros o' Ho'. cbn in E. rewrite E, lookup_insert_ne; [done|]. by intros <-.
  - intros o'. rewrite Hown'. split.
    + intros Ho'. left. split; [by intros ->|]. apply Hown. set_solver.
    + intros [[Hne Hx%Hown]|[_ ?]]; [set_solver|done].
Qed.

(** Nobody waits. *)
Lemma round_free :
  blk_list b = [] -> freeing t kt (m_mutex_list m) l (set_mutexes (<[o := set_mutex_task None m]> (mutexes s)) s).
Proof.
  intros El. pose proof Hf as [Hk Hl Hn Hbase Hinh Hch Hnd Hown]. set (s' := set_mutexes _ s).
  apply (round_next None); [done|by apply (ni_mutex s o b); [..|apply round_type|]|]. split.
  - intros u k'. unfold holding. cbn. rewrite !lookup_insert_Some. intros [[<- <-]|[Hne Hu]].
    + exists (set_mutex_list (Some o) kt). rewrite lookup_insert_eq, !decide_True by done. split_and!; try done.
      intros o'. split; [done|by intros [? _]].
    + exists k'. rewrite lookup_insert_ne, !decide_False by done. split_and!; try done. intros o'. split; [done|by intros [? _]].
  - intros u. unfold holding. cbn. rewrite !lookup_insert_is_Some. tauto.
  - done.
  - exists (mutexes s), (set_mutex_task None m). split_and!; try done; [apply links_changed_refl|]. rewrite round_unlink. apply round_chain.
  - intros w Hw%holding_waits; [|done]. by eapply no_waiters; [apply Hn|..].
Qed.

(** The first waiter [w] becomes the owner. *)
Lemma round_pass w kw lw rq' :
  blk_list b = w :: lw -> tasks s !! w = Some kw -> in_blk o kw ->
  let s1 := set_lists (<[w := woken BLK_FINISH kw]> (tasks s)) (blk_without w o (blks s)) (list_rm w (g_tick_head s)) rq' s in
  WF s1 ->
  freeing t kt (m_mutex_list m) l
    (set_tasks (<[w := set_mutex_list (Some o) (woken BLK_FINISH kw)]> (tasks s1))
      (set_mutexes (<[o := set_m_mutex_list (mutex_list kw) (set_mutex_task (Some w) m)]> (mutexes s)) s1)).
Proof.
  intros El Hkw Hin s1 Hwf1. pose proof Hf as [Hk Hl Hn Hbase Hinh Hch Hnd Hown]. set (m' := set_m_mutex_list _ _). set (s' := set_tasks _ _).
  pose proof round_type as Hty. pose proof round_body as (Emt & Hne & Hpol).
  assert (NI None s1) as Hn1 by (by eapply (ni_wake None s w kw o BLK_FINISH)).
  assert (waits s w o) as Hw by (split; [by exists b|by exists kw]).
  assert (t <> w) as Htw.
  { intros Etw. rewrite <- Etw in Hw. apply (holding_waits t kt (Some o) s) in Hw; [|done]. destruct (mi_wait _ Hbase t o Hw) as (u & Hu & Hx).
    apply Hx. eapply owned_unique; [exact Hu|apply round_owned]. }
  assert (blk_types (blks s') = blk_types (blks s)) as Hbt by apply blk_types_without.
  destruct (blk_types_lookup (blks s1) (blks s) o b (eq_sym Hbt) Hb) as (b1 & Hb1 & Et1 & _).
  apply (round_next (Some w)).
  - cbn. by rewrite !lookup_insert_ne by done.
  - eapply (ni_kproj None (set_mutexes (<[o := m']> (mutexes s)) s1) w (woken BLK_FINISH kw)); try done; [|apply lookup_insert_eq].
    apply (ni_mutex s1 o b1); [done|done|congruence|done].
  - split.
    + intros u k'. unfold holding. cbn. rewrite insert_insert_eq, !lookup_insert_Some. intros [[<- <-]|[Hu1 [[<- <-]|[Hu2 Hu]]]].
      * exists (set_mutex_list (Some o) kt). rewrite lookup_insert_eq, !decide_True by done. split_and!; try done.
        intros o'. split; [|by intros [? _]]. intros ?. split; [done|congruence].
      * exists kw. rewrite lookup_insert_ne, !(decide_False (P := w = t)), decide_True by done. split_and!; try done.
        -- unfold live. cbn. destruct Hin as [[E|E] _]; by rewrite E.
        -- intros o'. split; [|by intros [_ ?]]. intros [Hp _]. by destruct (off_lists_spec _ (woken_off kw BLK_FINISH (proj1 Hin))).
      * exists k'. rewrite lookup_insert_ne, !decide_False by congruence. split_and!; try done. intros o'. split; [|by intros [? _]].
        intros ?. split; [done|]. congruence.
    + intros u. unfold holding. cbn. rewrite !lookup_insert_is_Some. destruct (decide (t = u)), (decide (w = u)); tauto.
    + done.
    + exists (mutexes s), m'. split_and!; try done; [apply links_changed_refl|rewrite round_unlink; apply round_chain|].
      intros w' kw' [= <-]. unfold holding. cbn. rewrite lookup_insert_ne by done. intros ?. congruence.
    + split; [by apply holding_waits|]. intros w' Hw'%holding_waits; [|done]. rewrite !holding_prio_of by done.
      by eapply first_most_urgent; [apply Hn|..].
Qed.

End round.
(** ** The loop *)

Lemma lists_only_mutexes M s0 s :
  lists_only (set_mutexes (mutexes s) s0) s -> lists_only (set_mutexes M s0) (set_mutexes M s).
Proof. unfold lists_only. intros E. rewrite E at 1. done. Qed.

Definition heir (s : kstate) (o : oid) (u : tid) : Prop := exists b, blks s !! o = Some b /\ head (blk_list b) = Some u.

Section loop.
Context (t : tid) (kt : ktask_t) (L : list oid) (s0 : kstate).

(** The mutexes of [L] but not [l] have been handed to their first waiters. *)
Record passed (l : list oid) (s : kstate) : Prop := {
  pa_sub o : o ∈ l -> o ∈ L;
  pa_task u k : u <> t -> tasks s0 !! u = Some k ->
    (exists o, o ∈ L /\ o ∉ l /\ heir s0 o u /\ tasks s !! u = Some (set_mutex_list (Some o) (woken BLK_FINISH k))) \/
    (tasks s !! u = Some k /\ forall o, o ∈ L -> o ∉ l -> ~ heir s0 o u);
  pa_dom u : tasks s0 !! u = None -> tasks s !! u = None;
  pa_mutex o b : o ∈ L -> o ∉ l -> blks s0 !! o = Some b -> exists m, mutexes s !! o = Some m /\ mutex_task m = head (blk_list b) /\
    owner_nested <$> mutexes s0 !! o = Some (owner_nested m);
  pa_rest o : o ∈ l -> mutexes s !! o = mutexes s0 !! o;
  pa_blks o : o ∉ L \/ o ∈ l -> blks s !! o = blks s0 !! o;
  pa_frame : lists_only (set_mutexes (mutexes s) s0) s
}.

Lemma passed_free o l m b s :
  passed (o :: l) s -> o ∉ l -> mutexes s !! o = Some m -> blks s !! o = Some b -> blk_list b = [] ->
  passed l (set_mutexes (<[o := set_mutex_task None m]> (mutexes s)) s).
Proof.
  intros [H1 H2 H3 H4 Hr H5 H6] Hol Hm Hb El. pose proof (H5 o ltac:(set_solver)) as Eb.
  assert (forall u, ~ heir s0 o u) as Hno by (intros u (b' & Hb' & Hh); rewrite <- Eb, Hb in Hb'; injection Hb' as <-; by rewrite El in Hh).
  split; try done.
  - intros o' Ho'. apply H1. set_solver.
  - intros u k Hu Hk. destruct (H2 u k Hu Hk) as [(o' & ? & ? & ? & ?)|[Ht Hn]]; [left; exists o'; set_solver|right].
    split; [done|]. intros o' Ho' Hl. destruct (decide (o' = o)) as [->|]; [apply Hno|]. apply Hn; set_solver.
  - intros o' b' Ho' Hl Hb'. cbn. destruct (decide (o' = o)) as [->|Hne].
    + exists (set_mutex_task None m). rewrite lookup_insert_eq, <- Hr, Hm by set_solver. split; [done|]. cbn.
      rewrite <- Eb, Hb in Hb'. injection Hb' as <-. by rewrite El.
    + rewrite lookup_insert_ne by done. apply (H4 o' b'); set_solver.
  - intros o' Ho'. cbn. rewrite lookup_insert_ne by (intros <-; done). apply Hr. set_solver.
  - intros o' [?|?]; apply H5; set_solver.
  - unfold lists_only in *. rewrite H6. done.
Qed.

Lemma passed_pass o l m b w kw lw rq' s :
  passed (o :: l) s -> o ∈ L -> o ∉ l -> w <> t -> mutexes s !! o = Some m -> blks s !! o = Some b -> blk_list b = w :: lw ->
  tasks s !! w = Some kw -> pending kw ->
  let s1 := set_lists (<[w := woken BLK_FINISH kw]> (tasks s)) (blk_without w o (blks s)) (list_rm w (g_tick_head s)) rq' s in
  passed l (set_tasks (<[w := set_mutex_list (Some o) (woken BLK_FINISH kw)]> (tasks s1))
      (set_mutexes (<[o := set_m_mutex_list (mutex_list kw) (set_mutex_task (Some w) m)]> (mutexes s)) s1)).
Proof.
  intros [H1 H2 H3 H4 Hr H5 H6] HoL Hol Hwt Hm Hb El Hkw Hp s1. pose proof (H5 o ltac:(set_solver)) as Eb.
  assert (heir s0 o w) as Hheir by (exists b; rewrite <- Eb, El; done).
  assert (forall u, heir s0 o u -> u = w) as Huniq.
  { intros u (b' & Hb' & Hh). rewrite <- Eb, Hb in Hb'. injection Hb' as <-. rewrite El in Hh. by injection Hh. }
  assert (tasks s0 !! w = Some kw) as Hkw0.
  { destruct (tasks s0 !! w) as [k0|] eqn:E0; [|by rewrite (H3 w E0) in Hkw].
    destruct (H2 w k0 Hwt E0) as [(o' & _ & _ & _ & E)|[E _]]; rewrite Hkw in E; injection E as ->; [|done].
    destruct Hp as [E|E]; cbn in E; by destruct (task_state k0). }
  split; try done.
  - intros o' Ho'. apply H1. set_solver.
  - intros u k Hu Hk. cbn. rewrite insert_insert_eq. destruct (decide (u = w)) as [->|Huw].
    + left. exists o. rewrite lookup_insert_eq. split_and!; [done..|]. congruence.
    + rewrite lookup_insert_ne by done. destruct (H2 u k Hu Hk) as [(o' & ? & ? & ? & ?)|[Ht Hn]]; [left; exists o'; set_solver|right].
      split; [done|]. intros o' Ho' Hl. destruct (decide (o' = o)) as [->|]; [|apply Hn; set_solver]. intros Hx. by apply Huw, Huniq.
  - intros u Hu. cbn. rewrite insert_insert_eq, lookup_insert_ne by congruence. by apply H3.
  - intros o' b' Ho' Hl Hb'. cbn. destruct (decide (o' = o)) as [->|Hne].
    + eexists. rewrite lookup_insert_eq, <- Hr, Hm by set_solver. split; [done|]. cbn.
      rewrite <- Eb, Hb in Hb'. injection Hb' as <-. by rewrite El.
    + rewrite lookup_insert_ne by done. apply (H4 o' b'); set_solver.
  - intros o' Ho'. cbn. rewrite lookup_insert_ne by (intros <-; done). apply Hr. set_solver.
  - intros o' Ho'. cbn. unfold blk_without. assert (o <> o') as Hne by (intros <-; destruct Ho'; done).
    rewrite lookup_alter_ne by done. apply H5. destruct Ho'; set_solver.
  - eapply lists_only_trans; [by apply lists_only_mutexes|]. done.
Qed.

Lemma mutex_free_loop_wp fuel v l (Q : unit -> kstate -> Prop) s :
  freeing t kt v l s -> passed l s -> (length l <= fuel)%nat ->
  (forall s', freeing t kt None [] s' -> passed [] s' -> Q tt s') -> wp (mutex_free_loop fuel v) Q s.
Proof.
  revert v l s. induction fuel as [|fuel IH]; intros v l s Hf Hp Hlen HQ; destruct l as [|o l]; try (cbn in Hlen; lia).
  1,2: pose proof (fr_chain _ _ _ _ _ Hf) as Hc; cbn in Hc; subst v; cbn; by apply HQ.
  pose proof (fr_chain _ _ _ _ _ Hf) as (-> & m & Hm & _). pose proof (round_owned t kt o l s Hf) as [(b & Hb & _) _].
  pose proof (round_chain t kt o l m s Hf Hm) as (_ & Hol & _). pose proof (fr_ni _ _ _ _ _ Hf) as Hn.
  cbn [mutex_free_loop]. do 4 kstep. destruct (blk_list b) as [|w lw] eqn:El.
  - do 2 kstep. apply (IH _ l); [by apply (round_free t kt o l m b)|by eapply passed_free|cbn in Hlen; lia|done].
  - destruct (first_waiter s o b w lw (ni_wf _ _ Hn) Hb El) as (kw & Hkw & Hin & _). destruct (ni_active _ _ Hn) as (a & ka & Ha & Hka).
    do 2 kstep. eapply (pend_task_wakeup_wp w kw a ka o b); [apply Hn|done..|]. intros rq' _ s1 Hwf1.
    do 3 kstep. cbn [mutexes set_mutexes]. do 2 kstep. cbn [mutexes set_mutexes]. do 2 kstep.
    pose proof (round_pass t kt o l m b s Hf Hm Hb w kw lw rq' El Hkw Hin Hwf1) as Hf'.
    match goal with |- wp _ _ ?x => assert (x = set_tasks (<[w := set_mutex_list (Some o) (woken BLK_FINISH kw)]> (tasks s1))
      (set_mutexes (<[o := set_m_mutex_list (mutex_list kw) (set_mutex_task (Some w) m)]> (mutexes s)) s1)) as -> by (cbn; rewrite !insert_insert_eq; reflexivity) end.
    apply (IH _ l); [exact Hf'| |cbn in Hlen; lia|done].
    assert (w <> t) as Hwt.
    { intros ->. pose proof (fr_task _ _ _ _ _ Hf') as Hk'. cbn in Hk'. rewrite insert_insert_eq, lookup_insert_eq in Hk'.
      pose proof (fr_task _ _ _ _ _ Hf) as Hk. rewrite Hk in Hkw. injection Hkw as <-. injection Hk' as E.
      destruct Hin as [[E1|E1] _]; rewrite <- E in E1; cbn in E1; by destruct (task_state kt). }
    eapply passed_pass; try done; [apply (pa_sub _ _ Hp); set_solver|apply Hin].
Qed.

End loop.

(** ** [task_mutex_free] *)

Lemma task_mutex_free_wp t kt (Q : unit -> kstate -> Prop) s :
  Inv0 s -> tasks s !! t = Some kt -> live kt ->
  (forall l s', (forall o, o ∈ l <-> owned s o t) -> freeing t kt None [] s' -> passed t l s [] s' -> Q tt s') ->
  wp (task_mutex_free t) Q s.
Proof.
  intros H0 Hk Hl HQ. pose proof (ci_mi s (i0_ci _ s H0)) as [Hb Hi].
  destruct (mi_chain s Hb t kt Hk Hl) as (l & Hc & Hnd & Hown).
  unfold task_mutex_free. do 4 kstep. assert (holding t kt (mutex_list kt) s = s) as Eh
    by (unfold holding; change (set_mutex_list (mutex_list kt) kt) with kt; by rewrite insert_id).
  eapply (mutex_free_loop_wp t kt l s _ _ l).
  - split; try done; [by apply inv0_ni|by rewrite Eh|intros u _; rewrite Eh; apply Hi].
  - split; try done. intros u k Hu Hku. right. split; [done|]. done.
  - unfold mutex_fuel. pose proof (chain_length _ _ _ Hnd Hc). lia.
  - intros s' Hf Hp. by apply (HQ l).
Qed.

(** ** Leaving the lists *)

(** Deleted; other tasks at most with another inherited priority. *)
Record gone (t : tid) (s s' : kstate) : Prop := {
  go_lists : lists_only s s';
  go_self : exists k', tasks s' !! t = Some k' /\ task_state k' = K_DELETED;
  go_other u : u <> t -> tasks s' !! u = (fun k => set_prio (prio_of (tasks s') u) k) <$> tasks s !! u
}.

Lemma gone_insert t k' s s1 :
  tasks s1 = <[t := k']> (tasks s) -> task_state k' = K_DELETED -> lists_only s s1 -> gone t s s1.
Proof.
  intros Et Es Hl. split; [done|exists k'; by rewrite Et, lookup_insert_eq|]. intros u Hu.
  rewrite Et, lookup_insert_ne, prio_of_insert_ne by done. apply same_prio_of.
Qed.

Section unlink.
Context (t : tid) (kt : ktask_t) (s : kstate).
Context (Hf : freeing t kt None [] s) (Hti : t <> g_idle_task) (Hlk : g_active_task s = Some t -> g_sched_lock s = 0).

Lemma unlink_ni : NI None (holding t kt None s).
Proof. pose proof Hf as []. by eapply ni_kproj. Qed.

Lemma unlink_none o : ~ owned (holding t kt None s) o t.
Proof. intros Ho. by apply (fr_owned _ _ _ _ _ Hf), not_elem_of_nil in Ho. Qed.

Lemma holding_insert k' : <[t := k']> (tasks (holding t kt None s)) = <[t := k']> (tasks s).
Proof. unfold holding. cbn. by rewrite insert_insert_eq. Qed.

Lemma holding_self : tasks (holding t kt None s) !! t = Some (set_mutex_list None kt).
Proof. unfold holding. cbn. apply lookup_insert_eq. Qed.

Lemma unlink_dead_inherit k' u : task_state k' = K_DELETED -> u <> t \/ live k' -> prio_inherited no_extra (holding t kt None s) u.
Proof. intros E [Hu|Hl]; [by apply (fr_inherit _ _ _ _ _ Hf)|]. by destruct Hl. Qed.

(** A ready task. *)
Lemma unlink_ready k' rq' :
  task_state kt = K_RDY -> task_state k' = K_DELETED -> prio k' = prio kt -> b_prio k' = b_prio kt -> tick_head k' = tick_head kt ->
  tick_match k' = tick_match kt -> rq_removed t (prio kt) (g_ready_queue s) rq' ->
  Inv0 (set_tasks (<[t := k']> (tasks s)) (set_g_ready_queue rq' s)).
Proof.
  intros Hr Hd Ep Eb Eh Em Hrq. pose proof Hf as [Hk Hl Hn Hbase Hinh _ _ _]. pose proof (ni_wf _ _ Hn) as Hwf. set (s1 := set_tasks _ _).
  assert (tick_head kt = false) as Hoff by (eapply rdy_no_timeout; [done..|by rewrite Hr]).
  assert (~ pending kt) as Hnp0 by (intros [E|E]; congruence).
  assert (~ pending k' /\ ~ sleeping k') as [Hnp Hns] by (split; intros [E|E]; congruence).
  assert (~ live k') as Hnl by (unfold live; tauto).
  apply ni_inv0.
  - apply (ni_step None s s1 t kt k'); try done; [| |by intros o [? _]|intros ? Hne; by rewrite Hlk in Hne].
    + apply (wf_step s s1 t k'); try done; cbn.
      * apply Hrq.
      * eapply rq_leave; [apply (wf_ready s Hwf)|done|congruence|by apply rq_removed_left].
      * apply blk_out; [apply Hwf|by apply (lookup_only _ _ _ _ Hk)|done].
      * eapply list_ok_same; [apply (wf_tick s Hwf)|done|]. unfold in_tick. by rewrite Eh.
      * pose proof (wf_task s Hwf t kt Hk) as []. split; rewrite ?Ep, ?Eb, ?Hd, ?Eh, ?Hoff; done.
    + eapply (tick_inv_keep s s1 t k' (ni_tick _ _ Hn)); done.
  - assert (tasks s1 = <[t := k']> (tasks (holding t kt None s))) as Et by (by rewrite holding_insert).
    split; [eapply (unwait_base (holding t kt None s) s1 t (set_mutex_list None kt) k'); try done; [apply holding_self|by right; apply unlink_none]|].
    intros u. destruct (decide (u = t)) as [->|Hu].
    + intros k1. rewrite Et, lookup_insert_eq. by intros [= <-].
    + eapply (unwait_inherit (holding t kt None s) s1 t (set_mutex_list None kt) k'); try done; [apply holding_self|by apply Hinh|].
      intros o _ Hw%holding_waits; [|done]. destruct Hw as [_ (k0 & Hk0 & Hp0 & _)]. congruence.
Qed.

(** A task that is suspended or asleep. *)
Lemma unlink_inactive k' tk' :
  tk' = list_rm t (g_tick_head s) -> task_state kt <> K_RDY -> ~ pending kt ->
  task_state k' = K_DELETED -> prio k' = prio kt -> b_prio k' = b_prio kt -> tick_head k' = false ->
  Inv0 (set_tasks (<[t := k']> (tasks s)) (set_g_tick_head tk' s)).
Proof.
  intros Etk Hr Hp Hd Ep Eb Eh. pose proof Hf as [Hk Hl Hn Hbase Hinh _ _ _]. assert (~ live k') as Hnl by (unfold live; tauto).
  pose proof (roused_inv0 None (g_tick_count s) t (set_mutex_list None kt) k' 0 tk' (g_ready_queue s) (holding t kt None s)) as Hi.
  cbv zeta in Hi. rewrite holding_insert in Hi. apply Hi; try done.
  - apply unlink_ni.
  - intros u. by apply unlink_dead_inherit.
  - apply holding_self.
  - by rewrite Hd.
  - right. apply unlink_none.
  - unfold rq_wake. by rewrite Hd.
Qed.

(** A task that waits for an object. *)
Lemma unlink_pend_wp (next : K bool) (Q : bool -> kstate -> Prop) :
  pending kt -> (forall s', Inv0 s' -> gone t s s' -> wp next Q s') ->
  wp (tick_list_rm t;; task_list_rm t;; upd_task t (set_task_state K_DELETED);; mutex_task_pri_reset t;; next) Q s.
Proof.
  intros Hpe HQ. pose proof Hf as [Hk Hl Hn Hbase Hinh _ _ _]. pose proof (ni_wf _ _ Hn) as Hwf.
  destruct (to_pend _ _ (wf_task s Hwf t kt Hk) Hpe) as (o & b & Eo & _). assert (in_blk o kt) as Hin by done.
  eapply (unlink_wait_wp t kt o); [done..|]. do 3 kstep. set (k' := set_task_state K_DELETED (set_tick_head false kt)).
  match goal with |- wp _ _ ?x => assert (x = set_lists (<[t := k']> (tasks (holding t kt None s))) (blk_without t o (blks s))
    (list_rm t (g_tick_head s)) (g_ready_queue s) (holding t kt None s)) as -> by (cbn; rewrite !insert_insert_eq; reflexivity) end.
  assert (~ live k') as Hnl by (by intros []).
  eapply (leave_wait_wp None (g_tick_count s) t (set_mutex_list None kt) k' o 0 (g_ready_queue s) _ (holding t kt None s)); try done.
  - apply unlink_ni.
  - intros u. by apply unlink_dead_inherit.
  - apply holding_self.
  - right. apply unlink_none.
  - intros s2 Hn2 Hmi2 Hp. rewrite holding_insert in Hp. pose proof (pf_rest _ _ Hp) as Er.
    assert (at_tick (g_tick_count s) s2 = s2) as Ec by (rewrite Er; done). rewrite Ec in Hn2. apply HQ; [by apply ni_inv0|]. split.
    + unfold lists_only. rewrite Er. done.
    + exists (set_prio (prio_of (tasks s2) t) k'). split; [|done]. rewrite (pf_tasks _ _ Hp t). cbn. by rewrite lookup_insert_eq.
    + intros u Hu. rewrite (pf_tasks _ _ Hp u). cbn. by rewrite lookup_insert_ne by done.
Qed.

Lemma task_del_unlink_wp bad (Q : bool -> kstate -> Prop) :
  (forall s', Inv0 s' -> gone t s s' -> Q true s') -> wp (task_del_unlink t bad) Q s.
Proof.
  intros HQ. pose proof Hf as [Hk Hl Hn Hbase Hinh _ _ _]. pose proof (ni_wf _ _ Hn) as Hwf. pose proof (wf_task s Hwf t kt Hk) as Hto.
  assert (forall s', Inv0 s' -> gone t s s' -> wp (mret true) Q s') as HQ' by (intros; kstep; by apply HQ).
  assert (forall next : K bool, task_state kt <> K_RDY -> ~ pending kt -> (forall s', Inv0 s' -> gone t s s' -> wp next Q s') ->
    wp (tick_list_rm t;; upd_task t (set_task_state K_DELETED);; next) Q s) as Hsleep.
  { intros next Hr Hp Hnext. kstep. eapply (tick_list_rm_wp t kt); [apply Hwf|done|]. do 2 kstep.
    set (k' := set_task_state K_DELETED (set_tick_head false kt)).
    match goal with |- wp _ _ ?x => assert (x = set_tasks (<[t := k']> (tasks s)) (set_g_tick_head (list_rm t (g_tick_head s)) s)) as ->
      by (cbn; rewrite !insert_insert_eq; reflexivity) end.
    apply Hnext; [by apply unlink_inactive|by apply (gone_insert t k')]. }
  unfold task_del_unlink. do 2 kstep. pose proof Hl as Hl'. unfold live, pending in *. destruct (task_state kt) eqn:Est.
  - by apply Hto in Est.
  - destruct (ni_idle_ready _ _ Hn) as (ki & Hki & Hri). kstep.
    assert (s = set_tasks (<[t := kt]> (tasks s)) s) as Es by (by rewrite insert_id). rewrite Es at 1.
    eapply (unready_wp t kt kt _ s); [apply Hwf|apply (wf_ready s Hwf)|by exists ki|done..|]. intros rq' Hrq. do 2 kstep.
    apply HQ'; [|by apply (gone_insert t (set_task_state K_DELETED kt)); [cbn; rewrite insert_insert_eq|..]].
    cbn. rewrite insert_insert_eq. by apply (unlink_ready (set_task_state K_DELETED kt) rq').
  - apply unlink_pend_wp; [by left|done].
  - kstep. kstep. apply HQ'; [|by apply (gone_insert t (set_task_state K_DELETED kt))].
    assert (tick_head kt = false) as Hoff by (eapply rdy_no_timeout; [done..|by rewrite Est]).
    apply (unlink_inactive (set_task_state K_DELETED kt) (g_tick_head s)); try done; [|congruence|intros [E|E]; congruence].
    symmetry. apply list_rm_notin. eapply list_ok_notin; [apply (wf_tick s Hwf)|done|]. unfold in_tick. by rewrite Hoff.
  - apply unlink_pend_wp; [by right|done].
  - apply Hsleep; [done|by intros [?|?]|done].
  - apply Hsleep; [done|by intros [?|?]|done].
  - done.
Qed.

End unlink.
(** ** [krhino_task_del] *)

(** The waiter of an object that was granted. *)
Definition at_wake (a : atask) : atask := mk_atask None (at_susp a) (at_count a).

(** [t] is deleted: every mutex it owned belongs to the first task that waited
    for it, which stopped waiting; other tasks are as before. *)
Record task_deleted (t : tid) (s s' : kstate) : Prop := {
  de_self : tabs s' t = None;
  de_owner o : ~ owned s' o t;
  de_mutex o b : owned s o t -> blks s !! o = Some b -> exists m, mutexes s' !! o = Some m /\ mutex_task m = head (blk_list b) /\
    owner_nested <$> mutexes s !! o = Some (owner_nested m);
  de_heir o u : owned s o t -> heir s o u -> u <> t -> tabs s' u = at_wake <$> tabs s u;
  de_other u : u <> t -> (forall o, owned s o t -> ~ heir s o u) -> tabs s' u = tabs s u
}.

Lemma task_abs_woken bs k v : pending k -> task_abs (set_mutex_list v (woken bs k)) = at_wake <$> task_abs k.
Proof. unfold task_abs. cbn. by intros [E|E]; rewrite E. Qed.

Lemma heir_pending s o u k : WF s -> heir s o u -> tasks s !! u = Some k -> pending k.
Proof.
  intros Hwf (b & Hb & Hh) Hk. destruct (blk_list b) as [|w l] eqn:El; [done|]. injection Hh as ->.
  destruct (first_waiter s o b u l Hwf Hb El) as (k' & ? & [? _] & _). congruence.
Qed.

Lemma task_deleted_intro t l s s1 s2 s' c :
  WF s -> Inv s' -> (forall o, o ∈ l <-> owned s o t) -> passed t l s [] s1 -> gone t s1 s2 -> resched (set_irq_off c s2) s' ->
  task_deleted t s s'.
Proof.
  intros Hwf HI' Hown [_ Hpt Hpd Hpm _ _ _] [Hl (k' & Hk' & Hd) Ho] Hre.
  assert (tabs s' t = None) as Hself.
  { rewrite (tabs_resched s2 s' t c Hre), (tabs_Some _ _ _ Hk'). unfold task_abs. by rewrite Hd. }
  assert (forall u, u <> t -> tabs s' u = tabs s1 u) as Hother.
  { intros u Hu. rewrite (tabs_resched s2 s' u c Hre). unfold tabs. rewrite (Ho u Hu). by destruct (tasks s1 !! u). }
  assert (mutexes s' = mutexes s1) as Em by (destruct (resched_eq _ _ Hre) as (ts & a & p & -> & _); cbn; by rewrite Hl).
  split; try done.
  - intros o Hx. destruct (mi_owner s' (proj1 (ci_mi s' (i0_ci _ s' (inv_0 s' HI')))) o t Hx) as (_ & k & Hk & Hlive).
    destruct (resched_eq _ _ Hre) as (ts & a & p & E & Hts). rewrite E in Hk. cbn in Hk. destruct (Hts t) as [sp Esp].
    rewrite Esp in Hk. cbn in Hk. rewrite Hk' in Hk. injection Hk as <-. by destruct Hlive.
  - intros o b Hx Hb. rewrite Em. apply (Hpm o b); [by apply Hown|set_solver|done].
  - intros o u Hx Hh Hu. rewrite (Hother u Hu). destruct (tasks s !! u) as [k|] eqn:Hk; [|unfold tabs; by rewrite (Hpd u Hk), Hk].
    destruct (Hpt u k Hu Hk) as [(o' & _ & _ & _ & E)|[_ Hn]]; [|by destruct (Hn o); [apply Hown|set_solver|]].
    rewrite (tabs_Some _ _ _ E), (tabs_Some _ _ _ Hk). apply task_abs_woken. by eapply heir_pending.
  - intros u Hu Hn. rewrite (Hother u Hu). destruct (tasks s !! u) as [k|] eqn:Hk; [|unfold tabs; by rewrite (Hpd u Hk), Hk].
    destruct (Hpt u k Hu Hk) as [(o' & Ho' & _ & Hh & _)|[E _]]; [|unfold tabs; by rewrite E, Hk].
    exfalso. by apply (Hn o'); [apply Hown|].
Qed.

Definition del_target (s : kstate) (task : option tid) : option tid :=
  match task with Some t => Some t | None => g_active_task s end.

Lemma task_del_spec task t k s :
  Inv s -> del_target s task = Some t -> tasks s !! t = Some k -> live k -> prio k <> RHINO_IDLE_PRI ->
  wp (krhino_task_del task) (fun r s' => Inv s' /\ irq_off s' = irq_off s /\
    if 0 <? g_intrpt_nested_level s then r = RHINO_NOT_CALLED_BY_INTRPT /\ s' = s
    else if negb (mm_alloc_flag k =? K_OBJ_STATIC_ALLOC) then r = RHINO_KOBJ_DEL_ERR /\ s' = s
    else if bool_decide (g_active_task s = Some t) && (0 <? g_sched_lock s) then r = RHINO_SCHED_DISABLE /\ s' = s
    else r = RHINO_SUCCESS /\ task_deleted t s s') s.
Proof.
  intros HI Ht Hk Hl Hp. pose proof (inv_0 s HI) as H0. pose proof (inv_idle_prio s t k HI Hk Hp) as Hti.
  unfold krhino_task_del. kstep. apply wp_critical_enter, wp_nested_chk; cbn [g_intrpt_nested_level set_irq_off].
  { intros Hn. rewrite (proj2 (Z.ltb_lt _ _) Hn). done. }
  intros Hn. rewrite (proj2 (Z.ltb_ge _ _) Hn). kstep.
  apply (wp_mono _ (fun t' s1 => t' = t /\ s1 = set_irq_off true s)).
  { destruct task as [t'|]; cbn in Ht; [injection Ht as ->; by kstep|]. by kstep. }
  intros t' s1 [-> ->]. do 2 kstep. rewrite (proj2 (Z.eqb_neq _ _) Hp). destruct (negb _); [done|]. ksteps.
  cbn [g_active_task g_sched_lock set_irq_off].
  rewrite (bool_decide_ext (Some t = g_active_task s) (g_active_task s = Some t)) by naive_solver.
  destruct (bool_decide _ && _) eqn:Elk; [done|]. kstep.
  apply (task_mutex_free_wp t k _ (set_irq_off true s)); [by apply inv0_irq|done..|]. intros l s1 Hown Hf Hpa.
  pose proof (pa_frame _ _ _ _ _ Hpa) as E1. kstep. apply (task_del_unlink_wp t k s1 Hf Hti).
  { rewrite E1. cbn. intros Ha. rewrite bool_decide_true in Elk by done. cbn in Elk. zbool. pose proof (i0_lock_range _ s H0). lia. }
  intros s2 H2 Hgo. apply exit_sched_inv; [done|]. intros s' Hre HI'. split_and!; [done|by eapply irq_resched|done|].
  assert (WF (set_irq_off true s)) as Hwf by (by apply (wf_same s), H0).
  destruct (task_deleted_intro t l (set_irq_off true s) s1 s2 s' (irq_off s) Hwf HI' Hown Hpa Hgo Hre). by split.
Qed.

End free.
