(* ===== verification/PriSpec.v ===== *)
(** * Changing the priority of a task

    [krhino_task_pri_change] sets the base priority; the task runs at the most
    urgent of it and the priorities it inherits, and the change travels along
    the chain of mutex owners. *)

From S2P Require Import Prelude KErr RingBuf KState KMonad Sched Pend KInv Mutex PriInv Sem Event Queue Inv Moves Task KSys Boot Handover SchedSpec Timeout TickSpec TaskSpec.
Local Open Scope Z_scope.

Lemma pri_limit_plain fuel v l base pri (Q : Z -> kstate -> Prop) s :
  chain (mutexes s) v l -> (length l <= fuel)%nat -> waiters_ok s l -> base <= pri ->
  (forall r, look_result s l base r -> Q r s) -> wp (pri_limit_loop fuel v pri base) Q s.
Proof.
  revert v l base pri Q. induction fuel as [|fuel IH]; intros v l base pri Q Hc Hf Hw Hle HQ; destruct l as [|o l]; try (cbn in Hf; lia).
  1,2: cbn in Hc; subst v; cbn; apply HQ, look_result_base.
  destruct Hc as (-> & m & Hm & Hc). cbn [pri_limit_loop]. destruct (Hw o) as (b & Hb & Hs & Hex); [set_solver|].
  kstep. eapply first_blk_pri_wp; [done..|]. do 2 kstep. destruct (look_step s o l b base pri 0 Hb Hs Hle) as [Hle' _].
  eapply (IH _ l); [done|cbn in Hf; lia| |done|].
  - intros o' Ho'. apply Hw. set_solver.
  - intros r Hr. apply HQ. by eapply (look_step s o l b base pri r Hb Hs Hle).
Qed.

Lemma mutex_pri_limit_wp t k l pri (Q : Z -> kstate -> Prop) s :
  tasks s !! t = Some k -> chain (mutexes s) (mutex_list k) l -> NoDup l -> waiters_ok s l ->
  (forall r, look_result s l pri r -> Q r s) -> wp (mutex_pri_limit t pri) Q s.
Proof.
  intros Hk Hc Hnd Hw HQ. unfold mutex_pri_limit. ksteps. eapply (pri_limit_plain _ _ l); try done.
  pose proof (chain_length _ _ _ Hnd Hc). unfold mutex_fuel. lia.
Qed.

Section pri.
Context `{CpuPort}.

(** The base priority changes, nothing else yet. *)
Lemma ni_base s t k pri :
  NI None s -> tasks s !! t = Some k -> prio_ok pri -> t <> g_idle_task ->
  NI None (set_tasks (<[t := set_b_prio pri k]> (tasks s)) s).
Proof.
  intros Hn Hk Hp Hti. pose proof (ni_wf _ _ Hn) as Hwf. pose proof Hn as [_ _ (ki & Hki & Hri & Hbi) (a & ka & Ha & Hka) HO HL ? ? ?].
  set (s1 := set_tasks _ s). split; try done.
  - apply (wf_step s s1 t (set_b_prio pri k)); try done; try apply Hwf; cbn.
    + eapply rq_keep; [apply (wf_ready s Hwf)|done|done].
    + eapply blk_keep; [apply (wf_blks s Hwf)|done|done|done].
    + eapply list_ok_same; [apply (wf_tick s Hwf)|done|done].
    + pose proof (wf_task s Hwf t k Hk) as []. by split.
  - by eapply (tick_inv_keep s s1 t _ (ni_tick _ _ Hn)).
  - exists ki. cbn. by rewrite lookup_insert_ne.
  - exists a. cbn. destruct (decide (t = a)) as [->|]; [rewrite lookup_insert_eq|rewrite lookup_insert_ne by done]; eauto.
  - intros o Ho. eapply (obj_ok_one s s1 o t k); try done. by apply HO.
  - intros Hne. destruct (HL Hne) as (a' & ka' & Ha' & Hka' & Hr). exists a'. cbn.
    destruct (decide (t = a')) as [->|]; [|exists ka'; by rewrite lookup_insert_ne].
    exists (set_b_prio pri k). rewrite lookup_insert_eq. split_and!; [done|done|]. cbn. congruence.
Qed.

Lemma mix_base s t k l pri r :
  WF s -> MI s -> tasks s !! t = Some k -> live k -> (forall o, o ∈ l <-> owned s o t) -> look_result s l pri r ->
  MIx no_extra (set_tasks (<[t := set_b_prio pri k]> (tasks s)) s) t r.
Proof.
  intros Hwf [Hb Hi] Hk Hl Hown Hr. set (s1 := set_tasks _ s).
  assert (forall w o, waits s1 w o <-> waits s w o) as Hw.
  { intros w o. unfold waits, is_mutex. cbn. split; intros [? (kw & Hkw & Hin)]; (split; [done|]).
    - rewrite lookup_insert_Some in Hkw. destruct Hkw as [[<- <-]|[? ?]]; [by exists k|by exists kw].
    - destruct (decide (t = w)) as [<-|]; [|exists kw; by rewrite lookup_insert_ne]. exists (set_b_prio pri k).
      rewrite lookup_insert_eq. split; [done|]. assert (kw = k) as -> by congruence. done. }
  assert (forall u, prio_of (tasks s1) u = prio_of (tasks s) u) as Hpr.
  { intros u. cbn. destruct (decide (u = t)) as [->|]; [|by apply prio_of_insert_ne]. by rewrite prio_of_insert, (prio_of_Some _ _ _ Hk). }
  split_and!.
  - pose proof Hb as [H1 H2 H3 H4]. split.
    + intros u ku. cbn. rewrite lookup_insert_Some. intros [[<- <-]|[? Hu]] Hlu; [by apply (H1 t k)|by apply (H1 u ku)].
    + intros o u Ho. destruct (H2 o u Ho) as (? & ku & Hku & Hlu). split; [done|]. cbn.
      destruct (decide (t = u)) as [<-|]; [|exists ku; by rewrite lookup_insert_ne]. exists (set_b_prio pri k). by rewrite lookup_insert_eq.
    + intros w o Hx%Hw. exact (H3 w o Hx).
    + exact H4.
  - intros u Hu. apply (inherit_ext s); [apply Hi|..].
    + intros ku. cbn. rewrite lookup_insert_ne by done. intros; by exists ku.
    + intros w o Ho Hx%Hw. left. by rewrite Hpr.
    + intros w o Ho Hx. by rewrite Hw, Hpr.
  - eapply is_min_ext; [|exact Hr]. intros q. cbv beta. rewrite (waiter_prio_waits s l t q Hwf Hown). unfold eff. cbn. rewrite lookup_insert_eq.
    setoid_rewrite Hw. split.
    + intros [(k0 & [= <-] & ->)|[(w & o & Ho & Hx & ->)|[]]]; [by left|right]. exists w, o. split_and!; [done..|]. apply (Hpr w).
    + intros [->|(w & o & Ho & Hx & ->)]; [left; by eexists|right; left]. exists w, o. split_and!; [done..|]. symmetry. apply (Hpr w).
Qed.

Lemma task_pri_change_spec t k pri s :
  Inv s -> tasks s !! t = Some k -> 0 <= pri ->
  wp (krhino_task_pri_change (Some t) pri (Some tt)) (fun r s' => Inv s' /\ irq_off s' = irq_off s /\
    if (RHINO_IDLE_PRI <=? prio k) || (RHINO_IDLE_PRI <=? pri) then r = (RHINO_PRI_CHG_NOT_ALLOWED, None) /\ s' = s
    else if bool_decide (task_state k = K_DELETED) then r = (RHINO_INV_TASK_STATE, None) /\ s' = s
    else if 0 <? g_intrpt_nested_level s then r = (RHINO_NOT_CALLED_BY_INTRPT, None) /\ s' = s
    else r = (RHINO_SUCCESS, Some (prio k)) /\ (forall u, tabs s' u = tabs s u) /\
      forall u, b_prio <$> tasks s' !! u = if decide (u = t) then Some pri else b_prio <$> tasks s !! u) s.
Proof.
  intros HI Hk Hpri. pose proof (inv_0 s HI) as H0. unfold krhino_task_pri_change. cbn [NULL_PARA_CHK]. do 2 kstep.
  destruct (Z.leb_spec RHINO_IDLE_PRI (prio k)) as [|Hpk]; [done|]. destruct (Z.leb_spec RHINO_IDLE_PRI pri) as [|Hp]; [done|]. cbn [orb].
  case_bool_decide as Hd; [done|]. kstep. apply wp_critical_enter, wp_nested_chk; cbn [g_intrpt_nested_level set_irq_off].
  { intros Hn. rewrite (proj2 (Z.ltb_lt _ _) Hn). done. }
  intros Hn. rewrite (proj2 (Z.ltb_ge _ _) Hn).
  assert (t <> g_idle_task) as Hti by (eapply inv_idle_prio; [done..|lia]).
  assert (Inv0 (set_irq_off true s)) as H1 by (by apply inv0_irq). pose proof (i0_ci _ _ H1) as [Hwf Hmi _ _ _].
  destruct (mi_chain _ (proj1 Hmi) t k Hk Hd) as (l & Hc & Hnd & Hown).
  kstep. eapply (mutex_pri_limit_wp t k l pri); [done..| |].
  { apply owned_waiters_ok; [done|apply Hmi|]. intros o Ho%Hown. apply Ho. }
  intros r Hr. do 5 kstep. set (s1 := set_tasks _ _).
  assert (prio_ok pri) as Hok by (unfold prio_ok, RHINO_IDLE_PRI, RHINO_CONFIG_PRI_MAX in *; lia).
  assert (NI None s1) as Hn1 by (apply (ni_base (set_irq_off true s)); [by apply inv0_ni|done..]).
  pose proof (mix_base (set_irq_off true s) t k l pri r Hwf Hmi Hk Hd Hown Hr) as Hmix.
  assert (tasks s1 !! t = Some (set_b_prio pri k)) as Hk1 by apply lookup_insert_eq.
  eapply (task_pri_change_wp no_extra t (set_b_prio pri k) r); [apply Hn1|exact Hmix|exact Hk1|done| |done|by eapply ni_idle_ready|by left|].
  { eapply (prio_ok_min s1); [apply Hn1|exact Hk1|apply Hmix]. }
  intros s2 [Hwf2 Hb2 Hi2 Hf2] _. cbn [negb]. rewrite bool_decide_true by done. cbn [negb].
  apply exit_sched_inv; [apply ni_inv0; [by eapply ni_pframe|by split]|].
  intros s' Hre HI'. split_and!; [done|by eapply irq_resched|done|..].
  - intros u. rewrite (tabs_resched s2 s' u _ Hre). unfold tabs. rewrite (pf_tasks _ _ Hf2 u). unfold s1. cbn.
    destruct (decide (u = t)) as [->|]; [rewrite lookup_insert_eq, Hk|rewrite lookup_insert_ne by done; destruct (tasks s !! u)]; done.
  - intros u. destruct (resched_eq _ _ Hre) as (ts & a & p & -> & Hts). cbn. destruct (Hts u) as [sp ->]. cbn.
    rewrite (pf_tasks _ _ Hf2 u). unfold s1. cbn. destruct (decide (u = t)) as [->|]; [by rewrite lookup_insert_eq|].
    rewrite lookup_insert_ne by done. by destruct (tasks s !! u).
Qed.

End pri.
