(* ===== verification/Kernel.v ===== *)
(** * The kernel as a whole

    Any sequence of kernel calls and interrupts, by any task: the calls as data,
    what each caller owes, and that the kernel is safe for every such history. *)

From S2P Require Import Prelude KErr RingBuf KState KMonad Sched Pend KInv Mutex PriInv Sem Event Queue BufQueue Inv Moves Create Task KSys Boot SemSpec Handover MutexSpec QueueSpec EventSpec BufQueueSpec SchedSpec Timeout TickSpec TaskSpec TaskLife TaskDel PriSpec.
Local Open Scope Z_scope.

Section kernel.
Context `{CpuPort}.

Inductive kcall :=
  | CCreate (o : oid) (name : Z) (n : new_obj)
  | CSem (o : oid) (op : sem_op)
  | CMutex (o : oid) (op : mutex_op)
  | CQueue (o : oid) (op : queue_op)
  | CEvent (o : oid) (addr : Z) (op : event_op)
  | CBufq (o : oid) (op : bufq_op)
  | CTaskCreate (t : tid) (name : option Z) (arg pri ticks : Z) (stack_buf : option Z) (size : Z) (entry : option Z) (autorun : Z)
  | CTaskSleep (ticks : Z)
  | CTaskYield
  | CTaskSuspend (t : tid)
  | CTaskResume (t : tid)
  | CTaskWaitAbort (t : tid)
  | CTaskPriChange (t : tid) (pri : Z)
  | CTaskDel (task : option tid)
  | CTimeSliceSet (t : tid) (slice : Z)
  | CPolicySet (t : tid) (policy : Z)
  | CPendResume
  | CSchedDisable
  | CSchedEnable
  | CIntrptEnter
  | CIntrptExit
  | CTickProc.

(** A call, its result dropped. *)
Definition call_exec (c : kcall) : K unit :=
  match c with
  | CCreate o name n => create_exec o name n;; mret tt
  | CSem o op => sem_exec o op;; mret tt
  | CMutex o op => mutex_exec o op;; mret tt
  | CQueue o op => queue_exec o op;; mret tt
  | CEvent o addr op => event_exec o addr op;; mret tt
  | CBufq o op => bufq_exec o op;; mret tt
  | CTaskCreate t name arg pri ticks stack_buf size entry autorun =>
      krhino_task_create (Some t) name arg pri ticks stack_buf size entry autorun;; mret tt
  | CTaskSleep ticks => krhino_task_sleep ticks;; mret tt
  | CTaskYield => krhino_task_yield;; mret tt
  | CTaskSuspend t => krhino_task_suspend (Some t);; mret tt
  | CTaskResume t => krhino_task_resume (Some t);; mret tt
  | CTaskWaitAbort t => krhino_task_wait_abort (Some t);; mret tt
  | CTaskPriChange t pri => krhino_task_pri_change (Some t) pri (Some tt);; mret tt
  | CTaskDel task => krhino_task_del task;; mret tt
  | CTimeSliceSet t slice => krhino_task_time_slice_set (Some t) slice;; mret tt
  | CPolicySet t policy => krhino_sched_policy_set (Some t) policy;; mret tt
  | CPendResume => pend_resume;; mret tt
  | CSchedDisable => krhino_sched_disable;; mret tt
  | CSchedEnable => krhino_sched_enable;; mret tt
  | CIntrptEnter => krhino_intrpt_enter;; mret tt
  | CIntrptExit => krhino_intrpt_exit
  | CTickProc => krhino_tick_proc
  end.

(** What the caller owes: pointers to objects and tasks that exist, memory that
    is not in use for a new object or task, timeouts below 2^63 or forever,
    blocking calls not from the idle task, the tick handler inside an interrupt,
    interrupts nested less than 255 deep, messages and buffers of the size the
    queue was created for, and no deletion of the idle task or of a task that is
    deleted already. *)
Definition call_pre (s : kstate) (c : kcall) : Prop :=
  match c with
  | CCreate o _ n => obj_idle s o /\ create_pre n
  | CSem o op => is_Some (blks s !! o) /\ sem_pre s op
  | CMutex o op => is_Some (blks s !! o) /\ mutex_pre s op
  | CQueue o op => is_Some (blks s !! o) /\ queue_pre s op
  | CEvent o _ op => is_Some (blks s !! o) /\ event_pre s op
  | CBufq o op => is_Some (blks s !! o) /\ forall aq, bufq_rel s o aq -> bufq_pre s op aq
  | CTaskCreate t _ _ pri _ _ _ _ _ => task_free s t /\ g_active_task s <> Some t /\ 0 <= pri
  | CTaskSleep ticks => 0 <= ticks < 2 ^ 63 /\ g_active_task s <> Some g_idle_task
  | CTaskYield => g_intrpt_nested_level s = 0
  | CTaskSuspend t | CTaskResume t | CTaskWaitAbort t | CTimeSliceSet t _ | CPolicySet t _ => is_Some (tasks s !! t)
  | CTaskPriChange t pri => is_Some (tasks s !! t) /\ 0 <= pri
  | CTaskDel task => exists t k, del_target s task = Some t /\ tasks s !! t = Some k /\ live k /\ prio k <> RHINO_IDLE_PRI
  | CPendResume | CSchedDisable | CSchedEnable => True
  | CIntrptEnter => g_intrpt_nested_level s < 255
  | CIntrptExit | CTickProc => 0 < g_intrpt_nested_level s
  end.

(** The invariant kept and the interrupt mask restored. *)
Definition kept (s s' : kstate) : Prop := Inv s' /\ irq_off s' = irq_off s.

Lemma kept_call {A} (m : K A) (Q : A -> kstate -> Prop) s :
  wp m Q s -> (forall a s', Q a s' -> kept s s') -> wp (m;; mret tt) (fun _ => kept s) s.
Proof. intros Hm HQ. kstep. eapply wp_mono; [exact Hm|]. intros a s' Ha. kstep. by eapply HQ. Qed.

(** A field of a task the invariant does not mention. *)
Lemma inv_kproj s t k k' :
  Inv s -> tasks s !! t = Some k -> kproj k' = kproj k -> mutex_list k' = mutex_list k ->
  tick_match k' = tick_match k -> wproj k' = wproj k -> Inv (set_tasks (<[t := k']> (tasks s)) s).
Proof. intros [H0 Ht] **. split; [by eapply inv0_kproj|exact Ht]. Qed.

Lemma time_slice_set_spec t k slice s :
  Inv s -> tasks s !! t = Some k ->
  wp (krhino_task_time_slice_set (Some t) slice) (fun r s' => kept s s' /\
    if 0 <? g_intrpt_nested_level s then r = RHINO_NOT_CALLED_BY_INTRPT /\ s' = s
    else let n := if 0 <? slice then u32 slice else RHINO_CONFIG_TIME_SLICE_DEFAULT in
      r = RHINO_SUCCESS /\ s' = set_tasks (<[t := set_time_slice n (set_time_total n k)]> (tasks s)) s) s.
Proof.
  intros HI Hk. unfold krhino_task_time_slice_set. cbn [NULL_PARA_CHK]. kstep. apply wp_critical_enter, wp_nested_chk; cbn [g_intrpt_nested_level set_irq_off].
  { intros Hn. by rewrite (proj2 (Z.ltb_lt _ _) Hn). }
  intros Hn. rewrite (proj2 (Z.ltb_ge _ _) Hn). do 4 kstep. set (n := if 0 <? slice then _ else _).
  apply wp_critical_return. cbn. rewrite insert_insert_eq.
  assert (forall k', kproj k' = kproj k -> mutex_list k' = mutex_list k ->
    tick_match k' = tick_match k -> wproj k' = wproj k -> Inv (set_tasks (<[t := k']> (tasks s)) s)) as Hi by (intros; by eapply inv_kproj).
  split; [|done]. split; [|done]. by apply (Hi (set_time_slice n (set_time_total n k))).
Qed.

Lemma policy_set_spec t k policy s :
  Inv s -> tasks s !! t = Some k ->
  wp (krhino_sched_policy_set (Some t) policy) (fun r s' => kept s s' /\
    if negb (policy =? KSCHED_FIFO) && negb (policy =? KSCHED_RR) then r = RHINO_INV_SCHED_WAY /\ s' = s
    else if 0 <? g_intrpt_nested_level s then r = RHINO_NOT_CALLED_BY_INTRPT /\ s' = s
    else r = RHINO_SUCCESS /\ s' = set_tasks (<[t := set_sched_policy policy k]> (tasks s)) s) s.
Proof.
  intros HI Hk. unfold krhino_sched_policy_set. cbn [NULL_PARA_CHK]. destruct (negb _ && _); [by kstep|].
  kstep. apply wp_critical_enter, wp_nested_chk; cbn [g_intrpt_nested_level set_irq_off].
  { intros Hn. by rewrite (proj2 (Z.ltb_lt _ _) Hn). }
  intros Hn. rewrite (proj2 (Z.ltb_ge _ _) Hn). do 2 kstep. apply wp_critical_return. split; [|done]. split; [|done].
  by apply (inv_kproj s t k (set_sched_policy policy k)).
Qed.

Lemma inv_err_log l s : Inv s -> Inv (set_err_log l s).
Proof. apply inv_core; [done|]. intros o. by apply obj_ok_same. Qed.

(** A task back from a wait learns how it ended; a status that is none of the
    four is logged as an error. *)
Lemma pend_resume_spec s :
  Inv s -> wp pend_resume (fun r s' => kept s s' /\ exists a k, g_active_task s = Some a /\ tasks s !! a = Some k /\
    match blk_state k with
    | BLK_FINISH => r = RHINO_SUCCESS /\ s' = s
    | BLK_ABORT => r = RHINO_BLK_ABORT /\ s' = s
    | BLK_TIMEOUT => r = RHINO_BLK_TIMEOUT /\ s' = s
    | BLK_DEL => r = RHINO_BLK_DEL /\ s' = s
    | _ => r = RHINO_BLK_INV_STATE /\ s' = set_err_log (RHINO_BLK_INV_STATE :: err_log s) s
    end) s.
Proof.
  intros HI. destruct (inv0_active None s (inv_0 s HI)) as (a & k & Ha & Hk).
  unfold pend_resume, pend_state_end_proc, RHINO_CPU_INTRPT_DISABLE, RHINO_CPU_INTRPT_ENABLE. ksteps.
  destruct (blk_state k) eqn:E; ksteps; (split; [|exists a, k; by rewrite E]); (split; [|done]); first [done|by apply (inv_err_log _ s)].
Qed.

Lemma kept_resched s s1 s' : irq_off s1 = irq_off s -> Inv s' -> resched s1 s' -> kept s s'.
Proof. intros E HI Hr. split; [done|]. rewrite <- E. destruct (resched_eq _ _ Hr) as (ts & a & p & -> & _). done. Qed.

Lemma call_kept c s : Inv s -> call_pre s c -> wp (call_exec c) (fun _ => kept s) s.
Proof.
  intros HI. destruct c; cbn [call_pre call_exec]; intros Hp.
  - destruct Hp. eapply kept_call; [by apply create_inv|]. intros r s' (_ & HI' & Hc & _). split; [done|]. by destruct Hc as (_ & _ & ?).
  - destruct Hp. eapply kept_call; [by apply sem_call_spec|]. by intros r s' (? & ? & _).
  - destruct Hp. eapply kept_call; [by apply mutex_call_spec|]. by intros r s' (? & ? & _).
  - destruct Hp as [Ho Hp]. destruct (queue_call_spec o op s HI Ho Hp) as [[aq Hq] Hw].
    eapply kept_call; [by apply (Hw aq)|]. by intros r s' (? & ? & _).
  - destruct Hp as [Ho Hp]. destruct (event_call_spec o addr op s HI Ho Hp) as [[aq Hq] Hw].
    eapply kept_call; [by apply (Hw aq)|]. by intros r s' (? & ? & _).
  - destruct Hp as [Ho Hp]. destruct (bufq_call_spec o op s HI Ho) as [[aq Hq] Hw].
    eapply kept_call; [apply (Hw aq Hq); by apply Hp|]. by intros r s' (? & ? & _).
  - destruct Hp as (? & ? & ?). eapply kept_call; [by apply task_create_spec|]. by intros r s' (? & ? & _).
  - destruct Hp. eapply kept_call; [by apply task_sleep_spec|]. by intros r s' (? & ? & _).
  - eapply kept_call; [by apply task_yield_spec|]. by intros r s' (? & _ & ? & _).
  - destruct Hp as [k Hk]. eapply kept_call; [by apply (suspend_call_spec t k)|]. by intros r s' (? & ? & _).
  - destruct Hp as [k Hk]. eapply kept_call; [by apply (task_resume_spec t k)|]. by intros r s' (? & ? & _).
  - destruct Hp as [k Hk]. eapply kept_call; [by apply (task_wait_abort_spec t k)|]. by intros r s' (? & ? & _).
  - destruct Hp as [[k Hk] ?]. eapply kept_call; [by apply (task_pri_change_spec t k)|]. by intros r s' (? & ? & _).
  - destruct Hp as (t & k & ? & ? & ? & ?). eapply kept_call; [by apply (task_del_spec task t k)|]. by intros r s' (? & ? & _).
  - destruct Hp as [k Hk]. eapply kept_call; [by apply (time_slice_set_spec t k)|]. by intros r s' [? _].
  - destruct Hp as [k Hk]. eapply kept_call; [by apply (policy_set_spec t k)|]. by intros r s' [? _].
  - eapply kept_call; [by apply pend_resume_spec|]. by intros r s' [? _].
  - eapply kept_call; [by apply sched_disable_spec|]. intros r s' [? Hs]. split; [done|]. repeat case_match; by destruct Hs as [_ ->].
  - eapply kept_call; [by apply sched_enable_spec|]. intros r s' [? Hs]. repeat case_match; destruct Hs as [_ Hs]; try by subst s'.
    by apply (kept_resched s (set_g_sched_lock 0 s)).
  - eapply kept_call; [by apply intrpt_enter_spec|]. by intros r s' (? & _ & ->).
  - eapply wp_mono; [by apply intrpt_exit_spec|]. by intros r s' (? & ? & _).
  - eapply wp_mono; [by apply tick_proc_spec|]. by intros r s' (? & ? & _).
Qed.

(** The states of a running kernel: after start-up and any sequence of calls. *)
Inductive reachable : kstate -> Prop :=
  | reach_start r s : (krhino_init;; krhino_start) bss_state = Some (r, s) -> reachable s
  | reach_call c s s' : reachable s -> call_pre s c -> call_exec c s = Some (tt, s') -> reachable s'.

Lemma reachable_inv s : reachable s -> Inv s /\ irq_off s = false.
Proof.
  induction 1 as [r s E|c s s' _ [HI Hirq] Hp E].
  - destruct (proj1 (wp_iff _ _ _) boot_wp) as (r' & s' & E' & Hb). rewrite E in E'. injection E' as -> ->.
    split; [by apply booted_inv|]. apply Hb.
  - destruct (proj1 (wp_iff _ _ _) (call_kept c s HI Hp)) as ([] & s1 & E1 & HI1 & Hirq1). rewrite E in E1. injection E1 as ->.
    split; [done|]. by rewrite Hirq1.
Qed.

(** C2: the kernel is safe.  After start-up and any sequence of kernel calls,
    interrupts and task switches in which every call meets its precondition, the
    kernel invariant holds, interrupts are enabled, and every further call that
    meets its precondition runs to its end without undefined behaviour. *)
Theorem kernel_safe s :
  reachable s -> Inv s /\ irq_off s = false /\
  forall c, call_pre s c -> exists s', call_exec c s = Some (tt, s') /\ reachable s'.
Proof.
  intros Hr. destruct (reachable_inv s Hr) as [HI Hirq]. split_and!; [done..|]. intros c Hp.
  destruct (proj1 (wp_iff _ _ _) (call_kept c s HI Hp)) as ([] & s' & E & _). exists s'. split; [done|].
  by eapply reach_call.
Qed.

(** C7: scheduling is strictly by priority.  In every reachable state outside
    interrupts and with the scheduler unlocked, the running task is ready, no
    ready task is more urgent, and it is the first of the ring of its priority. *)
Theorem running_task_most_urgent s :
  reachable s -> g_intrpt_nested_level s = 0 -> g_sched_lock s = 0 ->
  exists a ka, g_active_task s = Some a /\ tasks s !! a = Some ka /\ task_state ka = K_RDY /\
    head (rql (g_ready_queue s) (prio ka)) = Some a /\
    forall t k, tasks s !! t = Some k -> task_state k = K_RDY -> prio ka <= prio k.
Proof.
  intros [HI _]%reachable_inv Hn Hl. pose proof (i0_ci _ s (inv_0 s HI)) as HC. pose proof (ci_wf s HC) as Hwf.
  destruct (ci_top s HC) as (a & ka & Ht & Hka & Hr & Ep). exists a, ka. split_and!; [|done..| |].
  - rewrite (inv_top s HI); [done|]. unfold postponed. by rewrite Hn, Hl.
  - rewrite Ep. exact Ht.
  - intros t k Hk Hrk. rewrite Ep. apply (rqo_least _ (wf_rq s Hwf)). intros E.
    assert (t ∈ rql (g_ready_queue s) (prio k)) as Hin by (by eapply list_ok_in; [apply (wf_ready s Hwf)|..]).
    rewrite E in Hin. set_solver.
Qed.

(** C6: priority inheritance is exact.  In every reachable state each
    live task runs at the most urgent of its own base priority and the priorities
    of the tasks waiting for a mutex it holds: no more urgent than one of these
    reasons gives, and no less urgent than any of them asks. *)
Theorem priority_inheritance_exact s t k :
  reachable s -> tasks s !! t = Some k -> live k ->
  (prio k = b_prio k \/ exists o w kw, owned s o t /\ waits s w o /\ tasks s !! w = Some kw /\ prio k = prio kw) /\
  prio k <= b_prio k /\
  forall o w kw, owned s o t -> waits s w o -> tasks s !! w = Some kw -> prio k <= prio kw.
Proof.
  intros [HI _]%reachable_inv Hk Hl. destruct (ci_mi s (i0_ci _ s (inv_0 s HI))) as [_ Hi].
  destruct (Hi t k Hk Hl) as [Hin Hmin]. split_and!.
  - destruct Hin as [(k' & Hk' & E)|[(w & o & Ho & Hw & E)|[]]]; [left; congruence|right].
    pose proof Hw as [_ (kw & Hkw & _)]. exists o, w, kw. split_and!; [done..|]. rewrite E. unfold prio_of. by rewrite Hkw.
  - apply Hmin. left. by exists k.
  - intros o w kw Ho Hw Hkw. apply Hmin. right. left. exists w, o. split_and!; [done..|]. unfold prio_of. by rewrite Hkw.
Qed.

End kernel.

(** ** A concrete history: a mutex is locked by a task that a more urgent one,
    which wants it too, then preempts. *)

Definition demo_calls (l : list kcall) : kstate := fold_left (fun s c => after (call_exec c) s) l demo_boot.

Lemma demo_reachable : reachable demo_boot.
Proof. destruct (proj1 (wp_iff _ _ _) boot_wp) as (r & s & E & _). apply (reach_start r). unfold demo_boot, after. by rewrite E. Qed.

Lemma reachable_after c s : reachable s -> call_pre s c -> reachable (after (call_exec c) s).
Proof.
  intros Hr Hp. destruct (reachable_inv s Hr) as [HI _]. apply (reach_call c s); [done..|].
  destruct (proj1 (wp_iff _ _ _) (call_kept c s HI Hp)) as ([] & s' & E & _). unfold after. by rewrite E.
Qed.

Definition demo_new_task (t : tid) (pri slice : Z) : kcall := CTaskCreate t (Some 1) 0 pri slice (Some 1) 64 (Some 1) 1.

Definition demo_contention : list kcall :=
  [CCreate 1%nat 0 NewMutex; CMutex 1%nat (MutexLock 0); demo_new_task 2%nat 10 0; CMutex 1%nat (MutexLock RHINO_WAIT_FOREVER)].

Definition demo_contended : kstate := demo_calls demo_contention.

Lemma demo_contended_reachable : reachable demo_contended.
Proof.
  unfold demo_contended, demo_calls, demo_contention. cbn [fold_left]. repeat apply reachable_after; [apply demo_reachable|..].
  - split; [|done]. by apply obj_fresh_idle; vm_compute.
  - split; [by eexists; vm_compute|]. split; [left; lia|by vm_compute].
  - split_and!; [intros k|by vm_compute|lia]. by vm_compute.
  - split; [by eexists; vm_compute|]. split; [by right|by vm_compute].
Qed.

Lemma kernel_safe_witness :
  reachable demo_contended /\ call_pre demo_contended (CMutex 1%nat MutexUnlock) /\
  exists s', call_exec (CMutex 1%nat MutexUnlock) demo_contended = Some (tt, s') /\ g_active_task s' = Some 2%nat.
Proof.
  assert (call_pre demo_contended (CMutex 1%nat MutexUnlock)) as Hp by (split; [by eexists; vm_compute|done]).
  split_and!; [apply demo_contended_reachable|exact Hp|].
  destruct (kernel_safe demo_contended demo_contended_reachable) as (_ & _ & Hs). destruct (Hs _ Hp) as (s' & E & _).
  exists s'. split; [exact E|]. replace s' with (after (call_exec (CMutex 1%nat MutexUnlock)) demo_contended)
    by (unfold after; by rewrite E). by vm_compute.
Defined.

Lemma running_task_most_urgent_witness :
  g_active_task demo_contended = Some g_dyn_task /\
  exists a ka, g_active_task demo_contended = Some a /\ tasks demo_contended !! a = Some ka /\ task_state ka = K_RDY /\
    head (rql (g_ready_queue demo_contended) (prio ka)) = Some a /\
    forall t k, tasks demo_contended !! t = Some k -> task_state k = K_RDY -> prio ka <= prio k.
Proof.
  split; [by vm_compute|]. apply (running_task_most_urgent demo_contended); [apply demo_contended_reachable|by vm_compute..].
Defined.

Lemma priority_inheritance_exact_witness :
  exists k, tasks demo_contended !! g_dyn_task = Some k /\ prio k = 10 /\ b_prio k = RHINO_CONFIG_K_DYN_MEM_TASK_PRI /\
  ((prio k = b_prio k \/ exists o w kw, owned demo_contended o g_dyn_task /\ waits demo_contended w o /\
      tasks demo_contended !! w = Some kw /\ prio k = prio kw) /\ prio k <= b_prio k /\
   forall o w kw, owned demo_contended o g_dyn_task -> waits demo_contended w o -> tasks demo_contended !! w = Some kw -> prio k <= prio kw).
Proof.
  destruct (tasks demo_contended !! g_dyn_task) as [k|] eqn:E; [|by vm_compute in E]. exists k.
  assert (Some (prio k, b_prio k, bool_decide (live k)) = Some (10, RHINO_CONFIG_K_DYN_MEM_TASK_PRI, true)) as Ek.
  { transitivity ((fun k => (prio k, b_prio k, bool_decide (live k))) <$> tasks demo_contended !! g_dyn_task); [by rewrite E|by vm_compute]. }
  injection Ek as Ep Eb El%bool_decide_eq_true. do 3 (split; [done|]).
  by apply (priority_inheritance_exact demo_contended g_dyn_task k); [apply demo_contended_reachable|..].
Defined.
