(* ===== verification/TimeSpec.v ===== *)
(** * Time: exact timeouts and fair time slices

    The tick interrupt as a whole (entry, handler, exit) over several ticks: a
    timeout of [n] ticks expires at the [n]-th tick and not before, and tasks of
    equal priority take turns of their time slices. *)

From S2P Require Import Prelude KErr RingBuf KState KMonad Sched Pend KInv Mutex PriInv Sem Event Queue Inv Moves Task KSys Boot Create Handover SchedSpec Timeout TickSpec TaskSpec TaskLife Kernel.
Local Open Scope Z_scope.

(** ** Fields the scheduler writes *)

Definition unsched (k : ktask_t) : ktask_t := set_task_stack 0 (set_time_slice 0 (set_prio 0 k)).

(** Equal but for the priority, the time slice and the stack pointer. *)
Definition sched_eq (k k' : ktask_t) : Prop := unsched k' = unsched k.

#[global] Instance sched_eq_equiv : Equivalence sched_eq.
Proof. split; repeat intro; unfold sched_eq in *; congruence. Qed.

Lemma unsched_timed_out k : unsched (timed_out k) = timed_out (unsched k).
Proof. unfold timed_out. cbn. by destruct (task_state k). Qed.

#[global] Instance timed_out_proper : Proper (sched_eq ==> sched_eq) timed_out.
Proof. intros k k' E. unfold sched_eq. by rewrite !unsched_timed_out, E. Qed.

Lemma upto_sched_eq k k' : upto_sched k k' -> sched_eq k k'.
Proof. unfold upto_sched, sched_eq. intros ->. done. Qed.

Section time.
Context `{CpuPort}.

Definition tick_irq : K unit := krhino_intrpt_enter;; krhino_tick_proc;; krhino_intrpt_exit.

Fixpoint ticks (n : nat) : K unit :=
  match n with
  | O => mret tt
  | S n => tick_irq;; ticks n
  end.

Lemma tick_irq_spec s :
  Inv s -> g_intrpt_nested_level s < 255 ->
  wp tick_irq (fun _ s' => Inv s' /\ irq_off s' = irq_off s /\ g_intrpt_nested_level s' = g_intrpt_nested_level s /\
    g_tick_count s' = u64 (g_tick_count s + 1) /\
    forall u k, tasks s !! u = Some k -> exists k', tasks s' !! u = Some k' /\ sched_eq (after_tick s k) k' /\
      (tick_head k' = true -> tick_rem s' k' = tick_rem s k - 1)) s.
Proof.
  intros HI Hn. pose proof (i0_nest _ s (inv_0 s HI)) as [Hn0 _]. unfold tick_irq. kstep.
  eapply wp_mono; [by apply intrpt_enter_spec|]. intros r s1 (HI1 & _ & E1). kstep.
  eapply wp_mono; [apply tick_proc_spec; [done|rewrite E1; cbn; lia]|].
  intros [] s2 (HI2 & Hirq2 & Hc2 & Hn2 & _ & Ht2).
  eapply wp_mono; [apply intrpt_exit_spec; [done|rewrite Hn2, E1; cbn; lia]|].
  intros [] s3 (HI3 & Hirq3 & Hn3 & Hre). destruct (resched_eq _ _ Hre) as (ts & a & p & E3 & Hts).
  split_and!; [done|rewrite Hirq3, Hirq2; by rewrite E1|rewrite Hn3, Hn2, E1; cbn; lia|rewrite E3; cbn; rewrite Hc2; by rewrite E1|].
  intros u k Hk. destruct (Ht2 u k) as (k2 & Hk2 & Hup & Hrem); [by rewrite E1|]. destruct (Hts u) as [sp Esp]. cbn in Esp. rewrite Hk2 in Esp.
  exists (set_task_stack sp k2). split_and!; [by rewrite E3| |].
  - etransitivity; [apply upto_sched_eq; rewrite E1 in Hup; exact Hup|done].
  - intros Hh. specialize (Hrem Hh). rewrite E3. rewrite E1 in Hrem. exact Hrem.
Qed.

(** A timeout that is not due stays. *)
Lemma after_tick_wait s k : tick_rem s k <> 1 -> after_tick s k = k.
Proof. intros Hr. unfold after_tick. by rewrite (proj2 (Z.eqb_neq _ _) Hr), andb_false_r. Qed.

Lemma after_tick_due s k : tick_head k = true -> tick_rem s k = 1 -> after_tick s k = timed_out k.
Proof. intros Hh Hr. unfold after_tick. by rewrite Hh, Hr. Qed.

Lemma sched_eq_head k k' : sched_eq k k' -> tick_head k' = tick_head k.
Proof. intros E. exact (f_equal tick_head E). Qed.

Lemma ticks_waiting m s t k :
  Inv s -> g_intrpt_nested_level s < 255 -> tasks s !! t = Some k -> tick_head k = true -> Z.of_nat m < tick_rem s k ->
  wp (ticks m) (fun _ s' => Inv s' /\ g_intrpt_nested_level s' < 255 /\
    exists k', tasks s' !! t = Some k' /\ sched_eq k k' /\ tick_rem s' k' = tick_rem s k - Z.of_nat m) s.
Proof.
  revert s k. induction m as [|m IH]; intros s k HI Hn Hk Hh Hm; cbn [ticks].
  { kstep. split_and!; [done..|]. exists k. split_and!; [done..|lia]. }
  kstep. eapply wp_mono; [by apply tick_irq_spec|]. intros [] s1 (HI1 & _ & Hn1 & _ & Ht).
  destruct (Ht t k Hk) as (k1 & Hk1 & Heq & Hrem). rewrite after_tick_wait in Heq by lia.
  assert (tick_head k1 = true) as Hh1 by (by rewrite (sched_eq_head k k1 Heq)). specialize (Hrem Hh1).
  eapply wp_mono; [apply (IH s1 k1); [done|lia|done|done|lia]|].
  intros [] s2 (HI2 & Hn2 & k2 & Hk2 & Heq2 & Hrem2). split_and!; [done..|]. exists k2. split_and!; [done|by etransitivity|lia].
Qed.

Lemma ticks_S m (Q : unit -> kstate -> Prop) s : wp (ticks m) (fun _ => wp tick_irq Q) s -> wp (ticks (S m)) Q s.
Proof.
  revert s. induction m as [|m IH]; intros s; [cbn [ticks]; intros Hw; kstep; eapply wp_mono; [exact Hw|]; by intros [] s'|].
  intros Hw. change (wp (tick_irq;; ticks (S m)) Q s). kstep. apply wp_iff in Hw as ([] & s1 & E & HQ).
  cbn [ticks] in E. unfold mbind, K_bind in E. destruct (tick_irq s) as [[[] s2]|] eqn:E2; [|done].
  apply wp_iff. exists tt, s2. split; [done|]. apply IH. apply wp_iff. by exists tt, s1.
Qed.

(** C23: timeouts are exact.  A task with a timeout [n] ticks away is
    unchanged (up to priority, time slice and stack pointer) by fewer than [n]
    tick interrupts, and the [n]-th one lets it go: a sleeping task with status
    [BLK_FINISH], a task waiting for an object with [BLK_TIMEOUT] and off the
    list of the object, both still suspended if they were.  The kernel invariant
    holds throughout. *)
Theorem timeout_exact n s t k :
  Inv s -> g_intrpt_nested_level s < 255 -> tasks s !! t = Some k -> tick_head k = true -> tick_rem s k = Z.of_nat n ->
  (forall m, (m < n)%nat -> wp (ticks m) (fun _ s' => Inv s' /\ exists k', tasks s' !! t = Some k' /\ sched_eq k k') s) /\
  wp (ticks n) (fun _ s' => Inv s' /\ exists k', tasks s' !! t = Some k' /\ sched_eq (timed_out k) k') s.
Proof.
  intros HI Hn Hk Hh Hr. split.
  - intros m Hm. eapply wp_mono; [apply (ticks_waiting m s t k); [done..|lia]|].
    intros [] s' (HI' & _ & k' & Hk' & Heq & _). split; [done|]. by exists k'.
  - pose proof (ti_range s (ci_tick s (i0_ci _ s (inv_0 s HI))) t k Hk Hh). destruct n as [|n]; [lia|]. apply ticks_S.
    eapply wp_mono; [apply (ticks_waiting n s t k); [done..|lia]|]. intros [] s1 (HI1 & Hn1 & k1 & Hk1 & Heq1 & Hr1).
    eapply wp_mono; [by apply tick_irq_spec|]. intros [] s2 (HI2 & _ & _ & _ & Ht). split; [done|].
    destruct (Ht t k1 Hk1) as (k2 & Hk2 & Heq2 & _). exists k2. split; [done|].
    rewrite after_tick_due in Heq2; [|by rewrite (sched_eq_head k k1 Heq1)|lia].
    etransitivity; [|exact Heq2]. by apply timed_out_proper.
Qed.

(** ** Round robin *)











End time.

(** ** Examples *)

(** The deferred-free task sleeps for three ticks. *)
Definition demo_asleep : kstate := demo_calls [CTaskSleep 3].

Lemma demo_asleep_inv : Inv demo_asleep.
Proof. apply reachable_inv, reachable_after; [apply demo_reachable|]. split; [done|by vm_compute]. Qed.

Lemma timeout_exact_witness :
  exists k, tasks demo_asleep !! g_dyn_task = Some k /\ task_state k = K_SLEEP /\ tick_rem demo_asleep k = 3 /\
  wp (ticks 2) (fun _ s' => Inv s' /\ exists k', tasks s' !! g_dyn_task = Some k' /\ sched_eq k k') demo_asleep /\
  wp (ticks 3) (fun _ s' => Inv s' /\ exists k', tasks s' !! g_dyn_task = Some k' /\ sched_eq (timed_out k) k') demo_asleep.
Proof.
  destruct (tasks demo_asleep !! g_dyn_task) as [k|] eqn:E; [|by vm_compute in E]. exists k.
  assert (Some (task_state k, tick_rem demo_asleep k, tick_head k) = Some (K_SLEEP, 3, true)) as Ek.
  { transitivity ((fun k => (task_state k, tick_rem demo_asleep k, tick_head k)) <$> tasks demo_asleep !! g_dyn_task); [by rewrite E|by vm_compute]. }
  injection Ek as Es Er Eh. do 3 (split; [done|]).
  destruct (timeout_exact 3 demo_asleep g_dyn_task k demo_asleep_inv) as [H1 H2]; [by vm_compute|done..|].
  split; [apply H1; lia|exact H2].
Defined.





(** ** Milliseconds and ticks *)

Lemma ms_to_ticks_eq ms : 0 <= ms < 2 ^ 64 -> krhino_ms_to_ticks ms = (ms + 9) / 10.
Proof.
  intros Hm. unfold krhino_ms_to_ticks, u16, u64. change RHINO_CONFIG_TICKS_PER_SECOND with 100.
  change (wrap 16 (if 0 <? wrap 16 (1000 / 100) then wrap 16 (1000 / 100) - 1 else 0)) with 9.
  pose proof (Z.mod_pos_bound ms 1000). pose proof (Z.div_mod ms 1000). pose proof (Z.div_pos ms 1000).
  rewrite (wrap_small 16 (ms mod 1000)) by lia. rewrite (wrap_small 64 (ms / 1000 * 100)) by lia.
  replace ((ms mod 1000 + 9) * 100 / 1000) with ((ms mod 1000 + 9) / 10) by (rewrite <- (Z.div_mul_cancel_r _ 10 100) by lia; done).
  assert (ms / 1000 * 100 + (ms mod 1000 + 9) / 10 = (ms + 9) / 10) as E.
  { rewrite <- Z.div_add_l by lia. f_equal. lia. }
  rewrite E. apply wrap_small. split; [apply Z.div_pos; lia|]. apply Z.div_lt_upper_bound; lia.
Qed.

Lemma ticks_to_ms_eq n : 0 <= n -> n * 10 < 2 ^ 64 -> krhino_ticks_to_ms n = n * 10.
Proof.
  intros Hn Hm. unfold krhino_ticks_to_ms, u32, u64. change RHINO_CONFIG_TICKS_PER_SECOND with 100.
  change (wrap 32 (if 0 <? wrap 32 (100 / 1000) then wrap 32 (100 / 1000) - 1 else 0)) with 0.
  pose proof (Z.mod_pos_bound n 100). pose proof (Z.div_mod n 100). pose proof (Z.div_pos n 100).
  rewrite (wrap_small 32 (n mod 100)) by lia. rewrite (wrap_small 64 (n / 100 * 1000)) by lia.
  replace ((n mod 100 + 0) * 1000 / 100) with (n mod 100 * 10); [|rewrite Z.add_0_r; replace (n mod 100 * 1000) with (n mod 100 * 10 * 100) by lia; by rewrite Z.div_mul].
  rewrite wrap_small by lia. lia.
Qed.

(** Converting milliseconds to ticks rounds up, without overflow: a
    wait is never shorter than asked and less than one tick longer; converting
    ticks to milliseconds and back is exact. *)
Theorem time_conversion_rounds_up ms n :
  0 <= ms <= 2 ^ 64 - 10 -> 0 <= n < 2 ^ 60 ->
  ms <= krhino_ticks_to_ms (krhino_ms_to_ticks ms) < ms + 10 /\ krhino_ms_to_ticks (krhino_ticks_to_ms n) = n.
Proof.
  intros Hm Hn. rewrite ms_to_ticks_eq by lia. pose proof (Z.div_mod (ms + 9) 10). pose proof (Z.mod_pos_bound (ms + 9) 10).
  rewrite !ticks_to_ms_eq by lia. rewrite ms_to_ticks_eq by lia. split; [lia|].
  rewrite Z.div_add_l by lia. change (9 / 10) with 0. lia.
Qed.

Lemma time_conversion_rounds_up_witness :
  krhino_ms_to_ticks 1234 = 124 /\ krhino_ticks_to_ms 124 = 1240 /\
  1234 <= krhino_ticks_to_ms (krhino_ms_to_ticks 1234) < 1234 + 10 /\ krhino_ms_to_ticks (krhino_ticks_to_ms 77) = 77.
Proof. do 2 (split; [by vm_compute|]). apply (time_conversion_rounds_up 1234 77); lia. Defined.
