(* ===== verification/TaskCalls.v ===== *)
(** * The task and scheduler calls: main theorems

    What each call of [k_task.c], [k_sched.c] and the interrupt entry and exit do,
    from any state that satisfies the kernel invariant. *)

From S2P Require Import Prelude KErr RingBuf KState KMonad Sched Pend KInv Mutex PriInv Sem Event Queue BufQueue Inv Moves Create Task KSys Boot Handover MutexSpec SchedSpec Timeout TickSpec TaskSpec TaskLife TaskDel PriSpec Kernel.
Local Open Scope Z_scope.

Section calls.
Context `{CpuPort}.

(** ** Suspending, resuming, aborting *)

Inductive task_op := TaskSuspend | TaskResume | TaskWaitAbort.

Definition task_exec (t : tid) (op : task_op) : K kstat_t :=
  match op with
  | TaskSuspend => krhino_task_suspend (Some t)
  | TaskResume => krhino_task_resume (Some t)
  | TaskWaitAbort => krhino_task_wait_abort (Some t)
  end.

Definition at_run (s : kstate) (t : tid) (op : task_op) : kstat_t * option atask :=
  match op with
  | TaskSuspend => suspend_call_result s t
  | TaskResume => at_resume suspend_nested_bits (tabs s t)
  | TaskWaitAbort => abort_result s t
  end.

(** C25: every task refines a state machine with two independent parts: what
    the task waits for (nothing, time, an object) and whether it is suspended,
    with a nesting count.  Suspending (refused for the idle task, and for the
    running task while the scheduler is locked), resuming and aborting a wait
    return the abstract status, change the abstract state of that task as the
    machine says and of no other task, restore the interrupt mask and keep the
    kernel invariant. *)
Theorem task_refines_state_machine t op s :
  Inv s -> is_Some (tasks s !! t) -> wp (task_exec t op) (task_post s t (at_run s t op)) s.
Proof.
  intros HI [k Hk]. destruct op; cbn [task_exec at_run].
  - by apply (suspend_call_spec t k).
  - by apply (task_resume_spec t k).
  - by apply (task_wait_abort_spec t k).
Qed.

(** Resuming undoes suspending.  Suspending a live task (not the idle
    one, not the running one under a scheduler lock, not one at the nesting
    limit) and then resuming it both succeed and leave the task waiting for
    exactly what it waited for, suspended exactly if it was, at the nesting depth
    it had, and every other task as it was. *)
Theorem suspend_resume_roundtrip t k w b n s :
  Inv s -> tasks s !! t = Some k -> prio k <> RHINO_IDLE_PRI -> ~ (g_active_task s = Some t /\ 0 < g_sched_lock s) ->
  tabs s t = Some (mk_atask w b n) -> (b = true -> 1 <= n < 2 ^ suspend_nested_bits - 1) ->
  wp (r1 ← task_exec t TaskSuspend; r2 ← task_exec t TaskResume; mret (r1, r2))
    (fun r s' => Inv s' /\ irq_off s' = irq_off s /\ r = (RHINO_SUCCESS, RHINO_SUCCESS) /\
       tabs_only t (Some (mk_atask w b (if b then n else 0))) s s') s.
Proof.
  intros HI Hk Hp Hl Ht Hn. pose proof port_bits_pos as (_ & _ & Hb). assert (2 ^ 1 <= 2 ^ suspend_nested_bits) as Hb1 by (apply Z.pow_le_mono_r; lia).
  assert (suspend_call_result s t = (RHINO_SUCCESS, Some (mk_atask w true (if b then n + 1 else 1)))) as E.
  { unfold suspend_call_result, suspend_result. rewrite Hk, Ht. cbn [fmap option_fmap option_map].
    rewrite (bool_decide_false (Some _ = _)) by (intros [= X]; exact (Hp X)).
    assert (bool_decide (g_active_task s = Some t) && (0 <? g_sched_lock s) = false) as ->
      by (destruct (bool_decide_reflect (g_active_task s = Some t)); [apply Z.ltb_ge, Z.nlt_ge; intros ?; by apply Hl|done]).
    destruct b; [|done]. specialize (Hn eq_refl). cbn [at_suspend]. rewrite (proj2 (Z.eqb_neq _ _)), wrap_small by lia. done. }
  kstep. eapply wp_mono; [by apply (suspend_call_spec t k)|]. rewrite E. intros r1 s1 (HI1 & Hirq1 & -> & Hs1 & Ho1). cbn [snd] in Hs1.
  assert (exists k1, tasks s1 !! t = Some k1) as [k1 Hk1] by (unfold tabs in Hs1; destruct (tasks s1 !! t); [eauto|done]).
  kstep. eapply wp_mono; [by apply (task_resume_spec t k1)|]. rewrite Hs1. cbn [at_resume].
  assert (wrap suspend_nested_bits ((if b then n + 1 else 1) - 1) = if b then n else 0) as ->.
  { destruct b; [specialize (Hn eq_refl)|]; (rewrite wrap_small; [lia|]); [lia|]. cbn in *. lia. }
  intros r2 s2 (HI2 & Hirq2 & -> & Hs2 & Ho2). kstep. split_and!; [done|congruence|done|].
  split; [|intros u Hu; by rewrite Ho2, Ho1]. rewrite Hs2. cbn [snd].
  destruct b; [|done]. specialize (Hn eq_refl). by rewrite (proj2 (Z.eqb_neq n 0)) by lia.
Qed.

(** ** Deleting, changing the priority, creating, sleeping *)

(** C26: deleting a live static task that is not the idle one (itself when
    no task is given) fails inside an interrupt, and for the running task while
    the scheduler is locked; otherwise the task is gone, every mutex it owned
    belongs to the most urgent task that waited for it, which stops waiting, or
    to nobody, every other task is as it was, and the invariant (priority
    inheritance included) and the interrupt mask are kept. *)
Theorem task_del_hands_over task t k s :
  Inv s -> del_target s task = Some t -> tasks s !! t = Some k -> live k -> prio k <> RHINO_IDLE_PRI ->
  wp (krhino_task_del task) (fun r s' => Inv s' /\ irq_off s' = irq_off s /\
    if 0 <? g_intrpt_nested_level s then r = RHINO_NOT_CALLED_BY_INTRPT /\ s' = s
    else if negb (mm_alloc_flag k =? K_OBJ_STATIC_ALLOC) then r = RHINO_KOBJ_DEL_ERR /\ s' = s
    else if bool_decide (g_active_task s = Some t) && (0 <? g_sched_lock s) then r = RHINO_SCHED_DISABLE /\ s' = s
    else r = RHINO_SUCCESS /\ task_deleted t s s') s.
Proof. apply task_del_spec. Qed.

(** Changing a priority is refused for the idle priority, a deleted
    task and in interrupts; otherwise exactly the base priority of that task
    changes, no task changes what it does, and every task runs at the priority
    that inheritance then gives it (the kernel invariant). *)
Theorem task_pri_change_exact t k pri s :
  Inv s -> tasks s !! t = Some k -> 0 <= pri ->
  wp (krhino_task_pri_change (Some t) pri (Some tt)) (fun r s' => Inv s' /\ irq_off s' = irq_off s /\
    if (RHINO_IDLE_PRI <=? prio k) || (RHINO_IDLE_PRI <=? pri) then r = (RHINO_PRI_CHG_NOT_ALLOWED, None) /\ s' = s
    else if bool_decide (task_state k = K_DELETED) then r = (RHINO_INV_TASK_STATE, None) /\ s' = s
    else if 0 <? g_intrpt_nested_level s then r = (RHINO_NOT_CALLED_BY_INTRPT, None) /\ s' = s
    else r = (RHINO_SUCCESS, Some (prio k)) /\ (forall u, tabs s' u = tabs s u) /\
      forall u, b_prio <$> tasks s' !! u = if decide (u = t) then Some pri else b_prio <$> tasks s !! u) s.
Proof. apply task_pri_change_spec. Qed.

(** Creating a task in memory that holds no live task checks its
    arguments in order (pointers, stack size, priority, interrupt context, a
    second idle task); on success the new task is ready, or suspended once when
    it is not to start at once, and no other task changes. *)
Theorem task_create_starts t name arg pri ticks stack_buf size entry autorun s :
  Inv s -> task_free s t -> g_active_task s <> Some t -> 0 <= pri ->
  wp (krhino_task_create (Some t) name arg pri ticks stack_buf size entry autorun)
    (task_post s t (create_result s t name stack_buf entry size pri autorun)) s.
Proof. apply task_create_spec. Qed.

(** Sleeping for [n] ticks is refused for zero ticks, in interrupts and
    while the scheduler is locked; otherwise the running task, and no other,
    sleeps with exactly [n] ticks to go. *)
Theorem task_sleep_exact ticks s :
  Inv s -> 0 <= ticks < 2 ^ 63 -> g_active_task s <> Some g_idle_task ->
  wp (krhino_task_sleep ticks) (fun r s' => Inv s' /\ irq_off s' = irq_off s /\
    if ticks =? 0 then r = Ret RHINO_INV_PARAM /\ s' = s
    else if 0 <? g_intrpt_nested_level s then r = Ret RHINO_NOT_CALLED_BY_INTRPT /\ s' = s
    else if 0 <? g_sched_lock s then r = Ret RHINO_SCHED_DISABLE /\ s' = s
    else r = Blocked /\ exists a k k', g_active_task s = Some a /\ tasks s !! a = Some k /\
      tabs_only a (Some (mk_atask (Some ASleep) false (suspend_count k))) s s' /\
      tasks s' !! a = Some k' /\ tick_head k' = true /\ tick_rem s' k' = ticks) s.
Proof. apply task_sleep_spec. Qed.

(** ** The scheduler and interrupts *)

(** Scheduler locks nest.  Locking counts up to its limit and changes
    nothing else; unlocking counts down, and only the last unlock reschedules,
    after which the running task is again the most urgent one.  Both are refused
    in interrupts, unlocking also when nothing is locked. *)
Theorem scheduler_lock_nests s :
  Inv s ->
  wp krhino_sched_disable (fun r s' => Inv s' /\
    if 0 <? g_intrpt_nested_level s then r = RHINO_NOT_CALLED_BY_INTRPT /\ s' = s
    else if g_sched_lock s =? SCHED_MAX_LOCK_COUNT then r = RHINO_SCHED_LOCK_COUNT_OVF /\ s' = s
    else r = RHINO_SUCCESS /\ s' = set_g_sched_lock (g_sched_lock s + 1) s) s /\
  wp krhino_sched_enable (fun r s' => Inv s' /\
    if 0 <? g_intrpt_nested_level s then r = RHINO_NOT_CALLED_BY_INTRPT /\ s' = s
    else if g_sched_lock s =? 0 then r = RHINO_SCHED_ALREADY_ENABLED /\ s' = s
    else if g_sched_lock s =? 1 then r = RHINO_SUCCESS /\ resched (set_g_sched_lock 0 s) s'
    else r = RHINO_SCHED_DISABLE /\ s' = set_g_sched_lock (g_sched_lock s - 1) s) s.
Proof. intros HI. split; [by apply sched_disable_spec|by apply sched_enable_spec]. Qed.

(** Yielding moves the running task behind the other ready tasks of
    its priority, keeps every other ready list, and reschedules. *)
Theorem yield_rotates s :
  Inv s -> g_intrpt_nested_level s = 0 ->
  wp krhino_task_yield (fun r s' => Inv s' /\ r = RHINO_SUCCESS /\ irq_off s' = irq_off s /\
    exists a ka rq', g_active_task s = Some a /\ tasks s !! a = Some ka /\ rotated (prio ka) (g_ready_queue s) rq' /\
      resched (set_g_ready_queue rq' s) s') s.
Proof. apply task_yield_spec. Qed.

(** Interrupts postpone the switch.  Entering an interrupt only counts
    it; whatever kernel call the handler makes leaves the running task in place;
    leaving the outermost interrupt, and only that, reschedules. *)
Theorem interrupt_postpones_switch s :
  Inv s -> g_intrpt_nested_level s < 255 ->
  wp krhino_intrpt_enter (fun r s1 => Inv s1 /\ r = RHINO_SUCCESS /\ postponed s1 = true /\ g_active_task s1 = g_active_task s /\
    forall s2, Inv s2 -> g_intrpt_nested_level s2 = g_intrpt_nested_level s1 ->
    wp krhino_intrpt_exit (fun _ s3 => Inv s3 /\ irq_off s3 = irq_off s2 /\ g_intrpt_nested_level s3 = g_intrpt_nested_level s /\
      resched (set_g_intrpt_nested_level (g_intrpt_nested_level s) s2) s3) s2) s.
Proof.
  intros HI Hn. pose proof (i0_nest _ s (inv_0 s HI)) as [Hn0 _]. eapply wp_mono; [by apply intrpt_enter_spec|].
  intros r s1 (HI1 & -> & ->). split_and!; [done|done|apply nested_postponed; cbn; lia|done|]. intros s2 HI2 E2. cbn in E2.
  eapply wp_mono; [apply intrpt_exit_spec; [done|lia]|]. intros [] s3 (? & ? & E3 & Hre).
  replace (g_intrpt_nested_level s2 - 1) with (g_intrpt_nested_level s) in * by lia. done.
Qed.

(** C30: no task is lost.  In every reachable state a task is on a ready
    list exactly when it is ready, and on that of its priority; on the wait list
    of an object exactly when it waits for that object; on the tick list exactly
    when it has a timeout; a sleeping task has one; and no list has a task
    twice. *)
Theorem every_task_on_its_lists s :
  reachable s ->
  (forall t k, tasks s !! t = Some k ->
    (forall p, t ∈ rql (g_ready_queue s) p <-> task_state k = K_RDY /\ prio k = p) /\
    (forall o b, blks s !! o = Some b -> t ∈ blk_list b <-> pending k /\ blk_obj k = Some o) /\
    (t ∈ g_tick_head s <-> tick_head k = true) /\ (sleeping k -> t ∈ g_tick_head s)) /\
  (forall p, NoDup (rql (g_ready_queue s) p)) /\ (forall o b, blks s !! o = Some b -> NoDup (blk_list b)) /\ NoDup (g_tick_head s).
Proof.
  intros [HI _]%reachable_inv. destruct (ci_wf s (i0_ci _ s (inv_0 s HI))) as [_ Hr Hb [Ht Htk] Hk].
  assert (forall t k (P : ktask_t -> Prop), tasks s !! t = Some k -> (exists k', tasks s !! t = Some k' /\ P k') <-> P k) as Hone.
  { intros t k P Hlk. split; [|eauto]. intros (k' & Hk' & ?). by simplify_eq. }
  split_and!; [|intros p; apply Hr|intros o b Ho; by apply (proj1 (Hb o b Ho))|done].
  intros t k Hlk. split_and!.
  - intros p. rewrite (proj2 (Hr p)). by rewrite (Hone t k).
  - intros o b Ho. rewrite (proj2 (proj1 (Hb o b Ho))). by rewrite (Hone t k).
  - rewrite Htk. by rewrite (Hone t k).
  - intros Hs. rewrite Htk. exists k. split; [done|]. by apply (Hk t k Hlk).
Qed.

(** Every call on an object or task checks its pointer first: called
    with a null pointer it returns the null-pointer status and changes nothing. *)
Theorem null_pointer_rejected :
  let st (m : K kstat_t) := r ← m; mret (Ret r) in
  Forall (fun m : K call_res => forall s, m s = Some (Ret RHINO_NULL_PTR, s))
    [st (krhino_sem_give None); st (krhino_sem_give_all None); krhino_sem_take None 0; st (krhino_sem_count_set None 0); st (krhino_sem_del None);
     krhino_mutex_lock None 0; st (krhino_mutex_unlock None); st (krhino_mutex_del None);
     st (krhino_queue_back_send None 0); st (krhino_queue_all_send None 0); st (krhino_queue_flush None); st (krhino_queue_is_full None);
     st (krhino_queue_del None); st (krhino_event_set None 0 0); krhino_event_get None 0 0 None 0; st (krhino_event_del None);
     st (krhino_buf_queue_send None None 0); st (krhino_buf_queue_flush None); st (krhino_buf_queue_del None);
     st (krhino_task_suspend None); st (krhino_task_resume None); st (krhino_task_wait_abort None);
     st (krhino_task_time_slice_set None 0); st (krhino_sched_policy_set None 0); st (krhino_task_info_set None 0 0)].
Proof. cbv zeta. repeat constructor. Qed.

(** Creating an object in memory that is not in use (no task waits
    on it or owns it) succeeds for sensible arguments, makes exactly that object
    (empty, of its type, with the given contents), changes no task and no other
    object, and keeps the kernel invariant. *)
Theorem create_object o name n s :
  Inv s -> obj_idle s o -> create_pre n ->
  wp (create_exec o name n) (fun r s' => r = RHINO_SUCCESS /\ Inv s' /\ tasks s' = tasks s /\ irq_off s' = irq_off s /\
    blks s' = <[o := mk_blk [] name BLK_POLICY_PRI (new_type n)]> (blks s) /\ other_bodies o s s' /\ new_body o n s') s.
Proof.
  intros HI Hidle Hpre. eapply wp_mono; [by apply create_inv|]. intros r s' (-> & HI' & (Ho & Hc & Hirq) & Hb).
  unfold core in Hc. cbn in Hc. injection Hc as Et Eb _ _ _ _ _ _ _. by split_and!.
Qed.

(** ** Three defects *)

(** Deleting the idle task is refused, but the refusal leaves the
    critical section open: interrupts stay disabled after the call returns. *)
Theorem idle_delete_leaves_interrupts_off s :
  Inv s -> g_intrpt_nested_level s = 0 ->
  krhino_task_del (Some g_idle_task) s = Some (RHINO_TASK_DEL_NOT_ALLOWED, set_irq_off true s).
Proof.
  intros HI Hn. destruct (ci_idle s (i0_ci _ s (inv_0 s HI))) as (k & Hk & Hr & Hb).
  assert (prio k = RHINO_IDLE_PRI) as Ep by (eapply idle_prio; [apply (i0_ci _ s (inv_0 s HI))|done|unfold live; by rewrite Hr|done]).
  enough (wp (krhino_task_del (Some g_idle_task)) (fun r s' => r = RHINO_TASK_DEL_NOT_ALLOWED /\ s' = set_irq_off true s) s) as Hw
    by (apply wp_iff in Hw as (r & s' & E & -> & ->); exact E).
  unfold krhino_task_del. kstep. apply wp_critical_enter, wp_nested_chk; cbn [g_intrpt_nested_level set_irq_off]; [lia|].
  intros _. do 4 kstep. destruct (prio k =? RHINO_IDLE_PRI) eqn:E; zbool; [|exact (False_ind _ (E Ep))]. by kstep.
Qed.

(** A mutex handed over by the deletion of its owner keeps the
    nesting count of the dead owner: the new owner, which locked it once, holds
    it with the depth the old owner had reached, so that one unlock does not
    release it when that was more than one. *)
Theorem deletion_passes_nesting_on task t k o m b u l s :
  Inv s -> del_target s task = Some t -> tasks s !! t = Some k -> live k -> prio k <> RHINO_IDLE_PRI ->
  g_intrpt_nested_level s = 0 -> g_sched_lock s = 0 -> mm_alloc_flag k = K_OBJ_STATIC_ALLOC ->
  is_mutex s o -> mutexes s !! o = Some m -> mutex_task m = Some t -> blks s !! o = Some b -> blk_list b = u :: l ->
  wp (krhino_task_del task) (fun r s' => r = RHINO_SUCCESS /\ Inv s' /\
    exists m', mutexes s' !! o = Some m' /\ mutex_task m' = Some u /\ owner_nested m' = owner_nested m) s.
Proof.
  intros HI Ht Hk Hl Hp Hn Hlk Hfl Hm Hmo Hmt Hb El. eapply wp_mono; [by apply (task_del_spec task t k)|].
  intros r s' (HI' & _ & Hs). rewrite Hn, Hlk, Hfl, andb_false_r in Hs. cbn in Hs. destruct Hs as [-> Hd]. split_and!; [done..|].
  destruct (de_mutex _ _ _ Hd o b) as (m' & Hm' & E1 & E2); [split; [done|by exists m]|done|]. exists m'.
  rewrite Hmo in E2. injection E2 as E2. rewrite El in E1. by split_and!.
Qed.

End calls.

(** ** Examples *)

(** An entry of a concrete map, with some of its fields computed. *)
Lemma demo_lookup {V A} (f : V -> A) v (m : gmap nat V) i : f <$> m !! i = Some v -> exists x, m !! i = Some x /\ f x = v.
Proof. destruct (m !! i) as [x|]; [|done]. intros [= E]. by exists x. Qed.

Lemma eq_ne {A} (x v w : A) : x = v -> v <> w -> x <> w.
Proof. by intros ->. Qed.

#[local] Opaque demo_boot demo_contended.

Lemma demo_contended_inv : Inv demo_contended.
Proof. apply reachable_inv, demo_contended_reachable. Qed.

Lemma task_refines_state_machine_witness :
  at_run demo_contended 2%nat TaskWaitAbort = (RHINO_SUCCESS, Some (mk_atask None false 0)) /\
  wp (task_exec 2%nat TaskWaitAbort) (task_post demo_contended 2%nat (at_run demo_contended 2%nat TaskWaitAbort)) demo_contended.
Proof.
  split; [by vm_compute|]. apply (task_refines_state_machine 2%nat TaskWaitAbort demo_contended); [apply demo_contended_inv|by eexists; vm_compute].
Defined.

Lemma suspend_resume_roundtrip_witness :
  wp (r1 ← task_exec 2%nat TaskSuspend; r2 ← task_exec 2%nat TaskResume; mret (r1, r2))
    (fun r s' => Inv s' /\ irq_off s' = irq_off demo_contended /\ r = (RHINO_SUCCESS, RHINO_SUCCESS) /\
       tabs_only 2%nat (Some (mk_atask (Some (APend 1%nat)) false 0)) demo_contended s') demo_contended.
Proof.
  destruct (demo_lookup prio 10 (tasks demo_contended) 2%nat) as (k & Hk & Ek); [by vm_compute|].
  apply (suspend_resume_roundtrip 2%nat k (Some (APend 1%nat)) false 0 demo_contended demo_contended_inv Hk); [by apply (eq_ne _ _ _ Ek)| |by vm_compute|done].
  intros [E _]. by vm_compute in E.
Defined.

(** The running task deletes itself while a more urgent one waits for its mutex. *)
Lemma task_del_hands_over_witness :
  wp (krhino_task_del None) (fun r s' => Inv s' /\ r = RHINO_SUCCESS /\ tabs s' g_dyn_task = None /\
    (exists m, mutexes s' !! 1%nat = Some m /\ mutex_task m = Some 2%nat) /\ tabs s' 2%nat = Some (mk_atask None false 0)) demo_contended.
Proof.
  destruct (demo_lookup (fun k => (task_state k, prio k, mm_alloc_flag k)) (K_RDY, 10, K_OBJ_STATIC_ALLOC) (tasks demo_contended) g_dyn_task)
    as (k & Hk & Ek); [by vm_compute|]. injection Ek as Es Ep Ef.
  destruct (demo_lookup (fun b => (blk_list b, obj_type b)) ([2%nat], RHINO_MUTEX_OBJ_TYPE) (blks demo_contended) 1%nat)
    as (b & Hb & Eb); [by vm_compute|]. injection Eb as El Ety.
  destruct (demo_lookup mutex_task (Some g_dyn_task) (mutexes demo_contended) 1%nat) as (m & Hm & Em); [by vm_compute|].
  assert (owned demo_contended 1%nat g_dyn_task) as Ho by exact (conj (ex_intro _ b (conj Hb Ety)) (ex_intro _ m (conj Hm Em))).
  eapply wp_mono; [apply (task_del_hands_over None g_dyn_task k demo_contended demo_contended_inv); [by vm_compute|exact Hk|by apply (eq_ne _ _ _ Es)|by apply (eq_ne _ _ _ Ep)]|].
  intros r s' (HI & _ & Hs). replace (0 <? g_intrpt_nested_level demo_contended) with false in Hs by by vm_compute.
  rewrite Ef in Hs. replace (0 <? g_sched_lock demo_contended) with false in Hs by by vm_compute.
  rewrite andb_false_r in Hs. cbn in Hs. destruct Hs as [-> [H1 _ H3 H4 _]]. split; [exact HI|]. split; [reflexivity|]. split; [exact H1|]. split.
  - destruct (H3 1%nat b Ho Hb) as (m' & Hm' & E & _). exists m'. rewrite El in E. exact (conj Hm' E).
  - etransitivity; [apply (H4 1%nat 2%nat Ho)|by vm_compute]; [|discriminate]. exact (ex_intro _ b (conj Hb (f_equal head El))).
Defined.

Lemma task_pri_change_exact_witness :
  wp (krhino_task_pri_change (Some 2%nat) 5 (Some tt)) (fun r s' => Inv s' /\ r = (RHINO_SUCCESS, Some 10) /\
    b_prio <$> tasks s' !! 2%nat = Some 5) demo_contended.
Proof.
  destruct (demo_lookup (fun k => (task_state k, prio k)) (K_PEND, 10) (tasks demo_contended) 2%nat) as (k & Hk & Ek); [by vm_compute|].
  injection Ek as Es Ep. eapply wp_mono; [apply (task_pri_change_exact 2%nat k 5 demo_contended demo_contended_inv Hk); lia|].
  intros r s' (HI & _ & Hs). rewrite Ep in Hs. rewrite bool_decide_false in Hs by (by apply (eq_ne _ _ _ Es)).
  replace (0 <? g_intrpt_nested_level demo_contended) with false in Hs by by vm_compute. cbn in Hs.
  destruct Hs as (-> & _ & Hb). exact (conj HI (conj eq_refl (Hb 2%nat))).
Defined.

Lemma task_create_starts_witness :
  create_result demo_boot 2%nat (Some 1) (Some 1) (Some 1) 64 10 0 = (RHINO_SUCCESS, Some (mk_atask None true 1)) /\
  wp (krhino_task_create (Some 2%nat) (Some 1) 0 10 0 (Some 1) 64 (Some 1) 0)
    (task_post demo_boot 2%nat (create_result demo_boot 2%nat (Some 1) (Some 1) (Some 1) 64 10 0)) demo_boot.
Proof.
  split; [by vm_compute|]. apply (task_create_starts 2%nat (Some 1) 0 10 0 (Some 1) 64 (Some 1) 0 demo_boot demo_boot_inv);
    [intros k|by vm_compute|lia]. by vm_compute.
Defined.

Lemma task_sleep_exact_witness :
  wp (krhino_task_sleep 3) (fun r s' => Inv s' /\ r = Blocked /\
    exists k', tasks s' !! g_dyn_task = Some k' /\ tick_head k' = true /\ tick_rem s' k' = 3) demo_boot.
Proof.
  eapply wp_mono; [apply (task_sleep_exact 3 demo_boot demo_boot_inv); [lia|by vm_compute]|].
  intros r s' (HI & _ & Hs). cbn [Z.eqb] in Hs. replace (0 <? g_intrpt_nested_level demo_boot) with false in Hs by by vm_compute.
  replace (0 <? g_sched_lock demo_boot) with false in Hs by by vm_compute.
  destruct Hs as (-> & a & k & k' & Ha & _ & _ & Hk' & Hs). split_and!; [done..|]. exists k'. split; [|exact Hs].
  replace (g_active_task demo_boot) with (Some g_dyn_task) in Ha by by vm_compute. by injection Ha as <-.
Defined.

Lemma scheduler_lock_nests_witness :
  wp krhino_sched_disable (fun r s' => Inv s' /\ r = RHINO_SUCCESS /\ s' = set_g_sched_lock 1 demo_contended) demo_contended /\
  wp krhino_sched_enable (fun r s' => Inv s' /\ r = RHINO_SCHED_ALREADY_ENABLED /\ s' = demo_contended) demo_contended.
Proof.
  assert (g_intrpt_nested_level demo_contended = 0 /\ g_sched_lock demo_contended = 0) as [En El] by (by vm_compute).
  destruct (scheduler_lock_nests demo_contended demo_contended_inv) as [H1 H2]. rewrite En, El in H1, H2. by split.
Defined.

Lemma yield_rotates_witness :
  wp krhino_task_yield (fun r s' => Inv s' /\ r = RHINO_SUCCESS /\ irq_off s' = irq_off demo_boot /\
    exists a ka rq', g_active_task demo_boot = Some a /\ tasks demo_boot !! a = Some ka /\ rotated (prio ka) (g_ready_queue demo_boot) rq' /\
      resched (set_g_ready_queue rq' demo_boot) s') demo_boot.
Proof. apply (yield_rotates demo_boot demo_boot_inv). by vm_compute. Defined.

Lemma interrupt_postpones_switch_witness :
  wp krhino_intrpt_enter (fun r s1 => Inv s1 /\ g_intrpt_nested_level s1 = 1 /\
    wp krhino_intrpt_exit (fun _ s3 => Inv s3 /\ g_intrpt_nested_level s3 = 0) s1) demo_boot.
Proof.
  assert (g_intrpt_nested_level demo_boot = 0) as En by (by vm_compute).
  assert (wp krhino_intrpt_enter (fun _ s1 => g_intrpt_nested_level s1 = 1) demo_boot) as H1 by (by vm_compute).
  apply wp_iff in H1 as (r & s1 & E & En1).
  pose proof (interrupt_postpones_switch demo_boot demo_boot_inv ltac:(by vm_compute)) as H2.
  apply wp_iff in H2 as (r' & s1' & E' & HI1 & _ & _ & _ & Hx). rewrite E in E'. injection E' as <- <-.
  apply wp_iff. exists r, s1. split_and!; [exact E|exact HI1|exact En1|].
  eapply wp_mono; [by apply (Hx s1)|]. intros [] s3 (? & _ & En3 & _). by rewrite En3.
Defined.

Lemma every_task_on_its_lists_witness :
  (exists k, tasks demo_contended !! 2%nat = Some k /\ task_state k = K_PEND /\
    (forall o b, blks demo_contended !! o = Some b -> 2%nat ∈ blk_list b <-> pending k /\ blk_obj k = Some o)) /\
  NoDup (g_tick_head demo_contended).
Proof.
  destruct (every_task_on_its_lists demo_contended demo_contended_reachable) as (Ht & _ & _ & Hn). split; [|exact Hn].
  destruct (demo_lookup task_state K_PEND (tasks demo_contended) 2%nat) as (k & Hk & Ek); [by vm_compute|]. exists k.
  split_and!; [done..|]. apply (Ht 2%nat k Hk).
Defined.

Lemma create_object_witness :
  wp (create_exec 1%nat 0 (NewSem 3)) (fun r s' => r = RHINO_SUCCESS /\ Inv s' /\ tasks s' = tasks demo_boot /\
    exists m, sems s' !! 1%nat = Some m /\ sem_count m = 3) demo_boot.
Proof.
  eapply wp_mono; [apply (create_object 1%nat 0 (NewSem 3) demo_boot demo_boot_inv); [apply obj_fresh_idle|]; by vm_compute|].
  by intros r s' (-> & HI & Et & _ & _ & _ & Hb).
Defined.

Lemma idle_delete_leaves_interrupts_off_witness :
  irq_off demo_boot = false /\
  krhino_task_del (Some g_idle_task) demo_boot = Some (RHINO_TASK_DEL_NOT_ALLOWED, set_irq_off true demo_boot).
Proof.
  split; [by vm_compute|]. apply (idle_delete_leaves_interrupts_off demo_boot demo_boot_inv). by vm_compute.
Defined.

(** The owner has locked twice. *)
Definition demo_nested : kstate :=
  demo_calls [CCreate 1%nat 0 NewMutex; CMutex 1%nat (MutexLock 0); CMutex 1%nat (MutexLock 0); demo_new_task 2%nat 10 0;
    CMutex 1%nat (MutexLock RHINO_WAIT_FOREVER)].

Lemma demo_nested_inv : Inv demo_nested.
Proof.
  apply reachable_inv. unfold demo_nested, demo_calls. cbn [fold_left]. repeat apply reachable_after; [apply demo_reachable|..].
  - split; [|done]. by apply obj_fresh_idle; vm_compute.
  - split; [by eexists; vm_compute|]. split; [left; lia|by vm_compute].
  - split; [by eexists; vm_compute|]. split; [left; lia|by vm_compute].
  - split_and!; [intros k|by vm_compute|lia]. by vm_compute.
  - split; [by eexists; vm_compute|]. split; [by right|by vm_compute].
Qed.

#[local] Opaque demo_nested.

Lemma deletion_passes_nesting_on_witness :
  wp (krhino_task_del None) (fun r s' => r = RHINO_SUCCESS /\ Inv s' /\
    exists m', mutexes s' !! 1%nat = Some m' /\ mutex_task m' = Some 2%nat /\ owner_nested m' = 2) demo_nested.
Proof.
  destruct (demo_lookup (fun k => (task_state k, prio k, mm_alloc_flag k)) (K_RDY, 10, K_OBJ_STATIC_ALLOC) (tasks demo_nested) g_dyn_task)
    as (k & Hk & Ek); [by vm_compute|]. injection Ek as Es Ep Ef.
  destruct (demo_lookup (fun b => (blk_list b, obj_type b)) ([2%nat], RHINO_MUTEX_OBJ_TYPE) (blks demo_nested) 1%nat)
    as (b & Hb & Eb); [by vm_compute|]. injection Eb as El Ety.
  destruct (demo_lookup (fun m => (mutex_task m, owner_nested m)) (Some g_dyn_task, 2) (mutexes demo_nested) 1%nat)
    as (m & Hm & Em); [by vm_compute|]. injection Em as Eo Eon.
  eapply wp_mono; [apply (deletion_passes_nesting_on None g_dyn_task k 1%nat m b 2%nat [] demo_nested demo_nested_inv);
    [by vm_compute|exact Hk|by apply (eq_ne _ _ _ Es)|by apply (eq_ne _ _ _ Ep)|by vm_compute|by vm_compute|exact Ef|exact (ex_intro _ b (conj Hb Ety))|exact Hm|exact Eo|exact Hb|exact El]|].
  intros r s' (-> & HI & m' & Hm' & E1 & E2). exact (conj eq_refl (conj HI (ex_intro _ m' (conj Hm' (conj E1 (eq_trans E2 Eon)))))).
Defined.

(** The task that deleted itself above is deleted again by the new owner of its mutex. *)
Definition demo_deleted : kstate := demo_calls (demo_contention ++ [CTaskDel None]).

(** Deleting a task that is deleted already reports an invalid state,
    but only after walking the list of mutexes the dead task once held: here it
    takes the mutex from the task it had been handed to, which still holds it. *)
Theorem second_delete_steals_mutex :
  mutex_task <$> mutexes demo_deleted !! 1%nat = Some (Some 2%nat) /\ g_active_task demo_deleted = Some 2%nat /\
  exists s', krhino_task_del (Some g_dyn_task) demo_deleted = Some (RHINO_INV_TASK_STATE, s') /\
    mutex_task <$> mutexes s' !! 1%nat = Some None.
Proof. split_and!; [by vm_compute..|]. eexists. split; vm_compute; reflexivity. Qed.
