(* ===== verification/Mqtt.v ===== *)
(** * MQTT packets ([framework/connectivity/mqtt/MQTTPacket])

    Serialising and deserialising the packets of an MQTT client, and reading a
    packet from a transport, at once or in pieces.  A buffer is the list of its
    bytes and a pointer into it an offset; a read or write outside the buffer has
    no result, and neither has a signed [int] overflow ([ck]).  A pointer to other
    memory is the contents of that memory from there on.  Plain [char] is
    unsigned, as on the ARM ports; bit fields are allocated from the low bit. *)

From S2P Require Import Prelude CircBuf.
Local Open Scope Z_scope.

(** The result of an [int] operation. *)
Definition ck (z : Z) : option Z := if decide (- 2 ^ 31 <= z < 2 ^ 31) then Some z else None.

Definition MQTTPACKET_BUFFER_TOO_SHORT : Z := -2.

Definition MQTTPACKET_READ_ERROR : Z := -1.

(** [enum msgTypes] *)
Definition CONNECT : Z := 1.

Definition CONNACK : Z := 2.

Definition PUBLISH : Z := 3.

Definition PUBACK : Z := 4.

Definition PUBREC : Z := 5.

Definition PUBREL : Z := 6.

Definition PUBCOMP : Z := 7.

Definition SUBSCRIBE : Z := 8.

Definition SUBACK : Z := 9.

Definition UNSUBSCRIBE : Z := 10.

Definition UNSUBACK : Z := 11.

Definition PINGREQ : Z := 12.

Definition PINGRESP : Z := 13.

Definition DISCONNECT : Z := 14.

(** [MQTTHeader]: the byte with these bit fields. *)
Definition header_byte (type dup qos retain : Z) : Z :=
  Z.lor (Z.shiftl (type mod 16) 4) (Z.lor (Z.shiftl (dup mod 2) 3) (Z.lor (Z.shiftl (qos mod 4) 1) (retain mod 2))).

Definition hdr_type (byte : Z) : Z := Z.land (Z.shiftr byte 4) 15.

Definition hdr_dup (byte : Z) : Z := Z.land (Z.shiftr byte 3) 1.

Definition hdr_qos (byte : Z) : Z := Z.land (Z.shiftr byte 1) 3.

Definition hdr_retain (byte : Z) : Z := Z.land byte 1.

Record MQTTLenString := mk_lenstring { ls_len : Z; ls_data : option (list Z) }.

Record MQTTString := mk_mqttstring { cstring : option (list Z); lenstring : MQTTLenString }.

(** ** Writing *)

(** The output buffer and the pointer into it. *)
Record wbuf := mk_wbuf { w_mem : list Z; w_ptr : Z }.

(** The do-while loop of [MQTTPacket_encode]; an [int] has at most five digits in
    base 128. *)
Fixpoint encode_loop (fuel : nat) (buf : list Z) (off rc length : Z) : option (Z * list Z) :=
  match fuel with
  | O => None
  | S fuel =>
      let d := Z.rem length 128 in
      let length := Z.quot length 128 in
      let d := if 0 <? length then Z.lor d 128 else d in
      buf ← arr_set buf (off + rc) (u8 d);
      let rc := rc + 1 in
      if 0 <? length then encode_loop fuel buf off rc length else Some (rc, buf)
  end.

Definition MQTTPacket_encode (buf : list Z) (off length : Z) : option (Z * list Z) := encode_loop 5 buf off 0 length.

(** [ptr += MQTTPacket_encode(ptr, rem_len)] *)
Definition writeLen (rem_len : Z) (w : wbuf) : option wbuf :=
  '(rc, m) ← MQTTPacket_encode (w_mem w) (w_ptr w) rem_len; Some (mk_wbuf m (w_ptr w + rc)).

Definition MQTTPacket_len (rem_len : Z) : option Z :=
  rem_len ← ck (rem_len + 1);
  if rem_len <? 128 then ck (rem_len + 1)
  else if rem_len <? 16384 then ck (rem_len + 2)
  else if rem_len <? 2097151 then ck (rem_len + 3)
  else ck (rem_len + 4).

Definition writeChar (c : Z) (w : wbuf) : option wbuf :=
  m ← arr_set (w_mem w) (w_ptr w) (u8 c); Some (mk_wbuf m (w_ptr w + 1)).

Definition writeInt (anInt : Z) (w : wbuf) : option wbuf :=
  w ← writeChar (Z.quot anInt 256) w; writeChar (Z.rem anInt 256) w.

(** [memcpy(ptr, src, n); ptr += n] *)
Definition writeBytes (src : list Z) (n : Z) (w : wbuf) : option wbuf :=
  m ← memcpy (w_mem w) (w_ptr w) src 0 n; Some (mk_wbuf m (w_ptr w + n)).

Fixpoint strlen (s : list Z) : option Z :=
  match s with
  | [] => None
  | c :: s => if c =? 0 then Some 0 else n ← strlen s; Some (n + 1)
  end.

Definition writeCString (string : list Z) (w : wbuf) : option wbuf :=
  n ← strlen string;
  let len := signed 32 n in
  w ← writeInt len w; writeBytes string len w.

Definition writeMQTTString (mqttstring : MQTTString) (w : wbuf) : option wbuf :=
  let len := ls_len (lenstring mqttstring) in
  if 0 <? len then
    w ← writeInt len w;
    d ← ls_data (lenstring mqttstring);
    writeBytes d len w
  else
    match cstring mqttstring with
    | Some c => writeCString c w
    | None => writeInt 0 w
    end.

Definition MQTTstrlen (mqttstring : MQTTString) : option Z :=
  match cstring mqttstring with
  | Some c => n ← strlen c; Some (signed 32 n)
  | None => Some (ls_len (lenstring mqttstring))
  end.

(** ** Reading *)

Definition readInt (buf : list Z) (p : Z) : option (Z * Z) :=
  b0 ← arr_get buf p; b1 ← arr_get buf (p + 1); Some (256 * b0 + b1, p + 2).

Definition readChar (buf : list Z) (p : Z) : option (Z * Z) := c ← arr_get buf p; Some (c, p + 1).

Definition getLenStringLen (ptr : list Z) : option Z := n ← readInt ptr 0; Some n.1.

(** The string read, and the pointer afterwards; the string keeps its old data
    pointer when it does not fit. *)
Definition readMQTTLenString (s : MQTTString) (buf : list Z) (p enddata : Z) : option (Z * MQTTString * Z) :=
  if 1 <? enddata - p then
    '(len, p) ← readInt buf p;
    if p + len <=? enddata then Some (1, mk_mqttstring None (mk_lenstring len (Some (drop (Z.to_nat p) buf))), p + len)
    else Some (0, mk_mqttstring None (mk_lenstring len (ls_data (lenstring s))), p)
  else Some (0, mk_mqttstring None (lenstring s), p).

(** [strncmp(a, b, n) == 0] *)
Fixpoint strncmp_eq (n : nat) (a b : list Z) : option bool :=
  match n with
  | O => Some true
  | S n =>
      match a, b with
      | x :: a, y :: b => if negb (x =? y) then Some false else if x =? 0 then Some true else strncmp_eq n a b
      | _, _ => None
      end
  end.

Definition MQTTPacket_equals (a : MQTTString) (bptr : list Z) : option bool :=
  '(aptr, alen) ← match cstring a with
    | Some c => n ← strlen c; Some (Some c, signed 32 n)
    | None => Some (ls_data (lenstring a), ls_len (lenstring a))
    end;
  blen ← strlen bptr;
  if negb (alen =? signed 32 blen) then Some false
  else p ← aptr; strncmp_eq (Z.to_nat alen) p bptr.

(** ** The remaining length *)

Definition MAX_NO_OF_REMAINING_LENGTH_BYTES : Z := 4.

Section decode.
(** A source of characters: status, character, next state. *)
Context {T : Type} (getcharfn : T -> option (Z * Z * T)).

Fixpoint decode_loop (fuel : nat) (value multiplier len : Z) (s : T) : option (Z * Z * T) :=
  match fuel with
  | O => None
  | S fuel =>
      let len := len + 1 in
      if MAX_NO_OF_REMAINING_LENGTH_BYTES <? len then Some (len, value, s)
      else
        '(rc, c, s) ← getcharfn s;
        if negb (rc =? 1) then Some (len, value, s)
        else
          let value := value + Z.land c 127 * multiplier in
          let multiplier := multiplier * 128 in
          if negb (Z.land c 128 =? 0) then decode_loop fuel value multiplier len s else Some (len, value, s)
  end.

(** The number of characters counted, the value, and the source afterwards. *)
Definition MQTTPacket_decode (s : T) : option (Z * Z * T) := decode_loop 5 0 1 0 s.

End decode.

(** The source is a buffer and a pointer into it. *)
Definition bufchar (buf : list Z) (bufptr : Z) : option (Z * Z * Z) :=
  c ← arr_get buf bufptr; Some (1, c, bufptr + 1).

Definition MQTTPacket_decodeBuf (buf : list Z) (p : Z) : option (Z * Z) :=
  r ← MQTTPacket_decode (bufchar buf) p; Some r.1.

(** ** PUBLISH *)

Definition MQTTSerialize_publishLength (qos : Z) (topicName : MQTTString) (payloadlen : Z) : option Z :=
  n ← MQTTstrlen topicName;
  n ← ck (2 + n);
  len ← ck (n + payloadlen);
  if 0 <? qos then ck (len + 2) else Some len.

(** A serialiser answers with its result and the buffer. *)
Definition MQTTSerialize_publish (buf : list Z) (buflen dup qos retained packetid : Z) (topicName : MQTTString)
    (payload : list Z) (payloadlen : Z) : option (Z * list Z) :=
  rem_len ← MQTTSerialize_publishLength qos topicName payloadlen;
  n ← MQTTPacket_len rem_len;
  if buflen <? n then Some (MQTTPACKET_BUFFER_TOO_SHORT, buf)
  else
    w ← writeChar (header_byte PUBLISH dup qos retained) (mk_wbuf buf 0);
    w ← writeLen rem_len w;
    w ← writeMQTTString topicName w;
    w ← (if 0 <? qos then writeInt packetid w else Some w);
    w ← writeBytes payload payloadlen w;
    Some (w_ptr w, w_mem w).

(** What a deserialiser stored through its out parameters. *)
Record publish_out := mk_publish {
  po_dup : option Z; po_qos : option Z; po_retained : option Z; po_packetid : option Z;
  po_topic : MQTTString; po_payload : option (list Z); po_payloadlen : option Z
}.

Definition MQTTDeserialize_publish (topicName : MQTTString) (buf : list Z) (buflen : Z) : option (Z * publish_out) :=
  '(byte, curdata) ← readChar buf 0;
  if negb (hdr_type byte =? PUBLISH) then Some (0, mk_publish None None None None topicName None None)
  else
    let dup := Some (hdr_dup byte) in
    let qos := hdr_qos byte in
    let retained := Some (hdr_retain byte) in
    '(rc, mylen) ← MQTTPacket_decodeBuf buf curdata;
    let curdata := curdata + rc in
    let enddata := curdata + mylen in
    '(ok, topicName, curdata) ← readMQTTLenString topicName buf curdata enddata;
    if (ok =? 0) || (enddata - curdata <? 0) then Some (rc, mk_publish dup (Some qos) retained None topicName None None)
    else
      '(packetid, curdata) ← (if 0 <? qos then r ← readInt buf curdata; Some (Some (u16 r.1), r.2) else Some (None, curdata));
      Some (1, mk_publish dup (Some qos) retained packetid topicName (Some (drop (Z.to_nat curdata) buf)) (Some (enddata - curdata))).

(** ** Acknowledgements *)

Definition MQTTSerialize_ack (buf : list Z) (buflen packettype dup packetid : Z) : option (Z * list Z) :=
  if buflen <? 4 then Some (MQTTPACKET_BUFFER_TOO_SHORT, buf)
  else
    w ← writeChar (header_byte packettype dup (if packettype =? PUBREL then 1 else 0) 0) (mk_wbuf buf 0);
    w ← writeLen 2 w;
    w ← writeInt packetid w;
    Some (w_ptr w, w_mem w).

Definition MQTTSerialize_puback (buf : list Z) (buflen packetid : Z) : option (Z * list Z) :=
  MQTTSerialize_ack buf buflen PUBACK 0 packetid.

Definition MQTTSerialize_pubrel (buf : list Z) (buflen dup packetid : Z) : option (Z * list Z) :=
  MQTTSerialize_ack buf buflen PUBREL dup packetid.

Definition MQTTSerialize_pubcomp (buf : list Z) (buflen packetid : Z) : option (Z * list Z) :=
  MQTTSerialize_ack buf buflen PUBCOMP 0 packetid.

(** Result, packet type, dup flag, packet identifier when read. *)
Definition MQTTDeserialize_ack (buf : list Z) (buflen : Z) : option (Z * Z * Z * option Z) :=
  '(byte, curdata) ← readChar buf 0;
  let dup := hdr_dup byte in
  let packettype := hdr_type byte in
  '(rc, mylen) ← MQTTPacket_decodeBuf buf curdata;
  let curdata := curdata + rc in
  let enddata := curdata + mylen in
  if enddata - curdata <? 2 then Some (rc, packettype, dup, None)
  else r ← readInt buf curdata; Some (1, packettype, dup, Some (u16 r.1)).

(** ** SUBSCRIBE and UNSUBSCRIBE

    The two arrays of a subscription are lists; [count] may not exceed them. *)

Fixpoint filters_length (extra len : Z) (topicFilters : list MQTTString) : option Z :=
  match topicFilters with
  | [] => Some len
  | s :: l =>
      n ← MQTTstrlen s;
      n ← ck (2 + n);
      n ← ck (n + extra);
      len ← ck (len + n);
      filters_length extra len l
  end.

(** The first [count] entries. *)
Definition first_of {A} (count : Z) (l : list A) : option (list A) :=
  if decide (count <= Z.of_nat (length l)) then Some (take (Z.to_nat count) l) else None.

Definition MQTTSerialize_subscribeLength (count : Z) (topicFilters : list MQTTString) : option Z :=
  l ← first_of count topicFilters; filters_length 1 2 l.

Fixpoint write_filters (l : list (MQTTString * Z)) (w : wbuf) : option wbuf :=
  match l with
  | [] => Some w
  | (s, qos) :: l => w ← writeMQTTString s w; w ← writeChar qos w; write_filters l w
  end.

Definition MQTTSerialize_subscribe (buf : list Z) (buflen dup packetid count : Z) (topicFilters : list MQTTString)
    (requestedQoSs : list Z) : option (Z * list Z) :=
  rem_len ← MQTTSerialize_subscribeLength count topicFilters;
  n ← MQTTPacket_len rem_len;
  if buflen <? n then Some (MQTTPACKET_BUFFER_TOO_SHORT, buf)
  else
    w ← writeChar (header_byte SUBSCRIBE dup 1 0) (mk_wbuf buf 0);
    w ← writeLen rem_len w;
    w ← writeInt packetid w;
    fs ← first_of count topicFilters;
    qs ← first_of count requestedQoSs;
    w ← write_filters (zip fs qs) w;
    Some (w_ptr w, w_mem w).

(** The loop over the granted qualities of service; [grantedQoSs] is the array of
    the caller. *)
Fixpoint suback_loop (fuel : nat) (buf : list Z) (curdata enddata maxcount count : Z) (grantedQoSs : list Z)
  : option (Z * Z * list Z) :=
  if curdata <? enddata then
    match fuel with
    | O => None
    | S fuel =>
        if maxcount <? count then Some (-1, count, grantedQoSs)
        else
          '(c, curdata) ← readChar buf curdata;
          grantedQoSs ← arr_set grantedQoSs count c;
          suback_loop fuel buf curdata enddata maxcount (count + 1) grantedQoSs
    end
  else Some (1, count, grantedQoSs).

(** Result, packet identifier, count, array. *)
Definition MQTTDeserialize_suback (maxcount : Z) (grantedQoSs buf : list Z) (buflen : Z)
  : option (Z * option Z * option Z * list Z) :=
  '(byte, curdata) ← readChar buf 0;
  if negb (hdr_type byte =? SUBACK) then Some (0, None, None, grantedQoSs)
  else
    '(rc, mylen) ← MQTTPacket_decodeBuf buf curdata;
    let curdata := curdata + rc in
    let enddata := curdata + mylen in
    if enddata - curdata <? 2 then Some (rc, None, None, grantedQoSs)
    else
      '(packetid, curdata) ← readInt buf curdata;
      '(rc, count, grantedQoSs) ← suback_loop (Z.to_nat (enddata - curdata)) buf curdata enddata maxcount 0 grantedQoSs;
      Some (rc, Some (u16 packetid), Some count, grantedQoSs).

Definition MQTTSerialize_unsubscribeLength (count : Z) (topicFilters : list MQTTString) : option Z :=
  l ← first_of count topicFilters; filters_length 0 2 l.

Fixpoint write_topics (l : list MQTTString) (w : wbuf) : option wbuf :=
  match l with
  | [] => Some w
  | s :: l => w ← writeMQTTString s w; write_topics l w
  end.

Definition MQTTSerialize_unsubscribe (buf : list Z) (buflen dup packetid count : Z) (topicFilters : list MQTTString)
  : option (Z * list Z) :=
  rem_len ← MQTTSerialize_unsubscribeLength count topicFilters;
  n ← MQTTPacket_len rem_len;
  if buflen <? n then Some (MQTTPACKET_BUFFER_TOO_SHORT, buf)
  else
    w ← writeChar (header_byte UNSUBSCRIBE dup 1 0) (mk_wbuf buf 0);
    w ← writeLen rem_len w;
    w ← writeInt packetid w;
    fs ← first_of count topicFilters;
    w ← write_topics fs w;
    Some (w_ptr w, w_mem w).

(** The result is that of the acknowledgement unless the type matches. *)
Definition MQTTDeserialize_unsuback (buf : list Z) (buflen : Z) : option (Z * option Z) :=
  '(rc, type, _, packetid) ← MQTTDeserialize_ack buf buflen;
  Some (if type =? UNSUBACK then 1 else rc, packetid).

(** ** CONNECT *)

Record MQTTPacket_willOptions := mk_will { will_topicName : MQTTString; will_message : MQTTString; will_retained : Z; will_qos : Z }.

Record MQTTPacket_connectData := mk_connect {
  MQTTVersion : Z; clientID : MQTTString; keepAliveInterval : Z; cleansession : Z; willFlag : Z;
  will : MQTTPacket_willOptions; username : MQTTString; password : MQTTString
}.

(** [s.cstring || s.lenstring.data] *)
Definition str_given (s : MQTTString) : bool :=
  bool_decide (is_Some (cstring s)) || bool_decide (is_Some (ls_data (lenstring s))).

(** [len += MQTTstrlen(s)+2] *)
Definition add_string (s : MQTTString) (len : Z) : option Z := n ← MQTTstrlen s; n ← ck (n + 2); ck (len + n).

Definition MQTTSerialize_connectLength (options : MQTTPacket_connectData) : option Z :=
  let len := if MQTTVersion options =? 3 then 12 else if MQTTVersion options =? 4 then 10 else 0 in
  len ← add_string (clientID options) len;
  len ← (if negb (willFlag options =? 0) then
           t ← MQTTstrlen (will_topicName (will options));
           m ← MQTTstrlen (will_message (will options));
           n ← ck (t + 2); n ← ck (n + m); n ← ck (n + 2); ck (len + n)
         else Some len);
  len ← (if str_given (username options) then add_string (username options) len else Some len);
  if str_given (password options) then add_string (password options) len else Some len.

(** [MQTTConnectFlags]: the byte with these bit fields. *)
Definition connect_flags (cleansession will willQoS willRetain password username : Z) : Z :=
  Z.lor (Z.shiftl (cleansession mod 2) 1) (Z.lor (Z.shiftl (will mod 2) 2) (Z.lor (Z.shiftl (willQoS mod 4) 3)
    (Z.lor (Z.shiftl (willRetain mod 2) 5) (Z.lor (Z.shiftl (password mod 2) 6) (Z.shiftl (username mod 2) 7))))).

(** The characters of ["MQTT"] and ["MQIsdp"], with their terminator. *)
Definition str_MQTT : list Z := [77; 81; 84; 84; 0].

Definition str_MQIsdp : list Z := [77; 81; 73; 115; 100; 112; 0].

Definition MQTTSerialize_connect (buf : list Z) (buflen : Z) (options : MQTTPacket_connectData) : option (Z * list Z) :=
  len ← MQTTSerialize_connectLength options;
  n ← MQTTPacket_len len;
  if buflen <? n then Some (MQTTPACKET_BUFFER_TOO_SHORT, buf)
  else
    w ← writeChar (header_byte CONNECT 0 0 0) (mk_wbuf buf 0);
    w ← writeLen len w;
    w ← (if MQTTVersion options =? 4 then w ← writeCString str_MQTT w; writeChar 4 w
         else w ← writeCString str_MQIsdp w; writeChar 3 w);
    let has_will := negb (willFlag options =? 0) in
    let user := str_given (username options) in
    let pass := str_given (password options) in
    w ← writeChar (connect_flags (cleansession options) (if has_will then 1 else 0)
          (if has_will then will_qos (will options) else 0) (if has_will then will_retained (will options) else 0)
          (if pass then 1 else 0) (if user then 1 else 0)) w;
    w ← writeInt (keepAliveInterval options) w;
    w ← writeMQTTString (clientID options) w;
    w ← (if has_will then w ← writeMQTTString (will_topicName (will options)) w; writeMQTTString (will_message (will options)) w
         else Some w);
    w ← (if user then writeMQTTString (username options) w else Some w);
    w ← (if pass then writeMQTTString (password options) w else Some w);
    Some (w_ptr w, w_mem w).

(** Result, session-present flag and return code when read; the flag is the high
    bit of its byte. *)
Definition MQTTDeserialize_connack (buf : list Z) (buflen : Z) : option (Z * option Z * option Z) :=
  '(byte, curdata) ← readChar buf 0;
  if negb (hdr_type byte =? CONNACK) then Some (0, None, None)
  else
    '(rc, mylen) ← MQTTPacket_decodeBuf buf curdata;
    let curdata := curdata + rc in
    let enddata := curdata + mylen in
    if enddata - curdata <? 2 then Some (rc, None, None)
    else
      '(flags, curdata) ← readChar buf curdata;
      '(connack_rc, curdata) ← readChar buf curdata;
      Some (1, Some (Z.land (Z.shiftr flags 7) 1), Some connack_rc).

Definition MQTTSerialize_zero (buf : list Z) (buflen packettype : Z) : option (Z * list Z) :=
  if buflen <? 2 then Some (MQTTPACKET_BUFFER_TOO_SHORT, buf)
  else
    w ← writeChar (header_byte packettype 0 0 0) (mk_wbuf buf 0);
    w ← writeLen 0 w;
    Some (w_ptr w, w_mem w).

Definition MQTTSerialize_disconnect (buf : list Z) (buflen : Z) : option (Z * list Z) := MQTTSerialize_zero buf buflen DISCONNECT.

Definition MQTTSerialize_pingreq (buf : list Z) (buflen : Z) : option (Z * list Z) := MQTTSerialize_zero buf buflen PINGREQ.

(** ** Reading a packet from a transport

    [getfn s n] answers with a status (the number of bytes read, 0 for call again,
    -1 for an error), the bytes read and the next state of the transport. *)

Section transport.
Context {T : Type} (getfn : T -> Z -> Z * list Z * T).

(** One character, as [MQTTPacket_decode] asks for it. *)
Definition get_char (s : T) : option (Z * Z * T) :=
  let '(rc, d, s) := getfn s 1 in
  if rc =? 1 then c ← arr_get d 0; Some (1, c, s) else Some (rc, 0, s).

(** Result, buffer, transport. *)
Definition MQTTPacket_read (buf : list Z) (buflen : Z) (s : T) : option (Z * list Z * T) :=
  let '(rc, d, s) := getfn s 1 in
  buf ← splice buf 0 d;
  if negb (rc =? 1) then Some (-1, buf, s)
  else
    '(_, rem_len, s) ← MQTTPacket_decode get_char s;
    '(n, buf) ← MQTTPacket_encode buf 1 rem_len;
    let len := 1 + n in
    if buflen <? rem_len + len then Some (-1, buf, s)
    else
      let '(rc, d, s) := getfn s rem_len in
      buf ← splice buf len d;
      if negb (rc =? rem_len) then Some (-1, buf, s)
      else byte ← arr_get buf 0; Some (hdr_type byte, buf, s).

Record MQTTTransport := mk_transport { sck : T; tr_multiplier : Z; tr_rem_len : Z; tr_len : Z; tr_state : Z }.

(** The loop of [MQTTPacket_decodenb]. *)
Fixpoint decodenb_loop (fuel : nat) (multiplier rem_len len : Z) (s : T) (state : Z) : option (Z * MQTTTransport) :=
  match fuel with
  | O => None
  | S fuel =>
      let len := len + 1 in
      if MAX_NO_OF_REMAINING_LENGTH_BYTES <? len then Some (MQTTPACKET_READ_ERROR, mk_transport s multiplier rem_len len state)
      else
        let '(frc, d, s) := getfn s 1 in
        if frc =? -1 then Some (MQTTPACKET_READ_ERROR, mk_transport s multiplier rem_len len state)
        else if frc =? 0 then Some (0, mk_transport s multiplier rem_len len state)
        else
          c ← arr_get d 0;
          let rem_len := rem_len + Z.land c 127 * multiplier in
          let multiplier := multiplier * 128 in
          if negb (Z.land c 128 =? 0) then decodenb_loop fuel multiplier rem_len len s state
          else Some (len, mk_transport s multiplier rem_len len state)
  end.

Definition MQTTPacket_decodenb (trp : MQTTTransport) : option (Z * MQTTTransport) :=
  let first := tr_len trp =? 0 in
  decodenb_loop 5 (if first then 1 else tr_multiplier trp) (if first then 0 else tr_rem_len trp) (tr_len trp) (sck trp) (tr_state trp).

Definition set_tr_state (st : Z) (trp : MQTTTransport) : MQTTTransport :=
  mk_transport (sck trp) (tr_multiplier trp) (tr_rem_len trp) (tr_len trp) st.

(** The label [exit]. *)
Definition readnb_exit (rc : Z) (buf : list Z) (trp : MQTTTransport) : option (Z * list Z * MQTTTransport) :=
  Some (rc, buf, set_tr_state 0 trp).

Definition readnb_body (buf : list Z) (trp : MQTTTransport) : option (Z * list Z * MQTTTransport) :=
  let '(frc, d, s) := getfn (sck trp) (tr_rem_len trp) in
  buf ← splice buf (tr_len trp) d;
  let trp := mk_transport s (tr_multiplier trp) (tr_rem_len trp) (tr_len trp) (tr_state trp) in
  if frc =? -1 then readnb_exit (-1) buf trp
  else if frc =? 0 then Some (0, buf, trp)
  else
    let trp := mk_transport s (tr_multiplier trp) (tr_rem_len trp - frc) (tr_len trp + frc) (tr_state trp) in
    if negb (tr_rem_len trp =? 0) then Some (0, buf, trp)
    else byte ← arr_get buf 0; readnb_exit (hdr_type byte) buf trp.

Definition readnb_len (buf : list Z) (buflen : Z) (trp : MQTTTransport) : option (Z * list Z * MQTTTransport) :=
  '(frc, trp) ← MQTTPacket_decodenb trp;
  if frc =? MQTTPACKET_READ_ERROR then readnb_exit (-1) buf trp
  else if frc =? 0 then Some (0, buf, trp)
  else
    '(n, buf) ← MQTTPacket_encode buf 1 (tr_rem_len trp);
    let trp := mk_transport (sck trp) (tr_multiplier trp) (tr_rem_len trp) (1 + n) (tr_state trp) in
    if buflen <? tr_rem_len trp + tr_len trp then readnb_exit (-1) buf trp
    else readnb_body buf (set_tr_state (tr_state trp + 1) trp).

Definition MQTTPacket_readnb (buf : list Z) (buflen : Z) (trp : MQTTTransport) : option (Z * list Z * MQTTTransport) :=
  if tr_state trp =? 1 then readnb_len buf buflen trp
  else if tr_state trp =? 2 then readnb_body buf trp
  else
    let '(frc, d, s) := getfn (sck trp) 1 in
    buf ← splice buf 0 d;
    let trp := mk_transport s (tr_multiplier trp) (tr_rem_len trp) (tr_len trp) 0 in
    if frc =? -1 then readnb_exit (-1) buf trp
    else if frc =? 0 then Some (0, buf, trp)
    else readnb_len buf buflen (mk_transport s (tr_multiplier trp) (tr_rem_len trp) 0 1).

End transport.
