(* ===== verification/MqttSpec.v ===== *)
(** * The MQTT packet codec: wire format and round trips *)

From S2P Require Import Prelude CircBuf Mqtt.
Local Open Scope Z_scope.

Ltac zlen := repeat (rewrite ?length_app, ?length_cons, ?length_nil, ?Nat2Z.inj_add, ?Nat2Z.inj_succ in * ); cbn [length] in *.

(** ** Writing a sequence of bytes *)

Lemma splice_app m p l1 l2 m' :
  splice m p (l1 ++ l2) = Some m' ->
  exists m1, splice m p l1 = Some m1 /\ splice m1 (p + Z.of_nat (length l1)) l2 = Some m'.
Proof.
  unfold splice. rewrite length_app, Nat2Z.inj_add. case_decide as Hd; [|done]. intros [= <-].
  rewrite decide_True by lia. eexists. split; [done|].
  rewrite !length_app, length_take, length_drop, decide_True by lia. f_equal.
  set (a := take (Z.to_nat p) m). set (d := drop (Z.to_nat p + length l1) m).
  assert (length (a ++ l1) = Z.to_nat (p + Z.of_nat (length l1))) as E1 by (unfold a; rewrite length_app, length_take; lia).
  rewrite (assoc_L (++) a l1 d), <- E1, take_app_length, drop_app_ge by lia. unfold d. rewrite drop_drop.
  replace (Z.to_nat p + (length l1 + length l2))%nat with (Z.to_nat p + length l1 + (length (a ++ l1) + length l2 - length (a ++ l1)))%nat by lia.
  by rewrite !(assoc_L (++)).
Qed.

Lemma arr_set_splice m p x : arr_set m p x = splice m p [x].
Proof.
  unfold arr_set, splice. cbn [length]. destruct (decide (0 <= p < Z.of_nat (length m))).
  - rewrite decide_True by lia. f_equal. rewrite insert_take_drop by lia. cbn. by rewrite Nat.add_1_r.
  - by rewrite decide_False by lia.
Qed.

(** [f] writes [l] and moves the pointer behind it. *)
Definition emits (f : wbuf -> option wbuf) (l : list Z) : Prop :=
  forall m p m', splice m p l = Some m' -> f (mk_wbuf m p) = Some (mk_wbuf m' (p + Z.of_nat (length l))).

Lemma emits_nil : emits Some [].
Proof. intros m p m' ->%splice_nil. cbn. by rewrite Z.add_0_r. Qed.

Lemma emits_bind f g l1 l2 : emits f l1 -> emits g l2 -> emits (fun w => f w ≫= g) (l1 ++ l2).
Proof.
  intros Hf Hg m p m' (m1 & E1 & E2)%splice_app. rewrite (Hf _ _ _ E1). cbn. rewrite (Hg _ _ _ E2).
  rewrite length_app, Nat2Z.inj_add. do 2 f_equal. lia.
Qed.

Lemma emits_char c : emits (writeChar c) [u8 c].
Proof. intros m p m' E. unfold writeChar. cbn. rewrite arr_set_splice, E. done. Qed.

Lemma emits_bytes src n l : 0 <= n -> slice src 0 n = Some l -> emits (writeBytes src n) l.
Proof.
  intros Hn Hs m p m' E. unfold writeBytes, memcpy. cbn. rewrite Hs. cbn. rewrite E. cbn. by rewrite (slice_length _ _ _ _ Hs).
Qed.

(** ** The wire format *)

(** A 16-bit number, the high byte first. *)
Definition enc_int (n : Z) : list Z := [n / 256; n mod 256].

(** The remaining length: seven bits per byte, the low ones first. *)
Definition enc_len (n : Z) : list Z :=
  if n <? 128 then [n]
  else if n <? 16384 then [n mod 128 + 128; n / 128]
  else if n <? 2097152 then [n mod 128 + 128; n / 128 mod 128 + 128; n / 16384]
  else [n mod 128 + 128; n / 128 mod 128 + 128; n / 16384 mod 128 + 128; n / 2097152].

(** A string, prefixed by its length. *)
Definition enc_str (l : list Z) : list Z := enc_int (Z.of_nat (length l)) ++ l.

(** The bytes an [MQTTString] stands for: either a counted string or a C string,
    not both. *)
Inductive str_is : MQTTString -> list Z -> Prop :=
  | str_counted l rest : l <> [] -> str_is (mk_mqttstring None (mk_lenstring (Z.of_nat (length l)) (Some (l ++ rest)))) l
  | str_empty d : str_is (mk_mqttstring None (mk_lenstring 0 d)) []
  | str_c l rest len d : len <= 0 -> Forall (fun c => c <> 0) l ->
      str_is (mk_mqttstring (Some (l ++ 0 :: rest)) (mk_lenstring len d)) l.

(** A string whose length fits its prefix. *)
Definition mstr (s : MQTTString) (l : list Z) : Prop := str_is s l /\ Z.of_nat (length l) < 2 ^ 16.

Lemma strlen_app l rest : Forall (fun c => c <> 0) l -> strlen (l ++ 0 :: rest) = Some (Z.of_nat (length l)).
Proof.
  induction 1 as [|c l Hc _ IH]; [done|]. cbn [app strlen]. rewrite (proj2 (Z.eqb_neq c 0) Hc), IH. cbn. f_equal. lia.
Qed.

Lemma emits_int n : 0 <= n < 2 ^ 16 -> emits (writeInt n) (enc_int n).
Proof.
  intros Hn. unfold writeInt. rewrite Z.quot_div_nonneg, Z.rem_mod_nonneg by lia.
  replace (enc_int n) with ([u8 (n / 256)] ++ [u8 (n mod 256)]); [apply emits_bind; apply emits_char|].
  unfold enc_int, u8. pose proof (Z.mod_pos_bound n 256). rewrite !wrap_small; [done|lia|].
  split; [apply Z.div_pos; lia|apply Z.div_lt_upper_bound; lia].
Qed.

Lemma slice_app_l l rest : slice (l ++ rest) 0 (Z.of_nat (length l)) = Some l.
Proof. rewrite slice_prefix by (rewrite length_app; lia). by rewrite Nat2Z.id, take_app_length. Qed.

Lemma emits_string s l : mstr s l -> emits (writeMQTTString s) (enc_str l).
Proof.
  intros [Hs Hl]. unfold writeMQTTString, enc_str. destruct Hs as [l rest Hne|d|l rest len d Hlen Hnz]; cbn [lenstring ls_len ls_data cstring].
  - destruct l as [|c l]; [done|]. rewrite (proj2 (Z.ltb_lt 0 _)) by (cbn; lia).
    apply emits_bind; [by apply emits_int; lia|]. cbn [option_bind mbind]. apply emits_bytes; [lia|]. apply slice_app_l.
  - apply (emits_int 0). lia.
  - rewrite (proj2 (Z.ltb_ge 0 _)) by lia. unfold writeCString. rewrite strlen_app by done. cbn [mbind option_bind].
    rewrite signed_small by (cbn; lia). apply emits_bind; [apply emits_int; lia|]. apply emits_bytes; [lia|].
    apply (slice_app_l l (0 :: rest)).
Qed.

Lemma mstr_len s l : mstr s l -> MQTTstrlen s = Some (Z.of_nat (length l)).
Proof.
  intros [Hs Hl]. destruct Hs as [l rest Hne|d|l rest len d Hlen Hnz]; cbn; [done..|].
  rewrite strlen_app by done. cbn. rewrite signed_small by (cbn; lia). done.
Qed.

(** ** The remaining length *)

Definition len_max : Z := 2 ^ 28.

Lemma enc_len_rec n : 128 <= n < len_max -> enc_len n = (n mod 128 + 128) :: enc_len (n / 128).
Proof.
  intros Hn. unfold len_max in Hn. pose proof (Z.div_mod n 128). pose proof (Z.mod_pos_bound n 128). unfold enc_len at 1.
  rewrite (proj2 (Z.ltb_ge n 128)) by lia. unfold enc_len. rewrite !Z.div_div by lia.
  destruct (Z.ltb_spec n 16384); [by rewrite (proj2 (Z.ltb_lt (n / 128) 128)) by lia|].
  rewrite (proj2 (Z.ltb_ge (n / 128) 128)) by lia.
  destruct (Z.ltb_spec n 2097152); [by rewrite (proj2 (Z.ltb_lt (n / 128) 16384)) by lia|].
  rewrite (proj2 (Z.ltb_ge (n / 128) 16384)) by lia. by rewrite (proj2 (Z.ltb_lt (n / 128) 2097152)) by lia.
Qed.

Lemma enc_len_small n : 0 <= n < 128 -> enc_len n = [n].
Proof. intros. unfold enc_len. by rewrite (proj2 (Z.ltb_lt n 128)) by lia. Qed.

Lemma rem_len_length n : (1 <= length (enc_len n) <= 4)%nat.
Proof. unfold enc_len. repeat case_match; cbn; lia. Qed.

Lemma encode_step fuel buf off rc n :
  0 <= n ->
  encode_loop (S fuel) buf off rc n =
    (buf ← arr_set buf (off + rc) (u8 (if 0 <? n / 128 then Z.lor (n mod 128) 128 else n mod 128));
     if 0 <? n / 128 then encode_loop fuel buf off (rc + 1) (n / 128) else Some (rc + 1, buf)).
Proof. intros Hn. cbn [encode_loop]. by rewrite Z.quot_div_nonneg, Z.rem_mod_nonneg by lia. Qed.

Lemma encode_loop_emits fuel off rc n m m' :
  0 <= n < len_max -> n < 128 ^ Z.of_nat (S fuel) -> splice m (off + rc) (enc_len n) = Some m' ->
  encode_loop (S fuel) m off rc n = Some (rc + Z.of_nat (length (enc_len n)), m').
Proof.
  revert rc n m. induction fuel as [|fuel IH]; intros rc n m Hn Hf E; pose proof (Z.mod_pos_bound n 128) as Hm;
    rewrite Nat2Z.inj_succ, Z.pow_succ_r in Hf by lia; rewrite encode_step by lia; (destruct (decide (n < 128)) as [Hs|Hs]).
  1,3: rewrite enc_len_small in * by lia; rewrite (Z.div_small n 128), (Z.mod_small n 128) by lia; cbn [Z.ltb Z.compare];
    unfold u8; rewrite wrap_small by lia; by rewrite arr_set_splice, E.
  - cbn in Hf. lia.
  - assert (0 < n / 128) as Hq by (apply Z.div_str_pos; lia). rewrite (proj2 (Z.ltb_lt 0 (n / 128)) Hq).
    assert (Z.lor (n mod 128) 128 = n mod 128 + 128) as -> by (rewrite Z.lor_comm, Z.add_comm; apply (lor_add 7 1 (n mod 128)); lia).
    unfold u8. rewrite wrap_small by lia.
    rewrite enc_len_rec in E by lia. apply (splice_app m (off + rc) [_]) in E as (m1 & E1 & E2). cbn [length] in E2.
    rewrite arr_set_splice, E1. cbn [mbind option_bind].
    rewrite (IH (rc + 1) (n / 128) m1); [|split; [lia|apply Z.div_lt_upper_bound; lia]|apply Z.div_lt_upper_bound; lia|by rewrite Z.add_assoc].
    rewrite (enc_len_rec n) by lia. cbn [length]. do 2 f_equal. lia.
Qed.

Lemma encode_emits off n m m' :
  0 <= n < len_max -> splice m off (enc_len n) = Some m' ->
  MQTTPacket_encode m off n = Some (Z.of_nat (length (enc_len n)), m').
Proof. intros Hn E. apply (encode_loop_emits 4 off 0); [done|unfold len_max in Hn; cbn; lia|by rewrite Z.add_0_r]. Qed.

Lemma emits_len n : 0 <= n < len_max -> emits (writeLen n) (enc_len n).
Proof. intros Hn m p m' E. unfold writeLen. cbn [w_mem w_ptr]. by rewrite (encode_emits p n m m'). Qed.

(** [MQTTPacket_len] bounds the size of a packet from above; it is one too large
    for some sizes. *)
Lemma packet_len_bound n :
  0 <= n < len_max -> exists k, MQTTPacket_len n = Some k /\ 1 + Z.of_nat (length (enc_len n)) + n <= k <= n + 5.
Proof.
  intros Hn. unfold len_max in Hn. unfold MQTTPacket_len, ck. rewrite decide_True by lia. cbn [mbind option_bind]. unfold enc_len.
  destruct (Z.ltb_spec (n + 1) 128); [rewrite decide_True by lia; eexists; split; [done|]; rewrite (proj2 (Z.ltb_lt n 128)) by lia; cbn; lia|].
  destruct (Z.ltb_spec (n + 1) 16384); [rewrite decide_True by lia; eexists; split; [done|]; repeat case_match; zbool; cbn; lia|].
  destruct (Z.ltb_spec (n + 1) 2097151); rewrite decide_True by lia; eexists; (split; [done|]); repeat case_match; zbool; cbn; lia.
Qed.

(** ** Reading *)

(** The bytes of [l] stand in [buf] from [p] on. *)
Definition reads (buf : list Z) (p : Z) (l : list Z) : Prop :=
  forall i x, l !! i = Some x -> arr_get buf (p + Z.of_nat i) = Some x.

Lemma reads_cons buf p x l : reads buf p (x :: l) <-> arr_get buf p = Some x /\ reads buf (p + 1) l.
Proof.
  split.
  - intros Hr. split; [rewrite <- (Z.add_0_r p); by apply (Hr 0%nat)|]. intros i y Hy.
    replace (p + 1 + Z.of_nat i) with (p + Z.of_nat (S i)) by lia. by apply Hr.
  - intros [H1 H2] [|i] y Hy; [injection Hy as <-; by rewrite Z.add_0_r|].
    replace (p + Z.of_nat (S i)) with (p + 1 + Z.of_nat i) by lia. by apply H2.
Qed.

Lemma reads_app buf p l1 l2 : reads buf p (l1 ++ l2) <-> reads buf p l1 /\ reads buf (p + Z.of_nat (length l1)) l2.
Proof.
  revert p. induction l1 as [|x l1 IH]; intros p; cbn [app length].
  - rewrite Z.add_0_r. split; [|by intros [_ ?]]. intros Hr. split; [by intros ? ? ?|done].
  - rewrite !reads_cons, IH. replace (p + Z.of_nat (S (length l1))) with (p + 1 + Z.of_nat (length l1)) by lia. tauto.
Qed.

Lemma splice_reads m p l m' : splice m p l = Some m' -> reads m' p l.
Proof.
  intros E i x Hx. pose proof (lookup_lt_Some _ _ _ Hx). pose proof E as E'. unfold splice in E'. case_decide; [|done].
  apply arr_get_Some. split; [lia|]. rewrite (splice_lookup _ _ _ _ _ E), decide_True by lia. rewrite <- Hx. f_equal. lia.
Qed.

Lemma land_127 n : Z.land n 127 = n mod 128.
Proof. by apply (land_low_mask 7 n). Qed.

Lemma land_128 n : Z.land n 128 = n / 128 mod 2 * 128.
Proof. by apply (land_field 1 7 n). Qed.

Lemma bufchar_get buf p c : arr_get buf p = Some c -> bufchar buf p = Some (1, c, p + 1).
Proof. intros E. unfold bufchar. by rewrite E. Qed.

Lemma decode_loop_reads buf fuel n value mult len p :
  0 <= n < len_max -> 0 <= len -> len + Z.of_nat (length (enc_len n)) <= 4 -> (length (enc_len n) <= fuel)%nat -> reads buf p (enc_len n) ->
  decode_loop (bufchar buf) fuel value mult len p =
    Some (len + Z.of_nat (length (enc_len n)), value + n * mult, p + Z.of_nat (length (enc_len n))).
Proof.
  revert n value mult len p. induction fuel as [|fuel IH]; intros n value mult len p Hn Hl H4 Hf Hr; [pose proof (rem_len_length n); lia|].
  pose proof (rem_len_length n). cbn [decode_loop]. unfold MAX_NO_OF_REMAINING_LENGTH_BYTES.
  rewrite (proj2 (Z.ltb_ge 4 (len + 1))) by lia. pose proof (Z.mod_pos_bound n 128). pose proof (Z.div_mod n 128).
  destruct (decide (n < 128)) as [Hs|Hs].
  - rewrite enc_len_small in * by lia. apply reads_cons in Hr as [Hr _]. rewrite (bufchar_get _ _ _ Hr). cbn [mbind option_bind Z.eqb Pos.eqb negb].
    rewrite land_127, land_128, (Z.div_small n 128), (Z.mod_small n 128) by lia. done.
  - rewrite enc_len_rec in * by lia. apply reads_cons in Hr as [Hr Hr']. rewrite (bufchar_get _ _ _ Hr). cbn [mbind option_bind Z.eqb Pos.eqb negb].
    rewrite land_127, land_128. replace (n mod 128 + 128) with (n mod 128 + 1 * 128) by lia.
    rewrite Z.div_add, Z.mod_add, Z.mod_mod, (Z.div_small (n mod 128)) by lia.
    cbn [Z.eqb negb]. cbn [length] in *. unfold len_max in *.
    rewrite (IH (n / 128)); [|split; [lia|apply Z.div_lt_upper_bound; lia]|lia|lia|lia|done].
    do 2 f_equal; [f_equal; lia|lia].
Qed.

Lemma decodeBuf_reads buf n p :
  0 <= n < len_max -> reads buf p (enc_len n) -> MQTTPacket_decodeBuf buf p = Some (Z.of_nat (length (enc_len n)), n).
Proof.
  intros Hn Hr. pose proof (rem_len_length n). unfold MQTTPacket_decodeBuf, MQTTPacket_decode.
  rewrite (decode_loop_reads buf 5 n) by (done || lia). cbn. do 2 f_equal. lia.
Qed.

(** The remaining length survives the round trip.  For every length
    below 2^28 the encoder writes at most four bytes, all within the packet size
    [MQTTPacket_len] promises, and the decoder reads exactly these bytes back to
    the length. *)
Theorem remaining_length_roundtrip n buf off :
  0 <= n < 2 ^ 28 -> 0 <= off -> off + 4 <= Z.of_nat (length buf) ->
  exists rc buf' k, MQTTPacket_encode buf off n = Some (rc, buf') /\ 1 <= rc <= 4 /\
    MQTTPacket_decodeBuf buf' off = Some (rc, n) /\ MQTTPacket_len n = Some k /\ 1 + rc + n <= k <= n + 5.
Proof.
  intros Hn Ho Hl. pose proof (rem_len_length n). destruct (splice_is_Some buf off (enc_len n)) as [buf' E]; [lia|lia|].
  destruct (packet_len_bound n Hn) as (k & Ek & Hk). eexists _, buf', k. split_and!; [by apply encode_emits|lia|lia| |done|lia|lia].
  apply decodeBuf_reads; [done|]. by eapply splice_reads.
Qed.

Lemma remaining_length_roundtrip_witness :
  exists rc buf' k, MQTTPacket_encode (replicate 6 0) 1 321 = Some (rc, buf') /\ 1 <= rc <= 4 /\
    MQTTPacket_decodeBuf buf' 1 = Some (rc, 321) /\ MQTTPacket_len 321 = Some k /\ 1 + rc + 321 <= k <= 321 + 5.
Proof. apply (remaining_length_roundtrip 321 (replicate 6 0) 1); cbn; lia. Defined.

(** ** The packets of a client *)

(** The bytes of a string argument. *)
Definition str_val (s : MQTTString) : list Z :=
  match cstring s with
  | Some c => take (Z.to_nat (default 0 (strlen c))) c
  | None => take (Z.to_nat (ls_len (lenstring s))) (default [] (ls_data (lenstring s)))
  end.

Definition str_ok (s : MQTTString) : Prop := mstr s (str_val s).

Lemma str_is_val s l : str_is s l -> str_val s = l.
Proof.
  intros [l' rest Hne|d|l' rest len d Hlen Hnz]; unfold str_val; cbn; [by rewrite Nat2Z.id, take_app_length|done|].
  rewrite strlen_app by done. cbn. by rewrite Nat2Z.id, take_app_length.
Qed.

Inductive packet :=
  | PConnect (o : MQTTPacket_connectData)
  | PPublish (dup qos retained packetid : Z) (topicName : MQTTString) (payload : list Z)
  | PSubscribe (dup packetid : Z) (filters : list (MQTTString * Z))
  | PUnsubscribe (dup packetid : Z) (filters : list MQTTString)
  | PAck (packettype dup packetid : Z)
  | PZero (packettype : Z).

Definition serialize (buf : list Z) (buflen : Z) (p : packet) : option (Z * list Z) :=
  match p with
  | PConnect o => MQTTSerialize_connect buf buflen o
  | PPublish dup qos retained packetid topicName payload =>
      MQTTSerialize_publish buf buflen dup qos retained packetid topicName payload (Z.of_nat (length payload))
  | PSubscribe dup packetid filters =>
      MQTTSerialize_subscribe buf buflen dup packetid (Z.of_nat (length filters)) filters.*1 filters.*2
  | PUnsubscribe dup packetid filters => MQTTSerialize_unsubscribe buf buflen dup packetid (Z.of_nat (length filters)) filters
  | PAck packettype dup packetid => MQTTSerialize_ack buf buflen packettype dup packetid
  | PZero packettype => MQTTSerialize_zero buf buflen packettype
  end.

(** The first byte and everything after the remaining length. *)
Definition packet_header (p : packet) : Z :=
  match p with
  | PConnect _ => header_byte CONNECT 0 0 0
  | PPublish dup qos retained _ _ _ => header_byte PUBLISH dup qos retained
  | PSubscribe dup _ _ => header_byte SUBSCRIBE dup 1 0
  | PUnsubscribe dup _ _ => header_byte UNSUBSCRIBE dup 1 0
  | PAck packettype dup _ => header_byte packettype dup (if packettype =? PUBREL then 1 else 0) 0
  | PZero packettype => header_byte packettype 0 0 0
  end.

Definition when (b : bool) (l : list Z) : list Z := if b then l else [].

Definition connect_body (o : MQTTPacket_connectData) : list Z :=
  let w := negb (willFlag o =? 0) in
  let u := str_given (username o) in
  let p := str_given (password o) in
  (if MQTTVersion o =? 4 then enc_str [77; 81; 84; 84] ++ [4] else enc_str [77; 81; 73; 115; 100; 112] ++ [3]) ++
  [connect_flags (cleansession o) (if w then 1 else 0) (if w then will_qos (will o) else 0) (if w then will_retained (will o) else 0)
    (if p then 1 else 0) (if u then 1 else 0)] ++
  enc_int (keepAliveInterval o) ++ enc_str (str_val (clientID o)) ++
  when w (enc_str (str_val (will_topicName (will o))) ++ enc_str (str_val (will_message (will o)))) ++
  when u (enc_str (str_val (username o))) ++ when p (enc_str (str_val (password o))).

Definition packet_body (p : packet) : list Z :=
  match p with
  | PConnect o => connect_body o
  | PPublish _ qos _ packetid topicName payload => enc_str (str_val topicName) ++ when (0 <? qos) (enc_int packetid) ++ payload
  | PSubscribe _ packetid filters => enc_int packetid ++ flat_map (fun f => enc_str (str_val f.1) ++ [f.2]) filters
  | PUnsubscribe _ packetid filters => enc_int packetid ++ flat_map (fun f => enc_str (str_val f)) filters
  | PAck _ _ packetid => enc_int packetid
  | PZero _ => []
  end.

Definition packet_wire (p : packet) : list Z :=
  packet_header p :: enc_len (Z.of_nat (length (packet_body p))) ++ packet_body p.

(** The room a serialiser asks for. *)
Definition packet_room (p : packet) : option Z :=
  match p with
  | PAck _ _ _ => Some 4
  | PZero _ => Some 2
  | _ => MQTTPacket_len (Z.of_nat (length (packet_body p)))
  end.

(** Strings that are counted or terminated, not both, of at most 65535 bytes,
    16-bit identifiers, a protocol version that exists, a packet below 2^28. *)
Definition packet_ok (p : packet) : Prop :=
  Z.of_nat (length (packet_body p)) < len_max /\
  match p with
  | PConnect o => (MQTTVersion o = 3 \/ MQTTVersion o = 4) /\ fits 16 (keepAliveInterval o) /\ str_ok (clientID o) /\
      (willFlag o <> 0 -> str_ok (will_topicName (will o)) /\ str_ok (will_message (will o))) /\
      (str_given (username o) = true -> str_ok (username o)) /\ (str_given (password o) = true -> str_ok (password o))
  | PPublish _ _ _ packetid topicName _ => fits 16 packetid /\ str_ok topicName
  | PSubscribe _ packetid filters => fits 16 packetid /\ Forall (fun f => str_ok f.1 /\ fits 8 f.2) filters
  | PUnsubscribe _ packetid filters => fits 16 packetid /\ Forall str_ok filters
  | PAck _ _ packetid => fits 16 packetid
  | PZero _ => True
  end.

(** ** Header bytes *)

Lemma forall_below (P : Z -> bool) n : forallb P (seqZ 0 n) = true -> forall x, 0 <= x < n -> P x = true.
Proof. rewrite forallb_forall. intros HP x Hx. apply HP. apply list_elem_of_In, elem_of_seqZ. lia. Qed.

Definition header_good (t d q r b : Z) : bool :=
  (hdr_type b =? t) && (hdr_dup b =? d) && (hdr_qos b =? q) && (hdr_retain b =? r) && (0 <=? b) && (b <? 256).

Lemma header_fields t d q r :
  let b := header_byte t d q r in
  hdr_type b = t mod 16 /\ hdr_dup b = d mod 2 /\ hdr_qos b = q mod 4 /\ hdr_retain b = r mod 2 /\ fits 8 b.
Proof.
  pose proof (forall_below (fun t => forallb (fun d => forallb (fun q => forallb (fun r =>
    header_good t d q r (Z.lor (Z.shiftl t 4) (Z.lor (Z.shiftl d 3) (Z.lor (Z.shiftl q 1) r)))) (seqZ 0 2)) (seqZ 0 4)) (seqZ 0 2)) 16
    ltac:(by vm_compute) (t mod 16) ltac:(by apply Z.mod_pos_bound)) as Hg. cbn beta in Hg.
  pose proof (forall_below _ _ (forall_below _ _ (forall_below _ _ Hg (d mod 2) ltac:(by apply Z.mod_pos_bound)) (q mod 4)
    ltac:(by apply Z.mod_pos_bound)) (r mod 2) ltac:(by apply Z.mod_pos_bound)) as Hg'. cbn beta in Hg'. fold (header_byte t d q r) in Hg'.
  unfold header_good in Hg'. zbool. cbv zeta. unfold fits. lia.
Qed.

Lemma packet_header_fits p : fits 8 (packet_header p).
Proof. destruct p; apply header_fields. Qed.


(** ** The serialisers *)

(** The next piece [H] of the output; [E] says where the rest goes. *)
Ltac emit H E :=
  let m := fresh "m" in let E1 := fresh "E1" in
  apply splice_app in E as (m & E1 & E); rewrite (H _ _ _ E1); cbn [mbind option_bind w_mem w_ptr]; clear E1.

Lemma emits_when b f l : (b = true -> emits f l) -> emits (fun w => if b then f w else Some w) (when b l).
Proof. destruct b; cbn; [auto|intros _; apply emits_nil]. Qed.

Lemma emits_byte c : fits 8 c -> emits (writeChar c) [c].
Proof. intros Hc. pose proof (emits_char c) as He. unfold u8 in He. by rewrite wrap_small in He. Qed.

Lemma splice_0 buf l : (length l <= length buf)%nat -> splice buf 0 l = Some (l ++ drop (length l) buf).
Proof. intros. unfold splice. rewrite decide_True by lia. done. Qed.

(** The common frame: header, remaining length, body. *)
Lemma packet_writes p f rem buf k :
  packet_ok p -> rem = Z.of_nat (length (packet_body p)) -> emits f (packet_body p) ->
  packet_room p = Some k -> k <= Z.of_nat (length buf) ->
  (w ← writeChar (packet_header p) (mk_wbuf buf 0); w ← writeLen rem w; w ← f w; Some (w_ptr w, w_mem w)) =
    Some (Z.of_nat (length (packet_wire p)), packet_wire p ++ drop (length (packet_wire p)) buf).
Proof.
  intros [Hl Hok] -> Hf Hk Hroom. destruct (packet_len_bound (Z.of_nat (length (packet_body p)))) as (k' & Ek & Hb); [lia|].
  assert (length (packet_wire p) <= length buf)%nat as Hlen.
  { unfold packet_wire. cbn [length]. rewrite length_app.
    destruct p; cbn [packet_room] in Hk; [rewrite Ek in Hk; injection Hk as <-; lia..| |];
      injection Hk as <-; rewrite enc_len_small by (cbn; lia); cbn; lia. }
  pose proof (splice_0 buf (packet_wire p) Hlen) as E. set (out := _ ++ drop _ buf) in *. unfold packet_wire in *.
  change (?x :: ?y ++ ?z) with ([x] ++ y ++ z) in *.
  emit (emits_byte _ (packet_header_fits p)) E. emit (emits_len (Z.of_nat (length (packet_body p))) ltac:(lia)) E.
  rewrite (Hf _ _ _ E). cbn. rewrite length_app. do 2 f_equal. lia.
Qed.

Lemma bind_frame (h rem : Z) (f : wbuf -> option wbuf) (g : wbuf -> option (Z * list Z)) buf :
  (forall w, g w = (w ← f w; Some (w_ptr w, w_mem w))) ->
  (w ← writeChar h (mk_wbuf buf 0); w ← writeLen rem w; g w) =
  (w ← writeChar h (mk_wbuf buf 0); w ← writeLen rem w; w ← f w; Some (w_ptr w, w_mem w)).
Proof. intros Hg. destruct (writeChar h (mk_wbuf buf 0)) as [w|]; cbn [mbind option_bind]; [|reflexivity].
  destruct (writeLen rem w) as [w'|]; cbn [mbind option_bind]; [apply Hg|reflexivity]. Qed.

(** A serialiser that knows the length of the body. *)
Lemma serialize_frame p (len : option Z) f g buf buflen :
  packet_ok p -> len = Some (Z.of_nat (length (packet_body p))) -> emits f (packet_body p) ->
  packet_room p = MQTTPacket_len (Z.of_nat (length (packet_body p))) -> buflen <= Z.of_nat (length buf) ->
  (forall w, g w = (w ← f w; Some (w_ptr w, w_mem w))) ->
  exists k, packet_room p = Some k /\
    (rem_len ← len; n ← MQTTPacket_len rem_len;
     if buflen <? n then Some (MQTTPACKET_BUFFER_TOO_SHORT, buf)
     else w ← writeChar (packet_header p) (mk_wbuf buf 0); w ← writeLen rem_len w; g w) =
    if buflen <? k then Some (MQTTPACKET_BUFFER_TOO_SHORT, buf)
    else Some (Z.of_nat (length (packet_wire p)), packet_wire p ++ drop (length (packet_wire p)) buf).
Proof.
  intros Hok -> Hf Hr Hbuf Hg. destruct (packet_len_bound (Z.of_nat (length (packet_body p)))) as (k & Ek & Hb); [destruct Hok; lia|].
  exists k. rewrite Hr, Ek. split; [done|]. cbn [mbind option_bind]. rewrite Ek. cbn [mbind option_bind].
  destruct (Z.ltb_spec buflen k); [done|]. rewrite (bind_frame _ _ f g) by done. apply (packet_writes p f _ _ k); [done..|by rewrite Hr|lia].
Qed.

(** Both sides run the same steps, bracketed differently. *)
Ltac bind_assoc :=
  repeat first [reflexivity
    | lazymatch goal with |- mbind _ ?x = _ => lazymatch x with mbind _ _ => fail | _ => destruct x; cbn [mbind option_bind] end end].

Lemma ck_small z : 0 <= z < 2 ^ 31 -> ck z = Some z.
Proof. intros. unfold ck. by rewrite decide_True by lia. Qed.

Lemma enc_str_length l : Z.of_nat (length (enc_str l)) = 2 + Z.of_nat (length l).
Proof. unfold enc_str. rewrite length_app. cbn. lia. Qed.

Lemma publish_frame dup qos retained packetid t pl buf buflen :
  let p := PPublish dup qos retained packetid t pl in
  packet_ok p -> buflen <= Z.of_nat (length buf) -> exists k, packet_room p = Some k /\
    serialize buf buflen p = if buflen <? k then Some (MQTTPACKET_BUFFER_TOO_SHORT, buf)
      else Some (Z.of_nat (length (packet_wire p)), packet_wire p ++ drop (length (packet_wire p)) buf).
Proof.
  intros p Hok Hbuf. pose proof Hok as [Hl [Hid Ht]]. unfold len_max in Hl. cbn [packet_body p] in Hl.
  cbn [serialize p]. unfold MQTTSerialize_publish.
  apply (serialize_frame p _ (fun w => w ← writeMQTTString t w; w ← (if 0 <? qos then writeInt packetid w else Some w);
    writeBytes pl (Z.of_nat (length pl)) w)); [done| | |done|done|].
  - cbn [p packet_body]. unfold MQTTSerialize_publishLength. rewrite (mstr_len _ _ Ht). cbn [mbind option_bind].
    rewrite !length_app, !Nat2Z.inj_add, enc_str_length in *.
    rewrite (ck_small (2 + _)) by lia. cbn [mbind option_bind]. rewrite ck_small by lia. cbn [mbind option_bind].
    destruct (0 <? qos); cbn [when length enc_int] in *; [rewrite ck_small by lia|]; f_equal; lia.
  - cbn [p packet_body]. apply emits_bind; [by apply emits_string|].
    apply (emits_bind (fun w => if 0 <? qos then writeInt packetid w else Some w)); [apply emits_when; intros _; by apply emits_int|].
    apply emits_bytes; [lia|]. apply slice_all.
  - intros w. bind_assoc.
Qed.

















(** ** The deserialisers *)

Lemma reads_prefix l rest : reads (l ++ rest) 0 l.
Proof. intros i x Hx. apply arr_get_Some. split; [lia|]. rewrite Z.add_0_l, Nat2Z.id. by apply lookup_app_l_Some. Qed.

Lemma readChar_reads buf p c l : reads buf p (c :: l) -> readChar buf p = Some (c, p + 1) /\ reads buf (p + 1) l.
Proof. intros [Hc Hl]%reads_cons. unfold readChar. by rewrite Hc. Qed.

Lemma readInt_reads buf p n l :
  0 <= n -> reads buf p (enc_int n ++ l) -> readInt buf p = Some (n, p + 2) /\ reads buf (p + 2) l.
Proof.
  intros Hn [Hi Hl]%reads_app. apply reads_cons in Hi as [H0 [H1 _]%reads_cons]. unfold readInt. rewrite H0. cbn [mbind option_bind]. rewrite H1.
  cbn [mbind option_bind]. pose proof (Z.div_mod n 256). split; [do 2 f_equal; lia|exact Hl].
Qed.

(** The bytes at a pointer into the buffer. *)
Lemma reads_drop buf p l : 0 <= p -> reads buf p l -> take (length l) (drop (Z.to_nat p) buf) = l.
Proof.
  intros Hp Hr. apply list_eq. intros i. destruct (decide (i < length l)%nat) as [Hi|Hi].
  - rewrite lookup_take_lt, lookup_drop by done. destruct (lookup_lt_is_Some_2 l i Hi) as [x Hx]. rewrite Hx.
    apply Hr, arr_get_Some in Hx as [_ Hx]. rewrite <- Hx. f_equal. lia.
  - rewrite lookup_take_ge by lia. symmetry. apply lookup_ge_None. lia.
Qed.

Lemma readString_reads s0 buf p t l enddata :
  Z.of_nat (length t) < 2 ^ 16 -> reads buf p (enc_str t ++ l) -> p + 2 + Z.of_nat (length t) <= enddata ->
  readMQTTLenString s0 buf p enddata =
    Some (1, mk_mqttstring None (mk_lenstring (Z.of_nat (length t)) (Some (drop (Z.to_nat (p + 2)) buf))), p + 2 + Z.of_nat (length t)) /\
  reads buf (p + 2) t /\ reads buf (p + 2 + Z.of_nat (length t)) l.
Proof.
  intros Ht Hr He. unfold enc_str in Hr. rewrite <- (assoc_L (++)) in Hr. apply readInt_reads in Hr as [E Hr]; [|lia].
  apply reads_app in Hr as [Hr Hl]. unfold readMQTTLenString. rewrite (proj2 (Z.ltb_lt 1 _)) by lia. rewrite E. cbn [mbind option_bind].
  by rewrite (proj2 (Z.leb_le _ _)) by lia.
Qed.

(** The frame of a packet: header byte and remaining length. *)
Lemma frame_reads buf p :
  packet_ok p -> reads buf 0 (packet_wire p) ->
  let n := Z.of_nat (length (packet_body p)) in
  readChar buf 0 = Some (packet_header p, 1) /\ MQTTPacket_decodeBuf buf 1 = Some (Z.of_nat (length (enc_len n)), n) /\
  reads buf (1 + Z.of_nat (length (enc_len n))) (packet_body p).
Proof.
  intros [Hl _] [Hc Hr]%readChar_reads n. apply reads_app in Hr as [Hlen Hb]. split_and!; [exact Hc| |exact Hb].
  apply decodeBuf_reads; [lia|exact Hlen].
Qed.

(** C38: a PUBLISH packet survives the round trip.  Deserialising what was
    serialised succeeds and gives back the flags, the packet identifier (present
    exactly for a quality of service above 0), a topic with the bytes of the
    original and a payload pointer at exactly the bytes of the payload. *)
Theorem publish_roundtrip dup qos retained packetid topicName payload buf buflen k len buf' s0 :
  let p := PPublish dup qos retained packetid topicName payload in
  packet_ok p -> 0 <= dup < 2 -> 0 <= qos < 4 -> 0 <= retained < 2 ->
  buflen <= Z.of_nat (length buf) -> packet_room p = Some k -> k <= buflen -> serialize buf buflen p = Some (len, buf') ->
  exists out d, MQTTDeserialize_publish s0 buf' len = Some (1, out) /\
    po_dup out = Some dup /\ po_qos out = Some qos /\ po_retained out = Some retained /\
    po_packetid out = (if 0 <? qos then Some packetid else None) /\
    str_val (po_topic out) = str_val topicName /\
    po_payloadlen out = Some (Z.of_nat (length payload)) /\ po_payload out = Some d /\ take (length payload) d = payload.
Proof.
  intros p Hok Hd Hq Hret Hbuf Hk Hroom Es. destruct (publish_frame dup qos retained packetid topicName payload buf buflen Hok Hbuf) as (k' & Hk' & E).
  fold p in Hk', E. rewrite Hk in Hk'. injection Hk' as <-. rewrite (proj2 (Z.ltb_ge _ _) Hroom), Es in E.
  assert (buf' = packet_wire p ++ drop (length (packet_wire p)) buf) as -> by congruence. clear E Es.
  set (m := packet_wire p ++ _). assert (reads m 0 (packet_wire p)) as Hr by apply reads_prefix. clearbody m.
  destruct (frame_reads m p Hok Hr) as (E1 & E2 & Hb). set (n := Z.of_nat (length (enc_len _))) in *.
  destruct Hok as [_ [Hid Ht]]. unfold MQTTDeserialize_publish. rewrite E1. cbn [mbind option_bind].
  destruct (header_fields PUBLISH dup qos retained) as (Ety & Edup & Eqos & Eret & _). rewrite Z.mod_small in Edup, Eqos, Eret by lia.
  cbn [packet_header p]. rewrite Ety, Edup, Eqos, Eret. change (PUBLISH mod 16 =? PUBLISH) with true. cbn [negb]. rewrite E2. cbn [mbind option_bind].
  cbn [packet_body p] in Hb |- *. set (t := str_val topicName) in *.
  set (e := 1 + n + _). assert (e = 1 + n + (2 + Z.of_nat (length t)) + (if 0 <? qos then 2 else 0) + Z.of_nat (length payload)) as Ee.
  { unfold e. rewrite !length_app, !Nat2Z.inj_add, enc_str_length. destruct (0 <? qos); cbn [when length enc_int]; lia. }
  pose proof (rem_len_length (Z.of_nat (length (packet_body p)))) as Hn.
  destruct (readString_reads s0 m (1 + n) t (when (0 <? qos) (enc_int packetid) ++ payload) e) as (E3 & Hrt & Hrest);
    [apply Ht|exact Hb|destruct (0 <? qos); lia|].
  rewrite E3. cbn [mbind option_bind Z.eqb Pos.eqb orb]. rewrite (proj2 (Z.ltb_ge (e - _) 0)) by (destruct (0 <? qos); lia).
  assert (take (length t) (drop (Z.to_nat (1 + n + 2)) m) = t) as Etake by (apply reads_drop; [lia|done]).
  unfold fits in Hid. destruct (0 <? qos); cbn [when app] in Hrest.
  - apply readInt_reads in Hrest as [E4 Hpl]; [|lia]. rewrite E4. cbn [mbind option_bind fst snd]. unfold u16. rewrite wrap_small by lia.
    eexists _, _. split_and!; [done..| | |done|apply reads_drop; [lia|done]].
    + unfold str_val at 1. cbn. by rewrite Nat2Z.id.
    + cbn [po_payloadlen]. f_equal. lia.
  - cbn [mbind option_bind]. eexists _, _. split_and!; [done..| | |done|apply reads_drop; [lia|done]].
    + unfold str_val at 1. cbn. by rewrite Nat2Z.id.
    + cbn [po_payloadlen]. f_equal. lia.
Qed.

(** ** Reading in pieces *)

(** A transport that delivers the chunks of a script: an empty chunk is a call
    with nothing to read yet, a call takes at most one chunk. *)
Definition stream_get (s : list (list Z)) (n : Z) : Z * list Z * list (list Z) :=
  match s with
  | [] => (0, [], [])
  | c :: s =>
      let k := Z.min n (Z.of_nat (length c)) in
      let rest := drop (Z.to_nat k) c in
      (k, take (Z.to_nat k) c, if decide (rest = []) then s else rest :: s)
  end.

(** Call again until there is a result. *)
Fixpoint poll (fuel : nat) (buf : list Z) (buflen : Z) (trp : MQTTTransport) : option (Z * list Z * MQTTTransport) :=
  match fuel with
  | O => None
  | S fuel =>
      '(rc, buf, trp) ← MQTTPacket_readnb stream_get buf buflen trp;
      if rc =? 0 then poll fuel buf buflen trp else Some (rc, buf, trp)
  end.










(** ** Examples *)

(** A topic ["a/b"] as a C string, and a packet with it. *)
Definition demo_topic : MQTTString := mk_mqttstring (Some [97; 47; 98; 0]) (mk_lenstring 0 None).

Lemma demo_topic_ok : str_ok demo_topic.
Proof. split; [|by vm_compute]. apply (str_c [97; 47; 98] [] 0 None); [lia|]. repeat constructor; lia. Qed.

Definition demo_publish : packet := PPublish 0 1 1 7 demo_topic [104; 105].

Lemma demo_publish_ok : packet_ok demo_publish.
Proof. split; [by vm_compute|]. split; [by vm_compute|apply demo_topic_ok]. Qed.


Lemma publish_roundtrip_witness :
  exists out d, MQTTDeserialize_publish demo_topic [51; 9; 0; 3; 97; 47; 98; 0; 7; 104; 105; 0; 0; 0; 0; 0] 11 = Some (1, out) /\
    po_dup out = Some 0 /\ po_qos out = Some 1 /\ po_retained out = Some 1 /\ po_packetid out = (if 0 <? 1 then Some 7 else None) /\
    str_val (po_topic out) = str_val demo_topic /\ po_payloadlen out = Some 2 /\ po_payload out = Some d /\ take 2 d = [104; 105].
Proof.
  apply (publish_roundtrip 0 1 1 7 demo_topic [104; 105] (replicate 16 0) 16 11); [apply demo_publish_ok|lia|lia|lia|done|by vm_compute|lia|by vm_compute].
Defined.


(** ** Defects *)

(** Malformed packets are reported as read.  A PUBLISH packet whose
    remaining length is too small for its topic gives 1, the code for success,
    with no payload stored; with a quality of service above 0 and no room for the
    packet identifier the payload length is negative; an acknowledgement of any
    kind passes as an UNSUBACK. *)
Theorem malformed_packets_accepted :
  (exists out, MQTTDeserialize_publish demo_topic [48; 1; 0] 3 = Some (1, out) /\ po_payload out = None /\ po_payloadlen out = None) /\
  (exists out, MQTTDeserialize_publish demo_topic [50; 2; 0; 0; 9; 9] 6 = Some (1, out) /\ po_payloadlen out = Some (-2)) /\
  MQTTDeserialize_unsuback [64; 2; 0; 7] 4 = Some (1, Some 7) /\ hdr_type 64 = PUBACK.
Proof. split_and!; [eexists; split_and!; by vm_compute|eexists; split; by vm_compute|by vm_compute..]. Qed.

(** Three calls that respect their documented arguments access memory
    outside the buffers: a SUBACK with one code more than the array of the caller
    holds, a CONNECT with a protocol version other than 3 and 4, and a string that
    is given both counted and terminated. *)
Theorem mqtt_out_of_bounds :
  MQTTDeserialize_suback 1 [0] [144; 4; 0; 1; 0; 1] 6 = None /\
  (let o := mk_connect 5 demo_topic 60 1 0 (mk_will demo_topic demo_topic 0 0)
     (mk_mqttstring None (mk_lenstring 0 None)) (mk_mqttstring None (mk_lenstring 0 None)) in
   MQTTSerialize_connectLength o = Some 5 /\ MQTTPacket_len 5 = Some 7 /\ MQTTSerialize_connect (replicate 7 0) 7 o = None) /\
  (let s := mk_mqttstring (Some [97; 0]) (mk_lenstring 3 (Some [98; 99; 100])) in
   MQTTstrlen s = Some 1 /\ MQTTSerialize_publish (replicate 5 0) 5 0 0 0 0 s [] 0 = None).
Proof. split_and!; by vm_compute. Qed.

(** The non-blocking read gets stuck or gives up on good packets.  A
    packet without a body (a ping response) is never returned: the read asks the
    transport for 0 bytes, is told 0, and answers call again, however often it is
    called.  And calls that find nothing to read are counted as length bytes: a
    transport that has nothing four times after the header byte makes the read
    fail. *)
Theorem nonblocking_read_stuck fuel :
  poll fuel (replicate 4 0) 4 (mk_transport [[208; 0]] 0 0 0 0) = None /\
  exists buf t, poll 9 (replicate 8 0) 8 (mk_transport [[48]; []; []; []; []; [2; 1; 2]] 0 0 0 0) = Some (-1, buf, t).
Proof.
  split; [|eexists _, _; by vm_compute]. destruct fuel as [|fuel]; [done|]. cbn [poll].
  assert (MQTTPacket_readnb stream_get (replicate 4 0) 4 (mk_transport [[208; 0]] 0 0 0 0) =
    Some (0, [208; 0; 0; 0], mk_transport [] 128 0 2 2)) as -> by (by vm_compute). cbn [mbind option_bind Z.eqb].
  induction fuel as [|fuel IH]; [done|]. cbn [poll].
  assert (MQTTPacket_readnb stream_get [208; 0; 0; 0] 4 (mk_transport [] 128 0 2 2) =
    Some (0, [208; 0; 0; 0], mk_transport [] 128 0 2 2)) as -> by (by vm_compute). exact IH.
Qed.
