(* ===== verification/Mem.v ===== *)
(** * Word memory and heap programs

    The memory the heap manages is a finite map from the address of each 32-bit
    word to its value; reading or writing a word that is not there (a wild or
    misaligned pointer) is undefined behaviour.  A heap function is an [H A]: from
    the memory and the heap header it gives a result and the next state, or
    [None] where the C program has undefined behaviour or does not return.  All
    memory operations of [k_mm.c] and [k_mm_blk.c] are on whole words, so no finer
    view is needed. *)

From S2P Require Import Prelude.
Local Open Scope Z_scope.

(** [k_mm_head] of [k_mm.h]; the free lists are the addresses of their first blocks, 0 for NULL. *)
Record k_mm_head := Mk_mm_head {
  regioninfo : Z;
  fixedmblk : Z;
  free_bitmap : Z;
  freelist : list Z
}.

(** The words of the managed memory, the address of the heap header and its contents. *)
Record hstate := Mk_hstate {
  words : gmap Z Z;
  head_addr : Z;
  mmhead : k_mm_head
}.

Definition set_words (m : gmap Z Z) (s : hstate) : hstate := Mk_hstate m (head_addr s) (mmhead s).

Definition set_head (h : k_mm_head) (s : hstate) : hstate := Mk_hstate (words s) (head_addr s) h.

Definition H (A : Type) : Type := hstate -> option (A * hstate).

#[global] Instance H_ret : MRet H := fun A a s => Some (a, s).
#[global] Instance H_bind : MBind H := fun A B f m s =>
  match m s with Some (a, s') => f a s' | None => None end.
#[global] Typeclasses Opaque H.

(** The word at [a], and the word at [a] set to [v]. *)
Definition ld (a : Z) : H Z := fun s => v ← words s !! a; Some (v, s).

Definition st (a v : Z) : H unit := fun s =>
  _ ← words s !! a; Some (tt, set_words (<[a := v]> (words s)) s).

Definition hget {A} (f : k_mm_head -> A) : H A := fun s => Some (f (mmhead s), s).

Definition hupd (f : k_mm_head -> k_mm_head) : H unit := fun s => Some (tt, set_head (f (mmhead s)) s).

(** Behaviour that is undefined, or a call that never returns. *)
Definition stuck {A} : H A := fun _ => None.

(** A result that may be missing, such as an array element out of range. *)
Definition lift {A} (x : option A) : H A := fun s => a ← x; Some (a, s).

(** [mmhead->...] for the pointer [p]: it must be the heap header. *)
Definition is_head (p : Z) : H unit := fun s =>
  if decide (p = head_addr s) then Some (tt, s) else None.

(** [memset(a, 0, 4 * n)] and [memcpy(d, a, 4 * n)] on whole words. *)
Fixpoint zero_words (a : Z) (n : nat) : H unit :=
  match n with
  | O => mret tt
  | S n => st a 0;; zero_words (a + 4) n
  end.

Fixpoint copy_words (d a : Z) (n : nat) : H unit :=
  match n with
  | O => mret tt
  | S n => v ← ld a; st d v;; copy_words (d + 4) (a + 4) n
  end.

(** ** Weakest preconditions: [hwp m Q s], [m] is defined in [s] and ends in [Q]. *)

Definition hwp {A} (m : H A) (Q : A -> hstate -> Prop) (s : hstate) : Prop :=
  match m s with Some (a, s') => Q a s' | None => False end.

Lemma hwp_iff {A} (m : H A) Q s : hwp m Q s <-> exists a s', m s = Some (a, s') /\ Q a s'.
Proof. unfold hwp. destruct (m s) as [[a s']|]; naive_solver. Qed.

Lemma hwp_mono {A} (m : H A) (P Q : A -> hstate -> Prop) s :
  hwp m P s -> (forall a s', P a s' -> Q a s') -> hwp m Q s.
Proof. unfold hwp. destruct (m s) as [[a s']|]; naive_solver. Qed.

Lemma hwp_ret {A} (a : A) (Q : A -> hstate -> Prop) s : Q a s -> hwp (mret a) Q s.
Proof. done. Qed.

Lemma hwp_bind {A B} (m : H A) (f : A -> H B) Q s : hwp m (fun a => hwp (f a) Q) s -> hwp (m ≫= f) Q s.
Proof. unfold hwp, mbind, H_bind. destruct (m s) as [[a s']|]; done. Qed.

Lemma hwp_bind_assoc {A B C} (m : H A) (n : A -> H B) (c : B -> H C) (Q : C -> hstate -> Prop) s :
  hwp (x ← m; n x) (fun y => hwp (c y) Q) s -> hwp (x ← m; y ← n x; c y) Q s.
Proof. unfold hwp, mbind, H_bind. destruct (m s) as [[x s1]|]; [|done]. by destruct (n x s1) as [[y s2]|]. Qed.

Lemma hwp_ld a v (Q : Z -> hstate -> Prop) s : words s !! a = Some v -> Q v s -> hwp (ld a) Q s.
Proof. unfold hwp, ld. by intros ->. Qed.

Lemma hwp_st a v (Q : unit -> hstate -> Prop) s :
  is_Some (words s !! a) -> Q tt (set_words (<[a := v]> (words s)) s) -> hwp (st a v) Q s.
Proof. unfold hwp, st. by intros [? ->]. Qed.

Lemma hwp_hget {A} (f : k_mm_head -> A) (Q : A -> hstate -> Prop) s : Q (f (mmhead s)) s -> hwp (hget f) Q s.
Proof. done. Qed.

Lemma hwp_hupd f (Q : unit -> hstate -> Prop) s : Q tt (set_head (f (mmhead s)) s) -> hwp (hupd f) Q s.
Proof. done. Qed.

Lemma hwp_lift {A} (x : option A) a (Q : A -> hstate -> Prop) s : x = Some a -> Q a s -> hwp (lift x) Q s.
Proof. by intros ->. Qed.

Lemma hwp_is_head p (Q : unit -> hstate -> Prop) s : p = head_addr s -> Q tt s -> hwp (is_head p) Q s.
Proof. intros. unfold hwp, is_head. by rewrite decide_True. Qed.

(** ** Memories that differ only at some words *)

(** [m'] has the words of [m], and their values but for those in [P]. *)
Record mchg (P : Z -> Prop) (m m' : gmap Z Z) : Prop := {
  mchg_dom w : is_Some (m' !! w) <-> is_Some (m !! w);
  mchg_eq w : ~ P w -> m' !! w = m !! w
}.

Lemma mchg_refl P m : mchg P m m.
Proof. by split. Qed.

Lemma mchg_trans P m1 m2 m3 : mchg P m1 m2 -> mchg P m2 m3 -> mchg P m1 m3.
Proof. intros [D1 E1] [D2 E2]. split; intros w; [by rewrite D2|]. intros. by rewrite E2, E1. Qed.

Lemma mchg_mono (P Q : Z -> Prop) m m' : mchg P m m' -> (forall w, P w -> Q w) -> mchg Q m m'.
Proof. intros [D E] HPQ. split; [done|]. intros w Hw. apply E. naive_solver. Qed.

Lemma mchg_insert (P : Z -> Prop) m a v : is_Some (m !! a) -> P a -> mchg P m (<[a := v]> m).
Proof.
  intros Ha HP. split; intros w; destruct (decide (w = a)) as [->|].
  - rewrite lookup_insert_eq. split; eauto.
  - by rewrite lookup_insert_ne.
  - done.
  - intros _. by rewrite lookup_insert_ne.
Qed.

Lemma mchg_step (P : Z -> Prop) m m1 a v : mchg P m m1 -> is_Some (m1 !! a) -> P a -> mchg P m (<[a := v]> m1).
Proof. intros Hm Ha HP. eapply mchg_trans; [exact Hm|by apply mchg_insert]. Qed.

(** A word written behind a pointer unless it is NULL. *)
Definition cset (p off v : Z) (m : gmap Z Z) : gmap Z Z := if p =? 0 then m else <[p + off := v]> m.

Lemma cset_ne p off v m w : w <> p + off -> cset p off v m !! w = m !! w.
Proof. intros. unfold cset. destruct (p =? 0); [done|]. by rewrite lookup_insert_ne. Qed.

Lemma cset_eq p off v m : p <> 0 -> cset p off v m !! (p + off) = Some v.
Proof. intros. unfold cset. destruct (Z.eqb_spec p 0); [done|]. by rewrite lookup_insert_eq. Qed.

Lemma mchg_cset (P : Z -> Prop) m p off v :
  (p <> 0 -> is_Some (m !! (p + off)) /\ P (p + off)) -> mchg P m (cset p off v m).
Proof.
  intros Hp. unfold cset. destruct (Z.eqb_spec p 0); [apply mchg_refl|]. by apply mchg_insert; apply Hp.
Qed.

Lemma hwp_cst p off v (Q : unit -> hstate -> Prop) s :
  (p <> 0 -> is_Some (words s !! (p + off))) ->
  Q tt (set_words (cset p off v (words s)) s) ->
  hwp (if negb (p =? 0) then st (p + off) v else mret tt) Q s.
Proof.
  intros Hp HQ. unfold cset in HQ. destruct (Z.eqb_spec p 0); cbn [negb].
  - apply hwp_ret. by destruct s.
  - apply hwp_st; [by apply Hp|done].
Qed.

(** One step of a heap program; reads are looked up in the context. *)
Ltac hstep :=
  lazymatch goal with
  | |- hwp (mbind _ _) _ _ => apply hwp_bind
  | |- hwp (mret _) _ _ => apply hwp_ret
  | |- hwp (hget _) _ _ => apply hwp_hget
  | |- hwp (hupd _) _ _ => apply hwp_hupd
  | |- hwp (ld _) _ _ => eapply hwp_ld; [solve [cbn; eassumption]|]
  | |- hwp (lift _) _ _ => eapply hwp_lift; [solve [cbn; eassumption]|]
  end.

Ltac hsteps := repeat hstep.

(** Copying [n] words to memory that does not overlap them. *)
Lemma copy_words_spec n d a s (Q : unit -> hstate -> Prop) :
  (forall j, 0 <= j < Z.of_nat n -> is_Some (words s !! (a + 4 * j)) /\ is_Some (words s !! (d + 4 * j))) ->
  d + 4 * Z.of_nat n <= a \/ a + 4 * Z.of_nat n <= d ->
  (forall m', mchg (fun w => d <= w < d + 4 * Z.of_nat n) (words s) m' ->
     (forall j, 0 <= j < Z.of_nat n -> m' !! (d + 4 * j) = words s !! (a + 4 * j)) -> Q tt (set_words m' s)) ->
  hwp (copy_words d a n) Q s.
Proof.
  revert d a s Q. induction n as [|n IH]; intros d a s Q Hmap Hdis HQ; cbn [copy_words].
  - apply hwp_ret. replace s with (set_words (words s) s) by (by destruct s). apply HQ; [apply mchg_refl|]. intros j Hj. lia.
  - destruct (Hmap 0 ltac:(lia)) as [[v Hv] Hd]. rewrite Z.mul_0_r, Z.add_0_r in Hv, Hd.
    hstep. eapply hwp_ld; [exact Hv|]. hstep. apply hwp_st; [done|]. apply IH; [| |].
    + intros j Hj. destruct (Hmap (j + 1) ltac:(lia)) as [H1 H2]. cbn.
      rewrite !lookup_insert_is_Some'. replace (a + 4 + 4 * j) with (a + 4 * (j + 1)) by lia.
      replace (d + 4 + 4 * j) with (d + 4 * (j + 1)) by lia. auto.
    + lia.
    + cbn. intros m' Hm Hj. apply HQ.
      * eapply mchg_trans; [apply mchg_insert; [done|lia]|]. eapply mchg_mono; [exact Hm|]. intros w Hw. cbv beta in *. lia.
      * intros j Hjn. destruct (decide (j = 0)) as [->|].
        -- rewrite !Z.mul_0_r, !Z.add_0_r. rewrite (mchg_eq _ _ _ Hm) by lia. by rewrite lookup_insert_eq, Hv.
        -- replace (d + 4 * j) with (d + 4 + 4 * (j - 1)) by lia. rewrite Hj by lia.
           replace (a + 4 + 4 * (j - 1)) with (a + 4 * j) by lia. rewrite lookup_insert_ne by lia. done.
Qed.

(** ** Memory for examples *)

(** [n] words of memory from [a]. *)
Definition block_mem (a n : Z) : gmap Z Z := list_to_map ((fun i => (a + 4 * Z.of_nat i, 0)) <$> seq 0 (Z.to_nat n)).

Lemma block_mem_lookup a n w : a mod 4 = 0 -> a <= w < a + 4 * n -> w mod 4 = 0 -> is_Some (block_mem a n !! w).
Proof.
  intros Ha Hw Hal. exists 0. apply elem_of_list_to_map_1.
  - rewrite <- list_fmap_compose. apply NoDup_fmap_2_strong; [|apply NoDup_seq]. cbn. intros. lia.
  - pose proof (Z.div_mod a 4) as Ea. pose proof (Z.div_mod w 4) as Ew.
    apply list_elem_of_fmap. exists (Z.to_nat (w / 4 - a / 4)). rewrite elem_of_seq. split; [f_equal; lia|lia].
Qed.
