(* ===== verification/MBlk.v ===== *)
(** * Fixed-size block pools ([k_mm_blk.c])

    A pool is a [mblk_pool_t] in memory, its free blocks chained through their
    first words.  The model translates the three operations word for word. *)

From S2P Require Import Prelude KErr Mem.
Local Open Scope Z_scope.

(** [offsetof] of the fields of [mblk_pool_t]: [pool_name] at 0, then these. *)
Definition pool_blk_size (pool : Z) : Z := pool + 4.

Definition pool_blk_avail (pool : Z) : Z := pool + 8.

Definition pool_blk_whole (pool : Z) : Z := pool + 12.

Definition pool_avail_list (pool : Z) : Z := pool + 16.

Definition sizeof_mblk_pool_t : Z := 20.

(** The size of a pointer less one. *)
Definition addr_align_mask : Z := 3.

(** The loop linking the blocks: the number of links made and the last block.  [fuel] bounds
    the iterations; a loop that uses it up does not return. *)
Fixpoint pool_link (fuel : nat) (blk_cur blk_next blk_size pool_end blks : Z) : H (Z * Z * Z) :=
  if blk_next <? pool_end then
    match fuel with
    | O => stuck
    | S fuel =>
        st blk_cur blk_next;;
        pool_link fuel blk_next (blk_next + blk_size) blk_size pool_end (u32 (blks + 1))
    end
  else mret (blks, blk_cur, blk_next).

Definition krhino_mblk_pool_init (pool name pool_start blk_size pool_size : Z) : H kstat_t :=
  if pool =? 0 then mret RHINO_NULL_PTR else
  if name =? 0 then mret RHINO_NULL_PTR else
  if pool_start =? 0 then mret RHINO_NULL_PTR else
  if pool_size <? u32 (Z.shiftl blk_size 1) then mret RHINO_BLK_POOL_SIZE_ERR else
  if 0 <? Z.land pool_start addr_align_mask then mret RHINO_INV_ALIGN else
  if 0 <? Z.land blk_size addr_align_mask then mret RHINO_INV_ALIGN else
  if 0 <? Z.land pool_size addr_align_mask then mret RHINO_INV_ALIGN else
  let pool_end := pool_start + pool_size in
  '(blks, blk_cur, blk_next) ←
    pool_link (Z.to_nat pool_size) pool_start (pool_start + blk_size) blk_size pool_end 0;
  let blks := if blk_next =? pool_end then u32 (blks + 1) else blks in
  st blk_cur 0;;
  st pool name;;
  st (pool_blk_whole pool) blks;;
  st (pool_blk_avail pool) blks;;
  st (pool_blk_size pool) blk_size;;
  st (pool_avail_list pool) pool_start;;
  mret RHINO_SUCCESS.

(** The status and the value stored through [blk]; [blk] is the NULL test only. *)
Definition krhino_mblk_alloc (pool blk : Z) : H (kstat_t * option Z) :=
  if pool =? 0 then mret (RHINO_NULL_PTR, None) else
  if blk =? 0 then mret (RHINO_NULL_PTR, None) else
  avail ← ld (pool_blk_avail pool);
  if 0 <? avail then
    avail_blk ← ld (pool_avail_list pool);
    next ← ld avail_blk;
    st (pool_avail_list pool) next;;
    avail ← ld (pool_blk_avail pool);
    st (pool_blk_avail pool) (u32 (avail - 1));;
    mret (RHINO_SUCCESS, Some avail_blk)
  else mret (RHINO_NO_MEM, Some 0).

Definition krhino_mblk_free (pool blk : Z) : H kstat_t :=
  if pool =? 0 then mret RHINO_NULL_PTR else
  if blk =? 0 then mret RHINO_NULL_PTR else
  l ← ld (pool_avail_list pool);
  st blk l;;
  st (pool_avail_list pool) blk;;
  avail ← ld (pool_blk_avail pool);
  st (pool_blk_avail pool) (u32 (avail + 1));;
  mret RHINO_SUCCESS.
