(* ===== verification/MBlkSpec.v ===== *)
(** * Correctness of the fixed-size block pools

    A pool behaves as a stack of its free blocks.  Initialising it cuts the memory
    into blocks of the given size; the blocks handed out are those of the pool, each
    at most once.  A last piece smaller than a block stays linked at the bottom of
    the list but is never handed out, since it is not counted. *)

From S2P Require Import Prelude KErr Mem MBlk.
Local Open Scope Z_scope.

(** The blocks of a pool at [start], [n] of [bs] bytes. *)
Definition pool_blks (start bs : Z) (n : nat) : list Z := (fun i => start + bs * Z.of_nat i) <$> seq 0 n.

Lemma pool_blks_elem start bs n x :
  x ∈ pool_blks start bs n -> exists j, x = start + bs * j /\ 0 <= j < Z.of_nat n.
Proof. intros (j & -> & Hj%elem_of_seq)%list_elem_of_fmap. exists (Z.of_nat j). split; [done|lia]. Qed.

Lemma pool_blks_nodup start bs n : 0 < bs -> NoDup (pool_blks start bs n).
Proof. intros. apply NoDup_fmap_2_strong; [|apply NoDup_seq]. intros i j _ _ E. nia. Qed.

Lemma pool_blks_length start bs n : length (pool_blks start bs n) = n.
Proof. unfold pool_blks. by rewrite length_fmap, length_seq. Qed.

(** The list from [hd] begins with the blocks [av], each pointing to the next. *)
Fixpoint sll (m : gmap Z Z) (hd : Z) (av : list Z) : Prop :=
  match av with
  | [] => True
  | x :: av => hd = x /\ exists nx, m !! x = Some nx /\ sll m nx av
  end.

(** The pool at [pool] has the blocks [blks], of which [av] are free, the first to go first. *)
Record pool_ok (m : gmap Z Z) (pool : Z) (blks av : list Z) : Prop := {
  po_avail : m !! (pool + 8) = Some (Z.of_nat (length av));
  po_list : exists hd, m !! (pool + 16) = Some hd /\ sll m hd av;
  po_sub : av ⊆ blks;
  po_nodup : NoDup av;
  po_blks : NoDup blks /\ Z.of_nat (length blks) < 2 ^ 32 /\ pool + 8 ∉ blks /\ pool + 16 ∉ blks /\ 0 ∉ blks;
  po_map x : x ∈ blks -> is_Some (m !! x)
}.

#[global] Arguments po_avail {m pool blks av}.
#[global] Arguments po_list {m pool blks av}.
#[global] Arguments po_sub {m pool blks av}.
#[global] Arguments po_nodup {m pool blks av}.
#[global] Arguments po_blks {m pool blks av}.
#[global] Arguments po_map {m pool blks av}.

Lemma sll_frame m m' hd av : sll m hd av -> (forall x, x ∈ av -> m' !! x = m !! x) -> sll m' hd av.
Proof.
  revert hd. induction av as [|x av IH]; intros hd; [done|]. intros (-> & nx & Hx & Hl) Hf. cbn.
  split; [done|]. exists nx. rewrite Hf by left. split; [done|]. apply IH; [done|]. intros y Hy. apply Hf. by right.
Qed.

Section pool.
Context (pool : Z) (blks : list Z) (Hpool : pool <> 0).

(** A block is taken from the top of the stack; an empty pool says so and changes nothing. *)
Lemma mblk_alloc_spec av blk s (Q : kstat_t * option Z -> hstate -> Prop) :
  pool_ok (words s) pool blks av -> blk <> 0 ->
  match av with
  | [] => Q (RHINO_NO_MEM, Some 0) s
  | x :: av' => forall s', pool_ok (words s') pool blks av' -> mmhead s' = mmhead s -> head_addr s' = head_addr s ->
      mchg (fun w => w = pool + 8 \/ w = pool + 16) (words s) (words s') -> Q (RHINO_SUCCESS, Some x) s'
  end ->
  hwp (krhino_mblk_alloc pool blk) Q s.
Proof using Hpool.
  intros P Hblk HQ. unfold krhino_mblk_alloc. destruct (Z.eqb_spec pool 0); [done|]. destruct (Z.eqb_spec blk 0); [done|].
  hstep. eapply hwp_ld; [apply (po_avail P)|]. destruct av as [|x av]; [by apply hwp_ret|].
  destruct (Z.ltb_spec 0 (Z.of_nat (length (x :: av)))) as [_|Hl]; [|cbn in Hl; lia].
  destruct (po_list P) as (hd & Hhd & -> & nx & Hx & Hl). destruct (po_blks P) as (Hnd & Hlen & H8 & H16 & H0).
  pose proof (po_nodup P) as [Hxa Hna]%NoDup_cons. pose proof (po_sub P) as Hsub.
  hstep. eapply hwp_ld; [exact Hhd|]. hstep. eapply hwp_ld; [exact Hx|].
  hstep. apply hwp_st; [eauto|]. hstep.
  eapply hwp_ld; [cbn; unfold pool_avail_list, pool_blk_avail; rewrite lookup_insert_ne by lia; apply (po_avail P)|].
  hstep. apply hwp_st; [cbn; unfold pool_avail_list, pool_blk_avail; rewrite lookup_insert_ne by lia; rewrite (po_avail P); eauto|].
  assert (length (x :: av) <= length blks)%nat as Hle by (by apply submseteq_length, NoDup_submseteq, Hsub; apply P).
  replace (u32 (Z.of_nat (length (x :: av)) - 1)) with (Z.of_nat (length av)).
  2:{ unfold u32. rewrite wrap_small; cbn in *; lia. }
  apply hwp_ret, HQ; [|done|done|].
  - cbn. unfold pool_avail_list, pool_blk_avail. split.
    + apply lookup_insert_eq.
    + exists nx. rewrite lookup_insert_ne, lookup_insert_eq by lia. split; [done|]. eapply sll_frame; [exact Hl|].
      intros y Hy. assert (y ∈ blks) by (apply Hsub; by right). rewrite !lookup_insert_ne by naive_solver. done.
    + intros y Hy. apply Hsub. by right.
    + done.
    + done.
    + intros y Hy. rewrite !lookup_insert_is_Some'. right. right. by apply (po_map P).
  - cbn. unfold pool_avail_list, pool_blk_avail. apply mchg_step; [apply mchg_step; [apply mchg_refl|eauto|by right]| |by left].
    apply lookup_insert_is_Some'. right. rewrite (po_avail P). eauto.
Qed.

(** A block that was handed out goes back on top. *)
Lemma mblk_free_spec av x s (Q : kstat_t -> hstate -> Prop) :
  pool_ok (words s) pool blks av -> x ∈ blks -> x ∉ av ->
  (forall s', pool_ok (words s') pool blks (x :: av) -> mmhead s' = mmhead s -> head_addr s' = head_addr s ->
     mchg (fun w => w = pool + 8 \/ w = pool + 16 \/ w = x) (words s) (words s') -> Q RHINO_SUCCESS s') ->
  hwp (krhino_mblk_free pool x) Q s.
Proof using Hpool.
  intros P Hx Hxa HQ. destruct (po_list P) as (hd & Hhd & Hl). destruct (po_blks P) as (Hnd & Hlen & H8 & H16 & H0).
  pose proof (po_sub P) as Hsub.
  unfold krhino_mblk_free. destruct (Z.eqb_spec pool 0); [done|]. destruct (Z.eqb_spec x 0) as [->|]; [done|].
  assert (x <> pool + 8 /\ x <> pool + 16) as [Hx8 Hx16] by naive_solver.
  assert (NoDup (x :: av)) as Hnd' by (apply NoDup_cons; split; [done|apply P]).
  assert (length (x :: av) <= length blks)%nat as Hle.
  { apply submseteq_length, NoDup_submseteq; [done|]. intros y [->|Hy]%elem_of_cons; [done|by apply Hsub]. }
  hstep. eapply hwp_ld; [exact Hhd|]. hstep. apply hwp_st; [by apply (po_map P)|].
  hstep. apply hwp_st; [cbn; unfold pool_avail_list; rewrite lookup_insert_ne by done; eauto|]. hstep.
  eapply hwp_ld; [cbn; unfold pool_avail_list, pool_blk_avail; rewrite !lookup_insert_ne by lia; apply (po_avail P)|].
  hstep. apply hwp_st; [cbn; unfold pool_avail_list, pool_blk_avail; rewrite !lookup_insert_ne by lia; rewrite (po_avail P); eauto|].
  replace (u32 (Z.of_nat (length av) + 1)) with (Z.of_nat (length (x :: av))).
  2:{ unfold u32. rewrite wrap_small; cbn in *; lia. }
  apply hwp_ret, HQ; [|done|done|].
  - cbn. unfold pool_avail_list, pool_blk_avail. split.
    + apply lookup_insert_eq.
    + exists x. rewrite lookup_insert_ne, lookup_insert_eq by lia. split; [done|]. split; [done|]. exists hd.
      rewrite !lookup_insert_ne, lookup_insert_eq by lia. split; [done|]. eapply sll_frame; [exact Hl|].
      intros y Hy. assert (y ∈ blks) by (by apply Hsub). rewrite !lookup_insert_ne by naive_solver. done.
    + intros y [->|Hy]%elem_of_cons; [done|by apply Hsub].
    + done.
    + done.
    + intros y Hy. rewrite !lookup_insert_is_Some'. do 3 right. by apply (po_map P).
  - cbn. unfold pool_avail_list, pool_blk_avail. repeat apply mchg_step; [apply mchg_refl|by apply (po_map P)|auto|..];
      rewrite ?lookup_insert_is_Some'; auto; rewrite ?(po_avail P); eauto.
Qed.

End pool.

Lemma sll_seq m (f : nat -> Z) k n :
  (forall j, (k <= j < k + n)%nat -> exists nx, m !! f j = Some nx /\ ((S j < k + n)%nat -> nx = f (S j))) ->
  sll m (f k) (f <$> seq k n).
Proof.
  revert k. induction n as [|n IH]; intros k Hj; [done|]. cbn. split; [done|].
  destruct (Hj k ltac:(lia)) as (nx & Hnx & Hn). exists nx. split; [done|].
  destruct n as [|n]; [done|]. rewrite Hn by lia. apply (IH (S k)). intros j Hj'.
  destruct (Hj j ltac:(lia)) as (ny & Hny & Hn'). exists ny. split; [done|]. intros. apply Hn'. lia.
Qed.

(** ** Initialisation *)

Section init.
Context (start bs psize : Z).
Context (Hbs : 0 < bs) (Hbs4 : bs mod 4 = 0) (Hst : 0 < start) (Hst4 : start mod 4 = 0).
Context (Hend : start + psize <= 2 ^ 32).

Definition blk_at (j : Z) : Z := start + bs * j.

Lemma blk_at_aligned j : blk_at j mod 4 = 0.
Proof using Hbs4 Hst4.
  unfold blk_at. rewrite Z.add_mod, Hst4, Z.mul_mod, Hbs4 by lia. done.
Qed.

Lemma blk_at_inj i j : blk_at i = blk_at j -> i = j.
Proof using Hbs. unfold blk_at. nia. Qed.

(** The loop links each block to the next one, up to the last that starts inside the pool. *)
Lemma pool_link_spec fuel k s (Q : Z * Z * Z -> hstate -> Prop) :
  0 <= k -> blk_at k < start + psize -> start + psize - blk_at (k + 1) <= Z.of_nat fuel ->
  (forall w, start <= w < start + psize -> w mod 4 = 0 -> is_Some (words s !! w)) ->
  (forall k' s', k <= k' -> blk_at k' < start + psize <= blk_at (k' + 1) ->
     mmhead s' = mmhead s -> head_addr s' = head_addr s ->
     mchg (fun w => start <= w < start + psize) (words s) (words s') ->
     (forall j, 0 <= j < k' -> words s' !! blk_at j = if decide (j < k) then words s !! blk_at j else Some (blk_at (j + 1))) ->
     Q (k', blk_at k', blk_at (k' + 1)) s') ->
  hwp (pool_link fuel (blk_at k) (blk_at (k + 1)) bs (start + psize) k) Q s.
Proof using Hbs Hbs4 Hst Hst4 Hend.
  revert k s Q. induction fuel as [|fuel IH]; intros k s Q Hk Hlt Hfuel Hmap HQ; cbn [pool_link].
  - destruct (Z.ltb_spec (blk_at (k + 1)) (start + psize)); [lia|]. apply hwp_ret.
    apply HQ; [lia|lia|done|done|apply mchg_refl|]. intros j Hj. by rewrite decide_True by lia.
  - destruct (Z.ltb_spec (blk_at (k + 1)) (start + psize)) as [Hn|Hn].
    + hstep. assert (is_Some (words s !! blk_at k)) as Hw.
      { apply Hmap; [unfold blk_at in *; nia|apply blk_at_aligned]. }
      apply hwp_st; [done|].
      replace (u32 (k + 1)) with (k + 1) by (unfold u32; rewrite wrap_small; unfold blk_at in *; nia).
      replace (blk_at (k + 1) + bs) with (blk_at (k + 1 + 1)) by (unfold blk_at; lia).
      apply IH; [lia|done|unfold blk_at in *; lia| |].
      { intros w Hin Hal. cbn. apply lookup_insert_is_Some'. right. by apply Hmap. }
      cbn. intros k' s' Hk' Hb Hh Ha Hm Hj. apply HQ; [lia|done|done|done| |].
      * eapply mchg_trans; [apply mchg_insert; [done|unfold blk_at in *; nia]|exact Hm].
      * intros j Hin. rewrite Hj by done. destruct (decide (j < k)) as [Hlt'|Hge].
        -- rewrite decide_True by lia. apply lookup_insert_ne. intros E%blk_at_inj. lia.
        -- destruct (decide (j < k + 1)); [|done]. replace j with k by lia. by rewrite lookup_insert_eq.
    + apply hwp_ret. apply HQ; [lia|lia|done|done|apply mchg_refl|]. intros j Hj. by rewrite decide_True by lia.
Qed.

Context (pool name : Z) (Hpool : pool <> 0) (Hname : name <> 0) (Hp2 : 2 * bs <= psize) (Hps4 : psize mod 4 = 0).
Context (Hsep : pool + 20 <= start \/ start + psize <= pool).

Definition full_blocks : nat := Z.to_nat (psize / bs).

Lemma full_blocks_spec k' :
  0 <= k' -> blk_at k' < start + psize <= blk_at (k' + 1) ->
  (if blk_at (k' + 1) =? start + psize then u32 (k' + 1) else k') = Z.of_nat full_blocks /\
  (Z.of_nat full_blocks = k' \/ Z.of_nat full_blocks = k' + 1) /\ 2 <= Z.of_nat full_blocks < 2 ^ 32 /\
  (forall j, 0 <= j < Z.of_nat full_blocks -> start <= blk_at j <= start + psize - bs).
Proof using All.
  intros Hk Hb. unfold full_blocks, blk_at in *.
  assert (2 <= psize / bs) by (apply Z.div_le_lower_bound; lia).
  assert (bs * (psize / bs) <= psize) by (apply Z.mul_div_le; lia). rewrite Z2Nat.id by lia.
  destruct (Z.eqb_spec (start + bs * (k' + 1)) (start + psize)) as [E|E].
  - assert (psize / bs = k' + 1) as Ed by (replace psize with ((k' + 1) * bs) by lia; apply Z.div_mul; lia).
    unfold u32. rewrite wrap_small by nia. repeat split; nia.
  - assert (psize / bs = k') as Ed.
    { symmetry. apply Z.div_unique_pos with (psize - bs * k'); nia. }
    repeat split; nia.
Qed.

(** All blocks of the pool are free after initialisation, the first one on top. *)
Lemma mblk_pool_init_spec s (Q : kstat_t -> hstate -> Prop) :
  (forall w, start <= w < start + psize -> w mod 4 = 0 -> is_Some (words s !! w)) ->
  (forall i, 0 <= i < 5 -> is_Some (words s !! (pool + 4 * i))) ->
  (forall s', pool_ok (words s') pool (pool_blks start bs full_blocks) (pool_blks start bs full_blocks) ->
     mmhead s' = mmhead s -> head_addr s' = head_addr s ->
     mchg (fun w => start <= w < start + psize \/ pool <= w < pool + 20) (words s) (words s') -> Q RHINO_SUCCESS s') ->
  hwp (krhino_mblk_pool_init pool name start bs psize) Q s.
Proof using All.
  intros Hmap Hpm HQ. unfold krhino_mblk_pool_init.
  destruct (Z.eqb_spec pool 0); [done|]. destruct (Z.eqb_spec name 0); [done|]. destruct (Z.eqb_spec start 0); [lia|].
  rewrite Z.shiftl_mul_pow2, Z.mul_comm by lia. unfold u32 at 1. rewrite wrap_small by lia. change (2 ^ 1) with 2.
  destruct (Z.ltb_spec psize (2 * bs)); [lia|].
  change addr_align_mask with (2 ^ 2 - 1). rewrite !land_low_mask by lia. change (2 ^ 2) with 4.
  rewrite Hst4, Hbs4, Hps4. cbn [Z.ltb Z.compare]. cbv zeta. hstep.
  replace start with (blk_at 0) at 1 by (unfold blk_at; lia).
  replace (start + bs) with (blk_at (0 + 1)) by (unfold blk_at; lia).
  apply pool_link_spec; [lia|unfold blk_at; lia|unfold blk_at; lia|done|].
  intros k' s1 Hk' Hb Hh1 Ha1 Hm1 Hj1. destruct (full_blocks_spec k' Hk' Hb) as (-> & Hn & Hn2 & Hin).
  assert (forall w, is_Some (words s !! w) -> is_Some (words s1 !! w)) as Hd by (intros w; apply (mchg_dom _ _ _ Hm1)).
  assert (forall i, 0 <= i < 5 -> is_Some (words s1 !! (pool + 4 * i))) as Hp by (intros i Hi; by apply Hd, Hpm).
  pose proof (Hp 0 ltac:(lia)) as P0. rewrite Z.add_0_r in P0. pose proof (Hp 1 ltac:(lia)) as P1.
  pose proof (Hp 2 ltac:(lia)) as P2. pose proof (Hp 3 ltac:(lia)) as P3. pose proof (Hp 4 ltac:(lia)) as P4.
  cbn [Z.mul Pos.mul] in P1, P2, P3, P4.
  assert (start <= blk_at k') as Hk0 by (unfold blk_at; nia).
  assert (is_Some (words s1 !! blk_at k')) as Pk by (apply Hd, Hmap; [lia|apply blk_at_aligned]).
  do 6 (hstep; apply hwp_st; [cbn; unfold pool_blk_size, pool_blk_avail, pool_blk_whole, pool_avail_list;
    rewrite ?lookup_insert_is_Some'; by auto 10|]).
  apply hwp_ret, HQ; [|done|done|]; cbn; unfold pool_blk_size, pool_blk_avail, pool_blk_whole, pool_avail_list.
  - set (m' := <[pool + 16 := start]> _).
    assert (forall j, 0 <= j < Z.of_nat full_blocks -> exists nx, m' !! blk_at j = Some nx /\
              (j + 1 < Z.of_nat full_blocks -> nx = blk_at (j + 1))) as Hlinks.
    { intros j Hj. specialize (Hin j Hj). unfold m'. rewrite 5!lookup_insert_ne by lia.
      destruct (decide (j = k')) as [->|Hne].
      - exists 0. rewrite lookup_insert_eq. split; [done|lia].
      - exists (blk_at (j + 1)). rewrite lookup_insert_ne by (intros E%blk_at_inj; lia).
        rewrite Hj1, decide_False by lia. done. }
    assert (forall x, x <= 0 \/ pool <= x < pool + 20 -> x ∉ pool_blks start bs full_blocks) as Hout.
    { intros x Hx (j & -> & Hj)%pool_blks_elem. specialize (Hin j Hj). unfold blk_at in Hin. lia. }
    pose proof (pool_blks_nodup start bs full_blocks Hbs) as Hnd. split.
    + unfold m'. rewrite !lookup_insert_ne by lia. by rewrite lookup_insert_eq, pool_blks_length.
    + exists start. unfold m' at 1. rewrite lookup_insert_eq. split; [done|].
      replace start with (start + bs * Z.of_nat 0) at 1 by lia. apply (sll_seq _ (fun i => start + bs * Z.of_nat i)).
      intros j Hj. destruct (Hlinks (Z.of_nat j) ltac:(lia)) as (nx & Hnx & Hnn). exists nx. split; [done|].
      intros. rewrite Hnn by lia. unfold blk_at. lia.
    + done.
    + done.
    + rewrite pool_blks_length. split; [done|]. split; [lia|]. split; [apply Hout; lia|]. split; apply Hout; lia.
    + intros x (j & -> & Hj)%pool_blks_elem. destruct (Hlinks j Hj) as (nx & Hnx & _). unfold blk_at in Hnx. eauto.
  - repeat apply mchg_step; [eapply mchg_mono; [exact Hm1|by left]|..]; rewrite ?lookup_insert_is_Some'; auto 10; lia.
Qed.
End init.

(** ** The properties *)

(** C22: a pool with blocks is a stack of the free ones: initialisation fills it with every block that
    fits whole (a shorter piece at the end is never handed out), allocation pops and fails only when
    it is empty, freeing pushes; no block is in it twice. *)
Theorem mblk_pool_refines_stack pool name start bs psize s :
  0 < bs -> bs mod 4 = 0 -> 0 < start -> start mod 4 = 0 -> start + psize <= 2 ^ 32 -> pool <> 0 -> name <> 0 ->
  2 * bs <= psize -> psize mod 4 = 0 -> pool + 20 <= start \/ start + psize <= pool ->
  (forall w, start <= w < start + psize -> w mod 4 = 0 -> is_Some (words s !! w)) ->
  (forall i, 0 <= i < 5 -> is_Some (words s !! (pool + 4 * i))) ->
  let blks := pool_blks start bs (Z.to_nat (psize / bs)) in
  (exists s', krhino_mblk_pool_init pool name start bs psize s = Some (RHINO_SUCCESS, s') /\ pool_ok (words s') pool blks blks) /\
  (forall t av blk, pool_ok (words t) pool blks av -> blk <> 0 ->
     exists t', krhino_mblk_alloc pool blk t =
         Some (match av with [] => (RHINO_NO_MEM, Some 0) | x :: _ => (RHINO_SUCCESS, Some x) end, t') /\
       pool_ok (words t') pool blks (tail av)) /\
  (forall t av x, pool_ok (words t) pool blks av -> x ∈ blks -> x ∉ av ->
     exists t', krhino_mblk_free pool x t = Some (RHINO_SUCCESS, t') /\ pool_ok (words t') pool blks (x :: av)).
Proof.
  intros. split; [|split].
  - assert (hwp (krhino_mblk_pool_init pool name start bs psize) (fun r s' => r = RHINO_SUCCESS /\ pool_ok (words s') pool blks blks) s)
      as (r & s' & E & -> & P)%hwp_iff; [|eauto]. apply mblk_pool_init_spec; done.
  - intros t av blk P Hb. assert (hwp (krhino_mblk_alloc pool blk) (fun r t' =>
        r = match av with [] => (RHINO_NO_MEM, Some 0) | x :: _ => (RHINO_SUCCESS, Some x) end /\ pool_ok (words t') pool blks (tail av)) t)
      as (r & t' & E & -> & P')%hwp_iff; [|eauto]. eapply mblk_alloc_spec; [done|exact P|done|]. by destruct av.
  - intros t av x P Hx Hxa. assert (hwp (krhino_mblk_free pool x) (fun r t' => r = RHINO_SUCCESS /\ pool_ok (words t') pool blks (x :: av)) t)
      as (r & t' & E & -> & P')%hwp_iff; [|eauto]. by eapply mblk_free_spec.
Qed.

(** The link loop makes no progress with blocks of no size. *)
Lemma pool_link_zero fuel start psize blks s :
  0 < psize -> pool_link fuel start (start + 0) 0 (start + psize) blks s = None.
Proof.
  intros Hp. rewrite Z.add_0_r. revert blks s. induction fuel as [|fuel IH]; intros blks s; cbn [pool_link];
    (destruct (Z.ltb_spec start (start + psize)); [|lia]); [done|].
  unfold mbind, H_bind. destruct (st start start s) as [[[] s']|]; [|done]. rewrite Z.add_0_r. apply IH.
Qed.

(** [krhino_mblk_pool_init] accepts a block size of 0 and never returns: the loop that links the
    blocks links the first one to itself forever, however long it is run. *)
Theorem mblk_zero_size_loops pool name start psize s :
  pool <> 0 -> name <> 0 -> start <> 0 -> start mod 4 = 0 -> 0 < psize -> psize mod 4 = 0 ->
  krhino_mblk_pool_init pool name start 0 psize s = None /\
  forall fuel, pool_link fuel start (start + 0) 0 (start + psize) 0 s = None.
Proof.
  intros Hpool Hname Hst Hst4 Hp Hp4. split; [|intros; by apply pool_link_zero]. unfold krhino_mblk_pool_init.
  destruct (Z.eqb_spec pool 0); [done|]. destruct (Z.eqb_spec name 0); [done|]. destruct (Z.eqb_spec start 0); [done|].
  change (u32 (Z.shiftl 0 1)) with 0. destruct (Z.ltb_spec psize 0); [lia|].
  change addr_align_mask with (2 ^ 2 - 1). rewrite !land_low_mask by lia. change (2 ^ 2) with 4. rewrite Hst4, Hp4. cbn [Z.ltb Z.compare].
  change (0 mod 4) with 0. cbn [Z.ltb Z.compare]. cbv zeta. unfold mbind, H_bind. by rewrite pool_link_zero.
Qed.

Lemma mblk_pool_refines_stack_witness : exists s', krhino_mblk_pool_init 0x1000 1 0x1014 12 40 (Mk_hstate (block_mem 0x1000 16) 0 (Mk_mm_head 0 0 0 [])) =
  Some (RHINO_SUCCESS, s') /\ pool_ok (words s') 0x1000 [0x1014; 0x1020; 0x102c] [0x1014; 0x1020; 0x102c].
Proof.
  apply (mblk_pool_refines_stack 0x1000 1 0x1014 12 40 (Mk_hstate (block_mem 0x1000 16) 0 (Mk_mm_head 0 0 0 []))); try lia; try reflexivity.
  - intros w Hw Hal. apply block_mem_lookup; [done|lia|done].
  - intros i Hi. apply block_mem_lookup; [done|lia|]. rewrite Z.mul_comm, Z_mod_plus_full. done.
Defined.

Lemma mblk_zero_size_loops_witness :
  krhino_mblk_pool_init 0x1000 1 0x1014 0 40 (Mk_hstate (block_mem 0x1000 16) 0 (Mk_mm_head 0 0 0 [])) = None.
Proof.
  apply (mblk_zero_size_loops 0x1000 1 0x1014 40 (Mk_hstate (block_mem 0x1000 16) 0 (Mk_mm_head 0 0 0 []))); done || lia.
Defined.
