(* ===== verification/Mm.v ===== *)
(** * The heap ([k_mm.c], [k_mm.h])

    A memory region is a sequence of blocks, each with a header of two words (the
    address of the block before it, and the size of its buffer with two flag bits)
    and a buffer; a free block keeps the links of its free list at the start of its
    buffer.  There is one doubly linked free list for each power of two of the
    size, and a bitmap of the lists that are not empty.  Requests of at most 32
    bytes are served from a pool of fixed-size blocks first.

    The configuration is the default one but for [RHINO_CONFIG_MM_REGION_MUTEX],
    which is 0: an operation runs with the interrupts masked, hence in one piece.
    [RHINO_CONFIG_MM_DEBUG] and [K_MM_STATISTIC] are off. *)

From S2P Require Import Prelude KErr Bitmap Mem MBlk.
Local Open Scope Z_scope.

(** ** [k_mm.h] *)

Definition MM_ALIGN_MASK : Z := 7.

(** The complement of the mask as a [size_t]. *)
Definition MM_ALIGN_NOT : Z := u32 (Z.lnot MM_ALIGN_MASK).

Definition MM_ALIGN_UP (a : Z) : Z := Z.land (u32 (a + MM_ALIGN_MASK)) MM_ALIGN_NOT.

Definition MM_ALIGN_DOWN (a : Z) : Z := Z.land a MM_ALIGN_NOT.

Definition DEF_FIX_BLK_SIZE : Z := 32.

Definition RHINO_CONFIG_MM_TLF_BLK_SIZE : Z := 8192.

Definition MM_MAX_BIT : Z := 24.

Definition MM_MAX_SIZE : Z := Z.shiftl 1 MM_MAX_BIT.

Definition MM_MIN_BIT : Z := 6.

Definition MM_MIN_SIZE : Z := Z.shiftl 1 (MM_MIN_BIT - 1).

Definition MM_BIT_LEVEL : Z := MM_MAX_BIT - MM_MIN_BIT + 2.

Definition MIN_FREE_MEMORY_SIZE : Z := 1024.

Definition RHINO_MM_FREE : Z := 1.

Definition RHINO_MM_ALLOCED : Z := 0.

Definition RHINO_MM_PREVFREE : Z := 2.

Definition RHINO_MM_PREVALLOCED : Z := 0.

Definition RHINO_MM_PRESTAT_MASK : Z := 2.

(** [k_mm_list_t]: the words of a block at [b]. *)
Definition blk_prev (b : Z) : Z := b.

Definition blk_buf_size (b : Z) : Z := b + 4.

Definition blk_free_prev (b : Z) : Z := b + 8.

Definition blk_free_next (b : Z) : Z := b + 12.

Definition blk_buffer (b : Z) : Z := b + 8.

(** [sizeof(k_mm_list_t)] is 16, [sizeof(free_ptr_t)] is 8. *)
Definition MMLIST_HEAD_SIZE : Z := MM_ALIGN_UP (16 - 8).

(** [k_mm_region_info_t]: [end] at 0, [next] at 4. *)
Definition sizeof_k_mm_region_info_t : Z := 8.

(** Two pointers, the bitmap and the free lists. *)
Definition sizeof_k_mm_head : Z := 4 + 4 + 4 + 4 * MM_BIT_LEVEL.

(** The buffer size in a [buf_size] word. *)
Definition MM_SIZE_OF (w : Z) : Z := Z.land w MM_ALIGN_NOT.

Definition MM_GET_BUF_SIZE (b : Z) : H Z := w ← ld (blk_buf_size b); mret (MM_SIZE_OF w).

Definition MM_GET_BLK_SIZE (b : Z) : H Z := sz ← MM_GET_BUF_SIZE b; mret (u32 (sz + MMLIST_HEAD_SIZE)).

Definition MM_GET_NEXT_BLK (b : Z) : H Z := sz ← MM_GET_BUF_SIZE b; mret (blk_buffer b + sz).

Definition MM_GET_THIS_BLK (buf : Z) : Z := buf - MMLIST_HEAD_SIZE.

(** ** [k_mm.c] *)

Definition MM_IS_FIXEDBLK (ptr : Z) : H bool :=
  f ← hget fixedmblk;
  if f =? 0 then mret false else
  if blk_buffer f <? ptr then
    w ← ld (blk_buf_size f);
    mret (ptr <? blk_buffer f + w)
  else mret false.

Definition init_mm_region (regionaddr len : Z) : H Z :=
  let firstblk := regionaddr in
  st (blk_prev firstblk) 0;;
  st (blk_buf_size firstblk)
     (Z.lor (Z.lor (MM_ALIGN_UP sizeof_k_mm_region_info_t) RHINO_MM_ALLOCED) RHINO_MM_PREVALLOCED);;
  let lastblk := regionaddr + len - MMLIST_HEAD_SIZE in
  midblk ← MM_GET_NEXT_BLK firstblk;
  st (blk_buf_size midblk)
     (Z.lor (Z.lor (u32 (lastblk - blk_buffer midblk)) RHINO_MM_ALLOCED) RHINO_MM_PREVALLOCED);;
  st (blk_free_next midblk) 0;;
  st (blk_free_prev midblk) 0;;
  st (blk_prev lastblk) midblk;;
  st (blk_buf_size lastblk) (Z.lor (Z.lor 0 RHINO_MM_ALLOCED) RHINO_MM_PREVFREE);;
  let region := blk_buffer firstblk in
  st (region + 4) 0;;
  st region lastblk;;
  mret firstblk.

Definition size_to_level (size : Z) : Z :=
  let cnt := u32 (32 - krhino_clz32 size) in
  if cnt <? MM_MIN_BIT then 0 else
  if MM_MAX_BIT <? cnt then -1 else
  cnt - MM_MIN_BIT.

(** [mmhead->freelist[level]], read and written. *)
Definition get_freelist (level : Z) : H Z := l ← hget freelist; lift (arr_get l level).

Definition set_freelist (level b : Z) : H unit :=
  l ← hget freelist;
  l' ← lift (arr_set l level b);
  hupd (fun h => Mk_mm_head (regioninfo h) (fixedmblk h) (free_bitmap h) l').

Definition set_free_bitmap (bm : Z) (h : k_mm_head) : k_mm_head :=
  Mk_mm_head (regioninfo h) (fixedmblk h) bm (freelist h).

Definition set_regioninfo (r : Z) (h : k_mm_head) : k_mm_head :=
  Mk_mm_head r (fixedmblk h) (free_bitmap h) (freelist h).

Definition set_fixedmblk (f : Z) (h : k_mm_head) : k_mm_head :=
  Mk_mm_head (regioninfo h) f (free_bitmap h) (freelist h).

Definition k_mm_freelist_insert (blk : Z) : H unit :=
  sz ← MM_GET_BUF_SIZE blk;
  let level := size_to_level sz in
  if (level <? 0) || (MM_BIT_LEVEL <=? level) then mret tt else
  st (blk_free_prev blk) 0;;
  first ← get_freelist level;
  st (blk_free_next blk) first;;
  first ← get_freelist level;
  (if negb (first =? 0) then st (blk_free_prev first) blk else mret tt);;
  set_freelist level blk;;
  hupd (fun h => set_free_bitmap (Z.lor (free_bitmap h) (Z.shiftl 1 level)) h).

Definition k_mm_freelist_delete (blk : Z) : H unit :=
  sz ← MM_GET_BUF_SIZE blk;
  let level := size_to_level sz in
  if (level <? 0) || (MM_BIT_LEVEL <=? level) then mret tt else
  next ← ld (blk_free_next blk);
  (if negb (next =? 0) then p ← ld (blk_free_prev blk); st (blk_free_prev next) p else mret tt);;
  prev ← ld (blk_free_prev blk);
  (if negb (prev =? 0) then n ← ld (blk_free_next blk); st (blk_free_next prev) n else mret tt);;
  first ← get_freelist level;
  (if first =? blk then
     n ← ld (blk_free_next blk);
     set_freelist level n;;
     first ← get_freelist level;
     if first =? 0
     then hupd (fun h => set_free_bitmap (Z.land (free_bitmap h) (u32 (Z.lnot (Z.shiftl 1 level)))) h)
     else mret tt
   else mret tt);;
  st (blk_free_prev blk) 0;;
  st (blk_free_next blk) 0.

Definition find_up_level (level : Z) : H Z :=
  bm ← hget free_bitmap;
  let bitmap := Z.land bm (u32 (Z.shiftl 0xffffffff (level + 1))) in
  let level := krhino_ctz32 bitmap in
  if level <? MM_BIT_LEVEL then get_freelist level else mret 0.

(** The walk along the list of the request's own level: the first block that is large enough,
    0 when there is none. *)
Fixpoint find_same_level (fuel : nat) (get_b size : Z) : H Z :=
  if get_b =? 0 then mret 0 else
  match fuel with
  | O => stuck
  | S fuel =>
      sz ← MM_GET_BUF_SIZE get_b;
      if size <=? sz then mret get_b else
      n ← ld (blk_free_next get_b);
      find_same_level fuel n size
  end.

(** A list has at most one block for each word of memory. *)
Definition walk_fuel : H nat := fun s => Some (size (words s), s).

Definition k_mm_smallblk_alloc (mmhead : Z) : H Z :=
  if mmhead =? 0 then mret 0 else
  f ← hget fixedmblk;
  '(sta, tmp) ← krhino_mblk_alloc (blk_buffer f) 1; (* &tmp is not NULL *)
  match sta, tmp with
  | RHINO_SUCCESS, Some p => mret p
  | _, _ => mret 0
  end.

Definition k_mm_smallblk_free (mmhead ptr : Z) : H unit :=
  if (mmhead =? 0) || (ptr =? 0) then mret tt else
  f ← hget fixedmblk;
  sta ← krhino_mblk_free (blk_buffer f) ptr;
  match sta with
  | RHINO_SUCCESS => mret tt
  | _ => stuck (* k_err_proc(RHINO_SYS_FATAL_ERR) *)
  end.

(** The choice of a free block for a request of [size] bytes. *)
Definition find_block (level size : Z) : H Z :=
  get_b ← find_up_level level;
  if get_b =? 0 then
    first ← get_freelist level;
    fuel ← walk_fuel;
    find_same_level fuel first size
  else mret get_b.

(** The block [this_b], of [size] bytes in all, cut down to [new_size]: the free block that is
    left over, not yet on a list. *)
Definition carve (this_b next_b new_size size : Z) : H Z :=
  let left_size := u32 (size - new_size - MMLIST_HEAD_SIZE) in
  w ← ld (blk_buf_size this_b);
  st (blk_buf_size this_b) (Z.lor new_size (Z.land w RHINO_MM_PRESTAT_MASK));;
  new_b ← MM_GET_NEXT_BLK this_b;
  st (blk_prev new_b) this_b;;
  st (blk_buf_size new_b) (Z.lor (Z.lor left_size RHINO_MM_FREE) RHINO_MM_PREVALLOCED);;
  st (blk_prev next_b) new_b;;
  mret new_b.

(** A free block taken off its list and marked as used, what is left of it split off when that
    is large enough for a block. *)
Definition take_block (get_b size : Z) : H Z :=
  k_mm_freelist_delete get_b;;
  next_b ← MM_GET_NEXT_BLK get_b;
  sz ← MM_GET_BUF_SIZE get_b;
  (if u32 (size + MMLIST_HEAD_SIZE + MM_MIN_SIZE) <=? sz then
     new_b ← carve get_b next_b size sz;
     k_mm_freelist_insert new_b
   else
     w ← ld (blk_buf_size next_b);
     st (blk_buf_size next_b) (Z.land w (u32 (Z.lnot RHINO_MM_PREVFREE))));;
  w ← ld (blk_buf_size get_b);
  st (blk_buf_size get_b) (Z.land w (u32 (Z.lnot RHINO_MM_FREE)));;
  mret (blk_buffer get_b).

(** The part of [k_mm_alloc] behind the pool. *)
Definition k_mm_alloc_level (size : Z) : H Z :=
  let size := MM_ALIGN_UP size in
  let size := if size <? MM_MIN_SIZE then MM_MIN_SIZE else size in
  let level := size_to_level size in
  if level =? -1 then mret 0 else
  get_b ← find_block level size;
  if get_b =? 0 then mret 0 else
  take_block get_b size.

(** The attempt to serve a small request from the pool: 0 when it does not. *)
Definition k_mm_alloc_small (mmhead size : Z) : H Z :=
  f ← hget fixedmblk;
  if f =? 0 then mret 0 else
  if size <=? DEF_FIX_BLK_SIZE then
    avail ← ld (pool_blk_avail (blk_buffer f));
    if 0 <? avail then k_mm_smallblk_alloc mmhead else mret 0
  else mret 0.

Definition k_mm_alloc (mmhead size : Z) : H Z :=
  if mmhead =? 0 then mret 0 else
  if size =? 0 then mret 0 else
  is_head mmhead;;
  retptr ← k_mm_alloc_small mmhead size;
  if negb (retptr =? 0) then mret retptr else
  k_mm_alloc_level size.

(** The block behind [free_b] joined to it when it is free too. *)
Definition merge_next (free_b : Z) : H unit :=
  next_b ← MM_GET_NEXT_BLK free_b;
  wn ← ld (blk_buf_size next_b);
  if negb (Z.land wn RHINO_MM_FREE =? 0) then
    k_mm_freelist_delete next_b;;
    n ← MM_GET_BLK_SIZE next_b;
    w ← ld (blk_buf_size free_b);
    st (blk_buf_size free_b) (u32 (w + n))
  else mret tt.

(** [free_b] joined to the block before it when that is free: the joined block. *)
Definition merge_prev (free_b : Z) : H Z :=
  w ← ld (blk_buf_size free_b);
  if negb (Z.land w RHINO_MM_PREVFREE =? 0) then
    prev_b ← ld (blk_prev free_b);
    k_mm_freelist_delete prev_b;;
    n ← MM_GET_BLK_SIZE free_b;
    w ← ld (blk_buf_size prev_b);
    st (blk_buf_size prev_b) (u32 (w + n));;
    mret prev_b
  else mret free_b.

(** The part of [k_mm_free] for a block with a header. *)
Definition k_mm_free_blk (ptr : Z) : H unit :=
  let free_b := MM_GET_THIS_BLK ptr in
  w ← ld (blk_buf_size free_b);
  st (blk_buf_size free_b) (Z.lor w RHINO_MM_FREE);;
  merge_next free_b;;
  free_b ← merge_prev free_b;
  k_mm_freelist_insert free_b;;
  next_b ← MM_GET_NEXT_BLK free_b;
  st (blk_prev next_b) free_b;;
  w ← ld (blk_buf_size next_b);
  st (blk_buf_size next_b) (Z.lor w RHINO_MM_PREVFREE).

Definition k_mm_free (mmhead ptr : Z) : H unit :=
  if (ptr =? 0) || (mmhead =? 0) then mret tt else
  is_head mmhead;;
  fixed ← MM_IS_FIXEDBLK ptr;
  if fixed : bool then k_mm_smallblk_free mmhead ptr else k_mm_free_blk ptr.

(** [k_mm_realloc], a block of the pool: kept when it is large enough, otherwise moved to the heap. *)
Definition k_mm_realloc_fixed (mmhead oldmem new_size : Z) : H Z :=
  if new_size <=? DEF_FIX_BLK_SIZE then mret oldmem else
  ptr_aux ← k_mm_alloc mmhead new_size;
  if negb (ptr_aux =? 0) then
    copy_words ptr_aux oldmem (Z.to_nat (DEF_FIX_BLK_SIZE / 4));;
    k_mm_smallblk_free mmhead oldmem;;
    mret ptr_aux
  else mret ptr_aux.

(** The end of the block [this_b] split off as a free block. *)
Definition split_off (this_b next_b new_size size : Z) : H unit :=
  split_b ← carve this_b next_b new_size size;
  w ← ld (blk_buf_size next_b);
  st (blk_buf_size next_b) (Z.lor w RHINO_MM_PREVFREE);;
  k_mm_freelist_insert split_b.

(** [if (new_size <= old_size)]: shrink in place. *)
Definition k_mm_realloc_shrink (this_b next_b old_size new_size : Z) : H Z :=
  wn ← ld (blk_buf_size next_b);
  '(old_size, next_b) ←
    (if negb (Z.land wn RHINO_MM_FREE =? 0) then
       k_mm_freelist_delete next_b;;
       n ← MM_GET_BLK_SIZE next_b;
       nn ← MM_GET_NEXT_BLK next_b;
       mret (u32 (old_size + n), nn)
     else mret (old_size, next_b));
  (if u32 (new_size + MMLIST_HEAD_SIZE + MM_MIN_SIZE) <=? old_size
   then split_off this_b next_b new_size old_size
   else mret tt);;
  mret (blk_buffer this_b).

(** The free block behind taken over when that is enough; 0 otherwise. *)
Definition k_mm_realloc_enlarge (this_b next_b old_size new_size : Z) : H Z :=
  wn ← ld (blk_buf_size next_b);
  if Z.land wn RHINO_MM_FREE =? 0 then mret 0 else
  n ← MM_GET_BLK_SIZE next_b;
  if new_size <=? u32 (old_size + n) then
    k_mm_freelist_delete next_b;;
    n ← MM_GET_BLK_SIZE next_b;
    w ← ld (blk_buf_size this_b);
    st (blk_buf_size this_b) (u32 (w + n));;
    next_b ← MM_GET_NEXT_BLK this_b;
    st (blk_prev next_b) this_b;;
    w ← ld (blk_buf_size next_b);
    st (blk_buf_size next_b) (Z.land w (u32 (Z.lnot RHINO_MM_PREVFREE)));;
    sz ← MM_GET_BUF_SIZE this_b;
    (if u32 (new_size + MMLIST_HEAD_SIZE + MM_MIN_SIZE) <=? sz
     then split_off this_b next_b new_size sz
     else mret tt);;
    mret (blk_buffer this_b)
  else mret 0.

(** A block with a header: in place when possible, otherwise moved. *)
Definition k_mm_realloc_blk (mmhead oldmem new_size : Z) : H Z :=
  let this_b := MM_GET_THIS_BLK oldmem in
  old_size ← MM_GET_BUF_SIZE this_b;
  next_b ← MM_GET_NEXT_BLK this_b;
  let new_size := MM_ALIGN_UP new_size in
  let new_size := if new_size <? MM_MIN_SIZE then MM_MIN_SIZE else new_size in
  ptr_aux ←
    (if new_size <=? old_size
     then k_mm_realloc_shrink this_b next_b old_size new_size
     else k_mm_realloc_enlarge this_b next_b old_size new_size);
  if negb (ptr_aux =? 0) then mret ptr_aux else
  ptr_aux ← k_mm_alloc mmhead new_size;
  if ptr_aux =? 0 then mret 0 else
  sz ← MM_GET_BUF_SIZE this_b;
  let cpsize := if new_size <? sz then new_size else sz in
  copy_words ptr_aux oldmem (Z.to_nat (cpsize / 4));;
  k_mm_free mmhead oldmem;;
  mret ptr_aux.

Definition k_mm_realloc (mmhead oldmem new_size : Z) : H Z :=
  if oldmem =? 0 then
    if 0 <? new_size then k_mm_alloc mmhead new_size else mret 0
  else if new_size =? 0 then k_mm_free mmhead oldmem;; mret 0 else
  is_head mmhead;;
  fixed ← MM_IS_FIXEDBLK oldmem;
  if fixed : bool then k_mm_realloc_fixed mmhead oldmem new_size
  else k_mm_realloc_blk mmhead oldmem new_size.

(** The address behind which the name of the pool is kept. *)
Definition fixed_mm_blk_name : Z := 1.

(** The pool of [krhino_init_mm_head]. *)
Definition init_fixed_pool (pmmhead : Z) : H unit :=
  mmblk_pool ← k_mm_alloc pmmhead
                 (RHINO_CONFIG_MM_TLF_BLK_SIZE + MM_ALIGN_UP sizeof_mblk_pool_t);
  if negb (mmblk_pool =? 0) then
    let curblk := MM_GET_THIS_BLK mmblk_pool in
    stat ← krhino_mblk_pool_init mmblk_pool fixed_mm_blk_name
             (mmblk_pool + MM_ALIGN_UP sizeof_mblk_pool_t) DEF_FIX_BLK_SIZE RHINO_CONFIG_MM_TLF_BLK_SIZE;
    match stat with
    | RHINO_SUCCESS => hupd (set_fixedmblk curblk)
    | _ => k_mm_free pmmhead mmblk_pool
    end
  else mret tt.

(** The header of the heap placed at [addr] and zeroed. *)
Definition new_head (addr : Z) : H unit := fun s =>
  Some (tt, Mk_hstate (words s) addr (Mk_mm_head 0 0 0 (replicate (Z.to_nat MM_BIT_LEVEL) 0))).

(** [*ppmmhead] becomes the address of the header; [ppmmhead] is the NULL test only. *)
Definition krhino_init_mm_head (ppmmhead addr len : Z) : H (kstat_t * Z) :=
  if ppmmhead =? 0 then mret (RHINO_NULL_PTR, 0) else
  if addr =? 0 then mret (RHINO_NULL_PTR, 0) else
  let orig_addr := addr in
  let addr := MM_ALIGN_UP addr in
  let len := u32 (len - (addr - orig_addr)) in
  let len := MM_ALIGN_DOWN len in
  if (len =? 0) || (len <? MIN_FREE_MEMORY_SIZE + RHINO_CONFIG_MM_TLF_BLK_SIZE) || (MM_MAX_SIZE <? len)
  then mret (RHINO_MM_POOL_SIZE_ERR, 0) else
  let pmmhead := addr in
  new_head pmmhead;;
  firstblk ← init_mm_region (addr + MM_ALIGN_UP sizeof_k_mm_head) (MM_ALIGN_DOWN (len - sizeof_k_mm_head));
  hupd (set_regioninfo (blk_buffer firstblk));;
  nextblk ← MM_GET_NEXT_BLK firstblk;
  k_mm_free pmmhead (blk_buffer nextblk);;
  hupd (set_fixedmblk 0);;
  init_fixed_pool pmmhead;;
  mret (RHINO_SUCCESS, pmmhead).

Definition krhino_deinit_mm_head (mmhead : Z) : H kstat_t :=
  is_head mmhead;;
  new_head mmhead;;
  mret RHINO_SUCCESS.

Definition krhino_add_mm_region (mmhead addr len : Z) : H kstat_t :=
  if mmhead =? 0 then mret RHINO_NULL_PTR else
  if addr =? 0 then mret RHINO_NULL_PTR else
  let orig_addr := addr in
  let addr := MM_ALIGN_UP addr in
  let len := u32 (len - (addr - orig_addr)) in
  let len := MM_ALIGN_DOWN len in
  if (len =? 0) || (len <? sizeof_k_mm_region_info_t + MMLIST_HEAD_SIZE * 3 + MM_MIN_SIZE)
  then mret RHINO_MM_POOL_SIZE_ERR else
  zero_words addr (Z.to_nat (len / 4));;
  is_head mmhead;;
  firstblk ← init_mm_region addr len;
  nextblk ← MM_GET_NEXT_BLK firstblk;
  let region := blk_buffer firstblk in
  r ← hget regioninfo;
  st (region + 4) r;;
  hupd (set_regioninfo region);;
  k_mm_free mmhead (blk_buffer nextblk);;
  mret RHINO_SUCCESS.

(** The global heap [g_kmm_head] is the one the state holds. *)
Definition g_kmm_head : H Z := fun s => Some (head_addr s, s).

Definition krhino_mm_alloc (size : Z) : H Z :=
  if size =? 0 then mret 0 else
  h ← g_kmm_head;
  k_mm_alloc h size.

Definition krhino_mm_free (ptr : Z) : H unit :=
  h ← g_kmm_head;
  k_mm_free h ptr.

Definition krhino_mm_realloc (oldmem newsize : Z) : H Z :=
  h ← g_kmm_head;
  k_mm_realloc h oldmem newsize.

(** [k_mm_init] on the regions of [g_mm_region], each a start and a length. *)
Fixpoint add_regions (l : list (Z * Z)) : H unit :=
  match l with
  | [] => mret tt
  | (start, len) :: l =>
      h ← g_kmm_head;
      krhino_add_mm_region h start len;;
      add_regions l
  end.

Definition k_mm_init (g_mm_region : list (Z * Z)) : H unit :=
  '(start, len) ← lift (arr_get g_mm_region 0);
  krhino_init_mm_head 1 start len;;
  add_regions (drop 1 g_mm_region).
