(* ===== verification/MmWord.v ===== *)
(** * Sizes, flags and levels of heap blocks

    The [buf_size] word of a block packs its size with two flags; the lemmas here
    say what the masks of [k_mm.h] read from it and write to it, and which sizes
    each level holds. *)

From S2P Require Import Prelude KErr Bitmap Mem MBlk Mm.
Local Open Scope Z_scope.

(** A buffer of [sz] bytes with the "free" and "previous block free" flags. *)
Definition encw (sz : Z) (f pf : bool) : Z := sz + Z.b2z f + 2 * Z.b2z pf.

(** A size a header word can carry. *)
Definition size_ok (sz : Z) : Prop := 0 <= sz < 2 ^ 32 /\ sz mod 8 = 0.

Lemma size_ok_div sz : size_ok sz -> exists q, sz = q * 2 ^ 3 /\ 0 <= q < 2 ^ 29.
Proof.
  intros [H1 H2]. exists (sz / 8). pose proof (Z.div_mod sz 8). lia.
Qed.

Lemma align_down w : fits 32 w -> MM_ALIGN_DOWN w = w - w mod 8.
Proof.
  intros Hw. unfold MM_ALIGN_DOWN. change MM_ALIGN_NOT with ((2 ^ 29 - 1) * 2 ^ 3).
  rewrite land_field by lia. unfold fits in Hw. change (2 ^ 3) with 8.
  rewrite (Z.mod_small (w / 8)); Z.to_euclidean_division_equations; lia.
Qed.

Lemma align_up w : 0 <= w -> w + 7 < 2 ^ 32 -> MM_ALIGN_UP w = w + 7 - (w + 7) mod 8.
Proof.
  intros. unfold MM_ALIGN_UP, MM_ALIGN_MASK, u32. rewrite wrap_small by lia.
  apply align_down. unfold fits. lia.
Qed.

Lemma align_up_bounds w :
  0 <= w -> w + 7 < 2 ^ 32 -> w <= MM_ALIGN_UP w < w + 8 /\ MM_ALIGN_UP w mod 8 = 0.
Proof.
  intros. rewrite align_up by done. pose proof (Z.mod_pos_bound (w + 7) 8). split; [lia|].
  rewrite Zminus_mod_idemp_r, Z.sub_diag. done.
Qed.

(** Masks below 8 only meet the flags. *)
Lemma lor_flags q f g : 0 <= f < 8 -> 0 <= g < 8 -> Z.lor (q * 2 ^ 3 + f) g = q * 2 ^ 3 + Z.lor f g.
Proof.
  intros Hf Hg. assert (0 <= Z.lor f g < 2 ^ 3).
  { split; [apply Z.lor_nonneg; lia|]. destruct (decide (Z.lor f g = 0)) as [->|]; [done|].
    assert (0 <= Z.lor f g) by (apply Z.lor_nonneg; lia).
    apply Z.log2_lt_pow2; [lia|]. rewrite Z.log2_lor by lia.
    apply Z.max_lub_lt; (apply Z.le_lt_trans with (Z.log2 7); [apply Z.log2_le_mono; lia|done]). }
  rewrite <- (lor_add 3 q f), <- (lor_add 3 q (Z.lor f g)) by lia. symmetry. apply Z.lor_assoc.
Qed.

Lemma land_flags q f g : 0 <= f < 8 -> 0 <= g < 8 -> Z.land (q * 2 ^ 3 + f) g = Z.land f g.
Proof.
  intros Hf Hg. rewrite <- (lor_add 3) by lia. rewrite Z.land_lor_distr_l.
  replace (Z.land (q * 2 ^ 3) g) with 0; [done|]. symmetry. rewrite <- Z.shiftl_mul_pow2 by lia.
  apply Z.bits_inj'. intros n Hn. rewrite Z.land_spec, Z.bits_0. destruct (decide (n < 3)).
  - rewrite Z.shiftl_spec_low by lia. done.
  - rewrite (Z.bits_above_log2 g), andb_false_r; [done|lia|].
    apply Z.le_lt_trans with (Z.log2 7); [apply Z.log2_le_mono; lia|cbn; lia].
Qed.

Lemma land_clear q f g :
  0 <= q < 2 ^ 29 -> 0 <= f < 8 -> 0 <= g < 8 ->
  Z.land (q * 2 ^ 3 + f) (2 ^ 32 - 8 + g) = q * 2 ^ 3 + Z.land f g.
Proof.
  intros Hq Hf Hg.
  replace (2 ^ 32 - 8 + g) with (Z.lor ((2 ^ 29 - 1) * 2 ^ 3) g) by (rewrite lor_add; lia).
  rewrite Z.land_lor_distr_r, (land_flags q f g) by lia. rewrite land_field by lia.
  replace ((q * 2 ^ 3 + f) / 2 ^ 3) with q by (rewrite Z.div_add_l, Z.div_small; lia).
  rewrite (Z.mod_small q) by lia. apply lor_add; [lia|].
  pose proof (Z.land_nonneg f g). split; [lia|].
  destruct (decide (Z.land f g = 0)) as [->|]; [done|].
  apply Z.log2_lt_pow2; [lia|]. eapply Z.le_lt_trans; [apply Z.log2_land; lia|].
  apply Z.min_lt_iff. left. apply Z.le_lt_trans with (Z.log2 7); [apply Z.log2_le_mono; lia|cbn; lia].
Qed.

(** Reading a header word. *)
Lemma size_of_encw sz f pf : size_ok sz -> MM_SIZE_OF (encw sz f pf) = sz.
Proof.
  intros (q & -> & Hq)%size_ok_div. unfold MM_SIZE_OF, encw.
  change MM_ALIGN_NOT with (2 ^ 32 - 8 + 0). rewrite <- Z.add_assoc.
  rewrite land_clear; [|lia|destruct f, pf; cbn; lia|lia]. rewrite Z.land_0_r. lia.
Qed.

Lemma encw_free sz f pf : size_ok sz -> (Z.land (encw sz f pf) RHINO_MM_FREE =? 0) = negb f.
Proof.
  intros (q & -> & Hq)%size_ok_div. unfold encw. rewrite <- Z.add_assoc.
  rewrite land_flags; [|destruct f, pf; cbn; lia|cbv; done]. by destruct f, pf.
Qed.

Lemma encw_prevfree sz f pf : size_ok sz -> (Z.land (encw sz f pf) RHINO_MM_PREVFREE =? 0) = negb pf.
Proof.
  intros (q & -> & Hq)%size_ok_div. unfold encw. rewrite <- Z.add_assoc.
  rewrite land_flags; [|destruct f, pf; cbn; lia|cbv; done]. by destruct f, pf.
Qed.

(** Changing a flag of a header word. *)
Lemma encw_set_free sz f pf : size_ok sz -> Z.lor (encw sz f pf) RHINO_MM_FREE = encw sz true pf.
Proof.
  intros (q & -> & Hq)%size_ok_div. unfold encw. rewrite <- !Z.add_assoc.
  rewrite lor_flags; [|destruct f, pf; cbn; lia|cbv; done]. by destruct f, pf.
Qed.

Lemma encw_set_prevfree sz f pf : size_ok sz -> Z.lor (encw sz f pf) RHINO_MM_PREVFREE = encw sz f true.
Proof.
  intros (q & -> & Hq)%size_ok_div. unfold encw. rewrite <- !Z.add_assoc.
  rewrite lor_flags; [|destruct f, pf; cbn; lia|cbv; done]. by destruct f, pf.
Qed.

Lemma encw_clear_free sz f pf :
  size_ok sz -> Z.land (encw sz f pf) (u32 (Z.lnot RHINO_MM_FREE)) = encw sz false pf.
Proof.
  intros (q & -> & Hq)%size_ok_div. unfold encw. rewrite <- !Z.add_assoc.
  change (u32 (Z.lnot RHINO_MM_FREE)) with (2 ^ 32 - 8 + 6).
  rewrite land_clear; [|lia|destruct f, pf; cbn; lia|lia]. by destruct f, pf.
Qed.

Lemma encw_clear_prevfree sz f pf :
  size_ok sz -> Z.land (encw sz f pf) (u32 (Z.lnot RHINO_MM_PREVFREE)) = encw sz f false.
Proof.
  intros (q & -> & Hq)%size_ok_div. unfold encw. rewrite <- !Z.add_assoc.
  change (u32 (Z.lnot RHINO_MM_PREVFREE)) with (2 ^ 32 - 8 + 5).
  rewrite land_clear; [|lia|destruct f, pf; cbn; lia|lia]. by destruct f, pf.
Qed.

(** A header word with a new size, the state of the previous block kept. *)
Lemma encw_resize sz sz' f pf :
  size_ok sz -> size_ok sz' -> Z.lor sz' (Z.land (encw sz f pf) RHINO_MM_PRESTAT_MASK) = encw sz' false pf.
Proof.
  intros (q & -> & Hq)%size_ok_div (q' & -> & Hq')%size_ok_div. unfold encw. rewrite <- !Z.add_assoc.
  rewrite land_flags; [|destruct f, pf; cbn; lia|cbv; done].
  rewrite <- (Z.add_0_r (q' * 2 ^ 3)) at 1. rewrite lor_flags; [|lia|destruct f, pf; cbv; done].
  by destruct f, pf.
Qed.

Lemma encw_new_free sz : size_ok sz -> Z.lor (Z.lor sz RHINO_MM_FREE) RHINO_MM_PREVALLOCED = encw sz true false.
Proof.
  intros Hs. unfold RHINO_MM_PREVALLOCED. rewrite Z.lor_0_r.
  rewrite <- (encw_set_free sz false false) by done. f_equal. unfold encw. cbn. lia.
Qed.

Lemma encw_new_used sz : Z.lor (Z.lor sz RHINO_MM_ALLOCED) RHINO_MM_PREVALLOCED = encw sz false false.
Proof. unfold RHINO_MM_PREVALLOCED, RHINO_MM_ALLOCED, encw. rewrite !Z.lor_0_r. cbn. lia. Qed.

(** Adding a block size to a header word grows the size it carries. *)
Lemma encw_add sz f pf n :
  0 <= sz -> 0 <= n -> sz + n + 3 < 2 ^ 32 -> u32 (encw sz f pf + n) = encw (sz + n) f pf.
Proof.
  intros. unfold u32, encw. assert (0 <= Z.b2z f <= 1) by (destruct f; cbn; lia).
  assert (0 <= Z.b2z pf <= 1) by (destruct pf; cbn; lia). rewrite wrap_small; lia.
Qed.

(** ** Levels *)

(** The sizes of free blocks: the smallest block and anything below 16 MB. *)
Definition free_size (sz : Z) : Prop := 32 <= sz < 2 ^ 24 /\ sz mod 8 = 0.

Lemma free_size_ok sz : free_size sz -> size_ok sz.
Proof. unfold free_size, size_ok. lia. Qed.

Lemma clz32_log2 x : 0 < x < 2 ^ 32 -> krhino_clz32 x = 31 - Z.log2 x.
Proof.
  intros Hx. unfold krhino_clz32. destruct (Z.eqb_spec x 0); [lia|].
  rewrite clz_ladder; unfold fits; lia.
Qed.

Lemma size_to_level_log2 sz :
  0 < sz < 2 ^ 32 ->
  size_to_level sz = if Z.log2 sz <? 5 then 0 else if 23 <? Z.log2 sz then -1 else Z.log2 sz - 5.
Proof.
  intros Hs. unfold size_to_level, MM_MIN_BIT, MM_MAX_BIT. rewrite clz32_log2 by done.
  pose proof (Z.log2_nonneg sz). assert (Z.log2 sz < 32) by (apply Z.log2_lt_pow2; lia).
  unfold u32. rewrite wrap_small by lia.
  repeat match goal with |- context [?a <? ?b] => destruct (Z.ltb_spec a b) end; lia.
Qed.

Lemma free_size_log2 sz : free_size sz -> 5 <= Z.log2 sz <= 23.
Proof.
  intros [Hs _]. split; [apply (Z.log2_le_mono 32); lia|].
  assert (Z.log2 sz < 24); [apply Z.log2_lt_pow2; lia|lia].
Qed.

Lemma size_to_level_free sz : free_size sz -> size_to_level sz = Z.log2 sz - 5.
Proof.
  intros Hs. pose proof (free_size_log2 _ Hs). unfold free_size in Hs.
  rewrite size_to_level_log2 by lia.
  repeat match goal with |- context [?a <? ?b] => destruct (Z.ltb_spec a b) end; lia.
Qed.

Lemma free_size_level sz : free_size sz -> 0 <= size_to_level sz <= 18.
Proof. intros Hs. rewrite size_to_level_free by done. pose proof (free_size_log2 _ Hs). lia. Qed.

(** A block of a higher level is larger than every block of a lower one. *)
Lemma level_lt_size a b : free_size a -> free_size b -> size_to_level a < size_to_level b -> a < b.
Proof.
  intros Ha Hb. rewrite !size_to_level_free by done. intros Hl.
  apply Z.log2_lt_cancel. lia.
Qed.

(** Requests of 16 MB or more have no level. *)
Lemma size_to_level_large sz : 2 ^ 24 <= sz < 2 ^ 32 -> size_to_level sz = -1.
Proof.
  intros Hs. rewrite size_to_level_log2 by lia.
  assert (24 <= Z.log2 sz) by (apply Z.log2_le_pow2; lia).
  repeat match goal with |- context [?a <? ?b] => destruct (Z.ltb_spec a b) end; lia.
Qed.

(** Arithmetic on the addresses of words of aligned blocks. *)
Ltac blk_words := unfold blk_prev, blk_buf_size, blk_free_prev, blk_free_next, blk_buffer in *.

Ltac adr := blk_words; Z.to_euclidean_division_equations; lia.
