(* ===== verification/MmList.v ===== *)
(** * The free lists of the heap

    The free blocks of each level form a doubly linked list through the first two
    words of their buffers.  [flists] relates the lists and the bitmap to the set
    of free blocks they hold; inserting, deleting and searching are proved against
    it. *)

From S2P Require Import Prelude KErr Bitmap Mem MBlk Mm MmWord.
Local Open Scope Z_scope.

(** The list starting at [hd] is [xs], its first element pointing back to [pv]. *)
Fixpoint dll (m : gmap Z Z) (pv hd : Z) (xs : list Z) : Prop :=
  match xs with
  | [] => hd = 0
  | x :: xs => hd = x /\ x <> 0 /\ m !! (x + 8) = Some pv /\ exists nx, m !! (x + 12) = Some nx /\ dll m x nx xs
  end.

(** The link words of the blocks in [D]. *)
Definition links (D : Z -> Prop) (w : Z) : Prop := exists a, D a /\ (w = a + 8 \/ w = a + 12).

Lemma dll_frame m m' pv hd xs :
  dll m pv hd xs ->
  (forall x, x ∈ xs -> m' !! (x + 8) = m !! (x + 8) /\ m' !! (x + 12) = m !! (x + 12)) ->
  dll m' pv hd xs.
Proof.
  revert pv hd. induction xs as [|x xs IH]; intros pv hd; [done|].
  intros (-> & Hx & Hp & nx & Hn & Hl) Hf. destruct (Hf x) as [E1 E2]; [left|].
  cbn. rewrite E1, E2. repeat split; [done..|]. exists nx. split; [done|].
  apply IH; [done|]. intros y Hy. apply Hf. by right.
Qed.

Lemma dll_head m pv hd xs : dll m pv hd xs -> hd = 0 <-> xs = [].
Proof. destruct xs; cbn; [done|]. intros (-> & ? & _). split; done. Qed.

(** Inserting at the front. *)
Lemma dll_insert m hd xs x :
  dll m 0 hd xs -> NoDup (x :: xs) -> x <> 0 -> Forall (fun a => a mod 8 = 0) (x :: xs) ->
  dll (cset hd 8 x (<[x + 12 := hd]> (<[x + 8 := 0]> m))) 0 x (x :: xs).
Proof.
  intros Hl [Hx Hnd]%NoDup_cons Hx0 [Hax Hal]%Forall_cons. cbn. split; [done|]. split; [done|].
  assert (hd <> x) as Hhd.
  { destruct xs; cbn in Hl; [by subst|]. destruct Hl as [-> _]. intros ->. apply Hx. left. }
  assert (hd mod 8 = 0) as Hah.
  { destruct xs; cbn in Hl; [by subst|]. destruct Hl as [-> _]. by apply Forall_cons in Hal as [? _]. }
  split. { rewrite cset_ne, lookup_insert_ne, lookup_insert_eq by lia. done. }
  exists hd. split. { rewrite cset_ne, lookup_insert_eq; [done|adr]. }
  destruct xs as [|y xs]; [done|]. destruct Hl as (-> & Hy0 & Hp & ny & Hn & Hl).
  apply NoDup_cons in Hnd as [Hy _]. apply Forall_cons in Hal as [_ Hal]. rewrite Forall_forall in Hal.
  split; [done|]. split; [done|]. split; [by apply cset_eq|]. exists ny. split.
  { rewrite cset_ne, !lookup_insert_ne by adr. done. }
  eapply dll_frame; [exact Hl|]. intros z Hz. pose proof (Hal z Hz).
  assert (z <> y) by (by intros ->). assert (z <> x) by (intros ->; apply Hx; by right).
  split; rewrite cset_ne, !lookup_insert_ne by adr; done.
Qed.

(** Unlinking the element [x]. *)
Lemma dll_delete m pv hd l1 x l2 :
  dll m pv hd (l1 ++ x :: l2) -> NoDup (l1 ++ x :: l2) -> pv ∉ l1 ++ x :: l2 ->
  Forall (fun a => a mod 8 = 0) (pv :: l1 ++ x :: l2) ->
  exists p n, m !! (x + 8) = Some p /\ m !! (x + 12) = Some n /\
    (n = 0 \/ n ∈ l2) /\ (l1 <> [] -> p ∈ l1) /\ (l1 = [] -> p = pv) /\ (hd = x <-> l1 = []) /\
    dll (cset p 12 n (cset n 8 p m)) pv (if hd =? x then n else hd) (l1 ++ l2).
Proof.
  revert pv hd. induction l1 as [|z l1 IH]; intros pv hd; cbn [app].
  - intros (-> & Hx0 & Hp & n & Hn & Hl) [Hx Hnd]%NoDup_cons [Hpx Hpv]%not_elem_of_cons
      [Hapv [Hax Hal]%Forall_cons]%Forall_cons.
    exists pv, n. split; [done|]. split; [done|]. rewrite Z.eqb_refl.
    split. { destruct l2; cbn in Hl; [by left|]. right. destruct Hl as [-> _]. left. }
    split; [done|]. split; [done|]. split; [done|].
    destruct l2 as [|y l2]; [done|]. destruct Hl as (-> & Hy0 & Hyp & ny & Hyn & Hl).
    apply NoDup_cons in Hnd as [Hy Hnd]. apply not_elem_of_cons in Hpv as [Hpy Hpv].
    apply Forall_cons in Hal as [Hay Hal]. rewrite Forall_forall in Hal.
    cbn. split; [done|]. split; [done|]. split. { rewrite cset_ne by adr. by apply cset_eq. }
    exists ny. split. { rewrite !cset_ne by adr. done. }
    eapply dll_frame; [exact Hl|]. intros w Hw. pose proof (Hal w Hw).
    assert (w <> y) by (by intros ->). assert (w <> pv) by (by intros ->).
    split; rewrite !cset_ne by adr; done.
  - intros (-> & Hz0 & Hp & nz & Hn & Hl) [Hz Hnd]%NoDup_cons [Hpz Hpv]%not_elem_of_cons
      [Hapv Hal]%Forall_cons.
    destruct (IH z nz Hl Hnd Hz Hal) as (p & n & Ep & En & Hn2 & Hp2 & Hp1 & Hhd & Hl').
    exists p, n. apply Forall_cons in Hal as [Haz Hal]. rewrite Forall_forall in Hal.
    assert (z <> x) as Hzx by (intros ->; apply Hz, elem_of_app; right; left).
    assert (n <> z) as Hnz.
    { destruct Hn2 as [->|Hn2]; [done|]. intros ->. apply Hz, elem_of_app. right. by right. }
    assert (p mod 8 = 0) as Hapx.
    { destruct l1; [by rewrite Hp1|]. apply Hal, elem_of_app. left. by apply Hp2. }
    assert (n mod 8 = 0) as Han.
    { destruct Hn2 as [->|Hn2]; [done|]. apply Hal, elem_of_app. right. by right. }
    split; [done|]. split; [done|]. split; [done|].
    split. { intros _. destruct l1; [rewrite Hp1 by done; left|]. right. by apply Hp2. }
    split; [done|]. split; [by split|].
    destruct (Z.eqb_spec z x); [done|]. cbn. split; [done|]. split; [done|].
    split. { rewrite !cset_ne by adr. done. }
    exists (if nz =? x then n else nz). split; [|done].
    destruct (Z.eqb_spec nz x) as [E|E].
    + rewrite (Hp1 (proj1 Hhd E)) in *. by apply cset_eq.
    + assert (p ∈ l1) by (apply Hp2; intros Hl1; by apply E, Hhd).
      rewrite !cset_ne; [done|adr|]. intros Heq. apply Hz, elem_of_app. left. by replace z with p by lia.
Qed.

(** The lists [FL] hold exactly the blocks of [fr], a map from addresses to sizes, each on the
    list of its level, and the bitmap marks the lists that are not empty. *)
Record flists (m : gmap Z Z) (h : k_mm_head) (fr : gmap Z Z) (FL : Z -> list Z) : Prop := {
  fl_ok a sz : fr !! a = Some sz -> free_size sz /\ a mod 8 = 0 /\ 0 < a;
  fl_len : length (freelist h) = 20%nat;
  fl_list lv : 0 <= lv < 20 -> exists hd, arr_get (freelist h) lv = Some hd /\ dll m 0 hd (FL lv);
  fl_nodup lv : NoDup (FL lv);
  fl_mem lv a : a ∈ FL lv <-> exists sz, fr !! a = Some sz /\ size_to_level sz = lv;
  fl_fits : fits 32 (free_bitmap h);
  fl_bits lv : 0 <= lv -> Z.testbit (free_bitmap h) lv = true <-> FL lv <> []
}.

#[global] Arguments fl_ok {m h fr FL}.
#[global] Arguments fl_len {m h fr FL}.
#[global] Arguments fl_list {m h fr FL}.
#[global] Arguments fl_nodup {m h fr FL}.
#[global] Arguments fl_mem {m h fr FL}.
#[global] Arguments fl_fits {m h fr FL}.
#[global] Arguments fl_bits {m h fr FL}.

(** The header but for the free lists and the bitmap. *)
Definition same_head (s s' : hstate) : Prop :=
  head_addr s' = head_addr s /\ regioninfo (mmhead s') = regioninfo (mmhead s) /\
  fixedmblk (mmhead s') = fixedmblk (mmhead s).

Lemma same_head_refl s : same_head s s.
Proof. done. Qed.

Lemma same_head_trans s1 s2 s3 : same_head s1 s2 -> same_head s2 s3 -> same_head s1 s3.
Proof. intros (? & ? & ?) (? & ? & ?). repeat split; congruence. Qed.

Section freelists.
Context (fr : gmap Z Z) (FL : Z -> list Z).

Lemma fl_aligned m h lv : flists m h fr FL -> Forall (fun a => a mod 8 = 0) (FL lv).
Proof. intros F. apply Forall_forall. intros a (sz & Ha & _)%(fl_mem F). apply (fl_ok F) in Ha. naive_solver. Qed.

Lemma fl_high m h lv : flists m h fr FL -> FL lv <> [] -> 0 <= lv <= 18.
Proof.
  intros F Hne. destruct (FL lv) as [|a l] eqn:E; [done|].
  assert (a ∈ FL lv) as (sz & Ha & <-)%(fl_mem F) by (rewrite E; left).
  apply free_size_level. by apply (fl_ok F a).
Qed.

Lemma flists_frame m m' h :
  flists m h fr FL -> (forall w, links (fun a => is_Some (fr !! a)) w -> m' !! w = m !! w) -> flists m' h fr FL.
Proof.
  intros F Hm. split; [apply F..| |apply F|apply F|apply F|apply F].
  intros lv Hlv. destruct (fl_list F lv Hlv) as (hd & Hhd & Hl). exists hd. split; [done|].
  eapply dll_frame; [exact Hl|]. intros x (sz & Hx & _)%(fl_mem F).
  split; apply Hm; exists x; eauto.
Qed.

End freelists.

Lemma testbit_set bm lv i :
  0 <= lv -> Z.testbit (Z.lor bm (Z.shiftl 1 lv)) i = Z.testbit bm i || (i =? lv).
Proof.
  intros Hlv. rewrite Z.lor_spec. f_equal. rewrite Z.shiftl_1_l, Z.pow2_bits_eqb by done.
  apply Z.eqb_sym.
Qed.

Lemma testbit_clear bm lv i :
  fits 32 bm -> 0 <= lv < 32 -> 0 <= i ->
  Z.testbit (Z.land bm (u32 (Z.lnot (Z.shiftl 1 lv)))) i = Z.testbit bm i && negb (i =? lv).
Proof.
  intros Hf Hlv Hi. rewrite Z.land_spec. destruct (decide (i < 32)).
  - f_equal. unfold u32, wrap. rewrite Z.mod_pow2_bits_low, Z.lnot_spec by lia.
    rewrite Z.shiftl_1_l, Z.pow2_bits_eqb by lia. f_equal. apply Z.eqb_sym.
  - rewrite (fits_testbit bm i) by (done || lia). done.
Qed.

Lemma fits_set bm lv : fits 32 bm -> 0 <= lv < 32 -> fits 32 (Z.lor bm (Z.shiftl 1 lv)).
Proof.
  intros Hf Hlv. apply testbit_fits.
  - apply Z.lor_nonneg. split; [apply Hf|]. rewrite Z.shiftl_1_l. lia.
  - intros i Hi. rewrite testbit_set, (fits_testbit bm i) by (done || lia). destruct (Z.eqb_spec i lv); [lia|done].
Qed.

Lemma fits_clear bm lv : fits 32 bm -> 0 <= lv < 32 -> fits 32 (Z.land bm (u32 (Z.lnot (Z.shiftl 1 lv)))).
Proof.
  intros Hf Hlv. apply testbit_fits.
  - apply Z.land_nonneg. left. apply Hf.
  - intros i Hi. rewrite testbit_clear, (fits_testbit bm i) by (done || lia). done.
Qed.

(** Writing one list of the header. *)
Lemma hwp_set_freelist lv b (Q : unit -> hstate -> Prop) s :
  length (freelist (mmhead s)) = 20%nat -> 0 <= lv < 20 ->
  (forall l', arr_set (freelist (mmhead s)) lv b = Some l' ->
     Q tt (set_head (Mk_mm_head (regioninfo (mmhead s)) (fixedmblk (mmhead s)) (free_bitmap (mmhead s)) l') s)) ->
  hwp (set_freelist lv b) Q s.
Proof.
  intros Hlen Hlv HQ. unfold set_freelist. hsteps. unfold arr_set in *.
  eapply hwp_lift; [apply decide_True; lia|]. apply hwp_hupd, HQ. by rewrite decide_True by lia.
Qed.

(** The size read from the header of [b]. *)
Definition has_size (m : gmap Z Z) (b sz : Z) : Prop := exists w, m !! (b + 4) = Some w /\ MM_SIZE_OF w = sz.

Lemma hwp_buf_size b sz (Q : Z -> hstate -> Prop) s :
  has_size (words s) b sz -> Q sz s -> hwp (MM_GET_BUF_SIZE b) Q s.
Proof. intros (w & Hw & <-) HQ. apply hwp_bind. eapply hwp_ld; [exact Hw|]. done. Qed.

Lemma hwp_blk_size b sz (Q : Z -> hstate -> Prop) s :
  has_size (words s) b sz -> 0 <= sz -> sz + 8 < 2 ^ 32 -> Q (sz + 8) s -> hwp (MM_GET_BLK_SIZE b) Q s.
Proof.
  intros Hw ?? HQ. apply hwp_bind. eapply hwp_buf_size; [exact Hw|]. apply hwp_ret.
  change MMLIST_HEAD_SIZE with 8. unfold u32. by rewrite wrap_small by lia.
Qed.

Lemma hwp_next_blk b sz (Q : Z -> hstate -> Prop) s :
  has_size (words s) b sz -> Q (b + 8 + sz) s -> hwp (MM_GET_NEXT_BLK b) Q s.
Proof. intros Hw HQ. apply hwp_bind. eapply hwp_buf_size; [exact Hw|]. by apply hwp_ret. Qed.

Lemma level_in_range sz : free_size sz -> (size_to_level sz <? 0) || (MM_BIT_LEVEL <=? size_to_level sz) = false.
Proof.
  intros Hs. pose proof (free_size_level _ Hs). change MM_BIT_LEVEL with 20.
  apply orb_false_iff. split; [apply Z.ltb_ge|apply Z.leb_gt]; lia.
Qed.

(** One list of the header and the memory change; the other lists do not. *)
Section one_list.
Context (m m' : gmap Z Z) (h h' : k_mm_head) (fr fr' : gmap Z Z) (FL : Z -> list Z) (lv x hd' : Z) (xs' : list Z).
Context (F : flists m h fr FL) (Hlv : 0 <= lv < 20).
Context (Hset : arr_set (freelist h) lv hd' = Some (freelist h')).
Context (Hl' : dll m' 0 hd' xs') (Hnd : NoDup xs').
Context (Hmem : forall a, a ∈ xs' <-> exists sz, fr' !! a = Some sz /\ size_to_level sz = lv).
Context (Hfr : forall a, a <> x -> fr' !! a = fr !! a).
Context (Hlx : forall sz, fr !! x = Some sz \/ fr' !! x = Some sz -> size_to_level sz = lv).
Context (Hok : forall sz, fr' !! x = Some sz -> free_size sz /\ x mod 8 = 0 /\ 0 < x).
Context (Hm : forall w, links (fun a => a <> x /\ a ∉ FL lv /\ is_Some (fr !! a)) w -> m' !! w = m !! w).
Context (Hfit : fits 32 (free_bitmap h')).
Context (Hbit : forall i, 0 <= i -> i <> lv -> Z.testbit (free_bitmap h') i = Z.testbit (free_bitmap h) i).
Context (Hbitl : Z.testbit (free_bitmap h') lv = true <-> xs' <> []).

Lemma flists_one : flists m' h' fr' (fun i => if decide (i = lv) then xs' else FL i).
Proof using All.
  assert (forall i, i <> lv -> x ∉ FL i) as Hxi.
  { intros i Hi (sz & Hx & Hs)%(fl_mem F). apply Hi. rewrite <- Hs. apply Hlx. by left. }
  split.
  - intros a sa. destruct (decide (a = x)) as [->|]; [apply Hok|]. rewrite Hfr by done. apply F.
  - apply arr_set_length in Hset. rewrite Hset. apply F.
  - intros i Hi. destruct (decide (i = lv)) as [->|Hne].
    { exists hd'. split; [by eapply arr_get_set_eq|done]. }
    destruct (fl_list F i Hi) as (hi & Ei & Hli). exists hi. split.
    { by rewrite (arr_get_set_ne (freelist h) (freelist h') lv i hd') by done. }
    eapply dll_frame; [exact Hli|]. intros y Hy.
    assert (y <> x /\ y ∉ FL lv /\ is_Some (fr !! y)) as HD.
    { split; [by intros ->; apply (Hxi i)|]. apply (fl_mem F) in Hy as (sy & Hy & Hs). split; [|eauto].
      intros (s2 & E2 & L2)%(fl_mem F). congruence. }
    split; apply Hm; exists y; eauto.
  - intros i. destruct (decide (i = lv)); [done|apply F].
  - intros i a. destruct (decide (i = lv)) as [->|Hne]; [apply Hmem|]. rewrite (fl_mem F).
    destruct (decide (a = x)) as [->|]; [|by rewrite Hfr].
    split; intros (sz & Hs & E); exfalso; apply Hne; rewrite <- E; apply Hlx; eauto.
  - done.
  - intros i Hi. destruct (decide (i = lv)) as [->|Hne]; [done|]. rewrite Hbit by done. by apply F.
Qed.

End one_list.

(** Putting the free block [x] of [sz] bytes on its list. *)
Lemma freelist_insert_spec fr FL x sz s :
  flists (words s) (mmhead s) fr FL -> fr !! x = None ->
  free_size sz -> x mod 8 = 0 -> 0 < x -> has_size (words s) x sz ->
  is_Some (words s !! (x + 8)) -> is_Some (words s !! (x + 12)) ->
  hwp (k_mm_freelist_insert x) (fun _ s' =>
    (exists FL', flists (words s') (mmhead s') (<[x := sz]> fr) FL') /\
    mchg (links (fun a => a = x \/ is_Some (fr !! a))) (words s) (words s') /\ same_head s s') s.
Proof.
  intros F Hx Hsz Hax Hx0 Hw H8 H12. pose proof (free_size_level _ Hsz) as Hlv.
  unfold k_mm_freelist_insert. hstep. eapply hwp_buf_size; [exact Hw|].
  cbv zeta. rewrite level_in_range by done. set (lv := size_to_level sz) in *.
  destruct (fl_list F lv ltac:(lia)) as (hd & Ehd & Hl).
  assert (x ∉ FL lv) as Hnin by (intros (? & ? & _)%(fl_mem F); congruence).
  assert (hd <> 0 -> hd ∈ FL lv /\ is_Some (words s !! (hd + 8))) as Hhd.
  { intros. destruct (FL lv) as [|y l] eqn:E; [done|]. destruct Hl as (-> & _ & -> & _). split; [left|eauto]. }
  hstep. apply hwp_st; [exact H8|]. hstep. unfold get_freelist. hsteps.
  apply hwp_st. { cbn. apply lookup_insert_is_Some'. by right. }
  hsteps. apply hwp_cst.
  { intros Hne. cbn. rewrite !lookup_insert_is_Some'. right. right. by apply Hhd. }
  hsteps. apply hwp_set_freelist; [apply F|lia|]. intros l' El'. cbn in El'. apply hwp_hupd. cbn.
  split; [|split; [|done]].
  - eexists. eapply (flists_one _ _ _ _ _ _ _ lv x x (x :: FL lv) F); [lia|exact El'|..]; cbn.
    + apply dll_insert; [done| |lia|].
      * apply NoDup_cons. split; [done|apply F].
      * apply Forall_cons. split; [done|by eapply fl_aligned].
    + apply NoDup_cons. split; [done|apply F].
    + intros a. rewrite elem_of_cons, (fl_mem F). destruct (decide (a = x)) as [->|Hax'].
      * rewrite lookup_insert_eq. split; [eauto|by left].
      * rewrite lookup_insert_ne by done. naive_solver.
    + intros a Ha. by rewrite lookup_insert_ne.
    + rewrite lookup_insert_eq. intros ? [?|[= <-]]; [congruence|done].
    + rewrite lookup_insert_eq. intros ? [= <-]. done.
    + intros w (y & (Hyx & Hyl & [sy Hy]) & Hwy). apply (fl_ok F) in Hy as (_ & Hay & _).
      unfold cset. destruct (Z.eqb_spec hd 0) as [->|Hd0]; [rewrite !lookup_insert_ne by adr; done|].
      apply Hhd in Hd0 as [Hd _]. assert (hd <> y) by (by intros ->).
      apply (fl_mem F) in Hd as (sh & (_ & Had & _)%(fl_ok F) & _). rewrite !lookup_insert_ne by adr. done.
    + apply fits_set; [apply F|lia].
    + intros i Hi Hne. rewrite testbit_set by lia. destruct (Z.eqb_spec i lv); [done|]. apply orb_false_r.
    + rewrite testbit_set, Z.eqb_refl, orb_true_r by lia. done.
  - set (P := links _). assert (P (x + 8) /\ P (x + 12)) as [P8 P12] by (split; exists x; eauto).
    eapply mchg_trans; [by apply (mchg_insert P _ (x + 8) 0)|].
    eapply mchg_trans; [apply (mchg_insert P _ (x + 12) hd); [|done]|].
    { apply lookup_insert_is_Some'. by right. }
    apply mchg_cset. intros Hne. apply Hhd in Hne as [Hin Hs]. rewrite !lookup_insert_is_Some'. split; [by right; right|].
    apply (fl_mem F) in Hin as (sh & Hsh & _). exists hd. split; [right; eauto|by left].
Qed.

Lemma hwp_cld p a off v (Q : unit -> hstate -> Prop) s :
  words s !! a = Some v -> (p <> 0 -> is_Some (words s !! (p + off))) ->
  Q tt (set_words (cset p off v (words s)) s) ->
  hwp (if negb (p =? 0) then x ← ld a; st (p + off) x else mret tt) Q s.
Proof.
  intros Ha Hp HQ. unfold cset in HQ. destruct (Z.eqb_spec p 0); cbn [negb].
  - apply hwp_ret. by destruct s.
  - hstep. eapply hwp_ld; [exact Ha|]. apply hwp_st; [by apply Hp|done].
Qed.

(** The head of a list and its bit after its first element [x] may have gone. *)
Lemma hwp_unhead lv x n hd (Q : unit -> hstate -> Prop) s :
  length (freelist (mmhead s)) = 20%nat -> 0 <= lv < 20 -> arr_get (freelist (mmhead s)) lv = Some hd ->
  words s !! (x + 12) = Some n ->
  (forall l' bm', arr_set (freelist (mmhead s)) lv (if hd =? x then n else hd) = Some l' ->
     bm' = (if (hd =? x) && (n =? 0) then Z.land (free_bitmap (mmhead s)) (u32 (Z.lnot (Z.shiftl 1 lv)))
            else free_bitmap (mmhead s)) ->
     Q tt (set_head (Mk_mm_head (regioninfo (mmhead s)) (fixedmblk (mmhead s)) bm' l') s)) ->
  hwp (first ← get_freelist lv;
       if first =? x then
         n ← ld (blk_free_next x);
         set_freelist lv n;;
         first ← get_freelist lv;
         if first =? 0
         then hupd (fun h => set_free_bitmap (Z.land (free_bitmap h) (u32 (Z.lnot (Z.shiftl 1 lv)))) h)
         else mret tt
       else mret tt) Q s.
Proof.
  intros Hlen Hlv Hhd Hn HQ. unfold get_freelist. hsteps. destruct (Z.eqb_spec hd x) as [->|Hne].
  - hstep. eapply hwp_ld; [exact Hn|]. hstep. apply hwp_set_freelist; [done|done|]. intros l' Hl'. hsteps.
    eapply hwp_lift; [cbn; by eapply arr_get_set_eq|]. destruct (n =? 0); [apply hwp_hupd|apply hwp_ret]; cbn; by apply HQ.
  - apply hwp_ret. assert (arr_set (freelist (mmhead s)) lv hd = Some (freelist (mmhead s))) as Hl'.
    { unfold arr_set. rewrite decide_True by lia. f_equal. apply list_insert_id. by apply arr_get_Some. }
    specialize (HQ _ _ Hl' eq_refl). cbn in HQ. by destruct s as [? ? []].
Qed.

Lemma dll_words m pv hd xs a : dll m pv hd xs -> a ∈ xs -> is_Some (m !! (a + 8)) /\ is_Some (m !! (a + 12)).
Proof.
  revert pv hd. induction xs as [|x xs IH]; intros pv hd; [by intros _ ?%elem_of_nil|].
  intros (-> & _ & Hp & nx & Hn & Hl) [->|Ha]%elem_of_cons; [eauto|]. by eapply IH.
Qed.

(** The neighbours of [x] on its list. *)
Lemma fl_split fr FL m h x sz :
  flists m h fr FL -> fr !! x = Some sz ->
  exists hd p n l1 l2, let lv := size_to_level sz in
    arr_get (freelist h) lv = Some hd /\ FL lv = l1 ++ x :: l2 /\
    m !! (x + 8) = Some p /\ m !! (x + 12) = Some n /\
    (forall a, a <> 0 -> a = p \/ a = n -> a <> x /\ a ∈ FL lv /\ is_Some (m !! (a + 8)) /\ is_Some (m !! (a + 12))) /\
    (hd = x <-> l1 = []) /\
    dll (cset p 12 n (cset n 8 p m)) 0 (if hd =? x then n else hd) (l1 ++ l2).
Proof.
  intros F Hx. destruct (fl_ok F x sz Hx) as (Hsz & Hax & Hx0). pose proof (free_size_level _ Hsz) as Hlv.
  destruct (fl_list F (size_to_level sz) ltac:(lia)) as (hd & Ehd & Hl).
  pose proof (fl_nodup F (size_to_level sz)) as Hnd. pose proof (fl_aligned _ _ _ _ (size_to_level sz) F) as Hal.
  assert (0 ∉ FL (size_to_level sz)) as H0. { intros (s0 & (_ & _ & ?)%(fl_ok F) & _)%(fl_mem F). lia. }
  assert (x ∈ FL (size_to_level sz)) as (l1 & l2 & E)%list_elem_of_split by (apply (fl_mem F); eauto).
  pose proof Hl as Hw. rewrite E in Hl, Hnd, Hal, H0.
  destruct (dll_delete _ 0 hd l1 x l2 Hl Hnd H0) as (p & n & Hp & Hn & Hn2 & Hp2 & Hp1 & Hhd & Hl').
  { by apply Forall_cons. }
  exists hd, p, n, l1, l2. cbv zeta. do 4 (split; [done|]). split; [|done].
  apply NoDup_app in Hnd as (_ & Hd & [Hx2 _]%NoDup_cons). intros a Ha0 Ha.
  assert (a <> x /\ a ∈ FL (size_to_level sz)) as [? Hin]; [|split; [done|]; split; [done|]; by eapply dll_words].
  rewrite E, elem_of_app, elem_of_cons. destruct Ha as [-> | ->].
  - destruct l1 as [|y l1]; [by rewrite Hp1 in Ha0|]. specialize (Hp2 ltac:(done)).
    split; [|by left]. intros ->. apply (Hd x Hp2). left.
  - destruct Hn2 as [|Hn2]; [done|]. split; [by intros ->|by right; right].
Qed.

Lemma NoDup_app_cons {A} (l1 l2 : list A) x : NoDup (l1 ++ x :: l2) -> NoDup (l1 ++ l2) /\ x ∉ l1 ++ l2.
Proof.
  intros Hnd. rewrite <- Permutation_middle in Hnd. apply NoDup_cons in Hnd. tauto.
Qed.

(** Taking the block [x] off its list. *)
Lemma freelist_delete_spec fr FL x sz s :
  flists (words s) (mmhead s) fr FL -> fr !! x = Some sz -> has_size (words s) x sz ->
  hwp (k_mm_freelist_delete x) (fun _ s' =>
    (exists FL', flists (words s') (mmhead s') (delete x fr) FL') /\
    mchg (links (fun a => is_Some (fr !! a))) (words s) (words s') /\ same_head s s') s.
Proof.
  intros F Hx Hw. destruct (fl_ok F x sz Hx) as (Hsz & Hax & Hx0). pose proof (free_size_level _ Hsz) as Hlv.
  destruct (fl_split _ _ _ _ _ _ F Hx) as (hd & p & n & l1 & l2 & Ehd & E & Hp & Hn & Hpn & Hhd & Hl'). cbv zeta in *.
  unfold k_mm_freelist_delete. hstep. eapply hwp_buf_size; [exact Hw|].
  cbv zeta. rewrite level_in_range by done. set (lv := size_to_level sz) in *.
  assert (forall a, a <> 0 -> a = p \/ a = n -> a mod 8 = 0 /\ is_Some (fr !! a)) as Hapn.
  { intros a Ha0 Ha. destruct (Hpn a Ha0 Ha) as (_ & Hin & _).
    apply (fl_mem F) in Hin as (sa & Hsa & _). split; [|eauto]. by apply (fl_ok F) in Hsa as (_ & ? & _). }
  assert (p mod 8 = 0 /\ n mod 8 = 0 /\ p <> x /\ n <> x) as (Hap & Han & Hpx & Hnx).
  { destruct (decide (p = 0)) as [->|Hp0], (decide (n = 0)) as [->|Hn0];
    repeat split; try done; try lia; try (by apply Hapn; auto); by apply Hpn; auto. }
  hsteps. eapply hwp_cld; [exact Hp|by intros; apply Hpn; auto|]. hstep.
  eapply hwp_ld; [cbn; rewrite cset_ne by adr; exact Hp|]. hstep.
  eapply hwp_cld; [cbn; rewrite cset_ne by adr; exact Hn| |].
  { intros Hp0. cbn. rewrite cset_ne by adr. apply Hpn; auto. }
  apply hwp_bind_assoc, (hwp_unhead lv x n hd); [apply F|lia|done|cbn; rewrite !cset_ne by adr; exact Hn|].
  intros l' bm' El' Ebm'. hstep. apply hwp_st; [cbn; rewrite !cset_ne by adr; eauto|].
  apply hwp_st; [cbn; rewrite lookup_insert_ne, !cset_ne by adr; eauto|]. cbn in *. blk_words.
  split; [|split; [|done]].
  - assert (NoDup (l1 ++ l2) /\ x ∉ l1 ++ l2) as [Hnd Hxl].
    { pose proof (fl_nodup F lv) as Hnd. rewrite E in Hnd. by apply NoDup_app_cons. }
    eexists. eapply (flists_one _ _ _ _ _ _ _ lv x _ (l1 ++ l2) F); [lia|exact El'|..]; cbn.
    + eapply dll_frame; [exact Hl'|]. intros y Hy.
      assert (y <> x) by (by intros ->). assert (y mod 8 = 0).
      { pose proof (fl_aligned _ _ _ _ lv F) as Hal. rewrite E, Forall_forall in Hal. apply Hal.
        apply elem_of_app in Hy. rewrite elem_of_app, elem_of_cons. tauto. }
      split; rewrite !lookup_insert_ne by adr; done.
    + done.
    + intros a. destruct (decide (a = x)) as [->|Hne].
      * rewrite lookup_delete_eq. split; [done|]. by intros (? & ? & _).
      * rewrite lookup_delete_ne by done. rewrite <- (fl_mem F), E, !elem_of_app, elem_of_cons. tauto.
    + intros a Ha. by rewrite lookup_delete_ne.
    + rewrite lookup_delete_eq. intros s0 [?|?]; [by replace s0 with sz by congruence|done].
    + rewrite lookup_delete_eq. done.
    + intros w (y & (Hyx & Hyl & [sy Hy]) & Hwy). apply (fl_ok F) in Hy as (_ & Hay & Hy0).
      assert (y <> p). { intros ->. apply Hyl, Hpn; [lia|auto]. }
      assert (y <> n). { intros ->. apply Hyl, Hpn; [lia|auto]. }
      rewrite !lookup_insert_ne, !cset_ne by adr. done.
    + subst bm'. destruct (_ && _); [apply fits_clear; [apply F|lia]|apply F].
    + intros i Hi Hne. subst bm'. destruct (_ && _); [|done]. rewrite testbit_clear by (apply F || lia).
      destruct (Z.eqb_spec i lv); [done|]. apply andb_true_r.
    + subst bm'. destruct (Z.eqb_spec hd x) as [Hh|Hh]; cbn.
      * rewrite (proj1 Hhd Hh) in *. apply dll_head in Hl'. cbn in Hl'. destruct (Z.eqb_spec n 0) as [Hn0|Hn0]; cbn.
        -- rewrite testbit_clear, Z.eqb_refl, andb_false_r by (apply F || lia). split; [done|]. intros []. by apply Hl'.
        -- rewrite (fl_bits F) by lia. rewrite E. split; [|done]. intros _ El. by apply Hn0, Hl'.
      * rewrite (fl_bits F) by lia. rewrite E. split; [|by destruct l1]. intros _ El. apply Hh, Hhd. by destruct l1.
  - set (P := links _).
    assert (forall a, a <> 0 -> a = p \/ a = n -> P (a + 8) /\ P (a + 12)) as HP.
    { intros a Ha0 Ha. split; exists a; (split; [by apply Hapn|auto]). }
    assert (P (x + 8) /\ P (x + 12)) as [P8 P12] by (split; exists x; eauto).
    eapply mchg_trans; [apply (mchg_cset P _ n 8 p)|].
    { intros Hn0. split; [apply Hpn|apply HP]; auto. }
    eapply mchg_trans; [apply (mchg_cset P _ p 12 n)|].
    { intros Hp0. rewrite cset_ne by adr. split; [apply Hpn|apply HP]; auto. }
    eapply mchg_trans; [apply (mchg_insert P _ (x + 8) 0); [|done]|].
    { rewrite !cset_ne by adr. eauto. }
    apply mchg_insert; [|done]. rewrite lookup_insert_ne, !cset_ne by adr. eauto.
Qed.

(** ** Finding a block *)

Lemma length_le_words (m : gmap Z Z) l : NoDup l -> (forall x, x ∈ l -> is_Some (m !! x)) -> (length l <= size m)%nat.
Proof.
  intros Hnd Hl. rewrite <- (size_dom m), <- (size_list_to_set (C := gset Z) l) by done.
  apply subseteq_size. intros x Hx%elem_of_list_to_set. by apply elem_of_dom, Hl.
Qed.

Lemma testbit_mask_above lv i :
  0 <= lv -> 0 <= i < 32 -> Z.testbit (u32 (Z.shiftl 0xffffffff lv)) i = (lv <=? i).
Proof.
  intros Hlv Hi. unfold u32, wrap. rewrite Z.mod_pow2_bits_low by lia. rewrite Z.shiftl_spec by lia.
  change 0xffffffff with (Z.ones 32). destruct (Z.leb_spec lv i).
  - apply Z.ones_spec_low. lia.
  - apply Z.testbit_neg_r. lia.
Qed.

Section find.
Context (fr : gmap Z Z) (FL : Z -> list Z) (s : hstate).
Context (F : flists (words s) (mmhead s) fr FL).
Context (Hsizes : forall a sz, fr !! a = Some sz -> has_size (words s) a sz).

(** A higher list is tried first: when it gives nothing, all of them are empty. *)
Lemma find_up_level_spec lv (Q : Z -> hstate -> Prop) :
  0 <= lv <= 18 ->
  ((forall i, lv < i -> FL i = []) -> Q 0 s) ->
  (forall b i, lv < i -> b ∈ FL i -> Q b s) ->
  hwp (find_up_level lv) Q s.
Proof using F.
  intros Hlv H0 Hb. unfold find_up_level. hsteps. set (bm := Z.land _ _).
  assert (forall i, 0 <= i -> Z.testbit bm i = Z.testbit (free_bitmap (mmhead s)) i && (lv <? i)) as Hbm.
  { intros i Hi. unfold bm. rewrite Z.land_spec. destruct (decide (i < 32)).
    - rewrite testbit_mask_above by lia. f_equal. lia.
    - rewrite (fits_testbit (free_bitmap (mmhead s)) i) by (apply F || lia). done. }
  assert (fits 32 bm) as Hfit.
  { apply testbit_fits; [apply Z.land_nonneg; left; apply F|]. intros i Hi. rewrite Hbm by lia.
    by rewrite (fits_testbit (free_bitmap (mmhead s)) i) by (apply F || lia). }
  destruct (decide (bm = 0)) as [E0|Hne].
  - rewrite E0. cbn. apply H0. intros i Hi. destruct (decide (FL i = [])) as [|Hl]; [done|exfalso].
    apply (fl_bits F) in Hl; [|lia]. specialize (Hbm i ltac:(lia)).
    rewrite E0, Z.bits_0, Hl in Hbm. destruct (Z.ltb_spec lv i); [done|lia].
  - destruct (ctz32_lowest bm Hfit Hne) as [Hbit _]. set (j := krhino_ctz32 bm) in *.
    assert (0 <= j). { destruct (decide (0 <= j)); [done|]. by rewrite Z.testbit_neg_r in Hbit by lia. }
    rewrite Hbm in Hbit by lia. apply andb_true_iff in Hbit as [Hj Hlt%Z.ltb_lt]. apply (fl_bits F) in Hj; [|lia].
    pose proof (fl_high _ _ _ _ _ F Hj). change MM_BIT_LEVEL with 20. destruct (Z.ltb_spec j 20); [|lia].
    destruct (fl_list F j ltac:(lia)) as (hd & Ehd & Hl). unfold get_freelist. hsteps.
    destruct (FL j) as [|y l] eqn:E; [done|]. destruct Hl as [-> _]. apply (Hb y j Hlt). rewrite E. left.
Qed.

(** The walk finds the first block that is large enough. *)
Lemma find_same_level_spec fuel pv hd xs size (Q : Z -> hstate -> Prop) :
  dll (words s) pv hd xs -> (length xs <= fuel)%nat -> (forall a, a ∈ xs -> is_Some (fr !! a)) ->
  ((forall a sz, a ∈ xs -> fr !! a = Some sz -> sz < size) -> Q 0 s) ->
  (forall a sz, a ∈ xs -> fr !! a = Some sz -> size <= sz -> Q a s) ->
  hwp (find_same_level fuel hd size) Q s.
Proof using Hsizes.
  revert pv hd fuel Q. induction xs as [|x xs IH]; intros pv hd fuel Q Hl Hfuel Hin H0 Hb.
  - cbn in Hl. subst hd. unfold find_same_level. destruct fuel; cbn; apply H0; by intros a sz ?%elem_of_nil.
  - destruct Hl as (-> & Hx0 & _ & nx & Hn & Hl). destruct fuel as [|fuel]; [cbn in Hfuel; lia|].
    cbn [find_same_level]. destruct (Z.eqb_spec x 0); [done|].
    destruct (Hin x) as [sx Hsx]; [left|]. hstep. eapply hwp_buf_size; [by apply Hsizes|].
    destruct (Z.leb_spec size sx); [apply hwp_ret; apply (Hb x sx); [left|done|done]|].
    hstep. eapply hwp_ld; [exact Hn|]. cbn in Hfuel. eapply IH; [exact Hl|lia|..].
    + intros a Ha. apply Hin. by right.
    + intros Hall. apply H0. intros a sz [->|Ha]%elem_of_cons; [|by apply Hall].
      intros Hs. rewrite Hsx in Hs. injection Hs as <-. done.
    + intros a sz Ha. apply Hb. by right.
Qed.

(** A block is found exactly when some free block is large enough. *)
Lemma find_block_spec size (Q : Z -> hstate -> Prop) :
  free_size size ->
  ((forall a sz, fr !! a = Some sz -> sz < size) -> Q 0 s) ->
  (forall a sz, a <> 0 -> fr !! a = Some sz -> size <= sz -> Q a s) ->
  hwp (find_block (size_to_level size) size) Q s.
Proof using F Hsizes.
  intros Hs H0 Hb. pose proof (free_size_level _ Hs) as Hlv. unfold find_block. hstep.
  apply find_up_level_spec; [done| |].
  - intros Hup. cbn. destruct (fl_list F (size_to_level size) ltac:(lia)) as (hd & Ehd & Hl).
    unfold get_freelist. hsteps. change (hwp (find_same_level (base.size (words s)) hd size) Q s).
    eapply find_same_level_spec; [exact Hl| | | |].
    + rewrite <- (length_fmap (fun a => a + 8)). apply length_le_words.
      * apply NoDup_fmap_2; [intros ??; lia|apply F].
      * intros x (a & -> & Ha)%list_elem_of_fmap. by eapply dll_words.
    + intros a (sz & Ha & _)%(fl_mem F). eauto.
    + intros Hall. apply H0. intros a sz Ha.
      destruct (fl_ok F a sz Ha) as (Hsz & _ & _).
      destruct (decide (size_to_level sz = size_to_level size)) as [E|E].
      * apply (Hall a); [|done]. apply (fl_mem F). eauto.
      * destruct (decide (size_to_level size < size_to_level sz)) as [Hlt|].
        -- exfalso. assert (a ∈ FL (size_to_level sz)) as Hin by (apply (fl_mem F); eauto).
           rewrite (Hup _ Hlt) in Hin. by apply elem_of_nil in Hin.
        -- apply level_lt_size; [done|done|lia].
    + intros a sz _ Ha. apply Hb; [|done]. apply (fl_ok F) in Ha. lia.
  - intros b i Hi (sz & Hsz & <-)%(fl_mem F). destruct (fl_ok F b sz Hsz) as (Hfs & _ & Hb0).
    destruct (Z.eqb_spec b 0); [lia|]. apply hwp_ret, (Hb b sz); [lia|done|].
    apply Z.lt_le_incl, level_lt_size; done.
Qed.

End find.
