(* ===== verification/MmLayout.v ===== *)
(** * The layout of the heap

    A region is a run of blocks without gaps, from its first block (the region
    record) to its last (of size 0), neither ever free.  [chain] says that the
    header words of a run are right: each block knows its size, whether it is free,
    and whether the block before it is; a free block is pointed back to by the block
    behind it, and no two free blocks are adjacent.  [splice_regions] and
    [splice_blks] replace a run of blocks in the middle of a region by another one of the same
    total size, which is what allocating, freeing and resizing do. *)

From S2P Require Import Prelude KErr Bitmap Mem MBlk Mm MmWord MmList.
Local Open Scope Z_scope.

(** Free, handed out, or kept by the heap itself. *)
Inductive bkind := BFree | BUsed | BSys.

#[export] Instance bkind_eq_dec : EqDecision bkind.
Proof. solve_decision. Defined.

Record hblk := Blk { bsz : Z; bkd : bkind }.

#[export] Instance hblk_eq_dec : EqDecision hblk.
Proof. solve_decision. Defined.

Definition isf (b : hblk) : bool := match bkd b with BFree => true | _ => false end.

(** The bytes of a block with its header. *)
Definition blen (b : hblk) : Z := 8 + bsz b.

Definition bok (b : hblk) : Prop :=
  size_ok (bsz b) /\
  match bkd b with
  | BFree => free_size (bsz b)
  | BUsed => 32 <= bsz b
  | BSys => True
  end.

Fixpoint tot (l : list hblk) : Z := match l with [] => 0 | b :: l => blen b + tot l end.

(** The blocks of a run with their addresses. *)
Fixpoint addrs (a : Z) (l : list hblk) : list (Z * hblk) :=
  match l with [] => [] | b :: l => (a, b) :: addrs (a + blen b) l end.

(** The block behind a free one knows its address. *)
Definition pvs (a : Z) (b : hblk) : option Z := if isf b then Some a else None.

Definition is_pf (pv : option Z) : bool := match pv with Some _ => true | None => false end.

Fixpoint chain (m : gmap Z Z) (a : Z) (pv : option Z) (l : list hblk) : Prop :=
  match l with
  | [] => True
  | b :: l =>
      bok b /\ m !! (a + 4) = Some (encw (bsz b) (isf b) (is_pf pv)) /\
      (forall p, pv = Some p -> m !! a = Some p /\ isf b = false) /\
      chain m (a + blen b) (pvs a b) l
  end.

(** What the block behind a run is told about it. *)
Fixpoint endpv (a : Z) (pv : option Z) (l : list hblk) : option Z :=
  match l with [] => pv | b :: l => endpv (a + blen b) (pvs a b) l end.

Lemma tot_app l1 l2 : tot (l1 ++ l2) = tot l1 + tot l2.
Proof. induction l1; cbn; lia. Qed.

Lemma addrs_app a l1 l2 : addrs a (l1 ++ l2) = addrs a l1 ++ addrs (a + tot l1) l2.
Proof.
  revert a. induction l1 as [|b l1 IH]; intros a; cbn; [by rewrite Z.add_0_r|].
  by rewrite IH, Z.add_assoc.
Qed.

Lemma chain_app m a pv l1 l2 :
  chain m a pv (l1 ++ l2) <-> chain m a pv l1 /\ chain m (a + tot l1) (endpv a pv l1) l2.
Proof.
  revert a pv. induction l1 as [|b l1 IH]; intros a pv; cbn; [rewrite Z.add_0_r; tauto|].
  rewrite IH, Z.add_assoc. tauto.
Qed.

Lemma endpv_app a pv l1 l2 : endpv a pv (l1 ++ l2) = endpv (a + tot l1) (endpv a pv l1) l2.
Proof.
  revert a pv. induction l1 as [|b l1 IH]; intros a pv; cbn; [by rewrite Z.add_0_r|].
  by rewrite IH, Z.add_assoc.
Qed.

Lemma chain_bok m a pv l : chain m a pv l -> Forall bok l.
Proof.
  revert a pv. induction l as [|b l IH]; intros a pv; [done|]. intros (Hb & _ & _ & Hl).
  apply Forall_cons. split; [done|by eapply IH].
Qed.

Lemma bok_nonneg b : bok b -> 8 <= blen b /\ blen b mod 8 = 0.
Proof. unfold bok, blen, size_ok. intros [[? ?] _]. split; adr. Qed.

Lemma tot_nonneg l : Forall bok l -> 0 <= tot l /\ tot l mod 8 = 0.
Proof.
  induction l as [|b l IH]; cbn; [done|]. intros [Hb Hl]%Forall_cons. apply bok_nonneg in Hb. apply IH in Hl. adr.
Qed.

(** Where the blocks of a run are. *)
Lemma addrs_range a l c b :
  Forall bok l -> (c, b) ∈ addrs a l -> a <= c /\ c + blen b <= a + tot l /\ (a mod 8 = 0 -> c mod 8 = 0).
Proof.
  revert a. induction l as [|x l IH]; intros a Hl; cbn; [by intros ?%elem_of_nil|].
  apply Forall_cons in Hl as [Hx Hl]. pose proof (bok_nonneg _ Hx). pose proof (tot_nonneg _ Hl).
  intros [[= -> ->]|Hin]%elem_of_cons; [lia|]. apply IH in Hin; [|done]. destruct Hin as (? & ? & Hm).
  split; [lia|]. split; [lia|]. intros. apply Hm. adr.
Qed.

Lemma addrs_split a l c b : (c, b) ∈ addrs a l -> exists l1 l2, l = l1 ++ b :: l2 /\ c = a + tot l1.
Proof.
  revert a. induction l as [|x l IH]; intros a; cbn; [by intros ?%elem_of_nil|].
  intros [[= -> ->]|Hin]%elem_of_cons; [exists [], l; cbn; split; [done|lia]|].
  apply IH in Hin as (l1 & l2 & -> & ->). exists (x :: l1), l2. cbn. split; [done|lia].
Qed.

Lemma addrs_bok a l c b : Forall bok l -> (c, b) ∈ addrs a l -> bok b.
Proof.
  intros Hl (l1 & l2 & -> & _)%addrs_split. apply Forall_app in Hl as [_ Hl]. by apply Forall_cons in Hl as [? _].
Qed.

(** Two blocks of a run are the same or one is behind the other. *)
Lemma addrs_disjoint a l c b c' b' :
  Forall bok l -> (c, b) ∈ addrs a l -> (c', b') ∈ addrs a l ->
  (c = c' /\ b = b') \/ c + blen b <= c' \/ c' + blen b' <= c.
Proof.
  revert a. induction l as [|x l IH]; intros a Hl; cbn; [by intros ?%elem_of_nil|].
  apply Forall_cons in Hl as [Hx Hl]. pose proof (bok_nonneg _ Hx).
  intros [[= -> ->]|H1]%elem_of_cons [[= -> ->]|H2]%elem_of_cons; [by left|..].
  - right. left. apply addrs_range in H2; [lia|done].
  - right. right. apply addrs_range in H1; [lia|done].
  - by eapply IH.
Qed.

(** The header words of a run. *)
Definition hdr (a : Z) (l : list hblk) (w : Z) : Prop := exists c b, (c, b) ∈ addrs a l /\ (w = c \/ w = c + 4).

Lemma chain_frame m m' a pv l : chain m a pv l -> (forall w, hdr a l w -> m' !! w = m !! w) -> chain m' a pv l.
Proof.
  revert a pv. induction l as [|b l IH]; intros a pv; [done|]. intros (Hb & Hw & Hp & Hl) Hf. cbn.
  assert (forall w, w = a \/ w = a + 4 -> m' !! w = m !! w) as Ha.
  { intros w Hw'. apply Hf. exists a, b. split; [left|done]. }
  rewrite !Ha by auto. do 3 (split; [done|]). apply IH; [done|].
  intros w (c & x & Hin & Hc). apply Hf. exists c, x. split; [by right|done].
Qed.

(** A free block told to its successor is the last one of the run. *)
Lemma endpv_Some a l p :
  endpv a None l = Some p -> exists l' b, l = l' ++ [b] /\ isf b = true /\ p = a + tot l'.
Proof.
  destruct l as [|b l' _] using rev_ind; [done|]. rewrite endpv_app. cbn. unfold pvs.
  destruct (isf b) eqn:E; [|done]. intros [= <-]. eauto.
Qed.

(** ** Regions *)

Definition first_blk : hblk := Blk 8 BSys.

Definition last_blk : hblk := Blk 0 BSys.

Definition region : Type := Z * list hblk.

Record region_ok (m : gmap Z Z) (r : region) : Prop := {
  rg_base : 0 < r.1 /\ r.1 mod 8 = 0;
  rg_tot : tot r.2 <= 2 ^ 24 /\ r.1 + tot r.2 <= 2 ^ 32;
  rg_shape : exists mid, r.2 = first_blk :: mid ++ [last_blk];
  rg_chain : chain m r.1 None r.2;
  rg_map w : r.1 <= w < r.1 + tot r.2 -> w mod 4 = 0 -> is_Some (m !! w)
}.

#[global] Arguments rg_base {m r}.
#[global] Arguments rg_tot {m r}.
#[global] Arguments rg_shape {m r}.
#[global] Arguments rg_chain {m r}.
#[global] Arguments rg_map {m r}.

Definition has_blk (rs : list region) (a : Z) (b : hblk) : Prop := exists i r, rs !! i = Some r /\ (a, b) ∈ addrs r.1 r.2.

Definition apart (r1 r2 : region) : Prop := r1.1 + tot r1.2 <= r2.1 \/ r2.1 + tot r2.2 <= r1.1.

(** The regions [rs] and the free blocks [fr] describe the memory and the free lists. *)
Record heap (m : gmap Z Z) (h : k_mm_head) (rs : list region) (fr : gmap Z Z) : Prop := {
  hp_region i r : rs !! i = Some r -> region_ok m r;
  hp_apart i j r1 r2 : rs !! i = Some r1 -> rs !! j = Some r2 -> i <> j -> apart r1 r2;
  hp_free a sz : fr !! a = Some sz <-> has_blk rs a (Blk sz BFree);
  hp_lists : exists FL, flists m h fr FL
}.

#[global] Arguments hp_region {m h rs fr}.
#[global] Arguments hp_apart {m h rs fr}.
#[global] Arguments hp_free {m h rs fr}.
#[global] Arguments hp_lists {m h rs fr}.

(** The words an operation on the blocks between [x] and the header at [e] may write: those
    blocks, the header behind them, and the links of free blocks. *)
Definition touch (fr : gmap Z Z) (x e w : Z) : Prop :=
  x <= w < e + 8 \/ links (fun a => is_Some (fr !! a)) w.

Section layout.
Context (m : gmap Z Z) (h : k_mm_head) (rs : list region) (fr : gmap Z Z).
Context (HP : heap m h rs fr).

Lemma region_boks i r : rs !! i = Some r -> Forall bok r.2.
Proof using HP. intros Hr. eapply chain_bok, (rg_chain (hp_region HP _ _ Hr)). Qed.

Lemma has_blk_ok a b :
  has_blk rs a b -> bok b /\ 0 < a /\ a mod 8 = 0 /\ bsz b < 2 ^ 24 /\ a + blen b <= 2 ^ 32 /\
  (forall w, a <= w < a + blen b -> w mod 4 = 0 -> is_Some (m !! w)).
Proof using HP.
  intros (i & r & Hr & Hin). pose proof (hp_region HP _ _ Hr) as R. pose proof (region_boks _ _ Hr) as Hb.
  destruct (addrs_range _ _ _ _ Hb Hin) as (H1 & H2 & H3). destruct (rg_base R). destruct (rg_tot R).
  split; [by eapply addrs_bok|]. split; [lia|]. split; [by apply H3|]. split; [unfold blen in *; lia|].
  split; [lia|]. intros w Hw. apply (rg_map R). lia.
Qed.

Lemma has_blk_disjoint a b a' b' :
  has_blk rs a b -> has_blk rs a' b' -> (a = a' /\ b = b') \/ a + blen b <= a' \/ a' + blen b' <= a.
Proof using HP.
  intros (i & r & Hr & Hin) (j & r' & Hr' & Hin'). destruct (decide (i = j)) as [->|Hij].
  - assert (r' = r) as -> by congruence. eapply addrs_disjoint; [by eapply region_boks|done|done].
  - pose proof (hp_apart HP _ _ _ _ Hr Hr' Hij) as Hd.
    destruct (addrs_range _ _ _ _ (region_boks _ _ Hr) Hin) as (? & ? & _).
    destruct (addrs_range _ _ _ _ (region_boks _ _ Hr') Hin') as (? & ? & _).
    unfold apart in Hd. lia.
Qed.

Lemma has_blk_unique a b b' : has_blk rs a b -> has_blk rs a b' -> b = b'.
Proof using HP.
  intros H1 H2. destruct (has_blk_disjoint _ _ _ _ H1 H2) as [[_ ?]|Hd]; [done|].
  apply has_blk_ok in H1 as [H1 _], H2 as [H2 _]. apply bok_nonneg in H1, H2. lia.
Qed.

Lemma has_blk_split a b :
  has_blk rs a b -> exists i base l1 l2, rs !! i = Some (base, l1 ++ b :: l2) /\ a = base + tot l1.
Proof using Type.
  intros (i & [base l] & Hr & Hin). apply addrs_split in Hin as (l1 & l2 & E & ->). cbn in *. subst l. eauto 10.
Qed.

(** The header of a block as its run has it. *)
Lemma has_blk_word a b :
  has_blk rs a b -> exists pf, m !! (a + 4) = Some (encw (bsz b) (isf b) pf) /\ has_size m a (bsz b).
Proof using HP.
  intros (i & base & l1 & l2 & Hr & ->)%has_blk_split. pose proof (rg_chain (hp_region HP _ _ Hr)) as Hc. cbn in Hc.
  apply chain_app in Hc as (_ & Hb & Hw & _). eexists. split; [exact Hw|]. eexists. split; [exact Hw|].
  apply size_of_encw, Hb.
Qed.

Lemma free_has_size a sz : fr !! a = Some sz -> has_size m a sz.
Proof using HP. intros (pf & _ & Hs)%(hp_free HP)%has_blk_word. done. Qed.

(** A free block in the extent of a block is that block. *)
Lemma free_in_blk a b c k : has_blk rs a b -> fr !! c = Some k -> a <= c < a + blen b -> c = a /\ b = Blk k BFree.
Proof using HP.
  intros Hab Hc%(hp_free HP) Hin. destruct (has_blk_disjoint _ _ _ _ Hab Hc) as [[-> ->]|Hd]; [done|].
  apply has_blk_ok in Hc as [Hc%bok_nonneg _]. lia.
Qed.

(** The links of a free block are inside it. *)
Lemma free_links w :
  links (fun a => is_Some (fr !! a)) w -> exists a sz, has_blk rs a (Blk sz BFree) /\ a + 8 <= w < a + blen (Blk sz BFree).
Proof using HP.
  intros (a & [sz Ha] & Hw). exists a, sz. apply (hp_free HP) in Ha. split; [done|].
  apply has_blk_ok in Ha as ((_ & [? _]) & _). unfold blen in *. cbn in *. lia.
Qed.

(** A block outside a run that is rewritten, other than the one behind it, keeps its header and,
    unless it is free, its buffer. *)
Lemma touch_outside x e a b w :
  (exists be, has_blk rs e be) -> has_blk rs a b -> a < x \/ e < a ->
  (exists bx, has_blk rs x bx) -> x <= e ->
  touch fr x e w -> a <= w < a + blen b -> isf b = true /\ a + 8 <= w.
Proof using HP.
  intros [be He] Ha Hout [bx Hx] Hxe [Hw|Hw] Hin.
  - exfalso. pose proof (has_blk_disjoint _ _ _ _ Ha He). pose proof (has_blk_disjoint _ _ _ _ Ha Hx).
    apply has_blk_ok in He as [He _], Hx as [Hx _]. apply bok_nonneg in He, Hx. lia.
  - apply free_links in Hw as (c & sz & Hc & Hcw). destruct (has_blk_disjoint _ _ _ _ Ha Hc) as [[-> ->]|]; [|lia].
    split; [done|lia].
Qed.

End layout.

(** ** Replacing a run of blocks *)

Lemma cons_of_ne {A} (l : list A) : l <> [] -> exists a l', l = a :: l'.
Proof. destruct l; [done|eauto]. Qed.

Section splice.
Context (m m' : gmap Z Z) (h : k_mm_head) (rs : list region) (fr : gmap Z Z).
Context (i : nat) (base : Z) (l1 mid mid' l2 : list hblk).
Context (HP : heap m h rs fr).
Context (Hr : rs !! i = Some (base, l1 ++ mid ++ l2)).
Context (Hne1 : l1 <> []) (Hnem : mid <> []) (Hne2 : l2 <> []).
Context (Htot : tot mid' = tot mid).

Let x : Z := base + tot l1.
Let e : Z := x + tot mid.
Let rs' : list region := <[i := (base, l1 ++ mid' ++ l2)]> rs.

Lemma splice_boks : Forall bok l1 /\ Forall bok mid /\ Forall bok l2.
Proof using HP Hr.
  pose proof (region_boks _ _ _ _ HP _ _ Hr) as Hb. cbn in Hb. by rewrite !Forall_app in Hb.
Qed.

Lemma splice_inner c b : (c, b) ∈ addrs x mid -> has_blk rs c b.
Proof using Hr.
  intros Hin. exists i, (base, l1 ++ mid ++ l2). split; [done|]. cbn. rewrite !addrs_app, !elem_of_app. auto.
Qed.

Lemma splice_before c b : (c, b) ∈ addrs base l1 -> has_blk rs c b /\ c < x.
Proof using HP Hr.
  intros Hin. split.
  - exists i, (base, l1 ++ mid ++ l2). split; [done|]. cbn. rewrite !addrs_app, !elem_of_app. auto.
  - destruct splice_boks as [Hb _]. destruct (addrs_range _ _ _ _ Hb Hin) as (_ & ? & _).
    apply (addrs_bok _ _ _ _ Hb), bok_nonneg in Hin. unfold x. lia.
Qed.

Lemma splice_behind c b : (c, b) ∈ addrs e l2 -> has_blk rs c b /\ e <= c.
Proof using HP Hr.
  intros Hin. split.
  - exists i, (base, l1 ++ mid ++ l2). split; [done|]. cbn. rewrite !addrs_app, !elem_of_app. unfold e, x in Hin. auto.
  - destruct splice_boks as (_ & _ & Hb). destruct (addrs_range _ _ _ _ Hb Hin) as (? & _ & _). lia.
Qed.

Lemma splice_ends : (exists bx, has_blk rs x bx) /\ (exists be, has_blk rs e be) /\ x < e.
Proof using HP Hr Hnem Hne2.
  split; [|split].
  - destruct (cons_of_ne _ Hnem) as (b & l & E).
    exists b. apply splice_inner. rewrite E. left.
  - destruct (cons_of_ne _ Hne2) as (b & l & E).
    exists b. apply splice_behind. rewrite E. left.
  - destruct splice_boks as (_ & Hb & _). unfold e. destruct (cons_of_ne _ Hnem) as (b & l & E). rewrite E in Hb |- *.
    apply Forall_cons in Hb as [Hb Hl]. apply bok_nonneg in Hb. apply tot_nonneg in Hl. cbn. lia.
Qed.

(** Blocks of the other regions. *)
Lemma splice_other j r c b : rs !! j = Some r -> j <> i -> (c, b) ∈ addrs r.1 r.2 -> c < x \/ e < c.
Proof using HP Hr Hne2.
  intros Hj Hji Hin. pose proof (hp_apart HP _ _ _ _ Hj Hr Hji) as Hd. unfold apart in Hd. cbn in Hd.
  rewrite !tot_app in Hd. pose proof (region_boks _ _ _ _ HP _ _ Hj) as Hbj.
  destruct (addrs_range _ _ _ _ Hbj Hin) as (? & ? & _). apply (addrs_bok _ _ _ _ Hbj), bok_nonneg in Hin.
  destruct splice_boks as (?%tot_nonneg & ?%tot_nonneg & Hb2). destruct (cons_of_ne _ Hne2) as (nb & l2' & E).
  rewrite E in Hb2, Hd. apply Forall_cons in Hb2 as [?%bok_nonneg ?%tot_nonneg]. cbn in Hd. unfold e, x. lia.
Qed.

(** The blocks of the new layout: those outside the run, and the new ones. *)
Lemma splice_blks c b :
  has_blk rs' c b <-> (has_blk rs c b /\ ~ x <= c < e) \/ (c, b) ∈ addrs x mid'.
Proof using HP Hr Htot Hne2.
  assert (i < length rs)%nat as Hi by (eapply lookup_lt_Some; exact Hr).
  assert (forall r, (c, b) ∈ addrs r.1 r.2 -> r = (base, l1 ++ mid' ++ l2) ->
            (has_blk rs c b /\ ~ x <= c < e) \/ (c, b) ∈ addrs x mid') as Hnew.
  { intros r Hin ->. cbn in Hin. rewrite !addrs_app, Htot, !elem_of_app in Hin. destruct Hin as [Hin|[Hin|Hin]].
    - left. destruct (splice_before _ _ Hin). split; [done|lia].
    - by right.
    - left. destruct (splice_behind _ _ Hin). split; [done|lia]. }
  split.
  - intros (j & r & Hj & Hin). destruct (decide (j = i)) as [->|Hji].
    { unfold rs' in Hj. rewrite list_lookup_insert_eq in Hj by done. injection Hj as <-. by eapply Hnew. }
    unfold rs' in Hj. rewrite list_lookup_insert_ne in Hj by done. left. split; [exists j, r; done|].
    destruct (splice_other _ _ _ _ Hj Hji Hin); lia.
  - intros [[(j & r & Hj & Hin) Hout]|Hin].
    + destruct (decide (j = i)) as [->|Hji].
      * rewrite Hr in Hj. injection Hj as <-. exists i, (base, l1 ++ mid' ++ l2). unfold rs'.
        rewrite list_lookup_insert_eq by done. split; [done|]. cbn in *. rewrite !addrs_app, !elem_of_app in *.
        rewrite Htot. destruct Hin as [Hin|[Hin|Hin]]; [by auto| |by auto].
        exfalso. apply Hout. destruct splice_boks as (_ & Hb & _).
        destruct (addrs_range _ _ _ _ Hb Hin) as (? & ? & _). apply (addrs_bok _ _ _ _ Hb), bok_nonneg in Hin.
        unfold e, x. lia.
      * exists j, r. unfold rs'. by rewrite list_lookup_insert_ne by done.
    + exists i, (base, l1 ++ mid' ++ l2). unfold rs'. rewrite list_lookup_insert_eq by done. split; [done|].
      cbn. rewrite !addrs_app, !elem_of_app. auto.
Qed.

Lemma splice_shape : exists mm, l1 ++ mid' ++ l2 = first_blk :: mm ++ [last_blk].
Proof using HP Hr Hne1 Hne2.
  destruct (rg_shape (hp_region HP _ _ Hr)) as [mm E]. cbn in E.
  destruct (cons_of_ne _ Hne1) as (b1 & l1' & E1). destruct (exists_last Hne2) as (l2' & b2 & E2).
  rewrite E1, E2 in E |- *. cbn in E. injection E as -> E. rewrite !app_assoc in E. apply app_inj_tail in E as [_ ->].
  exists (l1' ++ mid' ++ l2'). cbn. by rewrite !app_assoc.
Qed.

Context (Hm : mchg (touch fr x e) m m').

Lemma splice_hdr a b w : has_blk rs a b -> a < x \/ e < a -> w = a \/ w = a + 4 -> m' !! w = m !! w.
Proof using HP Hr Hnem Hne2 Hm.
  intros Hab Hout Hw. destruct splice_ends as (Hx & He & Hxe). apply (mchg_eq _ _ _ Hm). intros Ht.
  assert (a <= w < a + blen b) as Hin.
  { apply (has_blk_ok _ _ _ _ HP) in Hab as [Hb _]. apply bok_nonneg in Hb. lia. }
  destruct (touch_outside _ _ _ _ HP _ _ _ _ w He Hab Hout Hx ltac:(lia) Ht Hin) as [_ ?]. lia.
Qed.

(** Buffers outside the run that are not free keep their contents. *)
Lemma splice_keep a b w :
  has_blk rs a b -> isf b = false -> ~ x <= a < e -> a + 8 <= w < a + blen b -> m' !! w = m !! w.
Proof using HP Hr Hnem Hne2 Hm.
  intros Hab Hf Hout Hw. destruct splice_ends as (Hx & He & Hxe). apply (mchg_eq _ _ _ Hm). intros Ht.
  destruct (decide (a = e)) as [->|Hae].
  - destruct Ht as [?|Ht]; [lia|]. apply (free_links _ _ _ _ HP) in Ht as (c & sz & Hc & Hcw).
    destruct (has_blk_disjoint _ _ _ _ HP _ _ _ _ Hab Hc) as [[-> ->]|]; [done|lia].
  - assert (a < x \/ e < a) as Ho by lia.
    destruct (touch_outside _ _ _ _ HP _ _ _ _ w He Hab Ho Hx ltac:(lia) Ht ltac:(lia)) as [? _]. congruence.
Qed.

(** The blocks behind the run, the first of which is told about the new run. *)
Lemma splice_tail nb l2' pv' :
  l2 = nb :: l2' -> m' !! (e + 4) = Some (encw (bsz nb) (isf nb) (is_pf pv')) ->
  (forall p, pv' = Some p -> m' !! e = Some p /\ isf nb = false) -> chain m' e pv' l2.
Proof using HP Hr Hnem Hne2 Hm.
  intros E He4 Hp. pose proof (rg_chain (hp_region HP _ _ Hr)) as Hc. cbn in Hc. rewrite E in Hc |- *.
  apply chain_app in Hc as (_ & (_ & Hb & _ & _ & Hc)%chain_app).
  do 3 (split; [done|]). eapply chain_frame; [exact Hc|]. intros w (c & b & Hin & Hw).
  assert ((c, b) ∈ addrs e l2) as [Hh _]%splice_behind by (rewrite E; by right).
  eapply splice_hdr; [exact Hh| |done]. right. apply bok_nonneg in Hb.
  apply addrs_range in Hin; [unfold e, x; lia|]. by eapply chain_bok.
Qed.

Context (Hc : chain m' x (endpv base None l1) (mid' ++ l2)).

Lemma splice_regions j r : rs' !! j = Some r -> region_ok m' r.
Proof using HP Hr Hne1 Hnem Hne2 Htot Hm Hc.
  destruct (decide (j = i)) as [->|Hji].
  - unfold rs'. rewrite list_lookup_insert_eq by (eapply lookup_lt_Some; exact Hr). intros [= <-].
    pose proof (hp_region HP _ _ Hr) as R. pose proof (rg_tot R) as Rt. pose proof (rg_map R) as Rm. cbn in *.
    rewrite !tot_app in Rt, Rm.
    split; cbn; [apply R| |apply splice_shape| |].
    + rewrite !tot_app. lia.
    + apply chain_app. split; [|exact Hc]. pose proof (rg_chain R) as Hc1. apply chain_app in Hc1 as [Hc1 _].
      eapply chain_frame; [exact Hc1|]. intros w (c & b & Hin & Hw).
      destruct (splice_before _ _ Hin) as [Hh Hlt]. eapply splice_hdr; eauto.
    + intros w Hw Hal. apply (mchg_dom _ _ _ Hm), Rm; [|done]. rewrite !tot_app in Hw. lia.
  - unfold rs'. rewrite list_lookup_insert_ne by done. intros Hj. pose proof (hp_region HP _ _ Hj) as R.
    split; [apply R|apply R|apply R| |].
    + eapply chain_frame; [apply R|]. intros w (c & b & Hin & Hw).
      assert (has_blk rs c b) as Hh by (exists j, r; done). eapply splice_hdr; [exact Hh| |done].
      by eapply splice_other.
    + intros w Hw Hal. by apply (mchg_dom _ _ _ Hm), (rg_map R).
Qed.

Lemma splice_heap h' fr' :
  (forall c sz, fr' !! c = Some sz <-> (fr !! c = Some sz /\ ~ x <= c < e) \/ (c, Blk sz BFree) ∈ addrs x mid') ->
  (exists FL, flists m' h' fr' FL) -> heap m' h' rs' fr'.
Proof using HP Hr Hne1 Hnem Hne2 Htot Hm Hc.
  intros Hfr Hfl. split; [apply splice_regions| |intros c sz; by rewrite Hfr, (hp_free HP), splice_blks|done].
  assert (forall j r, rs' !! j = Some r -> exists r0, rs !! j = Some r0 /\ r0.1 = r.1 /\ tot r0.2 = tot r.2) as Hspan.
  { intros j r. destruct (decide (j = i)) as [->|Hji]; unfold rs'.
    - rewrite list_lookup_insert_eq by (eapply lookup_lt_Some; exact Hr). intros [= <-].
      eexists. split; [exact Hr|]. cbn. rewrite !tot_app. split; [done|lia].
    - rewrite list_lookup_insert_ne by done. eauto. }
  intros j k r1 r2 (s1 & H1 & B1 & T1)%Hspan (s2 & H2 & B2 & T2)%Hspan Hjk.
  pose proof (hp_apart HP _ _ _ _ H1 H2 Hjk) as Hd. unfold apart in *. by rewrite <- B1, <- B2, <- T1, <- T2.
Qed.

End splice.

(** Writes into buffers that are not free leave the heap as it is. *)
Lemma heap_frame m m' h rs fr :
  heap m h rs fr ->
  mchg (fun w => exists a b, has_blk rs a b /\ isf b = false /\ a + 8 <= w < a + blen b) m m' -> heap m' h rs fr.
Proof.
  intros HP Hm.
  assert (forall a b w, has_blk rs a b -> a <= w < a + (if isf b then blen b else 8) -> m' !! w = m !! w) as Hk.
  { intros a b w Hab Hw. apply (mchg_eq _ _ _ Hm). intros (c & b' & Hc & Hf & Hcw).
    destruct (has_blk_disjoint _ _ _ _ HP _ _ _ _ Hab Hc) as [[-> ->]|Hd]; [rewrite Hf in Hw; lia|].
    apply (has_blk_ok _ _ _ _ HP) in Hab as [Hb%bok_nonneg _]. destruct (isf b); lia. }
  assert (forall a b, has_blk rs a b -> bok b) as Hbok by (intros a b Hab; by apply (has_blk_ok _ _ _ _ HP) in Hab as [? _]).
  destruct HP as [Hr Ha Hf [FL Hl]]. split; [|done|done|].
  - intros i r Hir. destruct (Hr i r Hir) as [R1 R2 R3 R4 R5]. split; [done..| |].
    + eapply chain_frame; [exact R4|]. intros w (c & b & Hin & Hw).
      assert (has_blk rs c b) as Hc by (exists i, r; done). apply (Hk c b); [done|].
      apply Hbok, bok_nonneg in Hc. destruct (isf b); lia.
    + intros w ??. by apply (mchg_dom _ _ _ Hm), R5.
  - exists FL. eapply flists_frame; [exact Hl|]. intros w (a & [sz Hsz] & Hw). apply Hf in Hsz.
    apply (Hk a (Blk sz BFree)); [done|]. apply Hbok in Hsz as [_ [? _]]. cbn in *. unfold blen. cbn. lia.
Qed.

(** ** What an operation on the heap keeps *)

(** The extents of the regions. *)
Definition spans (rs : list region) : list (Z * Z) := (fun r => (r.1, tot r.2)) <$> rs.

Lemma spans_splice rs i base l l' :
  rs !! i = Some (base, l) -> tot l' = tot l -> spans (<[i := (base, l')]> rs) = spans rs.
Proof.
  intros Hr Ht. unfold spans. rewrite list_fmap_insert. cbn. rewrite Ht.
  apply list_insert_id, list_lookup_fmap_Some. by exists (base, l).
Qed.

(** [kept D m rs m' rs']: outside the addresses in [D], the blocks that are not free are the
    same, with the same contents. *)
Record kept (D : Z -> Prop) (m : gmap Z Z) (rs : list region) (m' : gmap Z Z) (rs' : list region) : Prop := {
  kp_spans : spans rs' = spans rs;
  kp_blks c b : isf b = false -> ~ D c -> has_blk rs' c b <-> has_blk rs c b;
  kp_words c b w : has_blk rs c b -> isf b = false -> ~ D c -> c + 8 <= w < c + blen b -> m' !! w = m !! w
}.

(** Replacing a run of blocks keeps all others. *)
Lemma splice_kept m m' h rs fr i base l1 mid mid' l2 :
  heap m h rs fr -> rs !! i = Some (base, l1 ++ mid ++ l2) -> mid <> [] -> l2 <> [] -> tot mid' = tot mid ->
  mchg (touch fr (base + tot l1) (base + tot l1 + tot mid)) m m' ->
  kept (fun c => exists b, isf b = false /\ ((c, b) ∈ addrs (base + tot l1) mid \/ (c, b) ∈ addrs (base + tot l1) mid'))
       m rs m' (<[i := (base, l1 ++ mid' ++ l2)]> rs).
Proof.
  intros HP Hr Hm Hl2 Ht Hchg.
  assert (forall c b, has_blk rs c b -> base + tot l1 <= c < base + tot l1 + tot mid ->
            (c, b) ∈ addrs (base + tot l1) mid) as Hin.
  { intros c b (j & r & Hj & Hin) Hc.
    destruct (decide (j = i)) as [->|Hji].
    - rewrite Hr in Hj. injection Hj as <-. cbn in Hin. rewrite !addrs_app, !elem_of_app in Hin.
      destruct Hin as [Hin|[Hin|Hin]]; [|done|].
      + apply (splice_before _ _ _ _ _ _ _ _ _ HP Hr) in Hin. lia.
      + apply (splice_behind _ _ _ _ _ _ _ _ _ HP Hr) in Hin. lia.
    - destruct (splice_other _ _ _ _ _ _ _ _ _ HP Hr Hl2 _ _ _ _ Hj Hji Hin); lia. }
  split.
  - apply (spans_splice _ _ _ _ _ Hr). rewrite !tot_app. lia.
  - intros c b Hf HD. rewrite (splice_blks _ _ _ _ _ _ _ _ _ _ HP Hr Hl2 Ht). split.
    + intros [[? _]|Hc]; [done|]. exfalso. apply HD. eauto.
    + intros Hc. left. split; [done|]. intros Hrange. apply HD. eauto.
  - intros c b w Hc Hf HD Hw. eapply (splice_keep _ _ _ _ _ _ _ _ _ _ HP Hr Hm Hl2 Hchg); [exact Hc|done| |done].
    intros Hrange. apply HD. eauto.
Qed.

(** ** Writing header words *)

(** Header words are no link words. *)
Lemma hdr_not_link m h rs fr c b w :
  heap m h rs fr -> has_blk rs c b -> w = c \/ w = c + 4 -> ~ links (fun a => is_Some (fr !! a)) w.
Proof.
  intros HP Hc Hw Hl. apply (free_links _ _ _ _ HP) in Hl as (a & sz & Ha & Hr).
  pose proof (has_blk_disjoint _ _ _ _ HP _ _ _ _ Hc Ha) as Hd.
  apply (has_blk_ok _ _ _ _ HP) in Hc as [Hc%bok_nonneg _]. lia.
Qed.

Lemma links_mono (D E : Z -> Prop) w : links D w -> (forall a, D a -> E a) -> links E w.
Proof. intros (a & Ha & Hw) HDE. exists a. auto. Qed.

Section hdrs.
Context (m : gmap Z Z) (h : k_mm_head) (rs : list region) (fr : gmap Z Z) (HP : heap m h rs fr).

(** List operations do not touch them. *)
Lemma hdr_kept m1 c b w :
  mchg (links (fun c => is_Some (fr !! c))) m m1 -> has_blk rs c b -> w = c \/ w = c + 4 -> m1 !! w = m !! w.
Proof using HP. intros Hm Hc Hw. apply (mchg_eq _ _ _ Hm). intros Hl. exact (hdr_not_link _ _ _ _ _ _ _ HP Hc Hw Hl). Qed.

(** Writing one leaves the lists as they are. *)
Lemma flists_hdr m1 h1 fr1 FL1 c b w v :
  flists m1 h1 fr1 FL1 -> (forall c, is_Some (fr1 !! c) -> is_Some (fr !! c)) ->
  has_blk rs c b -> w = c \/ w = c + 4 -> flists (<[w := v]> m1) h1 fr1 FL1.
Proof using HP.
  intros F Hsub Hc Hw. eapply flists_frame; [exact F|]. intros u Hu. apply lookup_insert_ne. intros ->.
  eapply hdr_not_link; [exact HP|exact Hc|exact Hw|]. by eapply links_mono.
Qed.

(** So does writing inside a block that is on none of them. *)
Lemma flists_inside m1 h1 fr1 FL1 a b w v :
  flists m1 h1 fr1 FL1 -> (forall c, is_Some (fr1 !! c) -> is_Some (fr !! c) /\ c <> a) ->
  has_blk rs a b -> a <= w < a + blen b -> flists (<[w := v]> m1) h1 fr1 FL1.
Proof using HP.
  intros F Hsub Ha Hw. eapply flists_frame; [exact F|]. intros u (c & Hc & Hu). apply lookup_insert_ne. intros ->.
  destruct (Hsub c Hc) as [[k Hk] Hne]. apply (hp_free HP) in Hk.
  destruct (has_blk_disjoint _ _ _ _ HP _ _ _ _ Ha Hk) as [[? _]|Hd]; [done|].
  apply (has_blk_ok _ _ _ _ HP) in Hk as [[_ [Hk _]] _]. unfold blen in *. cbn in *. lia.
Qed.

End hdrs.

Lemma splice_new rs i r base l1 mid' l2 c b :
  rs !! i = Some r -> (c, b) ∈ addrs (base + tot l1) mid' -> has_blk (<[i := (base, l1 ++ mid' ++ l2)]> rs) c b.
Proof.
  intros Hr Hin. exists i, (base, l1 ++ mid' ++ l2). split.
  - apply list_lookup_insert_eq. eapply lookup_lt_Some, Hr.
  - cbn. rewrite !addrs_app, !elem_of_app. auto.
Qed.

Lemma kept_mono (D E : Z -> Prop) m rs m' rs' : kept D m rs m' rs' -> (forall c, D c -> E c) -> kept E m rs m' rs'.
Proof.
  intros [K1 K2 K3] HDE. split; [done|intros c b Hf Hc; apply K2; [done|naive_solver]|].
  intros c b w Hb Hf Hc. apply (K3 c b); [done|done|naive_solver].
Qed.
