(* ===== verification/MmFree.v ===== *)
(** * Freeing a block

    A block that is freed is joined with its free neighbours, put on the free list
    of the joined size, and its successor is told. *)

From S2P Require Import Prelude KErr Bitmap Mem MBlk Mm MmWord MmList MmLayout.
Local Open Scope Z_scope.

Section free.
Context (m0 : gmap Z Z) (h0 : k_mm_head) (rs : list region) (fr : gmap Z Z).
Context (i : nat) (base : Z) (l1 : list hblk) (sz : Z) (nb : hblk) (l2 : list hblk).
Context (HP : heap m0 h0 rs fr) (Hr : rs !! i = Some (base, l1 ++ Blk sz BUsed :: nb :: l2)).

Let a : Z := base + tot l1.
Let n : Z := a + 8 + sz.
Let pf : bool := is_pf (endpv base None l1).

(** The words written so far. *)
Definition fchg (x w : Z) : Prop :=
  links (fun c => is_Some (fr !! c)) w \/ w = x + 4 \/ w = a + 4 \/ w = n \/ w = n + 4.

Lemma free_blks : has_blk rs a (Blk sz BUsed) /\ has_blk rs n nb.
Proof using Hr.
  split; eexists i, _; (split; [exact Hr|]); cbn; rewrite addrs_app, elem_of_app; right; [left|].
  right. unfold n, a. rewrite <- Z.add_assoc. left.
Qed.

Lemma free_before : l1 <> [].
Proof using HP Hr. intros E. destruct (rg_shape (hp_region HP _ _ Hr)) as [mid Em]. cbn in Em. by rewrite E in Em. Qed.

Lemma free_tail b l : nb :: l2 = b :: l -> isf b = true -> l <> [].
Proof using HP Hr.
  intros [= <- <-] Hf E. destruct (rg_shape (hp_region HP _ _ Hr)) as [mid Em]. cbn in Em. rewrite E in Em.
  replace (l1 ++ [Blk sz BUsed; nb]) with ((l1 ++ [Blk sz BUsed]) ++ [nb]) in Em by (by rewrite <- app_assoc).
  rewrite app_comm_cons in Em. apply app_inj_tail in Em as [_ ->]. done.
Qed.

(** The state after a merge: [x] is the block so far, of [z] bytes, and the block behind it is
    the first of [l]. *)
Record merged (x z : Z) (pfx : bool) (l : list hblk) (s : hstate) : Prop := {
  mg_word : words s !! (x + 4) = Some (encw z true pfx);
  mg_lists : exists fr' FL', flists (words s) (mmhead s) fr' FL' /\
    forall c k, fr' !! c = Some k <-> fr !! c = Some k /\ ~ x <= c < x + 8 + z;
  mg_next : exists b l' pfe, l = b :: l' /\ isf b = false /\ has_blk rs (x + 8 + z) b /\
    words s !! (x + 8 + z + 4) = Some (encw (bsz b) false pfe);
  mg_chg : mchg (fchg x) m0 (words s)
}.

Lemma free_range : 32 <= sz /\ sz mod 8 = 0 /\ 0 < a /\ a mod 8 = 0 /\ sz < 2 ^ 24 /\ bok nb /\ bsz nb < 2 ^ 24.
Proof using HP Hr.
  destruct free_blks as [Ha Hn]. apply (has_blk_ok _ _ _ _ HP) in Ha as ([[? ?] ?] & ? & ? & ? & ?).
  apply (has_blk_ok _ _ _ _ HP) in Hn as (? & ? & ? & ? & ?). cbn in *. done.
Qed.

(** The block behind a free successor. *)
Lemma free_next2 b2 l3 :
  isf nb = true -> l2 = b2 :: l3 ->
  has_blk rs (n + blen nb) b2 /\ isf b2 = false /\ m0 !! (n + blen nb + 4) = Some (encw (bsz b2) false true).
Proof using HP Hr.
  intros Hf E. pose proof Hr as Hr'. rewrite E in Hr'. split.
  - eexists i, _. split; [exact Hr'|]. cbn. rewrite addrs_app, elem_of_app. right. do 2 right.
    unfold n, a. rewrite <- (Z.add_assoc _ 8 sz). left.
  - pose proof (rg_chain (hp_region HP _ _ Hr')) as Hc. cbn in Hc.
    apply chain_app in Hc as (_ & _ & _ & _ & _ & _ & _ & _ & Hw & Hp & _).
    unfold pvs in Hw, Hp. rewrite Hf in Hw, Hp. destruct (Hp _ eq_refl) as [_ Hb2]. rewrite Hb2 in Hw.
    split; [done|]. unfold n, a, blen in *. cbn in *. rewrite <- Hw. f_equal. lia.
Qed.

Lemma merge_next_spec s FL pfx (Q : unit -> hstate -> Prop) :
  words s !! (a + 4) = Some (encw sz true pf) ->
  words s !! (n + 4) = Some (encw (bsz nb) (isf nb) pfx) ->
  flists (words s) (mmhead s) fr FL -> mchg (fchg a) m0 (words s) ->
  (forall mn l s', nb :: l2 = mn ++ l -> Forall (fun b => isf b = true) mn -> merged a (sz + tot mn) pf l s' -> same_head s s' -> Q tt s') ->
  hwp (merge_next a) Q s.
Proof using HP Hr.
  intros Ha Hn F Hm HQ. destruct free_range as (Hsz & Hsz8 & Ha0 & Ha8 & Hszl & Hbok & Hnbl).
  destruct free_blks as [Hba Hbn]. pose proof (bok_nonneg _ Hbok) as [Hl8 _]. destruct Hbok as [Hsok Hbk].
  assert (size_ok sz) as Hso by (split; [lia|done]).
  unfold merge_next. hstep. apply (hwp_next_blk _ sz); [eexists; split; [exact Ha|by apply size_of_encw]|].
  hstep. eapply hwp_ld; [exact Hn|]. rewrite encw_free, negb_involutive by done.
  destruct (isf nb) eqn:Ef.
  - assert (fr !! n = Some (bsz nb)) as Hfn.
    { apply (hp_free HP). destruct nb as [z k]. cbn in *. by destruct k. }
    hstep. eapply hwp_mono.
    { eapply freelist_delete_spec; [exact F|exact Hfn|]. eexists. split; [exact Hn|by apply size_of_encw]. }
    intros _ s1 ([FL1 F1] & Hm1 & Hs1).
    assert (words s1 !! (n + 4) = Some (encw (bsz nb) true pfx)) as Hn1.
    { rewrite (mchg_eq _ _ _ Hm1); [exact Hn|]. eapply hdr_not_link; [exact HP|exact Hbn|auto]. }
    assert (words s1 !! (a + 4) = Some (encw sz true pf)) as Ha1.
    { rewrite (mchg_eq _ _ _ Hm1); [exact Ha|]. eapply hdr_not_link; [exact HP|exact Hba|auto]. }
    hstep. apply (hwp_blk_size _ (bsz nb)); [eexists; split; [exact Hn1|by apply size_of_encw]|unfold blen in *; lia|lia|].
    hstep. eapply hwp_ld; [exact Ha1|]. rewrite encw_add by (unfold blen in *; lia).
    apply hwp_st; [eauto|]. destruct (cons_of_ne l2 (free_tail nb l2 eq_refl Ef)) as (b2 & l3 & E2).
    destruct (free_next2 b2 l3 Ef E2) as (Hb2 & Hf2 & Hw2).
    apply (HQ [nb] l2); [done|by apply Forall_singleton| |done]. cbn [tot]. rewrite Z.add_0_r. fold a n. unfold n in *. split; cbn [words set_words mmhead].
    + blk_words. rewrite lookup_insert_eq. unfold blen. do 2 f_equal. lia.
    + exists (delete n fr), FL1. unfold n. split.
      * eapply (flists_hdr _ _ _ _ HP); [exact F1| |exact Hba|by right]. intros c. rewrite lookup_delete_is_Some. tauto.
      * intros c k. rewrite lookup_delete_Some. split; [intros [Hne Hc]|intros [Hc Hout]].
        -- split; [done|]. intros Hin. destruct (decide (c < n)).
           ++ destruct (free_in_blk _ _ _ _ HP _ _ _ _ Hba Hc) as [_ [=]]. unfold n, blen in *. cbn. lia.
           ++ destruct (free_in_blk _ _ _ _ HP _ _ _ _ Hbn Hc) as [-> _]; [unfold n in *; lia|done].
        -- split; [|done]. intros <-. lia.
    + exists b2, l3, true. split; [done|]. split; [done|].
      split; [replace (a + 8 + (sz + blen nb)) with (n + blen nb) by (unfold n; lia); done|]. blk_words.
      rewrite lookup_insert_ne by lia. rewrite (mchg_eq _ _ _ Hm1).
      * rewrite (mchg_eq _ _ _ Hm); [rewrite <- Hw2; f_equal; unfold n; lia|].
        intros [Hl|Hw]; [|unfold n, blen in *; lia]. eapply hdr_not_link; [exact HP|exact Hb2| |exact Hl]. unfold n. lia.
      * intros Hl. eapply hdr_not_link; [exact HP|exact Hb2| |exact Hl]. unfold n. lia.
    + eapply mchg_trans; [exact Hm|]. eapply mchg_trans.
      * eapply mchg_mono; [exact Hm1|]. intros w Hw. by left.
      * apply mchg_insert; [eauto|]. right. by left.
  - apply hwp_ret. apply (HQ [] (nb :: l2)); [done|done| |done]. cbn. rewrite Z.add_0_r. split.
    + done.
    + exists fr, FL. split; [done|]. intros c k. split; [|naive_solver]. intros Hc. split; [done|].
      intros Hin. destruct (free_in_blk _ _ _ _ HP _ _ _ _ Hba Hc) as [_ [=]]. unfold blen. cbn. lia.
    + exists nb, l2, pfx. split; [done|]. split; [done|]. split; [exact Hbn|exact Hn].
    + done.
Qed.

(** A free block before the one freed. *)
Lemma free_prev p :
  endpv base None l1 = Some p ->
  exists l1' pb, l1 = l1' ++ [pb] /\ isf pb = true /\ p = base + tot l1' /\ endpv base None l1' = None /\
    has_blk rs p pb /\ a = p + blen pb /\ m0 !! a = Some p /\ m0 !! (p + 4) = Some (encw (bsz pb) true false).
Proof using HP Hr.
  intros Hp. destruct (endpv_Some _ _ _ Hp) as (l1' & pb & E & Hf & ->). exists l1', pb.
  pose proof (rg_chain (hp_region HP _ _ Hr)) as Hc. cbn in Hc.
  apply chain_app in Hc as (Hc1 & _ & _ & Hpa & _). rewrite E in Hc1. apply chain_app in Hc1 as (_ & _ & Hw & Hpp & _).
  assert (endpv base None l1' = None) as Hn.
  { destruct (endpv base None l1') as [q|]; [|done]. destruct (Hpp q eq_refl). congruence. }
  rewrite Hf, Hn in Hw. do 4 (split; [done|]). split; [|split; [|split; [by apply Hpa|done]]].
  - eexists i, _. split; [exact Hr|]. cbn. rewrite E, !addrs_app, !elem_of_app. left. right. left.
  - unfold a. rewrite E, tot_app. cbn. lia.
Qed.

Lemma merge_prev_spec s z l (Q : Z -> hstate -> Prop) :
  merged a z pf l s -> sz <= z -> z mod 8 = 0 -> z < 2 ^ 24 ->
  (forall l1' lp s', l1 = l1' ++ lp -> Forall (fun b => isf b = true) lp -> endpv base None l1' = None ->
     merged (base + tot l1') (tot lp + z) false l s' -> same_head s s' -> Q (base + tot l1') s') ->
  hwp (merge_prev a) Q s.
Proof using HP Hr.
  intros [Ha (fr1 & FL1 & F & Hfr1) Hnx Hm] Hz Hz8 Hzl HQ. destruct free_range as (Hsz & Hsz8 & Ha0 & Ha8 & Hszl & _).
  destruct free_blks as [Hba Hbn]. assert (size_ok z) as Hzo by (split; [lia|done]).
  unfold merge_prev. hstep. eapply hwp_ld; [exact Ha|]. rewrite encw_prevfree, negb_involutive by done.
  destruct pf eqn:Epf.
  - assert (exists p, endpv base None l1 = Some p) as [p Hp].
    { unfold pf in Epf. destruct (endpv base None l1); [eauto|done]. }
    destruct (free_prev p Hp) as (l1' & pb & E & Hf & Ep & Hn & Hbp & Eap & Hma & Hmp).
    destruct (has_blk_ok _ _ _ _ HP _ _ Hbp) as ([Hps Hpk] & Hp0 & Hp8 & Hpl & _ & _). unfold blen in Eap.
    assert (free_size (bsz pb)) as Hpf by (unfold isf in Hf; by destruct (bkd pb)). destruct Hpf as [Hpf _].
    assert (fr !! p = Some (bsz pb)) as Hfp.
    { apply (hp_free HP). destruct pb as [zb kb]. cbn in *. by destruct kb. }
    assert (forall w, w = p \/ w = p + 4 \/ w = a -> words s !! w = m0 !! w) as Hk.
    { intros w Hw. apply (mchg_eq _ _ _ Hm). intros [Hl|Hw']; [|unfold n in *; lia].
      destruct Hw as [Hw|[Hw|Hw]];
        [exact (hdr_not_link _ _ _ _ _ _ _ HP Hbp (or_introl Hw) Hl)
        |exact (hdr_not_link _ _ _ _ _ _ _ HP Hbp (or_intror Hw) Hl)
        |exact (hdr_not_link _ _ _ _ _ _ _ HP Hba (or_introl Hw) Hl)]. }
    hstep. eapply hwp_ld; [rewrite Hk by auto; exact Hma|].
    hstep. eapply hwp_mono.
    { eapply freelist_delete_spec; [exact F|apply Hfr1; split; [exact Hfp|lia]|].
      eexists. split; [rewrite Hk by auto; exact Hmp|by apply size_of_encw]. }
    intros _ s1 ([FL2 F2] & Hm1 & Hs1).
    assert (forall w, w = p + 4 \/ w = a + 4 \/ w = a + 8 + z + 4 -> words s1 !! w = words s !! w) as Hk1.
    { intros w Hw. apply (mchg_eq _ _ _ Hm1). intros Hl. apply (links_mono _ (fun c => is_Some (fr !! c))) in Hl.
      2:{ intros c [k Hc]. apply Hfr1 in Hc as [? _]. eauto. }
      destruct Hw as [Hw|[Hw|Hw]];
        [exact (hdr_not_link _ _ _ _ _ _ _ HP Hbp (or_intror Hw) Hl)
        |exact (hdr_not_link _ _ _ _ _ _ _ HP Hba (or_intror Hw) Hl)|].
      destruct Hnx as (b & l' & pfe & _ & _ & Hbe & _).
      exact (hdr_not_link _ _ _ _ _ _ _ HP Hbe (or_intror Hw) Hl). }
    hstep. apply (hwp_blk_size _ z); [|lia|lia|].
    { eexists. split; [rewrite Hk1 by auto; exact Ha|by apply size_of_encw]. }
    hstep. eapply hwp_ld; [rewrite Hk1, Hk by auto; exact Hmp|]. rewrite encw_add by lia.
    hstep. apply hwp_st; [rewrite Hk1, Hk by auto; eauto|]. apply hwp_ret. rewrite Ep.
    apply (HQ l1' [pb]); [done|by apply Forall_singleton|done| |done]. rewrite <- Ep. cbn [tot]. unfold blen. rewrite Z.add_0_r.
    split; cbn [words set_words mmhead].
    + blk_words. rewrite lookup_insert_eq. do 2 f_equal. lia.
    + exists (delete p fr1), FL2. split.
      * eapply (flists_hdr _ _ _ _ HP); [exact F2| |exact Hbp|by right].
        intros c. rewrite lookup_delete_is_Some. intros [_ [k Hc]]. apply Hfr1 in Hc as [? _]. eauto.
      * intros c k. rewrite lookup_delete_Some, Hfr1. split; [intros (Hne & Hc & Hout)|intros [Hc Hout]].
        -- split; [done|]. intros Hin.
           destruct (free_in_blk _ _ _ _ HP _ _ _ _ Hbp Hc) as [-> _]; [unfold blen in *; lia|done].
        -- split; [|split; [done|lia]]. intros <-. lia.
    + destruct Hnx as (b & l' & pfe & El & Hfb & Hbe & Hw). exists b, l', pfe. split; [done|]. split; [done|]. blk_words.
      rewrite lookup_insert_ne by lia. replace (p + 8 + (8 + bsz pb + z)) with (a + 8 + z) by lia.
      split; [done|]. by rewrite Hk1 by auto.
    + eapply mchg_trans; [eapply mchg_mono; [exact Hm|]|eapply mchg_trans].
      * intros w. unfold fchg. tauto.
      * eapply mchg_mono; [exact Hm1|]. intros w Hw. left. eapply links_mono; [exact Hw|].
        intros c [k Hc]. apply Hfr1 in Hc as [? _]. eauto.
      * apply mchg_insert; [rewrite Hk1, Hk by auto; eauto|]. right. by left.
  - apply hwp_ret. unfold a. apply (HQ l1 []); [by rewrite app_nil_r|done| | |done].
    + unfold pf in Epf. by destruct (endpv base None l1).
    + split; [exact Ha|exists fr1, FL1; by split|exact Hnx|exact Hm].
Qed.

(** The freed block once it is merged: put on its list, and its successor told. *)
Lemma free_finish l1' lp mn l s :
  l1 = l1' ++ lp -> nb :: l2 = mn ++ l -> endpv base None l1' = None -> l1' <> [] ->
  let x := base + tot l1' in let z := tot lp + (sz + tot mn) in
  merged x z false l s ->
  hwp (k_mm_freelist_insert x;;
       next_b ← MM_GET_NEXT_BLK x;
       st (blk_prev next_b) x;;
       w ← ld (blk_buf_size next_b);
       st (blk_buf_size next_b) (Z.lor w RHINO_MM_PREVFREE)) (fun _ s' =>
    (exists fr', heap (words s') (mmhead s') (<[i := (base, l1' ++ [Blk z BFree] ++ l)]> rs) fr') /\
    mchg (touch fr x (x + 8 + z)) m0 (words s') /\ same_head s s') s.
Proof using HP Hr.
  intros E1 E2 Hpv Hne x z [Hw (fr3 & FL3 & F & Hfr3) (b & l' & pfe & El & Hfb & Hbe & Hwe) Hm].
  destruct free_range as (Hsz & Hsz8 & Ha0 & Ha8 & Hszl & _). destruct free_blks as [Hba Hbn].
  pose proof (hp_region HP _ _ Hr) as R. pose proof (rg_tot R) as Rt. pose proof (rg_base R) as Rb. pose proof (rg_map R) as Rm.
  pose proof (region_boks _ _ _ _ HP _ _ Hr) as Hbs. cbn in *.
  rewrite E1, E2, !tot_app in Rt, Rm. cbn [tot] in Rt, Rm. rewrite !tot_app in Rt, Rm. rewrite E1, E2, !Forall_app in Hbs.
  rewrite Forall_cons, Forall_app in Hbs. destruct Hbs as [[Hb1 Hb2] (_ & Hb3 & Hb4)].
  apply tot_nonneg in Hb1, Hb2, Hb3. assert (8 <= tot l).
  { rewrite El in Hb4 |- *. apply Forall_cons in Hb4 as [?%bok_nonneg ?%tot_nonneg]. cbn. lia. }
  assert (free_size z) as Hfz by (unfold free_size, z; unfold blen in Rt; cbn in Rt; adr).
  pose proof (free_size_ok _ Hfz) as Hzo.
  assert (a = x + tot lp) as Eax by (unfold a, x; rewrite E1, tot_app; lia).
  assert (forall w, x <= w < x + 8 + z + 8 -> w mod 4 = 0 -> is_Some (words s !! w)) as Hmap.
  { intros w Hin Hal. apply (mchg_dom _ _ _ Hm), Rm; [|done]. unfold blen, x, z in *. cbn in *. lia. }
  hstep. eapply hwp_mono.
  { eapply (freelist_insert_spec fr3 FL3 x z); [exact F| |done|unfold x; adr|unfold x; lia| | |].
    - destruct (fr3 !! x) as [k|] eqn:Ek; [|done]. apply Hfr3 in Ek as [_ []]. destruct Hfz. lia.
    - eexists. split; [exact Hw|by apply size_of_encw].
    - apply Hmap; [destruct Hfz; lia|unfold x; adr].
    - apply Hmap; [destruct Hfz; lia|unfold x; adr]. }
  intros _ s1 ([FL4 F4] & Hm1 & Hs1). set (e := x + 8 + z) in *.
  set (mid := lp ++ Blk sz BUsed :: mn).
  assert (rs !! i = Some (base, l1' ++ mid ++ l)) as Hr'.
  { rewrite Hr, E1, E2. unfold mid. by rewrite <- !app_assoc. }
  assert (mid <> []) as Hmne by (unfold mid; by destruct lp). assert (l <> []) as Hlne by (by rewrite El).
  assert (tot mid = 8 + z) as Htm by (unfold mid, z; rewrite tot_app; cbn; unfold blen; cbn; lia).
  destruct (splice_ends _ _ _ _ _ _ _ _ _ HP Hr' Hmne Hlne) as ([bx Hbx] & _ & _). fold x in Hbx.
  assert (forall w, links (fun c => is_Some (fr3 !! c)) w -> links (fun c => is_Some (fr !! c)) w) as Hlk.
  { intros w Hl. eapply links_mono; [exact Hl|]. intros c [k Hc]. apply Hfr3 in Hc as [? _]. eauto. }
  assert (forall w, w = e \/ w = e + 4 \/ w = x + 4 -> words s1 !! w = words s !! w) as Hk.
  { intros w Hin. apply (mchg_eq _ _ _ Hm1). intros (c & [->|Hc] & Hwc); [unfold e in *; destruct Hfz; lia|].
    assert (links (fun c => is_Some (fr !! c)) w) as Hl by (apply Hlk; exists c; done).
    destruct Hin as [Hin|[Hin|Hin]];
      [exact (hdr_not_link _ _ _ _ _ _ _ HP Hbe (or_introl Hin) Hl)
      |exact (hdr_not_link _ _ _ _ _ _ _ HP Hbe (or_intror Hin) Hl)
      |exact (hdr_not_link _ _ _ _ _ _ _ HP Hbx (or_intror Hin) Hl)]. }
  hstep. apply (hwp_next_blk _ z); [eexists; split; [rewrite Hk by auto; exact Hw|by apply size_of_encw]|]. fold e.
  hstep. apply hwp_st; [blk_words; rewrite Hk by auto; apply Hmap; [lia|unfold e, x; destruct Hfz; adr]|].
  hstep. eapply hwp_ld; [cbn; blk_words; rewrite lookup_insert_ne, Hk by lia; exact Hwe|].
  rewrite encw_set_prevfree by (apply (has_blk_ok _ _ _ _ HP) in Hbe as [[? _] _]; done).
  apply hwp_st; [cbn; blk_words; rewrite lookup_insert_ne, Hk by lia; eauto|].
  cbn [words set_words mmhead]. blk_words. set (m' := <[e + 4 := _]> (<[e := x]> (words s1))).
  assert (mchg (touch fr x (x + tot mid)) m0 m') as Hmm.
  { rewrite Htm, Z.add_assoc. fold e. eapply mchg_trans; [eapply mchg_mono; [exact Hm|]|].
    { intros w [Hl|Hin]; [by right|]. left. unfold n, e, z in *. lia. }
    eapply mchg_trans; [eapply mchg_mono; [exact Hm1|]|].
    { intros w (c & [->|Hc] & Hwc); [left; unfold e; destruct Hfz; lia|]. right. apply Hlk. exists c. done. }
    eapply mchg_trans; apply mchg_insert; try (left; lia).
    - rewrite Hk by auto. apply Hmap; [lia|unfold e, x; destruct Hfz; adr].
    - rewrite lookup_insert_ne, Hk by lia. eauto. }
  split; [|split; [rewrite Htm, Z.add_assoc in Hmm; exact Hmm|exact Hs1]].
  exists (<[x := z]> fr3). eapply (splice_heap m0 m' h0 rs fr i base l1' mid [Blk z BFree] l HP Hr'); [done..| |exact Hmm| | |].
  - cbn. unfold blen. cbn. lia.
  - rewrite Hpv. cbn. split; [split; [done|exact Hfz]|]. split.
    { unfold m'. rewrite !lookup_insert_ne, Hk by (unfold e; destruct Hfz; lia). exact Hw. }
    split; [done|]. replace (base + tot l1' + blen _) with (x + tot mid) by (unfold blen, x; cbn; lia).
    eapply (splice_tail m0 m' h0 rs fr i base l1' mid l HP Hr' Hmne Hlne Hmm b l' _ El).
    + rewrite Htm, Z.add_assoc. fold x e. unfold m'. rewrite lookup_insert_eq, Hfb. done.
    + rewrite Htm, Z.add_assoc. fold x e. intros p [= <-]. unfold m'. rewrite lookup_insert_ne, lookup_insert_eq by lia. done.
  - intros c k. rewrite lookup_insert_Some, Hfr3. fold x. rewrite Htm, Z.add_assoc. fold e. cbn. rewrite list_elem_of_singleton. split.
    + intros [[<- <-]|(Hne' & Hc)]; [by right|by left].
    + intros [[Hc Hout]|[= -> ->]]; [|by left]. right. split; [|done]. intros ->. destruct Hfz. lia.
  - exists FL4. eapply flists_frame; [exact F4|]. intros w Hl. unfold m'.
    assert (w <> e /\ w <> e + 4) as [? ?]; [|by rewrite !lookup_insert_ne].
    destruct Hl as (c & Hc & Hwc). apply lookup_insert_is_Some in Hc as [->|[_ Hc]]; [unfold e; destruct Hfz; lia|].
    assert (links (fun c => is_Some (fr !! c)) w) as Hl by (apply Hlk; exists c; done).
    split; intros Hin; [exact (hdr_not_link _ _ _ _ _ _ _ HP Hbe (or_introl Hin) Hl)
                       |exact (hdr_not_link _ _ _ _ _ _ _ HP Hbe (or_intror Hin) Hl)].
Qed.

(** The run that is replaced holds no other block in use. *)
Lemma free_only lp mn z c :
  Forall (fun b => isf b = true) lp -> Forall (fun b => isf b = true) mn ->
  (exists b, isf b = false /\ ((c, b) ∈ addrs (a - tot lp) (lp ++ Blk sz BUsed :: mn) \/
                               (c, b) ∈ addrs (a - tot lp) [Blk z BFree])) -> c = a.
Proof using Type.
  intros Hlp Hmn (b & Hb & [Hin|Hin]).
  - apply addrs_split in Hin as (k1 & k2 & E & ->). rewrite Forall_forall in Hlp, Hmn.
    apply app_eq_inv in E as [(k & -> & E)|(k & -> & E)].
    + destruct k as [|b' k]; [cbn in E; injection E as -> <-; rewrite app_nil_r; lia|].
      injection E as -> ->. rewrite (Hlp b') in Hb; [done|]. apply elem_of_app. right. left.
    + destruct k as [|b' k]; [cbn in E; injection E as <- <-; rewrite app_nil_r; lia|].
      injection E as <- ->. rewrite (Hmn b) in Hb; [done|]. apply elem_of_app. right. left.
  - cbn in Hin. apply list_elem_of_singleton in Hin as [= -> ->]. done.
Qed.

Lemma free_first l1' lp : l1 = l1' ++ lp -> Forall (fun b => isf b = true) lp -> l1' <> [].
Proof using HP Hr.
  intros E Hlp ->. destruct (rg_shape (hp_region HP _ _ Hr)) as [mid Em]. cbn in Em, E.
  pose proof free_before as Hne. rewrite E in Em, Hne. destruct lp as [|b lp]; [done|].
  injection Em as -> _. apply Forall_cons in Hlp as [? _]. done.
Qed.

Lemma free_sizes mn l : nb :: l2 = mn ++ l -> 0 <= tot mn /\ tot mn mod 8 = 0 /\ sz + tot mn < 2 ^ 24.
Proof using HP Hr.
  intros E. pose proof (rg_tot (hp_region HP _ _ Hr)) as [Rt _]. pose proof (region_boks _ _ _ _ HP _ _ Hr) as Hb. cbn in *.
  rewrite E in *. rewrite !tot_app in Rt. cbn in Rt. rewrite tot_app in Rt.
  apply Forall_app in Hb as [?%tot_nonneg [_ [?%tot_nonneg ?%tot_nonneg]%Forall_app]%Forall_cons]. unfold blen in Rt. cbn in Rt. lia.
Qed.

Lemma free_blk_spec s pfx :
  mmhead s = h0 -> mchg (fun w => w = n \/ w = n + 4) m0 (words s) ->
  words s !! (n + 4) = Some (encw (bsz nb) (isf nb) pfx) ->
  hwp (k_mm_free_blk (a + 8)) (fun _ s' => exists rs' fr',
    heap (words s') (mmhead s') rs' fr' /\ kept (fun c => c = a) m0 rs (words s') rs' /\
    (forall b, isf b = false -> ~ has_blk rs' a b) /\ same_head s s') s.
Proof using HP Hr.
  intros Hh Hm Hn. destruct free_range as (Hsz & Hsz8 & Ha0 & Ha8 & Hszl & Hnb & _). destruct free_blks as [Hba Hbn].
  destruct (hp_lists HP) as [FL F].
  assert (m0 !! (a + 4) = Some (encw sz false pf)) as Hwa.
  { pose proof (rg_chain (hp_region HP _ _ Hr)) as Hc. cbn in Hc. apply chain_app in Hc as (_ & _ & Hw & _). exact Hw. }
  unfold k_mm_free_blk, MM_GET_THIS_BLK. change MMLIST_HEAD_SIZE with 8. replace (a + 8 - 8) with a by lia. cbv zeta.
  hstep. eapply hwp_ld; [blk_words; rewrite (mchg_eq _ _ _ Hm); [exact Hwa|unfold n; lia]|].
  rewrite encw_set_free by (split; [lia|done]). hstep.
  apply hwp_st; [blk_words; rewrite (mchg_eq _ _ _ Hm); [eauto|unfold n; lia]|]. blk_words. hstep.
  eapply merge_next_spec.
  { cbn. apply lookup_insert_eq. }
  { cbn. rewrite lookup_insert_ne by (unfold n; lia). exact Hn. }
  { cbn. rewrite Hh. eapply flists_frame; [exact F|]. intros w Hl.
    rewrite lookup_insert_ne by (intros E; exact (hdr_not_link _ _ _ _ _ _ _ HP Hba (or_intror (eq_sym E)) Hl)).
    apply (mchg_eq _ _ _ Hm). intros Hw. exact (hdr_not_link _ _ _ _ _ _ _ HP Hbn Hw Hl). }
  { cbn. eapply mchg_trans; [eapply mchg_mono; [exact Hm|]|].
    - intros w Hw. unfold fchg. tauto.
    - apply mchg_insert; [rewrite (mchg_eq _ _ _ Hm); [eauto|unfold n; lia]|]. right. by left. }
  intros mn l s1 El Hmn M1 Hs1. destruct (free_sizes _ _ El) as (Ht0 & Ht8 & Htl). hstep.
  eapply merge_prev_spec; [exact M1|lia|adr|lia|]. intros l1' lp s2 El1 Hlp Hpv M2 Hs2.
  pose proof (free_first _ _ El1 Hlp) as Hne.
  eapply hwp_mono; [by apply (free_finish l1' lp mn l)|]. intros _ s3 ([fr' HP'] & Hm3 & Hs3). cbv zeta in *.
  set (z := tot lp + (sz + tot mn)) in *.
  assert (rs !! i = Some (base, l1' ++ (lp ++ Blk sz BUsed :: mn) ++ l)) as Hr'.
  { rewrite Hr, El1, El. by rewrite <- !app_assoc. }
  assert (tot (lp ++ Blk sz BUsed :: mn) = 8 + z) as Ht by (rewrite tot_app; cbn; unfold blen, z; cbn; lia).
  assert (base + tot l1' = a - tot lp) as Ea by (unfold a; rewrite El1, tot_app; lia).
  assert (lp ++ Blk sz BUsed :: mn <> []) as Hmne by (by destruct lp).
  assert (l <> []) as Hlne. { destruct (mg_next _ _ _ _ _ M2) as (? & ? & ? & -> & _). done. }
  eexists _, fr'. split; [exact HP'|]. split; [|split].
  - destruct (splice_kept m0 (words s3) h0 rs fr i base l1' _ [Blk z BFree] l HP Hr' Hmne Hlne) as [K1 K2 K3].
    { cbn. unfold blen. cbn. lia. } { rewrite Ht, Z.add_assoc. exact Hm3. }
    rewrite Ea in K2, K3. split; [done| |].
    + intros c b Hf Hc. apply K2; [done|]. intros Hin. by apply Hc, (free_only lp mn z).
    + intros c b w Hcb Hf Hc. apply (K3 c b); [done|done|]. intros Hin. by apply Hc, (free_only lp mn z).
  - intros b Hf Hab. apply (splice_blks m0 h0 rs fr i base l1' _ [Blk z BFree] l HP Hr' Hlne) in Hab.
    2:{ cbn. unfold blen. cbn. lia. }
    destruct Hab as [[_ Hout]|Hin].
    + rewrite Ea, Ht in Hout. destruct (splice_boks _ _ _ _ _ _ _ _ _ HP Hr') as (_ & [?%tot_nonneg _]%Forall_app & _).
      apply Hout. unfold z. lia.
    + cbn in Hin. apply list_elem_of_singleton in Hin as [= _ ->]. done.
  - eapply same_head_trans; [exact Hs1|]. by eapply same_head_trans.
Qed.
End free.
