(* ===== verification/MmAlloc.v ===== *)
(** * Taking and resizing blocks

    A run of blocks becomes one block in use, with what is left over split off as
    a free block when it is large enough: the common shape of an allocation and of
    resizing in place. *)

From S2P Require Import Prelude KErr Bitmap Mem MBlk Mm MmWord MmList MmLayout MmFree.
Local Open Scope Z_scope.

Section used.
Context (m m' : gmap Z Z) (h h' : k_mm_head) (rs : list region) (fr fr' : gmap Z Z).
Context (i : nat) (base : Z) (l1 mid : list hblk) (b : hblk) (l : list hblk).
Context (HP : heap m h rs fr) (Hr : rs !! i = Some (base, l1 ++ mid ++ b :: l)).
Context (Hne1 : l1 <> []) (Hnem : mid <> []).

Let x : Z := base + tot l1.
Let e : Z := x + tot mid.

Context (Hm : mchg (touch fr x e) m m').
Context (Hpv : forall p, endpv base None l1 = Some p -> m' !! x = Some p).
Context (Hfl : exists FL, flists m' h' fr' FL).

(** The run becomes one block in use. *)
Lemma used_one z :
  32 <= z -> size_ok z -> tot mid = 8 + z ->
  m' !! (x + 4) = Some (encw z false (is_pf (endpv base None l1))) ->
  m' !! (e + 4) = Some (encw (bsz b) (isf b) false) ->
  (forall c k, fr' !! c = Some k <-> fr !! c = Some k /\ ~ x <= c < e) ->
  heap m' h' (<[i := (base, l1 ++ [Blk z BUsed] ++ b :: l)]> rs) fr'.
Proof using HP Hr Hne1 Hnem Hm Hpv Hfl.
  intros Hz Hzo Ht Hx He Hfr.
  eapply (splice_heap m m' h rs fr i base l1 mid [Blk z BUsed] (b :: l) HP Hr Hne1 Hnem); [done| |exact Hm| | |exact Hfl].
  - cbn. unfold blen. cbn. lia.
  - cbn [app chain]. split; [done|]. split; [exact Hx|]. split; [intros p Hp; split; [by apply Hpv|done]|].
    replace (base + tot l1 + blen _) with e by (unfold e, x; rewrite Ht; done).
    by eapply (splice_tail m m' h rs fr i base l1 mid (b :: l) HP Hr Hnem ltac:(done) Hm b l).
  - intros c k. rewrite Hfr. fold x. fold e. cbn. rewrite list_elem_of_singleton. split; [by left|]. by intros [|[=]].
Qed.

(** The run becomes a block in use and a free one. *)
Lemma used_two z r :
  32 <= z -> size_ok z -> free_size r -> tot mid = 8 + z + (8 + r) -> isf b = false ->
  let y := x + 8 + z in
  m' !! (x + 4) = Some (encw z false (is_pf (endpv base None l1))) ->
  m' !! (y + 4) = Some (encw r true false) ->
  m' !! e = Some y -> m' !! (e + 4) = Some (encw (bsz b) false true) ->
  (forall c k, fr' !! c = Some k <-> (fr !! c = Some k /\ ~ x <= c < e) \/ (c = y /\ k = r)) ->
  heap m' h' (<[i := (base, l1 ++ [Blk z BUsed; Blk r BFree] ++ b :: l)]> rs) fr'.
Proof using HP Hr Hne1 Hnem Hm Hpv Hfl.
  intros Hz Hzo Hro Ht Hb y Hx Hy He He4 Hfr.
  assert (base + tot l1 + blen (Blk z BUsed) = y) as Ey by (unfold y, x, blen; cbn; lia).
  eapply (splice_heap m m' h rs fr i base l1 mid [Blk z BUsed; Blk r BFree] (b :: l) HP Hr Hne1 Hnem);
    [done| |exact Hm| | |exact Hfl].
  - cbn. unfold blen. cbn. lia.
  - cbn [app]. cbn [chain]. rewrite Ey. split; [done|]. split; [exact Hx|]. split; [intros p Hp; split; [by apply Hpv|done]|].
    split; [by split; [apply free_size_ok|]|]. split; [exact Hy|]. split; [done|].
    replace (y + blen _) with e by (unfold e, y; rewrite Ht; unfold blen; cbn; lia).
    eapply (splice_tail m m' h rs fr i base l1 mid (b :: l) HP Hr Hnem ltac:(done) Hm b l); [done| |].
    + rewrite Hb. exact He4.
    + intros p [= <-]. done.
  - intros c k. rewrite Hfr. fold x. fold e. cbn. rewrite elem_of_cons, list_elem_of_singleton.
    fold x. replace (x + blen _) with y by (unfold y, blen; cbn; lia). split.
    + intros [|[-> ->]]; [by left|]. right. by right.
    + intros [|[[=]|[= -> ->]]]; [by left|]. by right.
Qed.

End used.

(** A block that is not the heap's own has neighbours on both sides. *)
Lemma inner_split m h rs fr a b :
  heap m h rs fr -> has_blk rs a b -> bkd b <> BSys ->
  exists i base l1 nb l2, rs !! i = Some (base, l1 ++ b :: nb :: l2) /\ l1 <> [] /\ a = base + tot l1.
Proof.
  intros HP (i & base & l1 & l2 & Hr & ->)%has_blk_split Hk.
  destruct (rg_shape (hp_region HP _ _ Hr)) as [mid E]. cbn in E.
  assert (l1 <> []) as Hl1. { intros ->. injection E as -> _. done. }
  destruct l2 as [|nb l2]; [|by exists i, base, l1, nb, l2].
  rewrite app_comm_cons in E. apply app_inj_tail in E as [_ ->]. done.
Qed.

(** The surroundings of a free block. *)
Lemma free_nbrs m h rs fr i base l1 sz nb l2 :
  heap m h rs fr -> rs !! i = Some (base, l1 ++ Blk sz BFree :: nb :: l2) ->
  let a := base + tot l1 in let n := a + 8 + sz in
  endpv base None l1 = None /\ isf nb = false /\ has_blk rs a (Blk sz BFree) /\ has_blk rs n nb /\
  m !! (a + 4) = Some (encw sz true false) /\ m !! (n + 4) = Some (encw (bsz nb) false true) /\ m !! n = Some a.
Proof.
  intros HP Hr a n. pose proof (rg_chain (hp_region HP _ _ Hr)) as Hc. cbn in Hc.
  apply chain_app in Hc as (_ & _ & Hw & Hp & _ & Hn & Hpn & _). cbn in *. unfold blen in *. cbn in *.
  rewrite Z.add_assoc in Hn, Hpn. fold a in Hw, Hn, Hpn. fold n in Hn, Hpn.
  destruct (Hpn _ eq_refl) as [Hna Hnf]. rewrite Hnf in Hn.
  assert (endpv base None l1 = None) as E. { destruct (endpv base None l1) as [p|]; [|done]. by destruct (Hp p eq_refl). }
  rewrite E in Hw. do 2 (split; [done|]). split; [|split; [|done]].
  - eexists i, _. split; [exact Hr|]. cbn. rewrite addrs_app, elem_of_app. right. left.
  - eexists i, _. split; [exact Hr|]. cbn. rewrite addrs_app, elem_of_app. right. right.
    unfold n, a. rewrite <- (Z.add_assoc _ 8). left.
Qed.

Lemma split_guard z : free_size z -> u32 (z + MMLIST_HEAD_SIZE + MM_MIN_SIZE) = z + 40.
Proof.
  intros [? _]. change MMLIST_HEAD_SIZE with 8. change MM_MIN_SIZE with 32. unfold u32. rewrite wrap_small; lia.
Qed.

(** Cutting a block down to [new] bytes. *)
Lemma carve_spec a e zz f pf new sz s :
  words s !! (a + 4) = Some (encw zz f pf) -> size_ok zz -> size_ok new -> free_size (sz - new - 8) ->
  let y := a + 8 + new in
  is_Some (words s !! y) -> is_Some (words s !! (y + 4)) -> is_Some (words s !! e) ->
  hwp (carve a e new sz) (fun r s' => r = y /\
    s' = set_words (<[e := y]> (<[y + 4 := encw (sz - new - 8) true false]> (<[y := a]>
           (<[a + 4 := encw new false pf]> (words s))))) s) s.
Proof.
  intros Hw Hz Hn Hl y Hy Hy4 He. unfold carve. change MMLIST_HEAD_SIZE with 8.
  assert (u32 (sz - new - 8) = sz - new - 8) as -> by (destruct Hl; apply wrap_small; lia). cbv zeta.
  hstep. eapply hwp_ld; [exact Hw|]. rewrite encw_resize by done. hstep. apply hwp_st; [eauto|]. hstep.
  apply (hwp_next_blk _ new); [eexists; split; [apply lookup_insert_eq|by apply size_of_encw]|]. fold y.
  hstep. apply hwp_st; [cbn; blk_words; apply lookup_insert_is_Some'; by right|].
  hstep. rewrite encw_new_free by (by apply free_size_ok).
  apply hwp_st; [cbn; blk_words; rewrite !lookup_insert_is_Some'; auto|].
  hstep. apply hwp_st; [cbn; blk_words; rewrite !lookup_insert_is_Some'; auto|]. by apply hwp_ret.
Qed.

(** The lists that hold none of the blocks of a run do not depend on its words. *)
Section run.
Context (m : gmap Z Z) (h : k_mm_head) (rs : list region) (fr fr1 : gmap Z Z).
Context (i : nat) (base : Z) (l1 mid : list hblk) (nb : hblk) (l2 : list hblk).
Context (HP : heap m h rs fr) (Hr : rs !! i = Some (base, l1 ++ mid ++ nb :: l2)) (Hmid : mid <> []).

Let x : Z := base + tot l1.
Let e : Z := x + tot mid.

Lemma run_first : exists b, has_blk rs x b.
Proof using Hr Hmid.
  destruct (cons_of_ne _ Hmid) as (b & l & E). exists b. apply (splice_inner _ _ _ _ _ _ Hr). rewrite E. left.
Qed.

Lemma run_range m1 :
  mchg (touch fr x e) m m1 -> 0 < x /\ x mod 8 = 0 /\ forall w, x <= w < e + 8 -> w mod 4 = 0 -> is_Some (m1 !! w).
Proof using HP Hr Hmid.
  intros Hm. destruct run_first as [b Hb]. apply (has_blk_ok _ _ _ _ HP) in Hb as (_ & ? & ? & _).
  do 2 (split; [done|]). intros w Hw Hal.
  pose proof (rg_map (hp_region HP _ _ Hr)) as Rm. pose proof (region_boks _ _ _ _ HP _ _ Hr) as Hbs. cbn in Rm, Hbs.
  apply (mchg_dom _ _ _ Hm), Rm; [|done]. rewrite !tot_app. cbn. rewrite !Forall_app, Forall_cons in Hbs.
  destruct Hbs as (?%tot_nonneg & ?%tot_nonneg & ?%bok_nonneg & ?%tot_nonneg). unfold e, x in *. lia.
Qed.

Context (Hfr1 : forall c k, fr1 !! c = Some k <-> fr !! c = Some k /\ ~ x <= c < e).

(** The links of the free blocks that stay are outside. *)
Lemma run_links c w : is_Some (fr1 !! c) -> w = c + 8 \/ w = c + 12 -> ~ x <= w < e + 8.
Proof using HP Hr Hmid Hfr1.
  intros [k [Hc Hout]%Hfr1] Hw Hin. apply (hp_free HP) in Hc. destruct run_first as [b Hb].
  pose proof (has_blk_disjoint _ _ _ _ HP _ _ _ _ Hb Hc) as Hd.
  apply (has_blk_ok _ _ _ _ HP) in Hb as [Hb%bok_nonneg _], Hc as [[_ [Hc _]] _]. unfold blen in *. cbn in *. lia.
Qed.

Lemma flists_run m1 h1 FL1 w v :
  flists m1 h1 fr1 FL1 -> x <= w < e + 8 -> flists (<[w := v]> m1) h1 fr1 FL1.
Proof using HP Hr Hmid Hfr1.
  intros F Hw. eapply flists_frame; [exact F|]. intros u (c & Hc & Hu). apply lookup_insert_ne. intros ->.
  by apply (run_links c u Hc Hu).
Qed.

(** The run is now a block of [new] bytes and a free one, which goes on its list. *)
Context (Hl1 : l1 <> []) (Hnb : isf nb = false).
Context (new left : Z) (Hnew : free_size new) (Hleft : free_size left).
Context (Htot : tot mid = 8 + new + (8 + left)).

Let y : Z := x + 8 + new.

Lemma carved_spec s FL1 :
  flists (words s) (mmhead s) fr1 FL1 -> mchg (touch fr x e) m (words s) ->
  (forall p, endpv base None l1 = Some p -> words s !! x = Some p) ->
  words s !! (x + 4) = Some (encw new false (is_pf (endpv base None l1))) ->
  words s !! (y + 4) = Some (encw left true false) ->
  words s !! e = Some y -> words s !! (e + 4) = Some (encw (bsz nb) false true) ->
  hwp (k_mm_freelist_insert y) (fun _ s' =>
    (exists fr', heap (words s') (mmhead s') (<[i := (base, l1 ++ [Blk new BUsed; Blk left BFree] ++ nb :: l2)]> rs) fr') /\
    mchg (touch fr x e) m (words s') /\ (forall w, x <= w < y -> words s' !! w = words s !! w) /\ same_head s s') s.
Proof using All.
  intros F1 Hm Hpv Hwx Hwy Hwe Hwe4. destruct (run_range _ Hm) as (Hx0 & Hx8 & Hmap).
  destruct Hnew as [Hn1 Hn8], Hleft as [Hlf1 Hlf8].
  assert (e = y + 8 + left) as Ee by (unfold e, y; lia).
  eapply hwp_mono.
  { eapply (freelist_insert_spec fr1 FL1 y left); [exact F1| |done|unfold y; adr|unfold y; lia| | |].
    - destruct (fr1 !! y) as [k|] eqn:E; [|done]. apply Hfr1 in E as [_ []]. unfold y in *. lia.
    - eexists. split; [exact Hwy|]. by apply size_of_encw, free_size_ok.
    - apply Hmap; [unfold y in *; lia|unfold y; adr].
    - apply Hmap; [unfold y in *; lia|unfold y; adr]. }
  intros _ s1 ([FL2 F2] & Hm1 & Hs1).
  assert (mchg (touch fr x e) m (words s1)) as Hm2.
  { eapply mchg_trans; [exact Hm|]. eapply mchg_mono; [exact Hm1|]. intros w (c & [->|Hc] & Hw).
    - left. unfold y in *. lia.
    - right. exists c. split; [|done]. destruct Hc as [k Hc]. apply Hfr1 in Hc as [? _]. eauto. }
  assert (forall w, x <= w < y + 8 \/ e <= w < e + 8 -> words s1 !! w = words s !! w) as Hk.
  { intros w Hw. apply (mchg_eq _ _ _ Hm1). intros (c & [->|Hc] & Hcw); [unfold y in *; lia|].
    apply (run_links c w Hc Hcw). unfold y in *. lia. }
  split; [|split; [done|split; [intros w Hw; apply Hk; lia|done]]]. exists (<[y := left]> fr1).
  apply (used_two m (words s1) h (mmhead s1) rs fr _ i base l1 mid nb l2 HP Hr Hl1 Hmid Hm2); try done.
  - intros p Hp. fold x. rewrite Hk by (unfold y; lia). by apply Hpv.
  - eauto.
  - lia.
  - by apply free_size_ok.
  - fold x. rewrite Hk by (unfold y; lia). exact Hwx.
  - fold x y. rewrite Hk by (unfold y in *; lia). exact Hwy.
  - fold x e y. rewrite Hk by lia. exact Hwe.
  - fold x e. rewrite Hk by lia. exact Hwe4.
  - fold x e y. intros c k. rewrite lookup_insert_Some, Hfr1. split.
    + intros [[<- <-]|[_ ?]]; [by right|by left].
    + intros [[Hc Hout]|[-> ->]]; [|by left]. right. split; [|done]. intros <-. unfold y in *. lia.
Qed.

End run.

Section take.
Context (s : hstate) (rs : list region) (fr : gmap Z Z) (sz size : Z).
Context (i : nat) (base : Z) (l1 : list hblk) (nb : hblk) (l2 : list hblk).
Context (HP : heap (words s) (mmhead s) rs fr).
Context (Hr : rs !! i = Some (base, l1 ++ [Blk sz BFree] ++ nb :: l2)) (Hl1 : l1 <> []).
Context (Hsize : free_size size) (Hle : size <= sz).

Let a : Z := base + tot l1.
Let n : Z := a + 8 + sz.

Context (s1 : hstate) (FL1 : Z -> list Z).
Context (F1 : flists (words s1) (mmhead s1) (delete a fr) FL1).
Context (Hm1 : mchg (links (fun c => is_Some (fr !! c))) (words s) (words s1)).

Definition taken (s' : hstate) : Prop := exists rs' fr' sz',
  heap (words s') (mmhead s') rs' fr' /\ kept (fun c => c = a) (words s) rs (words s') rs' /\
  has_blk rs' a (Blk sz' BUsed) /\ size <= sz' < size + 40 /\ same_head s1 s'.

Lemma take_facts :
  endpv base None l1 = None /\ isf nb = false /\ fr !! a = Some sz /\ free_size sz /\ 0 < a /\ a mod 8 = 0 /\ size_ok (bsz nb) /\
  words s1 !! (a + 4) = Some (encw sz true false) /\ words s1 !! (n + 4) = Some (encw (bsz nb) false true) /\
  words s1 !! n = Some a /\ is_Some (words s1 !! a) /\ has_blk rs a (Blk sz BFree) /\ has_blk rs n nb /\
  (forall w, a <= w < n -> w mod 4 = 0 -> is_Some (words s1 !! w)).
Proof using HP Hr Hm1.
  destruct (free_nbrs _ _ _ _ _ _ _ _ _ _ HP Hr) as (Hpv & Hnf & Hba & Hbn & Hwa & Hwn & Hwp). cbv zeta in *.
  fold a in Hba, Hbn, Hwa, Hwn, Hwp. fold n in Hbn, Hwn, Hwp.
  destruct (has_blk_ok _ _ _ _ HP _ _ Hba) as ([Hso Hfs] & Ha0 & Ha8 & _ & _ & Hmap). cbn in Hso, Hfs.
  destruct (has_blk_ok _ _ _ _ HP _ _ Hbn) as ([Hno _] & _).
  assert (forall w, a <= w < n -> w mod 4 = 0 -> is_Some (words s1 !! w)) as Hmap1.
  { intros w Hw Hal. apply (mchg_dom _ _ _ Hm1), Hmap; [|done]. unfold n, blen in *. cbn. lia. }
  do 2 (split; [done|]). split; [by apply (hp_free HP)|]. do 4 (split; [done|]).
  split; [by rewrite (hdr_kept _ _ _ _ HP _ _ _ _ Hm1 Hba (or_intror eq_refl))|].
  split; [by rewrite (hdr_kept _ _ _ _ HP _ _ _ _ Hm1 Hbn (or_intror eq_refl))|].
  split; [by rewrite (hdr_kept _ _ _ _ HP _ _ _ _ Hm1 Hbn (or_introl eq_refl))|].
  split; [apply Hmap1; [destruct Hfs; unfold n; lia|adr]|done].
Qed.

Lemma take_sub c : is_Some (delete a fr !! c) -> is_Some (fr !! c).
Proof using Type. rewrite lookup_delete_is_Some. tauto. Qed.

Lemma take_free c k :
  delete a fr !! c = Some k <-> fr !! c = Some k /\ ~ a <= c < a + tot [Blk sz BFree].
Proof using HP Hr Hm1.
  destruct take_facts as (_ & _ & _ & [Hfs _] & _ & _ & _ & _ & _ & _ & _ & Hba & _).
  rewrite lookup_delete_Some. cbn. unfold blen. cbn. split; [|intros [? ?]; split; [lia|done]].
  intros [Hne Hc]. split; [done|]. intros Hin.
  destruct (free_in_blk _ _ _ _ HP _ _ _ _ Hba Hc) as [-> _]; [unfold blen; cbn; lia|done].
Qed.

Lemma take_kept m' mid' :
  tot mid' = tot [Blk sz BFree] -> (forall c b, (c, b) ∈ addrs a mid' -> isf b = false -> c = a) ->
  mchg (touch fr a (a + tot [Blk sz BFree])) (words s) m' ->
  kept (fun c => c = a) (words s) rs m' (<[i := (base, l1 ++ mid' ++ nb :: l2)]> rs).
Proof using HP Hr.
  intros Ht Hmid Hm.
  eapply kept_mono; [apply (splice_kept _ m' _ _ _ _ _ _ _ mid' _ HP Hr); [done|done|done|exact Hm]|].
  intros c (b & Hf & [Hin|Hin]); [|by eapply Hmid]. cbn in Hin. by apply list_elem_of_singleton in Hin as [= -> _].
Qed.

(** The whole block is taken. *)
Lemma take_whole (Q : Z -> hstate -> Prop) :
  sz < size + 40 -> (forall s', taken s' -> Q (a + 8) s') ->
  hwp ((w ← ld (blk_buf_size n); st (blk_buf_size n) (Z.land w (u32 (Z.lnot RHINO_MM_PREVFREE))));;
       w ← ld (blk_buf_size a);
       st (blk_buf_size a) (Z.land w (u32 (Z.lnot RHINO_MM_FREE)));;
       mret (blk_buffer a)) Q s1.
Proof using HP Hr Hl1 F1 Hm1 Hle.
  intros Hsz HQ. destruct take_facts as (Hpv & Hnf & Hfa & Hfs & Ha0 & Ha8 & Hno & Hwa & Hwn & Hwp & _ & Hba & Hbn & Hmap).
  pose proof (free_size_ok _ Hfs) as Hso. assert (a + 40 <= n) as Han by (unfold n; destruct Hfs; lia).
  hsteps. rewrite encw_clear_prevfree by done. apply hwp_st; [eauto|]. hstep.
  eapply hwp_ld; [cbn; blk_words; rewrite lookup_insert_ne by lia; exact Hwa|]. rewrite encw_clear_free by done.
  hstep. apply hwp_st; [cbn; blk_words; rewrite lookup_insert_ne by lia; eauto|]. apply hwp_ret, HQ.
  unfold taken. cbn [words set_words mmhead set_head]. blk_words. set (m' := <[a + 4 := _]> _).
  assert (mchg (touch fr a (a + tot [Blk sz BFree])) (words s) m') as Hm.
  { eapply mchg_trans; [eapply mchg_mono; [exact Hm1|by right]|].
    eapply mchg_trans; apply mchg_insert; try (left; cbn; unfold blen; cbn; lia); eauto.
    rewrite lookup_insert_ne by lia. eauto. }
  eexists _, (delete a fr), sz. split; [|split; [|split; [|split; [lia|done]]]].
  - apply (used_one _ m' _ _ _ _ (delete a fr) _ _ _ _ _ _ HP Hr Hl1 ltac:(done) Hm).
    + rewrite Hpv. done.
    + exists FL1. apply (flists_hdr _ _ _ _ HP _ _ _ _ a (Blk sz BFree)); [|apply take_sub|done|by right].
      apply (flists_hdr _ _ _ _ HP _ _ _ _ n nb); [done|apply take_sub|done|by right].
    + apply Hfs.
    + done.
    + cbn. unfold blen. cbn. lia.
    + rewrite Hpv. unfold m'. by rewrite lookup_insert_eq.
    + replace (base + tot l1 + tot [Blk sz BFree]) with n by (unfold n, a; cbn; unfold blen; cbn; lia).
      unfold m'. rewrite lookup_insert_ne, lookup_insert_eq, Hnf by lia. done.
    + intros c k. fold a. apply take_free.
  - apply take_kept; [done| |exact Hm]. intros c b Hin _. cbn in Hin. by apply list_elem_of_singleton in Hin as [= -> _].
  - eapply splice_new; [exact Hr|]. left.
Qed.

(** The end of the block is split off. *)
Lemma take_split (Q : Z -> hstate -> Prop) :
  size + 40 <= sz -> (forall s', taken s' -> Q (a + 8) s') ->
  hwp ((new_b ← carve a n size sz; k_mm_freelist_insert new_b);;
       w ← ld (blk_buf_size a);
       st (blk_buf_size a) (Z.land w (u32 (Z.lnot RHINO_MM_FREE)));;
       mret (blk_buffer a)) Q s1.
Proof using HP Hr Hl1 F1 Hm1 Hle Hsize.
  intros Hsz HQ. destruct take_facts as (Hpv & Hnf & Hfa & Hfs & Ha0 & Ha8 & Hno & Hwa & Hwn & Hwp & Hsa & Hba & Hbn & Hmap).
  pose proof (free_size_ok _ Hfs) as Hso. pose proof (free_size_ok _ Hsize) as Hsi.
  destruct Hfs as [Hf1 Hf8]. destruct Hsize as [Hs1 Hs8]. set (left := sz - size - 8).
  assert (free_size left) as Hleft by (unfold left; split; [lia|adr]). set (y := a + 8 + size).
  assert (a + 40 <= y /\ y + 40 <= n /\ y mod 4 = 0) as (Hay & Hyn & Hy4) by (unfold n, y; split; [lia|split; [lia|adr]]).
  hstep. hstep. eapply hwp_mono; [eapply carve_spec; [exact Hwa|done|done|exact Hleft|..]|].
  { apply Hmap; [fold y; lia|done]. } { apply Hmap; [fold y; lia|fold y; adr]. } { eauto. }
  intros r s2 [-> ->]. fold y. fold left.
  assert (a + tot [Blk sz BFree] = n) as En by (unfold n; cbn; unfold blen; cbn; lia).
  assert (mchg (touch fr a n) (words s) (<[n := y]> (<[y + 4 := encw left true false]> (<[y := a]>
           (<[a + 4 := encw size false false]> (words s1)))))) as Hm.
  { eapply mchg_trans; [eapply mchg_mono; [exact Hm1|by right]|].
    repeat apply mchg_step; [apply mchg_refl|..]; rewrite ?lookup_insert_is_Some'; try (left; lia);
      eauto 10; repeat right; apply Hmap; (lia || adr). }
  eapply hwp_mono.
  { eapply (carved_spec (words s) (mmhead s) rs fr (delete a fr) i base l1 [Blk sz BFree] nb l2 HP Hr ltac:(done) take_free Hl1 Hnf
              size left (conj Hs1 Hs8) Hleft).
    - cbn. unfold blen, left. cbn. lia.
    - cbn. do 4 (apply (flists_run _ _ _ _ _ _ _ _ _ _ _ HP Hr ltac:(done) take_free); [|fold a; rewrite En; lia]). exact F1.
    - fold a. rewrite En. exact Hm.
    - rewrite Hpv. done.
    - fold a. cbn. rewrite !lookup_insert_ne by lia. rewrite lookup_insert_eq, Hpv. done.
    - fold a y. cbn. rewrite lookup_insert_ne, lookup_insert_eq by lia. done.
    - fold a. rewrite En. fold y. cbn. by rewrite lookup_insert_eq.
    - fold a. rewrite En. cbn. rewrite !lookup_insert_ne by lia. exact Hwn. }
  fold a. rewrite En. cbn [words set_words]. intros _ s3 ([fr' HP3] & Hm3 & Hk3 & Hs3).
  assert (words s3 !! (a + 4) = Some (encw size false false)) as Hw3.
  { rewrite Hk3 by (fold y; lia). rewrite !lookup_insert_ne by lia. by rewrite lookup_insert_eq. }
  hstep. eapply hwp_ld; [exact Hw3|]. rewrite encw_clear_free by done. hstep. apply hwp_st; [eauto|].
  apply hwp_ret, HQ. blk_words. rewrite insert_id by exact Hw3.
  replace (set_words (words s3) s3) with s3 by (by destruct s3).
  eexists _, fr', size. split; [exact HP3|]. split; [|split; [eapply splice_new; [exact Hr|left]|split; [lia|exact Hs3]]].
  apply take_kept; [cbn; unfold blen, left; cbn; lia| |by rewrite En].
  intros c b Hin Hf. cbn in Hin. apply elem_of_cons in Hin as [[= -> _]|[= _ ->]%list_elem_of_singleton]; done.
Qed.
End take.

(** Taking the free block at [a] for a request of [size] bytes. *)
Lemma take_block_spec s rs fr a sz size (Q : Z -> hstate -> Prop) :
  heap (words s) (mmhead s) rs fr -> fr !! a = Some sz -> free_size size -> size <= sz ->
  (forall s' rs' fr' sz', heap (words s') (mmhead s') rs' fr' -> kept (fun c => c = a) (words s) rs (words s') rs' ->
     has_blk rs' a (Blk sz' BUsed) -> size <= sz' < size + 40 -> same_head s s' -> Q (a + 8) s') ->
  hwp (take_block a size) Q s.
Proof.
  intros HP Hfa Hsize Hle HQ.
  destruct (inner_split _ _ _ _ a (Blk sz BFree) HP) as (i & base & l1 & nb & l2 & Hr & Hl1 & ->); [by apply (hp_free HP)|done|].
  destruct (hp_lists HP) as [FL F].
  unfold take_block. hstep. eapply hwp_mono; [eapply freelist_delete_spec; [exact F|exact Hfa|by eapply free_has_size]|].
  intros _ s1 ([FL1 F1] & Hm1 & Hs1).
  destruct (take_facts _ _ _ _ _ _ _ _ _ HP Hr _ Hm1) as (_ & _ & _ & Hfs & _ & _ & _ & Hwa & _).
  assert (forall s', taken s rs size base l1 s1 s' -> Q (base + tot l1 + 8) s') as HQ'.
  { intros s' (rs' & fr' & sz' & H1 & H2 & H3 & H4 & H5). eapply HQ; eauto. by eapply same_head_trans. }
  assert (has_size (words s1) (base + tot l1) sz) as Hhs.
  { eexists. split; [exact Hwa|]. by apply size_of_encw, free_size_ok. }
  hstep. apply (hwp_next_blk _ sz); [done|]. hstep. apply (hwp_buf_size _ sz); [done|].
  rewrite split_guard by done. destruct (Z.leb_spec (size + 40) sz).
  - eapply take_split; [exact HP|exact Hr|exact Hl1|exact Hsize|exact Hle|exact F1|exact Hm1|done|exact HQ'].
  - eapply take_whole; [exact HP|exact Hr|exact Hl1|exact Hle|exact F1|exact Hm1|done|exact HQ'].
Qed.
