(* ===== verification/MmSpec.v ===== *)
(** * What the heap promises

    [rep s v] relates a state of the heap to what its users see of it: the blocks
    handed out with their sizes, the free blocks, and the free blocks of the pool.
    Allocating, freeing and resizing are proved against it: they never fail but by
    returning NULL, hand out memory that overlaps no block in use, leave the
    contents of all other blocks alone, and allocation returns NULL only when no free
    block is large enough. *)

From S2P Require Import Prelude KErr Bitmap Mem MBlk MBlkSpec Mm MmWord MmList MmLayout MmFree MmAlloc.
Local Open Scope Z_scope.

(** The size of the block a request of [size] bytes needs. *)
Definition need (size : Z) : Z := Z.max 32 (size + (- size) mod 8).

Lemma need_align size :
  0 < size -> size + 7 < 2 ^ 32 ->
  (if MM_ALIGN_UP size <? MM_MIN_SIZE then MM_MIN_SIZE else MM_ALIGN_UP size) = need size /\
  size <= need size < 2 ^ 32 /\ 32 <= need size /\ need size mod 8 = 0.
Proof.
  intros. rewrite align_up by lia. change MM_MIN_SIZE with 32. unfold need.
  assert (size + 7 - (size + 7) mod 8 = size + (- size) mod 8) as E by adr. rewrite E.
  destruct (Z.ltb_spec (size + (- size) mod 8) 32) as [Hl|Hl].
  - rewrite Z.max_l by lia. adr.
  - rewrite Z.max_r by lia. adr.
Qed.

(** ** Allocation from the free lists *)

(** The size looked for; for a request within 7 bytes of the top of the range the rounding wraps. *)
Definition rounded (size : Z) : Z := if MM_ALIGN_UP size <? MM_MIN_SIZE then MM_MIN_SIZE else MM_ALIGN_UP size.

Lemma rounded_ok size : 0 < size < 2 ^ 32 -> 32 <= rounded size < 2 ^ 32 /\ rounded size mod 8 = 0.
Proof.
  intros. unfold rounded, MM_ALIGN_UP. change MM_ALIGN_MASK with 7. change MM_MIN_SIZE with 32.
  set (x := u32 (size + 7)). assert (0 <= x < 2 ^ 32) by (apply Z.mod_pos_bound; lia).
  fold (MM_ALIGN_DOWN x). rewrite align_down by done. destruct (Z.ltb_spec (x - x mod 8) 32); [split; [lia|done]|]. adr.
Qed.

Lemma rounded_need size : 0 < size -> size + 7 < 2 ^ 32 -> rounded size = need size.
Proof. intros ? ?. by apply need_align. Qed.

Lemma rounded_wraps size : 2 ^ 32 - 7 <= size < 2 ^ 32 -> rounded size = 32.
Proof.
  intros. unfold rounded, MM_ALIGN_UP. change MM_ALIGN_MASK with 7. change MM_MIN_SIZE with 32.
  assert (u32 (size + 7) = size + 7 - 2 ^ 32) as ->.
  { unfold u32, wrap. symmetry. apply Z.mod_unique_pos with 1; lia. }
  fold (MM_ALIGN_DOWN (size + 7 - 2 ^ 32)). rewrite align_down by (split; lia). destruct (Z.ltb_spec (size + 7 - 2 ^ 32 - (size + 7 - 2 ^ 32) mod 8) 32); [done|].
  pose proof (Z.mod_pos_bound (size + 7 - 2 ^ 32) 8). lia.
Qed.

Lemma alloc_level_spec s rs fr size (Q : Z -> hstate -> Prop) :
  heap (words s) (mmhead s) rs fr -> 0 < size < 2 ^ 32 ->
  ((forall a sz, fr !! a = Some sz -> sz < rounded size) -> Q 0 s) ->
  (forall a sz s' rs' fr' sz', fr !! a = Some sz -> rounded size <= sz -> heap (words s') (mmhead s') rs' fr' ->
     kept (fun c => c = a) (words s) rs (words s') rs' -> has_blk rs' a (Blk sz' BUsed) ->
     rounded size <= sz' < rounded size + 40 -> same_head s s' -> Q (a + 8) s') ->
  hwp (k_mm_alloc_level size) Q s.
Proof.
  intros HP Hs H0 Ha. destruct (rounded_ok size Hs) as (Hn1 & Hn8).
  unfold k_mm_alloc_level. cbv zeta. fold (rounded size). destruct (hp_lists HP) as [FL F].
  destruct (decide (rounded size < 2 ^ 24)) as [Hlt|Hge].
  - assert (free_size (rounded size)) as Hfs by (split; [lia|done]). pose proof (free_size_level _ Hfs).
    destruct (Z.eqb_spec (size_to_level (rounded size)) (-1)); [lia|]. hstep.
    eapply find_block_spec; [exact F|by apply (free_has_size _ _ _ _ HP)|done| |].
    + intros Hall. by apply hwp_ret, H0.
    + intros a sz Ha0 Hfa Hle. destruct (Z.eqb_spec a 0); [done|].
      eapply take_block_spec; [exact HP|exact Hfa|done|done|]. intros. eapply Ha; eauto.
  - rewrite size_to_level_large by lia. cbn. apply H0. intros a sz Hfa.
    apply (fl_ok F) in Hfa as ([? _] & _). lia.
Qed.

(** ** The heap with its pool *)

(** The blocks of the pool in the block at [f]. *)
Definition fixed_blks (f : Z) : list Z := pool_blks (f + 32) 32 256.

Lemma fixed_blks_range f x : x ∈ fixed_blks f -> f + 32 <= x /\ x + 32 <= f + 8224 /\ (f mod 8 = 0 -> x mod 8 = 0).
Proof. intros (j & -> & Hj)%pool_blks_elem. split; [lia|]. split; [lia|]. intros. adr. Qed.

(** Two blocks of the pool do not overlap. *)
Lemma fixed_blks_disjoint f x y : x ∈ fixed_blks f -> y ∈ fixed_blks f -> x <> y -> x + 32 <= y \/ y + 32 <= x.
Proof. intros (j & -> & Hj)%pool_blks_elem (k & -> & Hk)%pool_blks_elem Hne. lia. Qed.

(** [f] is 0 or a block of the heap's own with the pool in it. *)
Definition pool_inv (m : gmap Z Z) (rs : list region) (f : Z) (av : list Z) : Prop :=
  if decide (f = 0) then av = []
  else exists fz, has_blk rs f (Blk fz BSys) /\ 8216 <= fz /\ pool_ok m (f + 8) (fixed_blks f) av.

Record hinv (s : hstate) (rs : list region) (fr : gmap Z Z) (av : list Z) : Prop := {
  hi_heap : heap (words s) (mmhead s) rs fr;
  hi_addr : head_addr s <> 0;
  hi_pool : pool_inv (words s) rs (fixedmblk (mmhead s)) av
}.

(** The memory handed out: [n] bytes from [p]. *)
Definition live (rs : list region) (f : Z) (av : list Z) (p n : Z) : Prop :=
  has_blk rs (p - 8) (Blk n BUsed) \/ (f <> 0 /\ p ∈ fixed_blks f /\ p ∉ av /\ n = 32).

(** What the users of the heap see. *)
Record hview := Mk_hview {
  hv_spans : list (Z * Z);
  hv_sys : gmap Z Z;
  hv_live : gmap Z Z;
  hv_free : gmap Z Z;
  hv_pool : list Z
}.

(** The regions and the blocks of the heap's own are the same. *)
Definition same_ground (v v' : hview) : Prop := hv_spans v' = hv_spans v /\ hv_sys v' = hv_sys v.

Lemma same_ground_trans v1 v2 v3 : same_ground v1 v2 -> same_ground v2 v3 -> same_ground v1 v3.
Proof. intros [] []. split; congruence. Qed.

Definition ground (rs : list region) (v : hview) : Prop :=
  spans rs = hv_spans v /\ forall a z, hv_sys v !! a = Some z <-> has_blk rs a (Blk z BSys).

Definition rep (s : hstate) (v : hview) : Prop := exists rs,
  hinv s rs (hv_free v) (hv_pool v) /\ ground rs v /\
  forall p n, hv_live v !! p = Some n <-> live rs (fixedmblk (mmhead s)) (hv_pool v) p n.

(** The contents of the blocks in [L]. *)
Definition same_contents (L : gmap Z Z) (s s' : hstate) : Prop :=
  forall p n w, L !! p = Some n -> p <= w < p + n -> words s' !! w = words s !! w.

Lemma pool_ok_frame m m' f fz av :
  pool_ok m (f + 8) (fixed_blks f) av -> 8216 <= fz ->
  (forall w, f + 8 <= w < f + 8 + fz -> m' !! w = m !! w) -> pool_ok m' (f + 8) (fixed_blks f) av.
Proof.
  intros P Hfz Hm. assert (forall x, x ∈ fixed_blks f -> m' !! x = m !! x) as Hb.
  { intros x Hx%fixed_blks_range. apply Hm. lia. }
  split; [|..]; try apply P.
  - rewrite Hm by lia. apply P.
  - destruct (po_list P) as (hd & Hhd & Hl). exists hd. rewrite Hm by lia. split; [done|].
    eapply sll_frame; [exact Hl|]. intros x Hx. apply Hb. by apply (po_sub P).
  - intros x Hx. rewrite Hb by done. by apply (po_map P).
Qed.

(** A block other than the pool's own is no block of the pool. *)
Lemma not_fixed m h rs fr f fz a b :
  heap m h rs fr -> has_blk rs f (Blk fz BSys) -> 8216 <= fz -> has_blk rs a b -> a <> f -> 32 <= bsz b ->
  forall x, x ∈ fixed_blks f -> x + 32 <= a \/ a + blen b <= x.
Proof.
  intros HP Hf Hfz Ha Hne Hb x Hx%fixed_blks_range.
  destruct (has_blk_disjoint _ _ _ _ HP _ _ _ _ Ha Hf) as [[? _]|Hd]; [done|]. unfold blen in *. cbn in *. lia.
Qed.

(** An operation that changed the block at [a] only. *)
Section update.
Context (s s' : hstate) (rs rs' : list region) (v : hview) (fr' : gmap Z Z) (a : Z) (b : hblk) (L' : gmap Z Z).
Context (I : hinv s rs (hv_free v) (hv_pool v)) (Hsp : ground rs v).
Context (Hlive : forall p n, hv_live v !! p = Some n <-> live rs (fixedmblk (mmhead s)) (hv_pool v) p n).
Context (HP' : heap (words s') (mmhead s') rs' fr').
Context (K : kept (fun c => c = a) (words s) rs (words s') rs') (Hh : same_head s s').
Context (Hab : has_blk rs a b) (Hb32 : 32 <= bsz b) (Hbk : bkd b <> BSys).
Context (HL : forall p, p <> a + 8 -> L' !! p = hv_live v !! p).
Context (HLa : forall n, L' !! (a + 8) = Some n <-> has_blk rs' a (Blk n BUsed)).
Context (Hns : forall z, ~ has_blk rs' a (Blk z BSys)).

Let f : Z := fixedmblk (mmhead s).

Lemma update_not_pool fz : has_blk rs f (Blk fz BSys) -> a <> f.
Proof using I Hab Hbk.
  intros Hf E. assert (has_blk rs f b) as Hfb by (rewrite <- E; exact Hab). apply Hbk.
  by rewrite (has_blk_unique _ _ _ _ (hi_heap _ _ _ _ I) _ _ _ Hfb Hf).
Qed.

Lemma update_pool_words fz w : has_blk rs f (Blk fz BSys) -> f + 8 <= w < f + 8 + fz -> words s' !! w = words s !! w.
Proof using I K Hab Hbk.
  intros Hf Hw. pose proof (update_not_pool _ Hf). apply (kp_words _ _ _ _ _ K f (Blk fz BSys)); [done|done|lia|].
  unfold blen. cbn. lia.
Qed.

Lemma update_rep : rep s' (Mk_hview (hv_spans v) (hv_sys v) L' fr' (hv_pool v)).
Proof using All.
  destruct Hh as (Hh1 & Hh2 & Hh3). pose proof (hi_heap _ _ _ _ I) as HP. pose proof (hi_pool _ _ _ _ I) as Hp. fold f in Hp.
  exists rs'. split; [|split; [split; [cbn; rewrite (kp_spans _ _ _ _ _ K); apply Hsp|]|]].
  2:{ intros c z. cbn. rewrite (proj2 Hsp). destruct (decide (c = a)) as [E|Hne].
      - split; intros Hc; exfalso; rewrite E in Hc; [|by eapply Hns].
        apply Hbk. by rewrite (has_blk_unique _ _ _ _ HP _ _ _ Hab Hc).
      - by rewrite (kp_blks _ _ _ _ _ K c (Blk z BSys) eq_refl Hne). }
  - split; [done|rewrite Hh1; apply I|]. cbn. rewrite Hh3. fold f. unfold pool_inv in *. destruct (decide (f = 0)); [done|].
    destruct Hp as (fz & Hf & Hfz & P). exists fz. split; [|split; [done|]].
    + apply (kp_blks _ _ _ _ _ K); [done| |done]. intros E. by apply (update_not_pool _ Hf).
    + eapply pool_ok_frame; [exact P|done|]. intros w. by apply update_pool_words.
  - intros p n. cbn. rewrite Hh3. fold f. destruct (decide (p = a + 8)) as [->|Hne].
    + rewrite HLa. unfold live. replace (a + 8 - 8) with a by lia. split; [by left|]. intros [|(Hf0 & Hin & _)]; [done|].
      exfalso. unfold pool_inv in Hp. rewrite decide_False in Hp by done. destruct Hp as (fz & Hf & Hfz & _).
      pose proof (not_fixed _ _ _ _ _ _ _ _ HP Hf Hfz Hab (update_not_pool _ Hf) Hb32 _ Hin). unfold blen in *. lia.
    + rewrite HL, Hlive by done. unfold live. fold f.
      by rewrite (kp_blks _ _ _ _ _ K (p - 8) (Blk n BUsed) eq_refl ltac:(cbv beta; lia)).
Qed.

Lemma update_contents : same_contents (delete (a + 8) (hv_live v)) s s'.
Proof using All.
  intros p n w [Hne Hp]%lookup_delete_Some Hw. apply Hlive in Hp as [Hp|(Hf0 & Hin & _ & ->)].
  - apply (kp_words _ _ _ _ _ K (p - 8) (Blk n BUsed)); [done|done|lia|]. unfold blen. cbn. lia.
  - pose proof (hi_pool _ _ _ _ I) as Hpo. unfold pool_inv in Hpo. rewrite decide_False in Hpo by done.
    destruct Hpo as (fz & Hf & Hfz & _). apply fixed_blks_range in Hin. fold f in Hf, Hin. apply (update_pool_words fz); [done|lia].
Qed.

End update.

(** ** Allocation *)

(** The pool is tried first for requests of at most 32 bytes. *)
Lemma alloc_small_spec s rs fr av mm size (Q : Z -> hstate -> Prop) :
  hinv s rs fr av -> mm <> 0 ->
  (size <= 32 -> forall x av' s', av = x :: av' -> x <> 0 -> hinv s' rs fr av' -> mmhead s' = mmhead s -> head_addr s' = head_addr s ->
     mchg (fun w => w = fixedmblk (mmhead s) + 16 \/ w = fixedmblk (mmhead s) + 24) (words s) (words s') -> Q x s') ->
  ((size <= 32 -> av = []) -> Q 0 s) ->
  hwp (k_mm_alloc_small mm size) Q s.
Proof.
  intros I Hmm Hx H0. unfold k_mm_alloc_small. hsteps. set (f := fixedmblk (mmhead s)) in *.
  pose proof (hi_pool _ _ _ _ I) as Hp. unfold pool_inv in Hp. fold f in Hp. change DEF_FIX_BLK_SIZE with 32.
  destruct (Z.eqb_spec f 0) as [Hf0|Hf0]; [rewrite decide_True in Hp by done; apply hwp_ret, H0; done|].
  rewrite decide_False in Hp by done. destruct Hp as (fz & Hf & Hfz & P).
  destruct (Z.leb_spec size 32) as [Hs|Hs]; [|apply hwp_ret, H0; intros ?; lia].
  hstep. eapply hwp_ld; [apply (po_avail P)|]. destruct av as [|x av].
  { cbn. apply H0. done. }
  destruct (Z.ltb_spec 0 (Z.of_nat (length (x :: av)))) as [_|Hl]; [|cbn in Hl; lia].
  unfold k_mm_smallblk_alloc. destruct (Z.eqb_spec mm 0); [done|]. hsteps. fold f.
  eapply (mblk_alloc_spec (f + 8) (fixed_blks f)); [|exact P|done|].
  { apply (has_blk_ok _ _ _ _ (hi_heap _ _ _ _ I)) in Hf as (_ & ? & _). lia. }
  intros s' P' Hh Ha Hm. apply hwp_ret. apply (Hx Hs x av); [done| | |done|done|].
  - destruct (po_blks P) as (_ & _ & _ & _ & H0'). intros ->. apply H0', (po_sub P). left.
  - split.
    + rewrite Hh. eapply heap_frame; [apply I|]. eapply mchg_mono; [exact Hm|]. intros w Hw. cbv beta in Hw.
      exists f, (Blk fz BSys). split; [done|]. split; [done|]. unfold blen. cbn. lia.
    + rewrite Ha. apply I.
    + rewrite Hh. fold f. unfold pool_inv. rewrite decide_False by done. eauto.
  - eapply mchg_mono; [exact Hm|]. intros w Hw. cbv beta in *. lia.
Qed.

(** Memory in the pool's own block is not a block with a header. *)
Lemma fixed_not_used s rs fr av x n :
  hinv s rs fr av -> fixedmblk (mmhead s) <> 0 -> x ∈ fixed_blks (fixedmblk (mmhead s)) -> ~ has_blk rs (x - 8) (Blk n BUsed).
Proof.
  intros I Hf0 Hx Hu. pose proof (hi_heap _ _ _ _ I) as HP. pose proof (hi_pool _ _ _ _ I) as Hp. unfold pool_inv in Hp.
  rewrite decide_False in Hp by done. destruct Hp as (fz & Hf & Hfz & _). set (f := fixedmblk (mmhead s)) in *.
  assert (x - 8 <> f). { intros E. rewrite E in Hu. by pose proof (has_blk_unique _ _ _ _ HP _ _ _ Hu Hf). }
  destruct (has_blk_ok _ _ _ _ HP _ _ Hu) as ([_ Hn] & _). cbn in Hn.
  pose proof (not_fixed _ _ _ _ _ _ _ _ HP Hf Hfz Hu ltac:(done) Hn _ Hx). unfold blen in *. cbn in *. lia.
Qed.

(** Nothing handed out overlaps the header of the pool. *)
Lemma live_not_pool_head s rs fr av p n w :
  hinv s rs fr av -> fixedmblk (mmhead s) <> 0 -> live rs (fixedmblk (mmhead s)) av p n ->
  p <= w < p + n -> ~ fixedmblk (mmhead s) <= w < fixedmblk (mmhead s) + 32.
Proof.
  intros I Hf0 Hl Hw Hin. pose proof (hi_heap _ _ _ _ I) as HP. pose proof (hi_pool _ _ _ _ I) as Hp. unfold pool_inv in Hp.
  rewrite decide_False in Hp by done. destruct Hp as (fz & Hf & Hfz & _). set (f := fixedmblk (mmhead s)) in *.
  destruct Hl as [Hu|(_ & Hx%fixed_blks_range & _)]; [|lia].
  destruct (has_blk_disjoint _ _ _ _ HP _ _ _ _ Hu Hf) as [[_ [=]]|Hd]. unfold blen in *. cbn in *. lia.
Qed.

Lemma small_rep s v rs x av' s' :
  hinv s rs (hv_free v) (hv_pool v) -> ground rs v ->
  (forall p n, hv_live v !! p = Some n <-> live rs (fixedmblk (mmhead s)) (hv_pool v) p n) ->
  hv_pool v = x :: av' -> hinv s' rs (hv_free v) av' -> mmhead s' = mmhead s ->
  mchg (fun w => w = fixedmblk (mmhead s) + 16 \/ w = fixedmblk (mmhead s) + 24) (words s) (words s') ->
  rep s' (Mk_hview (hv_spans v) (hv_sys v) (<[x := 32]> (hv_live v)) (hv_free v) av') /\
  hv_live v !! x = None /\ x mod 8 = 0 /\ same_contents (hv_live v) s s'.
Proof.
  intros I Hsp HL Hav I' Hh Hm. pose proof (hi_heap _ _ _ _ I) as HP. pose proof (hi_pool _ _ _ _ I) as Hp.
  set (f := fixedmblk (mmhead s)) in *. assert (f <> 0) as Hf0.
  { intros E. unfold pool_inv in Hp. rewrite decide_True in Hp by done. congruence. }
  unfold pool_inv in Hp. rewrite decide_False, Hav in Hp by done. destruct Hp as (fz & Hf & Hfz & P).
  pose proof (po_nodup P) as [Hxa Hnd]%NoDup_cons. assert (x ∈ fixed_blks f) as Hx by (apply (po_sub P); left).
  assert (forall n, ~ has_blk rs (x - 8) (Blk n BUsed)) as Hnu by (intros n; exact (fixed_not_used _ _ _ _ _ _ I Hf0 Hx)).
  split; [|split; [|split]].
  - exists rs. split; [done|]. split; [done|]. intros p n. cbn. rewrite Hh. fold f.
    destruct (decide (p = x)) as [->|Hne].
    + rewrite lookup_insert_eq. split; [intros [= <-]; right; done|]. intros [Hu|(_ & _ & _ & ->)]; [by apply Hnu in Hu|done].
    + rewrite lookup_insert_ne, HL by done. unfold live. rewrite Hav, not_elem_of_cons. naive_solver.
  - destruct (hv_live v !! x) as [n|] eqn:E; [|done]. apply HL in E as [Hu|(_ & _ & Hn & _)]; [by apply Hnu in Hu|].
    rewrite Hav in Hn. exfalso. apply Hn. left.
  - apply fixed_blks_range in Hx as (_ & _ & Hx). apply Hx. by apply (has_blk_ok _ _ _ _ HP) in Hf as (_ & _ & ? & _).
  - intros p n w Hp Hw. apply (mchg_eq _ _ _ Hm). intros Hw'. cbv beta in Hw'. apply HL in Hp.
    apply (live_not_pool_head _ _ _ _ _ _ _ I Hf0 Hp Hw). fold f. lia.
Qed.

(** Some free block, or a block of the pool, is large enough. *)
Definition has_room (v : hview) (size : Z) : Prop :=
  (size <= 32 /\ hv_pool v <> []) \/ exists a sz, hv_free v !! a = Some sz /\ rounded size <= sz.

(** The outcome of an allocation. *)
Lemma alloc_any s v size (Q : Z -> hstate -> Prop) :
  rep s v -> 0 < size < 2 ^ 32 ->
  ((size <= 32 -> hv_pool v = []) -> (forall a sz, hv_free v !! a = Some sz -> sz < rounded size) -> Q 0 s) ->
  (forall p n s' v', has_room v size -> rep s' v' -> same_ground v v' ->
     head_addr s' = head_addr s -> fixedmblk (mmhead s') = fixedmblk (mmhead s) ->
     0 < p -> p mod 8 = 0 -> rounded size <= n < rounded size + 40 -> hv_live v !! p = None ->
     hv_live v' = <[p := n]> (hv_live v) -> same_contents (hv_live v) s s' -> Q p s') ->
  hwp (k_mm_alloc (head_addr s) size) Q s.
Proof.
  intros (rs & I & Hsp & HL) Hs H0 Hp. pose proof (hi_addr _ _ _ _ I) as Hh0.
  unfold k_mm_alloc. destruct (Z.eqb_spec (head_addr s) 0); [done|]. destruct (Z.eqb_spec size 0); [lia|].
  hstep. apply hwp_is_head; [done|]. hstep. eapply alloc_small_spec; [exact I|done| |].
  - intros Hs' x av' s' Hav Hx0 I' Hh Ha Hm. destruct (Z.eqb_spec x 0); [done|]. apply hwp_ret.
    destruct (small_rep _ _ _ _ _ _ I Hsp HL Hav I' Hh Hm) as (R & Hn & Hx8 & Hc).
    assert (rounded size = 32) as Er by (rewrite rounded_need by lia; unfold need; adr).
    eapply Hp; [left; split; [done|congruence]|exact R|done|done|by rewrite Hh| |done| |done|done|done]; [|lia].
    pose proof (hi_pool _ _ _ _ I) as Hpo. unfold pool_inv in Hpo. destruct (decide _); [congruence|].
    destruct Hpo as (fz & Hf & _ & P). assert (x ∈ fixed_blks (fixedmblk (mmhead s))) as Hx%fixed_blks_range.
    { apply (po_sub P). rewrite Hav. left. }
    apply (has_blk_ok _ _ _ _ (hi_heap _ _ _ _ I)) in Hf as (_ & ? & _). lia.
  - intros Hav. cbn [negb Z.eqb]. eapply alloc_level_spec; [apply I|done| |].
    { intros Hall. by apply H0. }
    intros a sz s' rs' fr' sz' Hfa Hle HP' K Hu Hn Hsh. pose proof (hi_heap _ _ _ _ I) as HP.
    pose proof Hfa as Hb. apply (hp_free HP) in Hb. destruct (has_blk_ok _ _ _ _ HP _ _ Hb) as ([_ [Hsz _]] & Ha0 & Ha8 & _).
    destruct (rounded_ok size Hs) as [Hns _]. cbn in Hsz.
    assert (hv_live v !! (a + 8) = None) as Hnone.
    { destruct (hv_live v !! (a + 8)) as [k|] eqn:E; [|done]. apply HL in E as [E|(Hf0 & Hin & _)].
      - replace (a + 8 - 8) with a in E by lia. by pose proof (has_blk_unique _ _ _ _ HP _ _ _ E Hb).
      - exfalso. pose proof (hi_pool _ _ _ _ I) as Hpo. unfold pool_inv in Hpo. rewrite decide_False in Hpo by done.
        destruct Hpo as (fz & Hf & Hfz & _). assert (a <> fixedmblk (mmhead s)).
        { intros E. rewrite E in Hb. by pose proof (has_blk_unique _ _ _ _ HP _ _ _ Hb Hf). }
        pose proof (not_fixed _ _ _ _ _ _ _ _ HP Hf Hfz Hb ltac:(done) ltac:(cbn; lia) _ Hin). unfold blen in *. cbn in *. lia. }
    assert (forall p, p <> a + 8 -> <[a + 8 := sz']> (hv_live v) !! p = hv_live v !! p) as U1.
    { intros p Hne. by rewrite lookup_insert_ne. }
    assert (forall k, <[a + 8 := sz']> (hv_live v) !! (a + 8) = Some k <-> has_blk rs' a (Blk k BUsed)) as U2.
    { intros k. rewrite lookup_insert_eq. split; [by intros [= <-]|]. intros Hk.
      by pose proof (has_blk_unique _ _ _ _ HP' _ _ _ Hu Hk) as [= ->]. }
    assert (forall z, ~ has_blk rs' a (Blk z BSys)) as U3.
    { intros z Hz. by pose proof (has_blk_unique _ _ _ _ HP' _ _ _ Hu Hz). }
    eapply (Hp (a + 8) sz');
      [right; eauto|exact (update_rep s s' rs rs' v fr' a (Blk sz BFree) _ I Hsp HL HP' K Hsh Hb (proj1 Hsz) ltac:(done) U1 U2 U3)
      |done|apply Hsh|apply Hsh|lia|adr|lia|done|done|].
    rewrite <- (delete_id _ _ Hnone).
    exact (update_contents s s' rs rs' v fr' a (Blk sz BFree) _ I Hsp HL HP' K Hsh Hb (proj1 Hsz) ltac:(done) U1 U2 U3).
Qed.

(** A request of at most 32 bytes takes the first block of the pool, if there is one. *)
Lemma alloc_pool s v size x av (Q : Z -> hstate -> Prop) :
  rep s v -> 0 < size <= 32 -> hv_pool v = x :: av ->
  (forall s', rep s' (Mk_hview (hv_spans v) (hv_sys v) (<[x := 32]> (hv_live v)) (hv_free v) av) ->
     head_addr s' = head_addr s -> hv_live v !! x = None -> same_contents (hv_live v) s s' -> Q x s') ->
  hwp (k_mm_alloc (head_addr s) size) Q s.
Proof.
  intros (rs & I & Hsp & HL) Hs Hx HQ. pose proof (hi_addr _ _ _ _ I) as Hh0.
  unfold k_mm_alloc. destruct (Z.eqb_spec (head_addr s) 0); [done|]. destruct (Z.eqb_spec size 0); [lia|].
  hstep. apply hwp_is_head; [done|]. hstep. eapply alloc_small_spec; [exact I|lia| |].
  - intros Hs' y av' s' Hav Hy0 I' Hh Ha Hm. destruct (Z.eqb_spec y 0); [done|]. apply hwp_ret. rewrite Hx in Hav. injection Hav as <- <-.
    destruct (small_rep _ _ _ _ _ _ I Hsp HL Hx I' Hh Hm) as (R & Hn & _ & Hc). by apply HQ.
  - intros Hav. rewrite Hav in Hx by lia. done.
Qed.

Lemma alloc_rep s v size (Q : Z -> hstate -> Prop) :
  rep s v -> 0 < size -> size + 7 < 2 ^ 32 ->
  ((size <= 32 -> hv_pool v = []) -> (forall a sz, hv_free v !! a = Some sz -> sz < need size) -> Q 0 s) ->
  (forall p n s' v', rep s' v' -> same_ground v v' ->
     head_addr s' = head_addr s -> fixedmblk (mmhead s') = fixedmblk (mmhead s) ->
     0 < p -> p mod 8 = 0 -> size <= n -> hv_live v !! p = None ->
     hv_live v' = <[p := n]> (hv_live v) -> same_contents (hv_live v) s s' -> Q p s') ->
  hwp (k_mm_alloc (head_addr s) size) Q s.
Proof.
  intros R Hs Hs32 H0 Hp. destruct (need_align size Hs Hs32) as (_ & Hn & _).
  eapply alloc_any; [exact R|lia| |]; rewrite (rounded_need size Hs Hs32); [done|].
  intros p n s' v' _ R' G Hh Hf Hp0 Hp8 Hpn. by apply (Hp p n s' v'); [..|lia].
Qed.

(** ** Freeing *)

(** [MM_IS_FIXEDBLK] tells the blocks of the pool from those with a header. *)
Lemma is_fixed_spec s rs fr av p n (Q : bool -> hstate -> Prop) :
  hinv s rs fr av -> live rs (fixedmblk (mmhead s)) av p n ->
  (fixedmblk (mmhead s) <> 0 -> p ∈ fixed_blks (fixedmblk (mmhead s)) -> p ∉ av -> n = 32 -> Q true s) ->
  (has_blk rs (p - 8) (Blk n BUsed) -> Q false s) -> hwp (MM_IS_FIXEDBLK p) Q s.
Proof.
  intros I Hl Ht Hf. pose proof (hi_heap _ _ _ _ I) as HP. pose proof (hi_pool _ _ _ _ I) as Hp.
  unfold MM_IS_FIXEDBLK. hsteps. set (f := fixedmblk (mmhead s)) in *. unfold pool_inv in Hp.
  destruct (Z.eqb_spec f 0) as [E|Hf0].
  { apply hwp_ret, Hf. by destruct Hl as [|(? & _)]. }
  rewrite decide_False in Hp by done. destruct Hp as (fz & Hbf & Hfz & _).
  destruct (has_blk_word _ _ _ _ HP _ _ Hbf) as (pf & Hw & _). cbn in Hw.
  assert (fz <= encw fz false pf < fz + 8) as He by (unfold encw; destruct pf; cbn; lia).
  blk_words. destruct Hl as [Hu|(_ & Hin & Ha & ->)].
  - destruct (has_blk_ok _ _ _ _ HP _ _ Hu) as ([_ Hn] & _). cbn in Hn.
    destruct (has_blk_disjoint _ _ _ _ HP _ _ _ _ Hu Hbf) as [[_ [=]]|Hd]. unfold blen in Hd. cbn in Hd.
    destruct (Z.ltb_spec (f + 8) p); [|by apply hwp_ret, Hf]. hstep. eapply hwp_ld; [exact Hw|]. apply hwp_ret.
    destruct (Z.ltb_spec p (f + 8 + encw fz false pf)); [lia|by apply Hf].
  - pose proof (fixed_blks_range _ _ Hin). destruct (Z.ltb_spec (f + 8) p); [|lia].
    hstep. eapply hwp_ld; [exact Hw|]. apply hwp_ret.
    destruct (Z.ltb_spec p (f + 8 + encw fz false pf)); [by apply Ht|lia].
Qed.

(** A block of the pool goes back to it. *)
Lemma smallblk_free_rep s v rs p (Q : unit -> hstate -> Prop) :
  hinv s rs (hv_free v) (hv_pool v) -> ground rs v ->
  (forall q n, hv_live v !! q = Some n <-> live rs (fixedmblk (mmhead s)) (hv_pool v) q n) ->
  fixedmblk (mmhead s) <> 0 -> p ∈ fixed_blks (fixedmblk (mmhead s)) -> p ∉ hv_pool v ->
  (forall s', rep s' (Mk_hview (hv_spans v) (hv_sys v) (delete p (hv_live v)) (hv_free v) (p :: hv_pool v)) -> head_addr s' = head_addr s ->
     same_contents (delete p (hv_live v)) s s' -> Q tt s') ->
  hwp (k_mm_smallblk_free (head_addr s) p) Q s.
Proof.
  intros I Hsp HL Hf0 Hin Hav HQ. pose proof (hi_heap _ _ _ _ I) as HP. pose proof (hi_pool _ _ _ _ I) as Hp.
  unfold pool_inv in Hp. rewrite decide_False in Hp by done. destruct Hp as (fz & Hf & Hfz & P).
  set (f := fixedmblk (mmhead s)) in *. destruct (has_blk_ok _ _ _ _ HP _ _ Hf) as (_ & Hfp & _).
  pose proof (fixed_blks_range _ _ Hin) as (Hr1 & Hr2 & _).
  unfold k_mm_smallblk_free. destruct (Z.eqb_spec (head_addr s) 0) as [E|_]; [by apply (hi_addr _ _ _ _ I) in E|].
  destruct (Z.eqb_spec p 0); [lia|]. cbn [orb]. hsteps. fold f. blk_words.
  eapply (mblk_free_spec (f + 8) (fixed_blks f)); [lia|exact P|done|done|].
  intros s' P' Hh Ha Hm. apply hwp_ret, HQ; [|done|].
  - exists rs. split; [|split; [done|]].
    + split; cbn.
      * rewrite Hh. eapply heap_frame; [exact HP|]. eapply mchg_mono; [exact Hm|]. intros w Hw. cbv beta in Hw.
        exists f, (Blk fz BSys). split; [done|]. split; [done|]. unfold blen. cbn. lia.
      * rewrite Ha. apply I.
      * rewrite Hh. fold f. unfold pool_inv. rewrite decide_False by done. eauto.
    + intros q k. cbn. rewrite Hh. fold f. rewrite lookup_delete_Some, HL. unfold live. rewrite not_elem_of_cons. split.
      * intros [Hne [|(? & ? & ? & ?)]]; [by left|]. right. done.
      * intros [Hu|(? & ? & [? ?] & ?)]; [|split; [done|by right]]. split; [|by left]. intros <-.
        by eapply (fixed_not_used _ _ _ _ _ _ I Hf0 Hin).
  - intros q k w [Hne Hq]%lookup_delete_Some Hw. apply (mchg_eq _ _ _ Hm). intros Hw'. cbv beta in Hw'. apply HL in Hq.
    pose proof (live_not_pool_head _ _ _ _ _ _ _ I Hf0 Hq Hw) as Hn. fold f in Hn.
    assert (w = p) as -> by lia. destruct Hq as [Hu|(_ & Hq & _ & ->)].
    + destruct (has_blk_disjoint _ _ _ _ HP _ _ _ _ Hu Hf) as [[_ [=]]|Hd]. unfold blen in *. cbn in *. lia.
    + destruct (fixed_blks_disjoint f p q Hin Hq Hne); lia.
Qed.

(** The outcome of freeing a block that was handed out. *)
Lemma free_rep s v p n (Q : unit -> hstate -> Prop) :
  rep s v -> hv_live v !! p = Some n ->
  (forall s' v', rep s' v' -> same_ground v v' -> head_addr s' = head_addr s ->
     hv_live v' = delete p (hv_live v) -> same_contents (delete p (hv_live v)) s s' -> Q tt s') ->
  hwp (k_mm_free (head_addr s) p) Q s.
Proof.
  intros (rs & I & Hsp & HL) Hp HQ. pose proof (hi_heap _ _ _ _ I) as HP. pose proof (hi_addr _ _ _ _ I) as Hh0.
  apply HL in Hp as Hlp. unfold k_mm_free. destruct (Z.eqb_spec (head_addr s) 0); [done|].
  assert (p <> 0) as Hp0.
  { intros ->. destruct Hlp as [Hu|(Hf0 & Hin & _)].
    - apply (has_blk_ok _ _ _ _ HP) in Hu. lia.
    - pose proof (hi_pool _ _ _ _ I) as Hpo. unfold pool_inv in Hpo. rewrite decide_False in Hpo by done.
      destruct Hpo as (fz & _ & _ & P). by apply (po_blks P). }
  destruct (Z.eqb_spec p 0); [done|]. cbn [orb]. hstep. apply hwp_is_head; [done|]. hstep.
  eapply is_fixed_spec; [exact I|exact Hlp| |].
  - intros Hf0 Hin Hav ->. eapply smallblk_free_rep; [exact I|done|done|done|done|done|].
    intros s' R Ha Hc. by eapply HQ.
  - intros Hu. destruct (inner_split _ _ _ _ _ _ HP Hu) as (i & base & l1 & nb & l2 & Hr & _ & Ea); [done|].
    destruct (has_blk_ok _ _ _ _ HP _ _ Hu) as ([_ Hn] & _). cbn in Hn.
    replace p with (base + tot l1 + 8) by lia.
    eapply hwp_mono.
    { eapply (free_blk_spec (words s) (mmhead s) rs _ i base l1 n nb l2 HP Hr); [done|apply mchg_refl|].
      pose proof (rg_chain (hp_region HP _ _ Hr)) as Hc. cbn in Hc. apply chain_app in Hc as (_ & _ & _ & _ & _ & Hw & _).
      unfold blen in Hw. cbn in Hw. rewrite <- (Z.add_assoc _ 8 n). exact Hw. }
    intros [] s' (rs' & fr' & HP' & K & Hno & Hsh). rewrite <- Ea in K, Hno.
    assert (p = p - 8 + 8) as Epp by lia.
    assert (forall q, q <> p - 8 + 8 -> delete p (hv_live v) !! q = hv_live v !! q) as U1.
    { intros q Hne. rewrite lookup_delete_ne by lia. done. }
    assert (forall k, delete p (hv_live v) !! (p - 8 + 8) = Some k <-> has_blk rs' (p - 8) (Blk k BUsed)) as U2.
    { intros k. rewrite <- Epp, lookup_delete_eq. split; [done|]. intros Hk. by apply Hno in Hk. }
    assert (forall z, ~ has_blk rs' (p - 8) (Blk z BSys)) as U3 by (intros z; by apply Hno).
    eapply HQ; [exact (update_rep s s' rs rs' v fr' (p - 8) _ _ I Hsp HL HP' K Hsh Hu Hn ltac:(done) U1 U2 U3)|done|apply Hsh|done|].
    pose proof (update_contents s s' rs rs' v fr' (p - 8) _ _ I Hsp HL HP' K Hsh Hu Hn ltac:(done) U1 U2 U3) as Hc. by rewrite <- Epp in Hc.
Qed.

(** ** Blocks in use *)

(** A block handed out is aligned, lies in the memory of the heap, and is at least 32 bytes long. *)
Lemma rep_live s v p n :
  rep s v -> hv_live v !! p = Some n ->
  0 < p /\ p mod 8 = 0 /\ 32 <= n < 2 ^ 24 /\ n mod 8 = 0 /\ (forall w, p <= w < p + n -> w mod 4 = 0 -> is_Some (words s !! w)) /\
  exists base len, (base, len) ∈ hv_spans v /\ base <= p /\ p + n <= base + len.
Proof.
  intros (rs & I & Hsp & HL) Hp. pose proof (hi_heap _ _ _ _ I) as HP. apply HL in Hp.
  assert (forall a b, has_blk rs a b -> exists base len, (base, len) ∈ hv_spans v /\ base <= a /\ a + blen b <= base + len) as Hspan.
  { intros a b (i & r & Hr & Hin). exists r.1, (tot r.2). split.
    - rewrite <- (proj1 Hsp). apply list_elem_of_fmap. exists r. split; [done|]. by eapply list_elem_of_lookup_2.
    - destruct (addrs_range _ _ _ _ (region_boks _ _ _ _ HP _ _ Hr) Hin) as (? & ? & _). done. }
  destruct Hp as [Hu|(Hf0 & Hin & _ & ->)].
  - destruct (has_blk_ok _ _ _ _ HP _ _ Hu) as ([[Ho1 Ho2] Hn] & Ha0 & Ha8 & Hl & _ & Hmap). cbn in *.
    split; [lia|]. split; [adr|]. split; [lia|]. split; [done|]. split.
    + intros w Hw. apply Hmap. unfold blen. cbn. lia.
    + destruct (Hspan _ _ Hu) as (base & len & ? & ? & ?). exists base, len. unfold blen in *. cbn in *. split; [done|lia].
  - pose proof (hi_pool _ _ _ _ I) as Hpo. unfold pool_inv in Hpo. rewrite decide_False in Hpo by done.
    destruct Hpo as (fz & Hf & Hfz & _). destruct (has_blk_ok _ _ _ _ HP _ _ Hf) as (_ & Ha0 & Ha8 & _ & _ & Hmap).
    destruct (fixed_blks_range _ _ Hin) as (H1 & H2 & H3). split; [lia|]. split; [by apply H3|]. split; [lia|]. split; [done|]. split.
    + intros w Hw. apply Hmap. unfold blen. cbn. lia.
    + destruct (Hspan _ _ Hf) as (base & len & ? & ? & ?). exists base, len. unfold blen in *. cbn in *. split; [done|lia].
Qed.

(** Two blocks handed out do not overlap. *)
Lemma rep_disjoint s v p n q k :
  rep s v -> hv_live v !! p = Some n -> hv_live v !! q = Some k -> p <> q -> p + n <= q \/ q + k <= p.
Proof.
  intros (rs & I & Hsp & HL) Hp Hq Hne. pose proof (hi_heap _ _ _ _ I) as HP. apply HL in Hp, Hq.
  assert (forall x y, has_blk rs (x - 8) (Blk y BUsed) -> forall z, fixedmblk (mmhead s) <> 0 ->
            z ∈ fixed_blks (fixedmblk (mmhead s)) -> z + 32 <= x \/ x + y <= z) as Hmix.
  { intros x y Hx z Hf0 Hz. pose proof (hi_pool _ _ _ _ I) as Hpo. unfold pool_inv in Hpo. rewrite decide_False in Hpo by done.
    destruct Hpo as (fz & Hf & Hfz & _). destruct (has_blk_ok _ _ _ _ HP _ _ Hx) as ([_ Hy] & _). cbn in Hy.
    assert (x - 8 <> fixedmblk (mmhead s)) as Hne'.
    { intros E. rewrite E in Hx. by pose proof (has_blk_unique _ _ _ _ HP _ _ _ Hx Hf). }
    pose proof (not_fixed _ _ _ _ _ _ _ _ HP Hf Hfz Hx Hne' Hy _ Hz). unfold blen in *. cbn in *. lia. }
  destruct Hp as [Hp|(Hf0 & Hp & _ & ->)], Hq as [Hq|(Hf0' & Hq & _ & ->)].
  - destruct (has_blk_disjoint _ _ _ _ HP _ _ _ _ Hp Hq) as [[? _]|Hd]; [lia|]. unfold blen in Hd. cbn in Hd. lia.
  - destruct (Hmix _ _ Hp _ Hf0' Hq); lia.
  - destruct (Hmix _ _ Hq _ Hf0 Hp); lia.
  - by eapply fixed_blks_disjoint.
Qed.

(** Users may write into their blocks. *)
Lemma rep_write s v p n m' :
  rep s v -> hv_live v !! p = Some n -> mchg (fun w => p <= w < p + n) (words s) m' -> rep (set_words m' s) v.
Proof.
  intros R Hp Hm. pose proof R as (rs & I & Hsp & HL). pose proof (hi_heap _ _ _ _ I) as HP. exists rs.
  split; [|done]. pose proof (hi_pool _ _ _ _ I) as Hpo. split; cbn; [|apply I|].
  - apply HL in Hp. eapply heap_frame; [exact HP|]. eapply mchg_mono; [exact Hm|]. intros w Hw. cbv beta in Hw.
    destruct Hp as [Hu|(Hf0 & Hin & _ & ->)].
    + exists (p - 8), (Blk n BUsed). split; [done|]. split; [done|]. unfold blen. cbn. lia.
    + unfold pool_inv in Hpo. rewrite decide_False in Hpo by done. destruct Hpo as (fz & Hf & Hfz & _).
      exists (fixedmblk (mmhead s)), (Blk fz BSys). apply fixed_blks_range in Hin. split; [done|]. split; [done|]. unfold blen. cbn. lia.
  - unfold pool_inv in *. destruct (decide _) as [|Hf0]; [done|]. destruct Hpo as (fz & Hf & Hfz & P).
    exists fz. split; [done|]. split; [done|].
    assert (forall w, w = fixedmblk (mmhead s) + 16 \/ w = fixedmblk (mmhead s) + 24 \/ w ∈ hv_pool v -> m' !! w = words s !! w) as Hk.
    { intros w Hw. apply (mchg_eq _ _ _ Hm). intros Hin. cbv beta in Hin. apply HL in Hp.
      assert (w ∈ hv_pool v) as Hw'. { pose proof (live_not_pool_head _ _ _ _ _ _ _ I Hf0 Hp Hin). destruct Hw as [|[|]]; [lia|lia|done]. }
      pose proof (po_sub P _ Hw') as Hwf. destruct Hp as [Hu|(_ & Hpf & Hpa & ->)].
      - apply fixed_blks_range in Hwf. destruct (has_blk_disjoint _ _ _ _ HP _ _ _ _ Hu Hf) as [[_ [=]]|Hd]. unfold blen in *. cbn in *. lia.
      - assert (w <> p) by (by intros ->). destruct (fixed_blks_disjoint _ _ _ Hwf Hpf); [done|lia|lia]. }
    split; [| |apply P|apply P|apply P|].
    + replace (fixedmblk (mmhead s) + 8 + 8) with (fixedmblk (mmhead s) + 16) by lia. rewrite Hk by auto.
      rewrite <- (po_avail P). f_equal. lia.
    + destruct (po_list P) as (hd & Hhd & Hl). exists hd.
      replace (fixedmblk (mmhead s) + 8 + 16) with (fixedmblk (mmhead s) + 24) in * by lia. rewrite Hk by auto.
      split; [done|]. eapply sll_frame; [exact Hl|]. intros x Hx. apply Hk. auto.
    + intros x Hx. by apply (mchg_dom _ _ _ Hm), (po_map P).
Qed.
