(* ===== verification/MmRealloc.v ===== *)
(** * Resizing a block

    A block is resized in place when it shrinks, or when the free block behind it
    is large enough; otherwise it is moved. *)

From S2P Require Import Prelude KErr Bitmap Mem MBlk MBlkSpec Mm MmWord MmList MmLayout MmFree MmAlloc MmSpec.
Local Open Scope Z_scope.

(** ** Splitting off the end of a run *)

Section split.
Context (m : gmap Z Z) (h : k_mm_head) (rs : list region) (fr fr1 : gmap Z Z).
Context (i : nat) (base : Z) (l1 mid : list hblk) (nb : hblk) (l2 : list hblk).
Context (HP : heap m h rs fr) (Hr : rs !! i = Some (base, l1 ++ mid ++ nb :: l2)) (Hmid : mid <> []).
Context (Hl1 : l1 <> []) (Hnb : isf nb = false).

Let x : Z := base + tot l1.
Let e : Z := x + tot mid.

Context (Hfr1 : forall c k, fr1 !! c = Some k <-> fr !! c = Some k /\ ~ x <= c < e).
Context (sz new : Z) (Htot : tot mid = 8 + sz) (Hnew : free_size new) (Hleft : free_size (sz - new - 8)).

Lemma split_off_spec s zz f pfe FL1 (Q : unit -> hstate -> Prop) :
  flists (words s) (mmhead s) fr1 FL1 -> mchg (touch fr x e) m (words s) ->
  (forall p, endpv base None l1 = Some p -> words s !! x = Some p) ->
  words s !! (x + 4) = Some (encw zz f (is_pf (endpv base None l1))) -> size_ok zz ->
  words s !! (e + 4) = Some (encw (bsz nb) false pfe) -> size_ok (bsz nb) ->
  (forall s' fr', heap (words s') (mmhead s') (<[i := (base, l1 ++ [Blk new BUsed; Blk (sz - new - 8) BFree] ++ nb :: l2)]> rs) fr' ->
     mchg (touch fr x e) m (words s') -> (forall w, x + 8 <= w < x + 8 + new -> words s' !! w = words s !! w) ->
     same_head s s' -> Q tt s') ->
  hwp (split_off x e new sz) Q s.
Proof using All.
  intros F1 Hm Hpv Hwx Hzz Hwe Hnbs HQ.
  destruct (run_range _ _ _ _ _ _ _ _ _ _ HP Hr Hmid _ Hm) as (Hx0 & Hx8 & Hmap). fold x e in Hx0, Hx8, Hmap.
  pose proof Hnew as [Hn1 Hn8]. pose proof Hleft as [Hlf1 Hlf8]. set (y := x + 8 + new).
  assert (x + 40 <= y /\ y + 40 <= e /\ y mod 4 = 0 /\ e mod 4 = 0) as (Hxy & Hye & Hy4 & He4) by (unfold e, y; repeat split; adr).
  unfold split_off. hstep. eapply hwp_mono.
  { eapply (carve_spec x e zz f _ new sz s Hwx Hzz); [by apply free_size_ok|done|..]; apply Hmap; fold y; try lia; adr. }
  intros r s1 [-> ->]. fold y. hstep.
  eapply hwp_ld; [cbn; blk_words; rewrite !lookup_insert_ne by lia; exact Hwe|]. rewrite encw_set_prevfree by done.
  hstep. apply hwp_st; [cbn; blk_words; rewrite !lookup_insert_is_Some'; rewrite Hwe; eauto 10|]. blk_words. cbn [words set_words].
  eapply hwp_mono.
  { eapply (carved_spec m h rs fr fr1 i base l1 mid nb l2 HP Hr Hmid Hfr1 Hl1 Hnb new (sz - new - 8) Hnew Hleft).
    - lia.
    - cbn. do 5 (apply (flists_run _ _ _ _ _ _ _ _ _ _ _ HP Hr Hmid Hfr1); [|fold x e; lia]). exact F1.
    - cbn. fold x e. repeat apply mchg_step; [exact Hm|..]; rewrite ?lookup_insert_is_Some'; try (left; lia);
        repeat right; apply Hmap; (lia || adr).
    - intros p Hp. fold x. cbn. rewrite !lookup_insert_ne by lia. by apply Hpv.
    - fold x. cbn. rewrite !lookup_insert_ne by lia. by rewrite lookup_insert_eq.
    - fold x y. cbn. rewrite !lookup_insert_ne by lia. by rewrite lookup_insert_eq.
    - fold x e y. cbn. rewrite lookup_insert_ne by lia. by rewrite lookup_insert_eq.
    - fold x e. cbn. by rewrite lookup_insert_eq. }
  fold x e y. intros [] s2 ([fr' HP2] & Hm2 & Hk2 & Hs2). eapply HQ; [exact HP2|exact Hm2| |exact Hs2].
  intros w Hw. rewrite Hk2 by lia. cbn. by rewrite !lookup_insert_ne by lia.
Qed.

End split.

(** ** Resizing in place *)

Lemma addrs_elem a l c b : (c, b) ∈ addrs a l -> b ∈ l.
Proof. intros (l1 & l2 & -> & _)%addrs_split. apply elem_of_app. right. left. Qed.

Lemma addrs_head_only a b0 l c b :
  Forall (fun b => isf b = true) l -> (c, b) ∈ addrs a (b0 :: l) -> isf b = false -> c = a.
Proof.
  intros Hl [[= -> _]|Hin]%elem_of_cons Hf; [done|]. apply addrs_elem in Hin. rewrite Forall_forall in Hl.
  by rewrite Hl in Hf.
Qed.

(** The words of a block in use are no links. *)
Lemma used_not_link m h rs fr a b w :
  heap m h rs fr -> has_blk rs a b -> isf b = false -> a <= w < a + blen b -> ~ links (fun c => is_Some (fr !! c)) w.
Proof.
  intros HP Ha Hf Hw (c & sz & Hc & Hcw)%(free_links _ _ _ _ HP).
  destruct (has_blk_disjoint _ _ _ _ HP _ _ _ _ Ha Hc) as [[_ ->]|Hd]; [done|lia].
Qed.

Section resize.
Context (s : hstate) (rs : list region) (fr : gmap Z Z).
Context (i : nat) (base : Z) (l1 : list hblk) (old new : Z) (nb : hblk) (l2 : list hblk).
Context (HP : heap (words s) (mmhead s) rs fr).
Context (Hr : rs !! i = Some (base, l1 ++ Blk old BUsed :: nb :: l2)) (Hl1 : l1 <> []) (Hnew : free_size new).

Let a : Z := base + tot l1.
Let n : Z := a + 8 + old.
Let e : Z := n + blen nb.
Let pf : bool := is_pf (endpv base None l1).

(** The block at [a] has now at least [new] bytes, the first ones with their old contents. *)
Definition resized (s' : hstate) : Prop := exists rs' fr' sz',
  heap (words s') (mmhead s') rs' fr' /\ kept (fun c => c = a) (words s) rs (words s') rs' /\
  has_blk rs' a (Blk sz' BUsed) /\ new <= sz' /\
  (forall w, a + 8 <= w < a + 8 + Z.min old new -> words s' !! w = words s !! w) /\ same_head s s'.

Lemma resize_facts :
  has_blk rs a (Blk old BUsed) /\ has_blk rs n nb /\ 32 <= old < 2 ^ 24 /\ size_ok old /\ 0 < a /\ a mod 8 = 0 /\
  size_ok (bsz nb) /\ bsz nb < 2 ^ 24 /\ words s !! (a + 4) = Some (encw old false pf) /\
  words s !! (n + 4) = Some (encw (bsz nb) (isf nb) false) /\
  (forall p, endpv base None l1 = Some p -> words s !! a = Some p).
Proof using HP Hr.
  destruct (free_blks rs i base l1 old nb l2 Hr) as [Hba Hbn]. fold a in Hba, Hbn. fold n in Hbn.
  destruct (has_blk_ok _ _ _ _ HP _ _ Hba) as ([Ho1 Ho2] & ? & ? & ? & _).
  destruct (has_blk_ok _ _ _ _ HP _ _ Hbn) as ([Hno _] & _ & _ & ? & _). cbn in *.
  pose proof (rg_chain (hp_region HP _ _ Hr)) as Hc. cbn in Hc.
  apply chain_app in Hc as (_ & _ & Hw & Hp & _ & Hwn & _). unfold blen in Hwn. cbn in Hwn. rewrite Z.add_assoc in Hwn.
  repeat (split; [done|]). intros p Hpv. by apply Hp.
Qed.

(** The successor when it is free. *)
Lemma resize_free :
  isf nb = true ->
  exists b2 l3, l2 = b2 :: l3 /\ isf b2 = false /\ has_blk rs e b2 /\ size_ok (bsz b2) /\ fr !! n = Some (bsz nb) /\ free_size (bsz nb) /\
    words s !! (e + 4) = Some (encw (bsz b2) false true) /\ has_size (words s) n (bsz nb) /\ old + bsz nb + 16 <= 2 ^ 24.
Proof using HP Hr.
  intros Hf. destruct (cons_of_ne l2 (free_tail _ _ _ _ _ _ _ _ _ _ HP Hr nb l2 eq_refl Hf)) as (b2 & l3 & E).
  destruct (free_next2 _ _ _ _ _ _ _ _ _ _ HP Hr b2 l3 Hf E) as (Hb2 & Hf2 & Hw2). fold a n e in Hb2, Hw2.
  destruct resize_facts as (_ & Hbn & _). assert (nb = Blk (bsz nb) BFree) as Enb.
  { unfold isf in Hf. destruct nb as [z k]. cbn in *. by destruct k. }
  assert (fr !! n = Some (bsz nb)) as Hfn by (apply (hp_free HP); by rewrite <- Enb).
  exists b2, l3. split; [done|]. split; [done|]. split; [done|].
  split; [by apply (has_blk_ok _ _ _ _ HP) in Hb2 as [[? _] _]|]. split; [done|].
  split. { apply (has_blk_ok _ _ _ _ HP) in Hbn as [[_ Hk] _]. by rewrite Enb in Hk. }
  split; [done|]. split; [by apply (free_has_size _ _ _ _ HP)|].
  pose proof (rg_tot (hp_region HP _ _ Hr)) as [Rt _]. pose proof (region_boks _ _ _ _ HP _ _ Hr) as Hbs. cbn in Rt, Hbs.
  rewrite tot_app in Rt. cbn in Rt. rewrite Forall_app, !Forall_cons in Hbs. destruct Hbs as (?%tot_nonneg & _ & _ & ?%tot_nonneg).
  unfold blen in Rt. cbn in Rt. lia.
Qed.

Lemma resize_kept m' mid mid' b l :
  rs !! i = Some (base, l1 ++ (Blk old BUsed :: mid) ++ b :: l) -> Forall (fun b => isf b = true) mid ->
  tot (Blk old BUsed :: mid) = tot mid' -> (forall c b, (c, b) ∈ addrs a mid' -> isf b = false -> c = a) ->
  mchg (touch fr a (a + tot (Blk old BUsed :: mid))) (words s) m' ->
  kept (fun c => c = a) (words s) rs m' (<[i := (base, l1 ++ mid' ++ b :: l)]> rs).
Proof using HP.
  intros Hr' Hmid Ht Hmid' Hm.
  eapply kept_mono; [apply (splice_kept _ m' _ _ _ _ _ _ _ mid' _ HP Hr'); [done|done|by rewrite Ht|exact Hm]|].
  intros c (b' & Hf & [Hin|Hin]); [|by eapply Hmid']. by eapply addrs_head_only.
Qed.

(** Words of the block that the list operations leave alone. *)
Lemma resize_words m1 w :
  mchg (links (fun c => is_Some (fr !! c))) (words s) m1 -> a <= w < n -> m1 !! w = words s !! w.
Proof using HP Hr.
  intros Hm Hw. destruct resize_facts as (Hba & _). apply (mchg_eq _ _ _ Hm).
  eapply used_not_link; [exact HP|exact Hba|done|]. unfold blen, n in *. cbn. lia.
Qed.


(** The block and the free one behind it, if any, cut to [new] bytes. *)
Lemma resize_split mn b l fr1 FL1 s1 zz pfe sz (Q : unit -> hstate -> Prop) :
  let mid := Blk old BUsed :: mn in
  rs !! i = Some (base, l1 ++ mid ++ b :: l) -> Forall (fun b => isf b = true) mn -> isf b = false -> size_ok (bsz b) ->
  (forall c k, fr1 !! c = Some k <-> fr !! c = Some k /\ ~ a <= c < a + tot mid) ->
  flists (words s1) (mmhead s1) fr1 FL1 -> mchg (touch fr a (a + tot mid)) (words s) (words s1) ->
  (forall w, a <= w < n -> w <> a + 4 -> words s1 !! w = words s !! w) ->
  words s1 !! (a + 4) = Some (encw zz false pf) -> size_ok zz ->
  words s1 !! (a + tot mid + 4) = Some (encw (bsz b) false pfe) -> tot mid = 8 + sz -> free_size (sz - new - 8) ->
  same_head s s1 -> (forall s', resized s' -> Q tt s') -> hwp (split_off a (a + tot mid) new sz) Q s1.
Proof using HP Hr Hl1 Hnew.
  intros mid Hr' Hmn Hb Hbo Hfr1 F1 Hm Hk Hwa Hzz Hwe Htot Hleft Hs1 HQ.
  destruct resize_facts as (_ & _ & Ho & _ & _ & _ & _ & _ & _ & _ & Hpv).
  eapply (split_off_spec (words s) (mmhead s) rs fr fr1 i base l1 mid b l HP Hr' ltac:(done) Hl1 Hb Hfr1 sz new Htot Hnew Hleft);
    [exact F1|exact Hm| |exact Hwa|done|exact Hwe|done|].
  { intros p Hp. fold a. rewrite Hk by (unfold n; lia). by apply Hpv. }
  fold a. intros s' fr' HP' Hm' Hk' Hs'. apply HQ. eexists _, fr', new. split; [exact HP'|]. split.
  { eapply (resize_kept _ mn _ b l Hr' Hmn); [|intros c b'; by apply addrs_head_only, Forall_singleton|exact Hm'].
    fold mid. rewrite Htot. cbn. unfold blen. cbn. lia. }
  split; [eapply splice_new; [exact Hr'|left]|]. split; [lia|]. split; [|by eapply same_head_trans].
  intros w Hw. rewrite Hk' by lia. apply Hk; unfold n; lia.
Qed.

(** Taking the free block behind off its list. *)
Lemma resize_delete_next (Q : unit -> hstate -> Prop) :
  isf nb = true ->
  (forall s1 FL1, flists (words s1) (mmhead s1) (delete n fr) FL1 ->
     mchg (links (fun c => is_Some (fr !! c))) (words s) (words s1) -> same_head s s1 -> Q tt s1) ->
  hwp (k_mm_freelist_delete n) Q s.
Proof using HP Hr.
  intros Hf HQ. destruct (resize_free Hf) as (b2 & l3 & _ & _ & _ & _ & Hfn & _ & _ & Hhs & _). destruct (hp_lists HP) as [FL F].
  eapply hwp_mono; [by eapply freelist_delete_spec|]. intros [] s1 ([FL1 F1] & Hm1 & Hs1). eauto.
Qed.

Lemma resize_fr_next c k :
  isf nb = true -> delete n fr !! c = Some k <-> fr !! c = Some k /\ ~ a <= c < a + tot [Blk old BUsed; nb].
Proof using HP Hr.
  intros Hf. destruct resize_facts as (Hba & Hbn & Ho & _ & _ & _ & [? _] & _). rewrite lookup_delete_Some.
  cbn. unfold blen at 1. cbn. split.
  - intros [Hne Hc]. split; [done|]. intros Hin. destruct (decide (c < n)).
    + destruct (free_in_blk _ _ _ _ HP _ _ _ _ Hba Hc) as [_ [=]]. unfold blen, n in *. cbn. lia.
    + destruct (free_in_blk _ _ _ _ HP _ _ _ _ Hbn Hc) as [-> _]; [unfold n in *; lia|done].
  - intros [Hc Hout]. split; [|done]. intros <-. unfold n, blen in *. lia.
Qed.

Lemma resize_fr_self c k : fr !! c = Some k <-> fr !! c = Some k /\ ~ a <= c < a + tot [Blk old BUsed].
Proof using HP Hr.
  destruct resize_facts as (Hba & _). split; [|naive_solver]. intros Hc. split; [done|]. intros Hin.
  destruct (free_in_blk _ _ _ _ HP _ _ _ _ Hba Hc) as [_ [=]]. cbn in Hin. lia.
Qed.

Lemma shrink_spec (Q : Z -> hstate -> Prop) :
  new <= old -> (forall s', resized s' -> Q (a + 8) s') -> hwp (k_mm_realloc_shrink a n old new) Q s.
Proof using HP Hr Hl1 Hnew.
  intros Hle HQ. destruct resize_facts as (Hba & Hbn & Ho & Hoo & Ha0 & Ha8 & Hno & Hnl & Hwa & Hwn & Hpv).
  pose proof Hnew as [Hn1 Hn8]. pose proof Hoo as [_ Ho8]. unfold k_mm_realloc_shrink. hstep. eapply hwp_ld; [exact Hwn|].
  rewrite encw_free, negb_involutive by done. destruct (isf nb) eqn:Ef.
  - destruct (resize_free Ef) as (b2 & l3 & E & Hf2 & Hb2 & Hbo2 & Hfn & [Hfs1 Hfs8] & Hwe & Hhs & Hbound).
    hstep. hstep. apply (resize_delete_next _ Ef). intros s1 FL1 F1 Hm1 Hs1.
    assert (has_size (words s1) n (bsz nb)) as Hhs1.
    { eexists. rewrite (hdr_kept _ _ _ _ HP _ _ _ _ Hm1 Hbn (or_intror eq_refl)). split; [exact Hwn|by apply size_of_encw]. }
    hstep. apply (hwp_blk_size _ (bsz nb)); [done|lia|lia|]. hstep. apply (hwp_next_blk _ (bsz nb)); [done|]. apply hwp_ret.
    assert (u32 (old + (bsz nb + 8)) = old + bsz nb + 8) as -> by (unfold u32; rewrite wrap_small; lia).
    rewrite split_guard by done. destruct (Z.leb_spec (new + 40) (old + bsz nb + 8)); [|lia].
    assert (n + 8 + bsz nb = a + tot [Blk old BUsed; nb]) as -> by (unfold n; cbn; unfold blen; cbn; lia).
    assert (e = a + tot [Blk old BUsed; nb]) as Ee by (unfold e, n; cbn; unfold blen; cbn; lia).
    hstep. eapply (resize_split [nb] b2 l3 (delete n fr) FL1 s1 old true).
    + by rewrite <- E.
    + by apply Forall_singleton.
    + done.
    + done.
    + intros c k. by apply resize_fr_next.
    + exact F1.
    + eapply mchg_mono; [exact Hm1|by right].
    + intros w Hw _. by apply (resize_words _ _ Hm1).
    + rewrite (resize_words _ _ Hm1) by (unfold n; lia). exact Hwa.
    + done.
    + rewrite <- Ee, (hdr_kept _ _ _ _ HP _ _ _ _ Hm1 Hb2 (or_intror eq_refl)). exact Hwe.
    + cbn. unfold blen. cbn. lia.
    + split; [lia|adr].
    + done.
    + intros s' Hrs. by apply hwp_ret, HQ.
  - hstep. apply hwp_ret. rewrite split_guard by done. destruct (hp_lists HP) as [FL F].
    destruct (Z.leb_spec (new + 40) old); hstep; [|apply hwp_ret, hwp_ret, HQ].
    + assert (n = a + tot [Blk old BUsed]) as En by (unfold n; cbn; unfold blen; cbn; lia). rewrite En.
      eapply (resize_split [] nb l2 fr FL s old false); try done.
      * apply resize_fr_self.
      * rewrite <- En. exact Hwn.
      * cbn. unfold blen. cbn. lia.
      * split; [lia|adr].
    + exists rs, fr, old. split; [done|]. split; [by split|]. by repeat split.
Qed.

Lemma enlarge_spec (Q : Z -> hstate -> Prop) :
  old < new -> ((forall s', resized s' -> Q (a + 8) s')) -> Q 0 s -> hwp (k_mm_realloc_enlarge a n old new) Q s.
Proof using HP Hr Hl1 Hnew.
  intros Hlt HQ H0. destruct resize_facts as (Hba & Hbn & Ho & Hoo & Ha0 & Ha8 & Hno & Hnl & Hwa & Hwn & Hpv).
  pose proof Hnew as [Hn1 Hn8]. pose proof Hoo as [_ Ho8]. unfold k_mm_realloc_enlarge. hstep. eapply hwp_ld; [exact Hwn|].
  rewrite encw_free by done. destruct (isf nb) eqn:Ef; cbn [negb]; [|by apply hwp_ret].
  destruct (resize_free Ef) as (b2 & l3 & E & Hf2 & Hb2 & Hbo2 & Hfn & [Hfs1 Hfs8] & Hwe & Hhs & Hbound).
  hstep. apply (hwp_blk_size _ (bsz nb)); [done|lia|lia|].
  assert (u32 (old + (bsz nb + 8)) = old + bsz nb + 8) as -> by (unfold u32; rewrite wrap_small; lia).
  destruct (Z.leb_spec new (old + bsz nb + 8)) as [Hfit|]; [|by apply hwp_ret]. set (sz := old + (bsz nb + 8)).
  hstep. apply (resize_delete_next _ Ef). intros s1 FL1 F1 Hm1 Hs1.
  assert (has_size (words s1) n (bsz nb)) as Hhs1.
  { eexists. rewrite (hdr_kept _ _ _ _ HP _ _ _ _ Hm1 Hbn (or_intror eq_refl)). split; [exact Hwn|by apply size_of_encw]. }
  assert (size_ok sz) as Hszo by (unfold sz; split; [lia|adr]).
  assert (forall w, a <= w < n -> words s1 !! w = words s !! w) as Hk by (intros w; by apply (resize_words _ _ Hm1)).
  assert (forall w, w = e \/ w = e + 4 -> words s1 !! w = words s !! w) as Hke.
  { intros w. by apply (hdr_kept _ _ _ _ HP _ _ _ _ Hm1 Hb2). }
  assert (is_Some (words s !! e)) as Hse by (apply (has_blk_ok _ _ _ _ HP) in Hb2 as (? & ? & ? & ? & ? & Hmap); apply Hmap; [unfold blen; destruct Hbo2; lia|adr]).
  assert (e = a + 8 + sz) as Ee by (unfold e, n, sz, blen; lia).
  hstep. apply (hwp_blk_size _ (bsz nb)); [done|lia|lia|]. hstep.
  blk_words. eapply hwp_ld; [rewrite Hk by (unfold n; lia); exact Hwa|]. rewrite encw_add by lia. fold sz.
  hstep. apply hwp_st; [rewrite Hk by (unfold n; lia); eauto|]. hstep.
  apply (hwp_next_blk _ sz); [eexists; split; [apply lookup_insert_eq|by apply size_of_encw]|]. rewrite <- Ee. blk_words.
  hstep. apply hwp_st; [cbn; rewrite lookup_insert_ne, Hke by lia; done|]. hstep.
  eapply hwp_ld; [cbn; rewrite !lookup_insert_ne, Hke by lia; exact Hwe|]. rewrite encw_clear_prevfree by done.
  hstep. apply hwp_st; [cbn; rewrite !lookup_insert_ne, Hke by lia; eauto|]. hstep.
  apply (hwp_buf_size _ sz).
  { eexists. cbn. blk_words. rewrite !lookup_insert_ne by lia. rewrite lookup_insert_eq. split; [done|by apply size_of_encw]. }
  rewrite split_guard by done. cbn [words set_words]. blk_words. set (s2 := set_words _ _).
  set (mid := [Blk old BUsed; nb]). assert (tot mid = 8 + sz) as Htm by (cbn; unfold blen, sz; cbn; lia).
  assert (e = a + tot mid) as Ee' by lia.
  assert (rs !! i = Some (base, l1 ++ mid ++ b2 :: l3)) as Hr' by (by rewrite <- E).
  assert (mchg (touch fr a (a + tot mid)) (words s) (words s2)) as Hm2.
  { rewrite <- Ee'. cbn. repeat apply mchg_step; [eapply mchg_mono; [exact Hm1|by right]|..];
      rewrite ?lookup_insert_is_Some', ?Hke, ?Hk by (unfold n; lia); eauto; left; lia. }
  assert (flists (words s2) (mmhead s2) (delete n fr) FL1) as F2.
  { cbn. do 3 (apply (flists_run _ _ _ _ _ _ _ _ _ _ _ HP Hr' ltac:(done) (fun c k => resize_fr_next c k Ef)); [|fold a; fold mid; lia]).
    exact F1. }
  assert (words s2 !! (a + 4) = Some (encw sz false pf)) as Hwa2.
  { cbn. rewrite !lookup_insert_ne by lia. by rewrite lookup_insert_eq. }
  assert (words s2 !! (a + tot mid + 4) = Some (encw (bsz b2) false false)) as Hwe2.
  { rewrite <- Ee'. cbn. by rewrite lookup_insert_eq. }
  assert (forall w, a <= w < n -> w <> a + 4 -> words s2 !! w = words s !! w) as Hk2.
  { intros w Hw Hne. cbn. rewrite !lookup_insert_ne by (unfold n in *; lia). by apply Hk. }
  destruct (Z.leb_spec (new + 40) sz) as [Hsp|Hsp]; hstep.
  - rewrite Ee'. eapply (resize_split [nb] b2 l3 (delete n fr) FL1 s2 sz false sz _ Hr'); try done.
    + by apply Forall_singleton.
    + intros c k. by apply resize_fr_next.
    + unfold sz. split; [lia|adr].
  - apply hwp_ret, hwp_ret, HQ. exists (<[i := (base, l1 ++ [Blk sz BUsed] ++ b2 :: l3)]> rs), (delete n fr), sz. split; [|split; [|split; [|split; [lia|split; [|exact Hs1]]]]].
    + apply (used_one (words s) (words s2) _ _ rs fr (delete n fr) i base l1 mid b2 l3 HP Hr' Hl1 ltac:(done) Hm2); try done.
      * intros p Hp. fold a. rewrite Hk2 by (unfold n; lia). by apply Hpv.
      * eauto.
      * unfold sz. lia.
      * fold a. rewrite Hf2. exact Hwe2.
      * intros c k. by apply resize_fr_next.
    + eapply (resize_kept _ [nb] _ b2 l3 Hr'); [by apply Forall_singleton| |intros c b'; by apply addrs_head_only|exact Hm2].
      fold mid. rewrite Htm. cbn. unfold blen. cbn. lia.
    + eapply splice_new; [exact Hr'|left].
    + intros w Hw. apply Hk2; unfold n; lia.
Qed.

End resize.

(** A request that is too large for any block is not served in place. *)
Lemma enlarge_any s rs fr i base l1 old new nb l2 (Q : Z -> hstate -> Prop) :
  heap (words s) (mmhead s) rs fr -> rs !! i = Some (base, l1 ++ Blk old BUsed :: nb :: l2) -> l1 <> [] ->
  32 <= new -> new mod 8 = 0 -> old < new ->
  (forall s', resized s rs base l1 old new s' -> Q (base + tot l1 + 8) s') -> Q 0 s ->
  hwp (k_mm_realloc_enlarge (base + tot l1) (base + tot l1 + 8 + old) old new) Q s.
Proof.
  intros HP Hr Hl1 Hn Hn8 Hlt HQ H0. destruct (decide (new < 2 ^ 24)) as [Hs|Hl].
  - eapply enlarge_spec; [exact HP|exact Hr|exact Hl1|split; [lia|done]|done|exact HQ|done].
  - destruct (resize_facts _ _ _ _ _ _ _ _ _ HP Hr) as (Hba & Hbn & Ho & Hoo & Ha0 & Ha8 & Hno & Hnl & Hwa & Hwn & Hpv).
    unfold k_mm_realloc_enlarge. hstep. eapply hwp_ld; [exact Hwn|]. rewrite encw_free by done.
    destruct (isf nb) eqn:Ef; cbn [negb]; [|by apply hwp_ret].
    destruct (resize_free _ _ _ _ _ _ _ _ _ HP Hr Ef) as (b2 & l3 & _ & _ & _ & _ & _ & [Hfs _] & _ & Hhs & Hbound).
    hstep. apply (hwp_blk_size _ (bsz nb)); [done|lia|lia|]. unfold u32. rewrite wrap_small by lia.
    destruct (Z.leb_spec new (old + (bsz nb + 8))); [lia|]. by apply hwp_ret.
Qed.

(** ** The outcome of resizing *)

(** The first [k] bytes at [q] are now those that were at [p]. *)
Definition moved (p q k : Z) (s s' : hstate) : Prop :=
  forall j, 0 <= j < k -> j mod 4 = 0 -> words s' !! (q + j) = words s !! (p + j).

(** Resizing a block with a header in place. *)
Lemma resized_rep s v rs base l1 old new s' i nb l2 :
  hinv s rs (hv_free v) (hv_pool v) -> ground rs v ->
  (forall p n, hv_live v !! p = Some n <-> live rs (fixedmblk (mmhead s)) (hv_pool v) p n) ->
  rs !! i = Some (base, l1 ++ Blk old BUsed :: nb :: l2) -> resized s rs base l1 old new s' ->
  let p := base + tot l1 + 8 in
  exists v' n, rep s' v' /\ same_ground v v' /\ head_addr s' = head_addr s /\ new <= n /\
    hv_live v' = <[p := n]> (delete p (hv_live v)) /\ same_contents (delete p (hv_live v)) s s' /\ moved p p (Z.min old new) s s'.
Proof.
  intros I Hsp HL Hr (rs' & fr' & sz' & HP' & K & Hu & Hn & Hw & Hsh). pose proof (hi_heap _ _ _ _ I) as HP.
  destruct (resize_facts _ _ _ _ _ _ _ _ _ HP Hr) as (Hba & _ & Ho & _). cbv zeta. set (a := base + tot l1) in *.
  set (L' := <[a + 8 := sz']> (delete (a + 8) (hv_live v))).
  assert (forall p, p <> a + 8 -> L' !! p = hv_live v !! p) as U1.
  { intros p Hne. unfold L'. by rewrite lookup_insert_ne, lookup_delete_ne. }
  assert (forall k, L' !! (a + 8) = Some k <-> has_blk rs' a (Blk k BUsed)) as U2.
  { intros k. unfold L'. rewrite lookup_insert_eq. split; [by intros [= <-]|]. intros Hk.
    by pose proof (has_blk_unique _ _ _ _ HP' _ _ _ Hu Hk) as [= ->]. }
  assert (forall z, ~ has_blk rs' a (Blk z BSys)) as U3.
  { intros z Hz. by pose proof (has_blk_unique _ _ _ _ HP' _ _ _ Hu Hz). }
  exists (Mk_hview (hv_spans v) (hv_sys v) L' fr' (hv_pool v)), sz'.
  split; [exact (update_rep s s' rs rs' v fr' a _ _ I Hsp HL HP' K Hsh Hba (proj1 Ho) ltac:(done) U1 U2 U3)|].
  split; [done|]. split; [apply Hsh|]. split; [done|]. split; [done|].
  split; [exact (update_contents s s' rs rs' v fr' a _ _ I Hsp HL HP' K Hsh Hba (proj1 Ho) ltac:(done) U1 U2 U3)|].
  intros j Hj _. apply Hw. lia.
Qed.

(** Moving [k] bytes to a new block and freeing the old one with [F]. *)
Lemma move_rep (F : H unit) s0 s v p q n nq k (Q : unit -> hstate -> Prop) :
  rep s v -> hv_live v !! p = Some n -> hv_live v !! q = Some nq -> p <> q -> 0 <= k <= Z.min n nq -> k mod 4 = 0 ->
  head_addr s = head_addr s0 -> same_contents (delete q (hv_live v)) s0 s ->
  (forall s1 Q', rep s1 v -> head_addr s1 = head_addr s -> mmhead s1 = mmhead s ->
     (forall s' v', rep s' v' -> same_ground v v' -> head_addr s' = head_addr s1 ->
        hv_live v' = delete p (hv_live v) -> same_contents (delete p (hv_live v)) s1 s' -> Q' tt s') -> hwp F Q' s1) ->
  (forall s' v', rep s' v' -> same_ground v v' -> head_addr s' = head_addr s0 ->
     hv_live v' = delete p (hv_live v) -> same_contents (delete p (delete q (hv_live v))) s0 s' -> moved p q k s0 s' -> Q tt s') ->
  hwp (copy_words q p (Z.to_nat (k / 4));; F) Q s.
Proof.
  intros R Hp Hq Hne Hk Hk4 Ha Hc HF HQ. assert (k = 4 * (k / 4)) as Ek by adr.
  destruct (rep_live _ _ _ _ R Hp) as (_ & Hp8 & _ & _ & Hmp & _). destruct (rep_live _ _ _ _ R Hq) as (_ & Hq8 & _ & _ & Hmq & _).
  pose proof (rep_disjoint _ _ _ _ _ _ R Hp Hq Hne) as Hd. hstep.
  apply copy_words_spec; rewrite ?Z2Nat.id by (apply Z.div_pos; lia).
  - intros j Hj. split; [apply Hmp|apply Hmq]; (lia || adr).
  - lia.
  - intros m' Hm Hj. assert (rep (set_words m' s) v) as R'.
    { eapply rep_write; [exact R|exact Hq|]. eapply mchg_mono; [exact Hm|]. intros w Hw. cbv beta in *. lia. }
    apply (HF _ _ R'); [done|done|]. cbn. intros s' v' R2 Hsp2 Ha2 HL2 Hc2.
    eapply HQ; [exact R2|done|congruence|done| |].
    + intros x y w Hx Hw. apply lookup_delete_Some in Hx as [Hxp Hx]. pose proof Hx as [Hxq Hx']%lookup_delete_Some.
      rewrite (Hc2 x y w); [|by rewrite lookup_delete_ne|done]. cbn. rewrite (mchg_eq _ _ _ Hm); [by apply (Hc x y)|].
      cbv beta. destruct (rep_disjoint _ _ _ _ _ _ R Hx' Hq ltac:(done)); lia.
    + intros j Hin Hj4. rewrite (Hc2 q nq); [|by rewrite lookup_delete_ne|lia]. cbn.
      replace j with (4 * (j / 4)) by adr. rewrite Hj by (Z.to_euclidean_division_equations; lia).
      apply (Hc p n); [by rewrite lookup_delete_ne|]. Z.to_euclidean_division_equations; lia.
Qed.

Lemma moved_le p q k k' s s' : moved p q k' s s' -> k <= k' -> moved p q k s s'.
Proof. intros Hm Hk j Hj. apply Hm. lia. Qed.

(** What a successful resizing of the block at [p], of [n] bytes, to [size] bytes gives. *)
Definition realloc_done (s : hstate) (v : hview) (p n size q : Z) (s' : hstate) : Prop := exists v' n',
  rep s' v' /\ same_ground v v' /\ head_addr s' = head_addr s /\ 0 < q /\ size <= n' /\
  hv_live v' = <[q := n']> (delete p (hv_live v)) /\ (q = p \/ hv_live v !! q = None) /\
  same_contents (delete p (hv_live v)) s s' /\ moved p q (Z.min n size) s s'.

(** Moving to the block at [q] that was allocated for it. *)
Lemma move_done (F : H unit) s v p n size k q nq s1 v1 (Q : Z -> hstate -> Prop) :
  rep s v -> hv_live v !! p = Some n -> Z.min n size <= k <= Z.min n nq -> k mod 4 = 0 -> 0 < size <= nq ->
  rep s1 v1 -> same_ground v v1 -> head_addr s1 = head_addr s -> 0 < q -> hv_live v !! q = None ->
  hv_live v1 = <[q := nq]> (hv_live v) -> same_contents (hv_live v) s s1 ->
  (forall s2 Q', rep s2 v1 -> head_addr s2 = head_addr s1 -> mmhead s2 = mmhead s1 ->
     (forall s' v', rep s' v' -> same_ground v1 v' -> head_addr s' = head_addr s2 ->
        hv_live v' = delete p (hv_live v1) -> same_contents (delete p (hv_live v1)) s2 s' -> Q' tt s') -> hwp F Q' s2) ->
  (forall s', realloc_done s v p n size q s' -> Q q s') ->
  hwp (copy_words q p (Z.to_nat (k / 4));; F;; mret q) Q s1.
Proof.
  intros R Hp Hk Hk4 Hs R1 Hsp1 Ha1 Hq0 Hnone HL1 Hc1 HF HQ. destruct (rep_live _ _ _ _ R Hp) as (_ & _ & Hn & _).
  assert (q <> p) as Hqp by (intros ->; congruence).
  assert (hv_live v1 !! p = Some n) as Hp1 by (by rewrite HL1, lookup_insert_ne).
  assert (hv_live v1 !! q = Some nq) as Hq1 by (by rewrite HL1, lookup_insert_eq).
  assert (delete q (hv_live v1) = hv_live v) as Hdel by (rewrite HL1; by apply delete_insert_id).
  apply hwp_bind_assoc. eapply (move_rep F s s1 v1 p q n nq k); [exact R1|done|done|done|lia|done|done|by rewrite Hdel|exact HF|].
  intros s' v' R' Hsp' Ha' HL' Hc' Hmv. apply hwp_ret, HQ. exists v', nq. rewrite Hdel in Hc'.
  split; [done|]. split; [by eapply same_ground_trans|]. split; [done|]. split; [done|]. split; [lia|].
  split; [rewrite HL', HL1; by apply delete_insert_ne|]. split; [by right|]. split; [done|].
  eapply moved_le; [exact Hmv|lia].
Qed.

(** A block of the pool. *)
Lemma realloc_fixed_rep s v rs p size (Q : Z -> hstate -> Prop) :
  hinv s rs (hv_free v) (hv_pool v) -> ground rs v ->
  (forall q n, hv_live v !! q = Some n <-> live rs (fixedmblk (mmhead s)) (hv_pool v) q n) ->
  fixedmblk (mmhead s) <> 0 -> p ∈ fixed_blks (fixedmblk (mmhead s)) -> hv_live v !! p = Some 32 ->
  0 < size -> size + 7 < 2 ^ 32 ->
  ((forall a sz, hv_free v !! a = Some sz -> sz < need size) -> Q 0 s) ->
  (forall q s', realloc_done s v p 32 size q s' -> Q q s') ->
  hwp (k_mm_realloc_fixed (head_addr s) p size) Q s.
Proof.
  intros I Hsp HL Hf0 Hin Hp Hs Hs32 H0 HQ. assert (rep s v) as R by (exists rs; done).
  unfold k_mm_realloc_fixed. change DEF_FIX_BLK_SIZE with 32. destruct (Z.leb_spec size 32) as [Hle|Hgt].
  - apply hwp_ret, HQ. exists v, 32. destruct (rep_live _ _ _ _ R Hp) as (Hp0 & _).
    split; [done|]. do 2 (split; [done|]). split; [done|]. split; [done|].
    split; [by rewrite insert_delete_id|]. split; [by left|]. split; [by intros ???|by intros ???].
  - hstep. eapply alloc_rep; [exact R|done|done|intros _ Hall; cbn; by apply H0|].
    intros q nq s1 v1 R1 Hsp1 Ha1 Hf1 Hq0 Hq8 Hnq Hnone HL1 Hc1. destruct (Z.eqb_spec q 0); [lia|]. cbn [negb].
    eapply (move_done _ s v p 32 size 32 q nq s1 v1); try done; [lia| |by intros; apply HQ].
    intros s2 Q' R2 Ha2 Hm2 HQ2. rewrite <- Ha1, <- Ha2. pose proof R2 as (rs2 & I2 & Hsp2 & HL2).
    assert (hv_live v1 !! p = Some 32) as Hp1 by (rewrite HL1, lookup_insert_ne; [done|congruence]).
    assert (fixedmblk (mmhead s2) = fixedmblk (mmhead s)) as Ef by congruence.
    eapply smallblk_free_rep; [exact I2|exact Hsp2|exact HL2|by rewrite Ef|by rewrite Ef| |].
    + apply HL2 in Hp1 as [Hu|(_ & _ & ? & _)]; [|done]. exfalso. rewrite <- Ef in Hin, Hf0.
      by apply (fixed_not_used _ _ _ _ _ _ I2 Hf0 Hin) in Hu.
    + intros s' R' Ha' Hc'. by eapply HQ2.
Qed.

(** The size of a block in use, read from its header. *)
Lemma rep_has_size s v p n :
  rep s v -> hv_live v !! p = Some n -> (fixedmblk (mmhead s) <> 0 -> p ∉ fixed_blks (fixedmblk (mmhead s))) ->
  has_size (words s) (p - 8) n.
Proof.
  intros (rs & I & Hsp & HL) Hp Hnf. apply HL in Hp as [Hu|(Hf0 & Hin & _)]; [|by apply Hnf in Hin].
  by destruct (has_blk_word _ _ _ _ (hi_heap _ _ _ _ I) _ _ Hu) as (pf & _ & Hs).
Qed.

Lemma need_need size : 0 < size -> need (need size) = need size.
Proof. intros. unfold need. adr. Qed.

(** A block with a header. *)
Lemma realloc_blk_rep s v rs p n size (Q : Z -> hstate -> Prop) :
  hinv s rs (hv_free v) (hv_pool v) -> ground rs v ->
  (forall q n, hv_live v !! q = Some n <-> live rs (fixedmblk (mmhead s)) (hv_pool v) q n) ->
  has_blk rs (p - 8) (Blk n BUsed) -> hv_live v !! p = Some n -> 0 < size -> size + 7 < 2 ^ 32 ->
  ((forall a sz, hv_free v !! a = Some sz -> sz < need size) -> Q 0 s) ->
  (forall q s', realloc_done s v p n size q s' -> Q q s') ->
  hwp (k_mm_realloc_blk (head_addr s) p size) Q s.
Proof.
  intros I Hsp HL Hu Hp Hs Hs32 H0 HQ. assert (rep s v) as R by (exists rs; done). pose proof (hi_heap _ _ _ _ I) as HP.
  destruct (inner_split _ _ _ _ _ _ HP Hu) as (i & base & l1 & nb & l2 & Hr & Hl1 & Ea); [done|].
  destruct (has_blk_word _ _ _ _ HP _ _ Hu) as (pf & _ & Hhs). cbn in Hhs.
  destruct (rep_live _ _ _ _ R Hp) as (Hp0 & Hp8 & Hn & Hn8 & _). destruct (need_align size Hs Hs32) as (E & Hn1 & Hn2 & Hnn8).
  unfold k_mm_realloc_blk, MM_GET_THIS_BLK. change MMLIST_HEAD_SIZE with 8. cbv zeta.
  hstep. apply (hwp_buf_size _ n); [done|]. hstep. apply (hwp_next_blk _ n); [done|]. rewrite E. hstep.
  assert (forall s', resized s rs base l1 n (need size) s' -> Q p s') as Hdone.
  { intros s' Hrs. replace p with (base + tot l1 + 8) by lia.
    destruct (resized_rep _ _ _ _ _ _ _ _ _ _ _ I Hsp HL Hr Hrs) as (v' & n' & R' & Hsp' & Ha' & Hn' & HL' & Hc' & Hm').
    rewrite <- Ea in HL', Hc', Hm'. replace (p - 8 + 8) with p in * by lia. rewrite <- Ea. replace (p - 8 + 8) with p by lia.
    apply HQ. exists v', n'. do 4 (split; [done|]). split; [lia|]. split; [done|]. split; [by left|]. split; [done|].
    eapply moved_le; [exact Hm'|lia]. }
  rewrite Ea in *. destruct (Z.leb_spec (need size) n) as [Hle|Hgt].
  - eapply shrink_spec; [exact HP|exact Hr|exact Hl1|split; [lia|done]|done|]. intros s' Hrs.
    destruct (Z.eqb_spec (base + tot l1 + 8) 0); [lia|]. cbn [negb]. apply hwp_ret.
    replace (base + tot l1 + 8) with p by lia. by apply Hdone.
  - eapply enlarge_any; [exact HP|exact Hr|exact Hl1|done|done|done| |].
    { intros s' Hrs. destruct (Z.eqb_spec (base + tot l1 + 8) 0); [lia|]. cbn [negb]. apply hwp_ret.
      replace (base + tot l1 + 8) with p by lia. by apply Hdone. }
    cbn [negb Z.eqb]. hstep. eapply alloc_rep; [exact R|lia|adr|intros _; rewrite need_need by done; intros Hall; cbn; by apply H0|].
    intros q nq s1 v1 R1 Hsp1 Ha1 Hf1 Hq0 Hq8 Hnq Hnone HL1 Hc1. destruct (Z.eqb_spec q 0); [lia|].
    assert (hv_live v1 !! p = Some n) as Hp1 by (rewrite HL1, lookup_insert_ne; [done|congruence]).
    hstep. apply (hwp_buf_size _ n).
    { rewrite <- Ea. eapply rep_has_size; [exact R1|exact Hp1|]. rewrite Hf1. intros Hf0 Hin.
      eapply (fixed_not_used _ _ _ _ _ _ I Hf0 Hin). rewrite Ea. exact Hu. }
    destruct (Z.ltb_spec (need size) n); [lia|].
    eapply (move_done _ s v p n size n q nq s1 v1); try done; [lia|adr|lia| |by intros; apply HQ].
    intros s2 Q' R2 Ha2 Hm2 HQ2. rewrite <- Ha1, <- Ha2. by eapply free_rep.
Qed.

(** The outcome of resizing a block that was handed out. *)
Lemma realloc_rep s v p n size (Q : Z -> hstate -> Prop) :
  rep s v -> hv_live v !! p = Some n -> 0 < size -> size + 7 < 2 ^ 32 ->
  ((forall a sz, hv_free v !! a = Some sz -> sz < need size) -> Q 0 s) ->
  (forall q s', realloc_done s v p n size q s' -> Q q s') ->
  hwp (k_mm_realloc (head_addr s) p size) Q s.
Proof.
  intros R Hp Hs Hs32 H0 HQ. destruct (rep_live _ _ _ _ R Hp) as (Hp0 & _). destruct R as (rs & I & Hsp & HL).
  unfold k_mm_realloc. destruct (Z.eqb_spec p 0); [lia|]. destruct (Z.eqb_spec size 0); [lia|].
  hstep. apply hwp_is_head; [done|]. hstep. pose proof Hp as Hlp. apply HL in Hlp.
  eapply is_fixed_spec; [exact I|exact Hlp| |].
  - intros Hf0 Hin Hav ->. by eapply realloc_fixed_rep.
  - intros Hu. by eapply realloc_blk_rep.
Qed.
