(* ===== verification/MmBoot.v ===== *)
(** * Setting up the heap

    Initialising the heap and adding a memory region: the new region becomes one
    free block between its first and last blocks, and the pool of small blocks is
    allocated from it. *)

From S2P Require Import Prelude KErr Bitmap Mem MBlk MBlkSpec Mm MmWord MmList MmLayout MmFree MmAlloc MmSpec MmRealloc.
Local Open Scope Z_scope.

(** The layout [init_mm_region] gives a region of [len] bytes. *)
Definition new_layout (len : Z) : list hblk := [first_blk; Blk (len - 32) BUsed; last_blk].

Definition region_bounds (base len : Z) : Prop :=
  0 < base /\ base mod 8 = 0 /\ len mod 8 = 0 /\ 64 <= len <= 2 ^ 24 /\ base + len <= 2 ^ 32.

Definition region_mapped (m : gmap Z Z) (base len : Z) : Prop :=
  forall w, base <= w < base + len -> w mod 4 = 0 -> is_Some (m !! w).

(** The header words of the new blocks; the last one claims already that the block before it is free. *)
Record region_words (m : gmap Z Z) (base len : Z) : Prop := {
  rw_first : m !! (base + 4) = Some (encw 8 false false);
  rw_mid : m !! (base + 20) = Some (encw (len - 32) false false);
  rw_last : m !! (base + len - 4) = Some (encw 0 false true)
}.

Lemma init_mm_region_spec base len s (Q : Z -> hstate -> Prop) :
  region_bounds base len -> region_mapped (words s) base len ->
  (forall m', mchg (fun w => base <= w < base + len) (words s) m' -> region_words m' base len -> Q base (set_words m' s)) ->
  hwp (init_mm_region base len) Q s.
Proof.
  intros (Hb & Hb8 & Hl8 & Hl & He) Hmap HQ. unfold init_mm_region. change MMLIST_HEAD_SIZE with 8.
  change (MM_ALIGN_UP sizeof_k_mm_region_info_t) with 8. rewrite encw_new_used.
  assert (is_Some (words s !! base) /\ is_Some (words s !! (base + 4)) /\ is_Some (words s !! (base + 8)) /\
          is_Some (words s !! (base + 12)) /\ is_Some (words s !! (base + 20)) /\ is_Some (words s !! (base + 24)) /\
          is_Some (words s !! (base + 28)) /\ is_Some (words s !! (base + len - 8)) /\ is_Some (words s !! (base + len - 4)))
    as (W0 & W4 & W8 & W12 & W20 & W24 & W28 & Wl & Wl4) by (repeat split; apply Hmap; (lia || adr)).
  cbv zeta. blk_words. replace (base + len - 8 + 4) with (base + len - 4) in * by lia.
  hstep. apply hwp_st; [done|]. hstep. apply hwp_st; [cbn; rewrite lookup_insert_is_Some'; by right|].
  hstep. apply (hwp_next_blk _ 8).
  { eexists. split; [apply lookup_insert_eq|]. by apply size_of_encw. }
  replace (base + 8 + 8) with (base + 16) by lia. rewrite encw_new_used.
  assert (u32 (base + len - 8 - (base + 16 + 8)) = len - 32) as -> by (unfold u32; rewrite wrap_small; lia).
  blk_words. replace (base + 16 + 4) with (base + 20) by lia. replace (base + 16 + 8) with (base + 24) by lia.
  replace (base + 16 + 12) with (base + 28) by lia. change (Z.lor (Z.lor 0 RHINO_MM_ALLOCED) RHINO_MM_PREVFREE) with (encw 0 false true).
  replace (base + len - 8 + 4) with (base + len - 4) by lia. replace (base + 8 + 4) with (base + 12) by lia.
  do 7 (hstep; apply hwp_st; [cbn; rewrite ?lookup_insert_is_Some'; by auto 12|]). apply hwp_ret.
  cbn [words set_words]. apply HQ.
  - repeat apply mchg_step; [apply mchg_refl|..]; rewrite ?lookup_insert_is_Some'; auto 12; lia.
  - split; rewrite !lookup_insert_ne, lookup_insert_eq by lia; done.
Qed.

(** ** Adding a region *)

Lemma tot_new_layout len : tot (new_layout len) = len.
Proof. cbn. unfold blen. cbn. lia. Qed.

Lemma new_layout_blks base len c b :
  (c, b) ∈ addrs base (new_layout len) <->
  (c = base /\ b = first_blk) \/ (c = base + 16 /\ b = Blk (len - 32) BUsed) \/ (c = base + len - 8 /\ b = last_blk).
Proof.
  cbn. unfold blen. cbn. rewrite !elem_of_cons, elem_of_nil.
  replace (base + (8 + 8) + (8 + (len - 32))) with (base + len - 8) by lia. change (8 + 8) with 16.
  rewrite !pair_equal_spec. tauto.
Qed.

Lemma new_region_ok m base len :
  region_bounds base len -> region_mapped m base len ->
  m !! (base + 4) = Some (encw 8 false false) -> m !! (base + 20) = Some (encw (len - 32) false false) ->
  m !! (base + len - 4) = Some (encw 0 false false) -> region_ok m (base, new_layout len).
Proof.
  intros (Hb & Hb8 & Hl8 & Hl & He) Hmap H1 H2 H3. split; cbn [fst snd].
  - done.
  - rewrite tot_new_layout. lia.
  - by exists [Blk (len - 32) BUsed].
  - cbn. unfold blen. cbn. split; [done|]. split; [done|]. split; [done|].
    split; [split; [split; cbn; [lia|adr]|cbn; lia]|].
    split; [replace (base + (8 + 8) + 4) with (base + 20) by lia; done|]. split; [done|].
    replace (base + (8 + 8) + (8 + (len - 32)) + 4) with (base + len - 4) by lia. done.
  - rewrite tot_new_layout. exact Hmap.
Qed.

(** A region with no free block is added without touching the lists. *)
Lemma heap_add m m' h rs fr r :
  heap m h rs fr -> region_ok m' r -> (forall i r', rs !! i = Some r' -> apart r r') ->
  (forall c b, (c, b) ∈ addrs r.1 r.2 -> isf b = false) ->
  mchg (fun w => r.1 <= w < r.1 + tot r.2) m m' -> heap m' h (rs ++ [r]) fr.
Proof.
  intros HP R Hap Hnf Hm.
  assert (forall i r' c b w, rs !! i = Some r' -> (c, b) ∈ addrs r'.1 r'.2 -> c <= w < c + blen b -> m' !! w = m !! w) as Hk.
  { intros i r' c b w Hi Hin Hw. apply (mchg_eq _ _ _ Hm). intros Hr. cbv beta in Hr. pose proof (Hap _ _ Hi) as Ha. unfold apart in Ha.
    destruct (addrs_range _ _ _ _ (region_boks _ _ _ _ HP _ _ Hi) Hin) as (? & ? & _). lia. }
  split.
  - intros i r' [Hi|[_ [_ <-]%list_lookup_singleton_Some]]%lookup_app_Some; [|done].
    + pose proof (hp_region HP _ _ Hi) as R'. split; [apply R'|apply R'|apply R'| |].
      * eapply chain_frame; [apply R'|]. intros w (c & b & Hin & Hw). apply (Hk i r' c b); [done|done|].
        apply (addrs_bok _ _ _ _ (region_boks _ _ _ _ HP _ _ Hi)), bok_nonneg in Hin. lia.
      * intros w ??. by apply (mchg_dom _ _ _ Hm), (rg_map R').
  - intros i j r1 r2 Hi Hj Hij. apply lookup_app_Some in Hi, Hj.
    destruct Hi as [Hi|[Hi1 [Hi <-]%list_lookup_singleton_Some]], Hj as [Hj|[Hj1 [Hj <-]%list_lookup_singleton_Some]].
    + by eapply (hp_apart HP).
    + specialize (Hap _ _ Hi). unfold apart in *. lia.
    + by eapply Hap.
    + lia.
  - intros a sz. rewrite (hp_free HP). split; intros (i & r' & Hi & Hin).
    + exists i, r'. split; [by apply lookup_app_l_Some|done].
    + apply lookup_app_Some in Hi as [Hi|[_ [_ <-]%list_lookup_singleton_Some]]; [by exists i, r'|]. by apply Hnf in Hin.
  - destruct (hp_lists HP) as [FL F]. exists FL. eapply flists_frame; [exact F|]. intros w (c & [k Hc] & Hw).
    apply (hp_free HP) in Hc. pose proof Hc as (i & r' & Hi & Hin). apply (Hk i r' c (Blk k BFree)); [done|done|].
    apply (has_blk_ok _ _ _ _ HP) in Hc as [[_ [Hc _]] _]. cbn in Hc. unfold blen. cbn. lia.
Qed.

Lemma has_blk_app rs r c b : has_blk (rs ++ [r]) c b <-> has_blk rs c b \/ (c, b) ∈ addrs r.1 r.2.
Proof.
  split.
  - intros (i & r' & Hi & Hin). apply lookup_app_Some in Hi as [Hi|[_ [_ <-]%list_lookup_singleton_Some]]; [|by right].
    left. by exists i, r'.
  - intros [(i & r' & Hi & Hin)|Hin].
    + exists i, r'. split; [by apply lookup_app_l_Some|done].
    + exists (length rs), r. split; [|done]. by apply list_lookup_middle.
Qed.

Lemma heap_head m h h' rs fr :
  heap m h rs fr -> freelist h' = freelist h -> free_bitmap h' = free_bitmap h -> heap m h' rs fr.
Proof.
  intros [H1 H2 H3 [FL F]] Hf Hb. split; [done|done|done|]. exists FL. destruct F. split; rewrite ?Hf, ?Hb; done.
Qed.

Section add.
Context (s s1 : hstate) (rs : list region) (v : hview) (base len : Z).
Context (I : hinv s rs (hv_free v) (hv_pool v)) (Hg : ground rs v).
Context (Hlive : forall p n, hv_live v !! p = Some n <-> live rs (fixedmblk (mmhead s)) (hv_pool v) p n).
Context (Hbd : region_bounds base len) (Hmap : region_mapped (words s1) base len).
Context (Hap : forall b l, (b, l) ∈ hv_spans v -> base + len <= b \/ b + l <= base).
Context (Hm : mchg (fun w => base <= w < base + len) (words s) (words s1)) (Hw : region_words (words s1) base len).
Context (Ha : head_addr s1 = head_addr s) (Hfl : freelist (mmhead s1) = freelist (mmhead s)).
Context (Hbm : free_bitmap (mmhead s1) = free_bitmap (mmhead s)) (Hfx : fixedmblk (mmhead s1) = fixedmblk (mmhead s)).

Let m0 : gmap Z Z := <[base + len - 4 := encw 0 false false]> (words s1).
Let rs0 : list region := rs ++ [(base, new_layout len)].

Lemma add_apart i r : rs !! i = Some r -> apart (base, new_layout len) r.
Proof using Hg Hap.
  intros Hi. unfold apart. cbn [fst snd]. rewrite tot_new_layout. destruct Hg as [Hs _].
  assert ((r.1, tot r.2) ∈ hv_spans v) as Hin.
  { rewrite <- Hs. apply list_elem_of_fmap. exists r. split; [done|by eapply list_elem_of_lookup_2]. }
  destruct (Hap _ _ Hin); lia.
Qed.

Lemma add_outside a b : has_blk rs a b -> a + blen b <= base \/ base + len <= a.
Proof using I Hg Hap.
  intros (i & r & Hi & Hin). pose proof (add_apart _ _ Hi) as Hd. unfold apart in Hd. cbn [fst snd] in Hd. rewrite tot_new_layout in Hd.
  destruct (addrs_range _ _ _ _ (region_boks _ _ _ _ (hi_heap _ _ _ _ I) _ _ Hi) Hin) as (? & ? & _). lia.
Qed.

Lemma add_chg : mchg (fun w => base <= w < base + len) (words s) m0.
Proof using Hm Hw Hbd. destruct Hbd as (? & ? & ? & ? & ?). apply mchg_step; [exact Hm|rewrite (rw_last _ _ _ Hw); eauto|lia]. Qed.

Lemma add_heap : heap m0 (mmhead s1) rs0 (hv_free v).
Proof using I Hg Hbd Hmap Hap Hm Hw Hfl Hbm.
  pose proof Hbd as (? & ? & ? & ? & ?). eapply heap_add; [eapply heap_head; [apply I|done|done]| |apply add_apart| |].
  - apply new_region_ok; [done| | | |]; unfold m0.
    + intros w Hin Hal. apply lookup_insert_is_Some'. right. by apply Hmap.
    + rewrite lookup_insert_ne by lia. apply Hw.
    + rewrite lookup_insert_ne by lia. apply Hw.
    + apply lookup_insert_eq.
  - intros c b Hin. cbn [fst snd] in Hin. apply new_layout_blks in Hin as [[_ ->]|[[_ ->]|[_ ->]]]; done.
  - cbn [fst snd]. rewrite tot_new_layout. apply add_chg.
Qed.

Lemma add_not_fixed (Q : bool -> hstate -> Prop) : Q false s1 -> hwp (MM_IS_FIXEDBLK (base + 24)) Q s1.
Proof using All.
  intros HQ. pose proof Hbd as (Hb0 & Hb8 & Hl8 & Hl & He). pose proof (hi_heap _ _ _ _ I) as HP. pose proof (hi_pool _ _ _ _ I) as Hpo.
  unfold MM_IS_FIXEDBLK. hsteps. rewrite Hfx. unfold pool_inv in Hpo.
  destruct (Z.eqb_spec (fixedmblk (mmhead s)) 0) as [E|Hf0]; [by apply hwp_ret|]. rewrite decide_False in Hpo by done.
  destruct Hpo as (fz & Hf & Hfz & _). pose proof (add_outside _ _ Hf) as Hout. unfold blen in Hout. cbn in Hout. blk_words.
  destruct (Z.ltb_spec (fixedmblk (mmhead s) + 8) (base + 24)); [|by apply hwp_ret].
  destruct (has_blk_word _ _ _ _ HP _ _ Hf) as (pf & Hwf & _). cbn in Hwf. hstep.
  eapply hwp_ld; [rewrite (mchg_eq _ _ _ Hm); [exact Hwf|cbv beta; lia]|]. apply hwp_ret.
  assert (encw fz false pf < fz + 8) by (unfold encw; destruct pf; cbn; lia).
  destruct (Z.ltb_spec (base + 24) (fixedmblk (mmhead s) + 8 + encw fz false pf)); [lia|done].
Qed.

(** The blocks of the old regions and of the new one. *)
Lemma add_blks m' rs' :
  kept (fun c => c = base + 16) m0 rs0 m' rs' -> (forall b, isf b = false -> ~ has_blk rs' (base + 16) b) ->
  forall c b, isf b = false ->
    has_blk rs' c b <-> has_blk rs c b \/ (c = base /\ b = first_blk) \/ (c = base + len - 8 /\ b = last_blk).
Proof using All.
  intros K Hno c b Hf. pose proof Hbd as (Hb0 & Hb8 & Hl8 & Hl & He). destruct (decide (c = base + 16)) as [->|Hne].
  - split; [intros Hc; by apply Hno in Hc|]. intros [Hc|[[? _]|[? _]]]; [|lia|lia]. exfalso.
    pose proof (add_outside _ _ Hc) as Hout. apply (has_blk_ok _ _ _ _ (hi_heap _ _ _ _ I)) in Hc as [Hc%bok_nonneg _]. lia.
  - rewrite (kp_blks _ _ _ _ _ K c b Hf Hne). unfold rs0. rewrite has_blk_app. cbn [fst snd]. rewrite new_layout_blks. naive_solver.
Qed.

Lemma add_words m' rs' a b w :
  kept (fun c => c = base + 16) m0 rs0 m' rs' -> has_blk rs a b -> isf b = false -> a + 8 <= w < a + blen b -> m' !! w = words s !! w.
Proof using All.
  intros K Hab Hf Hin. pose proof Hbd as (Hb0 & Hb8 & Hl8 & Hl & He). pose proof (add_outside _ _ Hab) as Hout.
  rewrite (kp_words _ _ _ _ _ K a b w); [|by apply has_blk_app; left|done| |done].
  - apply (mchg_eq _ _ _ add_chg). lia.
  - intros ->. apply (has_blk_ok _ _ _ _ (hi_heap _ _ _ _ I)) in Hab as [Hc%bok_nonneg _]. lia.
Qed.

(** The new region is free for use. *)
Lemma add_rep (Q : unit -> hstate -> Prop) :
  (forall s' fr', rep s' (Mk_hview (hv_spans v ++ [(base, len)]) (<[base := 8]> (<[base + len - 8 := 0]> (hv_sys v)))
                            (hv_live v) fr' (hv_pool v)) ->
     head_addr s' = head_addr s -> fixedmblk (mmhead s') = fixedmblk (mmhead s) -> same_contents (hv_live v) s s' -> Q tt s') ->
  hwp (k_mm_free (head_addr s1) (base + 24)) Q s1.
Proof using All.
  intros HQ. pose proof Hbd as (Hb0 & Hb8 & Hl8 & Hl & He). pose proof (hi_heap _ _ _ _ I) as HP. pose proof (hi_pool _ _ _ _ I) as Hpo.
  unfold k_mm_free. destruct (Z.eqb_spec (base + 24) 0); [lia|].
  destruct (Z.eqb_spec (head_addr s1) 0) as [E|_]; [rewrite Ha in E; by apply (hi_addr _ _ _ _ I) in E|]. cbn [orb].
  hstep. apply hwp_is_head; [done|]. hstep. apply add_not_fixed.
  assert (base + tot [first_blk] = base + 16) as Et by done.
  replace (base + 24) with (base + tot [first_blk] + 8) by lia. eapply hwp_mono.
  { eapply (free_blk_spec m0 (mmhead s1) rs0 (hv_free v) (length rs) base [first_blk] (len - 32) last_blk [] add_heap);
      [by apply list_lookup_middle|done| |]; rewrite Et; replace (base + 16 + 8 + (len - 32)) with (base + len - 8) by lia.
    - unfold m0. split; intros w.
      + rewrite lookup_insert_is_Some'. split; [by right|]. intros [<-|?]; [rewrite (rw_last _ _ _ Hw); eauto|done].
      + intros Hne. rewrite lookup_insert_ne by lia. done.
    - replace (base + len - 8 + 4) with (base + len - 4) by lia. apply Hw. }
  rewrite Et. intros [] s' (rs' & fr' & HP' & K & Hno & Hh1 & _ & Hh3). pose proof (add_blks _ _ K Hno) as Hblk.
  apply (HQ s' fr'); [|congruence|congruence|].
  - exists rs'. split; [|split].
    + split; cbn; [done|rewrite Hh1, Ha; apply I|]. rewrite Hh3, Hfx. unfold pool_inv in *. destruct (decide _); [done|].
      destruct Hpo as (fz & Hf & Hfz & P). exists fz. split; [by apply Hblk; auto|]. split; [done|].
      eapply pool_ok_frame; [exact P|done|]. intros w Hin. eapply add_words; [exact K|exact Hf|done|]. unfold blen. cbn. lia.
    + split; cbn.
      * rewrite (kp_spans _ _ _ _ _ K). unfold rs0, spans. rewrite fmap_app. cbn [fmap list_fmap fst snd]. rewrite tot_new_layout.
        f_equal. apply Hg.
      * intros a z. rewrite (Hblk a (Blk z BSys) eq_refl). rewrite !lookup_insert_Some, (proj2 Hg). unfold first_blk, last_blk.
        assert (has_blk rs a (Blk z BSys) -> a <> base /\ a <> base + len - 8) as Hne.
        { intros Hc. pose proof (add_outside _ _ Hc) as Hout. apply (has_blk_ok _ _ _ _ HP) in Hc as [Hc%bok_nonneg _]. lia. }
        split.
        -- intros [[<- <-]|(_ & [[<- <-]|[_ Hc]])]; auto.
        -- intros [Hc|[[-> [= ->]]|[-> [= ->]]]]; [|by left|right; split; [lia|by left]].
           destruct (Hne Hc). right. split; [done|]. right. done.
    + intros p k. cbn. rewrite Hlive, Hh3, Hfx. unfold live. rewrite (Hblk (p - 8) (Blk k BUsed) eq_refl). unfold first_blk, last_blk.
      naive_solver.
  - intros p k w Hp Hin. apply Hlive in Hp as [Hu|(Hf0 & Hpf & _ & ->)].
    + eapply add_words; [exact K|exact Hu|done|]. unfold blen. cbn. lia.
    + unfold pool_inv in Hpo. rewrite decide_False in Hpo by done. destruct Hpo as (fz & Hf & Hfz & P).
      apply fixed_blks_range in Hpf. eapply add_words; [exact K|exact Hf|done|]. unfold blen. cbn. lia.
Qed.

End add.

Lemma zero_words_spec n a s (Q : unit -> hstate -> Prop) :
  (forall j, 0 <= j < Z.of_nat n -> is_Some (words s !! (a + 4 * j))) ->
  (forall m', mchg (fun w => a <= w < a + 4 * Z.of_nat n) (words s) m' -> Q tt (set_words m' s)) ->
  hwp (zero_words a n) Q s.
Proof.
  revert a s. induction n as [|n IH]; intros a s Hmap HQ; cbn [zero_words].
  - apply hwp_ret. replace s with (set_words (words s) s) by (by destruct s). apply HQ, mchg_refl.
  - pose proof (Hmap 0 ltac:(lia)) as H0. rewrite Z.mul_0_r, Z.add_0_r in H0. hstep. apply hwp_st; [done|]. apply IH.
    + intros j Hj. cbn. apply lookup_insert_is_Some'. right. replace (a + 4 + 4 * j) with (a + 4 * (j + 1)) by lia. apply Hmap. lia.
    + cbn. intros m' Hm. apply HQ. eapply mchg_trans; [apply mchg_insert; [done|lia]|].
      eapply mchg_mono; [exact Hm|]. intros w Hw. cbv beta in *. lia.
Qed.

(** The part of the memory at [addr] that the heap uses. *)
Definition used_start (addr : Z) : Z := MM_ALIGN_UP addr.

Definition used_len (addr len : Z) : Z := MM_ALIGN_DOWN (u32 (len - (MM_ALIGN_UP addr - addr))).

Lemma add_region_spec s v addr len (Q : kstat_t -> hstate -> Prop) :
  let base := used_start addr in let rlen := used_len addr len in
  rep s v -> addr <> 0 -> region_bounds base rlen -> region_mapped (words s) base rlen ->
  (forall b l, (b, l) ∈ hv_spans v -> base + rlen <= b \/ b + l <= base) ->
  (forall s' fr', rep s' (Mk_hview (hv_spans v ++ [(base, rlen)]) (<[base := 8]> (<[base + rlen - 8 := 0]> (hv_sys v)))
                            (hv_live v) fr' (hv_pool v)) ->
     head_addr s' = head_addr s -> fixedmblk (mmhead s') = fixedmblk (mmhead s) -> same_contents (hv_live v) s s' -> Q RHINO_SUCCESS s') ->
  hwp (krhino_add_mm_region (head_addr s) addr len) Q s.
Proof.
  intros base rlen (rs & I & Hg & HL) Ha0 Hbd Hmap Hap HQ. pose proof Hbd as (Hb0 & Hb8 & Hl8 & Hl & He).
  unfold krhino_add_mm_region. destruct (Z.eqb_spec (head_addr s) 0) as [E|_]; [by apply (hi_addr _ _ _ _ I) in E|].
  destruct (Z.eqb_spec addr 0); [done|]. cbv zeta. fold (used_len addr len). fold rlen. fold (used_start addr). fold base.
  change (sizeof_k_mm_region_info_t + MMLIST_HEAD_SIZE * 3 + MM_MIN_SIZE) with 64.
  destruct (Z.eqb_spec rlen 0); [lia|]. destruct (Z.ltb_spec rlen 64); [lia|]. cbn [orb].
  assert (rlen = 4 * (rlen / 4)) as E4 by adr.
  hstep. apply zero_words_spec.
  { intros j Hj. rewrite Z2Nat.id in Hj by lia. apply Hmap; [lia|adr]. }
  rewrite Z2Nat.id by lia. rewrite <- E4. intros m1 Hm1. hstep. apply hwp_is_head; [done|]. hstep.
  apply init_mm_region_spec; [done|intros w Hw Hal; cbn; by apply (mchg_dom _ _ _ Hm1), Hmap|].
  cbn [words set_words]. intros m2 Hm2 Hw2.
  assert (has_size m2 base 8) as Hs8 by (eexists; split; [apply Hw2|by apply size_of_encw]).
  hstep. apply (hwp_next_blk _ 8); [exact Hs8|]. hsteps. blk_words. replace (base + 8 + 4) with (base + 12) by lia.
  assert (mchg (fun w => base <= w < base + rlen) (words s) m2) as Hm by (by eapply mchg_trans).
  assert (is_Some (m2 !! (base + 12))) as H12 by (apply (mchg_dom _ _ _ Hm), Hmap; [lia|adr]).
  apply hwp_st; [done|]. hsteps. cbn [words set_words mmhead].
  replace (base + 8 + 8 + 8) with (base + 24) by lia.
  match goal with |- hwp _ _ ?st => change (head_addr s) with (head_addr st) end.
  eapply (add_rep s _ rs v base rlen I Hg HL Hbd); cbn; [|exact Hap| | |done|done|done|done|].
  - intros w Hw Hal. cbn. apply lookup_insert_is_Some'. right. by apply (mchg_dom _ _ _ Hm), Hmap.
  - apply mchg_step; [done|done|lia].
  - destruct Hw2. split; rewrite lookup_insert_ne by lia; done.
  - intros s' fr' R Ha' Hf' Hc. apply hwp_ret. by eapply HQ.
Qed.

(** A block in use that the heap keeps for itself. *)
Lemma heap_retire m h rs fr a z :
  heap m h rs fr -> has_blk rs a (Blk z BUsed) ->
  exists rs', heap m h rs' fr /\ spans rs' = spans rs /\
    forall c b, has_blk rs' c b <-> (has_blk rs c b /\ c <> a) \/ (c = a /\ b = Blk z BSys).
Proof.
  intros HP Hu. destruct (inner_split _ _ _ _ _ _ HP Hu) as (i & base & l1 & nb & l2 & Hr & Hl1 & Ea); [done|].
  assert (rs !! i = Some (base, l1 ++ [Blk z BUsed] ++ nb :: l2)) as Hr' by exact Hr.
  exists (<[i := (base, l1 ++ [Blk z BSys] ++ nb :: l2)]> rs).
  assert (forall c b, (c, b) ∈ addrs (base + tot l1) [Blk z BSys] <-> c = a /\ b = Blk z BSys) as Hnew.
  { intros c b. cbn. rewrite list_elem_of_singleton, pair_equal_spec, Ea. done. }
  assert (forall c b, has_blk rs c b -> ~ (base + tot l1 <= c < base + tot l1 + tot [Blk z BUsed]) <-> c <> a) as Hrange.
  { intros c b Hc. rewrite <- Ea. cbn. unfold blen. cbn. pose proof (has_blk_disjoint _ _ _ _ HP _ _ _ _ Hu Hc) as Hd.
    apply (has_blk_ok _ _ _ _ HP) in Hc as [Hc%bok_nonneg _]. apply (has_blk_ok _ _ _ _ HP) in Hu as [[_ Hz] _].
    unfold blen in *. cbn in *. split; [intros Hn ->; lia|]. lia. }
  split; [|split].
  - eapply (splice_heap m m h rs fr i base l1 [Blk z BUsed] [Blk z BSys] (nb :: l2) HP Hr' Hl1); [done|done|done|apply mchg_refl| | |apply (hp_lists HP)].
    + pose proof (rg_chain (hp_region HP _ _ Hr)) as Hc. cbn in Hc. apply chain_app in Hc as (_ & [Hb _] & Hw & Hp & Ht).
      cbn [app]. split; [by split|]. split; [exact Hw|]. split; [exact Hp|exact Ht].
    + intros c k. rewrite Hnew. split; [|by intros [[? _]|[_ [=]]]]. intros Hc. left. split; [done|].
      pose proof Hc as Hc'. apply (hp_free HP) in Hc'. apply (Hrange _ _ Hc'). intros ->.
      by pose proof (has_blk_unique _ _ _ _ HP _ _ _ Hu Hc').
  - apply (spans_splice _ _ _ _ _ Hr). rewrite !tot_app. cbn. unfold blen. cbn. lia.
  - intros c b. rewrite (splice_blks m h rs fr i base l1 [Blk z BUsed] [Blk z BSys] (nb :: l2) HP Hr' ltac:(done) eq_refl), Hnew.
    split; (intros [[Hc Hn]|?]; [left; split; [done|by eapply Hrange]|by right]).
Qed.

(** ** Neighbours *)

Lemma spans_elem rs i r : rs !! i = Some r -> (r.1, tot r.2) ∈ spans rs.
Proof. intros Hi. apply list_elem_of_fmap. exists r. split; [done|by eapply list_elem_of_lookup_2]. Qed.

(** No region ends at [a]. *)
Definition inside (sp : list (Z * Z)) (a : Z) : Prop := forall base len, (base, len) ∈ sp -> a <> base + len.

(** A block that does not end its region has a neighbour; two free ones are never neighbours. *)
Lemma blk_succ m h rs fr a b :
  heap m h rs fr -> has_blk rs a b -> (b = last_blk -> inside (spans rs) (a + blen b)) ->
  exists b', has_blk rs (a + blen b) b' /\ (isf b = true -> isf b' = false).
Proof.
  intros HP (i & base & l1 & l2 & Hr & ->)%has_blk_split Hne. destruct (rg_shape (hp_region HP _ _ Hr)) as [mid E]. cbn in E.
  destruct l2 as [|b' l2].
  { rewrite app_comm_cons in E. apply app_inj_tail in E as [_ ->]. pose proof (spans_elem _ _ _ Hr) as Hs. cbn [fst snd] in Hs.
    apply (Hne eq_refl) in Hs. rewrite tot_app in Hs. cbn [tot] in Hs. lia. }
  exists b'. split.
  - eexists i, _. split; [exact Hr|]. cbn. rewrite addrs_app, elem_of_app. right. right. left.
  - intros Hf. pose proof (rg_chain (hp_region HP _ _ Hr)) as Hc. cbn in Hc. apply chain_app in Hc as (_ & _ & _ & _ & _ & _ & Hp & _).
    unfold pvs in Hp. rewrite Hf in Hp. by apply (Hp _ eq_refl).
Qed.

Lemma blk_inside m h rs fr i r a' b' a b :
  heap m h rs fr -> rs !! i = Some r -> (a', b') ∈ addrs r.1 r.2 -> (a, b) ∈ addrs r.1 r.2 -> a' + blen b' = a -> inside (spans rs) a.
Proof.
  intros HP Hr Hin' Hin Ea b1 k1 (r1 & [= -> ->] & [j Hj]%list_elem_of_lookup_1)%list_elem_of_fmap E1.
  pose proof (region_boks _ _ _ _ HP _ _ Hr) as Hb. pose proof (region_boks _ _ _ _ HP _ _ Hj) as Hbj.
  destruct (addrs_range _ _ _ _ Hb Hin') as (? & ? & _). destruct (addrs_range _ _ _ _ Hb Hin) as (? & ? & _).
  pose proof (bok_nonneg _ (addrs_bok _ _ _ _ Hb Hin')). pose proof (bok_nonneg _ (addrs_bok _ _ _ _ Hb Hin)).
  pose proof (tot_nonneg _ Hbj) as [? _]. destruct (decide (i = j)) as [->|Hij].
  - pose proof (eq_trans (eq_sym Hr) Hj) as [= ->]. lia.
  - destruct (hp_apart HP _ _ _ _ Hr Hj Hij); lia.
Qed.

Lemma blk_pred m h rs fr a b :
  heap m h rs fr -> has_blk rs a b -> isf b = true ->
  exists a' b', has_blk rs a' b' /\ a' + blen b' = a /\ isf b' = false /\ inside (spans rs) a.
Proof.
  intros HP Hab Hf. destruct (inner_split _ _ _ _ _ _ HP Hab) as (i & base & l1 & nb & l2 & Hr & Hl1 & ->); [by destruct b as [? []]|].
  destruct (exists_last Hl1) as (l1' & b' & ->). exists (base + tot l1'), b'.
  pose proof (rg_chain (hp_region HP _ _ Hr)) as Hc. cbn in Hc. apply chain_app in Hc as (_ & _ & _ & Hp & _).
  rewrite endpv_app in Hp. cbn in Hp. unfold pvs in Hp. set (r := (base, (l1' ++ [b']) ++ b :: nb :: l2)) in *.
  assert ((base + tot l1', b') ∈ addrs r.1 r.2) as Hin' by (cbn; rewrite !addrs_app, !elem_of_app; left; right; left).
  assert ((base + tot (l1' ++ [b']), b) ∈ addrs r.1 r.2) as Hin by (cbn; rewrite !addrs_app, !elem_of_app; right; left).
  assert (base + tot l1' + blen b' = base + tot (l1' ++ [b'])) as Ea by (rewrite tot_app; cbn; lia).
  split; [by exists i, r|]. split; [done|]. split; [|exact (blk_inside _ _ _ _ i r _ _ _ _ HP Hr Hin' Hin Ea)].
  destruct (isf b') eqn:E; [|done]. destruct (Hp _ eq_refl) as [_ ?]. congruence.
Qed.

(** With nothing handed out, the blocks of the heap's own determine the free blocks. *)
Section ground.
Context (s1 s2 : hstate) (v1 v2 : hview) (rs1 rs2 : list region).
Context (HP1 : heap (words s1) (mmhead s1) rs1 (hv_free v1)) (HP2 : heap (words s2) (mmhead s2) rs2 (hv_free v2)).
Context (G1 : ground rs1 v1) (G2 : ground rs2 v2) (Hsame : same_ground v1 v2).
Context (U1 : forall a z, ~ has_blk rs1 a (Blk z BUsed)) (U2 : forall a z, ~ has_blk rs2 a (Blk z BUsed)).

Lemma ground_sys a z : has_blk rs1 a (Blk z BSys) <-> has_blk rs2 a (Blk z BSys).
Proof using G1 G2 Hsame. rewrite <- (proj2 G1), <- (proj2 G2), (proj2 Hsame). done. Qed.

(** A block that is not free is one of the heap's own. *)
Lemma ground_kind a b : has_blk rs1 a b -> isf b = false -> has_blk rs2 a b.
Proof using G1 G2 Hsame U1.
  intros Hb Hf. destruct b as [z k]. destruct k; [done|by apply U1 in Hb|by apply ground_sys].
Qed.

Lemma ground_free_le a sz : hv_free v1 !! a = Some sz -> exists sz', hv_free v2 !! a = Some sz' /\ sz' <= sz.
Proof using All.
  intros Ha%(hp_free HP1). destruct (blk_pred _ _ _ _ _ _ HP1 Ha eq_refl) as (a0 & b0 & H0 & E0 & F0 & Hi).
  destruct (blk_succ _ _ _ _ _ _ HP1 Ha) as (b1 & H1 & F1); [done|]. specialize (F1 eq_refl).
  pose proof (ground_kind _ _ H0 F0) as H0'. pose proof (ground_kind _ _ H1 F1) as H1'.
  assert (spans rs1 = spans rs2) as Es by (rewrite (proj1 G1), (proj1 G2); symmetry; apply Hsame).
  destruct (blk_succ _ _ _ _ _ _ HP2 H0') as (b & Hb & _); [rewrite E0, <- Es; done|]. rewrite E0 in Hb.
  destruct b as [sz' k]. assert (k = BFree) as ->.
  { destruct k; [done|by apply U2 in Hb|]. apply ground_sys in Hb. by pose proof (has_blk_unique _ _ _ _ HP1 _ _ _ Ha Hb). }
  exists sz'. split; [by apply (hp_free HP2)|]. destruct (has_blk_ok _ _ _ _ HP1 _ _ Ha) as ([_ [Hsz _]] & _).
  destruct (has_blk_disjoint _ _ _ _ HP2 _ _ _ _ Hb H1') as [[E _]|Hd]; unfold blen in *; cbn in *; [lia|].
  destruct (has_blk_ok _ _ _ _ HP2 _ _ H1') as [Hk%bok_nonneg _]. unfold blen in Hk. lia.
Qed.

End ground.

Lemma none_used rs f av (L : gmap Z Z) :
  L = ∅ -> (forall p n, L !! p = Some n <-> live rs f av p n) -> forall a z, ~ has_blk rs a (Blk z BUsed).
Proof.
  intros -> HL a z Hu. assert ((∅ : gmap Z Z) !! (a + 8) = Some z) as E; [|by rewrite lookup_empty in E].
  apply HL. left. by replace (a + 8 - 8) with a by lia.
Qed.

Lemma ground_free s1 s2 v1 v2 :
  rep s1 v1 -> rep s2 v2 -> same_ground v1 v2 -> hv_live v1 = ∅ -> hv_live v2 = ∅ -> hv_free v1 = hv_free v2.
Proof.
  intros (rs1 & I1 & G1 & L1) (rs2 & I2 & G2 & L2) Hsame E1 E2. pose proof (hi_heap _ _ _ _ I1) as HP1. pose proof (hi_heap _ _ _ _ I2) as HP2.
  pose proof (none_used _ _ _ _ E1 L1) as U1. pose proof (none_used _ _ _ _ E2 L2) as U2.
  assert (same_ground v2 v1) as Hsame' by (destruct Hsame; split; congruence).
  apply map_eq. intros a. destruct (hv_free v1 !! a) as [z|] eqn:Ea.
  - destruct (ground_free_le _ _ _ _ _ _ HP1 HP2 G1 G2 Hsame U1 U2 _ _ Ea) as (z' & Ea' & Hle).
    destruct (ground_free_le _ _ _ _ _ _ HP2 HP1 G2 G1 Hsame' U2 U1 _ _ Ea') as (z'' & Ea'' & Hle').
    rewrite Ea'. f_equal. assert (z'' = z) by congruence. lia.
  - destruct (hv_free v2 !! a) as [z|] eqn:Eb; [|done].
    destruct (ground_free_le _ _ _ _ _ _ HP2 HP1 G2 G1 Hsame' U2 U1 _ _ Eb) as (z' & Ea' & _). congruence.
Qed.

(** ** Initialisation *)

Lemma empty_rep m addr :
  addr <> 0 -> rep (Mk_hstate m addr (Mk_mm_head 0 0 0 (replicate (Z.to_nat MM_BIT_LEVEL) 0))) (Mk_hview [] ∅ ∅ ∅ []).
Proof.
  intros Ha. exists []. split; [|split].
  - split; cbn; [|done|done]. split; [done|done| |].
    + intros a sz. split; [done|]. by intros (i & r & Hi & _).
    + exists (fun _ => []). split; cbn; [done|done| |constructor| |split; lia|].
      * intros lv Hlv. exists 0. split; [|done]. unfold arr_get. rewrite decide_True by lia. apply (lookup_replicate_2 20). lia.
      * intros lv a. split; [by intros ?%elem_of_nil|]. by intros (sz & ? & _).
      * intros lv Hlv. rewrite Z.testbit_0_l. done.
  - split; [done|]. intros a z. split; [done|]. by intros (i & r & Hi & _).
  - intros p n. cbn. split; [done|]. intros [(i & r & Hi & _)|[? _]]; done.
Qed.

(** The only free block of a heap of one region. *)
Lemma one_region_free s v base len :
  rep s v -> hv_spans v = [(base, len)] -> hv_sys v = <[base := 8]> (<[base + len - 8 := 0]> ∅) -> hv_live v = ∅ -> 64 <= len ->
  hv_free v !! (base + 16) = Some (len - 32).
Proof.
  intros (rs & I & G & L) Hsp Hsys Hlive Hlen. pose proof (hi_heap _ _ _ _ I) as HP. pose proof (none_used _ _ _ _ Hlive L) as Hno.
  pose proof (proj2 G) as Gs. rewrite Hsys in Gs.
  assert (forall a z, has_blk rs a (Blk z BSys) -> a = base \/ a = base + len - 8) as Hs.
  { intros a z Hb%Gs. apply lookup_insert_Some in Hb as [[? _]|[_ [[? _]|[_ ?]]%lookup_insert_Some]]; [by left|by right|done]. }
  assert (has_blk rs base first_blk) as Hf by (apply Gs, lookup_insert_eq).
  destruct (blk_succ _ _ _ _ _ _ HP Hf) as ([k kd] & Hb & _); [done|]. unfold blen in Hb. cbn in Hb.
  destruct kd; [|by apply Hno in Hb|by apply Hs in Hb as [?|?]; lia].
  destruct (blk_succ _ _ _ _ _ _ HP Hb) as ([k' kd'] & Hb' & Hf'); [done|]. specialize (Hf' eq_refl). unfold blen in Hb'. cbn in Hb'.
  destruct (has_blk_ok _ _ _ _ HP _ _ Hb) as [[_ [Hk _]] _]. cbn in Hk.
  destruct kd'; [done|by apply Hno in Hb'|]. apply Hs in Hb' as [?|?]; [lia|].
  apply (hp_free HP). by replace (len - 32) with k by lia.
Qed.

(** The one block handed out becomes the pool. *)
Lemma pool_retire s v p n :
  rep s v -> fixedmblk (mmhead s) = 0 -> hv_live v = {[p := n]} -> 8216 <= n ->
  pool_ok (words s) p (pool_blks (p + 24) 32 256) (pool_blks (p + 24) 32 256) ->
  exists v', rep (set_head (set_fixedmblk (p - 8) (mmhead s)) s) v' /\ hv_spans v' = hv_spans v /\ hv_live v' = ∅ /\
    hv_pool v' = fixed_blks (p - 8) /\ p - 8 <> 0.
Proof.
  intros (rs & I & G & L) Hfx Hl Hn P. pose proof (hi_heap _ _ _ _ I) as HP.
  assert (has_blk rs (p - 8) (Blk n BUsed)) as Hu.
  { assert (hv_live v !! p = Some n) as [Hu|[Hx _]]%L; [by rewrite Hl, lookup_singleton_eq|done|congruence]. }
  destruct (heap_retire _ _ _ _ _ _ HP Hu) as (rs' & HP' & Hsp & Hb). destruct (has_blk_ok _ _ _ _ HP _ _ Hu) as (_ & Hp0 & _).
  exists (Mk_hview (hv_spans v) (<[p - 8 := n]> (hv_sys v)) ∅ (hv_free v) (fixed_blks (p - 8))). split; [|cbn; repeat split; lia]. exists rs'. split; [|split].
  - split; cbn; [by eapply heap_head|apply I|]. unfold pool_inv. rewrite decide_False by lia. exists n. split; [apply Hb; by right|].
    split; [done|]. unfold fixed_blks. replace (p - 8 + 8) with p by lia. by replace (p - 8 + 32) with (p + 24) by lia.
  - split; cbn; [rewrite Hsp; apply G|]. intros a z. rewrite Hb, lookup_insert_Some, (proj2 G). naive_solver.
  - intros q k. cbn. split; [done|]. intros [Hq|(_ & Hin & Hout & _)]; [|done]. apply Hb in Hq as [[Hq Hne]|[_ [=]]].
    assert (hv_live v !! q = Some k) as E by (apply L; by left). rewrite Hl in E. apply lookup_singleton_Some in E as [? _]. lia.
Qed.

(** The pool is taken from the heap and becomes a block of its own. *)
Lemma init_pool_spec s v a sz (Q : unit -> hstate -> Prop) :
  rep s v -> fixedmblk (mmhead s) = 0 -> hv_live v = ∅ -> hv_free v !! a = Some sz -> 8216 <= sz ->
  (forall s' v', rep s' v' -> hv_spans v' = hv_spans v -> hv_live v' = ∅ -> head_addr s' = head_addr s ->
     fixedmblk (mmhead s') <> 0 -> hv_pool v' = fixed_blks (fixedmblk (mmhead s')) -> Q tt s') ->
  hwp (init_fixed_pool (head_addr s)) Q s.
Proof.
  intros R Hfx Hlive Ha Hsz HQ. unfold init_fixed_pool. change (RHINO_CONFIG_MM_TLF_BLK_SIZE + MM_ALIGN_UP sizeof_mblk_pool_t) with 8216.
  hstep. eapply alloc_rep; [exact R|done|done| |].
  { intros _ Hfew. apply Hfew in Ha. change (need 8216) with 8216 in Ha. lia. }
  intros p n s2 v2 R2 [Hsp2 Hsy2] Hh2 Hf2 Hp0 Hp8 Hn _ Hl2 _. rewrite Hlive, insert_empty in Hl2.
  assert (hv_live v2 !! p = Some n) as Hp by (by rewrite Hl2, lookup_singleton_eq).
  destruct (rep_live _ _ _ _ R2 Hp) as (_ & _ & _ & _ & Hmap & base & len & Hin & Hb1 & Hb2).
  pose proof R2 as (rs2 & I2 & G2 & L2). destruct (Z.eqb_spec p 0); [lia|]. cbn [negb]. change (MM_ALIGN_UP sizeof_mblk_pool_t) with 24.
  change RHINO_CONFIG_MM_TLF_BLK_SIZE with 8192. change DEF_FIX_BLK_SIZE with 32.
  assert (p + n <= 2 ^ 32) as Hend.
  { pose proof Hp as Hu. apply L2 in Hu as [Hu|[Hx _]]; [|congruence].
    apply (has_blk_ok _ _ _ _ (hi_heap _ _ _ _ I2)) in Hu as (_ & _ & _ & _ & Hu & _). unfold blen in Hu. cbn in Hu. lia. }
  hstep. apply mblk_pool_init_spec; try lia; [done|adr|done|done| | |].
  { intros w Hw. apply Hmap. lia. }
  { intros i Hi. apply Hmap; [lia|adr]. }
  intros s3 P Hh3 Ha3 Hm. change (full_blocks 32 8192) with 256%nat in P.
  apply hwp_hupd. blk_words. destruct s3 as [m3 h3 k3]. cbn in Hh3, Ha3, P, Hm. subst h3 k3.
  assert (rep (set_words m3 s2) v2) as R3.
  { eapply rep_write; [exact R2|exact Hp|]. eapply mchg_mono; [exact Hm|]. intros w Hw. cbv beta in Hw. lia. }
  destruct (pool_retire _ _ _ _ R3 (eq_trans Hf2 Hfx) Hl2) as [v4 (R4 & Hs4 & Hl4 & Hp4 & Hp8')]; [lia|exact P|].
  eapply HQ; [exact R4|congruence|done|done|exact Hp8'|done].
Qed.

(** A heap on the memory at [addr]: the header, then one region, all free but the pool of small blocks. *)
Lemma init_head_spec s pp addr len (Q : kstat_t * Z -> hstate -> Prop) :
  let al := used_start addr in let ln := used_len addr len in
  pp <> 0 -> addr <> 0 -> 0 < al -> al mod 8 = 0 -> 9216 <= ln <= 2 ^ 24 -> ln mod 8 = 0 -> al + ln <= 2 ^ 32 ->
  region_mapped (words s) al ln ->
  (forall s' v', rep s' v' -> hv_spans v' = [(al + 96, ln - 96)] -> hv_live v' = ∅ -> head_addr s' = al ->
     fixedmblk (mmhead s') <> 0 -> hv_pool v' = fixed_blks (fixedmblk (mmhead s')) -> Q (RHINO_SUCCESS, al) s') ->
  hwp (krhino_init_mm_head pp addr len) Q s.
Proof.
  intros al ln Hpp Ha Hal Hal8 Hln Hln8 He Hmap HQ. unfold krhino_init_mm_head.
  destruct (Z.eqb_spec pp 0); [done|]. destruct (Z.eqb_spec addr 0); [done|]. cbv zeta. fold (used_len addr len) (used_start addr). fold al ln.
  change (MIN_FREE_MEMORY_SIZE + RHINO_CONFIG_MM_TLF_BLK_SIZE) with 9216. change MM_MAX_SIZE with (2 ^ 24).
  destruct (Z.eqb_spec ln 0); [lia|]. destruct (Z.ltb_spec ln 9216); [lia|]. destruct (Z.ltb_spec (2 ^ 24) ln); [lia|]. cbn [orb].
  change sizeof_k_mm_head with 92. change (MM_ALIGN_UP 92) with 96.
  assert (MM_ALIGN_DOWN (ln - 92) = ln - 96) as -> by (rewrite align_down by (unfold fits; lia); adr).
  set (s0 := Mk_hstate (words s) al (Mk_mm_head 0 0 0 (replicate (Z.to_nat MM_BIT_LEVEL) 0))).
  assert (rep s0 (Mk_hview [] ∅ ∅ ∅ [])) as (rs & I & G & L) by (apply empty_rep; lia).
  assert (region_bounds (al + 96) (ln - 96)) as Hbd by (repeat split; (lia || adr)).
  assert (region_mapped (words s0) (al + 96) (ln - 96)) as Hmap0 by (intros w Hw; apply Hmap; lia).
  hstep. change (hwp (new_head al) ?P s) with (P tt s0). cbv beta. hstep. apply init_mm_region_spec; [done|done|]. intros m1 Hm1 Hw1.
  hsteps. apply (hwp_next_blk _ 8); [eexists; split; [apply Hw1|by apply size_of_encw]|]. hstep. blk_words.
  replace (al + 96 + 8 + 8 + 8) with (al + 96 + 24) by lia.
  match goal with |- hwp _ _ ?st => change al with (head_addr st) at 1 end.
  eapply (add_rep s0 _ rs _ (al + 96) (ln - 96) I G L Hbd); cbn; [| | | |done|done|done|done|].
  - intros w Hw Hal4. by apply (mchg_dom _ _ _ Hm1), Hmap0.
  - by intros b l ?%elem_of_nil.
  - exact Hm1.
  - exact Hw1.
  - intros s2 fr2 R2 Ha2 Hf2 _. hsteps. assert (set_head (set_fixedmblk 0 (mmhead s2)) s2 = s2) as ->.
    { destruct s2 as [? ? []]. cbn in Hf2. by subst. }
    assert (fr2 !! (al + 96 + 16) = Some (ln - 96 - 32)) as Hfree by (apply (one_region_free _ _ _ _ R2); cbn; (done || lia)).
    change (head_addr s0) with al in Ha2. rewrite <- Ha2 at 1. eapply init_pool_spec; [exact R2|done|done|exact Hfree|lia|]. cbn. intros s' v' R' Hsp' Hl' Ha' Hf' Hp'.
    apply hwp_ret, (HQ s' v'); [done|done|done|by rewrite Ha'|done|done].
Qed.
