(* ===== verification/MmInit.v ===== *)
(** * [k_mm_init]

    No heap operation adds or removes a word of memory; the heap set up on the first
    region and extended with the others. *)

From S2P Require Import Prelude KErr Bitmap Mem MBlk MBlkSpec Mm MmWord MmList MmLayout MmFree MmAlloc MmSpec MmRealloc MmBoot.
Local Open Scope Z_scope.

(** ** The words there are stay the same *)

Definition stays {A} (m : H A) : Prop :=
  forall s a s', m s = Some (a, s') -> forall w, is_Some (words s' !! w) <-> is_Some (words s !! w).

Create HintDb stays.

Lemma stays_ret {A} (a : A) : stays (mret a).
Proof. by intros s a' s' [= <- <-]. Qed.

Lemma stays_bind {A B} (m : H A) (f : A -> H B) : stays m -> (forall a, stays (f a)) -> stays (m ≫= f).
Proof.
  intros Hm Hf s b s' E w. unfold mbind, H_bind in E. destruct (m s) as [[a s1]|] eqn:E1; [|done].
  rewrite (Hf _ _ _ _ E w). by eapply Hm.
Qed.

Lemma stays_ld a : stays (ld a).
Proof. intros s x s' E. unfold ld in E. by destruct (words s !! a); simplify_eq/=. Qed.

Lemma stays_st a v : stays (st a v).
Proof.
  intros s x s' E w. unfold st in E. destruct (words s !! a) as [y|] eqn:Ea; simplify_eq/=.
  rewrite lookup_insert_is_Some'. split; [|by right]. intros [<-|?]; [eauto|done].
Qed.

Lemma stays_hget {A} (f : k_mm_head -> A) : stays (hget f).
Proof. by intros s x s' [= <- <-]. Qed.

Lemma stays_hupd f : stays (hupd f).
Proof. by intros s x s' [= <- <-]. Qed.

Lemma stays_lift {A} (x : option A) : stays (lift x).
Proof. intros s a s' E. unfold lift in E. by destruct x; simplify_eq/=. Qed.

Lemma stays_stuck {A} : stays (@stuck A).
Proof. by intros s a s' [=]. Qed.

Lemma stays_is_head p : stays (is_head p).
Proof. intros s a s' E. unfold is_head in E. by destruct (decide _); simplify_eq. Qed.

Lemma stays_g_kmm_head : stays g_kmm_head.
Proof. by intros s x s' [= <- <-]. Qed.

Lemma stays_walk_fuel : stays walk_fuel.
Proof. by intros s x s' [= <- <-]. Qed.

Lemma stays_new_head a : stays (new_head a).
Proof. by intros s x s' [= <- <-]. Qed.

#[export] Hint Resolve stays_ret stays_ld stays_st stays_hget stays_hupd stays_lift stays_stuck stays_is_head : stays.
#[export] Hint Resolve stays_g_kmm_head stays_walk_fuel stays_new_head : stays.

(** Through the binds and the branches of a function. *)
Ltac stays :=
  repeat first
    [ solve [auto with stays]
    | apply stays_bind; [|intros ?]
    | lazymatch goal with
      | |- stays (if ?b then _ else _) => destruct b
      | |- stays (match ?x with _ => _ end) => destruct x
      end
    | progress cbv beta zeta ].

Lemma stays_zero_words a n : stays (zero_words a n).
Proof. revert a. induction n; intros a; cbn [zero_words]; stays. Qed.

Lemma stays_copy_words d a n : stays (copy_words d a n).
Proof. revert d a. induction n; intros d a; cbn [copy_words]; stays. Qed.

Lemma stays_pool_link fuel c n b e k : stays (pool_link fuel c n b e k).
Proof. revert c n k. induction fuel; intros c n k; cbn [pool_link]; stays. Qed.

Lemma stays_find_same_level fuel b size : stays (find_same_level fuel b size).
Proof. revert b. induction fuel; intros b; cbn [find_same_level]; unfold MM_GET_BUF_SIZE; stays. Qed.

#[export] Hint Resolve stays_zero_words stays_copy_words stays_pool_link stays_find_same_level : stays.

Lemma stays_buf_size b : stays (MM_GET_BUF_SIZE b).
Proof. unfold MM_GET_BUF_SIZE. stays. Qed.

#[export] Hint Resolve stays_buf_size : stays.

Lemma stays_blk_size b : stays (MM_GET_BLK_SIZE b).
Proof. unfold MM_GET_BLK_SIZE. stays. Qed.

Lemma stays_next_blk b : stays (MM_GET_NEXT_BLK b).
Proof. unfold MM_GET_NEXT_BLK. stays. Qed.

Lemma stays_get_freelist l : stays (get_freelist l).
Proof. unfold get_freelist. stays. Qed.

Lemma stays_set_freelist l b : stays (set_freelist l b).
Proof. unfold set_freelist. stays. Qed.

#[export] Hint Resolve stays_blk_size stays_next_blk stays_get_freelist stays_set_freelist : stays.

Lemma stays_insert b : stays (k_mm_freelist_insert b).
Proof. unfold k_mm_freelist_insert. stays. Qed.

Lemma stays_delete b : stays (k_mm_freelist_delete b).
Proof. unfold k_mm_freelist_delete. stays. Qed.

#[export] Hint Resolve stays_insert stays_delete : stays.

Lemma stays_mblk_alloc p b : stays (krhino_mblk_alloc p b).
Proof. unfold krhino_mblk_alloc. stays. Qed.

Lemma stays_mblk_free p b : stays (krhino_mblk_free p b).
Proof. unfold krhino_mblk_free. stays. Qed.

Lemma stays_pool_init p n a b c : stays (krhino_mblk_pool_init p n a b c).
Proof. unfold krhino_mblk_pool_init. stays. Qed.

#[export] Hint Resolve stays_mblk_alloc stays_mblk_free stays_pool_init : stays.

Lemma stays_free mm p : stays (k_mm_free mm p).
Proof. unfold k_mm_free, MM_IS_FIXEDBLK, k_mm_smallblk_free, k_mm_free_blk, merge_next, merge_prev. stays. Qed.

Lemma stays_alloc mm n : stays (k_mm_alloc mm n).
Proof.
  unfold k_mm_alloc, k_mm_alloc_small, k_mm_smallblk_alloc, k_mm_alloc_level, find_block, find_up_level, take_block, carve. stays.
Qed.

Lemma stays_region a n : stays (init_mm_region a n).
Proof. unfold init_mm_region. stays. Qed.

#[export] Hint Resolve stays_free stays_alloc stays_region : stays.

Lemma stays_init_head p a n : stays (krhino_init_mm_head p a n).
Proof. unfold krhino_init_mm_head, init_fixed_pool. stays. Qed.

Lemma stays_add_region mm a n : stays (krhino_add_mm_region mm a n).
Proof. unfold krhino_add_mm_region. stays. Qed.

(** A specification that keeps the words there are. *)
Lemma hwp_stays {A} (m : H A) Q s :
  stays m -> hwp m Q s -> hwp m (fun a s' => Q a s' /\ forall w, is_Some (words s' !! w) <-> is_Some (words s !! w)) s.
Proof. intros Hm (a & s' & E & HQ)%hwp_iff. apply hwp_iff. exists a, s'. split; [done|]. split; [done|by eapply Hm]. Qed.

(** ** The regions *)

(** The part of a region that is used. *)
Definition used_span (r : Z * Z) : Z * Z := (used_start r.1, used_len r.1 r.2).

Record region_fit (m : gmap Z Z) (r : Z * Z) : Prop := {
  rf_addr : r.1 <> 0;
  rf_bounds : region_bounds (used_span r).1 (used_span r).2;
  rf_mapped : region_mapped m (used_span r).1 (used_span r).2
}.

(** Each region is apart from [sp] and from those before it. *)
Fixpoint all_apart (sp : list (Z * Z)) (regs : list (Z * Z)) : Prop :=
  match regs with
  | [] => True
  | r :: regs =>
      (forall b l, (b, l) ∈ sp -> (used_span r).1 + (used_span r).2 <= b \/ b + l <= (used_span r).1) /\
      all_apart (used_span r :: sp) regs
  end.

(** The regions [k_mm_init] is given: the first has room for the header and the pool. *)
Definition regions_ok (m : gmap Z Z) (regs : list (Z * Z)) : Prop :=
  Forall (region_fit m) regs /\ all_apart [] regs /\ exists r, head regs = Some r /\ 9216 <= (used_span r).2.

(** The first region less the header. *)
Definition heap_spans (regs : list (Z * Z)) : list (Z * Z) :=
  match used_span <$> regs with [] => [] | (b, l) :: sp => (b + 96, l - 96) :: sp end.

Lemma region_fit_dom m m' r :
  (forall w, is_Some (m' !! w) <-> is_Some (m !! w)) -> region_fit m r -> region_fit m' r.
Proof. intros Hd [H1 H2 H3]. split; [done|done|]. intros w Hw Hal. apply Hd. by apply H3. Qed.

Lemma all_apart_shrink sp sp' regs :
  (forall b l, (b, l) ∈ sp' -> exists b' l', (b', l') ∈ sp /\ b' <= b /\ b + l <= b' + l') -> all_apart sp regs -> all_apart sp' regs.
Proof.
  revert sp sp'. induction regs as [|r regs IH]; intros sp sp' Hs; [done|]. cbn. intros [Hr Hrest]. split.
  - intros b l Hin. destruct (Hs _ _ Hin) as (b' & l' & Hin' & ? & ?). destruct (Hr _ _ Hin'); lia.
  - eapply IH; [|exact Hrest]. intros b l [E|Hin]%elem_of_cons.
    + exists b, l. split; [rewrite E; left|lia].
    + destruct (Hs _ _ Hin) as (b' & l' & Hin' & ?). exists b', l'. split; [by right|done].
Qed.

Lemma add_regions_spec regs s v (Q : unit -> hstate -> Prop) :
  rep s v -> Forall (region_fit (words s)) regs -> all_apart (hv_spans v) regs ->
  (forall s' v', rep s' v' -> hv_spans v' = hv_spans v ++ (used_span <$> regs) -> hv_live v' = hv_live v -> hv_pool v' = hv_pool v ->
     head_addr s' = head_addr s -> fixedmblk (mmhead s') = fixedmblk (mmhead s) -> Q tt s') ->
  hwp (add_regions regs) Q s.
Proof.
  revert s v. induction regs as [|[a n] regs IH]; intros s v R Hfit Hap HQ; cbn [add_regions].
  - apply hwp_ret. apply (HQ s v); [done|by rewrite app_nil_r|done|done|done|done].
  - apply Forall_cons in Hfit as [[F1 F2 F3] Hfit]. destruct Hap as [Hap1 Hap2].
    hstep. change (hwp g_kmm_head ?P s) with (P (head_addr s) s). cbv beta. hstep. eapply hwp_mono.
    { apply (hwp_stays _ (fun _ s' => exists v', rep s' v' /\ hv_spans v' = hv_spans v ++ [used_span (a, n)] /\ hv_live v' = hv_live v /\
        hv_pool v' = hv_pool v /\ head_addr s' = head_addr s /\ fixedmblk (mmhead s') = fixedmblk (mmhead s))); [apply stays_add_region|].
      eapply add_region_spec; [exact R|exact F1|exact F2|exact F3|exact Hap1|]. intros s' fr' R' Ha Hf _. eexists. split; [exact R'|]. done. }
    intros _ s' [(v' & R' & Hsp & Hl & Hp & Ha & Hf) Hd]. cbv beta. eapply (IH s' v'); [exact R'| | |].
    + eapply Forall_impl; [exact Hfit|]. intros r. by apply region_fit_dom.
    + eapply all_apart_shrink; [|exact Hap2]. intros b l Hin. exists b, l. split; [|lia]. rewrite Hsp in Hin.
      apply elem_of_app in Hin as [Hin|[= -> ->]%list_elem_of_singleton]; [by right|left].
    + intros s2 v2 R2 Hsp2 Hl2 Hp2 Ha2 Hf2. apply (HQ s2 v2); [done| |congruence|congruence|congruence|congruence].
      rewrite Hsp2, Hsp, <- app_assoc. done.
Qed.

(** The heap is set up on all regions, with nothing handed out and all blocks of the pool available. *)
Lemma k_mm_init_spec regs s (Q : unit -> hstate -> Prop) :
  regions_ok (words s) regs ->
  (forall s' v', rep s' v' -> hv_spans v' = heap_spans regs -> hv_live v' = ∅ -> fixedmblk (mmhead s') <> 0 ->
     hv_pool v' = fixed_blks (fixedmblk (mmhead s')) -> Q tt s') ->
  hwp (k_mm_init regs) Q s.
Proof.
  intros (Hfit & Hap & [a n] & Hhd & Hn) HQ. destruct regs as [|r regs]; [done|]. injection Hhd as ->.
  apply Forall_cons in Hfit as [[F1 F2 F3] Hfit]. destruct Hap as [_ Hap]. cbn in F1, F2, F3, Hn. destruct F2 as (B1 & B2 & B3 & B4 & B5).
  unfold k_mm_init. hstep. apply hwp_lift with (a, n); [done|]. hstep. eapply hwp_mono.
  { apply (hwp_stays _ (fun _ s' => exists v', rep s' v' /\ hv_spans v' = [(used_start a + 96, used_len a n - 96)] /\ hv_live v' = ∅ /\
      fixedmblk (mmhead s') <> 0 /\ hv_pool v' = fixed_blks (fixedmblk (mmhead s')))); [apply stays_init_head|].
    apply init_head_spec; try done; [lia|]. intros s' v' R' Hsp Hl Ha Hf Hp. by exists v'. }
  intros _ s' [(v' & R' & Hsp & Hl & Hf & Hp) Hd]. cbv beta. cbn [drop]. eapply (add_regions_spec _ s' v'); [exact R'| | |].
  - eapply Forall_impl; [exact Hfit|]. intros r. by apply region_fit_dom.
  - eapply all_apart_shrink; [|exact Hap]. intros b l Hin. rewrite Hsp in Hin. apply list_elem_of_singleton in Hin as [= -> ->].
    eexists _, _. split; [left|]. cbn. lia.
  - intros s2 v2 R2 Hsp2 Hl2 Hp2 Ha2 Hf2. apply (HQ s2 v2); [done| |congruence|congruence|congruence].
    rewrite Hsp2, Hsp. done.
Qed.
