(* ===== verification/MmCalls.v ===== *)
(** * The heap as an allocator

    The calls a client makes on the heap, an abstract allocator that maps addresses to
    arrays of words, and the theorems that the heap implements it: no call gets stuck,
    blocks handed out stay apart and keep their contents, an allocation fails only
    when no free block is large enough, and nothing is lost by freeing. *)

From S2P Require Import Prelude KErr Bitmap Mem MBlk MBlkSpec Mm MmWord MmList MmLayout MmFree MmAlloc MmSpec MmRealloc MmBoot MmInit.
Local Open Scope Z_scope.

(** The calls on [g_kmm_head], and the client's accesses to the words of its blocks. *)
Inductive hcall :=
| HAlloc (size : Z)
| HFree (p : Z)
| HRealloc (p size : Z)
| HRead (p : Z) (i : nat)
| HWrite (p : Z) (i : nat) (x : Z).

Definition hrun (c : hcall) : H Z :=
  match c with
  | HAlloc size => krhino_mm_alloc size
  | HFree p => krhino_mm_free p;; mret 0
  | HRealloc p size => krhino_mm_realloc p size
  | HRead p i => ld (p + 4 * Z.of_nat i)
  | HWrite p i x => st (p + 4 * Z.of_nat i) x;; mret 0
  end.

(** ** The abstract allocator *)

(** The blocks handed out: the size asked for and the words. *)
Notation amap := (gmap Z (Z * list Z)).

Definition fresh (A : amap) (p size : Z) : Prop :=
  0 < p /\ p mod 8 = 0 /\ forall q k ws, A !! q = Some (k, ws) -> p + size <= q \/ q + k <= p.

Inductive astep (A : amap) : hcall -> Z -> amap -> Prop :=
| as_alloc_null size : astep A (HAlloc size) 0 A
| as_alloc size p ws :
    fresh A p size -> length ws = Z.to_nat (size / 4) -> astep A (HAlloc size) p (<[p := (size, ws)]> A)
| as_free_null : astep A (HFree 0) 0 A
| as_free p b : A !! p = Some b -> astep A (HFree p) 0 (delete p A)
| as_realloc_null p size : p = 0 \/ 0 < size -> astep A (HRealloc p size) 0 A
| as_realloc_alloc size p ws :
    fresh A p size -> length ws = Z.to_nat (size / 4) -> astep A (HRealloc 0 size) p (<[p := (size, ws)]> A)
| as_realloc_free p b : A !! p = Some b -> astep A (HRealloc p 0) 0 (delete p A)
| as_realloc p size k ws q ws' :
    A !! p = Some (k, ws) -> fresh (delete p A) q size -> length ws' = Z.to_nat (size / 4) ->
    (forall i, 4 * Z.of_nat i + 4 <= Z.min k size -> ws' !! i = ws !! i) ->
    astep A (HRealloc p size) q (<[q := (size, ws')]> (delete p A))
| as_read p i k ws x : A !! p = Some (k, ws) -> ws !! i = Some x -> astep A (HRead p i) x A
| as_write p i k ws x : A !! p = Some (k, ws) -> astep A (HWrite p i x) 0 (<[p := (k, <[i := x]> ws)]> A).

(** What a client may call: sizes that survive rounding, and only blocks it holds. *)
Definition may_call (A : amap) (c : hcall) : Prop :=
  match c with
  | HAlloc size => 0 <= size /\ size + 7 < 2 ^ 32
  | HFree p => p = 0 \/ is_Some (A !! p)
  | HRealloc p size => (p = 0 \/ is_Some (A !! p)) /\ 0 <= size /\ size + 7 < 2 ^ 32
  | HRead p i | HWrite p i _ => exists k ws, A !! p = Some (k, ws) /\ (i < length ws)%nat
  end.

(** ** The words of a block *)

Definition contents (m : gmap Z Z) (p size : Z) : list Z :=
  (fun i => default 0 (m !! (p + 4 * Z.of_nat i))) <$> seq 0 (Z.to_nat (size / 4)).

Lemma contents_length m p size : length (contents m p size) = Z.to_nat (size / 4).
Proof. unfold contents. by rewrite length_fmap, length_seq. Qed.

Lemma contents_lookup m p size i :
  4 * Z.of_nat i + 4 <= size -> contents m p size !! i = Some (default 0 (m !! (p + 4 * Z.of_nat i))).
Proof.
  intros Hi. unfold contents. rewrite list_lookup_fmap, lookup_seq_lt; [done|].
  assert (Z.of_nat i + 1 <= size / 4) by (apply Z.div_le_lower_bound; lia). lia.
Qed.

(** The indices of a block are its whole words. *)
Lemma contents_index m p size i : (i < length (contents m p size))%nat -> 4 * Z.of_nat i + 4 <= size.
Proof.
  rewrite contents_length. intros Hi. pose proof (Z.mul_div_le size 4). lia.
Qed.

Lemma contents_eq m m' p size :
  (forall w, p <= w < p + size -> m' !! w = m !! w) -> contents m' p size = contents m p size.
Proof.
  intros Hm. apply list_fmap_ext. intros i x [-> Hi]%lookup_seq. cbn.
  pose proof (Z.mul_div_le size 4). rewrite Hm by lia. done.
Qed.

Lemma contents_write m p size i x :
  (i < length (contents m p size))%nat -> contents (<[p + 4 * Z.of_nat i := x]> m) p size = <[i := x]> (contents m p size).
Proof.
  intros Hi. apply list_eq. intros j. destruct (decide (j = i)) as [->|Hne].
  - rewrite list_lookup_insert_eq by done. rewrite contents_lookup by (by eapply contents_index). by rewrite lookup_insert_eq.
  - rewrite list_lookup_insert_ne by done. unfold contents. rewrite !list_lookup_fmap.
    destruct (seq 0 (Z.to_nat (size / 4)) !! j) as [k|] eqn:E; [|done]. apply lookup_seq in E as [-> _]. cbn.
    rewrite lookup_insert_ne by lia. done.
Qed.

(** ** The refinement relation *)

(** The blocks of [A] are those of [L], with the words of the memory. *)
Record agree (m : gmap Z Z) (L : gmap Z Z) (A : amap) : Prop := {
  ag_dom p n : L !! p = Some n -> is_Some (A !! p);
  ag_blk p k ws : A !! p = Some (k, ws) -> exists n, L !! p = Some n /\ 0 < k <= n /\ ws = contents m p k
}.

#[global] Arguments ag_dom {m L A}.
#[global] Arguments ag_blk {m L A}.

Definition holds (s : hstate) (v : hview) (A : amap) : Prop := rep s v /\ agree (words s) (hv_live v) A.


Lemma agree_empty m L : agree m L ∅ <-> L = ∅.
Proof.
  split.
  - intros H. apply map_empty. intros p. destruct (L !! p) as [n|] eqn:E; [|done]. apply (ag_dom H) in E as [? E]. done.
  - intros ->. split; intros p; by rewrite lookup_empty.
Qed.

Lemma agree_none m L A p : agree m L A -> L !! p = None -> A !! p = None.
Proof.
  intros H Hp. destruct (A !! p) as [[k ws]|] eqn:E; [|done]. apply (ag_blk H) in E as (n & E & _). congruence.
Qed.

Lemma agree_delete m L A p : agree m L A -> agree m (delete p L) (delete p A).
Proof.
  intros H. split.
  - intros q n [Hne Hq]%lookup_delete_Some. rewrite lookup_delete_ne by done. by apply (ag_dom H) in Hq.
  - intros q k ws [Hne Hq]%lookup_delete_Some. rewrite lookup_delete_ne by done. by apply (ag_blk H).
Qed.

Lemma agree_insert m L A p n k :
  agree m L A -> 0 < k <= n -> agree m (<[p := n]> L) (<[p := (k, contents m p k)]> A).
Proof.
  intros H Hk. split; intros q.
  - intros n' Hq. destruct (decide (q = p)) as [->|Hne]; [rewrite lookup_insert_eq; eauto|].
    rewrite lookup_insert_ne by done. rewrite lookup_insert_ne in Hq by done. by apply (ag_dom H) in Hq.
  - intros k' ws Hq. destruct (decide (q = p)) as [->|Hne].
    + rewrite lookup_insert_eq. rewrite lookup_insert_eq in Hq. injection Hq as <- <-. eauto.
    + rewrite lookup_insert_ne by done. rewrite lookup_insert_ne in Hq by done. by apply (ag_blk H).
Qed.

Lemma agree_frame s s' L A : agree (words s) L A -> same_contents L s s' -> agree (words s') L A.
Proof.
  intros H Hc. split; [apply H|]. intros p k ws Hp. destruct (ag_blk H _ _ _ Hp) as (n & Hn & Hk & ->).
  exists n. split; [done|]. split; [done|]. symmetry. apply contents_eq. intros w Hw. apply (Hc p n); [done|lia].
Qed.

(** A block that joins those of [L] is apart from those of [A]. *)
Lemma agree_fresh s v m L A p n size :
  rep s v -> hv_live v = <[p := n]> L -> L !! p = None -> agree m L A -> size <= n -> fresh A p size.
Proof.
  intros R HL Hp H Hs. assert (hv_live v !! p = Some n) as Hn by (by rewrite HL, lookup_insert_eq).
  destruct (rep_live _ _ _ _ R Hn) as (Hp0 & Hp8 & _). split; [done|]. split; [done|].
  intros q k ws Hq. destruct (ag_blk H _ _ _ Hq) as (nq & Hnq & Hk & _). assert (q <> p) by congruence.
  assert (hv_live v !! q = Some nq) as Hnq' by (by rewrite HL, lookup_insert_ne).
  destruct (rep_disjoint _ _ _ _ _ _ R Hn Hnq'); [done|lia|lia].
Qed.

(** The client's own account of a call. *)
Definition track (A : amap) (c : hcall) (r : Z) (s' : hstate) : amap :=
  match c with
  | HAlloc size => if decide (r = 0) then A else <[r := (size, contents (words s') r size)]> A
  | HFree p => delete p A
  | HRealloc p size =>
      if decide (r = 0) then (if decide (size = 0) then delete p A else A)
      else <[r := (size, contents (words s') r size)]> (delete p A)
  | HRead _ _ => A
  | HWrite p i x => match A !! p with Some (k, ws) => <[p := (k, <[i := x]> ws)]> A | None => A end
  end.

Lemma holds_null s v A : holds s v A -> A !! 0 = None.
Proof.
  intros [R H]. eapply agree_none; [exact H|]. destruct (hv_live v !! 0) as [n|] eqn:E; [|done].
  destruct (rep_live _ _ _ _ R E) as [? _]. lia.
Qed.

(** ** Each call implements the abstract one *)

(** The heap holds [A], on the regions and with the own blocks of [v]. *)
Definition holds_on (v : hview) (s : hstate) (A : amap) : Prop := exists v', same_ground v v' /\ holds s v' A.

Lemma holds_on_refl s v A : holds s v A -> holds_on v s A.
Proof. by exists v. Qed.

Lemma sim_alloc s v A size (Q : Z -> hstate -> Prop) :
  holds s v A -> 0 < size -> size + 7 < 2 ^ 32 -> Q 0 s ->
  (forall p s', p <> 0 -> fresh A p size -> holds_on v s' (<[p := (size, contents (words s') p size)]> A) -> Q p s') ->
  hwp (k_mm_alloc (head_addr s) size) Q s.
Proof.
  intros [R HA] Hs Hs32 H0 HQ. eapply alloc_rep; [exact R|done|done|done|].
  intros p n s' v' R' G _ _ Hp0 Hp8 Hn Hnone HL Hc. apply HQ; [lia|by eapply agree_fresh|].
  exists v'. split; [done|]. split; [done|]. rewrite HL. apply agree_insert; [by eapply agree_frame|lia].
Qed.

Lemma sim_free s v A p (Q : unit -> hstate -> Prop) :
  holds s v A -> is_Some (A !! p) -> (forall s', holds_on v s' (delete p A) -> Q tt s') ->
  hwp (k_mm_free (head_addr s) p) Q s.
Proof.
  intros [R HA] [[k ws] Hp] HQ. destruct (ag_blk HA _ _ _ Hp) as (n & Hn & _). eapply free_rep; [exact R|exact Hn|].
  intros s' v' R' G _ HL Hc. apply HQ. exists v'. split; [done|]. split; [done|]. rewrite HL.
  eapply agree_frame; [|exact Hc]. by apply agree_delete.
Qed.

Lemma sim_realloc s v A p k ws size (Q : Z -> hstate -> Prop) :
  holds s v A -> A !! p = Some (k, ws) -> 0 < size -> size + 7 < 2 ^ 32 -> Q 0 s ->
  (forall q s', q <> 0 -> fresh (delete p A) q size ->
     (forall i, 4 * Z.of_nat i + 4 <= Z.min k size -> contents (words s') q size !! i = ws !! i) ->
     holds_on v s' (<[q := (size, contents (words s') q size)]> (delete p A)) -> Q q s') ->
  hwp (k_mm_realloc (head_addr s) p size) Q s.
Proof.
  intros [R HA] Hp Hs Hs32 H0 HQ. destruct (ag_blk HA _ _ _ Hp) as (n & Hn & Hk & ->).
  eapply realloc_rep; [exact R|exact Hn|done|done|done|].
  intros q s' (v' & n' & R' & G & _ & Hq0 & Hn' & HL & Hq & Hc & Hmv).
  assert (delete p (hv_live v) !! q = None) as Hnone.
  { destruct Hq as [->|Hq]; [apply lookup_delete_eq|]. rewrite lookup_delete_ne; [done|]. congruence. }
  assert (agree (words s') (delete p (hv_live v)) (delete p A)) as HA' by (eapply agree_frame; [|exact Hc]; by apply agree_delete).
  apply HQ; [lia|by eapply agree_fresh| |].
  - intros i Hi. rewrite !contents_lookup by lia. do 2 f_equal. apply Hmv; [lia|adr].
  - exists v'. split; [done|]. split; [done|]. rewrite HL. apply agree_insert; [done|lia].
Qed.

Lemma sim_word s v A p k ws i :
  holds s v A -> A !! p = Some (k, ws) -> (i < length ws)%nat ->
  exists n x, hv_live v !! p = Some n /\ k <= n /\ 4 * Z.of_nat i + 4 <= k /\ ws = contents (words s) p k /\
    words s !! (p + 4 * Z.of_nat i) = Some x /\ ws !! i = Some x.
Proof.
  intros [R HA] Hp Hi. destruct (ag_blk HA _ _ _ Hp) as (n & Hn & Hk & ->). pose proof (contents_index _ _ _ _ Hi) as Hi'.
  destruct (rep_live _ _ _ _ R Hn) as (_ & Hp8 & _ & _ & Hmap & _).
  destruct (Hmap (p + 4 * Z.of_nat i)) as [x Hx]; [lia|adr|]. exists n, x. split; [done|]. split; [lia|]. split; [done|].
  split; [done|]. split; [done|]. by rewrite contents_lookup, Hx by done.
Qed.

(** Writing to one block leaves the others alone. *)
Lemma agree_write s v A p k ws i n x :
  holds s v A -> A !! p = Some (k, ws) -> hv_live v !! p = Some n -> k <= n -> 4 * Z.of_nat i + 4 <= k ->
  ws = contents (words s) p k -> (i < length ws)%nat ->
  agree (<[p + 4 * Z.of_nat i := x]> (words s)) (hv_live v) (<[p := (k, <[i := x]> ws)]> A).
Proof.
  intros [R HA] Hp Hn Hkn Hik -> Hi. rewrite <- contents_write by done. rewrite <- (insert_id (hv_live v) p n Hn).
  rewrite <- (insert_delete_eq (hv_live v)), <- (insert_delete_eq A). destruct (ag_blk HA _ _ _ Hp) as (n' & Hn' & Hk & _).
  apply agree_insert; [|lia]. change (<[p + 4 * Z.of_nat i := x]> (words s)) with (words (set_words (<[p + 4 * Z.of_nat i := x]> (words s)) s)).
  eapply agree_frame; [by apply agree_delete|].
  intros q nq w [Hne Hq]%lookup_delete_Some Hw. apply lookup_insert_ne. intros <-.
  destruct (rep_disjoint _ _ _ _ _ _ R Hn Hq); [done|lia|lia].
Qed.

Lemma hwp_g_kmm_head s (Q : Z -> hstate -> Prop) : Q (head_addr s) s -> hwp g_kmm_head Q s.
Proof. done. Qed.

Lemma heap_sim s v A c :
  holds s v A -> may_call A c ->
  hwp (hrun c) (fun r s' => astep A c r (track A c r s') /\ holds_on v s' (track A c r s')) s.
Proof.
  intros Hh Hc. pose proof (holds_on_refl _ _ _ Hh) as Ho. pose proof (holds_null _ _ _ Hh) as Hnull. destruct c as [size|p|p size|p i|p i x]; cbn in Hc |- *.
  - unfold krhino_mm_alloc. destruct (Z.eqb_spec size 0) as [->|Hs]; [apply hwp_ret; split; [constructor|done]|].
    hstep. apply hwp_g_kmm_head, (sim_alloc _ _ _ _ _ Hh); [lia|lia|split; [constructor|done]|].
    intros p s' Hp Hf Ho'. rewrite decide_False by done. split; [by constructor; [|apply contents_length]|done].
  - hstep. unfold krhino_mm_free. hstep. apply hwp_g_kmm_head. destruct (decide (p = 0)) as [->|Hp0].
    + unfold k_mm_free. cbn [Z.eqb orb]. apply hwp_ret, hwp_ret. rewrite delete_id by done. split; [constructor|done].
    + destruct Hc as [|[b Hp]]; [done|]. apply (sim_free _ _ _ _ _ Hh); [eauto|]. intros s' Ho'. apply hwp_ret. split; [by econstructor|done].
  - unfold krhino_mm_realloc. hstep. apply hwp_g_kmm_head. destruct Hc as (Hp & Hs & Hs32). destruct (decide (p = 0)) as [->|Hp0].
    + unfold k_mm_realloc. cbn [Z.eqb]. rewrite (delete_id A 0) by done. destruct (Z.ltb_spec 0 size) as [Hs0|Hs0].
      * apply (sim_alloc _ _ _ _ _ Hh); [done|done| |].
        { rewrite decide_True, decide_False by lia. split; [constructor; by left|done]. }
        intros p s' Hp' Hf Ho'. rewrite decide_False by done. split; [by constructor; [|apply contents_length]|done].
      * apply hwp_ret. rewrite !decide_True by lia. split; [constructor; by left|done].
    + destruct Hp as [|[[k ws] Hp]]; [done|]. destruct (decide (size = 0)) as [->|Hs0].
      * unfold k_mm_realloc. destruct (Z.eqb_spec p 0); [done|]. cbn [Z.eqb]. hstep. apply (sim_free _ _ _ _ _ Hh); [eauto|].
        intros s' Ho'. apply hwp_ret. rewrite decide_True by done. split; [by econstructor|done].
      * apply (sim_realloc _ _ _ _ _ _ _ _ Hh Hp); [lia|done| |].
        { rewrite decide_True by done. split; [constructor; right; lia|done]. }
        intros q s' Hq Hf Hi Ho'. rewrite decide_False by done. split; [|done].
        econstructor; [exact Hp|done|apply contents_length|exact Hi].
  - destruct Hc as (k & ws & Hp & Hi). destruct (sim_word _ _ _ _ _ _ _ Hh Hp Hi) as (n & x & _ & _ & _ & _ & Hx & Hw).
    eapply hwp_ld; [exact Hx|]. split; [by econstructor|done].
  - destruct Hc as (k & ws & Hp & Hi). destruct (sim_word _ _ _ _ _ _ _ Hh Hp Hi) as (n & y & Hn & Hkn & Hik & Ew & Hy & Hw).
    hstep. apply hwp_st; [eauto|]. apply hwp_ret. rewrite Hp. split; [by econstructor|]. exists v. split; [done|]. split.
    + eapply rep_write; [apply Hh|exact Hn|]. apply mchg_insert; [eauto|lia].
    + by eapply agree_write.
Qed.

(** ** Whole runs *)

(** What a client can do from [s0], where it holds nothing, with its own account of its blocks. *)
Inductive hruns (s0 : hstate) : hstate -> amap -> Prop :=
| hr_start : hruns s0 s0 ∅
| hr_call s A c r s' : hruns s0 s A -> may_call A c -> hrun c s = Some (r, s') -> hruns s0 s' (track A c r s').

Lemma hruns_holds s0 v0 s A : holds s0 v0 ∅ -> hruns s0 s A -> holds_on v0 s A.
Proof.
  intros H0. induction 1 as [|s A c r s' _ (v & G & Hv) Hc E]; [by exists v0|].
  pose proof (heap_sim _ _ _ _ Hv Hc) as Hs. unfold hwp in Hs. rewrite E in Hs. destruct Hs as [_ (v' & G' & Hv')].
  exists v'. split; [by eapply same_ground_trans|done].
Qed.


Lemma alloc_fails_iff s v size :
  rep s v -> 0 < size < 2 ^ 32 ->
  hwp (krhino_mm_alloc size) (fun r s' => (r = 0 <-> ~ has_room v size) /\ (r = 0 -> s' = s)) s.
Proof.
  intros R Hs. unfold krhino_mm_alloc. destruct (Z.eqb_spec size 0); [lia|]. hstep. apply hwp_g_kmm_head.
  eapply alloc_any; [exact R|done| |].
  - intros Hp Hf. split; [|done]. split; [|done]. intros _ [[Hs' Hne]|(a & sz & Ha & Hle)].
    + by apply Hne, Hp.
    + apply Hf in Ha. lia.
  - intros p k s' v' Hr _ _ _ _ Hp _ _ _ _ _. split; [|lia]. split; [lia|]. by intros [].
Qed.


(** ** The properties *)

(** C3: every call a client may make returns; its result and its effect on the blocks the client
    holds are those of an abstract allocator, a map from addresses to arrays of words: a new block
    is aligned and apart from all others, [realloc] keeps the words that fit, a failing call changes
    nothing, a write changes the one word, and all other words of all blocks keep their values. *)
Theorem heap_refines_allocator s v A c :
  holds s v A -> may_call A c ->
  exists r s', hrun c s = Some (r, s') /\ astep A c r (track A c r s') /\ holds_on v s' (track A c r s').
Proof. intros Hh Hc. pose proof (heap_sim _ _ _ _ Hh Hc) as (r & s' & E & H1 & H2)%hwp_iff. eauto. Qed.

(** C4: whatever a client does, the blocks it holds are aligned to 8 bytes, lie inside the regions
    given to the heap, do not overlap, and the memory has the words the client expects there. *)
Theorem heap_blocks_safe s0 v0 s A :
  holds s0 v0 ∅ -> hruns s0 s A ->
  (forall p k ws, A !! p = Some (k, ws) ->
     0 < p /\ p mod 8 = 0 /\ ws = contents (words s) p k /\
     (exists base len, (base, len) ∈ hv_spans v0 /\ base <= p /\ p + k <= base + len) /\
     (forall w, p <= w < p + k -> w mod 4 = 0 -> is_Some (words s !! w))) /\
  (forall p k ws q j ws', A !! p = Some (k, ws) -> A !! q = Some (j, ws') -> p <> q -> p + k <= q \/ q + j <= p).
Proof.
  intros H0 (v & [Hsp _] & R & HA)%(hruns_holds _ _ _ _ H0). split.
  - intros p k ws (n & Hn & Hk & ->)%(ag_blk HA). destruct (rep_live _ _ _ _ R Hn) as (? & ? & _ & _ & Hmap & b & l & Hin & ? & ?).
    split; [done|]. split; [done|]. split; [done|]. split; [|intros w ?; apply Hmap; lia]. exists b, l. rewrite <- Hsp. split; [done|lia].
  - intros p k ws q j ws' (n & Hn & Hk & _)%(ag_blk HA) (n' & Hn' & Hj & _)%(ag_blk HA) Hne.
    destruct (rep_disjoint _ _ _ _ _ _ R Hn Hn' Hne); lia.
Qed.

(** After any run, every call the client may make returns: the walk along a free list ends and
    no header or link word is missing. *)
Theorem heap_calls_return s0 v0 s A c :
  holds s0 v0 ∅ -> hruns s0 s A -> may_call A c -> is_Some (hrun c s).
Proof.
  intros H0 (v & _ & Hv)%(hruns_holds _ _ _ _ H0) Hc. pose proof (heap_sim _ _ _ _ Hv Hc) as (r & s' & E & _)%hwp_iff. eauto.
Qed.

(** C19: an allocation returns NULL exactly when the pool cannot serve it and no free block has the
    rounded size; it changes nothing then. *)
Theorem heap_alloc_exact s v size :
  rep s v -> 0 < size < 2 ^ 32 ->
  exists r s', krhino_mm_alloc size s = Some (r, s') /\ (r = 0 <-> ~ has_room v size) /\ (r = 0 -> s' = s).
Proof. intros R Hs. pose proof (alloc_fails_iff _ _ _ R Hs) as (r & s' & E & H)%hwp_iff. eauto. Qed.


(** C20: [k_mm_init] on disjoint regions, the first with room for the header and the pool, sets up a
    heap that holds nothing, on those regions, with all 256 small blocks available. *)
Theorem heap_init_ready s regs :
  regions_ok (words s) regs ->
  exists s' v, k_mm_init regs s = Some (tt, s') /\ holds s' v ∅ /\ hv_spans v = heap_spans regs /\ length (hv_pool v) = 256%nat.
Proof.
  intros Hr. pose proof (k_mm_init_spec regs s (fun _ s' => exists v, holds s' v ∅ /\ hv_spans v = heap_spans regs /\ length (hv_pool v) = 256%nat) Hr) as Hi.
  destruct (proj1 (hwp_iff _ _ _) (Hi ltac:(intros s' v' R Hsp Hl _ Hp; exists v'; rewrite Hp; split; [split; [done|by apply agree_empty]|];
    split; [done|apply pool_blks_length]))) as ([] & s' & E & v & H). eauto.
Qed.

(** A request within 7 bytes of the top of the size range is rounded to zero, and is given a block
    of less than 72 bytes instead of NULL. *)
Theorem heap_huge_request_served s v size :
  rep s v -> 2 ^ 32 - 7 <= size < 2 ^ 32 -> (exists a sz, hv_free v !! a = Some sz) ->
  exists p n s' v', krhino_mm_alloc size s = Some (p, s') /\ p <> 0 /\ rep s' v' /\ hv_live v' = <[p := n]> (hv_live v) /\ n < 72.
Proof.
  intros R Hs (a & sz & Ha). assert (32 <= sz) as Hsz.
  { destruct R as (rs & I & _ & _). apply (hp_free (hi_heap _ _ _ _ I)) in Ha.
    by destruct (has_blk_ok _ _ _ _ (hi_heap _ _ _ _ I) _ _ Ha) as ([_ [[? _] _]] & _). }
  pose proof (alloc_any s v size (fun p s' => p <> 0 /\ exists n v', rep s' v' /\ hv_live v' = <[p := n]> (hv_live v) /\ n < 72) R) as Hx.
  rewrite (rounded_wraps size Hs) in Hx. destruct (proj1 (hwp_iff _ _ _) (Hx ltac:(lia)
    ltac:(intros _ Hf; apply Hf in Ha; lia) ltac:(intros p n s' v' _ R' _ _ _ ? _ ? _ ? _; split; [lia|]; exists n, v'; split; [done|]; split; [done|lia])))
    as (p & s' & E & Hp & n & v' & H).
  exists p, n, s', v'. split; [|done]. unfold krhino_mm_alloc. destruct (Z.eqb_spec size 0); [lia|]. exact E.
Qed.

(** ** Examples *)

Lemma block_mem_mapped a n base len :
  a mod 4 = 0 -> a <= base -> base + len <= a + 4 * n -> region_mapped (block_mem a n) base len.
Proof. intros Ha Hb Hl w Hw Hal. apply block_mem_lookup; [done|lia|done]. Qed.

(** A heap of 256 bytes with no pool. *)
Definition small_raw : hstate := Mk_hstate (block_mem 0x8000 64) 0x4000 (Mk_mm_head 0 0 0 (replicate (Z.to_nat MM_BIT_LEVEL) 0)).

Definition small_heap : hstate :=
  match krhino_add_mm_region 0x4000 0x8000 256 small_raw with Some (_, s) => s | None => small_raw end.

Lemma small_heap_rep : exists v, rep small_heap v /\ hv_live v = ∅ /\ hv_spans v = [(0x8000, 256)] /\ hv_free v !! 0x8010 = Some 224.
Proof.
  assert (hwp (krhino_add_mm_region (head_addr small_raw) 0x8000 256)
    (fun _ s => exists v, rep s v /\ hv_live v = ∅ /\ hv_spans v = [(0x8000, 256)] /\ hv_free v !! 0x8010 = Some 224) small_raw) as Hs.
  { eapply add_region_spec; [by apply empty_rep|done| | | |].
    - change (used_start 0x8000) with 0x8000. change (used_len 0x8000 256) with 256. repeat split; lia.
    - change (used_start 0x8000) with 0x8000. change (used_len 0x8000 256) with 256. apply block_mem_mapped; [done|lia|lia].
    - by intros b l ?%elem_of_nil.
    - intros s' fr' R _ _ _. eexists. split; [exact R|]. split; [done|]. split; [done|].
      exact (one_region_free s' _ 0x8000 256 R eq_refl eq_refl eq_refl ltac:(lia)). }
  unfold hwp in Hs. change (head_addr small_raw) with 0x4000 in Hs. unfold small_heap.
  destruct (krhino_add_mm_region 0x4000 0x8000 256 small_raw) as [[r s]|]; [exact Hs|done].
Qed.

Lemma small_holds : exists v, holds small_heap v ∅ /\ hv_spans v = [(0x8000, 256)] /\ hv_free v !! 0x8010 = Some 224.
Proof. destruct small_heap_rep as (v & R & Hl & Hs & Hf). exists v. split; [|done]. split; [done|by apply agree_empty]. Qed.

(** The client allocates 100 bytes. *)
Lemma small_alloc : exists p s ws, p <> 0 /\ hruns small_heap s {[p := (100, ws)]}.
Proof.
  destruct small_heap_rep as (v & R & Hl & _ & Hf). destruct (proj1 (hwp_iff _ _ _) (alloc_fails_iff _ _ 100 R ltac:(lia))) as (p & s & E & Hp & _).
  assert (p <> 0) as Hp0. { rewrite Hp. intros Hn. apply Hn. right. exists 0x8010, 224. split; [exact Hf|]. by vm_compute. }
  exists p, s, (contents (words s) p 100). split; [exact Hp0|].
  pose proof (hr_call small_heap small_heap ∅ (HAlloc 100) p s (hr_start _) ltac:(cbn; lia) E) as Hr. cbn [track] in Hr.
  by rewrite decide_False, insert_empty in Hr.
Qed.

Lemma heap_refines_allocator_witness : exists v r s', hrun (HAlloc 100) small_heap = Some (r, s') /\
  astep ∅ (HAlloc 100) r (track ∅ (HAlloc 100) r s') /\ holds_on v s' (track ∅ (HAlloc 100) r s').
Proof.
  destruct small_holds as (v & Hv & _). exists v. apply (heap_refines_allocator small_heap v ∅ (HAlloc 100) Hv). cbn. lia.
Defined.

Lemma heap_blocks_safe_witness : exists s p ws, hruns small_heap s {[p := (100, ws)]} /\ p mod 8 = 0 /\ 0x8000 <= p /\ p + 100 <= 0x8100.
Proof.
  destruct small_holds as (v & Hv & Hsp & _). destruct small_alloc as (p & s & ws & Hp & Hr). exists s, p, ws. split; [done|].
  destruct (heap_blocks_safe small_heap v s _ Hv Hr) as [Hb _]. destruct (Hb p 100 ws) as (_ & Hp8 & _ & (b & l & Hin & H1 & H2) & _).
  - apply lookup_singleton_eq.
  - rewrite Hsp in Hin. apply list_elem_of_singleton in Hin as [= -> ->]. split; [done|lia].
Defined.

Lemma heap_calls_return_witness : exists s p ws, hruns small_heap s {[p := (100, ws)]} /\ is_Some (hrun (HFree p) s).
Proof.
  destruct small_holds as (v & Hv & _). destruct small_alloc as (p & s & ws & Hp & Hr). exists s, p, ws. split; [done|].
  apply (heap_calls_return small_heap v s _ (HFree p) Hv Hr). right. rewrite lookup_singleton_eq. eauto.
Defined.

Lemma heap_alloc_exact_witness : exists v r s', hv_free v !! 0x8010 = Some 224 /\ krhino_mm_alloc 300 small_heap = Some (r, s') /\
  (r = 0 <-> ~ has_room v 300) /\ (r = 0 -> s' = small_heap).
Proof.
  destruct small_heap_rep as (v & R & _ & _ & Hf). destruct (heap_alloc_exact small_heap v 300 R ltac:(lia)) as (r & s' & H). by exists v, r, s'.
Defined.


(** Two regions, with room for the header and the pool in the first. *)
Definition two_regions : list (Z * Z) := [(0x1001, 10400); (0x8000, 256)].

Definition two_raw : hstate := Mk_hstate (block_mem 0x1000 16384) 0 (Mk_mm_head 0 0 0 []).

Lemma two_regions_ok : regions_ok (words two_raw) two_regions.
Proof.
  assert (used_span (0x1001, 10400) = (0x1008, 10392)) as E1 by done. assert (used_span (0x8000, 256) = (0x8000, 256)) as E2 by done.
  split; [|split].
  - repeat constructor; cbn [fst]; try done; rewrite ?E1, ?E2; cbn [fst snd]; try lia; apply block_mem_mapped; (done || lia).
  - unfold two_regions. cbn [all_apart]. rewrite E1, E2. cbn [fst snd]. split; [by intros b l ?%elem_of_nil|]. split; [|done].
    intros b l [= -> ->]%list_elem_of_singleton. lia.
  - eexists. split; [done|]. rewrite E1. cbn. lia.
Qed.

Lemma heap_init_ready_witness : exists s' v, k_mm_init two_regions two_raw = Some (tt, s') /\ holds s' v ∅ /\
  hv_spans v = [(0x1068, 10296); (0x8000, 256)] /\ length (hv_pool v) = 256%nat.
Proof. exact (heap_init_ready two_raw two_regions two_regions_ok). Defined.

Lemma heap_huge_request_served_witness : exists p n s' v', krhino_mm_alloc 0xfffffffa small_heap = Some (p, s') /\ p <> 0 /\
  rep s' v' /\ hv_live v' = {[p := n]} /\ n < 72.
Proof.
  destruct small_heap_rep as (v & R & Hl & _ & Hf).
  destruct (heap_huge_request_served small_heap v 0xfffffffa R ltac:(lia) ltac:(eauto)) as (p & n & s' & v' & E & Hp & R' & Hl' & Hn).
  exists p, n, s', v'. rewrite Hl, insert_empty in Hl'. exact (conj E (conj Hp (conj R' (conj Hl' Hn)))).
Defined.
