(* ===== verification/Dyn.v ===== *)
(** * Objects and tasks on the heap

    The calls that obtain the storage of a kernel object or of a task from the heap
    and give it back: [krhino_*_dyn_create] and [krhino_*_dyn_del] of the object
    files, [task_dyn_create] of [k_task.c] and the task of [k_dyn_mem_proc.c] that
    frees what deleted tasks leave behind.  They compose the kernel of [KState] and
    the heap of [Mem]; an object is known to the kernel by the address of its block. *)

From S2P Require Import Prelude KErr RingBuf KState KMonad Sched Pend Mutex Sem Task Event Queue BufQueue Mem Mm.
Local Open Scope Z_scope.

(** The sizes of the structures depend on types of the port. *)
Class ObjSizes := {
  sizeof_ksem_t : Z;
  sizeof_kmutex_t : Z;
  sizeof_kevent_t : Z;
  sizeof_kqueue_t : Z;
  sizeof_kbuf_queue_t : Z;
  sizeof_ktask_t : Z;
  sizeof_cpu_stack_t : Z;
  sizes_ok : Forall (fun z => 0 < z <= 4096)
    [sizeof_ksem_t; sizeof_kmutex_t; sizeof_kevent_t; sizeof_kqueue_t; sizeof_kbuf_queue_t; sizeof_ktask_t; sizeof_cpu_stack_t]
}.

Record dstate := Mk_dstate {
  kern : kstate;
  heap : hstate
}.

Definition D (A : Type) : Type := dstate -> option (A * dstate).

#[global] Instance D_ret : MRet D := fun A a d => Some (a, d).
#[global] Instance D_bind : MBind D := fun A B f m d =>
  match m d with Some (a, d') => f a d' | None => None end.
#[global] Typeclasses Opaque D.

(** The parts of a call that run in the kernel, and in the heap. *)
Definition inK {A} (m : K A) : D A := fun d =>
  match m (kern d) with Some (a, s) => Some (a, Mk_dstate s (heap d)) | None => None end.

Definition inH {A} (m : H A) : D A := fun d =>
  match m (heap d) with Some (a, h) => Some (a, Mk_dstate (kern d) h) | None => None end.

(** The object, or the task, whose structure is at [p]. *)
Definition at_addr (p : Z) : nat := Z.to_nat p.

(** The [n] bytes from [p] on, as the kernel finds them in a block. *)
Definition block_bytes (p n : Z) : H (list Z) := fun h =>
  Some ((fun i => Z.land (Z.shiftr (default 0 (words h !! (p + 4 * (i / 4)))) (8 * (i mod 4))) 255) <$> seqZ 0 n, h).

(** A status, and what is stored through the pointer to the object pointer. *)
Definition dyn_res : Type := kstat_t * option Z.

Definition out_chk (para : option Z) (k : D dyn_res) : D dyn_res :=
  match para with None => mret (RHINO_NULL_PTR, None) | Some _ => k end.

Section dyn.
Context `{CpuPort} `{ObjSizes}.

(** ** Semaphores *)

Definition krhino_sem_dyn_create (sem : option Z) (name : option Z) (count : Z) : D dyn_res :=
  out_chk sem (
  sem_obj ← inH (krhino_mm_alloc sizeof_ksem_t);
  if sem_obj =? 0 then mret (RHINO_NO_MEM, None)
  else
    stat ← inK (sem_create (Some (at_addr sem_obj)) name count K_OBJ_DYN_ALLOC);
    if negb (bool_decide (stat = RHINO_SUCCESS)) then
      inH (krhino_mm_free sem_obj);;
      mret (stat, None)
    else mret (stat, Some sem_obj)).

(** The critical section of the deletion. *)
Definition sem_dyn_del (o : oid) : K kstat_t :=
  cpsr ← RHINO_CRITICAL_ENTER;
  INTRPT_NESTED_LEVEL_CHK id cpsr (
  b ← get_blk o;
  if negb (bool_decide (obj_type b = RHINO_SEM_OBJ_TYPE)) then critical_return cpsr RHINO_KOBJ_TYPE_ERR
  else
    m ← get_sem o;
    if negb (sem_mm_flag m =? K_OBJ_DYN_ALLOC) then critical_return cpsr RHINO_KOBJ_DEL_ERR
    else
      upd_blk o (set_obj_type RHINO_OBJ_TYPE_NONE);;
      blk_wake_all o pend_task_rm;;
      RHINO_CRITICAL_EXIT_SCHED cpsr;;
      mret RHINO_SUCCESS).

(** An object without storage of its own: the status, and the object freed once it is deleted. *)
Definition free_deleted (del : oid -> K kstat_t) (para : option Z) : D kstat_t :=
  match para with
  | None => mret RHINO_NULL_PTR
  | Some p =>
      stat ← inK (del (at_addr p));
      if negb (bool_decide (stat = RHINO_SUCCESS)) then mret stat
      else
        inH (krhino_mm_free p);;
        mret RHINO_SUCCESS
  end.

Definition krhino_sem_dyn_del (sem : option Z) : D kstat_t := free_deleted sem_dyn_del sem.

(** ** Mutexes *)

Definition krhino_mutex_dyn_create (mutex : option Z) (name : option Z) : D dyn_res :=
  out_chk mutex (
  mutex_obj ← inH (krhino_mm_alloc sizeof_kmutex_t);
  if mutex_obj =? 0 then mret (RHINO_NO_MEM, None)
  else
    stat ← inK (mutex_create (Some (at_addr mutex_obj)) name K_OBJ_DYN_ALLOC);
    if negb (bool_decide (stat = RHINO_SUCCESS)) then
      inH (krhino_mm_free mutex_obj);;
      mret (stat, None)
    else mret (stat, Some mutex_obj)).

Definition mutex_dyn_del (o : oid) : K kstat_t :=
  cpsr ← RHINO_CRITICAL_ENTER;
  INTRPT_NESTED_LEVEL_CHK id cpsr (
  b ← get_blk o;
  if negb (bool_decide (obj_type b = RHINO_MUTEX_OBJ_TYPE)) then critical_return cpsr RHINO_KOBJ_TYPE_ERR
  else
    m ← get_mutex o;
    if negb (mutex_mm_flag m =? K_OBJ_DYN_ALLOC) then critical_return cpsr RHINO_KOBJ_DEL_ERR
    else
      upd_blk o (set_obj_type RHINO_OBJ_TYPE_NONE);;
      match mutex_task m with
      | Some t => mutex_release t (Some o)
      | None => mret tt
      end;;
      blk_wake_all o pend_task_rm;;
      RHINO_CRITICAL_EXIT_SCHED cpsr;;
      mret RHINO_SUCCESS).

Definition krhino_mutex_dyn_del (mutex : option Z) : D kstat_t := free_deleted mutex_dyn_del mutex.

(** ** Events *)

Definition krhino_event_dyn_create (event : option Z) (name : option Z) (flags : Z) : D dyn_res :=
  out_chk event (
  event_obj ← inH (krhino_mm_alloc sizeof_kevent_t);
  if event_obj =? 0 then mret (RHINO_NO_MEM, None)
  else
    stat ← inK (event_create (Some (at_addr event_obj)) name flags K_OBJ_DYN_ALLOC);
    if negb (bool_decide (stat = RHINO_SUCCESS)) then
      inH (krhino_mm_free event_obj);;
      mret (stat, None)
    else mret (stat, Some event_obj)).

Definition event_dyn_del (o : oid) : K kstat_t :=
  cpsr ← RHINO_CRITICAL_ENTER;
  INTRPT_NESTED_LEVEL_CHK id cpsr (
  b ← get_blk o;
  if negb (bool_decide (obj_type b = RHINO_EVENT_OBJ_TYPE)) then critical_return cpsr RHINO_KOBJ_TYPE_ERR
  else
    e ← get_event o;
    if negb (ev_mm_flag e =? K_OBJ_DYN_ALLOC) then critical_return cpsr RHINO_KOBJ_DEL_ERR
    else
      upd_blk o (set_obj_type RHINO_OBJ_TYPE_NONE);;
      blk_wake_all o pend_task_rm;;
      upd_event o (set_ev_flags 0);;
      RHINO_CRITICAL_EXIT_SCHED cpsr;;
      mret RHINO_SUCCESS).

Definition krhino_event_dyn_del (event : option Z) : D kstat_t := free_deleted event_dyn_del event.

(** ** Message queues *)

Definition krhino_queue_dyn_create (queue : option Z) (name : option Z) (msg_num : Z) : D dyn_res :=
  out_chk queue (
  queue_obj ← inH (krhino_mm_alloc sizeof_kqueue_t);
  if queue_obj =? 0 then mret (RHINO_NO_MEM, None)
  else
    let size := u32 (msg_num * PTR_SIZE) in
    msg_start ← inH (krhino_mm_alloc size);
    if msg_start =? 0 then
      inH (krhino_mm_free queue_obj);;
      mret (RHINO_NO_MEM, None)
    else
      buf ← inH (block_bytes msg_start size);
      stat ← inK (queue_create (Some (at_addr queue_obj)) name (Some (msg_start, buf)) msg_num K_OBJ_DYN_ALLOC);
      if negb (bool_decide (stat = RHINO_SUCCESS)) then
        inH (krhino_mm_free msg_start);;
        inH (krhino_mm_free queue_obj);;
        mret (stat, None)
      else mret (stat, Some queue_obj)).

Definition queue_dyn_del (o : oid) : K kstat_t :=
  cpsr ← RHINO_CRITICAL_ENTER;
  INTRPT_NESTED_LEVEL_CHK id cpsr (
  b ← get_blk o;
  if negb (bool_decide (obj_type b = RHINO_QUEUE_OBJ_TYPE)) then critical_return cpsr RHINO_KOBJ_TYPE_ERR
  else
    q ← get_queue o;
    if negb (q_mm_flag q =? K_OBJ_DYN_ALLOC) then critical_return cpsr RHINO_KOBJ_DEL_ERR
    else
      upd_blk o (set_obj_type RHINO_OBJ_TYPE_NONE);;
      blk_wake_all o pend_task_rm;;
      upd_queue o (fun q => set_q_ringbuf (snd (ringbuf_reset (q_ringbuf q))) q);;
      RHINO_CRITICAL_EXIT_SCHED cpsr;;
      mret RHINO_SUCCESS).

(** An object with storage of its own, at the address [buf] finds in it: that is freed first. *)
Definition free_deleted_buf (del : oid -> K kstat_t) (buf : oid -> K Z) (para : option Z) : D kstat_t :=
  match para with
  | None => mret RHINO_NULL_PTR
  | Some p =>
      stat ← inK (del (at_addr p));
      if negb (bool_decide (stat = RHINO_SUCCESS)) then mret stat
      else
        start ← inK (buf (at_addr p));
        inH (krhino_mm_free start);;
        inH (krhino_mm_free p);;
        mret RHINO_SUCCESS
  end.

Definition krhino_queue_dyn_del (queue : option Z) : D kstat_t :=
  free_deleted_buf queue_dyn_del (fun o => q ← get_queue o; mret (queue_start q)) queue.

(** ** Buffer queues *)

Definition krhino_buf_queue_dyn_create (queue : option Z) (name : option Z) (size max_msg : Z) : D dyn_res :=
  out_chk queue (
  if size =? 0 then mret (RHINO_BUF_QUEUE_SIZE_ZERO, None)
  else
  queue_obj ← inH (krhino_mm_alloc sizeof_kbuf_queue_t);
  if queue_obj =? 0 then mret (RHINO_NO_MEM, None)
  else
    buf ← inH (krhino_mm_alloc size);
    if buf =? 0 then
      inH (krhino_mm_free queue_obj);;
      mret (RHINO_NO_MEM, None)
    else
      mem ← inH (block_bytes buf size);
      stat ← inK (buf_queue_create (Some (at_addr queue_obj)) name (Some (buf, mem)) size max_msg K_OBJ_DYN_ALLOC
                    RINGBUF_TYPE_DYN);
      if negb (bool_decide (stat = RHINO_SUCCESS)) then
        inH (krhino_mm_free buf);;
        inH (krhino_mm_free queue_obj);;
        mret (stat, None)
      else mret (RHINO_SUCCESS, Some queue_obj)).

Definition buf_queue_dyn_del (o : oid) : K kstat_t :=
  cpsr ← RHINO_CRITICAL_ENTER;
  INTRPT_NESTED_LEVEL_CHK id cpsr (
  b ← get_blk o;
  if negb (bool_decide (obj_type b = RHINO_BUF_QUEUE_OBJ_TYPE)) then critical_return cpsr RHINO_KOBJ_TYPE_ERR
  else
    q ← get_bufq o;
    if negb (bq_mm_flag q =? K_OBJ_DYN_ALLOC) then critical_return cpsr RHINO_KOBJ_DEL_ERR
    else
      upd_blk o (set_obj_type RHINO_OBJ_TYPE_NONE);;
      blk_wake_all o pend_task_rm;;
      upd_bufq o (fun q => set_bq_ringbuf (snd (ringbuf_reset (bq_ringbuf q))) q);;
      RHINO_CRITICAL_EXIT_SCHED cpsr;;
      mret RHINO_SUCCESS).

Definition krhino_buf_queue_dyn_del (queue : option Z) : D kstat_t :=
  free_deleted_buf buf_queue_dyn_del (fun o => q ← get_bufq o; mret (bq_buf q)) queue.

(** ** Tasks *)

(** The stack and the task control block of a new task; a task that is created while the kernel is
    not running yet keeps both. *)
Definition task_dyn_create (task : option Z) (name : option Z) (arg pri ticks stack : Z) (entry : option Z)
    (cpu_num autorun : Z) : D dyn_res :=
  out_chk task (
  if stack =? 0 then mret (RHINO_INV_PARAM, None)
  else
  task_stack ← inH (krhino_mm_alloc (u32 (stack * sizeof_cpu_stack_t)));
  if task_stack =? 0 then mret (RHINO_NO_MEM, None)
  else
    task_obj ← inH (krhino_mm_alloc sizeof_ktask_t);
    if task_obj =? 0 then
      inH (krhino_mm_free task_stack);;
      mret (RHINO_NO_MEM, None)
    else
      ret ← inK (task_create (Some (at_addr task_obj)) name arg pri ticks (Some task_stack) stack entry autorun
                   K_OBJ_DYN_ALLOC cpu_num);
      if negb (bool_decide (ret = RHINO_SUCCESS)) && negb (bool_decide (ret = RHINO_STOPPED)) then
        inH (krhino_mm_free task_stack);;
        inH (krhino_mm_free task_obj);;
        mret (ret, Some 0)
      else mret (ret, Some task_obj)).

Definition krhino_task_dyn_create (task : option Z) (name : option Z) (arg pri ticks stack : Z) (entry : option Z)
    (autorun : Z) : D dyn_res :=
  task_dyn_create task name arg pri ticks stack entry 0 autorun.

(** ** The task that frees deleted tasks *)

(** One turn of the inner loop of [dyn_mem_proc_task]; the result says whether it goes on.  The
    record on [g_res_list] names the stack of the deleted task and the task, in this order. *)
Definition dyn_mem_proc_turn : D bool :=
  cpsr ← inK RHINO_CRITICAL_ENTER;
  l ← inK (gets g_res_list);
  match l with
  | t :: rest =>
      inK (modify (set_g_res_list rest));;
      inK (RHINO_CRITICAL_EXIT cpsr);;
      k ← inK (get_task t);
      inH (krhino_mm_free (task_stack_base k));;
      inH (krhino_mm_free (Z.of_nat t));;
      mret true
  | [] =>
      inK (RHINO_CRITICAL_EXIT cpsr);;
      mret false
  end.

(** The inner loop. *)
Fixpoint dyn_mem_proc_loop (fuel : nat) : D unit :=
  match fuel with
  | O => fun _ => None
  | S fuel =>
      more ← dyn_mem_proc_turn;
      if more : bool then dyn_mem_proc_loop fuel else mret tt
  end.

(** [dyn_mem_proc_task] from a return of [krhino_sem_take] with [ret] to the next call of it. *)
Definition dyn_mem_proc_task (fuel : nat) (ret : kstat_t) : D unit :=
  (if negb (bool_decide (ret = RHINO_SUCCESS)) then inK (k_err_proc RHINO_DYN_MEM_PROC_ERR) else mret tt);;
  dyn_mem_proc_loop fuel.

End dyn.
