(* ===== verification/DynSpec.v ===== *)
(** * Objects on the heap: the properties

    A dynamically created object and its message storage are blocks of the heap that
    belong to nobody else; deleting it lets its waiters go and returns exactly these
    blocks.  The kernel invariant and the heap invariant hold throughout. *)

From S2P Require Import Prelude KErr Bitmap RingBuf KState KMonad Sched Pend KInv Mutex PriInv Sem Task Event Queue BufQueue Inv Moves Create MutexSpec Mem MBlk Mm MmSpec MmCalls Dyn.
Local Open Scope Z_scope.

(** ** Weakest preconditions of composed calls *)

Definition dwp {A} (m : D A) (Q : A -> dstate -> Prop) (d : dstate) : Prop :=
  match m d with Some (a, d') => Q a d' | None => False end.

Lemma dwp_iff {A} (m : D A) Q d : dwp m Q d <-> exists a d', m d = Some (a, d') /\ Q a d'.
Proof. unfold dwp. destruct (m d) as [[a d']|]; naive_solver. Qed.

Lemma dwp_mono {A} (m : D A) (P Q : A -> dstate -> Prop) d :
  dwp m P d -> (forall a d', P a d' -> Q a d') -> dwp m Q d.
Proof. unfold dwp. destruct (m d) as [[a d']|]; naive_solver. Qed.

Lemma dwp_ret {A} (a : A) (Q : A -> dstate -> Prop) d : Q a d -> dwp (mret a) Q d.
Proof. done. Qed.

Lemma dwp_bind {A B} (m : D A) (f : A -> D B) Q d : dwp m (fun a => dwp (f a) Q) d -> dwp (m ≫= f) Q d.
Proof. unfold dwp, mbind, D_bind. destruct (m d) as [[a d']|]; done. Qed.

Lemma dwp_inK {A} (m : K A) (Q : A -> dstate -> Prop) d :
  wp m (fun a s => Q a (Mk_dstate s (heap d))) (kern d) -> dwp (inK m) Q d.
Proof. unfold wp, dwp, inK. by destruct (m (kern d)) as [[a s]|]. Qed.

Lemma dwp_inH {A} (m : H A) (Q : A -> dstate -> Prop) d :
  hwp m (fun a h => Q a (Mk_dstate (kern d) h)) (heap d) -> dwp (inH m) Q d.
Proof. unfold hwp, dwp, inH. by destruct (m (heap d)) as [[a h]|]. Qed.

Ltac dstep :=
  cbv beta;
  lazymatch goal with
  | |- dwp (mbind _ _) _ _ => apply dwp_bind
  | |- dwp (mret _) _ _ => apply dwp_ret
  | |- dwp (inK _) _ _ => apply dwp_inK
  | |- dwp (inH _) _ _ => apply dwp_inH
  end.

(** ** The critical section of a deletion *)

(** Beside the object [o], which is dead, no object has changed its kind or its storage. *)
Record gone (o : oid) (s s' : kstate) : Prop := {
  go_dead : exists b, blks s' !! o = Some b /\ obj_type b = RHINO_OBJ_TYPE_NONE;
  go_type o' : o' <> o -> obj_type <$> blks s' !! o' = obj_type <$> blks s !! o';
  go_flag o' ty : obj_flag s' o' ty = obj_flag s o' ty;
  go_buf o' ty : obj_buf s' o' ty = obj_buf s o' ty
}.

(** Everything the storage of an object depends on. *)
Definition stores (s : kstate) :=
  (sem_mm_flag <$> sems s, mutex_mm_flag <$> mutexes s, (fun q => (q_mm_flag q, queue_start q)) <$> queues s,
   (fun q => (bq_mm_flag q, bq_buf q)) <$> bufqs s, ev_mm_flag <$> events s).

Lemma fmap_lookup_eq {A B C} (f : A -> B) (g : B -> C) (m m' : gmap oid A) o :
  f <$> m' = f <$> m -> (fun a => g (f a)) <$> m' !! o = (fun a => g (f a)) <$> m !! o.
Proof. intros E. rewrite !(option_fmap_compose f g). by rewrite <- !lookup_fmap, E. Qed.

Lemma stores_flag s s' o ty : stores s' = stores s -> obj_flag s' o ty = obj_flag s o ty.
Proof.
  unfold stores. intros [= E1 E2 E3 E4 E5]. destruct ty; cbn; try done.
  - exact (fmap_lookup_eq _ id _ _ o E1).
  - exact (fmap_lookup_eq _ id _ _ o E2).
  - exact (fmap_lookup_eq _ fst _ _ o E3).
  - exact (fmap_lookup_eq _ fst _ _ o E4).
  - exact (fmap_lookup_eq _ id _ _ o E5).
Qed.

Lemma stores_buf s s' o ty : stores s' = stores s -> obj_buf s' o ty = obj_buf s o ty.
Proof.
  unfold stores. intros [= _ _ E3 E4 _]. destruct ty; cbn; try done.
  - exact (fmap_lookup_eq _ snd _ _ o E3).
  - exact (fmap_lookup_eq _ snd _ _ o E4).
Qed.

Lemma gone_intro o s s' b :
  blks s' !! o = Some b -> obj_type b = RHINO_OBJ_TYPE_NONE ->
  (forall o', o' <> o -> obj_type <$> blks s' !! o' = obj_type <$> blks s !! o') ->
  stores s' = stores s -> gone o s s'.
Proof.
  intros Hb Ht Hty Hst. split; [by exists b|done|..]; intros o' ty; [by apply stores_flag|by apply stores_buf].
Qed.

(** What the deletion of the object [o] of control block [b] has done. *)
Record deleted (o : oid) (b : blk_obj_t) (s s' : kstate) : Prop := {
  de_gone : gone o s s';
  de_irq : irq_off s' = irq_off s;
  de_released : Forall (released BLK_DEL s s') (blk_list b)
}.

Section del.
Context `{CpuPort}.

(** The last step of a deletion, from the state [s1] where the waiters are gone. *)
Lemma exit_deleted_wp o b (Q : kstat_t -> kstate -> Prop) s s1 :
  Inv0 s1 -> gone o s s1 -> Forall (released BLK_DEL s s1) (blk_list b) ->
  (forall s', Inv s' -> deleted o b s s' -> Q RHINO_SUCCESS s') ->
  wp (RHINO_CRITICAL_EXIT_SCHED (irq_off s);; mret RHINO_SUCCESS) Q s1.
Proof.
  intros H1 [Hd Ht Hf Hb] Hrel HQ. apply exit_sched_inv; [done|]. intros s' Hr HI'. apply HQ; [done|].
  split; [|by eapply irq_resched|].
  - apply resched_eq in Hr as (ts & a & p & -> & _). by split.
  - eapply Forall_impl; [exact Hrel|]. intros u Hu. by eapply released_resched.
Qed.

(** An object other than a mutex: [next] brings its body to rest and leaves. *)
Lemma del_obj_wp o b (next : K kstat_t) (Q : kstat_t -> kstate -> Prop) s :
  Inv s -> blks s !! o = Some b -> obj_type b <> RHINO_MUTEX_OBJ_TYPE ->
  (forall s1, bodies s1 = bodies s ->
     (forall s2, core s2 = core s1 -> other_bodies o s1 s2 -> stores s2 = stores s1 ->
        wp (RHINO_CRITICAL_EXIT_SCHED (irq_off s);; mret RHINO_SUCCESS) Q s2) -> wp next Q s1) ->
  (forall s', Inv s' -> deleted o b s s' -> Q RHINO_SUCCESS s') ->
  wp (upd_blk o (set_obj_type RHINO_OBJ_TYPE_NONE);; blk_wake_all o pend_task_rm;; next) Q (set_irq_off true s).
Proof.
  intros HI Hb Hty Hnext HQ. destruct (i0_objs _ s (inv_0 s HI) o ltac:(done) b Hb) as (Hpol & _ & _).
  apply (del_drain_wp o b); [apply inv0_irq, HI|done..|]. intros s1 H1 Ef Eb Hrel.
  apply Hnext; [by rewrite Ef|]. intros s2 Hc Hob Hst. pose proof Hc as Hc'. unfold core in Hc'. injection Hc' as Et Eb2 _ _ _ _ _ _ _ _.
  apply (exit_deleted_wp o b).
  - eapply (inv0_dead s1 _ o); [done|done|done|rewrite Eb; apply lookup_insert_eq|done].
  - eapply (gone_intro o); [rewrite Eb2, Eb; apply lookup_insert_eq|done| |].
    + intros o' Hne. rewrite Eb2, Eb. by rewrite lookup_insert_ne.
    + rewrite Hst. by rewrite Ef.
  - eapply Forall_impl; [exact Hrel|]. intros u (k & k' & ? & Hk' & ? & ? & ?). exists k, k'. by rewrite Et.
  - done.
Qed.

(** The critical section of the deletion of an object of the kind [ty]. *)
Definition kernel_del (ty : kobj_type_t) : oid -> K kstat_t :=
  match ty with
  | RHINO_SEM_OBJ_TYPE => sem_dyn_del
  | RHINO_MUTEX_OBJ_TYPE => mutex_dyn_del
  | RHINO_QUEUE_OBJ_TYPE => queue_dyn_del
  | RHINO_BUF_QUEUE_OBJ_TYPE => buf_queue_dyn_del
  | RHINO_EVENT_OBJ_TYPE => event_dyn_del
  | _ => fun _ => undef
  end.

Definition dyn_type (ty : kobj_type_t) : Prop :=
  match ty with
  | RHINO_SEM_OBJ_TYPE | RHINO_MUTEX_OBJ_TYPE | RHINO_QUEUE_OBJ_TYPE | RHINO_BUF_QUEUE_OBJ_TYPE | RHINO_EVENT_OBJ_TYPE => True
  | _ => False
  end.

Definition del_status (ty : kobj_type_t) (b : blk_obj_t) (flag : option Z) (s : kstate) : kstat_t :=
  if 0 <? g_intrpt_nested_level s then RHINO_NOT_CALLED_BY_INTRPT
  else if decide (obj_type b = ty) then
    if decide (flag = Some K_OBJ_DYN_ALLOC) then RHINO_SUCCESS else RHINO_KOBJ_DEL_ERR
  else RHINO_KOBJ_TYPE_ERR.

Definition kernel_del_post (ty : kobj_type_t) (o : oid) (b : blk_obj_t) (s : kstate) (r : kstat_t) (s' : kstate) : Prop :=
  r = del_status ty b (obj_flag s o ty) s /\ Inv s' /\
  (if decide (r = RHINO_SUCCESS) then deleted o b s s' else s' = s).

Lemma body_stored s o ty : dyn_type ty -> body_ok s o ty -> is_Some (obj_flag s o ty).
Proof.
  destruct ty; try done; intros _; cbn.
  - intros (m & -> & _). by eexists.
  - intros (m & -> & _). by eexists.
  - intros (q & msgs & -> & _). by eexists.
  - intros (q & f & -> & _). by eexists.
  - intros (e & -> & _). by eexists.
Qed.

(** The checks a deletion starts with. *)
Lemma del_checks_wp ty o b (body : bool -> blk_obj_t -> K kstat_t) s :
  Inv s -> blks s !! o = Some b -> dyn_type ty ->
  (obj_type b = ty -> forall flag (Q : kstat_t -> kstate -> Prop), obj_flag s o ty = Some flag ->
     (flag <> K_OBJ_DYN_ALLOC -> Q RHINO_KOBJ_DEL_ERR s) ->
     (flag = K_OBJ_DYN_ALLOC -> forall s', Inv s' -> deleted o b s s' -> Q RHINO_SUCCESS s') ->
     wp (body (irq_off s) b) Q (set_irq_off true s)) ->
  wp (cpsr ← RHINO_CRITICAL_ENTER; INTRPT_NESTED_LEVEL_CHK id cpsr (
      b ← get_blk o;
      if negb (bool_decide (obj_type b = ty)) then critical_return cpsr RHINO_KOBJ_TYPE_ERR else body cpsr b))
    (kernel_del_post ty o b s) s.
Proof.
  intros HI Hb Hdt Hbody. unfold kernel_del_post, del_status. apply (obj_call_wp id o b); [done|..].
  - intros Hn. by rewrite (proj2 (Z.ltb_lt _ _) Hn).
  - intros Hn Hty. rewrite (proj2 (Z.ltb_ge _ _) Hn). by rewrite (decide_False (P := obj_type b = ty)).
  - intros Hn Hty. rewrite (proj2 (Z.ltb_ge _ _) Hn). rewrite (decide_True (P := obj_type b = ty)) by done.
    destruct (i0_objs _ s (inv_0 s HI) o ltac:(done) b Hb) as (_ & Hok & _). rewrite Hty in Hok.
    destruct (body_stored s o ty Hdt Hok) as [flag Hf]. apply (Hbody Hty flag); [done|..]; rewrite Hf.
    + intros Hne. rewrite (decide_False (P := Some flag = _)) by congruence. by rewrite decide_False.
    + intros -> s' HI' Hd. by rewrite !decide_True.
Qed.

(** The check of the flag [flag], then the deletion. *)
Lemma del_flag_wp o b flag cpsr (next : K kstat_t) (Q : kstat_t -> kstate -> Prop) s :
  cpsr = irq_off s -> (flag <> K_OBJ_DYN_ALLOC -> Q RHINO_KOBJ_DEL_ERR s) ->
  (flag = K_OBJ_DYN_ALLOC -> forall s', Inv s' -> deleted o b s s' -> Q RHINO_SUCCESS s') ->
  (forall Q' : kstat_t -> kstate -> Prop, (forall s', Inv s' -> deleted o b s s' -> Q' RHINO_SUCCESS s') -> wp next Q' (set_irq_off true s)) ->
  wp (if negb (flag =? K_OBJ_DYN_ALLOC) then critical_return cpsr RHINO_KOBJ_DEL_ERR else next) Q (set_irq_off true s).
Proof.
  intros -> H1 H2 Hn. destruct (Z.eqb_spec flag K_OBJ_DYN_ALLOC) as [E|E]; cbn [negb]; [by apply Hn, H2|].
  apply wp_critical_return. rewrite irq_restore. by apply H1.
Qed.

Lemma insert_same_flag {A B} (f : A -> B) (m : gmap oid A) o a a' :
  m !! o = Some a -> f a' = f a -> f <$> <[o := a']> m = f <$> m.
Proof. intros Ha E. rewrite fmap_insert, E. apply insert_id. by rewrite lookup_fmap, Ha. Qed.

(** Up to the critical section proper, with the body found by [wp_get]. *)
Ltac del_enter o b wp_get :=
  apply del_checks_wp; [done..|]; intros E flag Q (m & Hm & ->)%fmap_Some H1 H2;
  apply wp_bind, (wp_get o m); [done|]; apply (del_flag_wp o b); [done..|]; intros Q' HQ';
  apply (del_obj_wp o b); [done|done|congruence| |done]; intros s1 Eb HP.

(** The body, one of [objs], brought to rest with [wp_upd]. *)
Ltac del_reset objs wp_upd :=
  match goal with Hm : objs _ !! ?o = Some ?m, Eb : bodies ?s1 = _ |- _ =>
    assert (objs s1 !! o = Some m) as Hm1 by (unfold bodies in Eb; congruence);
    apply wp_bind, (wp_upd o m); [done|];
    match goal with HP : forall s2, core s2 = _ -> _ |- _ => apply HP end;
    [done|by split; cbn; auto using lookup_insert_other|unfold stores; cbn; by rewrite (insert_same_flag _ _ _ _ _ Hm1)]
  end.

Lemma sem_dyn_del_wp o b s :
  Inv s -> blks s !! o = Some b -> wp (sem_dyn_del o) (kernel_del_post RHINO_SEM_OBJ_TYPE o b s) s.
Proof. intros HI Hb. del_enter o b wp_get_sem. by apply HP. Qed.

Lemma event_dyn_del_wp o b s :
  Inv s -> blks s !! o = Some b -> wp (event_dyn_del o) (kernel_del_post RHINO_EVENT_OBJ_TYPE o b s) s.
Proof. intros HI Hb. del_enter o b wp_get_event. del_reset events wp_upd_event. Qed.

Lemma queue_dyn_del_wp o b s :
  Inv s -> blks s !! o = Some b -> wp (queue_dyn_del o) (kernel_del_post RHINO_QUEUE_OBJ_TYPE o b s) s.
Proof. intros HI Hb. del_enter o b wp_get_queue. del_reset queues wp_upd_queue. Qed.

Lemma buf_queue_dyn_del_wp o b s :
  Inv s -> blks s !! o = Some b -> wp (buf_queue_dyn_del o) (kernel_del_post RHINO_BUF_QUEUE_OBJ_TYPE o b s) s.
Proof. intros HI Hb. del_enter o b wp_get_bufq. del_reset bufqs wp_upd_bufq. Qed.

Lemma mutex_dyn_del_wp o b s :
  Inv s -> blks s !! o = Some b -> wp (mutex_dyn_del o) (kernel_del_post RHINO_MUTEX_OBJ_TYPE o b s) s.
Proof.
  intros HI Hb. apply del_checks_wp; [done..|]. intros Hty flag Q (m & Hm & ->)%fmap_Some H1 H2.
  apply wp_bind, (wp_get_mutex o m); [done|]. apply (del_flag_wp o b); [done..|]. intros Q' HQ'.
  set (s0 := set_irq_off true s). assert (Inv0 s0) as Hi0 by apply inv0_irq, HI. do 2 kstep.
  destruct (i0_objs _ s (inv_0 s HI) o ltac:(done) b Hb) as (Hpol & _ & _).
  assert (forall s2 lw, Inv0x (Some o) s2 -> blks s2 !! o = Some (set_blk_list lw (set_obj_type RHINO_OBJ_TYPE_NONE b)) ->
    lw ≡ₚ blk_list b -> del_frame o s0 s2 ->
    wp (blk_wake_all o pend_task_rm;; RHINO_CRITICAL_EXIT_SCHED (irq_off s);; mret RHINO_SUCCESS) Q' s2) as Hdrain.
  { intros s2 lw H2' Hb2 Hlw [Hs2 Ht2 Hf2 Hbd2]. eapply drain_deleted_wp; [exact H2'|exact Hb2|done..|]. intros s3 H3 Ef Eb3 Hrel.
    apply (exit_deleted_wp o b); [done| | |done].
    - eapply (gone_intro o); [rewrite Eb3; apply lookup_insert_eq|done| |].
      + intros o' Hne. rewrite Eb3, lookup_insert_ne by done. by rewrite Ht2.
      + rewrite Ef. unfold stores. cbn. injection Hbd2 as -> -> -> ->. by rewrite Hf2.
    - rewrite <- Hlw. eapply Forall_impl; [exact Hrel|]. intros u Hu. by eapply released_states. }
  kstep. destruct (mutex_task m) as [t|] eqn:Et.
  - eapply (del_release_wp s0 t o b); [done|done| |].
    + split; [by exists b|by exists m].
    + intros s2 lw ? ? ? ?. by eapply Hdrain.
  - kstep. eapply (Hdrain _ (blk_list b)); [|apply lookup_insert_eq|done|].
    + apply (inv0_retype s0); [done..|]. intros t [_ (m0 & Hm0 & ?)]. cbn in Hm0. congruence.
    + split; [by intros u k Hk; exists k|intros o' Hne; cbn; by rewrite lookup_insert_ne|done|done].
Qed.

Lemma kernel_del_wp ty o b s :
  Inv s -> blks s !! o = Some b -> dyn_type ty -> wp (kernel_del ty o) (kernel_del_post ty o b s) s.
Proof.
  intros HI Hb. destruct ty; try done; intros _.
  - by apply sem_dyn_del_wp.
  - by apply mutex_dyn_del_wp.
  - by apply queue_dyn_del_wp.
  - by apply buf_queue_dyn_del_wp.
  - by apply event_dyn_del_wp.
Qed.

End del.

(** ** The heap, by the sizes of the blocks handed out *)

(** What a block holds is the business of its owner. *)
Definition heap_has (v : hview) (h : hstate) (L : gmap Z Z) : Prop := exists A : amap, holds_on v h A /\ fst <$> A = L.

Definition in_heap (v : hview) (p : Z) : Prop := exists base len, (base, len) ∈ hv_spans v /\ base <= p < base + len.

Definition apart (L : gmap Z Z) (p size : Z) : Prop := forall q k, L !! q = Some k -> p + size <= q \/ q + k <= p.

Lemma apart_none L p size : 0 < size -> (forall q k, L !! q = Some k -> 0 < k) -> apart L p size -> L !! p = None.
Proof. intros Hs Hk Ha. destruct (L !! p) as [k|] eqn:E; [|done]. specialize (Hk p k E). destruct (Ha p k E); lia. Qed.

Lemma fst_lookup (A : amap) p k : (fst <$> A) !! p = Some k -> exists ws, A !! p = Some (k, ws).
Proof. rewrite lookup_fmap. intros ([k' ws] & E & ->)%fmap_Some. by exists ws. Qed.

Lemma holds_block v h A p k ws : holds_on v h A -> A !! p = Some (k, ws) -> 0 < k /\ 0 < p /\ in_heap v p.
Proof.
  intros (v' & [G _] & R & HA) Hp. destruct (ag_blk HA _ _ _ Hp) as (n & Hn & Hk & _).
  destruct (rep_live _ _ _ _ R Hn) as (Hp0 & _ & Hn32 & _ & _ & base & len & Hin & ? & ?).
  split; [lia|]. split; [done|]. exists base, len. rewrite <- G. split; [done|lia].
Qed.

Lemma heap_has_pos v h L p k : heap_has v h L -> L !! p = Some k -> 0 < k.
Proof. intros (A & Ho & <-) [ws Hp]%fst_lookup. exact (proj1 (holds_block _ _ _ _ _ _ Ho Hp)). Qed.

Lemma alloc_wp v h L size (Q : Z -> hstate -> Prop) :
  heap_has v h L -> 0 < size -> size + 7 < 2 ^ 32 -> Q 0 h ->
  (forall p h', 0 < p -> in_heap v p -> L !! p = None -> apart L p size -> heap_has v h' (<[p := size]> L) -> Q p h') ->
  hwp (krhino_mm_alloc size) Q h.
Proof.
  intros Hh Hs Hs32 H0 HQ. pose proof Hh as (A & (v1 & G1 & Hv1) & <-). unfold krhino_mm_alloc.
  destruct (Z.eqb_spec size 0); [lia|]. hstep. apply hwp_g_kmm_head, (sim_alloc _ _ _ _ _ Hv1); [done..|].
  intros p h' Hp (Hp0 & _ & Hf) (v2 & G2 & Hv2). assert (same_ground v v2) as G by (by eapply same_ground_trans).
  destruct (holds_block v h' _ p size (contents (words h') p size) (ex_intro _ v2 (conj G Hv2)) (lookup_insert_eq _ _ _)) as (_ & _ & Hin).
  assert (apart (fst <$> A) p size) as Ha by (intros q k [ws Hq]%fst_lookup; by eapply Hf).
  apply HQ; [done|done| |done|].
  - eapply apart_none; [exact Hs| |exact Ha]. intros q k. by apply (heap_has_pos v h).
  - eexists. split; [by exists v2|]. by rewrite fmap_insert.
Qed.

Lemma free_wp v h L p (Q : unit -> hstate -> Prop) :
  heap_has v h L -> is_Some (L !! p) -> (forall h', heap_has v h' (delete p L) -> Q tt h') -> hwp (krhino_mm_free p) Q h.
Proof.
  intros (A & (v1 & G1 & Hv1) & <-) [k [ws Hp]%fst_lookup] HQ. unfold krhino_mm_free. hstep.
  apply hwp_g_kmm_head, (sim_free _ _ _ _ _ Hv1); [by eexists|]. intros h' (v2 & G2 & Hv2). apply HQ.
  exists (delete p A). split; [exists v2; split; [by eapply same_ground_trans|done]|by rewrite fmap_delete].
Qed.

(** ** Objects and their blocks *)

Lemma at_addr_inj p q : 0 <= p -> 0 <= q -> at_addr p = at_addr q -> p = q.
Proof. unfold at_addr. lia. Qed.

Lemma at_addr_of p : 0 <= p -> Z.of_nat (at_addr p) = p.
Proof. unfold at_addr. lia. Qed.

(** The blocks of the object at [p]: the object and the storage of its messages. *)
Definition blocks_of (s : kstate) (p : Z) (ty : kobj_type_t) : list Z := p :: option_list (obj_buf s (at_addr p) ty).

(** A dead object can be built anew: nobody waits for it and nobody holds it. *)
Lemma dead_idle `{CpuPort} s o :
  Inv s -> (forall b, blks s !! o = Some b -> obj_type b = RHINO_OBJ_TYPE_NONE) -> obj_idle s o.
Proof.
  intros HI Hd. pose proof (inv_0 s HI) as Hi. pose proof (ni_wf _ s (inv0_ni _ s Hi)) as Hwf. split.
  - intros b Hb. destruct (i0_objs _ s Hi o ltac:(done) b Hb) as (_ & _ & Hw). rewrite (Hd b Hb) in Hw.
    destruct (blk_list b) as [|t l] eqn:El; [done|exfalso]. destruct (wf_blks s Hwf o b Hb) as [[_ Hin] _].
    destruct (proj1 (Hin t)) as (k & Hk & Hik); [rewrite El; left|]. by apply (Hw t k).
  - intros t [(b & Hb & Hty) _]. rewrite (Hd b Hb) in Hty. done.
Qed.

(** ** The system: a kernel and a heap that holds some of its objects *)

Section system.
Context `{CpuPort} `{ObjSizes} (v : hview).

Definition sizeof_obj (ty : kobj_type_t) : Z :=
  match ty with
  | RHINO_SEM_OBJ_TYPE => sizeof_ksem_t
  | RHINO_MUTEX_OBJ_TYPE => sizeof_kmutex_t
  | RHINO_QUEUE_OBJ_TYPE => sizeof_kqueue_t
  | RHINO_BUF_QUEUE_OBJ_TYPE => sizeof_kbuf_queue_t
  | RHINO_EVENT_OBJ_TYPE => sizeof_kevent_t
  | _ => 0
  end.

Lemma sizeof_obj_ok ty : dyn_type ty -> 0 < sizeof_obj ty /\ sizeof_obj ty + 7 < 2 ^ 32.
Proof.
  intros Hty. pose proof sizes_ok as Hs. rewrite !Forall_cons in Hs. destruct Hs as (? & ? & ? & ? & ? & _).
  destruct ty; try done; cbn; lia.
Qed.

(** The object at [p], of kind [ty], was created dynamically and its blocks are handed out. *)
Record dyn_alive (s : kstate) (L : gmap Z Z) (p : Z) (ty : kobj_type_t) : Prop := {
  da_type : dyn_type ty;
  da_pos : 0 < p;
  da_blk : exists b, blks s !! at_addr p = Some b /\ obj_type b = ty;
  da_flag : obj_flag s (at_addr p) ty = Some K_OBJ_DYN_ALLOC;
  da_size : L !! p = Some (sizeof_obj ty);
  da_buf q : obj_buf s (at_addr p) ty = Some q -> q <> p /\ is_Some (L !! q)
}.

(** [L]: the blocks handed out, by address and size; [objs]: the objects among them. *)
Record sys_ok (d : dstate) (L : gmap Z Z) (objs : gmap Z kobj_type_t) : Prop := {
  so_inv : Inv (kern d);
  so_heap : heap_has v (heap d) L;
  so_objs p ty : objs !! p = Some ty -> dyn_alive (kern d) L p ty;
  so_known (o : oid) b : blks (kern d) !! o = Some b -> obj_type b <> RHINO_OBJ_TYPE_NONE -> in_heap v (Z.of_nat o) ->
    is_Some (objs !! Z.of_nat o);
  so_own p p' ty ty' x : objs !! p = Some ty -> objs !! p' = Some ty' ->
    x ∈ blocks_of (kern d) p ty -> x ∈ blocks_of (kern d) p' ty' -> p = p'
}.

Lemma blocks_of_in s L p ty x : dyn_alive s L p ty -> x ∈ blocks_of s p ty -> is_Some (L !! x).
Proof.
  intros [_ _ _ _ Hsz Hbuf] [->|Hx]%elem_of_cons; [by eexists|].
  destruct (obj_buf s (at_addr p) ty) as [q|] eqn:E; cbn in Hx; [|by apply elem_of_nil in Hx].
  apply list_elem_of_singleton in Hx as ->. by apply Hbuf.
Qed.

(** A free address is the address of no live object. *)
Lemma sys_idle d L objs p :
  sys_ok d L objs -> 0 < p -> in_heap v p -> L !! p = None -> obj_idle (kern d) (at_addr p).
Proof.
  intros [HI _ Ho Hk _] Hp Hin Hnone. apply dead_idle; [done|]. intros b Hb.
  destruct (decide (obj_type b = RHINO_OBJ_TYPE_NONE)) as [|Hne]; [done|exfalso].
  destruct (Hk (at_addr p) b Hb Hne) as [ty Hty]; [by rewrite at_addr_of by lia|]. rewrite at_addr_of in Hty by lia.
  pose proof (da_size _ _ _ _ (Ho p ty Hty)). congruence.
Qed.

(** Objects other than [o] as they were. *)
Lemma dyn_alive_frame s s' L L' p ty :
  dyn_alive s L p ty -> obj_type <$> blks s' !! at_addr p = obj_type <$> blks s !! at_addr p ->
  obj_flag s' (at_addr p) ty = obj_flag s (at_addr p) ty -> obj_buf s' (at_addr p) ty = obj_buf s (at_addr p) ty ->
  (forall x, x ∈ blocks_of s p ty -> L' !! x = L !! x) -> dyn_alive s' L' p ty.
Proof.
  intros [? ? (b & Hb & Hty) Hf Hsz Hbuf] Et Ef Eb HL. split; [done|done| |congruence| |].
  - rewrite Hb in Et. destruct (blks s' !! at_addr p) as [b'|]; [|done]. exists b'. split; [done|]. injection Et as Et. congruence.
  - rewrite HL; [done|left].
  - intros q Hq. rewrite Eb in Hq. rewrite HL; [by apply Hbuf|]. unfold blocks_of. rewrite Hq. right. left.
Qed.

Lemma other_store o s s' o' ty :
  other_bodies o s s' -> o' <> o -> obj_flag s' o' ty = obj_flag s o' ty /\ obj_buf s' o' ty = obj_buf s o' ty.
Proof. intros [] Hne. destruct ty; cbn; rewrite ?ob_sems, ?ob_mutexes, ?ob_queues, ?ob_bufqs, ?ob_events by done; done. Qed.

(** What [new_blocks] a creation adds: the object, then the storage of its messages if it has one. *)
Definition with_blocks (p size : Z) (buf : option (Z * Z)) (L : gmap Z Z) : gmap Z Z :=
  match buf with
  | Some (q, k) => <[q := k]> (<[p := size]> L)
  | None => <[p := size]> L
  end.

Lemma with_blocks_old p size buf L x :
  L !! p = None -> (forall q k, buf = Some (q, k) -> q <> p /\ L !! q = None) -> is_Some (L !! x) ->
  with_blocks p size buf L !! x = L !! x.
Proof.
  intros Hp Hbuf [k Hx]. unfold with_blocks. destruct buf as [[q kq]|]; rewrite ?lookup_insert_ne; try done; try congruence.
  destruct (Hbuf q kq eq_refl). congruence.
Qed.

(** The new object joins the system. *)
Lemma sys_created d L objs p n name s' h' buf :
  sys_ok d L objs -> dyn_type (new_type n) -> 0 < p -> L !! p = None -> new_buf n = fst <$> buf ->
  (forall q k, buf = Some (q, k) -> q <> p /\ L !! q = None) ->
  heap_has v h' (with_blocks p (sizeof_obj (new_type n)) buf L) -> Inv s' ->
  created (at_addr p) (mk_blk [] name BLK_POLICY_PRI (new_type n)) (kern d) s' ->
  obj_flag s' (at_addr p) (new_type n) = Some K_OBJ_DYN_ALLOC -> obj_buf s' (at_addr p) (new_type n) = new_buf n ->
  sys_ok (Mk_dstate s' h') (with_blocks p (sizeof_obj (new_type n)) buf L) (<[p := new_type n]> objs).
Proof.
  intros S Hdt Hp HLp Hnb Hbuf Hh HI (Hob & Hc & _) Hf Hb. set (L' := with_blocks _ _ _ _) in *. set (ty := new_type n) in *.
  assert (blks s' = <[at_addr p := mk_blk [] name BLK_POLICY_PRI ty]> (blks (kern d))) as Eb
    by (unfold core in Hc; injection Hc as _ Eb _; exact Eb).
  assert (forall p' ty', objs !! p' = Some ty' -> p' <> p /\ at_addr p' <> at_addr p) as Hne.
  { intros p' ty' Hp'. pose proof (so_objs _ _ _ S p' ty' Hp') as [_ ? _ _ Hsz _]. assert (p' <> p) by congruence.
    split; [done|]. intros E%at_addr_inj; [done|lia..]. }
  assert (forall p' ty', objs !! p' = Some ty' -> blocks_of s' p' ty' = blocks_of (kern d) p' ty') as Hbo.
  { intros p' ty' Hp'. unfold blocks_of. by rewrite (proj2 (other_store _ _ _ _ ty' Hob (proj2 (Hne p' ty' Hp')))). }
  assert (forall x, x ∈ blocks_of s' p ty -> L !! x = None) as Hnew.
  { intros x. unfold blocks_of. rewrite Hb, Hnb. intros [->|Hx]%elem_of_cons; [done|].
    destruct buf as [[q k]|]; cbn in Hx; [|by apply elem_of_nil in Hx]. apply list_elem_of_singleton in Hx as ->. by apply (Hbuf q k). }
  split; cbn [kern heap]; [done|done|..].
  - intros p' ty'. rewrite lookup_insert_Some. intros [[<- <-]|[_ Hp']].
    + split; [done|done| |done| |].
      * rewrite Eb. eexists. split; [apply lookup_insert_eq|done].
      * unfold L', with_blocks. destruct buf as [[q k]|]; [rewrite lookup_insert_ne by by apply (Hbuf q k)|]; apply lookup_insert_eq.
      * intros q. rewrite Hb, Hnb. destruct buf as [[q' k]|]; [|done]. intros [= <-]. split; [by apply (Hbuf q' k)|].
        unfold L', with_blocks. rewrite lookup_insert_eq. by eexists.
    + pose proof (so_objs _ _ _ S p' ty' Hp') as Ha. destruct (Hne p' ty' Hp') as [? Hne'].
      destruct (other_store _ _ _ _ ty' Hob Hne'). eapply dyn_alive_frame; [exact Ha| |done|done|].
      * rewrite Eb. by rewrite lookup_insert_ne.
      * intros x Hx. apply with_blocks_old; [done..|]. by eapply blocks_of_in.
  - intros o b. rewrite Eb, lookup_insert_Some. intros [[<- <-]|[Hno Hbo']] Hty Hin.
    + rewrite at_addr_of by lia. rewrite lookup_insert_eq. by eexists.
    + apply lookup_insert_is_Some'. right. by eapply so_known.
  - intros p1 p2 ty1 ty2 x. rewrite !lookup_insert_Some. intros [[<- <-]|[_ Ho1]] [[<- <-]|[_ Ho2]] Hx1 Hx2; [done|..].
    + apply Hnew in Hx1. rewrite Hbo in Hx2 by done. apply (blocks_of_in _ L) in Hx2 as [? ?]; [congruence|by eapply so_objs].
    + apply Hnew in Hx2. rewrite Hbo in Hx1 by done. apply (blocks_of_in _ L) in Hx1 as [? ?]; [congruence|by eapply so_objs].
    + rewrite Hbo in Hx1, Hx2 by done. by eapply (so_own _ _ _ S).
Qed.

(** ** Creation *)

(** The objects that can be created dynamically. *)
Inductive dyn_new :=
  | DynSem (count : Z)
  | DynMutex
  | DynQueue (msg_num : Z)
  | DynBufQueue (size max_msg : Z)
  | DynEvent (flags : Z).

Definition dyn_create (out name : option Z) (n : dyn_new) : D dyn_res :=
  match n with
  | DynSem count => krhino_sem_dyn_create out name count
  | DynMutex => krhino_mutex_dyn_create out name
  | DynQueue msg_num => krhino_queue_dyn_create out name msg_num
  | DynBufQueue size max_msg => krhino_buf_queue_dyn_create out name size max_msg
  | DynEvent flags => krhino_event_dyn_create out name flags
  end.

Definition dyn_new_type (n : dyn_new) : kobj_type_t :=
  match n with
  | DynSem _ => RHINO_SEM_OBJ_TYPE
  | DynMutex => RHINO_MUTEX_OBJ_TYPE
  | DynQueue _ => RHINO_QUEUE_OBJ_TYPE
  | DynBufQueue _ _ => RHINO_BUF_QUEUE_OBJ_TYPE
  | DynEvent _ => RHINO_EVENT_OBJ_TYPE
  end.

Definition dyn_buf_size (n : dyn_new) : option Z :=
  match n with
  | DynQueue msg_num => Some (msg_num * PTR_SIZE)
  | DynBufQueue size _ => Some size
  | _ => None
  end.

Definition dyn_pre (n : dyn_new) : Prop :=
  match n with
  | DynSem count => fits sem_count_bits count
  | DynMutex => True
  | DynQueue msg_num => 0 < msg_num /\ msg_num * PTR_SIZE + 7 < 2 ^ 32
  | DynBufQueue size max_msg => 0 < size /\ size + 7 < 2 ^ 32 /\ 0 < max_msg
  | DynEvent flags => fits 32 flags
  end.

(** The call failed and nothing has changed, or it returned a new object in blocks of its own. *)
Definition dyn_created (d : dstate) (L : gmap Z Z) (objs : gmap Z kobj_type_t) (ty : kobj_type_t) (bufsz : option Z)
    (res : dyn_res) (d' : dstate) : Prop :=
  (res = (RHINO_NO_MEM, None) /\ kern d' = kern d /\ sys_ok d' L objs) \/
  exists p buf, res = (RHINO_SUCCESS, Some p) /\ apart L p (sizeof_obj ty) /\ snd <$> buf = bufsz /\
    (forall q k, buf = Some (q, k) -> apart (<[p := sizeof_obj ty]> L) q k) /\
    sys_ok d' (with_blocks p (sizeof_obj ty) buf L) (<[p := ty]> objs) /\
    obj_buf (kern d') (at_addr p) ty = fst <$> buf /\ tasks (kern d') = tasks (kern d) /\ irq_off (kern d') = irq_off (kern d) /\
    g_intrpt_nested_level (kern d') = g_intrpt_nested_level (kern d).

(** The kernel's part, on blocks that are new. *)
Lemma create_in_blocks d L objs p n name buf h (Q : kstat_t -> kstate -> Prop) :
  sys_ok d L objs -> create_pre n -> 0 < p -> in_heap v p -> L !! p = None -> new_buf n = fst <$> buf ->
  (forall q k, buf = Some (q, k) -> q <> p /\ L !! q = None) ->
  heap_has v h (with_blocks p (sizeof_obj (new_type n)) buf L) ->
  (forall s', sys_ok (Mk_dstate s' h) (with_blocks p (sizeof_obj (new_type n)) buf L) (<[p := new_type n]> objs) ->
     obj_buf s' (at_addr p) (new_type n) = new_buf n -> tasks s' = tasks (kern d) -> irq_off s' = irq_off (kern d) ->
     g_intrpt_nested_level s' = g_intrpt_nested_level (kern d) -> Q RHINO_SUCCESS s') ->
  wp (create_with K_OBJ_DYN_ALLOC (at_addr p) name n) Q (kern d).
Proof.
  intros S Hpre Hp Hin HLp Hnb Hbuf Hh HQ.
  eapply wp_mono; [apply create_with_inv; [apply S|by eapply sys_idle|done]|].
  intros r s' (-> & HI & Hc & _ & Hf & Hb). apply HQ; [|done| |apply Hc|].
  - by eapply sys_created; [..|exact Hc| |]; try done; destruct n.
  - destruct Hc as (_ & Hc & _). unfold core in Hc. by injection Hc as -> _.
  - destruct Hc as (_ & Hc & _). unfold core in Hc. by injection Hc as _ _ _ _ _ _ _ ->.
Qed.

(** An object without message storage. *)
Lemma create_one_block d L objs n name :
  sys_ok d L objs -> create_pre n -> new_buf n = None ->
  dwp (obj ← inH (krhino_mm_alloc (sizeof_obj (new_type n)));
       if obj =? 0 then mret (RHINO_NO_MEM, None)
       else
         stat ← inK (create_with K_OBJ_DYN_ALLOC (at_addr obj) name n);
         if negb (bool_decide (stat = RHINO_SUCCESS)) then inH (krhino_mm_free obj);; mret (stat, None)
         else mret (stat, Some obj))
    (dyn_created d L objs (new_type n) None) d.
Proof.
  intros S Hpre Hnb. destruct (sizeof_obj_ok (new_type n)) as [Hs Hs32]; [by destruct n|]. do 2 dstep.
  eapply alloc_wp; [apply S|done|done| |].
  - cbn [Z.eqb]. dstep. left. split_and!; try done. by destruct d.
  - intros p h Hp Hin HLp Ha Hh. destruct (Z.eqb_spec p 0); [lia|]. do 2 dstep.
    eapply (create_in_blocks d L objs p n name None); try done. intros s' S' Hb Ht Hi Hl. rewrite bool_decide_true by done. cbn [negb]. dstep.
    right. exists p, None. cbn [kern]. rewrite Hb. by split_and!.
Qed.

Lemma block_bytes_wp p n (Q : list Z -> hstate -> Prop) h :
  0 <= n -> (forall l, Z.of_nat (length l) = n -> Q l h) -> hwp (block_bytes p n) Q h.
Proof. intros Hn HQ. apply (HQ (_ <$> seqZ 0 n)). rewrite length_fmap, length_seqZ. lia. Qed.

(** An object with message storage of [size] bytes. *)
Lemma create_two_blocks d L objs ty size (n : Z -> list Z -> new_obj) (ret : kstat_t -> kstat_t) name :
  sys_ok d L objs -> 0 < size -> size + 7 < 2 ^ 32 -> ret RHINO_SUCCESS = RHINO_SUCCESS ->
  (forall q l, Z.of_nat (length l) = size -> create_pre (n q l) /\ new_type (n q l) = ty /\ new_buf (n q l) = Some q) ->
  dwp (obj ← inH (krhino_mm_alloc (sizeof_obj ty));
       if obj =? 0 then mret (RHINO_NO_MEM, None)
       else
         buf ← inH (krhino_mm_alloc size);
         if buf =? 0 then inH (krhino_mm_free obj);; mret (RHINO_NO_MEM, None)
         else
           mem ← inH (block_bytes buf size);
           stat ← inK (create_with K_OBJ_DYN_ALLOC (at_addr obj) name (n buf mem));
           if negb (bool_decide (stat = RHINO_SUCCESS)) then
             inH (krhino_mm_free buf);; inH (krhino_mm_free obj);; mret (stat, None)
           else mret (ret stat, Some obj))
    (dyn_created d L objs ty (Some size)) d.
Proof.
  intros S Hz Hz32 Hr Hn. destruct (Hn 0 (replicate (Z.to_nat size) 0)) as (_ & Hty & _); [rewrite length_replicate; lia|].
  destruct (sizeof_obj_ok ty) as [Hs Hs32]; [rewrite <- Hty; by destruct (n _ _)|]. do 2 dstep.
  eapply alloc_wp; [apply S|done|done| |].
  { cbn [Z.eqb]. dstep. left. split_and!; try done. by destruct d. }
  intros p h Hp Hin HLp Ha Hh. destruct (Z.eqb_spec p 0); [lia|]. do 2 dstep. eapply alloc_wp; [exact Hh|done|done| |].
  { cbn [Z.eqb]. do 2 dstep. eapply free_wp; [exact Hh|rewrite lookup_insert_eq; by eexists|]. intros h' Hh'.
    rewrite delete_insert_id in Hh' by done. dstep. left. split_and!; try done. by destruct S. }
  intros q h2 Hq Hinq HLq Haq Hh2. destruct (Z.eqb_spec q 0); [lia|]. do 2 dstep. apply block_bytes_wp; [lia|]. intros mem Hmem.
  destruct (Hn q mem Hmem) as (Hpre & Hty' & Hnb). assert (q <> p /\ L !! q = None) as [Hqp HLq'].
  { destruct (decide (q = p)) as [->|]; [by rewrite lookup_insert_eq in HLq|]. by rewrite lookup_insert_ne in HLq. }
  do 2 dstep. eapply (create_in_blocks d L objs p (n q mem) name (Some (q, size))); try done; rewrite ?Hty'; try done.
  { by intros ? ? [= <- <-]. }
  intros s' S' Hb Ht Hi Hl. rewrite bool_decide_true by done. cbn [negb]. dstep. right. exists p, (Some (q, size)).
  cbn [kern]. rewrite Hr, Hb, Hnb. split_and!; try done. by intros ? ? [= <- <-].
Qed.

Lemma dyn_create_wp d L objs out name n :
  sys_ok d L objs -> dyn_pre n ->
  dwp (dyn_create (Some out) (Some name) n) (dyn_created d L objs (dyn_new_type n) (dyn_buf_size n)) d.
Proof.
  intros S Hpre. destruct n as [count| |msg_num|size max_msg|flags]; cbn in Hpre.
  - by apply (create_one_block d L objs (NewSem count) name).
  - by apply (create_one_block d L objs NewMutex name).
  - destruct Hpre as [Hm Hm32]. cbn [dyn_create]. unfold krhino_queue_dyn_create, PTR_SIZE in *. cbn [out_chk].
    unfold u32. rewrite wrap_small by lia.
    apply (create_two_blocks d L objs RHINO_QUEUE_OBJ_TYPE (msg_num * 4) (fun q l => NewQueue (q, l) msg_num) id name); [done|lia|lia|done|].
    intros q l Hl. cbn. unfold PTR_SIZE. split_and!; try done; lia.
  - destruct Hpre as (Hz & Hz32 & Hm). cbn [dyn_create]. unfold krhino_buf_queue_dyn_create. cbn [out_chk].
    rewrite (proj2 (Z.eqb_neq size 0)) by lia.
    apply (create_two_blocks d L objs RHINO_BUF_QUEUE_OBJ_TYPE size (fun q l => NewBufQueue (q, l) size max_msg) (fun _ => RHINO_SUCCESS) name); [done|lia|lia|done|].
    intros q l Hl. cbn. split_and!; try done; lia.
  - by apply (create_one_block d L objs (NewEvent flags) name).
Qed.

(** ** Failing creation *)

(** A failing call gives back what it allocated. *)
Definition dyn_failed (d : dstate) (L : gmap Z Z) (objs : gmap Z kobj_type_t) (err : kstat_t) (res : dyn_res) (d' : dstate) : Prop :=
  (res = (RHINO_NO_MEM, None) \/ res = (err, None)) /\ kern d' = kern d /\ sys_ok d' L objs.

Lemma sys_heap d L objs h : sys_ok d L objs -> heap_has v h L -> sys_ok (Mk_dstate (kern d) h) L objs.
Proof. by intros [] Hh; split. Qed.

Lemma fail_one_block d L objs size (create : Z -> K kstat_t) err :
  sys_ok d L objs -> 0 < size -> size + 7 < 2 ^ 32 -> (forall p s, create p s = Some (err, s)) -> err <> RHINO_SUCCESS ->
  dwp (obj ← inH (krhino_mm_alloc size);
       if obj =? 0 then mret (RHINO_NO_MEM, None)
       else
         stat ← inK (create obj);
         if negb (bool_decide (stat = RHINO_SUCCESS)) then inH (krhino_mm_free obj);; mret (stat, None)
         else mret (stat, Some obj))
    (dyn_failed d L objs err) d.
Proof.
  intros S Hs Hs32 Hc Herr. do 2 dstep. eapply alloc_wp; [apply S|done|done| |].
  - cbn [Z.eqb]. dstep. split; [by left|]. split; [done|]. apply sys_heap; [done|apply S].
  - intros p h Hp _ HLp _ Hh. destruct (Z.eqb_spec p 0); [lia|]. do 2 dstep. unfold wp. rewrite Hc. rewrite bool_decide_false by done.
    cbn [negb]. do 2 dstep. eapply free_wp; [exact Hh|rewrite lookup_insert_eq; by eexists|]. intros h' Hh'.
    rewrite delete_insert_id in Hh' by done. dstep. split; [by right|]. split; [done|]. by apply (sys_heap d).
Qed.

Lemma fail_two_blocks d L objs size bsize (create : Z -> Z -> list Z -> K kstat_t) (ret : kstat_t -> kstat_t) err :
  sys_ok d L objs -> 0 < size -> size + 7 < 2 ^ 32 -> 0 <= bsize -> bsize + 7 < 2 ^ 32 ->
  (0 < bsize -> forall p q l s, create p q l s = Some (err, s)) -> err <> RHINO_SUCCESS ->
  dwp (obj ← inH (krhino_mm_alloc size);
       if obj =? 0 then mret (RHINO_NO_MEM, None)
       else
         buf ← inH (krhino_mm_alloc bsize);
         if buf =? 0 then inH (krhino_mm_free obj);; mret (RHINO_NO_MEM, None)
         else
           mem ← inH (block_bytes buf bsize);
           stat ← inK (create obj buf mem);
           if negb (bool_decide (stat = RHINO_SUCCESS)) then
             inH (krhino_mm_free buf);; inH (krhino_mm_free obj);; mret (stat, None)
           else mret (ret stat, Some obj))
    (dyn_failed d L objs err) d.
Proof.
  intros S Hs Hs32 Hb Hb32 Hc Herr. do 2 dstep. eapply alloc_wp; [apply S|done|done| |].
  { cbn [Z.eqb]. dstep. split; [by left|]. split; [done|]. apply sys_heap; [done|apply S]. }
  intros p h Hp _ HLp _ Hh. destruct (Z.eqb_spec p 0); [lia|]. do 2 dstep.
  assert (forall h', heap_has v h' (<[p := size]> L) -> forall r, (r = RHINO_NO_MEM \/ r = err) ->
    dwp (inH (krhino_mm_free p);; mret (r, None)) (dyn_failed d L objs err) (Mk_dstate (kern d) h')) as Hfail.
  { intros h' Hh' r Hr. do 2 dstep. eapply free_wp; [exact Hh'|rewrite lookup_insert_eq; by eexists|]. intros h2 Hh2.
    rewrite delete_insert_id in Hh2 by done. dstep. split; [destruct Hr as [->| ->]; [by left|by right]|].
    split; [done|]. by apply (sys_heap d). }
  destruct (decide (bsize = 0)) as [->|Hb0]; [cbn; by apply Hfail; [|left]|].
  eapply alloc_wp; [exact Hh|lia|done|cbn [Z.eqb]; by apply Hfail; [|left]|].
  intros q h2 Hq _ HLq _ Hh2. destruct (Z.eqb_spec q 0); [lia|]. do 2 dstep. apply block_bytes_wp; [lia|]. intros mem _.
  do 2 dstep. unfold wp. rewrite Hc by lia. rewrite bool_decide_false by done. cbn [negb]. do 2 dstep.
  eapply free_wp; [exact Hh2|rewrite lookup_insert_eq; by eexists|]. intros h3 Hh3. rewrite delete_insert_id in Hh3 by done.
  by apply Hfail; [|right].
Qed.

(** The status of a creation that does not run out of memory. *)
Definition dyn_status (out name : option Z) (n : dyn_new) : kstat_t :=
  match out, name, n with
  | None, _, _ => RHINO_NULL_PTR
  | Some _, _, DynBufQueue 0 _ => RHINO_BUF_QUEUE_SIZE_ZERO
  | Some _, None, _ => RHINO_NULL_PTR
  | Some _, Some _, DynQueue 0 => RHINO_NO_MEM
  | Some _, Some _, DynBufQueue _ 0 => RHINO_INV_PARAM
  | _, _, _ => RHINO_SUCCESS
  end.

(** Arguments of the C types, sizes that survive rounding. *)
Definition dyn_args (n : dyn_new) : Prop :=
  match n with
  | DynSem count => fits sem_count_bits count
  | DynMutex => True
  | DynQueue msg_num => 0 <= msg_num /\ msg_num * PTR_SIZE + 7 < 2 ^ 32
  | DynBufQueue size max_msg => 0 <= size /\ size + 7 < 2 ^ 32 /\ 0 <= max_msg
  | DynEvent flags => fits 32 flags
  end.

Lemma dyn_status_pre out name n :
  dyn_args n -> dyn_status out name n = RHINO_SUCCESS -> is_Some out /\ is_Some name /\ dyn_pre n.
Proof.
  destruct out as [out|]; [|done]. destruct name as [name|]; [|by destruct n as [| | |[]|]].
  intros Ha Hs. split_and!; [by eexists..|]. destruct n as [| |[]|[] []|]; cbn in *; try done; lia.
Qed.

Lemma dyn_fail_wp d L objs out name n :
  sys_ok d L objs -> dyn_args n -> dyn_status out name n <> RHINO_SUCCESS ->
  dwp (dyn_create out name n) (dyn_failed d L objs (dyn_status out name n)) d.
Proof.
  intros S Ha Hne. pose proof sizes_ok as Hs. rewrite !Forall_cons in Hs. destruct Hs as (? & ? & ? & ? & ? & _).
  destruct out as [out|].
  2: { destruct n; cbn; (split; [by right|done]). }
  destruct n as [count| |msg_num|size max_msg|flags]; cbn [dyn_create dyn_args] in *.
  - destruct name as [name|]; [done|]. eapply fail_one_block; [done|lia|lia|done|done].
  - destruct name as [name|]; [done|]. eapply fail_one_block; [done|lia|lia|done|done].
  - unfold krhino_queue_dyn_create, PTR_SIZE, u32 in *. rewrite wrap_small by lia. cbn [out_chk].
    eapply (fail_two_blocks d L objs _ _ (fun p q l => queue_create (Some (at_addr p)) name (Some (q, l)) msg_num K_OBJ_DYN_ALLOC) id); [done|lia|lia|lia|lia| |done].
    intros Hb p q l s. destruct name as [name|]; [|done]. destruct msg_num; done.
  - unfold krhino_buf_queue_dyn_create. cbn [out_chk]. destruct (Z.eqb_spec size 0) as [->|Hz]; [dstep; split; [right; by destruct name|done]|].
    eapply (fail_two_blocks d L objs _ _ (fun p q l => buf_queue_create (Some (at_addr p)) name (Some (q, l)) size max_msg K_OBJ_DYN_ALLOC
      RINGBUF_TYPE_DYN) (fun _ => RHINO_SUCCESS)); [done|lia|lia|lia|lia| |done].
    intros _ p q l s. destruct name as [name|]; destruct size, max_msg; done.
  - destruct name as [name|]; [done|]. eapply fail_one_block; [done|lia|lia|done|done].
Qed.

(** ** Deletion *)

Definition dyn_del (ty : kobj_type_t) (p : option Z) : D kstat_t :=
  match ty with
  | RHINO_SEM_OBJ_TYPE => krhino_sem_dyn_del p
  | RHINO_MUTEX_OBJ_TYPE => krhino_mutex_dyn_del p
  | RHINO_QUEUE_OBJ_TYPE => krhino_queue_dyn_del p
  | RHINO_BUF_QUEUE_OBJ_TYPE => krhino_buf_queue_dyn_del p
  | RHINO_EVENT_OBJ_TYPE => krhino_event_dyn_del p
  | _ => fun _ => None
  end.

Definition without (l : list Z) (L : gmap Z Z) : gmap Z Z := foldr delete L l.

Lemma without_other l L x : x ∉ l -> without l L !! x = L !! x.
Proof.
  induction l as [|y l IH]; [done|]. intros [Hne Hx]%not_elem_of_cons. cbn. rewrite lookup_delete_ne by done. by apply IH.
Qed.

(** The deleted object leaves the system. *)
Lemma sys_deleted d L objs p ty s' h' :
  sys_ok d L objs -> objs !! p = Some ty -> Inv s' -> gone (at_addr p) (kern d) s' ->
  heap_has v h' (without (blocks_of (kern d) p ty) L) ->
  sys_ok (Mk_dstate s' h') (without (blocks_of (kern d) p ty) L) (delete p objs).
Proof.
  intros S Hp HI [Hd Hty Hfl Hbf] Hh. assert (forall p' ty', blocks_of s' p' ty' = blocks_of (kern d) p' ty') as Hbo.
  { intros p' ty'. unfold blocks_of. by rewrite Hbf. }
  assert (forall p' ty', p' <> p -> objs !! p' = Some ty' -> at_addr p' <> at_addr p) as Hne.
  { intros p' ty' Hn Hp' E%at_addr_inj; [done|..].
    - pose proof (da_pos _ _ _ _ (so_objs _ _ _ S p' ty' Hp')). lia.
    - pose proof (da_pos _ _ _ _ (so_objs _ _ _ S p ty Hp)). lia. }
  split; cbn [kern heap]; [done|done|..].
  - intros p' ty' [Hn Hp']%lookup_delete_Some. pose proof (so_objs _ _ _ S p' ty' Hp') as Ha.
    eapply dyn_alive_frame; [exact Ha|by eapply Hty, Hne|apply Hfl|apply Hbf|]. intros x Hx. apply without_other.
    intros Hx'. by apply Hn, (so_own _ _ _ S p p' ty ty' x).
  - intros o b Hb Hno Hin. assert (o <> at_addr p) as Hop by (intros ->; destruct Hd as (b' & Hb' & Ht'); pose proof (eq_trans (eq_sym Hb) Hb') as [= ->]; done).
    specialize (Hty o Hop). rewrite Hb in Hty. destruct (blks (kern d) !! o) as [b0|] eqn:Eb; [|done]. injection Hty as Hty.
    rewrite lookup_delete_ne by (unfold at_addr in Hop; lia). eapply (so_known _ _ _ S); [exact Eb|intros E0; exact (Hno (eq_trans Hty E0))|done].
  - intros p1 p2 ty1 ty2 x [_ ?]%lookup_delete_Some [_ ?]%lookup_delete_Some. rewrite !Hbo. by apply (so_own _ _ _ S).
Qed.

(** What is left to do after the critical section. *)
Lemma dyn_del_free d L objs p ty :
  sys_ok d L objs -> objs !! p = Some ty -> forall s' (Q : kstat_t -> dstate -> Prop), Inv s' -> gone (at_addr p) (kern d) s' ->
  (forall h', sys_ok (Mk_dstate s' h') (without (blocks_of (kern d) p ty) L) (delete p objs) -> Q RHINO_SUCCESS (Mk_dstate s' h')) ->
  (obj_buf (kern d) (at_addr p) ty = None -> dwp (inH (krhino_mm_free p);; mret RHINO_SUCCESS) Q (Mk_dstate s' (heap d))) /\
  (forall q, obj_buf (kern d) (at_addr p) ty = Some q ->
     dwp (inH (krhino_mm_free q);; inH (krhino_mm_free p);; mret RHINO_SUCCESS) Q (Mk_dstate s' (heap d))).
Proof.
  intros S Hp s' Q HI Hg HQ. pose proof (so_objs _ _ _ S p ty Hp) as [_ _ _ _ Hsz Hbuf].
  assert (forall h', heap_has v h' (without (blocks_of (kern d) p ty) L) -> Q RHINO_SUCCESS (Mk_dstate s' h')) as HQ'
    by (intros h' Hh'; apply HQ; by eapply sys_deleted). split.
  - intros E. do 2 dstep. eapply free_wp; [apply S|by eexists|]. intros h' Hh'. dstep. apply HQ'. unfold blocks_of. by rewrite E.
  - intros q E. destruct (Hbuf q E) as [Hqp Hq]. do 2 dstep. eapply free_wp; [apply S|done|]. intros h1 Hh1. do 2 dstep.
    eapply free_wp; [exact Hh1|rewrite lookup_delete_ne by done; by eexists|]. intros h2 Hh2. dstep. apply HQ'.
    unfold blocks_of. rewrite E. exact Hh2.
Qed.

(** The status of a deletion, and what it has done when it succeeds. *)
Definition dyn_deleted (d : dstate) (L : gmap Z Z) (objs : gmap Z kobj_type_t) (p : Z) (ty : kobj_type_t)
    (r : kstat_t) (d' : dstate) : Prop :=
  if 0 <? g_intrpt_nested_level (kern d) then r = RHINO_NOT_CALLED_BY_INTRPT /\ d' = d
  else r = RHINO_SUCCESS /\ sys_ok d' (without (blocks_of (kern d) p ty) L) (delete p objs) /\
    exists b, blks (kern d) !! at_addr p = Some b /\ deleted (at_addr p) b (kern d) (kern d').

(** The critical section, then [rest]. *)
Lemma dyn_del_call d L objs p ty (rest : D kstat_t) :
  sys_ok d L objs -> objs !! p = Some ty ->
  (forall s' (Q : kstat_t -> dstate -> Prop), gone (at_addr p) (kern d) s' ->
     (obj_buf (kern d) (at_addr p) ty = None -> dwp (inH (krhino_mm_free p);; mret RHINO_SUCCESS) Q (Mk_dstate s' (heap d))) ->
     (forall q, obj_buf (kern d) (at_addr p) ty = Some q ->
        dwp (inH (krhino_mm_free q);; inH (krhino_mm_free p);; mret RHINO_SUCCESS) Q (Mk_dstate s' (heap d))) ->
     dwp rest Q (Mk_dstate s' (heap d))) ->
  dwp (stat ← inK (kernel_del ty (at_addr p)); if negb (bool_decide (stat = RHINO_SUCCESS)) then mret stat else rest)
    (dyn_deleted d L objs p ty) d.
Proof.
  intros S Hp Hrest. pose proof (so_objs _ _ _ S p ty Hp) as [Hdt _ (b & Hb & Hty) Hfl _ _]. do 2 dstep.
  eapply wp_mono; [exact (kernel_del_wp ty (at_addr p) b (kern d) (so_inv _ _ _ S) Hb Hdt)|].
  intros r s' (Hr & HI & Hpost). unfold del_status in Hr. unfold dyn_deleted.
  rewrite decide_True, Hfl, decide_True in Hr by done. destruct (0 <? g_intrpt_nested_level (kern d)) eqn:En; subst r.
  - rewrite decide_False in Hpost by done. rewrite bool_decide_false by done. cbn [negb]. dstep. rewrite Hpost. by destruct d.
  - rewrite decide_True in Hpost by done. rewrite bool_decide_true by done. destruct Hpost as [Hg Hi Hrel]. cbn [negb].
    apply Hrest; [done|..]; eapply (dyn_del_free d L objs); try done; intros h' S'; (split; [done|]); (split; [done|]); by exists b.
Qed.

Lemma dyn_del_wp d L objs p ty :
  sys_ok d L objs -> objs !! p = Some ty -> dwp (dyn_del ty (Some p)) (dyn_deleted d L objs p ty) d.
Proof.
  intros S Hp. pose proof (so_objs _ _ _ S p ty Hp) as [Hdt _ _ Hfl _ _]. destruct ty; try done.
  - apply (dyn_del_call d L objs p RHINO_SEM_OBJ_TYPE); [done..|]. intros s' Q _ HQ _. by apply HQ.
  - apply (dyn_del_call d L objs p RHINO_MUTEX_OBJ_TYPE); [done..|]. intros s' Q _ HQ _. by apply HQ.
  - apply (dyn_del_call d L objs p RHINO_QUEUE_OBJ_TYPE); [done..|]. intros s' Q [_ _ _ Hbf] _ HQ. specialize (Hbf (at_addr p) RHINO_QUEUE_OBJ_TYPE). cbn in *.
    apply fmap_Some in Hfl as (q & Eq & _). rewrite Eq in *. cbn in Hbf, HQ. apply fmap_Some in Hbf as (q' & Eq' & Hst).
    do 2 dstep. apply wp_bind, (wp_get_queue _ q'); [done|]. apply wp_ret. apply HQ. f_equal. exact Hst.
  - apply (dyn_del_call d L objs p RHINO_BUF_QUEUE_OBJ_TYPE); [done..|]. intros s' Q [_ _ _ Hbf] _ HQ. specialize (Hbf (at_addr p) RHINO_BUF_QUEUE_OBJ_TYPE). cbn in *.
    apply fmap_Some in Hfl as (q & Eq & _). rewrite Eq in *. cbn in Hbf, HQ. apply fmap_Some in Hbf as (q' & Eq' & Hst).
    do 2 dstep. apply wp_bind, (wp_get_bufq _ q'); [done|]. apply wp_ret. apply HQ. f_equal. exact Hst.
  - apply (dyn_del_call d L objs p RHINO_EVENT_OBJ_TYPE); [done..|]. intros s' Q _ HQ _. by apply HQ.
Qed.

End system.
