(* ===== verification/DynCalls.v ===== *)
(** * Creating, deleting and freeing on the heap: whole calls

    The theorems on dynamically created objects, on dynamically created tasks and on
    the task that frees what deleted tasks leave behind. *)

From S2P Require Import Prelude KErr Bitmap RingBuf KState KMonad Sched Pend KInv Mutex PriInv Sem Task Event Queue BufQueue Inv Moves Create Boot TaskSpec TaskLife Mem MBlk Mm MmSpec MmBoot MmInit MmCalls Dyn DynSpec.
Local Open Scope Z_scope.

Section calls.
Context `{CpuPort} `{ObjSizes} (v : hview).

(** What was added is what is taken away. *)
Lemma without_with s p ty size buf L :
  L !! p = None -> (forall q k, buf = Some (q, k) -> q <> p /\ L !! q = None) -> obj_buf s (at_addr p) ty = fst <$> buf ->
  without (blocks_of s p ty) (with_blocks p size buf L) = L.
Proof.
  intros Hp Hbuf E. unfold blocks_of. rewrite E. destruct buf as [[q k]|]; cbn.
  - destruct (Hbuf q k eq_refl). rewrite delete_insert_id by (by rewrite lookup_insert_ne). by rewrite delete_insert_id.
  - by rewrite delete_insert_id.
Qed.

(** ** The task that frees deleted tasks *)

(** The blocks of the tasks on [g_res_list], in the order they are freed. *)
Definition res_blocks (s : kstate) (l : list tid) : list Z :=
  l ≫= fun t : tid => [default 0 (task_stack_base <$> tasks s !! t); Z.of_nat t].

Definition freed (l : list Z) (L : gmap Z Z) : gmap Z Z := foldl (fun L p => delete p L) L l.

Lemma dyn_mem_proc_loop_wp fuel d L :
  heap_has v (heap d) L -> (length (g_res_list (kern d)) < fuel)%nat ->
  (forall t, t ∈ g_res_list (kern d) -> is_Some (tasks (kern d) !! t)) ->
  NoDup (res_blocks (kern d) (g_res_list (kern d))) ->
  (forall p, p ∈ res_blocks (kern d) (g_res_list (kern d)) -> is_Some (L !! p)) ->
  dwp (dyn_mem_proc_loop fuel) (fun _ d' => kern d' = set_g_res_list [] (kern d) /\
    heap_has v (heap d') (freed (res_blocks (kern d) (g_res_list (kern d))) L)) d.
Proof.
  revert d L. induction fuel as [|fuel IH]; [lia|]. intros [s h] L Hh Hlen Ht Hnd Hin. cbn [kern heap] in *. cbn [dyn_mem_proc_loop].
  dstep. unfold dyn_mem_proc_turn. do 2 dstep. apply wp_critical_enter. do 2 dstep. apply wp_gets. cbn [kern g_res_list set_irq_off].
  destruct (g_res_list s) as [|t l] eqn:El.
  - do 2 dstep. apply wp_modify. do 2 dstep. cbn [kern heap]. split; [|done]. destruct s. cbn in *. by rewrite El.
  - destruct (Ht t) as [k Hk]; [left|]. unfold res_blocks in *. cbn in Hnd, Hin, Hlen |- *. rewrite Hk. rewrite Hk in Hnd, Hin. cbn in Hnd, Hin.
    apply NoDup_cons in Hnd as [Hn1 [Hn2 Hnd]%NoDup_cons]. apply not_elem_of_cons in Hn1 as [Hne Hn1].
    do 2 dstep. apply wp_modify. do 2 dstep. apply wp_modify. do 2 dstep. cbn [kern heap]. apply (wp_get_task t k); [done|].
    do 2 dstep. eapply free_wp; [exact Hh|apply Hin; left|]. intros h1 Hh1. do 2 dstep.
    eapply free_wp; [exact Hh1| |]. { rewrite lookup_delete_ne by done. apply Hin. right. left. }
    intros h2 Hh2. dstep. cbn [kern heap].
    change (set_irq_off (irq_off s) _) with (set_g_res_list l (set_irq_off (irq_off s) (set_irq_off true s))). rewrite irq_restore.
    eapply dwp_mono; [eapply (IH (Mk_dstate (set_g_res_list l s) h2)); [exact Hh2|..]|]; cbn [kern heap g_res_list set_g_res_list tasks]; try done.
    + lia.
    + intros u Hu. apply Ht. by right.
    + intros p Hp. rewrite !lookup_delete_ne by congruence. apply Hin. by do 2 right.
Qed.

(** ** Tasks *)

(** A failing call leaves every task and every block as it was; a succeeding one has put the stack and
    the control block of the new task into blocks of their own. *)
Definition task_created (d : dstate) (L : gmap Z Z) (bytes autorun : Z) (res : dyn_res) (d' : dstate) : Prop :=
  Inv (kern d') /\ irq_off (kern d') = irq_off (kern d) /\
  ((res.1 <> RHINO_SUCCESS /\ heap_has v (heap d') L /\ forall t, tabs (kern d') t = tabs (kern d) t) \/
   exists p st, res = (RHINO_SUCCESS, Some p) /\ apart L st bytes /\ apart (<[st := bytes]> L) p sizeof_ktask_t /\
     heap_has v (heap d') (<[p := sizeof_ktask_t]> (<[st := bytes]> L)) /\
     tabs_only (at_addr p) (Some (mk_atask None (negb (0 <? autorun)) (if 0 <? autorun then 0 else 1))) (kern d) (kern d')).

Lemma create_result_cases s t name st entry size pri autorun :
  (create_result s t name st entry size pri autorun).1 = RHINO_SUCCESS /\
    (create_result s t name st entry size pri autorun).2 = Some (mk_atask None (negb (0 <? autorun)) (if 0 <? autorun then 0 else 1)) \/
  (create_result s t name st entry size pri autorun).1 <> RHINO_SUCCESS /\
  (create_result s t name st entry size pri autorun).1 <> RHINO_STOPPED /\
    (create_result s t name st entry size pri autorun).2 = tabs s t.
Proof. unfold create_result. repeat case_match; cbn; auto. Qed.

Lemma task_dyn_create_wp d L out name arg pri ticks stack entry cpu autorun :
  Inv (kern d) -> heap_has v (heap d) L -> 0 <= pri -> 0 <= stack -> stack * sizeof_cpu_stack_t + 7 < 2 ^ 32 ->
  (forall p, 0 < p -> in_heap v p -> L !! p = None ->
     task_free (kern d) (at_addr p) /\ g_active_task (kern d) <> Some (at_addr p)) ->
  dwp (task_dyn_create (Some out) name arg pri ticks stack entry cpu autorun)
    (task_created d L (stack * sizeof_cpu_stack_t) autorun) d.
Proof.
  intros HI Hh Hpri Hst Hst32 Hfree. pose proof sizes_ok as Hs. rewrite !Forall_cons in Hs. destruct Hs as (_ & _ & _ & _ & _ & Ht & Hc & _).
  unfold task_dyn_create. cbn [out_chk]. destruct (Z.eqb_spec stack 0) as [|Hst0]; [dstep; split_and!; [done..|by left]|].
  unfold u32. rewrite wrap_small by lia. do 2 dstep. eapply alloc_wp; [exact Hh|lia|lia| |].
  { cbn [Z.eqb]. dstep. split_and!; [done..|by left]. }
  intros st h Hst1 _ HLst Hast Hh1. destruct (Z.eqb_spec st 0); [lia|]. do 2 dstep. eapply alloc_wp; [exact Hh1|lia|lia| |].
  { cbn [Z.eqb]. do 2 dstep. eapply free_wp; [exact Hh1|rewrite lookup_insert_eq; by eexists|]. intros h' Hh'.
    rewrite delete_insert_id in Hh' by done. dstep. split_and!; [done..|by left]. }
  intros p h2 Hp Hin HLp Hap Hh2. destruct (Z.eqb_spec p 0); [lia|]. assert (p <> st /\ L !! p = None) as [Hne HLp'].
  { destruct (decide (p = st)) as [->|]; [by rewrite lookup_insert_eq in HLp|]. by rewrite lookup_insert_ne in HLp. }
  destruct (Hfree p Hp Hin HLp') as [Hf Ha]. do 2 dstep. eapply wp_mono; [by apply task_create_wp|].
  intros r s' (HI' & Hi & -> & Hto). cbn [kern] in Hto, Hi |- *.
  destruct (create_result_cases (kern d) (at_addr p) name (Some st) entry stack pri autorun) as [[E1 E2]|(E1 & E2 & E3)].
  - rewrite E1. rewrite bool_decide_true by done. cbn [negb andb]. dstep. split_and!; [done..|]. right. exists p, st. by rewrite <- E2.
  - rewrite !bool_decide_false by done. cbn [negb andb]. do 2 dstep.
    eapply free_wp; [exact Hh2|rewrite lookup_insert_ne, lookup_insert_eq by done; by eexists|]. intros h3 Hh3. do 2 dstep.
    eapply free_wp; [exact Hh3|rewrite lookup_delete_ne, lookup_insert_eq by done; by eexists|]. intros h4 Hh4. dstep.
    rewrite delete_insert_ne, (delete_insert_id L), delete_insert_id in Hh4 by done.
    split_and!; [done..|]. left. split_and!; [done..|]. cbn [kern]. rewrite E3 in Hto. destruct Hto as [Et Hu].
    intros t. destruct (decide (t = at_addr p)) as [->|]; [done|by apply Hu].
Qed.

(** ** The properties *)

(** C12: a dynamic creation returns; when its arguments are wrong or memory runs out, it gives back what it
    had allocated and neither the kernel nor the set of blocks handed out has changed; when it succeeds, the
    new object of the right kind is in a block of its own, its message storage in another, both apart from all
    other blocks, and the kernel invariant, the heap invariant and the ownership of all objects are kept. *)
Theorem dyn_create_owns_blocks d L objs out name n :
  sys_ok v d L objs -> dyn_args n ->
  exists res d', dyn_create out name n d = Some (res, d') /\
    if decide (dyn_status out name n = RHINO_SUCCESS) then dyn_created v d L objs (dyn_new_type n) (dyn_buf_size n) res d'
    else dyn_failed v d L objs (dyn_status out name n) res d'.
Proof.
  intros S Ha. destruct (decide _) as [E|E]; [|by apply (dwp_iff (dyn_create out name n)), dyn_fail_wp].
  destruct (dyn_status_pre out name n Ha E) as ([o ->] & [nm ->] & Hpre). by apply (dwp_iff (dyn_create _ _ n)), dyn_create_wp.
Qed.

(** C13: deleting a dynamically created object from a task returns success, wakes every task that waits for it with the
    status of a deletion, and returns exactly the blocks of the object: the others, and the objects in them,
    are kept; from an interrupt it fails and changes nothing. *)
Theorem dyn_del_returns_blocks d L objs p ty :
  sys_ok v d L objs -> objs !! p = Some ty ->
  exists r d', dyn_del ty (Some p) d = Some (r, d') /\ dyn_deleted v d L objs p ty r d'.
Proof. intros S Hp. by apply (dwp_iff (dyn_del ty (Some p))), dyn_del_wp. Qed.

(** Creating an object dynamically and deleting it again leaves the heap with the blocks and the system with
    the objects it had. *)
Theorem dyn_create_del_roundtrip d L objs out name n p d1 :
  sys_ok v d L objs -> dyn_args n -> g_intrpt_nested_level (kern d) <= 0 ->
  dyn_create out name n d = Some ((RHINO_SUCCESS, Some p), d1) ->
  exists d2, dyn_del (dyn_new_type n) (Some p) d1 = Some (RHINO_SUCCESS, d2) /\ sys_ok v d2 L objs.
Proof.
  intros S Ha Hn E. destruct (decide (dyn_status out name n = RHINO_SUCCESS)) as [Est|Est].
  2: { pose proof (dyn_fail_wp v d L objs out name n S Ha Est) as Hf. unfold dwp in Hf. rewrite E in Hf.
       destruct Hf as [[Hf|Hf] _]; by injection Hf. }
  destruct (dyn_status_pre out name n Ha Est) as ([o ->] & [nm ->] & Hpre).
  pose proof (dyn_create_wp v d L objs o nm n S Hpre) as Hc. unfold dwp in Hc. rewrite E in Hc.
  destruct Hc as [[Hc _]|(p' & buf & Hc & Hap & _ & Haq & S1 & Hbuf & _ & _ & Hl)]; [done|]. injection Hc as <-.
  assert (L !! p = None) as HLp.
  { eapply apart_none; [|intros q k; apply (heap_has_pos v (heap d)); apply S|exact Hap]. by apply sizeof_obj_ok; destruct n. }
  assert (forall q k, buf = Some (q, k) -> q <> p /\ L !! q = None) as Hb.
  { intros q k ->. assert (<[p := sizeof_obj (dyn_new_type n)]> L !! q = None) as [Hq Hne]%lookup_insert_None; [|done].
    destruct (<[p := sizeof_obj (dyn_new_type n)]> L !! q) as [kq|] eqn:Eq; [exfalso|done].
    assert (0 < k /\ 0 < kq) as [? ?]. 2: { destruct (Haq q k eq_refl q kq Eq); lia. } 
    split; [eapply (heap_has_pos v _ _ q); [apply S1|apply lookup_insert_eq]|].
    apply lookup_insert_Some in Eq as [[_ <-]|[_ Eq]]; [by apply sizeof_obj_ok; destruct n|].
    eapply (heap_has_pos v _ _ q); [apply S|exact Eq]. }
  destruct (proj1 (dwp_iff _ _ _) (dyn_del_wp v d1 _ _ p (dyn_new_type n) S1 (lookup_insert_eq _ _ _))) as (r & d2 & E2 & Hd).
  unfold dyn_deleted in Hd. rewrite Hl, (proj2 (Z.ltb_ge _ _) Hn) in Hd. destruct Hd as (-> & S2 & _). exists d2. split; [done|].
  rewrite without_with in S2 by done. rewrite delete_insert_id in S2; [done|].
  destruct (objs !! p) as [ty|] eqn:Eo; [|done]. pose proof (da_size _ _ _ _ (so_objs _ _ _ _ S p ty Eo)). congruence.
Qed.

(** C21: one round of the task that frees deleted tasks ends, with [g_res_list] empty and the stack and the control
    block of each task that was on it returned to the heap, and nothing else. *)
Theorem dyn_mem_proc_frees d L :
  heap_has v (heap d) L -> (forall t, t ∈ g_res_list (kern d) -> is_Some (tasks (kern d) !! t)) ->
  NoDup (res_blocks (kern d) (g_res_list (kern d))) ->
  (forall p, p ∈ res_blocks (kern d) (g_res_list (kern d)) -> is_Some (L !! p)) ->
  exists d', dyn_mem_proc_task (S (length (g_res_list (kern d)))) RHINO_SUCCESS d = Some (tt, d') /\
    kern d' = set_g_res_list [] (kern d) /\ heap_has v (heap d') (freed (res_blocks (kern d) (g_res_list (kern d))) L).
Proof.
  intros Hh Ht Hnd Hin. pose proof (dyn_mem_proc_loop_wp (S (length (g_res_list (kern d)))) d L Hh ltac:(lia) Ht Hnd Hin) as Hw.
  apply dwp_iff in Hw as ([] & d' & E & Hd). exists d'. split; [exact E|done].
Qed.

End calls.

(** ** Examples *)

#[local] Instance demo_sizes : ObjSizes.
Proof. refine (Build_ObjSizes 32 32 32 32 32 32 4 _). repeat constructor; lia. Defined.

(** A heap with a full pool. *)
Lemma pool_heap : exists h w x y av, holds h w ∅ /\ hv_spans w = [(0x1068, 10296); (0x8000, 256)] /\ hv_pool w = x :: y :: av.
Proof.
  pose proof (k_mm_init_spec two_regions two_raw (fun _ h => exists w x y av, holds h w ∅ /\
    hv_spans w = [(0x1068, 10296); (0x8000, 256)] /\ hv_pool w = x :: y :: av) two_regions_ok) as Hi.
  destruct (proj1 (hwp_iff _ _ _) (Hi ltac:(intros s' v' R Hsp Hl _ Hp; exists v'; rewrite Hp; eexists _, _, _;
    split; [split; [done|by apply agree_empty]|]; split; [done|reflexivity]))) as (u & h & _ & w & Hw). by exists h, w.
Qed.

(** A request of 32 bytes takes the first block of the pool. *)
Lemma pool_take h w A x av :
  holds h w A -> hv_pool w = x :: av ->
  exists h' w' ws, krhino_mm_alloc 32 h = Some (x, h') /\ same_ground w w' /\ hv_pool w' = av /\
    holds h' w' (<[x := (32, ws)]> A) /\ A !! x = None.
Proof.
  intros [R HA] Hp. assert (hwp (krhino_mm_alloc 32) (fun r h' => r = x /\ exists w' ws, same_ground w w' /\ hv_pool w' = av /\
    holds h' w' (<[x := (32, ws)]> A) /\ A !! x = None) h) as Hw.
  { unfold krhino_mm_alloc. cbn [Z.eqb]. hstep. apply hwp_g_kmm_head. eapply alloc_pool; [exact R|lia|exact Hp|].
    intros h' R' _ Hn Hc. split; [done|]. eexists _, _. split; [|split; [|split; [split; [exact R'|]|]]]; [done|done| |by eapply agree_none].
    apply agree_insert; [by eapply agree_frame|lia]. }
  apply hwp_iff in Hw as (r & h' & E & -> & w' & ws & Hw). by exists h', w', ws.
Qed.

Lemma demo_boot_objs o b : blks demo_boot !! o = Some b -> o = 0%nat.
Proof.
  assert (map_Forall (fun (o : oid) _ => o = 0%nat) (blks demo_boot)) as H by (apply (bool_decide_unpack _); by vm_compute).
  intros Hb. exact (H o b Hb).
Qed.

(** The booted kernel and the heap. *)
Lemma demo_sys h w :
  holds h w ∅ -> hv_spans w = [(0x1068, 10296); (0x8000, 256)] -> sys_ok w (Mk_dstate demo_boot h) ∅ ∅.
Proof.
  intros Hh Hs. split; cbn [kern heap].
  - apply demo_boot_inv.
  - exists ∅. split; [by apply holds_on_refl|apply fmap_empty].
  - intros p ty Hp. by rewrite lookup_empty in Hp.
  - intros o b ->%demo_boot_objs _ (base & len & Hin & Hb). rewrite Hs in Hin. exfalso.
    apply elem_of_cons in Hin as [[= -> ->]|[= -> ->]%list_elem_of_singleton]; lia.
  - intros p p' ty ty' x Hp. by rewrite lookup_empty in Hp.
Qed.

(** The system in which one semaphore has been created. *)
Lemma demo_sem : exists h w p d1, sys_ok w (Mk_dstate demo_boot h) ∅ ∅ /\
  dyn_create (Some 1) (Some 1) (DynSem 3) (Mk_dstate demo_boot h) = Some ((RHINO_SUCCESS, Some p), d1).
Proof.
  destruct pool_heap as (h & w & x & y & av & Hh & Hs & Hp). pose proof (demo_sys h w Hh Hs) as S.
  destruct (pool_take h w ∅ x (y :: av) Hh Hp) as (h' & w' & ws & E & _ & _ & Hh' & _).
  assert (x <> 0) as Hx by (intros ->; pose proof (holds_null _ _ _ Hh') as Hn; by rewrite lookup_insert_eq in Hn).
  exists h, w, x. eexists. split; [exact S|]. cbn [dyn_create krhino_sem_dyn_create out_chk]. unfold krhino_sem_dyn_create, mbind, D_bind. cbn [out_chk].
  unfold inH at 1. cbn [heap]. change (krhino_mm_alloc sizeof_ksem_t h) with (krhino_mm_alloc 32 h). rewrite E. rewrite (proj2 (Z.eqb_neq x 0) Hx). reflexivity.
Qed.

Lemma dyn_create_owns_blocks_witness : exists h w, sys_ok w (Mk_dstate demo_boot h) ∅ ∅ /\
  exists res d', dyn_create (Some 1) (Some 1) (DynQueue 4) (Mk_dstate demo_boot h) = Some (res, d') /\
    dyn_created w (Mk_dstate demo_boot h) ∅ ∅ RHINO_QUEUE_OBJ_TYPE (Some 16) res d'.
Proof.
  destruct demo_sem as (h & w & p & d1 & S & _). exists h, w. split; [exact S|].
  apply (dyn_create_owns_blocks w (Mk_dstate demo_boot h) ∅ ∅ (Some 1) (Some 1) (DynQueue 4) S). cbn. unfold PTR_SIZE. lia.
Defined.

Lemma dyn_create_del_roundtrip_witness : exists h w p d1 d2, sys_ok w (Mk_dstate demo_boot h) ∅ ∅ /\
  dyn_create (Some 1) (Some 1) (DynSem 3) (Mk_dstate demo_boot h) = Some ((RHINO_SUCCESS, Some p), d1) /\
  dyn_del RHINO_SEM_OBJ_TYPE (Some p) d1 = Some (RHINO_SUCCESS, d2) /\ sys_ok w d2 ∅ ∅.
Proof.
  destruct demo_sem as (h & w & p & d1 & S & E). exists h, w, p, d1.
  destruct (dyn_create_del_roundtrip w (Mk_dstate demo_boot h) ∅ ∅ (Some 1) (Some 1) (DynSem 3) p d1 S) as (d2 & E2 & S2);
    [split; [lia|done]|by vm_compute|exact E|]. exists d2. split; [exact S|]. split; [exact E|]. split; [exact E2|exact S2].
Defined.

Lemma dyn_del_returns_blocks_witness : exists w d L p r d', sys_ok w d L {[p := RHINO_SEM_OBJ_TYPE]} /\
  dyn_del RHINO_SEM_OBJ_TYPE (Some p) d = Some (r, d') /\ dyn_deleted w d L {[p := RHINO_SEM_OBJ_TYPE]} p RHINO_SEM_OBJ_TYPE r d'.
Proof.
  destruct demo_sem as (h & w & p & d1 & S & E).
  pose proof (dyn_create_wp w (Mk_dstate demo_boot h) ∅ ∅ 1 1 (DynSem 3) S ltac:(split; [lia|done])) as Hc. unfold dwp in Hc.
  rewrite E in Hc. destruct Hc as [[Hc _]|(p' & buf & Hc & _ & _ & _ & S1 & _)]; [done|]. injection Hc as <-. rewrite insert_empty in S1.
  eexists w, d1, _, p.
  destruct (dyn_del_returns_blocks w d1 _ {[p := RHINO_SEM_OBJ_TYPE]} p RHINO_SEM_OBJ_TYPE S1 (lookup_singleton_eq _ _)) as (r & d' & E2 & H2).
  exists r, d'. exact (conj S1 (conj E2 H2)).
Defined.

(** A deleted task [t] whose stack is at [st]. *)
Definition demo_dead (t : tid) (st : Z) : kstate :=
  set_g_res_list [t] (set_tasks (<[t := set_task_stack_base st zero_task]> (tasks demo_boot)) demo_boot).

Lemma demo_dead_blocks t st : res_blocks (demo_dead t st) (g_res_list (demo_dead t st)) = [st; Z.of_nat t].
Proof. unfold res_blocks, demo_dead. cbn. by rewrite lookup_insert_eq. Qed.

Lemma dyn_mem_proc_frees_witness : exists w h x y d', heap_has w h (<[y := 32]> {[x := 32]}) /\
  dyn_mem_proc_task 2 RHINO_SUCCESS (Mk_dstate (demo_dead (at_addr y) x) h) = Some (tt, d') /\
  g_res_list (kern d') = [] /\ heap_has w (heap d') (freed [x; y] (<[y := 32]> {[x := 32]})).
Proof.
  destruct pool_heap as (h & w & x & y & av & Hh & Hs & Hp).
  destruct (pool_take h w ∅ x (y :: av) Hh Hp) as (h1 & w1 & ws1 & _ & G1 & Hp1 & Hh1 & _).
  destruct (pool_take h1 w1 _ y av Hh1 Hp1) as (h2 & w2 & ws2 & _ & G2 & _ & Hh2 & Hn).
  assert (x <> y) as Hxy by (intros ->; by rewrite lookup_insert_eq in Hn).
  destruct (holds_block w2 h2 _ y 32 ws2 (holds_on_refl _ _ _ Hh2) (lookup_insert_eq _ _ _)) as (_ & Hy & _).
  assert (heap_has w2 h2 (<[y := 32]> {[x := 32]})) as HL.
  { eexists. split; [exact (holds_on_refl _ _ _ Hh2)|]. by rewrite !fmap_insert, fmap_empty, insert_empty. }
  assert (res_blocks (demo_dead (at_addr y) x) [at_addr y] = [x; y]) as Eb
    by (pose proof (demo_dead_blocks (at_addr y) x) as E; rewrite at_addr_of in E by lia; exact E).
  destruct (dyn_mem_proc_frees w2 (Mk_dstate (demo_dead (at_addr y) x) h2) _ HL) as (d' & E & Ek & Hd).
  - intros t ->%list_elem_of_singleton. cbn. rewrite lookup_insert_eq. by eexists.
  - change (NoDup (res_blocks (demo_dead (at_addr y) x) [at_addr y])). rewrite Eb. repeat constructor; [by intros ?%list_elem_of_singleton|by intros ?%elem_of_nil].
  - intros p. change (p ∈ res_blocks (demo_dead (at_addr y) x) [at_addr y] -> is_Some ((<[y := 32]> {[x := 32]} : gmap Z Z) !! p)). rewrite Eb. intros [->| ->%list_elem_of_singleton]%elem_of_cons; [rewrite lookup_insert_ne, lookup_singleton_eq by done|rewrite lookup_insert_eq]; by eexists.
  - exists w2, h2, x, y, d'. split; [exact HL|]. split; [exact E|]. split; [by rewrite Ek|]. rewrite <- Eb. exact Hd.
Defined.
