(* ===== verification/Timer.v ===== *)
(** * Software timers ([rhino/core/k_timer.c])

    Users talk to the timer task by messages on a buffer queue; only that task
    touches [g_timer_head], the list of active timers.  The task is a machine that
    stops where it waits for a message; what it reads, messages and ticks, are its
    inputs.  The callbacks it runs and the memory it frees are recorded in order. *)

From S2P Require Import Prelude KErr KState KMonad Sched Pend Task BufQueue KSys Mem Mm Dyn.
Local Open Scope Z_scope.

Inductive k_timer_state_t :=
  | TIMER_DEACTIVE
  | TIMER_ACTIVE.

#[global] Instance timer_state_eq_dec : EqDecision k_timer_state_t.
Proof. solve_decision. Defined.

Definition MAX_TIMER_TICKS : Z := Z.shiftr (u64 (-1)) 1.

Definition TIMER_CMD_CB : Z := 0.

Definition TIMER_CMD_START : Z := 1.

Definition TIMER_CMD_STOP : Z := 2.

Definition TIMER_CMD_CHG : Z := 3.

Definition TIMER_ARG_CHG : Z := 4.

Definition TIMER_ARG_CHG_AUTO : Z := 5.

Definition TIMER_CMD_DEL : Z := 6.

Definition TIMER_CMD_DYN_DEL : Z := 7.

(** [to_head] is set while the timer is on [g_timer_head]; [timer_cb] is the address of the callback. *)
Record ktimer_t := mk_timer {
  to_head : bool;
  timer_name : Z;
  timer_cb : Z;
  timer_cb_arg : Z;
  match_at : Z;
  remain : Z;
  init_count : Z;
  round_ticks : Z;
  priv : option Z;
  timer_type : kobj_type_t;
  timer_state : k_timer_state_t;
  timer_mm_flag : Z
}.

Definition set_to_head (v : bool) (k : ktimer_t) : ktimer_t :=
  mk_timer v (timer_name k) (timer_cb k) (timer_cb_arg k) (match_at k) (remain k) (init_count k) (round_ticks k) (priv k) (timer_type k) (timer_state k) (timer_mm_flag k).

Definition set_timer_cb_arg (v : Z) (k : ktimer_t) : ktimer_t :=
  mk_timer (to_head k) (timer_name k) (timer_cb k) v (match_at k) (remain k) (init_count k) (round_ticks k) (priv k) (timer_type k) (timer_state k) (timer_mm_flag k).

Definition set_match_at (v : Z) (k : ktimer_t) : ktimer_t :=
  mk_timer (to_head k) (timer_name k) (timer_cb k) (timer_cb_arg k) v (remain k) (init_count k) (round_ticks k) (priv k) (timer_type k) (timer_state k) (timer_mm_flag k).

Definition set_remain (v : Z) (k : ktimer_t) : ktimer_t :=
  mk_timer (to_head k) (timer_name k) (timer_cb k) (timer_cb_arg k) (match_at k) v (init_count k) (round_ticks k) (priv k) (timer_type k) (timer_state k) (timer_mm_flag k).

Definition set_init_count (v : Z) (k : ktimer_t) : ktimer_t :=
  mk_timer (to_head k) (timer_name k) (timer_cb k) (timer_cb_arg k) (match_at k) (remain k) v (round_ticks k) (priv k) (timer_type k) (timer_state k) (timer_mm_flag k).

Definition set_round_ticks (v : Z) (k : ktimer_t) : ktimer_t :=
  mk_timer (to_head k) (timer_name k) (timer_cb k) (timer_cb_arg k) (match_at k) (remain k) (init_count k) v (priv k) (timer_type k) (timer_state k) (timer_mm_flag k).

Definition set_priv (v : option Z) (k : ktimer_t) : ktimer_t :=
  mk_timer (to_head k) (timer_name k) (timer_cb k) (timer_cb_arg k) (match_at k) (remain k) (init_count k) (round_ticks k) v (timer_type k) (timer_state k) (timer_mm_flag k).

Definition set_timer_type (v : kobj_type_t) (k : ktimer_t) : ktimer_t :=
  mk_timer (to_head k) (timer_name k) (timer_cb k) (timer_cb_arg k) (match_at k) (remain k) (init_count k) (round_ticks k) (priv k) v (timer_state k) (timer_mm_flag k).

Definition set_timer_state (v : k_timer_state_t) (k : ktimer_t) : ktimer_t :=
  mk_timer (to_head k) (timer_name k) (timer_cb k) (timer_cb_arg k) (match_at k) (remain k) (init_count k) (round_ticks k) (priv k) (timer_type k) v (timer_mm_flag k).

(** [k_timer_queue_cb]; the union holds one of its members. *)
Inductive cb_union :=
  | u_none
  | u_round (round : Z)
  | u_arg (arg : Z).

Record k_timer_queue_cb := mk_timer_cb {
  cb_timer : nat;
  cb_num : Z;
  cb_first : Z;
  cb_u : cb_union
}.

(** A callback that was run: the timer, the argument and [g_timer_count]. *)
Definition tcall : Type := nat * Z * Z.

Record tmstate := mk_tm {
  timers : gmap nat ktimer_t;
  g_timer_head : list nat;
  g_timer_count : Z;
  calls : list tcall;
  frees : list nat;
  timer_errs : list kstat_t
}.

Definition set_timers (v : gmap nat ktimer_t) (s : tmstate) : tmstate :=
  mk_tm v (g_timer_head s) (g_timer_count s) (calls s) (frees s) (timer_errs s).

Definition set_g_timer_head (v : list nat) (s : tmstate) : tmstate :=
  mk_tm (timers s) v (g_timer_count s) (calls s) (frees s) (timer_errs s).

Definition set_g_timer_count (v : Z) (s : tmstate) : tmstate :=
  mk_tm (timers s) (g_timer_head s) v (calls s) (frees s) (timer_errs s).

Definition run_cb (c : tcall) (s : tmstate) : tmstate :=
  mk_tm (timers s) (g_timer_head s) (g_timer_count s) (calls s ++ [c]) (frees s) (timer_errs s).

Definition free_timer (t : nat) (s : tmstate) : tmstate :=
  mk_tm (delete t (timers s)) (g_timer_head s) (g_timer_count s) (calls s) (frees s ++ [t]) (timer_errs s).

Definition timer_fatal (s : tmstate) : tmstate :=
  mk_tm (timers s) (g_timer_head s) (g_timer_count s) (calls s) (frees s) (RHINO_SYS_FATAL_ERR :: timer_errs s).

Definition upd_timer (t : nat) (f : ktimer_t -> ktimer_t) (s : tmstate) : option tmstate :=
  k ← timers s !! t; Some (set_timers (<[t := f k]> (timers s)) s).

(** ** The list of active timers *)

Definition timer_list_pri_insert (t : nat) (s : tmstate) : option tmstate :=
  k ← timers s !! t;
  let val := remain k in
  l ← scan_insert (fun x : nat => kx ← timers s !! x; Some (val <? u64 (match_at kx - g_timer_count s))) t (g_timer_head s);
  Some (set_g_timer_head l s).

Definition timer_list_rm (t : nat) (s : tmstate) : option tmstate :=
  k ← timers s !! t;
  if to_head k then
    if decide (t ∈ g_timer_head s) then upd_timer t (set_to_head false) (set_g_timer_head (list_rm t (g_timer_head s)) s) else None
  else Some s.

(** The member behind [t]; [None] is the head of the ring. *)
Fixpoint list_next (t : nat) (l : list nat) : option nat :=
  match l with
  | [] => None
  | x :: l => if decide (x = t) then head l else list_next t l
  end.

(** [(sys_time_i_t)a - (sys_time_i_t)b]; an overflow is undefined. *)
Definition time_diff (a b : Z) : option Z :=
  let d := i64 a - i64 b in if decide (- 2 ^ 63 <= d < 2 ^ 63) then Some d else None.

(** The loop of [timer_cb_proc] from the node [q] on.  [klist_rm] leaves the links of the node it removes, so
    the loop goes on behind the old place of a timer that is not put back, and behind the new one of a timer that is. *)
Fixpoint timer_cb_loop (fuel : nat) (q : option nat) (s : tmstate) : option tmstate :=
  match q, fuel with
  | None, _ => Some s
  | Some _, O => None
  | Some t, S fuel =>
      k ← timers s !! t;
      delta ← time_diff (match_at k) (g_timer_count s);
      if delta <=? 0 then
        let s := run_cb (t, timer_cb_arg k, g_timer_count s) s in
        let next := list_next t (g_timer_head s) in
        s ← timer_list_rm t s;
        if 0 <? round_ticks k then
          s ← upd_timer t (fun k => set_to_head true (set_match_at (u64 (g_timer_count s + round_ticks k)) (set_remain (round_ticks k) k))) s;
          s ← timer_list_pri_insert t s;
          timer_cb_loop fuel (list_next t (g_timer_head s)) s
        else
          s ← upd_timer t (set_timer_state TIMER_DEACTIVE) s;
          timer_cb_loop fuel next s
      else Some s
  end.

Definition timer_cb_proc (s : tmstate) : option tmstate :=
  timer_cb_loop (S (length (g_timer_head s))) (head (g_timer_head s)) s.

(** ** Commands *)

Definition cmd_proc (cb : k_timer_queue_cb) (cmd : Z) (s : tmstate) : option tmstate :=
  let t := cb_timer cb in
  if cmd =? TIMER_CMD_START then
    k ← timers s !! t;
    if negb (bool_decide (timer_type k = RHINO_TIMER_OBJ_TYPE)) then Some s
    else if bool_decide (timer_state k = TIMER_ACTIVE) then Some s
    else
      s ← upd_timer t (fun k => set_to_head true (set_remain (init_count k) (set_match_at (u64 (g_timer_count s + init_count k)) k))) s;
      s ← timer_list_pri_insert t s;
      upd_timer t (set_timer_state TIMER_ACTIVE) s
  else if cmd =? TIMER_CMD_STOP then
    k ← timers s !! t;
    if negb (bool_decide (timer_type k = RHINO_TIMER_OBJ_TYPE)) then Some s
    else if bool_decide (timer_state k = TIMER_DEACTIVE) then Some s
    else
      s ← timer_list_rm t s;
      upd_timer t (set_timer_state TIMER_DEACTIVE) s
  else if cmd =? TIMER_CMD_CHG then
    if cb_first cb =? 0 then Some s
    else
    k ← timers s !! t;
    if negb (bool_decide (timer_type k = RHINO_TIMER_OBJ_TYPE)) then Some s
    else if negb (bool_decide (timer_state k = TIMER_DEACTIVE)) then Some s
    else
      match cb_u cb with
      | u_round round => upd_timer t (fun k => set_round_ticks round (set_init_count (cb_first cb) k)) s
      | _ => None
      end
  else if cmd =? TIMER_ARG_CHG then
    k ← timers s !! t;
    if negb (bool_decide (timer_type k = RHINO_TIMER_OBJ_TYPE)) then Some s
    else if negb (bool_decide (timer_state k = TIMER_DEACTIVE)) then Some s
    else
      match cb_u cb with
      | u_arg arg => upd_timer t (set_timer_cb_arg arg) s
      | _ => None
      end
  else if cmd =? TIMER_CMD_DEL then
    k ← timers s !! t;
    if negb (bool_decide (timer_type k = RHINO_TIMER_OBJ_TYPE)) then Some s
    else if negb (bool_decide (timer_state k = TIMER_DEACTIVE)) then Some s
    else if negb (timer_mm_flag k =? K_OBJ_STATIC_ALLOC) then Some s
    else upd_timer t (set_timer_type RHINO_OBJ_TYPE_NONE) s
  else if cmd =? TIMER_CMD_DYN_DEL then
    k ← timers s !! t;
    if negb (bool_decide (timer_type k = RHINO_TIMER_OBJ_TYPE)) then Some s
    else if negb (bool_decide (timer_state k = TIMER_DEACTIVE)) then Some s
    else if negb (timer_mm_flag k =? K_OBJ_DYN_ALLOC) then Some s
    else
      s ← upd_timer t (set_timer_type RHINO_OBJ_TYPE_NONE) s;
      Some (free_timer t s)
  else Some (timer_fatal s).

Definition timer_cmd_proc (cb : k_timer_queue_cb) (s : tmstate) : option tmstate :=
  if cb_num cb =? TIMER_ARG_CHG_AUTO then
    s ← cmd_proc cb TIMER_CMD_STOP s;
    s ← cmd_proc cb TIMER_ARG_CHG s;
    cmd_proc cb TIMER_CMD_START s
  else cmd_proc cb (cb_num cb) s.

(** ** The timer task *)

(** Where the task is: in the [krhino_buf_queue_recv] that waits for ever, at the head of the inner loop, in
    the [krhino_buf_queue_recv] that waits for [delta] ticks. *)
Inductive timer_pc :=
  | PC_WAIT
  | PC_LOOP
  | PC_TIMED (delta : Z).

(** What it reads: the result of a receive, what [cb_msg] then holds and the tick count after it; or the
    tick count at the head of the inner loop. *)
Inductive timer_in :=
  | In_recv (err : kstat_t) (cb_msg : k_timer_queue_cb) (tick_end : Z)
  | In_tick (tick_start : Z).

Definition timer_task_step (pc : timer_pc) (i : timer_in) (s : tmstate) : option (timer_pc * tmstate) :=
  match pc, i with
  | PC_WAIT, In_recv err cb_msg tick_end =>
      let s := if bool_decide (err = RHINO_SUCCESS) then set_g_timer_count tick_end s else timer_fatal s in
      s ← timer_cmd_proc cb_msg s;
      Some (PC_LOOP, s)
  | PC_LOOP, In_tick tick_start =>
      match g_timer_head s with
      | [] => Some (PC_WAIT, s)
      | t :: _ =>
          k ← timers s !! t;
          delta ← time_diff (match_at k) tick_start;
          if 0 <? delta then Some (PC_TIMED (u64 delta), s)
          else
            s ← timer_cb_proc (set_g_timer_count tick_start s);
            Some (PC_LOOP, s)
      end
  | PC_TIMED _, In_recv err cb_msg tick_end =>
      s ← (if bool_decide (err = RHINO_BLK_TIMEOUT) then Some (set_g_timer_count tick_end s)
           else if bool_decide (err = RHINO_SUCCESS) then timer_cmd_proc cb_msg (set_g_timer_count tick_end s)
           else Some (timer_fatal s));
      s ← timer_cb_proc s;
      Some (PC_LOOP, s)
  | _, _ => None
  end.

(** ** The calls *)

(** The queue, and how the compiler lays out a message: copying the bytes copies the message. *)
Class TimerPort := {
  g_timer_queue : oid;
  g_timer_task : tid;
  (** the array [timer_queue_cb], its address and its bytes *)
  timer_queue_cb : Z * list Z;
  sizeof_k_timer_queue_cb : Z;
  sizeof_ktimer_t : Z;
  cb_bytes : k_timer_queue_cb -> list Z;
  cb_of : list Z -> k_timer_queue_cb;
  sizeof_ktimer_t_ok : 0 < sizeof_ktimer_t <= 4096;
  cb_bytes_length cb : Z.of_nat (length (cb_bytes cb)) = sizeof_k_timer_queue_cb;
  cb_of_bytes cb : cb_of (cb_bytes cb) = cb
}.

Section calls.
Context `{CpuPort} `{TimerPort}.

Definition timer_send (cb : k_timer_queue_cb) : K kstat_t :=
  krhino_buf_queue_send (Some g_timer_queue) (Some (cb_bytes cb)) sizeof_k_timer_queue_cb.

Definition krhino_timer_del (timer : option nat) : K kstat_t :=
  NULL_PARA_CHK id timer (fun t => timer_send (mk_timer_cb t TIMER_CMD_DEL 0 u_none)).

Definition krhino_timer_dyn_del (timer : option nat) : K kstat_t :=
  NULL_PARA_CHK id timer (fun t => timer_send (mk_timer_cb t TIMER_CMD_DYN_DEL 0 u_none)).

Definition krhino_timer_start (timer : option nat) : K kstat_t :=
  NULL_PARA_CHK id timer (fun t => timer_send (mk_timer_cb t TIMER_CMD_START 0 u_none)).

Definition krhino_timer_stop (timer : option nat) : K kstat_t :=
  NULL_PARA_CHK id timer (fun t => timer_send (mk_timer_cb t TIMER_CMD_STOP 0 u_none)).

Definition krhino_timer_change (timer : option nat) (first round : Z) : K kstat_t :=
  NULL_PARA_CHK id timer (fun t =>
  if first =? 0 then mret RHINO_INV_PARAM
  else if MAX_TIMER_TICKS <=? first then mret RHINO_INV_PARAM
  else if MAX_TIMER_TICKS <=? round then mret RHINO_INV_PARAM
  else timer_send (mk_timer_cb t TIMER_CMD_CHG first (u_round round))).

Definition krhino_timer_arg_change (timer : option nat) (arg : Z) : K kstat_t :=
  NULL_PARA_CHK id timer (fun t => timer_send (mk_timer_cb t TIMER_ARG_CHG 0 (u_arg arg))).

Definition krhino_timer_arg_change_auto (timer : option nat) (arg : Z) : K kstat_t :=
  NULL_PARA_CHK id timer (fun t => timer_send (mk_timer_cb t TIMER_ARG_CHG_AUTO 0 (u_arg arg))).

End calls.

(** ** Creation *)

(** The timers beside the kernel and the heap. *)
Record tdstate := mk_td {
  td_sys : dstate;
  td_tm : tmstate
}.

Definition TD (A : Type) : Type := tdstate -> option (A * tdstate).

#[global] Instance TD_ret : MRet TD := fun A a d => Some (a, d).
#[global] Instance TD_bind : MBind TD := fun A B f m d =>
  match m d with Some (a, d') => f a d' | None => None end.
#[global] Typeclasses Opaque TD.

Definition inD {A} (m : D A) : TD A := fun d =>
  match m (td_sys d) with Some (a, d') => Some (a, mk_td d' (td_tm d)) | None => None end.

Definition inT (f : tmstate -> option tmstate) : TD unit := fun d =>
  match f (td_tm d) with Some s => Some (tt, mk_td (td_sys d) s) | None => None end.

Section create.
Context `{CpuPort} `{TimerPort}.

(** [klist_init] on a node that is on a ring breaks the ring. *)
Definition timer_init (t : nat) (k : ktimer_t) (s : tmstate) : option tmstate :=
  if decide (t ∈ g_timer_head s) then None else Some (set_timers (<[t := k]> (timers s)) s).

Definition timer_create (timer : option nat) (name cb : option Z) (first round arg auto_run mm_alloc_flag : Z) : TD kstat_t :=
  match timer, name, cb with
  | Some t, Some name, Some cb =>
      if first =? 0 then mret RHINO_INV_PARAM
      else if MAX_TIMER_TICKS <=? first then mret RHINO_INV_PARAM
      else if MAX_TIMER_TICKS <=? round then mret RHINO_INV_PARAM
      else
        inT (timer_init t (mk_timer false name cb arg 0 0 first round None RHINO_TIMER_OBJ_TYPE TIMER_DEACTIVE mm_alloc_flag));;
        if 0 <? auto_run then inD (inK (krhino_timer_start (Some t))) else mret RHINO_SUCCESS
  | _, _, _ => mret RHINO_NULL_PTR
  end.

Definition krhino_timer_create (timer : option nat) (name cb : option Z) (first round arg auto_run : Z) : TD kstat_t :=
  timer_create timer name cb first round arg auto_run K_OBJ_STATIC_ALLOC.

Definition krhino_timer_dyn_create (timer : option Z) (name cb : option Z) (first round arg auto_run : Z) : TD dyn_res :=
  match timer with
  | None => mret (RHINO_NULL_PTR, None)
  | Some _ =>
      timer_obj ← inD (inH (krhino_mm_alloc sizeof_ktimer_t));
      if timer_obj =? 0 then mret (RHINO_NO_MEM, None)
      else
        ret ← timer_create (Some (at_addr timer_obj)) name cb first round arg auto_run K_OBJ_DYN_ALLOC;
        if negb (bool_decide (ret = RHINO_SUCCESS)) then
          inD (inH (krhino_mm_free timer_obj));;
          mret (ret, None)
        else mret (ret, Some timer_obj)
  end.

(** ** Start-up *)

Definition RHINO_CONFIG_TIMER_MSG_NUM : Z := 20.

Definition RHINO_CONFIG_TIMER_TASK_PRI : Z := 5.

Definition RHINO_CONFIG_TIMER_TASK_STACK_SIZE : Z := 200.

Definition ktimer_init : TD unit :=
  inT (fun s => Some (set_g_timer_head [] s));;
  inD (inK (krhino_fix_buf_queue_create (Some g_timer_queue) static_addr (Some timer_queue_cb) sizeof_k_timer_queue_cb
              RHINO_CONFIG_TIMER_MSG_NUM));;
  inD (inK (krhino_task_create (Some g_timer_task) static_addr 0 RHINO_CONFIG_TIMER_TASK_PRI 0 static_addr
              RHINO_CONFIG_TIMER_TASK_STACK_SIZE static_addr 1));;
  mret tt.

End create.
