(* ===== verification/TimerSpec.v ===== *)
(** * Software timers: the properties

    The timer task implements a map from timers to deadlines: commands change it as
    they should, a callback never runs before its deadline, and as long as the task
    is never late every callback runs at its deadline, once. *)

From S2P Require Import Prelude KErr KState KMonad Sched Pend KInv PriInv Dyn Timer.
Local Open Scope Z_scope.

(** ** Invariant of the timer task *)

(** Time and periods so small that no sum of them overflows. *)
Definition horizon : Z := 2 ^ 62.

Record timer_ok (k : ktimer_t) : Prop := {
  tr_first : 0 < init_count k < horizon;
  tr_round : 0 <= round_ticks k < horizon;
  tr_head : to_head k = bool_decide (timer_state k = TIMER_ACTIVE);
  tr_active : timer_state k = TIMER_ACTIVE -> timer_type k = RHINO_TIMER_OBJ_TYPE /\ 0 <= match_at k < 2 * horizon
}.

Definition active (s : tmstate) (t : nat) : Prop := exists k, timers s !! t = Some k /\ timer_state k = TIMER_ACTIVE.

Record tm_ok (s : tmstate) : Prop := {
  tk_nodup : NoDup (g_timer_head s);
  tk_list t : t ∈ g_timer_head s <-> active s t;
  tk_ok t k : timers s !! t = Some k -> timer_ok k;
  tk_now : 0 <= g_timer_count s < horizon
}.

(** One timer replaced, and the list with it. *)
Definition put (t : nat) (k : ktimer_t) (l : list nat) (s : tmstate) : tmstate :=
  set_g_timer_head l (set_timers (<[t := k]> (timers s)) s).

Lemma tm_ok_put t k l s :
  tm_ok s -> timer_ok k -> NoDup l ->
  (forall x, x ∈ l <-> (x <> t /\ x ∈ g_timer_head s) \/ (x = t /\ timer_state k = TIMER_ACTIVE)) -> tm_ok (put t k l s).
Proof.
  intros [Hnd Hl Hk Hn] Hok Hnd' Hl'. split; cbn; [done| | |done].
  - intros x. rewrite Hl', Hl. unfold active. cbn. destruct (decide (x = t)) as [->|Hne].
    + setoid_rewrite lookup_insert_eq. naive_solver.
    + rewrite lookup_insert_ne by done. naive_solver.
  - intros x kx. rewrite lookup_insert_Some. intros [[<- <-]|[_ Hx]]; [done|by apply (Hk x)].
Qed.

Lemma put_put t k k' l l' s : put t k' l' (put t k l s) = put t k' l' s.
Proof. unfold put, set_g_timer_head, set_timers. cbn. by rewrite insert_insert_eq. Qed.

Lemma put_same t k s : timers s !! t = Some k -> put t k (g_timer_head s) s = s.
Proof. intros Hk. unfold put, set_g_timer_head, set_timers. cbn. rewrite insert_id by done. by destruct s. Qed.

Lemma upd_timer_put t k f l s : upd_timer t f (put t k l s) = Some (put t (f k) l s).
Proof. unfold upd_timer. cbn. rewrite lookup_insert_eq. cbn. unfold put, set_g_timer_head, set_timers. cbn. by rewrite insert_insert_eq. Qed.

Lemma upd_timer_eq t k f s : timers s !! t = Some k -> upd_timer t f s = Some (put t (f k) (g_timer_head s) s).
Proof. intros Hk. unfold upd_timer. by rewrite Hk. Qed.

(** When the timer [t] matches. *)
Definition m_of (s : tmstate) (t : nat) : Z := default 0 (match_at <$> timers s !! t).

Lemma m_of_eq s t k : timers s !! t = Some k -> m_of s t = match_at k.
Proof. unfold m_of. by intros ->. Qed.

Lemma m_of_put_ne s t k l x : x <> t -> m_of (put t k l s) x = m_of s x.
Proof. intros Hne. unfold m_of. cbn. by rewrite lookup_insert_ne. Qed.

(** ** The list operations *)

Lemma pri_insert_put t k s :
  tm_ok s -> t ∉ g_timer_head s ->
  exists l, timer_list_pri_insert t (put t k (g_timer_head s) s) = Some (put t k l s) /\ l ≡ₚ t :: g_timer_head s.
Proof.
  intros Hok Ht. unfold timer_list_pri_insert. cbn. rewrite lookup_insert_eq. cbn.
  destruct (scan_insert_perm (fun x : nat => kx ← <[t := k]> (timers s) !! x; Some (remain k <? u64 (match_at kx - g_timer_count s))) t (g_timer_head s))
    as (l & -> & Hp).
  { intros x Hx. destruct (proj1 (tk_list s Hok x) Hx) as (kx & Hkx & _). rewrite lookup_insert_ne by (intros ->; done). rewrite Hkx. by eexists. }
  exists l. split; [done|exact Hp].
Qed.

Lemma list_rm_put t k s :
  tm_ok s -> timers s !! t = Some k -> timer_state k = TIMER_ACTIVE ->
  timer_list_rm t s = Some (put t (set_to_head false k) (list_rm t (g_timer_head s)) s).
Proof.
  intros Hok Hk Ha. unfold timer_list_rm. rewrite Hk. cbn. rewrite (tr_head k (tk_ok s Hok t k Hk)), bool_decide_true by done.
  rewrite decide_True by (apply (tk_list s Hok); by exists k). rewrite (upd_timer_eq t k) by done. done.
Qed.

(** ** Never late *)

(** The list is sorted and nobody on it is overdue. *)
Definition on_time (s : tmstate) : Prop :=
  StronglySorted (fun x y => m_of s x <= m_of s y) (g_timer_head s) /\
  forall t, t ∈ g_timer_head s -> g_timer_count s <= m_of s t.

(** A timer leaves the list. *)
Lemma on_time_rm t k s : on_time s -> on_time (put t k (list_rm t (g_timer_head s)) s).
Proof.
  intros [Hs Hd]. split; cbn.
  - eapply (sorted_ext_in (m_of s)); [|by apply sorted_filter]. intros x [_ Hne]%list_rm_spec. by apply m_of_put_ne.
  - intros x [Hx Hne]%list_rm_spec. rewrite m_of_put_ne by done. by apply Hd.
Qed.

(** A timer that is not on the list changes. *)
Lemma on_time_off t k s : t ∉ g_timer_head s -> on_time s -> on_time (put t k (g_timer_head s) s).
Proof. intros Ht Ho. rewrite <- (list_rm_notin t (g_timer_head s) Ht). by apply on_time_rm. Qed.

(** A timer joins the list. *)
Lemma on_time_insert t k s s' :
  tm_ok s -> on_time s -> t ∉ g_timer_head s -> match_at k = g_timer_count s + remain k -> 0 <= remain k < 2 * horizon ->
  timer_list_pri_insert t (put t k (g_timer_head s) s) = Some s' -> on_time s'.
Proof.
  intros Hok [Hs Hd] Ht Hm Hr. unfold timer_list_pri_insert. cbn. rewrite lookup_insert_eq. cbn.
  destruct (scan_insert _ t (g_timer_head s)) as [l|] eqn:E; [|done]. intros [= <-]. unfold on_time. cbn.
  set (s1 := put t k (g_timer_head s) s). change (m_of (set_g_timer_head l s1)) with (m_of s1).
  assert (forall x : nat, x ∈ g_timer_head s -> m_of s1 x = m_of s x) as Hm1 by (intros x Hx; apply m_of_put_ne; by intros ->).
  assert (m_of s1 t = match_at k) as Hmt by (apply m_of_eq; apply lookup_insert_eq).
  assert (forall x : nat, x ∈ g_timer_head s -> (kx ← <[t := k]> (timers s) !! x; Some (remain k <? u64 (match_at kx - g_timer_count s)))
    = Some (m_of s1 t <? m_of s1 x)) as Hstop.
  { intros x Hx. destruct (proj1 (tk_list s Hok x) Hx) as (kx & Hkx & Ha). rewrite lookup_insert_ne by (by intros ->). rewrite Hkx. cbn. f_equal.
    rewrite Hmt, (Hm1 x Hx), (m_of_eq s x kx Hkx). specialize (Hd x Hx). rewrite (m_of_eq s x kx Hkx) in Hd.
    destruct (tr_active kx (tk_ok s Hok x kx Hkx) Ha) as [_ Hb]. pose proof (tk_now s Hok). unfold u64, horizon in *. rewrite wrap_small by lia.
    destruct (Z.ltb_spec (remain k) (match_at kx - g_timer_count s)), (Z.ltb_spec (match_at k) (match_at kx)); lia. }
  assert (l ≡ₚ t :: g_timer_head s) as Hp.
  { match type of E with scan_insert ?f _ _ = _ => destruct (scan_insert_perm f t (g_timer_head s)) as (l' & E' & Hp') end.
    - intros x Hx. eexists. by apply Hstop.
    - pose proof (eq_trans (eq_sym E) E') as [= ->]. exact Hp'. }
  split.
  - eapply (scan_insert_sorted (m_of s1)); [exact Hstop|exact E|]. by apply (sorted_ext_in (m_of s)).
  - intros x. rewrite Hp. intros [->|Hx]%elem_of_cons; [rewrite Hmt; lia|]. rewrite Hm1 by done. by apply Hd.
Qed.

(** ** The abstract timers *)

Record atimer := mk_atimer {
  a_first : Z;
  a_round : Z;
  a_arg : Z;
  a_due : option Z;
  a_flag : Z
}.

Definition due_at (d : option Z) (a : atimer) : atimer := mk_atimer (a_first a) (a_round a) (a_arg a) d (a_flag a).

Definition abs_timer (k : ktimer_t) : option atimer :=
  if decide (timer_type k = RHINO_TIMER_OBJ_TYPE) then
    Some (mk_atimer (init_count k) (round_ticks k) (timer_cb_arg k)
            (if decide (timer_state k = TIMER_ACTIVE) then Some (match_at k) else None) (timer_mm_flag k))
  else None.

(** The timers that exist, by address. *)
Definition tabs (s : tmstate) : gmap nat atimer := omap abs_timer (timers s).

(** What one command does at the time [now]. *)
Definition acmd (now : Z) (cb : k_timer_queue_cb) (cmd : Z) (A : gmap nat atimer) : gmap nat atimer :=
  let t := cb_timer cb in
  match A !! t with
  | None => A
  | Some a =>
      match a_due a with
      | Some _ => if cmd =? TIMER_CMD_STOP then <[t := due_at None a]> A else A
      | None =>
          if cmd =? TIMER_CMD_START then <[t := due_at (Some (now + a_first a)) a]> A
          else if cmd =? TIMER_CMD_CHG then
            match cb_u cb with
            | u_round r => if cb_first cb =? 0 then A else <[t := mk_atimer (cb_first cb) r (a_arg a) None (a_flag a)]> A
            | _ => A
            end
          else if cmd =? TIMER_ARG_CHG then
            match cb_u cb with
            | u_arg arg => <[t := mk_atimer (a_first a) (a_round a) arg None (a_flag a)]> A
            | _ => A
            end
          else if cmd =? TIMER_CMD_DEL then if a_flag a =? K_OBJ_STATIC_ALLOC then delete t A else A
          else if cmd =? TIMER_CMD_DYN_DEL then if a_flag a =? K_OBJ_DYN_ALLOC then delete t A else A
          else A
      end
  end.

Definition amsg (now : Z) (cb : k_timer_queue_cb) (A : gmap nat atimer) : gmap nat atimer :=
  if cb_num cb =? TIMER_ARG_CHG_AUTO
  then acmd now cb TIMER_CMD_START (acmd now cb TIMER_ARG_CHG (acmd now cb TIMER_CMD_STOP A))
  else acmd now cb (cb_num cb) A.

(** A callback is run at the time [now]. *)
Definition afire (now : Z) (A : gmap nat atimer) (t : nat) : gmap nat atimer :=
  alter (fun a => due_at (if 0 <? a_round a then Some (now + a_round a) else None) a) t A.

Lemma tabs_put t k l s :
  tabs (put t k l s) = match abs_timer k with Some a => <[t := a]> (tabs s) | None => delete t (tabs s) end.
Proof. unfold tabs. cbn. destruct (abs_timer k) as [a|] eqn:E; [by apply omap_insert_Some|by apply omap_insert_None]. Qed.

Lemma tabs_lookup s t k : timers s !! t = Some k -> tabs s !! t = abs_timer k.
Proof. intros Hk. unfold tabs. by rewrite lookup_omap, Hk. Qed.

Lemma tabs_free s t : tabs (free_timer t s) = delete t (tabs s).
Proof. unfold tabs. cbn. apply omap_delete. Qed.

(** The message names a timer and carries what its command reads. *)
Definition cmd_ok (cb : k_timer_queue_cb) (cmd : Z) (s : tmstate) : Prop :=
  is_Some (timers s !! cb_timer cb) /\
  (cmd = TIMER_CMD_CHG -> exists r, cb_u cb = u_round r /\ 0 <= r < horizon /\ 0 <= cb_first cb < horizon) /\
  (cmd = TIMER_ARG_CHG -> exists a, cb_u cb = u_arg a).

(** What a command leaves alone, and what it keeps. *)
Record cmd_post (now : Z) (cb : k_timer_queue_cb) (A' : gmap nat atimer) (s s' : tmstate) : Prop := {
  cp_ok : tm_ok s';
  cp_abs : tabs s' = A';
  cp_count : g_timer_count s' = g_timer_count s;
  cp_calls : calls s' = calls s;
  cp_on_time : on_time s -> on_time s';
  cp_frees : frees s' = frees s ++ (if decide (is_Some (timers s !! cb_timer cb) /\ timers s' !! cb_timer cb = None) then [cb_timer cb] else [])
}.

Lemma cmd_skip now cb A' s : tm_ok s -> A' = tabs s -> cmd_post now cb A' s s.
Proof. intros Hok ->. split; try done. rewrite decide_False; [by rewrite app_nil_r|]. intros [[? ?] ?]. congruence. Qed.

Lemma cmd_put now cb A' k l s :
  is_Some (timers s !! cb_timer cb) -> tm_ok (put (cb_timer cb) k l s) -> tabs (put (cb_timer cb) k l s) = A' ->
  (on_time s -> on_time (put (cb_timer cb) k l s)) -> cmd_post now cb A' s (put (cb_timer cb) k l s).
Proof.
  intros Ht Hok HA Ho. split; try done. cbn. rewrite lookup_insert_eq. rewrite decide_False by naive_solver. by rewrite app_nil_r.
Qed.

Lemma on_time_match t k k' l s : match_at k' = match_at k -> on_time (put t k l s) -> on_time (put t k' l s).
Proof.
  intros Hm. assert (forall x, m_of (put t k' l s) x = m_of (put t k l s) x) as He.
  { intros x. unfold m_of. cbn. destruct (decide (x = t)) as [->|]; [rewrite !lookup_insert_eq; cbn; congruence|by rewrite !lookup_insert_ne]. }
  unfold on_time. cbn. intros [Hs Hd]. split; [eapply sorted_ext_in; [|exact Hs]; done|]. intros x Hx. rewrite He. by apply Hd.
Qed.

Lemma inactive_off s t k : tm_ok s -> timers s !! t = Some k -> timer_state k <> TIMER_ACTIVE -> t ∉ g_timer_head s.
Proof. intros Hok Hk Hs (k' & Hk' & ?)%(tk_list s Hok). congruence. Qed.

(** An inactive timer is put on the list to match [n] ticks from now. *)
Definition armed (now n : Z) (k : ktimer_t) : ktimer_t :=
  set_timer_state TIMER_ACTIVE (set_to_head true (set_remain n (set_match_at (now + n) k))).

Lemma start_put t k n s :
  tm_ok s -> timer_ok k -> timer_type k = RHINO_TIMER_OBJ_TYPE -> t ∉ g_timer_head s -> 0 <= n < horizon ->
  exists l, timer_list_pri_insert t (put t (armed (g_timer_count s) n k) (g_timer_head s) s) = Some (put t (armed (g_timer_count s) n k) l s) /\
    l ≡ₚ t :: g_timer_head s /\ tm_ok (put t (armed (g_timer_count s) n k) l s) /\
    (on_time s -> on_time (put t (armed (g_timer_count s) n k) l s)).
Proof.
  intros Hok Hk Hty Ht Hn. destruct (pri_insert_put t (armed (g_timer_count s) n k) s Hok Ht) as (l & E & Hp). exists l.
  pose proof (tk_now s Hok) as Hnow. unfold horizon in *. split_and!; [done|done| |].
  - apply tm_ok_put; [done| | |].
    + destruct Hk as [? ? ? ?]. split; cbn; try done. intros _. split; [done|]. unfold horizon. lia.
    + rewrite Hp. apply NoDup_cons. split; [done|apply Hok].
    + intros x. rewrite Hp, elem_of_cons. destruct (decide (x = t)) as [->|]; naive_solver.
  - intros Ho. eapply (on_time_insert t (armed (g_timer_count s) n k) s); [done..|cbn; unfold horizon; lia|exact E].
Qed.

(** The insertion reads nothing of the timer but [remain]. *)
Lemma pri_insert_remain t k k' s l :
  t ∉ g_timer_head s -> remain k' = remain k ->
  timer_list_pri_insert t (put t k (g_timer_head s) s) = Some (put t k l s) ->
  timer_list_pri_insert t (put t k' (g_timer_head s) s) = Some (put t k' l s).
Proof.
  intros Ht Hr. unfold timer_list_pri_insert. cbn. rewrite !lookup_insert_eq. cbn.
  rewrite (scan_insert_ext (fun x : nat => kx ← <[t := k']> (timers s) !! x; Some (remain k' <? u64 (match_at kx - g_timer_count s)))
    (fun x : nat => kx ← <[t := k]> (timers s) !! x; Some (remain k <? u64 (match_at kx - g_timer_count s)))).
  2: { intros x Hx. rewrite !lookup_insert_ne by (by intros ->). by rewrite Hr. }
  destruct (scan_insert _ t (g_timer_head s)) as [l'|]; [|done]. cbn. intros E. injection E as E. unfold put, set_g_timer_head. by rewrite E.
Qed.

(** A timer that is not on the list, and stays off it. *)
Lemma off_put t k k' s :
  tm_ok s -> timers s !! t = Some k -> timer_state k <> TIMER_ACTIVE -> timer_ok k' -> timer_state k' <> TIMER_ACTIVE ->
  tm_ok (put t k' (g_timer_head s) s) /\ (on_time s -> on_time (put t k' (g_timer_head s) s)).
Proof.
  intros Hok Hk Hs Hk' Hs'. pose proof (inactive_off s t k Hok Hk Hs) as Ht. split; [|by apply on_time_off].
  apply tm_ok_put; [done|done|apply Hok|]. intros x. destruct (decide (x = t)) as [->|]; naive_solver.
Qed.

(** A timer leaves the list. *)
Lemma stop_put t k s :
  tm_ok s -> timers s !! t = Some k -> timer_state k = TIMER_ACTIVE ->
  tm_ok (put t (set_timer_state TIMER_DEACTIVE (set_to_head false k)) (list_rm t (g_timer_head s)) s).
Proof.
  intros Hok Hk Ha. destruct (tk_ok s Hok t k Hk) as [? ? ? ?]. apply tm_ok_put; [done| |apply list_rm_nodup, Hok|].
  - split; try done.
  - intros x. rewrite list_rm_spec. cbn. destruct (decide (x = t)) as [->|]; naive_solver.
Qed.

Lemma abs_active k : timer_type k = RHINO_TIMER_OBJ_TYPE -> timer_state k = TIMER_ACTIVE ->
  abs_timer k = Some (mk_atimer (init_count k) (round_ticks k) (timer_cb_arg k) (Some (match_at k)) (timer_mm_flag k)).
Proof. intros Ht Ha. unfold abs_timer. by rewrite !decide_True. Qed.

Lemma abs_inactive k : timer_type k = RHINO_TIMER_OBJ_TYPE -> timer_state k <> TIMER_ACTIVE ->
  abs_timer k = Some (mk_atimer (init_count k) (round_ticks k) (timer_cb_arg k) None (timer_mm_flag k)).
Proof. intros Ht Ha. unfold abs_timer. rewrite decide_True by done. by rewrite decide_False. Qed.

Lemma abs_dead k : timer_type k <> RHINO_TIMER_OBJ_TYPE -> abs_timer k = None.
Proof. intros Ht. unfold abs_timer. by rewrite decide_False. Qed.

Lemma cmd_fatal now cb A' s : tm_ok s -> A' = tabs s -> cmd_post now cb A' s (timer_fatal s).
Proof.
  intros [] ->. split; try done. cbn. rewrite decide_False; [by rewrite app_nil_r|]. intros [[? ?] ?]. congruence.
Qed.

(** A running timer is only ever stopped. *)
Lemma cmd_active_ok cb cmd k s :
  tm_ok s -> timers s !! cb_timer cb = Some k -> timer_state k = TIMER_ACTIVE ->
  exists s', cmd_proc cb cmd s = Some s' /\ cmd_post (g_timer_count s) cb (acmd (g_timer_count s) cb cmd (tabs s)) s s'.
Proof.
  intros Hok Hk Ha. destruct (tr_active k (tk_ok s Hok _ k Hk) Ha) as [Hty _]. unfold cmd_proc, acmd. rewrite Hk. cbn [mbind option_bind].
  rewrite (tabs_lookup s _ k Hk), (abs_active k Hty Ha), Hty, Ha. cbn [a_due]. rewrite !bool_decide_true by done. rewrite !bool_decide_false by done.
  cbn [negb]. destruct (cmd =? TIMER_CMD_START) eqn:E1.
  { rewrite (proj2 (Z.eqb_neq cmd TIMER_CMD_STOP)) by (apply Z.eqb_eq in E1; subst; done). eexists. split; [done|by apply cmd_skip]. }
  destruct (cmd =? TIMER_CMD_STOP) eqn:E2.
  - rewrite (list_rm_put _ k) by done. cbn [mbind option_bind]. rewrite upd_timer_put. eexists. split; [done|].
    apply cmd_put; [by eexists|by apply stop_put| |by apply on_time_rm]. rewrite tabs_put. by rewrite abs_inactive.
  - repeat case_match; (eexists; split; [done|]); first [by apply cmd_skip|by apply cmd_fatal].
Qed.

(** The memory of a timer that is not running is freed. *)
Lemma cmd_freed k k' l cb s :
  tm_ok s -> timers s !! cb_timer cb = Some k -> timer_state k = TIMER_DEACTIVE -> l = g_timer_head s ->
  cmd_post (g_timer_count s) cb (delete (cb_timer cb) (tabs s)) s (free_timer (cb_timer cb) (put (cb_timer cb) k' l s)).
Proof.
  intros Hok Hk Hs ->. assert (timer_state k <> TIMER_ACTIVE) as Hna by congruence. pose proof (inactive_off s _ k Hok Hk Hna) as Ht.
  assert (timers (free_timer (cb_timer cb) (put (cb_timer cb) k' (g_timer_head s) s)) = delete (cb_timer cb) (timers s)) as Et
    by (cbn; by rewrite delete_insert_eq).
  destruct Hok as [Hnd Hl Hko Hn]. split; try done.
  - split; [done| |rewrite Et|done].
    + intros x. cbn. rewrite Hl. unfold active. rewrite Et. destruct (decide (x = cb_timer cb)) as [->|Hne].
      * rewrite lookup_delete_eq. split; [intros (k0 & Hk0 & ?); congruence|by intros (? & ? & _)].
      * by rewrite lookup_delete_ne.
    + intros x kx [_ Hx]%lookup_delete_Some. by apply (Hko x).
  - unfold tabs. rewrite Et. apply omap_delete.
  - intros [Hso Hd]. assert (forall x, x ∈ g_timer_head s -> m_of (free_timer (cb_timer cb) (put (cb_timer cb) k' (g_timer_head s) s)) x = m_of s x) as Hm.
    { intros x Hx. unfold m_of. rewrite Et. rewrite lookup_delete_ne; [done|]. by intros <-. }
    split; cbn; [by eapply sorted_ext_in|]. intros x Hx. rewrite Hm by done. by apply Hd.
  - cbn. rewrite decide_True; [done|]. rewrite delete_insert_eq, lookup_delete_eq. split; [by eexists|done].
Qed.

(** A timer that is not running. *)
Lemma cmd_inactive_ok cb cmd k s :
  tm_ok s -> timers s !! cb_timer cb = Some k -> cmd_ok cb cmd s -> timer_type k = RHINO_TIMER_OBJ_TYPE -> timer_state k = TIMER_DEACTIVE ->
  exists s', cmd_proc cb cmd s = Some s' /\ cmd_post (g_timer_count s) cb (acmd (g_timer_count s) cb cmd (tabs s)) s s'.
Proof.
  intros Hok Hk (_ & Hchg & Harg) Hty Hs. assert (timer_state k <> TIMER_ACTIVE) as Hna by congruence.
  pose proof (tk_ok s Hok _ k Hk) as Hko. unfold cmd_proc, acmd. rewrite Hk. cbn [mbind option_bind].
  rewrite (tabs_lookup s _ k Hk), (abs_inactive k Hty Hna), Hty, Hs. cbn [a_due a_first a_round a_arg a_flag].
  rewrite !bool_decide_true by done. rewrite !bool_decide_false by done. cbn [negb].
  assert (forall k', timer_ok k' -> timer_state k' <> TIMER_ACTIVE -> forall A', tabs (put (cb_timer cb) k' (g_timer_head s) s) = A' ->
    cmd_post (g_timer_count s) cb A' s (put (cb_timer cb) k' (g_timer_head s) s)) as Hoff.
  { intros k' Hk' Hs' A' HA. destruct (off_put _ k k' s Hok Hk Hna Hk' Hs'). by apply cmd_put; [by eexists|..]. }
  destruct (Z.eqb_spec cmd TIMER_CMD_START) as [->|]; [|destruct (Z.eqb_spec cmd TIMER_CMD_STOP) as [->|]];
    [|by eexists; split; [done|by apply cmd_skip]|].
  - pose proof (inactive_off s _ k Hok Hk Hna) as Ht. destruct Hko as [Hf Hr Hh Hac].
    destruct (start_put (cb_timer cb) k (init_count k) s Hok (Build_timer_ok k Hf Hr Hh Hac) Hty Ht) as (l & E & _ & Hok' & Ho); [lia|].
    rewrite (upd_timer_eq _ k) by done. cbn [mbind option_bind]. pose proof (tk_now s Hok). unfold u64, horizon in *. rewrite wrap_small by lia.
    rewrite (pri_insert_remain _ (armed (g_timer_count s) (init_count k) k) (set_to_head true (set_remain (init_count k) (set_match_at (g_timer_count s + init_count k) k))) s l Ht eq_refl E). cbn [mbind option_bind]. rewrite upd_timer_put.
    eexists. split; [done|]. apply (cmd_put _ _ _ (armed (g_timer_count s) (init_count k) k)); [by eexists|done| |done].
    rewrite tabs_put. by rewrite abs_active.
  - destruct Hko as [Hf Hr Hh Hac]. destruct (Z.eqb_spec cmd TIMER_CMD_CHG) as [->|].
    { destruct (Hchg eq_refl) as (r & -> & Hr' & Hf'). destruct (Z.eqb_spec (cb_first cb) 0); [by eexists; split; [done|by apply cmd_skip]|].
      rewrite (upd_timer_eq _ k) by done. eexists. split; [done|]. apply Hoff; [split; cbn; (done || lia)|done|].
      rewrite tabs_put. by rewrite abs_inactive. }
    destruct (Z.eqb_spec cmd TIMER_ARG_CHG) as [->|].
    { destruct (Harg eq_refl) as (arg & ->). rewrite (upd_timer_eq _ k) by done. eexists. split; [done|]. apply Hoff; [by split|done|].
      rewrite tabs_put. by rewrite abs_inactive. }
    destruct (Z.eqb_spec cmd TIMER_CMD_DEL) as [->|].
    { destruct (_ =? _); cbn [negb]; [|by eexists; split; [done|by apply cmd_skip]]. rewrite (upd_timer_eq _ k) by done. eexists. split; [done|].
      apply Hoff; [|done|by rewrite tabs_put, abs_dead]. by split. }
    destruct (Z.eqb_spec cmd TIMER_CMD_DYN_DEL) as [->|]; [|by eexists; split; [done|by apply cmd_fatal]].
    destruct (_ =? _); cbn [negb]; [|by eexists; split; [done|by apply cmd_skip]]. rewrite (upd_timer_eq _ k) by done. cbn [mbind option_bind].
    eexists. split; [done|]. by apply (cmd_freed k).
Qed.

Lemma cmd_proc_ok cb cmd s :
  tm_ok s -> cmd_ok cb cmd s ->
  exists s', cmd_proc cb cmd s = Some s' /\ cmd_post (g_timer_count s) cb (acmd (g_timer_count s) cb cmd (tabs s)) s s'.
Proof.
  intros Hok Hc. pose proof Hc as ([k Hk] & _ & _). destruct (decide (timer_state k = TIMER_ACTIVE)) as [Ha|Ha]; [by eapply cmd_active_ok|].
  destruct (decide (timer_type k = RHINO_TIMER_OBJ_TYPE)) as [Hty|Hty].
  - eapply cmd_inactive_ok; [done..|]. by destruct (timer_state k).
  - unfold cmd_proc, acmd. rewrite Hk. cbn [mbind option_bind]. rewrite (tabs_lookup s _ k Hk), (abs_dead k Hty), bool_decide_false by done.
    cbn [negb]. repeat case_match; (eexists; split; [done|]); first [by apply cmd_skip|by apply cmd_fatal].
Qed.

(** No timer disappears but by [TIMER_CMD_DYN_DEL]. *)
Lemma upd_timer_keeps t f s s' x : upd_timer t f s = Some s' -> is_Some (timers s !! x) -> is_Some (timers s' !! x).
Proof.
  unfold upd_timer. destruct (timers s !! t) as [k|]; [|done]. cbn. intros [= <-] Hx. cbn. destruct (decide (x = t)) as [->|].
  - rewrite lookup_insert_eq. by eexists.
  - by rewrite lookup_insert_ne.
Qed.

Lemma list_rm_keeps t s s' x : timer_list_rm t s = Some s' -> is_Some (timers s !! x) -> is_Some (timers s' !! x).
Proof.
  unfold timer_list_rm. destruct (timers s !! t) as [k|]; [|done]. cbn. destruct (to_head k); [|by intros [= <-]].
  destruct (decide _); [|done]. intros E Hx. exact (upd_timer_keeps _ _ _ _ x E Hx).
Qed.

Lemma pri_insert_keeps t s s' x : timer_list_pri_insert t s = Some s' -> is_Some (timers s !! x) -> is_Some (timers s' !! x).
Proof.
  unfold timer_list_pri_insert. destruct (timers s !! t) as [k|]; [|done]. cbn. destruct (scan_insert _ _ _); [|done]. by intros [= <-].
Qed.

Lemma cmd_proc_keeps cb cmd s s' x :
  cmd_proc cb cmd s = Some s' -> cmd <> TIMER_CMD_DYN_DEL -> is_Some (timers s !! x) -> is_Some (timers s' !! x).
Proof.
  unfold cmd_proc. intros E Hne. destruct (timers s !! cb_timer cb) as [k|]; cbn [mbind option_bind] in E.
  - repeat (case_match; try done; try (injection E as <-; done); try (eapply upd_timer_keeps; exact E); zbool); try done.
    + destruct (upd_timer _ _ s) as [s1|] eqn:E1; [|done]. cbn in E. destruct (timer_list_pri_insert _ s1) as [s2|] eqn:E2; [|done].
      cbn in E. intros Hx. by eapply upd_timer_keeps, pri_insert_keeps, upd_timer_keeps.
    + destruct (timer_list_rm _ s) as [s1|] eqn:E1; [|done]. cbn in E. intros Hx. by eapply upd_timer_keeps, list_rm_keeps.
  - repeat (case_match; try done; try (injection E as <-; done)).
Qed.

(** A whole message. *)
Definition msg_ok (cb : k_timer_queue_cb) (s : tmstate) : Prop :=
  cmd_ok cb (cb_num cb) s /\ (cb_num cb = TIMER_ARG_CHG_AUTO -> exists a, cb_u cb = u_arg a).

Lemma timer_cmd_proc_ok cb s :
  tm_ok s -> msg_ok cb s ->
  exists s', timer_cmd_proc cb s = Some s' /\ cmd_post (g_timer_count s) cb (amsg (g_timer_count s) cb (tabs s)) s s'.
Proof.
  intros Hok [Hc Hauto]. unfold timer_cmd_proc, amsg. destruct (Z.eqb_spec (cb_num cb) TIMER_ARG_CHG_AUTO) as [E|E]; [|by apply cmd_proc_ok].
  destruct Hc as (Ht & _ & _). specialize (Hauto E). assert (forall s, is_Some (timers s !! cb_timer cb) -> forall cmd, cmd <> TIMER_CMD_CHG -> cmd_ok cb cmd s) as Hcmd.
  { intros s0 Hs0 cmd Hne. by split_and!. }
  destruct (cmd_proc_ok cb TIMER_CMD_STOP s Hok (Hcmd _ Ht TIMER_CMD_STOP ltac:(by vm_compute))) as (s1 & E1 & [Hok1 A1 C1 L1 O1 F1]).
  pose proof (cmd_proc_keeps _ _ _ _ _ E1 ltac:(by vm_compute) Ht) as Ht1.
  destruct (cmd_proc_ok cb TIMER_ARG_CHG s1 Hok1 (Hcmd _ Ht1 TIMER_ARG_CHG ltac:(by vm_compute))) as (s2 & E2 & [Hok2 A2 C2 L2 O2 F2]).
  pose proof (cmd_proc_keeps _ _ _ _ _ E2 ltac:(by vm_compute) Ht1) as Ht2.
  destruct (cmd_proc_ok cb TIMER_CMD_START s2 Hok2 (Hcmd _ Ht2 TIMER_CMD_START ltac:(by vm_compute))) as (s3 & E3 & [Hok3 A3 C3 L3 O3 F3]).
  pose proof (cmd_proc_keeps _ _ _ _ _ E3 ltac:(by vm_compute) Ht2) as [k3 Hk3]. destruct Ht1 as [k1 Hk1], Ht2 as [k2 Hk2].
  exists s3. rewrite E1. cbn [mbind option_bind]. rewrite E2. cbn [mbind option_bind]. split; [done|].
  rewrite A2, A1, C2, C1 in A3. split; [done|done|congruence|congruence|auto|].
  rewrite decide_False in F1 by (intros [_ ?]; congruence). rewrite decide_False in F2 by (intros [_ ?]; congruence).
  rewrite decide_False in F3 by (intros [_ ?]; congruence). rewrite decide_False by (intros [_ ?]; congruence). rewrite F3, F2, F1. by rewrite !app_nil_r.
Qed.

(** ** Callbacks *)

Definition is_due (s : tmstate) (t : nat) : Prop := m_of s t <= g_timer_count s.

#[global] Instance is_due_dec s t : Decision (is_due s t).
Proof. unfold is_due. apply _. Defined.

(** The timers on the list that are due. *)
Definition dues (s : tmstate) : list nat := filter (is_due s) (g_timer_head s).

Lemma i64_small z : 0 <= z < 2 * horizon -> i64 z = z.
Proof. unfold i64, signed, horizon. intros Hz. rewrite wrap_small by lia. by rewrite (proj2 (Z.ltb_lt _ _)) by lia. Qed.

Lemma time_diff_small a b : 0 <= a < 2 * horizon -> 0 <= b < horizon -> time_diff a b = Some (a - b).
Proof.
  intros Ha Hb. unfold time_diff. rewrite !i64_small by (unfold horizon in *; lia). unfold horizon in *. by rewrite decide_True by lia.
Qed.

Lemma tm_ok_run_cb c s : tm_ok s -> tm_ok (run_cb c s).
Proof. by intros []. Qed.

(** What is left of a timer after its callback, and of the list. *)
Definition fired (now : Z) (k : ktimer_t) : ktimer_t :=
  if 0 <? round_ticks k then armed now (round_ticks k) k else set_timer_state TIMER_DEACTIVE (set_to_head false k).

Lemma fired_abs now k : timer_type k = RHINO_TIMER_OBJ_TYPE -> timer_state k = TIMER_ACTIVE ->
  abs_timer (fired now k) = (fun a => due_at (if 0 <? a_round a then Some (now + a_round a) else None) a) <$> abs_timer k.
Proof.
  intros Hty Ha. rewrite (abs_active k) by done. unfold fired. cbn. destruct (0 <? round_ticks k); [by rewrite abs_active|by rewrite abs_inactive].
Qed.

(** One callback: the steps of the loop for the timer [t], which is due. *)
Record fire_one (t : nat) (k : ktimer_t) (s s1 : tmstate) : Prop := {
  fo_ok : tm_ok s1;
  fo_eq : exists l, s1 = put t (fired (g_timer_count s) k) l (run_cb (t, timer_cb_arg k, g_timer_count s) s);
  fo_on_time : on_time s -> on_time s1;
  fo_list x : x <> t -> x ∈ g_timer_head s1 <-> x ∈ g_timer_head s;
  fo_self : t ∈ g_timer_head s1 <-> 0 < round_ticks k
}.

Lemma fire_round t k s :
  tm_ok s -> timers s !! t = Some k -> timer_state k = TIMER_ACTIVE -> 0 < round_ticks k ->
  exists s1, (s1 ← timer_list_rm t (run_cb (t, timer_cb_arg k, g_timer_count s) s);
              s1 ← upd_timer t (fun k => set_to_head true (set_match_at (u64 (g_timer_count s1 + round_ticks k)) (set_remain (round_ticks k) k))) s1;
              timer_list_pri_insert t s1) = Some s1 /\ fire_one t k s s1.
Proof.
  intros Hok Hk Ha Hr. set (s0 := run_cb _ s). assert (tm_ok s0) as Hok0 by by apply tm_ok_run_cb.
  pose proof (tk_ok s Hok t k Hk) as Hko. destruct (tr_active k Hko Ha) as [Hty _]. pose proof (tr_round k Hko) as Hrd. pose proof (tk_now s Hok) as Hnow.
  rewrite (list_rm_put t k) by done. cbn [mbind option_bind]. rewrite upd_timer_put. cbn [mbind option_bind].
  change (g_timer_count (put _ _ _ s0)) with (g_timer_count s). cbn [round_ticks set_to_head].
  unfold u64, horizon in *. rewrite wrap_small by lia. set (s1 := put t (set_timer_state TIMER_DEACTIVE (set_to_head false k)) (list_rm t (g_timer_head s0)) s0).
  assert (tm_ok s1) as Hok1 by by apply stop_put. assert (t ∉ g_timer_head s1) as Ht by (by intros [_ ?]%list_rm_spec).
  destruct (start_put t k (round_ticks k) s1 Hok1 Hko Hty Ht) as (l & E & Hp & Hok2 & Ho2); [unfold horizon; lia|].
  change (g_timer_count s1) with (g_timer_count s) in *.
  assert (forall k' l', put t k' l' s1 = put t k' l' s0) as Eput by (intros; apply put_put). rewrite (Eput _ (g_timer_head s1)), (Eput _ l) in E. rewrite Eput in Hok2, Ho2.
  assert (set_to_head true (set_match_at (g_timer_count s + round_ticks k) (set_remain (round_ticks k) (set_to_head false k)))
    = armed (g_timer_count s) (round_ticks k) k) as -> by (destruct k; cbn in Ha; by subst).
  exists (put t (armed (g_timer_count s) (round_ticks k) k) l s0). split; [exact E|].
  assert (forall x, x ∈ l <-> x = t \/ x ∈ list_rm t (g_timer_head s0)) as Hl by (intros x; rewrite Hp; apply elem_of_cons).
  split; [done| | | |].
  - exists l. unfold fired. by rewrite (proj2 (Z.ltb_lt _ _) Hr).
  - intros Ho. apply Ho2. apply (on_time_rm t _ s0). exact Ho.
  - intros x Hne. cbn. rewrite Hl. split; [by intros [?|[? _]%list_rm_spec]|]. intros Hx. right. by apply list_rm_spec.
  - cbn. rewrite Hl. split; [done|by left].
Qed.

Lemma fire_once t k s :
  tm_ok s -> timers s !! t = Some k -> timer_state k = TIMER_ACTIVE -> round_ticks k <= 0 ->
  exists s1, (s1 ← timer_list_rm t (run_cb (t, timer_cb_arg k, g_timer_count s) s);
              upd_timer t (set_timer_state TIMER_DEACTIVE) s1) = Some s1 /\ fire_one t k s s1.
Proof.
  intros Hok Hk Ha Hr. set (s0 := run_cb _ s). assert (tm_ok s0) as Hok0 by by apply tm_ok_run_cb.
  rewrite (list_rm_put t k) by done. cbn [mbind option_bind]. rewrite upd_timer_put. eexists. split; [done|]. split.
  - by apply stop_put.
  - exists (list_rm t (g_timer_head s)). unfold fired. by rewrite (proj2 (Z.ltb_ge _ _) Hr).
  - intros Ho. by apply (on_time_rm t _ s0).
  - intros x Hne. split; [by intros [? _]%list_rm_spec|]. intros Hx. by apply list_rm_spec.
  - split; [by intros [_ ?]%list_rm_spec|lia].
Qed.

Lemma fire_one_abs t k s s1 : tm_ok s -> timers s !! t = Some k -> timer_state k = TIMER_ACTIVE -> fire_one t k s s1 ->
  tabs s1 = afire (g_timer_count s) (tabs s) t.
Proof.
  intros Hok Hk Ha [_ [l ->] _ _ _]. destruct (tr_active k (tk_ok s Hok t k Hk) Ha) as [Hty _]. rewrite tabs_put, fired_abs by done.
  rewrite (abs_active k) by done. cbn. unfold afire. apply map_eq. intros x.
  destruct (decide (x = t)) as [->|Hne].
  - rewrite lookup_insert_eq, lookup_alter_eq, (tabs_lookup s t k Hk). by rewrite (abs_active k).
  - by rewrite lookup_insert_ne, lookup_alter_ne.
Qed.

Lemma dues_elem s t : t ∈ dues s <-> is_due s t /\ t ∈ g_timer_head s.
Proof. unfold dues. apply list_elem_of_filter. Qed.

(** A callback leaves one timer fewer due. *)
Lemma fire_one_dues t k s s1 :
  tm_ok s -> timers s !! t = Some k -> t ∈ dues s -> fire_one t k s s1 -> t :: dues s1 ≡ₚ dues s.
Proof.
  intros Hok Hk Hd [Hok1 [l E] _ Hl Hs]. assert (g_timer_count s1 = g_timer_count s) as Ec by (by rewrite E).
  assert (t ∉ dues s1) as Hn.
  { intros [Hx Ht]%dues_elem. apply Hs in Ht. unfold is_due in Hx. rewrite Ec in Hx. rewrite (m_of_eq s1 t (fired (g_timer_count s) k)) in Hx
      by (rewrite E; apply lookup_insert_eq). unfold fired in Hx. rewrite (proj2 (Z.ltb_lt _ _) Ht) in Hx. cbn in Hx. lia. }
  apply NoDup_Permutation; [|apply NoDup_filter, Hok|].
  - apply NoDup_cons. split; [done|apply NoDup_filter, Hok1].
  - intros x. rewrite elem_of_cons. destruct (decide (x = t)) as [->|Hne]; [naive_solver|].
    rewrite !dues_elem, Hl by done. unfold is_due. rewrite Ec. rewrite E, m_of_put_ne by done. naive_solver.
Qed.

Lemma list_next_in t l y : NoDup l -> list_next t l = Some y -> y ∈ l /\ y <> t.
Proof.
  induction l as [|x l IH]; [done|]. intros [Hx Hnd]%NoDup_cons. cbn. destruct (decide (x = t)) as [->|Hne].
  - destruct l as [|z l]; [done|]. intros [= ->]. split; [set_solver|]. intros ->. apply Hx. left.
  - intros E. destruct (IH Hnd E) as [? ?]. split; [by right|done].
Qed.

(** The timers whose callbacks were run. *)
Definition ids (new : list tcall) : list nat := (fun c => c.1.1) <$> new.

(** A run of callbacks from [s] to [s']. *)
Record fires (s s' : tmstate) (new : list tcall) : Prop := {
  fs_ok : tm_ok s';
  fs_count : g_timer_count s' = g_timer_count s;
  fs_frees : frees s' = frees s;
  fs_calls : calls s' = calls s ++ new;
  fs_each c : c ∈ new -> exists k, timers s !! c.1.1 = Some k /\ timer_state k = TIMER_ACTIVE /\ match_at k <= g_timer_count s /\
    c = (c.1.1, timer_cb_arg k, g_timer_count s);
  fs_abs : tabs s' = foldl (afire (g_timer_count s)) (tabs s) (ids new);
  fs_on_time : on_time s -> on_time s';
  fs_dues : ids new ++ dues s' ≡ₚ dues s
}.

Lemma fires_none s : tm_ok s -> fires s s [].
Proof. intros Hok. split; try done; [by rewrite app_nil_r|]. intros c Hc. by apply elem_of_nil in Hc. Qed.

Lemma fires_cons t k s s1 s' new :
  tm_ok s -> timers s !! t = Some k -> timer_state k = TIMER_ACTIVE -> t ∈ dues s -> fire_one t k s s1 -> fires s1 s' new ->
  fires s s' ((t, timer_cb_arg k, g_timer_count s) :: new).
Proof.
  intros Hok Hk Ha Hd Hf [Hok' Ec Ef El He HA Ho Hdu]. pose proof (fire_one_dues t k s s1 Hok Hk Hd Hf) as Hp.
  pose proof (fire_one_abs t k s s1 Hok Hk Ha Hf) as HA1. pose proof Hf as [_ [l E] Ho1 _ _].
  assert (g_timer_count s1 = g_timer_count s) as Ec1 by (by rewrite E). rewrite Ec1 in *.
  assert (ids ((t, timer_cb_arg k, g_timer_count s) :: new) ++ dues s' ≡ₚ dues s) as Hdu' by (cbn; by rewrite Hdu).
  split; try done.
  - by rewrite Ef, E.
  - rewrite El, E. cbn. by rewrite <- app_assoc.
  - intros c [->|Hc]%elem_of_cons.
    + exists k. split_and!; try done. apply dues_elem in Hd as [Hd _]. unfold is_due in Hd. by rewrite (m_of_eq s t k Hk) in Hd.
    + destruct (He c Hc) as (kc & Hkc & Hac & Hmc & Ecc). exists kc. split_and!; try done. rewrite E in Hkc. cbn in Hkc.
      rewrite lookup_insert_ne in Hkc; [done|]. intros ->. assert (NoDup (ids ((c.1.1, timer_cb_arg k, g_timer_count s) :: new) ++ dues s')) as Hnd
        by (rewrite Hdu'; apply NoDup_filter, Hok). cbn in Hnd. apply NoDup_cons in Hnd as [Hn _]. apply Hn, elem_of_app. left.
      apply list_elem_of_fmap. by exists c.
  - rewrite HA, HA1. done.
  - auto.
Qed.

Lemma timer_cb_loop_ok fuel q s :
  tm_ok s -> (forall t, q = Some t -> t ∈ g_timer_head s) -> (length (dues s) < fuel)%nat ->
  exists s' new, timer_cb_loop fuel q s = Some s' /\ fires s s' new /\ (forall t, q = Some t -> is_due s t -> t ∈ ids new).
Proof.
  revert q s. induction fuel as [|fuel IH]; [lia|]. intros q s Hok Hq Hlen. cbn [timer_cb_loop]. destruct q as [t|].
  2: { exists s, []. split; [done|]. split; [by apply fires_none|done]. }
  specialize (Hq t eq_refl). destruct (proj1 (tk_list s Hok t) Hq) as (k & Hk & Ha). rewrite Hk. cbn [mbind option_bind].
  destruct (tr_active k (tk_ok s Hok t k Hk) Ha) as [_ Hm]. rewrite time_diff_small by (done || apply Hok). cbn [mbind option_bind].
  destruct (Z.leb_spec (match_at k - g_timer_count s) 0) as [Hle|Hgt].
  2: { exists s, []. split; [done|]. split; [by apply fires_none|]. intros t' [= <-]. unfold is_due. rewrite (m_of_eq s t k Hk). lia. }
  assert (t ∈ dues s) as Hd by (apply dues_elem; split; [unfold is_due; rewrite (m_of_eq s t k Hk); lia|done]).
  assert (forall s1 q', fire_one t k s s1 -> (forall y, q' = Some y -> y ∈ g_timer_head s1) -> exists s' new,
    timer_cb_loop fuel q' s1 = Some s' /\ fires s s' new /\ (forall t', Some t = Some t' -> is_due s t' -> t' ∈ ids new)) as Hgo.
  { intros s1 q' Hf Hq'. pose proof (fire_one_dues t k s s1 Hok Hk Hd Hf) as Hp. apply Permutation_length in Hp. cbn in Hp.
    destruct (IH q' s1 (fo_ok _ _ _ _ Hf) Hq' ltac:(lia)) as (s' & new & E & Hfs & _). exists s', ((t, timer_cb_arg k, g_timer_count s) :: new).
    split; [done|]. split; [by eapply fires_cons|]. intros t' [= <-] _. left. }
  destruct (Z.ltb_spec 0 (round_ticks k)) as [Hr|Hr].
  - destruct (fire_round t k s Hok Hk Ha Hr) as (s1 & E & Hf). destruct (timer_list_rm t _) as [s2|]; [|done]. cbn [mbind option_bind] in *.
    destruct (upd_timer t _ s2) as [s3|]; [|done]. cbn [mbind option_bind] in *. rewrite E. cbn [mbind option_bind]. apply Hgo; [done|].
    intros y Hy. eapply list_next_in; [|exact Hy]. apply Hf.
  - destruct (fire_once t k s Hok Hk Ha Hr) as (s1 & E & Hf). destruct (timer_list_rm t _) as [s2|]; [|done]. cbn [mbind option_bind] in *.
    rewrite E. cbn [mbind option_bind]. apply Hgo; [done|]. intros y Hy. cbn in Hy.
    destruct (list_next_in t (g_timer_head s) y (tk_nodup s Hok) Hy) as [Hy1 Hy2]. by apply (fo_list _ _ _ _ Hf).
Qed.

Lemma timer_cb_proc_ok s :
  tm_ok s -> exists s' new, timer_cb_proc s = Some s' /\ fires s s' new /\ (forall t, head (g_timer_head s) = Some t -> is_due s t -> t ∈ ids new).
Proof.
  intros Hok. apply timer_cb_loop_ok; [done| |].
  - intros t. destruct (g_timer_head s); [done|]. intros [= ->]. left.
  - unfold dues. pose proof (length_filter (is_due s) (g_timer_head s)). lia.
Qed.

(** ** Steps of the task *)

Lemma tm_ok_count n s : tm_ok s -> 0 <= n < horizon -> tm_ok (set_g_timer_count n s).
Proof. by intros [] ?. Qed.

Lemma on_time_count n s : on_time s -> (forall t, t ∈ g_timer_head s -> n <= m_of s t) -> on_time (set_g_timer_count n s).
Proof. intros [Hs _] Hn. split; [exact Hs|exact Hn]. Qed.

(** Inputs the task can get: times within the horizon, messages about timers that exist. *)
Definition input_ok (pc : timer_pc) (i : timer_in) (s : tmstate) : Prop :=
  match pc, i with
  | PC_WAIT, In_recv _ cb n => 0 <= n < horizon /\ msg_ok cb s
  | PC_LOOP, In_tick n => 0 <= n < horizon
  | PC_TIMED _, In_recv err cb n => 0 <= n < horizon /\ (err = RHINO_SUCCESS -> msg_ok cb s)
  | _, _ => False
  end.

(** The time by which a step goes, and the timers after the message it gets. *)
Definition step_now (pc : timer_pc) (i : timer_in) (s : tmstate) : Z :=
  match pc, i with
  | PC_WAIT, In_recv err _ n => if decide (err = RHINO_SUCCESS) then n else g_timer_count s
  | PC_TIMED _, In_recv err _ n => if decide (err = RHINO_SUCCESS \/ err = RHINO_BLK_TIMEOUT) then n else g_timer_count s
  | _, In_tick n => n
  | _, _ => g_timer_count s
  end.

Definition step_msg (pc : timer_pc) (i : timer_in) (now : Z) (A : gmap nat atimer) : gmap nat atimer :=
  match pc, i with
  | PC_WAIT, In_recv _ cb _ => amsg now cb A
  | PC_TIMED _, In_recv err cb _ => if decide (err = RHINO_SUCCESS) then amsg now cb A else A
  | _, _ => A
  end.

(** The callback [c] was run at [now] with the argument of its timer, whose deadline had come. *)
Definition not_early (now : Z) (A : gmap nat atimer) (c : tcall) : Prop :=
  exists a d, A !! c.1.1 = Some a /\ a_due a = Some d /\ d <= now /\ c = (c.1.1, a_arg a, now).

Definition step_refines (now : Z) (A : gmap nat atimer) (s s' : tmstate) : Prop :=
  tm_ok s' /\ exists new, calls s' = calls s ++ new /\ NoDup (ids new) /\ (forall c, c ∈ new -> not_early now A c) /\
    tabs s' = foldl (afire now) A (ids new).

Lemma fires_refines s s' new :
  tm_ok s -> fires s s' new -> step_refines (g_timer_count s) (tabs s) s s'.
Proof.
  intros Hok [Hok' _ _ El He HA _ Hd]. split; [done|]. exists new. split_and!; [done| | |done].
  - assert (NoDup (ids new ++ dues s')) as Hnd by (rewrite Hd; apply NoDup_filter, Hok). by apply NoDup_app in Hnd as [? _].
  - intros c Hc. destruct (He c Hc) as (k & Hk & Ha & Hm & Ec). destruct (tr_active k (tk_ok s Hok _ k Hk) Ha) as [Hty _].
    eexists _, _. rewrite (tabs_lookup s _ k Hk), (abs_active k) by done. by split_and!.
Qed.

Lemma refines_none now s s' : tm_ok s' -> calls s' = calls s -> step_refines now (tabs s') s s'.
Proof.
  intros Hok E. split; [done|]. exists []. rewrite E, app_nil_r. split_and!; [done|constructor| |done]. intros c Hc. by apply elem_of_nil in Hc.
Qed.

Lemma refines_calls now A s0 s s' : calls s0 = calls s -> step_refines now A s s' -> step_refines now A s0 s'.
Proof. intros E [Hok (new & El & H)]. split; [done|]. exists new. by rewrite E. Qed.

Lemma timer_step_ok pc i s :
  tm_ok s -> input_ok pc i s ->
  exists pc' s', timer_task_step pc i s = Some (pc', s') /\
    step_refines (step_now pc i s) (step_msg pc i (step_now pc i s) (tabs s)) s s'.
Proof.
  intros Hok Hi. destruct pc as [| |delta], i as [err cb n|n]; try done; cbn in Hi; cbn [timer_task_step step_now step_msg].
  - destruct Hi as [Hn Hm]. destruct (decide (err = RHINO_SUCCESS)) as [->|He].
    + rewrite bool_decide_true by done. destruct (timer_cmd_proc_ok cb (set_g_timer_count n s)) as (s' & E & [Hok' HA _ El _ _]); [by apply tm_ok_count|done|].
      rewrite E. eexists _, _. split; [done|]. assert (amsg n cb (tabs s) = tabs s') as -> by (symmetry; exact HA). by apply refines_none.
    + rewrite bool_decide_false by done. destruct (timer_cmd_proc_ok cb (timer_fatal s)) as (s' & E & [Hok' HA _ El _ _]); [by destruct Hok|done|].
      rewrite E. eexists _, _. split; [done|]. assert (amsg (g_timer_count s) cb (tabs s) = tabs s') as -> by (symmetry; exact HA). by apply refines_none.
  - destruct (g_timer_head s) as [|t l] eqn:El; [eexists _, _; split; [done|]; by apply refines_none|].
    destruct (proj1 (tk_list s Hok t)) as (k & Hk & Ha); [rewrite El; left|]. rewrite Hk. cbn [mbind option_bind].
    destruct (tr_active k (tk_ok s Hok t k Hk) Ha) as [_ Hm]. rewrite time_diff_small by done. cbn [mbind option_bind].
    destruct (0 <? _); [eexists _, _; split; [done|]; by apply refines_none|].
    destruct (timer_cb_proc_ok (set_g_timer_count n s)) as (s' & new & E & Hf & _); [by apply tm_ok_count|]. rewrite E. eexists _, _. split; [done|].
    apply (fires_refines (set_g_timer_count n s) s' new); [by apply tm_ok_count|done].
  - destruct Hi as [Hn Hm]. set (s1 := set_g_timer_count n s). assert (tm_ok s1) as Hok1 by by apply tm_ok_count.
    assert (forall s2, tm_ok s2 -> calls s2 = calls s -> exists pc' s', (s3 ← timer_cb_proc s2; Some (PC_LOOP, s3)) = Some (pc', s') /\
      step_refines (g_timer_count s2) (tabs s2) s s') as Hcb.
    { intros s2 Hok2 Ec. destruct (timer_cb_proc_ok s2 Hok2) as (s' & new & E & Hf & _). rewrite E. eexists _, _. split; [done|].
      eapply refines_calls; [by symmetry|]. by apply (fires_refines s2 s' new). }
    destruct (decide (err = RHINO_SUCCESS)) as [->|He].
    + rewrite (bool_decide_false (RHINO_SUCCESS = RHINO_BLK_TIMEOUT)), (bool_decide_true (RHINO_SUCCESS = RHINO_SUCCESS)) by done. 
      rewrite decide_True by (by left). destruct (timer_cmd_proc_ok cb s1 Hok1 (Hm eq_refl)) as (s2 & E & [Hok2 HA Ec El _ _]). rewrite E. cbn [mbind option_bind].
      assert (amsg n cb (tabs s) = tabs s2) as -> by (symmetry; exact HA). assert (n = g_timer_count s2) as -> by (symmetry; exact Ec). by apply Hcb.
    + destruct (decide (err = RHINO_BLK_TIMEOUT)) as [->|He2].
      * rewrite bool_decide_true by done. rewrite decide_True by (by right). cbn [mbind option_bind]. by apply (Hcb s1).
      * rewrite !bool_decide_false by done. rewrite decide_False by naive_solver. cbn [mbind option_bind]. apply (Hcb (timer_fatal s)); [by destruct Hok|done].
Qed.

(** ** A round of callbacks *)

(** The inner loop while the tick count is [n], up to the next place where the task waits. *)
Fixpoint timer_round (fuel : nat) (n : Z) (s : tmstate) : option (timer_pc * tmstate) :=
  match fuel with
  | O => None
  | S fuel =>
      r ← timer_task_step PC_LOOP (In_tick n) s;
      match r with
      | (PC_LOOP, s) => timer_round fuel n s
      | _ => Some r
      end
  end.

(** All timers that match at [n] were called, once each, and the task waits for the next one. *)
Record round_done (n : Z) (s : tmstate) (pc : timer_pc) (s' : tmstate) (new : list tcall) : Prop := {
  rd_ok : tm_ok s';
  rd_on_time : on_time s';
  rd_calls : calls s' = calls s ++ new;
  rd_due : ids new ≡ₚ filter (fun t => m_of s t = n) (g_timer_head s);
  rd_when c : c ∈ new -> c.2 = n;
  rd_abs : tabs s' = foldl (afire n) (tabs s) (ids new);
  rd_left t : t ∈ g_timer_head s' -> n < m_of s' t;
  rd_pc : pc = match g_timer_head s' with [] => PC_WAIT | t :: _ => PC_TIMED (m_of s' t - n) end
}.

Lemma none_due n s t l :
  on_time s -> g_timer_head s = t :: l -> n < m_of s t -> forall x, x ∈ g_timer_head s -> n < m_of s x.
Proof.
  intros [Hs _] E Hn x. rewrite E in *. apply StronglySorted_inv in Hs as [_ Hs]. rewrite Forall_forall in Hs.
  intros [->|Hx]%elem_of_cons; [done|]. specialize (Hs x Hx). lia.
Qed.

(** The task waits at once. *)
Lemma round_wait fuel n s :
  tm_ok s -> on_time s -> 0 <= n < horizon -> (forall t, t ∈ g_timer_head s -> n < m_of s t) ->
  exists pc, timer_round (S fuel) n s = Some (pc, s) /\ round_done n s pc s [].
Proof.
  intros Hok Ho Hn Hlt. cbn [timer_round timer_task_step]. eexists (match g_timer_head s with [] => PC_WAIT | t :: _ => PC_TIMED (m_of s t - n) end). split.
  - destruct (g_timer_head s) as [|t l] eqn:El; [done|]. destruct (proj1 (tk_list s Hok t)) as (k & Hk & Ha); [rewrite El; left|].
    rewrite Hk. cbn [mbind option_bind]. destruct (tr_active k (tk_ok s Hok t k Hk) Ha) as [_ Hm]. rewrite time_diff_small by done. cbn [mbind option_bind].
    specialize (Hlt t ltac:(left)). rewrite (m_of_eq s t k Hk) in *. rewrite (proj2 (Z.ltb_lt _ _)) by lia. unfold u64, horizon in *. rewrite wrap_small by lia. done.
  - split; try done; [by rewrite app_nil_r| |intros c Hc; by apply elem_of_nil in Hc]. cbn.
    rewrite filter_none; [done|]. intros x Hx. specialize (Hlt x Hx). lia.
Qed.

(** The timers that match at [n], when nobody is overdue. *)
Lemma dues_now n s :
  (forall t, t ∈ g_timer_head s -> n <= m_of s t) -> g_timer_count s = n -> dues s = filter (fun t => m_of s t = n) (g_timer_head s).
Proof. intros Hle Hc. apply filter_ext_in. intros x Hx. unfold is_due. specialize (Hle x Hx). lia. Qed.

(** A step of the loop when the first timer matches. *)
Lemma loop_fire n s t l :
  tm_ok s -> on_time s -> 0 <= n < horizon -> (forall t, t ∈ g_timer_head s -> n <= m_of s t) -> g_timer_head s = t :: l -> m_of s t = n ->
  exists s2 new, timer_task_step PC_LOOP (In_tick n) s = Some (PC_LOOP, s2) /\ fires (set_g_timer_count n s) s2 new /\ t ∈ ids new.
Proof.
  intros Hok Ho Hn Hle El Hmt. cbn [timer_task_step]. rewrite El. destruct (proj1 (tk_list s Hok t)) as (k & Hk & Ha); [rewrite El; left|].
  rewrite Hk. cbn [mbind option_bind]. destruct (tr_active k (tk_ok s Hok t k Hk) Ha) as [_ Hm]. rewrite time_diff_small by done. cbn [mbind option_bind].
  pose proof Hmt as Hmk. rewrite (m_of_eq s t k Hk) in Hmk. rewrite (proj2 (Z.ltb_ge _ _)) by lia.
  destruct (timer_cb_proc_ok (set_g_timer_count n s)) as (s2 & new & E & Hf & Hin); [by apply tm_ok_count|]. rewrite E.
  exists s2, new. split; [done|]. split; [done|]. apply Hin; [cbn; by rewrite El|]. unfold is_due. change (m_of (set_g_timer_count n s) t) with (m_of s t). cbn. lia.
Qed.

Lemma round_ok fuel n s :
  tm_ok s -> on_time s -> 0 <= n < horizon -> (forall t, t ∈ g_timer_head s -> n <= m_of s t) ->
  (length (filter (fun t => m_of s t = n) (g_timer_head s)) < fuel)%nat ->
  exists pc s' new, timer_round fuel n s = Some (pc, s') /\ round_done n s pc s' new.
Proof.
  revert s. induction fuel as [|fuel IH]; [lia|]. intros s Hok Ho Hn Hle Hlen.
  assert ((forall t, t ∈ g_timer_head s -> n < m_of s t) \/ exists t l, g_timer_head s = t :: l /\ m_of s t = n) as [Hlt|(t & l & El & Hmt)].
  { destruct (g_timer_head s) as [|t l] eqn:El; [left; intros t Ht; by apply elem_of_nil in Ht|].
    destruct (decide (m_of s t = n)) as [|Hne]; [right; by exists t, l|]. left. rewrite <- El in *. eapply none_due; [done|exact El|].
    specialize (Hle t). rewrite El in Hle. specialize (Hle ltac:(left)). lia. }
  { destruct (round_wait fuel n s) as (pc & E & Hr); [done..|]. by exists pc, s, []. }
  destruct (loop_fire n s t l) as (s2 & new & E & [Hok2 Ec _ Ecl He HA Ho2 Hd] & Ht); [done..|]. cbn [timer_round]. rewrite E. cbn [mbind option_bind].
  assert (on_time (set_g_timer_count n s)) as Ho1 by by apply on_time_count. specialize (Ho2 Ho1).
  assert (forall x, x ∈ g_timer_head s2 -> n <= m_of s2 x) as Hle2 by (intros x Hx; pose proof (proj2 Ho2 x Hx) as Hx'; by rewrite Ec in Hx').
  rewrite (dues_now n (set_g_timer_count n s)), (dues_now n s2) in Hd by done.
  assert (length (ids new) <> 0%nat) as Hne by (destruct (ids new); [by apply elem_of_nil in Ht|done]).
  pose proof (Permutation_length Hd) as Hl. rewrite length_app in Hl. cbn in Hl.
  destruct (IH s2 Hok2 Ho2 Hn Hle2) as (pc & s3 & new' & E3 & [R1 R2 R3 R4 R5 R6 R7 R8]).
  { change (filter (fun t0 => m_of (set_g_timer_count n s) t0 = n) (g_timer_head s)) with (filter (fun t0 => m_of s t0 = n) (g_timer_head s)) in Hl. lia. }
  exists pc, s3, (new ++ new'). split; [done|]. split; try done.
  - rewrite R3, Ecl. by rewrite <- app_assoc.
  - unfold ids in *. rewrite fmap_app, R4. exact Hd.
  - intros c [Hc|Hc]%elem_of_app; [|by apply R5]. destruct (He c Hc) as (kc & _ & _ & _ & ->). done.
  - unfold ids in *. rewrite fmap_app, foldl_app. rewrite R6, HA. done.
Qed.

(** ** The properties *)

(** C16: the timer task implements a map from timers to deadlines.  From a state where the list holds exactly the active
    timers, every step is defined and keeps that; a message starts, stops, changes or deletes its timer as the map says; and
    a callback is run with the argument of its timer, at most once per step and never before the deadline, which then moves
    on by the period or goes away. *)
Theorem timer_task_refines pc i s :
  tm_ok s -> input_ok pc i s ->
  exists pc' s', timer_task_step pc i s = Some (pc', s') /\
    step_refines (step_now pc i s) (step_msg pc i (step_now pc i s) (tabs s)) s s'.
Proof. apply timer_step_ok. Qed.

(** C17: when no timer is overdue, the inner loop at the tick [n] ends, having called exactly the timers whose deadline is
    [n], once each; then the task waits until the next deadline, still with no timer overdue. *)
Theorem timers_fire_on_time n s :
  tm_ok s -> on_time s -> 0 <= n < horizon -> (forall t, t ∈ g_timer_head s -> n <= m_of s t) ->
  exists pc s' new, timer_round (S (length (g_timer_head s))) n s = Some (pc, s') /\ round_done n s pc s' new.
Proof.
  intros Hok Ho Hn Hle. apply round_ok; [done..|]. pose proof (length_filter (fun t => m_of s t = n) (g_timer_head s)). lia.
Qed.


(** Three timers: every 5 ticks from tick 10 on, every 3 ticks from tick 10 on, and once at tick 11. *)
Definition new_timer (first round : Z) : ktimer_t :=
  mk_timer false 1 1 0 0 0 first round None RHINO_TIMER_OBJ_TYPE TIMER_DEACTIVE K_OBJ_STATIC_ALLOC.

Definition three_timers : tmstate :=
  mk_tm (<[1%nat := new_timer 10 5]> (<[2%nat := new_timer 10 3]> {[3%nat := new_timer 11 0]})) [] 0 [] [] [].

Definition start_msg (t : nat) : k_timer_queue_cb := mk_timer_cb t TIMER_CMD_START 0 u_none.



(** ** Examples *)

Lemma three_timers_ok : tm_ok three_timers.
Proof.
  split; cbn; [constructor| | |unfold horizon; lia].
  - intros t. split; [by intros ?%elem_of_nil|]. intros (k & Hk & Ha). cbn in Hk.
    rewrite !lookup_insert_Some, lookup_singleton_Some in Hk. destruct Hk as [[_ <-]|[_ [[_ <-]|[_ [_ <-]]]]]; done.
  - intros t k. rewrite !lookup_insert_Some, lookup_singleton_Some.
    intros [[_ <-]|[_ [[_ <-]|[_ [_ <-]]]]]; split; unfold horizon; cbn; (done || lia).
Qed.

Lemma timer_task_refines_witness : exists pc' s', timer_task_step PC_WAIT (In_recv RHINO_SUCCESS (start_msg 3) 4) three_timers = Some (pc', s') /\
  step_refines 4 (amsg 4 (start_msg 3) (tabs three_timers)) three_timers s'.
Proof.
  apply (timer_task_refines PC_WAIT (In_recv RHINO_SUCCESS (start_msg 3) 4) three_timers three_timers_ok).
  split; [unfold horizon; lia|]. split; [|done]. split; [by eexists|by split].
Defined.

(** Two timers running since tick 0. *)
Definition two_running : tmstate :=
  mk_tm (<[1%nat := armed 0 10 (new_timer 10 5)]> {[3%nat := armed 0 11 (new_timer 11 0)]}) [1; 3]%nat 0 [] [] [].

Lemma two_running_ok : tm_ok two_running /\ on_time two_running.
Proof.
  split; [split|split]; cbn.
  - by apply (bool_decide_unpack _).
  - intros t. unfold active. cbn. setoid_rewrite lookup_insert_Some. setoid_rewrite lookup_singleton_Some. split.
    + rewrite elem_of_cons, list_elem_of_singleton. intros [->| ->]; [exists (armed 0 10 (new_timer 10 5))|exists (armed 0 11 (new_timer 11 0))]; (split; [|done]); [by left|by right].
    + intros (k & [[<- _]|[_ [<- _]]] & _); set_solver.
  - intros t k. rewrite lookup_insert_Some, lookup_singleton_Some. intros [[_ <-]|[_ [_ <-]]]; split; unfold horizon; cbn; (done || lia).
  - unfold horizon. lia.
  - repeat constructor; by vm_compute.
  - intros t. rewrite elem_of_cons, list_elem_of_singleton. intros [->| ->]; by vm_compute.
Qed.

Lemma timers_fire_on_time_witness : exists pc s' new, timer_round 3 10 two_running = Some (pc, s') /\ round_done 10 two_running pc s' new.
Proof.
  destruct two_running_ok as [Hok Ho]. apply (timers_fire_on_time 10 two_running Hok Ho); [unfold horizon; lia|].
  intros t. cbn. rewrite elem_of_cons, list_elem_of_singleton. intros [->| ->]; by vm_compute.
Defined.
