(* ===== verification/TimerMsg.v ===== *)
(** * Timer commands on their way

    The calls of [k_timer.h] hand their command to the timer task through a buffer
    queue of the kernel. *)

From S2P Require Import Prelude KErr KState KMonad Sched Pend RingBuf KInv Inv Moves Create Boot BufQueue BufQueueSpec Timer.
Local Open Scope Z_scope.

(** The calls that send a command, and the command. *)
Inductive timer_call :=
  | TimerStart (t : nat)
  | TimerStop (t : nat)
  | TimerChange (t : nat) (first round : Z)
  | TimerArgChange (t : nat) (arg : Z)
  | TimerArgChangeAuto (t : nat) (arg : Z)
  | TimerDel (t : nat)
  | TimerDynDel (t : nat).

Definition call_cb (c : timer_call) : k_timer_queue_cb :=
  match c with
  | TimerStart t => mk_timer_cb t TIMER_CMD_START 0 u_none
  | TimerStop t => mk_timer_cb t TIMER_CMD_STOP 0 u_none
  | TimerChange t first round => mk_timer_cb t TIMER_CMD_CHG first (u_round round)
  | TimerArgChange t arg => mk_timer_cb t TIMER_ARG_CHG 0 (u_arg arg)
  | TimerArgChangeAuto t arg => mk_timer_cb t TIMER_ARG_CHG_AUTO 0 (u_arg arg)
  | TimerDel t => mk_timer_cb t TIMER_CMD_DEL 0 u_none
  | TimerDynDel t => mk_timer_cb t TIMER_CMD_DYN_DEL 0 u_none
  end.

(** The periods a call accepts. *)
Definition call_ok (c : timer_call) : bool :=
  match c with
  | TimerChange _ first round => negb (first =? 0) && (first <? MAX_TIMER_TICKS) && (round <? MAX_TIMER_TICKS)
  | _ => true
  end.

Section delivery.
Context `{CpuPort} `{TimerPort}.

Definition timer_exec (c : timer_call) : K kstat_t :=
  match c with
  | TimerStart t => krhino_timer_start (Some t)
  | TimerStop t => krhino_timer_stop (Some t)
  | TimerChange t first round => krhino_timer_change (Some t) first round
  | TimerArgChange t arg => krhino_timer_arg_change (Some t) arg
  | TimerArgChangeAuto t arg => krhino_timer_arg_change_auto (Some t) arg
  | TimerDel t => krhino_timer_del (Some t)
  | TimerDynDel t => krhino_timer_dyn_del (Some t)
  end.

Lemma timer_exec_send c s Q :
  (call_ok c = true -> wp (timer_send (call_cb c)) Q s) -> (call_ok c = false -> Q RHINO_INV_PARAM s) -> wp (timer_exec c) Q s.
Proof.
  intros Hs Hr. destruct c as [| |t first round| | | |]; try by apply Hs. cbn [timer_exec] in *. unfold krhino_timer_change. cbn [NULL_PARA_CHK] in *.
  cbn [call_ok] in *. destruct (first =? 0); cbn [negb andb] in *; [by apply Hr|].
  rewrite !Z.ltb_antisym in *. destruct (MAX_TIMER_TICKS <=? first); cbn [negb andb] in *; [by apply Hr|].
  destruct (MAX_TIMER_TICKS <=? round); cbn [negb andb] in *; [by apply Hr|by apply Hs].
Qed.

(** The queue as [ktimer_init] creates it: blocks of the size of a command. *)
Definition cmd_queue (a : abufq) : Prop :=
  ab_max a = sizeof_k_timer_queue_cb /\ f_blk (ab_fifo a) = sizeof_k_timer_queue_cb /\
  0 < sizeof_k_timer_queue_cb <= RINGBUF_LEN_3BYTES_MAXVALUE.

(** What a call has done with its command. *)
Definition delivered (a : abufq) (cb : k_timer_queue_cb) (s : kstate) (r : kstat_t) (s' : kstate) : Prop :=
  match ab_wait a with
  | t :: l => r = RHINO_SUCCESS /\ bufq_rel s' g_timer_queue (Some (ab_set_wait l a)) /\ released BLK_FINISH s s' t /\
      forall k, tasks s !! t = Some k -> exists buf, bytes s' !! msg k = Some buf /\
        cb_of (take (Z.to_nat sizeof_k_timer_queue_cb) buf) = cb
  | [] =>
      if f_free (ab_fifo a) <? f_size (ab_fifo a) (cb_bytes cb)
      then r = RHINO_BUF_QUEUE_FULL /\ bufq_rel s' g_timer_queue (Some a)
      else r = RHINO_SUCCESS /\ bufq_rel s' g_timer_queue (Some (ab_set_fifo (snd (fifo_step (ab_fifo a) (OpPush (cb_bytes cb)))) a))
  end.

Lemma timer_send_wp cb a s :
  Inv s -> bufq_rel s g_timer_queue (Some a) -> cmd_queue a ->
  wp (timer_send cb) (fun r s' => Inv s' /\ irq_off s' = irq_off s /\ delivered a cb s r s') s.
Proof.
  intros HI Hq (Hm & Hb & Hz). pose proof (cb_bytes_length cb) as Hlen. unfold timer_send. rewrite <- Hlen.
  eapply wp_mono; [apply (bufq_send_spec _ _ _ _ HI Hq); left|].
  { unfold f_accepts. rewrite Hlen, Hb, Z.eqb_refl, orb_true_r. rewrite (proj2 (Z.ltb_lt _ _)), (proj2 (Z.leb_le _ _)) by lia. done. }
  intros r s' (HI' & Hirq & Er & Hq' & _ & Hgo). split; [done|]. split; [done|]. unfold ab_run, ab_step in *. cbn [ab_in_intrpt negb] in *.
  rewrite andb_false_r in *. unfold ab_send in *. rewrite Hlen, Hm in *. rewrite Z.ltb_irrefl, (proj2 (Z.eqb_neq sizeof_k_timer_queue_cb 0)) in * by lia.
  unfold delivered. destruct (ab_wait a) as [|t l].
  - destruct (_ <? _); injection Er as ->; by split.
  - injection Er as ->. cbn [br_queue br_released] in *. apply Forall_cons in Hgo as [(Hrel & _ & Hh) _]. split_and!; [done..|].
    intros k Hk. destruct (Hh k Hk) as (rest & E). exists (cb_bytes cb ++ rest). split; [done|].
    rewrite take_app_length' by lia. apply cb_of_bytes.
Qed.

(** C18: a timer call with valid periods hands its command to the timer task: if the task waits on the queue, it becomes
    ready and finds the very command in its buffer; otherwise the command is appended to the queue, or refused when the queue
    is full.  The kernel invariant is kept. *)
Theorem timer_call_delivers c a s :
  Inv s -> bufq_rel s g_timer_queue (Some a) -> cmd_queue a ->
  wp (timer_exec c) (fun r s' => Inv s' /\ irq_off s' = irq_off s /\
    if call_ok c then delivered a (call_cb c) s r s' else r = RHINO_INV_PARAM /\ s' = s) s.
Proof. intros HI Hq Ha. apply timer_exec_send; intros ->; [by apply timer_send_wp|done]. Qed.

End delivery.

(** ** An example *)

(** A layout of five cells. *)
Definition demo_bytes (cb : k_timer_queue_cb) : list Z :=
  let u := match cb_u cb with u_none => (0, 0) | u_round r => (1, r) | u_arg a => (2, a) end in
  [Z.of_nat (cb_timer cb); cb_num cb; cb_first cb; u.1; u.2].

Definition demo_of (l : list Z) : k_timer_queue_cb :=
  match l with
  | [t; num; first; tag; x] =>
      mk_timer_cb (Z.to_nat t) num first (if tag =? 0 then u_none else if tag =? 1 then u_round x else u_arg x)
  | _ => mk_timer_cb 0 0 0 u_none
  end.

#[local] Instance demo_timer_port : TimerPort.
Proof.
  refine (Build_TimerPort 1%nat 2%nat (0, replicate 20 0) 5 64 demo_bytes demo_of _ _ _); [lia|done|].
  intros [t num first u]. destruct u; unfold demo_bytes, demo_of; cbn; by rewrite Nat2Z.id.
Defined.

Lemma timer_call_delivers_witness :
  let d := demo_with (NewFixBufQueue (0, replicate 20 0) 5 4) in
  let a := mk_abufq (mk_fifo 20 RINGBUF_TYPE_FIX 5 []) 5 [] true in
  bufq_rel d 1%nat (Some a) /\
  wp (timer_exec (TimerChange 7 10 5)) (fun r s' => Inv s' /\ irq_off s' = irq_off d /\
    delivered a (mk_timer_cb 7 TIMER_CMD_CHG 10 (u_round 5)) d r s') d.
Proof.
  intros d a. destruct (demo_with_inv (NewFixBufQueue (0, replicate 20 0) 5 4)) as [HI (q & Hq & Hs & Hr)]; [by vm_compute|].
  assert (bufq_rel d g_timer_queue (Some a)) as Hrel.
  { eexists. split; [by vm_compute|]. split_and!; [done..|]. exists q. split_and!; [exact Hq|exact Hr|by rewrite Hs|].
    pose proof (f_equal (fmap bq_mm_flag) Hq) as E. vm_compute in E. injection E as E. symmetry. apply Z.eqb_eq. symmetry. exact E. }
  split; [exact Hrel|]. apply (timer_call_delivers (TimerChange 7 10 5) a d HI Hrel). by vm_compute.
Defined.
