(* ===== verification/WorkQueue.v ===== *)
(** * Work queues ([rhino/core/k_workqueue.c])

    A work queue is a list of works, a semaphore that counts them and a worker task
    that takes and runs them.  The critical sections are functions on the state of
    the work queues; the calls compose them with the semaphores, timers and tasks of
    the kernel. *)

From S2P Require Import Prelude KErr KState KMonad Sched Pend Sem Task KSys Mem Mm Dyn Timer.
Local Open Scope Z_scope.

(** [work_node] is represented by the lists it is on. *)
Record kwork_t := mk_work {
  handle : Z;
  work_arg : Z;
  dly : Z;
  work_timer : option Z;
  work_wq : option nat;
  work_exit : Z
}.

Definition set_work_timer (v : option Z) (w : kwork_t) : kwork_t := mk_work (handle w) (work_arg w) (dly w) v (work_wq w) (work_exit w).

Definition set_work_wq (v : option nat) (w : kwork_t) : kwork_t := mk_work (handle w) (work_arg w) (dly w) (work_timer w) v (work_exit w).

Definition set_work_exit (v : Z) (w : kwork_t) : kwork_t := mk_work (handle w) (work_arg w) (dly w) (work_timer w) (work_wq w) v.

Record kworkqueue_t := mk_workqueue {
  work_list : list nat;
  work_current : option nat;
  workqueue_name : Z
}.

Definition set_work_list (v : list nat) (q : kworkqueue_t) : kworkqueue_t := mk_workqueue v (work_current q) (workqueue_name q).

Definition set_work_current (v : option nat) (q : kworkqueue_t) : kworkqueue_t := mk_workqueue (work_list q) v (workqueue_name q).

(** The works and work queues in memory, [g_workqueue_list_head], and the works run so far: the queue, the work,
    the function and its argument. *)
Record wstate := mk_wstate {
  works : gmap nat kwork_t;
  workqueues : gmap nat kworkqueue_t;
  g_workqueue_list_head : list nat;
  work_runs : list (nat * nat * Z * Z)
}.

Definition set_works (v : gmap nat kwork_t) (s : wstate) : wstate := mk_wstate v (workqueues s) (g_workqueue_list_head s) (work_runs s).

Definition set_workqueues (v : gmap nat kworkqueue_t) (s : wstate) : wstate := mk_wstate (works s) v (g_workqueue_list_head s) (work_runs s).

Definition set_g_workqueue_list_head (v : list nat) (s : wstate) : wstate := mk_wstate (works s) (workqueues s) v (work_runs s).

Definition upd_work (w : nat) (f : kwork_t -> kwork_t) (s : wstate) : option wstate :=
  k ← works s !! w; Some (set_works (<[w := f k]> (works s)) s).

Definition upd_wq (q : nat) (f : kworkqueue_t -> kworkqueue_t) (s : wstate) : option wstate :=
  k ← workqueues s !! q; Some (set_workqueues (<[q := f k]> (workqueues s)) s).

(** [klist_rm_init(&work->work_node)]: the node leaves the list it is on, if any. *)
Definition work_unlink (w : nat) (s : wstate) : wstate :=
  set_workqueues ((fun q => set_work_list (list_rm w (work_list q)) q) <$> workqueues s) s.

(** ** Critical sections *)

(** Putting the work [w] on the queue [q], in [krhino_work_run] and in [work_timer_cb]. *)
Definition queue_work (q w : nat) (s : wstate) : option (kstat_t * wstate) :=
  kq ← workqueues s !! q;
  kw ← works s !! w;
  if bool_decide (work_current kq = Some w) then Some (RHINO_WORKQUEUE_WORK_RUNNING, s)
  else if work_exit kw =? 1 then Some (RHINO_WORKQUEUE_WORK_EXIST, s)
  else
    s ← upd_wq q (fun kq => set_work_list (work_list kq ++ [w]) kq) (work_unlink w s);
    s ← upd_work w (fun kw => set_work_exit 1 (set_work_wq (Some q) kw)) s;
    Some (RHINO_SUCCESS, s).

(** The worker takes the first work; without one it would take the head of the list for a work. *)
Definition worker_get (q : nat) (s : wstate) : option wstate :=
  kq ← workqueues s !! q;
  match work_list kq with
  | [] => None
  | w :: _ =>
      s ← upd_wq q (set_work_current (Some w)) (work_unlink w s);
      upd_work w (set_work_exit 0) s
  end.

(** [work->handle(work->arg)]. *)
Definition worker_call (q : nat) (s : wstate) : option wstate :=
  kq ← workqueues s !! q;
  w ← work_current kq;
  kw ← works s !! w;
  Some (mk_wstate (works s) (workqueues s) (g_workqueue_list_head s) (work_runs s ++ [(q, w, handle kw, work_arg kw)])).

Definition worker_done (q : nat) (s : wstate) : option wstate := upd_wq q (set_work_current None) s.

(** The part of [krhino_work_cancel] for a work that has been on the queue [q]. *)
Definition cancel_work (q w : nat) (s : wstate) : option (kstat_t * wstate) :=
  kq ← workqueues s !! q;
  kw ← works s !! w;
  if bool_decide (work_current kq = Some w) then Some (RHINO_WORKQUEUE_WORK_RUNNING, s)
  else if work_exit kw =? 1 then Some (RHINO_WORKQUEUE_WORK_EXIST, s)
  else
    s ← upd_work w (set_work_wq None) (work_unlink w s);
    Some (RHINO_SUCCESS, s).

Definition workqueue_is_exist (q : nat) (s : wstate) : kstat_t :=
  if decide (q ∈ g_workqueue_list_head s) then RHINO_WORKQUEUE_EXIST else RHINO_WORKQUEUE_NOT_EXIST.

(** ** The calls *)

(** The work queues beside the timers, the kernel and the heap. *)
Record wdstate := mk_wd {
  wd_td : tdstate;
  wd_wq : wstate
}.

Definition WD (A : Type) : Type := wdstate -> option (A * wdstate).

#[global] Instance WD_ret : MRet WD := fun A a d => Some (a, d).
#[global] Instance WD_bind : MBind WD := fun A B f m d =>
  match m d with Some (a, d') => f a d' | None => None end.
#[global] Typeclasses Opaque WD.

Definition inTD {A} (m : TD A) : WD A := fun d =>
  match m (wd_td d) with Some (a, d') => Some (a, mk_wd d' (wd_wq d)) | None => None end.

Definition inKern {A} (m : K A) : WD A := inTD (inD (inK m)).

Definition inW (f : wstate -> option wstate) : WD unit := fun d =>
  match f (wd_wq d) with Some s => Some (tt, mk_wd (wd_td d) s) | None => None end.

Definition inWr {A} (f : wstate -> option (A * wstate)) : WD A := fun d =>
  match f (wd_wq d) with Some (a, s) => Some (a, mk_wd (wd_td d) s) | None => None end.

Definition getW {A} (f : wstate -> option A) : WD A := fun d => a ← f (wd_wq d); Some (a, d).

(** Where the parts of a work queue and the default queue are, and the address of [work_timer_cb]. *)
Class WorkPort := {
  wq_sem : nat -> oid;
  wq_worker : nat -> tid;
  g_workqueue_default : nat;
  work_timer_cb_addr : Z
}.

Section calls.
Context `{CpuPort} `{TimerPort} `{WorkPort}.

(** A critical section of the work queues. *)
Definition critical {A} (f : wstate -> option (A * wstate)) : WD A :=
  cpsr ← inKern RHINO_CRITICAL_ENTER;
  a ← inWr f;
  inKern (RHINO_CRITICAL_EXIT cpsr);;
  mret a.

Definition krhino_workqueue_create (workqueue : option nat) (name : option Z) (pri : Z) (stack_buf : option Z)
    (stack_size : Z) : WD kstat_t :=
  match workqueue, name, stack_buf with
  | Some q, Some name, Some stack_buf =>
      if RHINO_CONFIG_PRI_MAX <=? pri then mret RHINO_BEYOND_MAX_PRI
      else if stack_size =? 0 then mret RHINO_TASK_INV_STACK_SIZE
      else
      ret ← critical (fun s => Some (workqueue_is_exist q s, s));
      if bool_decide (ret = RHINO_WORKQUEUE_EXIST) then mret RHINO_WORKQUEUE_EXIST
      else
        inW (fun s => Some (set_workqueues (<[q := mk_workqueue [] None name]> (workqueues s)) s));;
        ret ← inKern (krhino_sem_create (Some (wq_sem q)) static_addr 0);
        if negb (bool_decide (ret = RHINO_SUCCESS)) then mret ret
        else
          critical (fun s => Some (tt, set_g_workqueue_list_head (g_workqueue_list_head s ++ [q]) s));;
          ret ← inKern (krhino_task_create (Some (wq_worker q)) (Some name) (Z.of_nat q) pri 0 (Some stack_buf) stack_size
                          static_addr 1);
          if negb (bool_decide (ret = RHINO_SUCCESS)) then
            critical (fun s => Some (tt, set_g_workqueue_list_head (list_rm q (g_workqueue_list_head s)) s));;
            inKern (krhino_sem_del (Some (wq_sem q)));;
            mret ret
          else mret RHINO_SUCCESS
  | _, _, _ => mret RHINO_NULL_PTR
  end.

(** Run by the timer task: [timer->priv] is the work, the argument the queue. *)
Definition work_timer_cb (timer : nat) (arg : nat) : WD unit :=
  tm ← inTD (fun d => Some (td_tm d, d));
  k ← getW (fun _ => timers tm !! timer);
  w ← getW (fun _ => priv k);
  ret ← critical (queue_work arg (Z.to_nat w));
  if negb (bool_decide (ret = RHINO_SUCCESS)) then mret tt
  else
    inKern (krhino_sem_give (Some (wq_sem arg)));;
    mret tt.

Definition krhino_work_init (work : option nat) (handle : option Z) (arg dly : Z) : WD kstat_t :=
  match work, handle with
  | Some w, Some handle =>
      inW (fun s => Some (set_works (<[w := mk_work handle arg dly None None 0]> (works s)) s));;
      if 0 <? dly then
        r ← inTD (krhino_timer_dyn_create (Some (Z.of_nat w)) static_addr (Some work_timer_cb_addr) dly 0 (Z.of_nat w) 0);
        match r.2 with
        | Some p => inW (upd_work w (set_work_timer (Some p)))
        | None => mret tt
        end;;
        mret r.1
      else mret RHINO_SUCCESS
  | _, _ => mret RHINO_NULL_PTR
  end.

Definition krhino_work_run (workqueue work : option nat) : WD kstat_t :=
  match workqueue, work with
  | Some q, Some w =>
      kw ← getW (fun s => works s !! w);
      if dly kw =? 0 then
        ret ← critical (queue_work q w);
        if negb (bool_decide (ret = RHINO_SUCCESS)) then mret ret
        else inKern (krhino_sem_give (Some (wq_sem q)))
      else
        p ← getW (fun _ => work_timer kw);
        inTD (inT (upd_timer (at_addr p) (set_priv (Some (Z.of_nat w)))));;
        inKern (krhino_timer_arg_change_auto (Some (at_addr p)) (Z.of_nat q))
  | _, _ => mret RHINO_NULL_PTR
  end.

Definition krhino_work_sched (work : option nat) : WD kstat_t := krhino_work_run (Some g_workqueue_default) work.

Definition krhino_work_cancel (work : option nat) : WD kstat_t :=
  match work with
  | None => mret RHINO_NULL_PTR
  | Some w =>
      kw ← getW (fun s => works s !! w);
      match work_wq kw with
      | None =>
          (if 0 <? dly kw then
             r ← inKern (krhino_timer_stop (at_addr <$> work_timer kw)); mret tt
           else mret tt);;
          mret RHINO_SUCCESS
      | Some q => critical (cancel_work q w)
      end
  end.

(** [worker_task] from a return of [krhino_sem_take] with [ret] to the next call of it. *)
Definition worker_task (q : nat) (ret : kstat_t) : WD unit :=
  (if negb (bool_decide (ret = RHINO_SUCCESS)) then inKern (k_err_proc ret) else mret tt);;
  critical (fun s => s ← worker_get q s; Some (tt, s));;
  inW (worker_call q);;
  critical (fun s => s ← worker_done q s; Some (tt, s)).

Definition RHINO_CONFIG_WORKQUEUE_TASK_PRIO : Z := 20.

Definition RHINO_CONFIG_WORKQUEUE_STACK_SIZE : Z := 512.

Definition workqueue_init : WD unit :=
  inW (fun s => Some (set_g_workqueue_list_head [] s));;
  krhino_workqueue_create (Some g_workqueue_default) static_addr RHINO_CONFIG_WORKQUEUE_TASK_PRIO static_addr
    RHINO_CONFIG_WORKQUEUE_STACK_SIZE;;
  mret tt.

End calls.
