(* ===== verification/WorkSpec.v ===== *)
(** * Work queues: the properties

    The critical sections of the callers, of the timer callback and of the workers
    interleave in any order, and with the gives and takes of the semaphores, which
    are those of the abstract counting semaphore that the kernel's refine.  Whatever
    the order, a worker that has taken the semaphore finds a work, each work queued
    is run once and in order, and no wake-up is lost. *)

From S2P Require Import Prelude KErr KState KMonad Sched Pend Sem Inv KInv Boot SemSpec Mem Dyn Timer TimerMsg WorkQueue.
Local Open Scope Z_scope.

(** ** The interleaved system *)

(** Where a worker is: in or before [krhino_sem_take], past it, past its first critical section, past the function
    of the work. *)
Inductive wphase :=
  | WTake
  | WGet
  | WCall
  | WRun.

(** [cgive]: the queues for which a work has been listed and the semaphore is still to be given; [cqueued] and [ctaken]:
    the works put on and taken from the queues so far, in order. *)
Record csys := mk_csys {
  cw : wstate;
  csem : gmap nat asem;
  cphase : gmap nat wphase;
  cgive : list nat;
  cqueued : list (nat * nat);
  ctaken : list (nat * nat)
}.

Section system.
Context (max : Z) (worker : nat -> tid) (pri : tid -> Z).

Inductive cstep (c : csys) : csys -> Prop :=
| st_queue q w s' :
    queue_work q w (cw c) = Some (RHINO_SUCCESS, s') ->
    cstep c (mk_csys s' (csem c) (cphase c) (q :: cgive c) (cqueued c ++ [(q, w)]) (ctaken c))
| st_refused q w r s' :
    queue_work q w (cw c) = Some (r, s') -> r <> RHINO_SUCCESS ->
    cstep c (mk_csys s' (csem c) (cphase c) (cgive c) (cqueued c) (ctaken c))
| st_give q l1 l2 a a' :
    cgive c = l1 ++ q :: l2 -> csem c !! q = Some a -> ar_sem (as_give max false a) = Some a' ->
    cstep c (mk_csys (cw c) (<[q := a']> (csem c))
               (match ar_released (as_give max false a) with [] => cphase c | _ => <[q := WGet]> (cphase c) end)
               (l1 ++ l2) (cqueued c) (ctaken c))
| st_take q a a' :
    cphase c !! q = Some WTake -> csem c !! q = Some a -> as_wait a = [] ->
    ar_sem (as_take pri (worker q) RHINO_WAIT_FOREVER false a) = Some a' ->
    cstep c (mk_csys (cw c) (<[q := a']> (csem c))
               (match ar_ret (as_take pri (worker q) RHINO_WAIT_FOREVER false a) with Blocked => cphase c | Ret _ => <[q := WGet]> (cphase c) end)
               (cgive c) (cqueued c) (ctaken c))
| st_get q kq w s' :
    cphase c !! q = Some WGet -> workqueues (cw c) !! q = Some kq -> head (work_list kq) = Some w -> worker_get q (cw c) = Some s' ->
    cstep c (mk_csys s' (csem c) (<[q := WCall]> (cphase c)) (cgive c) (cqueued c) (ctaken c ++ [(q, w)]))
| st_call q s' :
    cphase c !! q = Some WCall -> worker_call q (cw c) = Some s' ->
    cstep c (mk_csys s' (csem c) (<[q := WRun]> (cphase c)) (cgive c) (cqueued c) (ctaken c))
| st_done q s' :
    cphase c !! q = Some WRun -> worker_done q (cw c) = Some s' ->
    cstep c (mk_csys s' (csem c) (<[q := WTake]> (cphase c)) (cgive c) (cqueued c) (ctaken c))
| st_cancel q w r s' :
    cancel_work q w (cw c) = Some (r, s') ->
    cstep c (mk_csys s' (csem c) (cphase c) (cgive c) (cqueued c) (ctaken c)).

(** Queues just created and works just initialised. *)
Record cinit (c : csys) : Prop := {
  ci_wqs q kq : workqueues (cw c) !! q = Some kq -> work_list kq = [] /\ work_current kq = None /\ csem c !! q = Some (mk_asem 0 [] true) /\
    cphase c !! q = Some WTake;
  ci_works w kw : works (cw c) !! w = Some kw -> work_exit kw = 0;
  ci_logs : work_runs (cw c) = [] /\ cgive c = [] /\ cqueued c = [] /\ ctaken c = [];
  ci_room : Z.of_nat (size (works (cw c))) <= max;
  ci_phase q ph : cphase c !! q = Some ph -> is_Some (workqueues (cw c) !! q)
}.

Inductive creach : csys -> Prop :=
| cr_init c : cinit c -> creach c
| cr_step c c' : creach c -> cstep c c' -> creach c'.

(** ** The invariant *)

(** The events of the queue [q]. *)
Definition evs (q : nat) (l : list (nat * nat)) : list nat := (filter (fun e => e.1 = q) l).*2.

Definition runs (s : wstate) : list (nat * nat) := (fun r => r.1.1) <$> work_runs s.

Definition gives (q : nat) (l : list nat) : nat := length (filter (fun x => x = q) l).

#[local] Arguments evs : simpl never.
#[local] Arguments gives : simpl never.

Definition got (ph : wphase) : nat := match ph with WGet => 1 | _ => 0 end.

(** One queue, its semaphore and its worker. *)
Record q_ok (c : csys) (q : nat) (kq : kworkqueue_t) (a : asem) (ph : wphase) : Prop := {
  qo_nodup : NoDup (work_list kq);
  qo_works w : w ∈ work_list kq -> exists kw, works (cw c) !! w = Some kw /\ work_exit kw = 1 /\ work_wq kw = Some q;
  qo_tokens : as_count a + Z.of_nat (gives q (cgive c)) + Z.of_nat (got ph) = Z.of_nat (length (work_list kq));
  qo_count : 0 <= as_count a;
  qo_wait : as_wait a = [] \/ as_wait a = [worker q] /\ as_count a = 0 /\ ph = WTake;
  qo_fifo : evs q (cqueued c) = evs q (ctaken c) ++ work_list kq;
  qo_current : match ph with
               | WTake | WGet => work_current kq = None /\ evs q (ctaken c) = evs q (runs (cw c))
               | WCall => exists w, work_current kq = Some w /\ is_Some (works (cw c) !! w) /\ evs q (ctaken c) = evs q (runs (cw c)) ++ [w]
               | WRun => (exists w, work_current kq = Some w) /\ evs q (ctaken c) = evs q (runs (cw c))
               end
}.

Record c_ok (c : csys) : Prop := {
  co_q q kq : workqueues (cw c) !! q = Some kq -> exists a ph, csem c !! q = Some a /\ cphase c !! q = Some ph /\ q_ok c q kq a ph;
  co_room : Z.of_nat (size (works (cw c))) <= max;
  co_phase q ph : cphase c !! q = Some ph -> is_Some (workqueues (cw c) !! q);
  co_give q : q ∈ cgive c -> is_Some (workqueues (cw c) !! q)
}.

Lemma c_ok_init c : cinit c -> c_ok c.
Proof.
  intros [Hq Hw (Hr & Hg & Hqd & Ht) Hroom Hp]. split; [|done|done|].
  - intros q kq Hkq. destruct (Hq q kq Hkq) as (El & Ec & Es & Ep). eexists _, _. split; [done|]. split; [done|].
    split; rewrite ?El, ?Hg, ?Hqd, ?Ht; unfold runs; rewrite ?Hr; try done; [constructor|by intros w ?%elem_of_nil|by left].
  - intros q. rewrite Hg. by intros ?%elem_of_nil.
Qed.

(** ** Lists and works *)

Lemma unlink_notin w s : (forall q kq, workqueues s !! q = Some kq -> w ∉ work_list kq) -> work_unlink w s = s.
Proof.
  intros Hn. unfold work_unlink. destruct s as [ws qs l r]. unfold set_workqueues. cbn in *. f_equal.
  rewrite <- (map_fmap_id qs) at 2. apply map_fmap_ext. intros q kq Hkq. cbn. rewrite list_rm_notin by (by eapply Hn). by destruct kq.
Qed.

(** A work that is on a list is marked, and is on no other. *)
Lemma listed_once c q kq w :
  c_ok c -> workqueues (cw c) !! q = Some kq -> w ∈ work_list kq ->
  exists kw, works (cw c) !! w = Some kw /\ work_exit kw = 1 /\ work_wq kw = Some q.
Proof. intros Hc Hkq Hw. destruct (co_q c Hc q kq Hkq) as (a & ph & _ & _ & Ho). by apply (qo_works _ _ _ _ _ Ho). Qed.

Lemma unlink_free c w kw : c_ok c -> works (cw c) !! w = Some kw -> work_exit kw <> 1 -> work_unlink w (cw c) = cw c.
Proof.
  intros Hc Hkw Hne. apply unlink_notin. intros q kq Hkq Hw. destruct (listed_once c q kq w Hc Hkq Hw) as (kw' & ? & ? & _). congruence.
Qed.

Lemma unlink_first c q kq w l :
  c_ok c -> workqueues (cw c) !! q = Some kq -> work_list kq = w :: l ->
  work_unlink w (cw c) = set_workqueues (<[q := set_work_list l kq]> (workqueues (cw c))) (cw c).
Proof.
  intros Hc Hkq El. unfold work_unlink. f_equal. apply map_eq. intros q'. rewrite lookup_fmap. destruct (decide (q' = q)) as [->|Hne].
  - rewrite lookup_insert_eq, Hkq. cbn. destruct (co_q c Hc q kq Hkq) as (a & ph & _ & _ & Ho). pose proof (qo_nodup _ _ _ _ _ Ho) as Hnd.
    rewrite El in *. apply NoDup_cons in Hnd as [Hn _]. f_equal. unfold set_work_list. f_equal. unfold list_rm. rewrite filter_cons_False by (intros Hx; by apply Hx).
    by apply list_rm_notin.
  - rewrite lookup_insert_ne by done. destruct (workqueues (cw c) !! q') as [kq'|] eqn:E; [|done]. cbn. f_equal. rewrite list_rm_notin; [by destruct kq'|].
    intros Hw. destruct (listed_once c q' kq' w Hc E Hw) as (kw & Hkw & _ & Hq'). destruct (listed_once c q kq w Hc Hkq) as (kw2 & Hkw2 & _ & Hq).
    { rewrite El. left. } congruence.
Qed.

Lemma queue_work_eq c q w s' :
  c_ok c -> queue_work q w (cw c) = Some (RHINO_SUCCESS, s') ->
  exists kq kw, workqueues (cw c) !! q = Some kq /\ works (cw c) !! w = Some kw /\ work_exit kw <> 1 /\ work_current kq <> Some w /\
    s' = mk_wstate (<[w := set_work_exit 1 (set_work_wq (Some q) kw)]> (works (cw c)))
           (<[q := set_work_list (work_list kq ++ [w]) kq]> (workqueues (cw c))) (g_workqueue_list_head (cw c)) (work_runs (cw c)).
Proof.
  intros Hc. unfold queue_work. destruct (workqueues (cw c) !! q) as [kq|] eqn:Hkq; [|done]. cbn.
  destruct (works (cw c) !! w) as [kw|] eqn:Hkw; [|done]. cbn. destruct (bool_decide_reflect (work_current kq = Some w)) as [|Hcur]; [done|].
  destruct (Z.eqb_spec (work_exit kw) 1) as [|Hne]; [done|]. rewrite (unlink_free c w kw Hc Hkw Hne). unfold upd_wq. rewrite Hkq. cbn.
  unfold upd_work. cbn. rewrite Hkw. cbn. intros [= <-]. by exists kq, kw.
Qed.

Lemma queue_work_refused q w s r s' : queue_work q w s = Some (r, s') -> r <> RHINO_SUCCESS -> s' = s.
Proof.
  unfold queue_work. destruct (workqueues s !! q) as [kq|]; [|done]. cbn. destruct (works s !! w) as [kw|]; [|done]. cbn.
  case_match; [by intros [= _ <-]|]. case_match; [by intros [= _ <-]|]. destruct (upd_wq _ _ _) as [s1|]; [|done]. cbn.
  destruct (upd_work _ _ _) as [s2|]; [|done]. cbn. by intros [= <- _].
Qed.

Lemma worker_get_eq c q kq w s' :
  c_ok c -> workqueues (cw c) !! q = Some kq -> head (work_list kq) = Some w -> worker_get q (cw c) = Some s' ->
  exists l kw, work_list kq = w :: l /\ works (cw c) !! w = Some kw /\
    s' = mk_wstate (<[w := set_work_exit 0 kw]> (works (cw c)))
           (<[q := set_work_current (Some w) (set_work_list l kq)]> (workqueues (cw c))) (g_workqueue_list_head (cw c)) (work_runs (cw c)).
Proof.
  intros Hc Hkq Hh. unfold worker_get. rewrite Hkq. cbn. destruct (work_list kq) as [|w' l] eqn:El; [done|]. injection Hh as ->.
  destruct (listed_once c q kq w Hc Hkq) as (kw & Hkw & _ & _); [rewrite El; left|]. unfold upd_wq.
  rewrite (unlink_first c q kq w l Hc Hkq El). cbn. rewrite lookup_insert_eq. cbn. unfold upd_work. cbn. rewrite Hkw. cbn. intros [= <-].
  exists l, kw. split_and!; try done. unfold set_works, set_workqueues. cbn. f_equal. by rewrite insert_insert_eq.
Qed.

(** A worker that has taken the semaphore finds a work. *)
Lemma worker_get_defined c q : c_ok c -> cphase c !! q = Some WGet -> is_Some (worker_get q (cw c)).
Proof.
  intros Hc Hp. destruct (co_phase c Hc q WGet Hp) as [kq Hkq]. destruct (co_q c Hc q kq Hkq) as (a & ph & Ha & Hp' & Ho).
  assert (ph = WGet) as -> by congruence. pose proof (qo_tokens _ _ _ _ _ Ho) as Ht. pose proof (qo_count _ _ _ _ _ Ho) as Hn. cbn in Ht.
  unfold worker_get. rewrite Hkq. cbn. destruct (work_list kq) as [|w l] eqn:El; [cbn in Ht; lia|].
  destruct (listed_once c q kq w Hc Hkq) as (kw & Hkw & _ & _); [rewrite El; left|]. unfold upd_wq.
  rewrite (unlink_first c q kq w l Hc Hkq El). cbn. rewrite lookup_insert_eq. cbn. unfold upd_work. cbn. rewrite Hkw. by eexists.
Qed.

(** ** Every step keeps it *)

Lemma evs_snoc q q' w l : evs q (l ++ [(q', w)]) = evs q l ++ (if decide (q' = q) then [w] else []).
Proof. unfold evs. rewrite filter_app, fmap_app. f_equal. by rewrite filter_cons; cbn; destruct (decide (q' = q)). Qed.

Lemma gives_cons q q' l : gives q (q' :: l) = ((if decide (q' = q) then 1 else 0) + gives q l)%nat.
Proof. unfold gives. rewrite filter_cons. by destruct (decide (q' = q)). Qed.

Lemma gives_middle q q' l1 l2 : gives q (l1 ++ q' :: l2) = ((if decide (q' = q) then 1 else 0) + gives q (l1 ++ l2))%nat.
Proof. unfold gives. rewrite !filter_app, filter_cons. destruct (decide (q' = q)); rewrite !length_app; cbn; lia. Qed.

(** What a step leaves as it was for the queue [q]. *)
Record q_same (c c' : csys) (q : nat) (l : list nat) : Prop := {
  qs_works w : w ∈ l -> works (cw c') !! w = works (cw c) !! w;
  qs_dom w : is_Some (works (cw c) !! w) -> is_Some (works (cw c') !! w);
  qs_gives : gives q (cgive c') = gives q (cgive c);
  qs_queued : evs q (cqueued c') = evs q (cqueued c);
  qs_taken : evs q (ctaken c') = evs q (ctaken c);
  qs_runs : evs q (runs (cw c')) = evs q (runs (cw c))
}.

Lemma q_ok_same c c' q kq a ph : q_ok c q kq a ph -> q_same c c' q (work_list kq) -> q_ok c' q kq a ph.
Proof.
  intros [Hn Hw Ht Hc Hwt Hf Hcur] [Sw Sd Sg Sq St Sr]. split; rewrite ?Sg, ?Sq, ?St, ?Sr; try done.
  - intros w Hin. rewrite Sw by done. by apply Hw.
  - destruct ph; try done. destruct Hcur as (w & Hk & Hs & He). exists w. split_and!; try done. by apply Sd.
Qed.

(** The works listed are works, each once: there is room for their tokens. *)
Lemma listed_room c q kq : c_ok c -> workqueues (cw c) !! q = Some kq -> Z.of_nat (length (work_list kq)) <= max.
Proof.
  intros Hc Hkq. destruct (co_q c Hc q kq Hkq) as (a & ph & _ & _ & Ho). pose proof (co_room c Hc).
  enough (length (work_list kq) <= size (works (cw c)))%nat by lia. rewrite <- (size_dom (D := gset nat)).
  rewrite <- (size_list_to_set (C := gset nat)) by apply (qo_nodup _ _ _ _ _ Ho). apply subseteq_size. intros w Hw%elem_of_list_to_set.
  destruct (qo_works _ _ _ _ _ Ho w Hw) as (kw & Hkw & _). by apply elem_of_dom.
Qed.

(** A step that changes only the queue [q] and what goes with it. *)
Lemma c_ok_at c c' q kq' a ph :
  c_ok c -> is_Some (workqueues (cw c) !! q) ->
  workqueues (cw c') = <[q := kq']> (workqueues (cw c)) -> csem c' = <[q := a]> (csem c) -> cphase c' = <[q := ph]> (cphase c) ->
  size (works (cw c')) = size (works (cw c)) -> (forall x, x ∈ cgive c' -> x = q \/ x ∈ cgive c) ->
  q_ok c' q kq' a ph ->
  (forall q' kq, q' <> q -> workqueues (cw c) !! q' = Some kq -> q_same c c' q' (work_list kq)) ->
  c_ok c'.
Proof.
  intros Hc Hq Ew Es Ep Esz Hg Ho Hf. split.
  - intros q' kq0. rewrite Ew, Es, Ep. destruct (decide (q' = q)) as [->|Hne].
    + rewrite !lookup_insert_eq. intros [= <-]. by exists a, ph.
    + rewrite !lookup_insert_ne by done. intros Hk. destruct (co_q c Hc q' kq0 Hk) as (a0 & ph0 & ? & ? & Ho'). exists a0, ph0. split; [done|].
      split; [done|]. by apply (q_ok_same c); [|apply Hf].
  - rewrite Esz. apply (co_room c Hc).
  - intros q' ph'. rewrite Ep, Ew. rewrite !lookup_insert_is_Some. destruct (decide (q = q')) as [->|Hne]; [by left|].
    rewrite lookup_insert_ne by done. intros H%(co_phase c Hc). by right.
  - intros q' Hin. rewrite Ew. rewrite lookup_insert_is_Some. destruct (decide (q = q')) as [->|Hne]; [by left|]. right. split; [done|].
    apply (co_give c Hc). by destruct (Hg q' Hin) as [->|].
Qed.

(** The queue's own part of the invariant before a step. *)
Ltac own_queue Hc q kq Hkq a ph Ha Hp :=
  let Ho := fresh "Ho" in
  destruct (co_q _ Hc q kq Hkq) as (a & ph & Ha & Hp & Ho);
  pose proof (listed_room _ q kq Hc Hkq);
  destruct Ho as [Hnodup Hworks Htok Hcnt Hwait Hfifo Hcur].

Lemma ok_queue c q w s' :
  c_ok c -> queue_work q w (cw c) = Some (RHINO_SUCCESS, s') ->
  c_ok (mk_csys s' (csem c) (cphase c) (q :: cgive c) (cqueued c ++ [(q, w)]) (ctaken c)).
Proof.
  intros Hc Hs. destruct (queue_work_eq c q w s' Hc Hs) as (kq & kw & Hkq & Hkw & Hne & _ & ->).
  own_queue Hc q kq Hkq a ph Ha Hp.
  assert (forall q' kq', workqueues (cw c) !! q' = Some kq' -> forall w', w' ∈ work_list kq' -> w' <> w) as Hout.
  { intros q' kq' Hk w' Hin ->. destruct (listed_once c q' kq' w Hc Hk Hin) as (? & ? & ? & _). congruence. }
  eapply (c_ok_at c _ q _ a ph Hc); cbn; try done; rewrite ?insert_id by done; try done.
  - by apply map_size_insert_Some; exists kw.
  - intros x. rewrite elem_of_cons. tauto.
  - split; cbn; rewrite ?evs_snoc, ?gives_cons, ?decide_True, ?length_app by done; cbn; try done; try lia.
    + apply NoDup_app. split_and!; [done| |apply NoDup_singleton]. intros w' Hin ->%list_elem_of_singleton. by eapply Hout.
    + intros w'. rewrite elem_of_app, list_elem_of_singleton. intros [Hin| ->]; [|rewrite lookup_insert_eq; by eexists].
      rewrite lookup_insert_ne by (intros <-; by eapply Hout). by apply Hworks.
    + rewrite Hfifo. by rewrite app_assoc.
    + destruct ph; try done. destruct Hcur as (w' & ? & ? & ?). exists w'. split_and!; try done. rewrite lookup_insert_is_Some'. by right.
  - intros q' kq' Hq Hk. split; cbn; rewrite ?evs_snoc, ?gives_cons, ?decide_False, ?app_nil_r by done; try done.
    + intros w' Hin. rewrite lookup_insert_ne; [done|]. intros <-. by eapply Hout.
    + intros w' Hin. rewrite lookup_insert_is_Some'. by right.
Qed.

Lemma ok_give c q l1 l2 a a' :
  c_ok c -> cgive c = l1 ++ q :: l2 -> csem c !! q = Some a -> ar_sem (as_give max false a) = Some a' ->
  c_ok (mk_csys (cw c) (<[q := a']> (csem c))
          (match ar_released (as_give max false a) with [] => cphase c | _ => <[q := WGet]> (cphase c) end)
          (l1 ++ l2) (cqueued c) (ctaken c)).
Proof.
  intros Hc Eg Ha Ha'. destruct (co_give c Hc q) as [kq Hkq]; [rewrite Eg; set_solver|]. own_queue Hc q kq Hkq a0 ph Ha0 Hp.
  assert (a0 = a) as -> by congruence. rewrite Eg, gives_middle, decide_True in Htok by done.
  assert (forall q' kq' ph', q' <> q -> workqueues (cw c) !! q' = Some kq' ->
    q_same c (mk_csys (cw c) (<[q := a']> (csem c)) ph' (l1 ++ l2) (cqueued c) (ctaken c)) q' (work_list kq')) as Hsame.
  { intros q' kq' ph' Hne _. split; cbn; try done. by rewrite Eg, gives_middle, decide_False. }
  assert (forall x, x ∈ l1 ++ l2 -> x = q \/ x ∈ cgive c) as Hsub by (rewrite Eg; set_solver).
  unfold as_give in *. destruct Hwait as [Ew|(Ew & Ez & ->)]; rewrite Ew in *.
  - rewrite (proj2 (Z.eqb_neq _ _)) in * by lia. injection Ha' as <-.
    eapply (c_ok_at c _ q kq _ ph Hc); cbn; try done; rewrite ?insert_id by done; try done; [|by intros; apply Hsame].
    split; cbn; try done; try lia. by left.
  - injection Ha' as <-. eapply (c_ok_at c _ q kq _ WGet Hc); cbn; try done; rewrite ?insert_id by done; try done; [|by intros; apply Hsame].
    split; cbn in *; try done; try lia. by left.
Qed.

Lemma ok_take c q a a' :
  c_ok c -> cphase c !! q = Some WTake -> csem c !! q = Some a -> as_wait a = [] ->
  ar_sem (as_take pri (worker q) RHINO_WAIT_FOREVER false a) = Some a' ->
  c_ok (mk_csys (cw c) (<[q := a']> (csem c))
          (match ar_ret (as_take pri (worker q) RHINO_WAIT_FOREVER false a) with Blocked => cphase c | Ret _ => <[q := WGet]> (cphase c) end)
          (cgive c) (cqueued c) (ctaken c)).
Proof.
  intros Hc Hph Ha Ew Ha'. destruct (co_phase c Hc q WTake Hph) as [kq Hkq]. own_queue Hc q kq Hkq a0 ph Ha0 Hp.
  assert (a0 = a) as -> by congruence. assert (ph = WTake) as -> by congruence. unfold as_take in *. rewrite Ew in *.
  change (RHINO_WAIT_FOREVER =? RHINO_NO_WAIT) with false in *. cbv iota in *.
  destruct (Z.ltb_spec 0 (as_count a)) as [Hpos|Hz]; cbn in *; injection Ha' as <-.
  - eapply (c_ok_at c _ q kq _ WGet Hc); cbn; try done; rewrite ?insert_id by done; try done; [intros; by right|].
    split; cbn; try done; try lia. by left.
  - eapply (c_ok_at c _ q kq _ WTake Hc); cbn; try done; rewrite ?insert_id by done; try done; [intros; by right|].
    split; cbn; try done; try lia. right. split_and!; [done|lia|done].
Qed.

Lemma ok_get c q kq w s' :
  c_ok c -> cphase c !! q = Some WGet -> workqueues (cw c) !! q = Some kq -> head (work_list kq) = Some w -> worker_get q (cw c) = Some s' ->
  c_ok (mk_csys s' (csem c) (<[q := WCall]> (cphase c)) (cgive c) (cqueued c) (ctaken c ++ [(q, w)])).
Proof.
  intros Hc Hph Hkq Hh Hs. destruct (worker_get_eq c q kq w s' Hc Hkq Hh Hs) as (l & kw & El & Hkw & ->). own_queue Hc q kq Hkq a ph Ha Hp.
  assert (ph = WGet) as -> by congruence. rewrite El in *. apply NoDup_cons in Hnodup as [Hnin Hnodup]. destruct Hcur as [Hcur Htk].
  eapply (c_ok_at c _ q _ a WCall Hc); cbn; try done; rewrite ?insert_id by done; try done.
  - by apply map_size_insert_Some; exists kw.
  - intros; by right.
  - split; cbn in *; rewrite ?evs_snoc, ?decide_True by done; try done; try lia.
    + intros w' Hin. rewrite lookup_insert_ne by (by intros <-). apply Hworks. by right.
    + destruct Hwait as [|(_ & _ & ?)]; [by left|done].
    + by rewrite Hfifo, <- app_assoc.
    + exists w. split_and!; [done|rewrite lookup_insert_is_Some'; by left|by rewrite Htk].
  - intros q' kq' Hne Hk. split; cbn; rewrite ?evs_snoc, ?decide_False, ?app_nil_r by done; try done.
    + intros w' Hin. rewrite lookup_insert_ne; [done|]. intros <-. destruct (listed_once c q' kq' w Hc Hk Hin) as (kw1 & Hkw1 & _ & Hq1).
      destruct (Hworks w) as (kw2 & Hkw2 & _ & Hq2); [left|]. congruence.
    + intros w' Hin. rewrite lookup_insert_is_Some'. by right.
Qed.

Lemma ok_call c q s' :
  c_ok c -> cphase c !! q = Some WCall -> worker_call q (cw c) = Some s' ->
  c_ok (mk_csys s' (csem c) (<[q := WRun]> (cphase c)) (cgive c) (cqueued c) (ctaken c)).
Proof.
  intros Hc Hph. destruct (co_phase c Hc q WCall Hph) as [kq Hkq]. own_queue Hc q kq Hkq a ph Ha Hp. assert (ph = WCall) as -> by congruence.
  destruct Hcur as (w & Hcur & [kw Hkw] & Htk). unfold worker_call. rewrite Hkq. cbn. rewrite Hcur. cbn. rewrite Hkw. cbn. intros [= <-].
  eapply (c_ok_at c _ q kq a WRun Hc); cbn; try done; rewrite ?insert_id by done; try done.
  - intros; by right.
  - split; cbn; unfold runs; cbn; rewrite ?fmap_app; cbn; rewrite ?evs_snoc, ?decide_True by done; try done.
    + destruct Hwait as [|(_ & _ & ?)]; [by left|done].
    + split; [by exists w|done].
  - intros q' kq' Hne Hk. split; cbn; unfold runs; cbn; rewrite ?fmap_app; cbn; rewrite ?evs_snoc, ?decide_False, ?app_nil_r by done; done.
Qed.

Lemma ok_done c q s' :
  c_ok c -> cphase c !! q = Some WRun -> worker_done q (cw c) = Some s' ->
  c_ok (mk_csys s' (csem c) (<[q := WTake]> (cphase c)) (cgive c) (cqueued c) (ctaken c)).
Proof.
  intros Hc Hph. destruct (co_phase c Hc q WRun Hph) as [kq Hkq]. own_queue Hc q kq Hkq a ph Ha Hp. assert (ph = WRun) as -> by congruence.
  destruct Hcur as [_ Htk]. unfold worker_done, upd_wq. rewrite Hkq. cbn. intros [= <-].
  eapply (c_ok_at c _ q _ a WTake Hc); cbn; try done; rewrite ?insert_id by done; try done; [intros; by right|].
  split; cbn; try done. destruct Hwait as [|(_ & _ & ?)]; [by left|done].
Qed.

Lemma ok_cancel c q w r s' :
  c_ok c -> cancel_work q w (cw c) = Some (r, s') -> c_ok (mk_csys s' (csem c) (cphase c) (cgive c) (cqueued c) (ctaken c)).
Proof.
  intros Hc. unfold cancel_work. destruct (workqueues (cw c) !! q) as [kq|] eqn:Hkq; [|done]. cbn.
  destruct (works (cw c) !! w) as [kw|] eqn:Hkw; [|done]. cbn. assert (c_ok (mk_csys (cw c) (csem c) (cphase c) (cgive c) (cqueued c) (ctaken c))) as Hid.
  { by destruct c. }
  case_match; [by intros [= _ <-]|]. destruct (Z.eqb_spec (work_exit kw) 1) as [|Hne]; [by intros [= _ <-]|].
  rewrite (unlink_free c w kw Hc Hkw Hne). unfold upd_work. rewrite Hkw. cbn. intros [= _ <-]. own_queue Hc q kq Hkq a ph Ha Hp.
  assert (forall q' kq', workqueues (cw c) !! q' = Some kq' -> q_same c (mk_csys (set_works (<[w:=set_work_wq None kw]> (works (cw c))) (cw c))
    (csem c) (cphase c) (cgive c) (cqueued c) (ctaken c)) q' (work_list kq')) as Hsame.
  { intros q' kq' Hk. split; cbn; try done.
    - intros w' Hin. rewrite lookup_insert_ne; [done|]. intros <-. destruct (listed_once c q' kq' w Hc Hk Hin) as (? & ? & ? & _). congruence.
    - intros w' Hin. rewrite lookup_insert_is_Some'. by right. }
  eapply (c_ok_at c _ q kq a ph Hc); cbn; try done; rewrite ?insert_id by done; try done.
  - by apply map_size_insert_Some; exists kw.
  - intros; by right.
  - by apply (q_ok_same c); [split|apply Hsame].
  - intros q' kq' _ Hk. by apply Hsame.
Qed.

Lemma creach_ok c : creach c -> c_ok c.
Proof.
  induction 1 as [c Hi|c c' _ Hc Hstep]; [by apply c_ok_init|]. destruct Hstep as [q w s' Hs|q w r s' Hs Hr|q l1 l2 a a' Hg Ha Hn|q a a' Hp Ha Hw Hn|
    q kq w s' Hp Hk Hh Hs|q s' Hp Hs|q s' Hp Hs|q w r s' Hs].
  - by apply ok_queue.
  - rewrite (queue_work_refused q w _ r s' Hs Hr). by destruct c.
  - by eapply ok_give.
  - by apply ok_take.
  - by eapply ok_get.
  - by apply ok_call.
  - by apply ok_done.
  - by eapply ok_cancel.
Qed.

(** ** A queue drains *)

(** Steps that queue nothing: gives, and the workers' own. *)
Inductive csteps (c : csys) : csys -> Prop :=
| cs_refl : csteps c c
| cs_step c1 c2 : csteps c c1 -> cstep c1 c2 -> cqueued c2 = cqueued c1 -> csteps c c2.

Lemma csteps_trans c c1 c2 : csteps c c1 -> csteps c1 c2 -> csteps c c2.
Proof. intros H. induction 1 as [|c3 c4 _ IH Hs Hq]; [done|]. by apply (cs_step c c3 c4). Qed.

Lemma csteps_queued c c' : csteps c c' -> cqueued c' = cqueued c.
Proof. induction 1; congruence. Qed.

Lemma csteps_reach c c' : creach c -> csteps c c' -> creach c'.
Proof. intros Hc. induction 1; [done|]. by eapply cr_step. Qed.

(** Where the queue [q] stands. *)
Definition q_at (c : csys) (q : nat) (ph : wphase) (l : list nat) : Prop :=
  cphase c !! q = Some ph /\ exists kq, workqueues (cw c) !! q = Some kq /\ work_list kq = l.

(** With a token there, the worker takes it. *)
Lemma take_token c q a l :
  q_at c q WTake l -> csem c !! q = Some a -> as_wait a = [] -> 0 < as_count a -> exists c', csteps c c' /\ q_at c' q WGet l.
Proof.
  intros (Hp & Hq) Ha Hw Hpos.
  assert (ar_sem (as_take pri (worker q) RHINO_WAIT_FOREVER false a) = Some (as_set_count (as_count a - 1) a)) as Ht.
  { unfold as_take. by rewrite (proj2 (Z.ltb_lt _ _) Hpos). }
  eexists. split; [eapply cs_step; [constructor|exact (st_take c q a _ Hp Ha Hw Ht)|done]|].
  unfold as_take. rewrite (proj2 (Z.ltb_lt _ _) Hpos). split; [apply lookup_insert_eq|done].
Qed.

(** The worker gets past the semaphore. *)
Lemma reach_get c q w l : creach c -> q_at c q WTake (w :: l) -> exists c', csteps c c' /\ q_at c' q WGet (w :: l).
Proof.
  intros Hr (Hp & kq & Hkq & El). pose proof (creach_ok c Hr) as Hc. own_queue Hc q kq Hkq a ph Ha Hp'. assert (ph = WTake) as -> by congruence.
  assert (0 < as_count a \/ q ∈ cgive c) as Hpos.
  { destruct (decide (0 < as_count a)) as [|Hz]; [by left|]. right. rewrite El in Htok. cbn in Htok. unfold gives in Htok.
    destruct (filter (fun x => x = q) (cgive c)) as [|x f] eqn:Ef; [cbn in Htok; lia|].
    assert (x ∈ filter (fun x => x = q) (cgive c)) as Hx by (rewrite Ef; left). by apply list_elem_of_filter in Hx as [-> Hx]. }
  destruct Hwait as [Ew|(Ew & Ez & _)].
  - destruct Hpos as [Hpos|(l1 & l2 & Eg)%list_elem_of_split].
    { apply (take_token c q a); try done. by split; [|exists kq]. }
    rewrite Eg, gives_middle, decide_True in Htok by done.
    assert (as_give max false a = mk_as_result (Ret RHINO_SUCCESS) [] (Some (as_set_count (as_count a + 1) a))) as Hg.
    { unfold as_give. rewrite Ew, (proj2 (Z.eqb_neq _ _)); [done|lia]. }
    assert (ar_sem (as_give max false a) = Some (as_set_count (as_count a + 1) a)) as Hg' by (by rewrite Hg).
    pose proof (st_give c q l1 l2 a _ Eg Ha Hg') as Hstep. rewrite Hg in Hstep. cbn in Hstep.
    match type of Hstep with cstep _ ?c1 => destruct (take_token c1 q (as_set_count (as_count a + 1) a) (w :: l)) as (c' & Hs & Hq) end;
      [by split; [|exists kq]|apply lookup_insert_eq|done|cbn; lia|].
    exists c'. split; [|done]. eapply csteps_trans; [|exact Hs]. eapply cs_step; [constructor|exact Hstep|done].
  - destruct Hpos as [|(l1 & l2 & Eg)%list_elem_of_split]; [lia|].
    assert (as_give max false a = mk_as_result (Ret RHINO_SUCCESS) [worker q] (Some (as_set_wait [] a))) as Hg by (unfold as_give; by rewrite Ew).
    eexists. split; [eapply cs_step; [constructor|eapply (st_give c q l1 l2 a _ Eg Ha); by rewrite Hg|done]|]. rewrite Hg.
    split; [apply lookup_insert_eq|by exists kq].
Qed.

(** One turn of the worker's loop. *)
Lemma turn_once c q w l : creach c -> q_at c q WGet (w :: l) -> exists c', csteps c c' /\ q_at c' q WTake l.
Proof.
  intros Hr (Hp & kq & Hkq & El). pose proof (creach_ok c Hr) as Hc. destruct (worker_get_defined c q Hc Hp) as [s1 Hs1].
  assert (head (work_list kq) = Some w) as Hh by (by rewrite El).
  pose proof (st_get c q kq w s1 Hp Hkq Hh Hs1) as Hst1. destruct (worker_get_eq c q kq w s1 Hc Hkq Hh Hs1) as (l' & kw & El' & Hkw & ->).
  assert (l' = l) as -> by congruence.
  match type of Hst1 with cstep _ ?c1 => set (c1' := c1) in * end.
  assert (worker_call q (cw c1') = Some (mk_wstate (works (cw c1')) (workqueues (cw c1')) (g_workqueue_list_head (cw c1'))
    (work_runs (cw c1') ++ [(q, w, handle kw, work_arg kw)]))) as Hs2.
  { unfold worker_call. cbn. rewrite lookup_insert_eq. cbn. by rewrite lookup_insert_eq. }
  pose proof (st_call c1' q _ (lookup_insert_eq _ _ _) Hs2) as Hst2. match type of Hst2 with cstep _ ?c2 => set (c2' := c2) in * end.
  destruct (worker_done q (cw c2')) as [s3|] eqn:Hs3.
  2: { unfold worker_done, upd_wq in Hs3. cbn in Hs3. by rewrite lookup_insert_eq in Hs3. }
  pose proof (st_done c2' q s3 (lookup_insert_eq _ _ _) Hs3) as Hst3. eexists. split.
  - eapply cs_step; [eapply cs_step; [eapply cs_step; [constructor|exact Hst1|done]|exact Hst2|done]|exact Hst3|done].
  - split; [apply lookup_insert_eq|]. unfold worker_done, upd_wq in Hs3. cbn in Hs3. rewrite lookup_insert_eq in Hs3. injection Hs3 as <-.
    cbn. eexists. split; [apply lookup_insert_eq|done].
Qed.

Lemma drain c q l : creach c -> q_at c q WTake l -> exists c', csteps c c' /\ q_at c' q WTake [].
Proof.
  revert c. induction l as [|w l IH]; intros c Hr Hq; [by exists c; split; [constructor|]|].
  destruct (reach_get c q w l Hr Hq) as (c1 & H1 & Hq1). destruct (turn_once c1 q w l (csteps_reach c c1 Hr H1) Hq1) as (c2 & H2 & Hq2).
  assert (csteps c c2) as H12 by (by eapply csteps_trans). destruct (IH c2 (csteps_reach c c2 Hr H12) Hq2) as (c3 & H3 & Hq3).
  exists c3. split; [by eapply csteps_trans|done].
Qed.

(** A worker in the middle of a turn ends it. *)
Lemma end_turn c q kq : creach c -> workqueues (cw c) !! q = Some kq -> exists c' l, csteps c c' /\ q_at c' q WTake l.
Proof.
  intros Hr Hkq. pose proof (creach_ok c Hr) as Hc. own_queue Hc q kq Hkq a ph Ha Hp.
  assert (forall c1, csteps c c1 -> cphase c1 !! q = Some WRun -> workqueues (cw c1) !! q = Some kq -> exists c' l, csteps c c' /\ q_at c' q WTake l) as Hdone.
  { intros c1 Hs Hp1 Hk1. assert (worker_done q (cw c1) = Some (set_workqueues (<[q := set_work_current None kq]> (workqueues (cw c1))) (cw c1))) as Hd.
    { unfold worker_done, upd_wq. by rewrite Hk1. }
    eexists _, _. split; [eapply cs_step; [exact Hs|exact (st_done c1 q _ Hp1 Hd)|done]|]. split; [apply lookup_insert_eq|].
    eexists. split; [apply lookup_insert_eq|done]. }
  destruct ph.
  - exists c, (work_list kq). split; [constructor|]. split; [done|]. by exists kq.
  - destruct (work_list kq) as [|w l] eqn:El; [cbn in Htok; lia|]. destruct (turn_once c q w l Hr) as (c' & Hs & Hq).
    { split; [done|]. by exists kq. }
    by exists c', l.
  - destruct Hcur as (w & Hcur & [kw Hkw] & _).
    assert (is_Some (worker_call q (cw c))) as [s' Hs].
    { unfold worker_call. rewrite Hkq. cbn. rewrite Hcur. cbn. by rewrite Hkw. }
    eapply Hdone; [eapply cs_step; [constructor|exact (st_call c q s' Hp Hs)|done]|apply lookup_insert_eq|].
    unfold worker_call in Hs. rewrite Hkq in Hs. cbn in Hs. rewrite Hcur in Hs. cbn in Hs. rewrite Hkw in Hs. cbn in Hs. by injection Hs as <-.
  - apply (Hdone c); [constructor|done|done].
Qed.

(** The works of the queue [q] that have been queued but not run: the one the worker holds and those on the list. *)
Definition outstanding (ph : wphase) (kq : kworkqueue_t) : list nat :=
  (match ph, work_current kq with WCall, Some w => [w] | _, _ => [] end) ++ work_list kq.

Lemma runs_then_outstanding c q kq ph :
  c_ok c -> workqueues (cw c) !! q = Some kq -> cphase c !! q = Some ph -> evs q (cqueued c) = evs q (runs (cw c)) ++ outstanding ph kq.
Proof.
  intros Hc Hkq Hph. own_queue Hc q kq Hkq a ph' Ha Hp. assert (ph' = ph) as -> by congruence. rewrite Hfifo. unfold outstanding.
  destruct ph; try (destruct Hcur as [_ ->]; done). destruct Hcur as (w & -> & _ & ->). by rewrite <- app_assoc.
Qed.

(** C14: whatever the order in which callers, timer callbacks and workers run, every work put on a queue is run exactly once
    and in the order of queueing: the works queued are those run, then the one the worker holds, then the list.  The worker
    never takes a work from an empty list, and one that waits on the semaphore of a queue with work is about to be woken. *)
Theorem works_run_once_in_order c q kq a ph :
  creach c -> workqueues (cw c) !! q = Some kq -> csem c !! q = Some a -> cphase c !! q = Some ph ->
  evs q (cqueued c) = evs q (runs (cw c)) ++ outstanding ph kq /\
  (ph = WGet -> is_Some (worker_get q (cw c))) /\
  (as_wait a <> [] -> work_list kq <> [] -> q ∈ cgive c).
Proof.
  intros Hr Hkq Ha Hph. pose proof (creach_ok c Hr) as Hc. split_and!.
  - by apply runs_then_outstanding.
  - intros ->. by apply worker_get_defined.
  - intros Hw Hl. own_queue Hc q kq Hkq a' ph' Ha' Hp. assert (a' = a) as -> by congruence. destruct Hwait as [|(_ & Hz & ->)]; [done|].
    destruct (decide (q ∈ cgive c)) as [|Hn]; [done|]. unfold gives in Htok. rewrite filter_none in Htok by (by intros x Hx ->).
    destruct (work_list kq); [done|]. cbn in Htok. lia.
Qed.

(** C15: nothing queued is stuck: from any reachable state the gives that are due and the turns of the worker of [q], with
    nothing more queued, run every work that was queued on [q]. *)
Theorem queued_works_complete c q kq :
  creach c -> workqueues (cw c) !! q = Some kq ->
  exists c', csteps c c' /\ evs q (runs (cw c')) = evs q (cqueued c).
Proof.
  intros Hr Hkq. destruct (end_turn c q kq Hr Hkq) as (c1 & l & H1 & Hq1). destruct (drain c1 q l (csteps_reach c c1 Hr H1) Hq1) as (c2 & H2 & Hp2 & kq2 & Hkq2 & El).
  assert (csteps c c2) as H12 by (by eapply csteps_trans). exists c2. split; [done|]. rewrite <- (csteps_queued c c2 H12).
  rewrite (runs_then_outstanding c2 q kq2 WTake); [|by eapply creach_ok, csteps_reach|done|done]. unfold outstanding. by rewrite El, app_nil_r.
Qed.

End system.

(** ** Cancelling *)

Section cancel.
Context `{CpuPort} `{TimerPort} `{WorkPort}.






End cancel.

(** ** An example *)

(** One queue and two works. *)
Definition demo_work : kwork_t := mk_work 100 5 0 None None 0.
Definition demo_ws : wstate := mk_wstate (<[8%nat := demo_work]> (<[9%nat := demo_work]> ∅)) (<[1%nat := mk_workqueue [] None 0]> ∅) [1%nat] [].
Definition demo_cs : csys := mk_csys demo_ws (<[1%nat := mk_asem 0 [] true]> ∅) (<[1%nat := WTake]> ∅) [] [] [].
Definition demo_reach : csys -> Prop := creach 100 (fun _ => 3%nat) (fun _ => 10).

Ltac lookup_demo H := repeat (apply lookup_insert_Some in H as [[<- <-]|[_ H]]); try (by rewrite lookup_empty in H).

Lemma demo_cs_init : cinit 100 demo_cs.
Proof.
  split; [| |done|by vm_compute|].
  - intros q kq Hq. cbn in Hq. by lookup_demo Hq.
  - intros w kw Hw. cbn in Hw. by lookup_demo Hw.
  - intros q ph Hq. cbn in Hq. by lookup_demo Hq.
Qed.

(** The worker waits, both works have been queued, the semaphore has not been given yet. *)
Definition demo_queued_ws : wstate :=
  mk_wstate (<[9%nat := mk_work 100 5 0 None (Some 1%nat) 1]> (<[8%nat := mk_work 100 5 0 None (Some 1%nat) 1]> (works demo_ws)))
    (<[1%nat := mk_workqueue [8%nat; 9%nat] None 0]> ∅) [1%nat] [].
Definition demo_queued : csys := mk_csys demo_queued_ws (<[1%nat := mk_asem 0 [3%nat] true]> ∅) (cphase demo_cs) [1%nat; 1%nat]
  [(1, 8); (1, 9)]%nat [].

Lemma demo_queued_reach : demo_reach demo_queued.
Proof.
  pose proof (cr_init 100 (fun _ => 3%nat) (fun _ => 10) _ demo_cs_init) as H0.
  pose proof (cr_step _ _ _ _ _ H0 (st_take _ _ _ demo_cs 1%nat (mk_asem 0 [] true) (mk_asem 0 [3%nat] true) eq_refl eq_refl eq_refl eq_refl)) as H1.
  set (ws := mk_wstate (<[8%nat := mk_work 100 5 0 None (Some 1%nat) 1]> (works demo_ws)) (<[1%nat := mk_workqueue [8%nat] None 0]> ∅) [1%nat] []).
  assert (queue_work 1 8 demo_ws = Some (RHINO_SUCCESS, ws)) as E1 by (by vm_compute).
  assert (queue_work 1 9 ws = Some (RHINO_SUCCESS, demo_queued_ws)) as E2 by (by vm_compute).
  set (sem := <[1%nat := mk_asem 0 [3%nat] true]> (csem demo_cs)).
  pose proof (cr_step _ _ _ _ _ H1 (st_queue _ _ _ (mk_csys demo_ws sem (cphase demo_cs) [] [] []) 1%nat 8%nat ws E1)) as H2.
  exact (cr_step _ _ _ _ _ H2 (st_queue _ _ _ (mk_csys ws sem (cphase demo_cs) [1%nat] [(1, 8)]%nat []) 1%nat 9%nat demo_queued_ws E2)).
Qed.

Lemma works_run_once_in_order_witness :
  let kq := mk_workqueue [8%nat; 9%nat] None 0 in
  evs 1 (cqueued demo_queued) = evs 1 (runs (cw demo_queued)) ++ outstanding WTake kq /\
  (WTake = WGet -> is_Some (worker_get 1 (cw demo_queued))) /\
  ([3%nat] <> @nil tid -> work_list kq <> [] -> 1%nat ∈ cgive demo_queued).
Proof. intros kq. apply (works_run_once_in_order _ _ _ _ 1%nat kq (mk_asem 0 [3%nat] true) WTake demo_queued_reach); by vm_compute. Defined.

Lemma queued_works_complete_witness :
  exists c', csteps 100 (fun _ => 3%nat) (fun _ => 10) demo_queued c' /\ evs 1 (runs (cw c')) = [8%nat; 9%nat].
Proof.
  apply (queued_works_complete _ _ _ demo_queued 1%nat (mk_workqueue [8%nat; 9%nat] None 0) demo_queued_reach). by vm_compute.
Defined.


#[local] Instance demo_work_port : WorkPort := {| wq_sem := fun q => q; wq_worker := fun _ => 3%nat; g_workqueue_default := 1%nat; work_timer_cb_addr := 1 |}.

