(* ===== verification/Coap.v ===== *)
(** * CoAP messages ([framework/connectivity/coap/iot-coap-c])

    Building, serialising and deserialising CoAP messages, and the client that
    sends them, matches the answers and retransmits.  As for MQTT, a buffer is the
    list of its bytes, a pointer into other memory is the contents from there on,
    and an access outside a buffer has no result. *)

From S2P Require Import Prelude CircBuf Mqtt.
Local Open Scope Z_scope.

Definition COAP_MSG_MAX_TOKEN_LEN : Z := 12.

Definition COAP_MSG_MAX_OPTION_NUM : Z := 12.

Definition COAP_MSG_MAX_PDU_LEN : Z := 1280.

Definition COAP_MESSAGE_TYPE_CON : Z := 0.

Definition COAP_MESSAGE_TYPE_NON : Z := 1.

Definition COAP_MESSAGE_TYPE_ACK : Z := 2.

Definition COAP_MESSAGE_TYPE_RST : Z := 3.

Definition COAP_ERROR_BASE : Z := Z.shiftl 1 8.

Definition COAP_SUCCESS : Z := 0.

Definition COAP_ERROR_INTERNAL : Z := Z.lor COAP_ERROR_BASE 1.

Definition COAP_ERROR_INVALID_PARAM : Z := Z.lor COAP_ERROR_BASE 2.

Definition COAP_ERROR_INVALID_LENGTH : Z := Z.lor COAP_ERROR_BASE 3.

Definition COAP_ERROR_DATA_SIZE : Z := Z.lor COAP_ERROR_BASE 5.

Definition COAP_ERROR_NULL : Z := Z.lor COAP_ERROR_BASE 6.

Definition COAP_ERROR_NOT_FOUND : Z := Z.lor COAP_ERROR_BASE 9.

Definition COAP_MSG_CODE_DEF (N : Z) : Z := Z.lor (Z.shiftl (N / 100) 5) (N mod 100).

Definition COAP_MSG_CODE_EMPTY_MESSAGE : Z := COAP_MSG_CODE_DEF 0.

Definition COAP_MSG_CODE_205_CONTENT : Z := COAP_MSG_CODE_DEF 205.

Definition COAP_MSG_CODE_400_BAD_REQUEST : Z := COAP_MSG_CODE_DEF 400.

(** The first three fields are bit fields of two, two and four bits. *)
Record CoAPMsgHeader := mk_coap_header {
  hd_version : Z;
  hd_type : Z;
  hd_tokenlen : Z;
  hd_code : Z;
  hd_msgid : Z
}.

Record CoAPMsgOption := mk_coap_option {
  opt_num : Z;
  opt_len : Z;
  opt_val : option (list Z)
}.

(** [token] and [options] are arrays of 12. *)
Record CoAPMessage := mk_coap_msg {
  header : CoAPMsgHeader;
  token : list Z;
  options : list CoAPMsgOption;
  optnum : Z;
  optdelta : Z;
  payload : option (list Z);
  payloadlen : Z;
  msg_handler : option Z;
  msg_user : Z
}.

Definition set_header (h : CoAPMsgHeader) (m : CoAPMessage) : CoAPMessage :=
  mk_coap_msg h (token m) (options m) (optnum m) (optdelta m) (payload m) (payloadlen m) (msg_handler m) (msg_user m).

Definition set_token (t : list Z) (m : CoAPMessage) : CoAPMessage :=
  mk_coap_msg (header m) t (options m) (optnum m) (optdelta m) (payload m) (payloadlen m) (msg_handler m) (msg_user m).

Definition set_options (o : list CoAPMsgOption) (m : CoAPMessage) : CoAPMessage :=
  mk_coap_msg (header m) (token m) o (optnum m) (optdelta m) (payload m) (payloadlen m) (msg_handler m) (msg_user m).

Definition set_optnum (n : Z) (m : CoAPMessage) : CoAPMessage :=
  mk_coap_msg (header m) (token m) (options m) n (optdelta m) (payload m) (payloadlen m) (msg_handler m) (msg_user m).

Definition set_optdelta (d : Z) (m : CoAPMessage) : CoAPMessage :=
  mk_coap_msg (header m) (token m) (options m) (optnum m) d (payload m) (payloadlen m) (msg_handler m) (msg_user m).

Definition set_payload (p : option (list Z)) (n : Z) (m : CoAPMessage) : CoAPMessage :=
  mk_coap_msg (header m) (token m) (options m) (optnum m) (optdelta m) p n (msg_handler m) (msg_user m).

(** ** CoAPSerialize.c *)

(** The functions get the buffer and the pointer and return the count and the buffer. *)
Definition CoAPSerialize_Header (msg : CoAPMessage) (buf : list Z) (off buflen : Z) : option (Z * list Z) :=
  if buflen <? 4 then Some (0, buf)
  else
    let h := header msg in
    w ← writeChar (Z.lor (Z.lor (Z.shiftl (Z.land (hd_version h) 3) 6) (Z.shiftl (Z.land (hd_type h) 3) 4)) (Z.land (hd_tokenlen h) 15))
          (mk_wbuf buf off);
    w ← writeChar (hd_code h) w;
    w ← writeChar (Z.shiftr (Z.land (hd_msgid h) 0xFF00) 8) w;
    w ← writeChar (Z.land (hd_msgid h) 0xFF) w;
    Some (4, w_mem w).

Fixpoint token_loop (n : nat) (i : Z) (tok buf : list Z) (off : Z) : option (list Z) :=
  match n with
  | O => Some buf
  | S n => b ← arr_get tok i; buf ← arr_set buf (off + i) b; token_loop n (i + 1) tok buf off
  end.

Definition CoAPSerialize_Token (msg : CoAPMessage) (buf : list Z) (off buflen : Z) : option (Z * list Z) :=
  let n := hd_tokenlen (header msg) in
  if buflen <? n then Some (0, buf)
  else buf ← token_loop (Z.to_nat n) 0 (token msg) buf off; Some (n, buf).

(** The four bits in the first byte of an option for the number or the length [v], and the bytes behind it. *)
Definition option_nibble (v : Z) : Z := if 269 <=? v then Z.land 14 15 else if 13 <=? v then Z.land 13 15 else v.

Definition option_ext (v : Z) (w : wbuf) : option wbuf :=
  if 269 <=? v then
    w ← writeChar (Z.shiftr (Z.land (v - 269) 0xFF00) 8) w;
    writeChar (Z.land (v - 269) 0xFF) w
  else if 13 <=? v then writeChar (v - 13) w
  else Some w.

(** [memcpy] of no bytes from NULL does nothing. *)
Definition option_value (o : CoAPMsgOption) (w : wbuf) : option wbuf :=
  match opt_val o with
  | Some val => writeBytes val (opt_len o) w
  | None => if opt_len o =? 0 then Some w else None
  end.

Definition CoAPSerialize_Option (o : CoAPMsgOption) (buf : list Z) (off : Z) : option (Z * list Z) :=
  buf ← arr_set buf off (u8 (Z.shiftl (option_nibble (opt_num o)) 4));
  b ← arr_get buf off;
  buf ← arr_set buf off (u8 (Z.lor b (Z.land (option_nibble (opt_len o)) 15)));
  w ← option_ext (opt_num o) (mk_wbuf buf (off + 1));
  w ← option_ext (opt_len o) w;
  w ← option_value o w;
  Some (u16 (w_ptr w - off), w_mem w).

Fixpoint options_loop (n : nat) (i count : Z) (opts : list CoAPMsgOption) (buf : list Z) (off : Z) : option (Z * list Z) :=
  match n with
  | O => Some (count, buf)
  | S n =>
      o ← arr_get opts i;
      '(len, buf) ← CoAPSerialize_Option o buf (off + count);
      if 0 <? len then options_loop n (i + 1) (u16 (count + len)) opts buf off else Some (0, buf)
  end.

Definition CoAPSerialize_Options (msg : CoAPMessage) (buf : list Z) (off buflen : Z) : option (Z * list Z) :=
  options_loop (Z.to_nat (optnum msg)) 0 0 (options msg) buf off.

Definition CoAPSerialize_OptionLen (o : CoAPMsgOption) : Z :=
  let ext v := if 269 <=? v then 2 else if 13 <=? v then 1 else 0 in
  u16 (1 + ext (opt_num o) + ext (opt_len o) + opt_len o).

Fixpoint optionslen_loop (n : nat) (i count : Z) (opts : list CoAPMsgOption) : option Z :=
  match n with
  | O => Some count
  | S n =>
      o ← arr_get opts i;
      let len := CoAPSerialize_OptionLen o in
      if 0 <? len then optionslen_loop n (i + 1) (u16 (count + len)) opts else Some 0
  end.

Definition CoAPSerialize_OptionsLen (msg : CoAPMessage) : option Z :=
  optionslen_loop (Z.to_nat (optnum msg)) 0 0 (options msg).

Definition CoAPSerialize_Payload (msg : CoAPMessage) (buf : list Z) (off buflen : Z) : option (Z * list Z) :=
  if buflen <? payloadlen msg + 1 then Some (-1, buf)
  else
    match payload msg with
    | Some p =>
        if 0 <? payloadlen msg then
          w ← writeChar 0xFF (mk_wbuf buf off);
          w ← writeBytes p (payloadlen msg) w;
          Some (payloadlen msg + 1, w_mem w)
        else Some (0, buf)
    | None => Some (0, buf)
    end.

Definition CoAPSerialize_MessageLength (msg : CoAPMessage) : option Z :=
  let msglen := u16 (4 + hd_tokenlen (header msg)) in
  n ← CoAPSerialize_OptionsLen msg;
  let msglen := u16 (msglen + n) in
  Some (if 0 <? payloadlen msg then u16 (u16 (msglen + payloadlen msg) + 1) else msglen).

(** [count] is an [unsigned short] and goes into the pointer. *)
Definition CoAPSerialize_Message (msg : option CoAPMessage) (buf : option (list Z)) (buflen : Z) : option (Z * option (list Z)) :=
  match buf, msg with
  | None, _ | _, None => Some (COAP_ERROR_INVALID_PARAM, buf)
  | Some buf, Some msg =>
      let ptr := 0 in
      let remlen := buflen in
      '(count, buf) ← CoAPSerialize_Header msg buf ptr remlen;
      let ptr := ptr + u16 count in
      let remlen := u16 (remlen - u16 count) in
      '(count, buf) ← CoAPSerialize_Token msg buf ptr remlen;
      let ptr := ptr + u16 count in
      let remlen := u16 (remlen - u16 count) in
      '(count, buf) ← CoAPSerialize_Options msg buf ptr remlen;
      let ptr := ptr + u16 count in
      let remlen := u16 (remlen - u16 count) in
      '(count, buf) ← CoAPSerialize_Payload msg buf ptr remlen;
      let remlen := u16 (remlen - u16 count) in
      Some (buflen - remlen, Some buf)
  end.

(** ** CoAPDeserialize.c *)

Definition CoAPDeserialize_Header (msg : CoAPMessage) (buf : list Z) (off : Z) : option (Z * CoAPMessage) :=
  b0 ← arr_get buf off;
  b1 ← arr_get buf (off + 1);
  b2 ← arr_get buf (off + 2);
  b3 ← arr_get buf (off + 3);
  Some (4, set_header (mk_coap_header (Z.land (Z.shiftr b0 6) 3) (Z.land (Z.shiftr b0 4) 3) (Z.land b0 15) b1
                         (u16 (u16 (Z.shiftl b2 8) + b3))) msg).

Definition CoAPDeserialize_Token (msg : CoAPMessage) (buf : list Z) (off : Z) : option (Z * CoAPMessage) :=
  t ← memcpy (token msg) 0 buf off (hd_tokenlen (header msg));
  Some (hd_tokenlen (header msg), set_token t msg).

(** The value of the four bits [v] with what follows at [ptr]; 15 stands for itself. *)
Definition option_read (v base : Z) (buf : list Z) (ptr : Z) : option (Z * Z) :=
  if v =? 13 then b ← arr_get buf ptr; Some (u16 (base + 13 + b), ptr + 1)
  else if v =? 14 then
    b ← arr_get buf ptr;
    b' ← arr_get buf (ptr + 1);
    Some (u16 (u16 (u16 (base + 269) + Z.shiftl b 8) + b'), ptr + 2)
  else Some (u16 (base + v), ptr).

(** The option, the number so far and the length of the encoding. *)
Definition CoAPDeserialize_Option (buf : list Z) (off predeltas : Z) : option (CoAPMsgOption * Z * Z) :=
  b ← arr_get buf off;
  let optdelta := Z.shiftr (Z.land b 0xF0) 4 in
  let optlen := Z.land b 0x0F in
  '(num, ptr) ← option_read optdelta predeltas buf (off + 1);
  '(len, ptr) ← option_read optlen 0 buf ptr;
  Some (mk_coap_option num len (Some (drop (Z.to_nat ptr) buf)), num, ptr - off + len).

(** [index] runs over the 12 options, and a thirteenth is written outside the array: 13 turns are enough. *)
Fixpoint deoptions_loop (fuel : nat) (msg : CoAPMessage) (buf : list Z) (off buflen index count ptr optdeltas : Z) : option (Z * CoAPMessage) :=
  match fuel with
  | O => None
  | S fuel =>
      stop ← (if count <? buflen then b ← arr_get buf ptr; Some (b =? 0xFF) else Some true);
      if stop : bool then Some (ptr - off, msg)
      else
        '(o, optdeltas, n) ← CoAPDeserialize_Option buf ptr optdeltas;
        opts ← arr_set (options msg) index o;
        let len := u16 n in
        deoptions_loop fuel (set_optnum (u8 (optnum msg + 1)) (set_options opts msg)) buf off buflen (index + 1) (count + len)
          (ptr + len) optdeltas
  end.

Definition CoAPDeserialize_Options (msg : CoAPMessage) (buf : list Z) (off buflen : Z) : option (Z * CoAPMessage) :=
  deoptions_loop 13 (set_optnum 0 msg) buf off buflen 0 0 off 0.

Definition CoAPDeserialize_Payload (msg : CoAPMessage) (buf : list Z) (off buflen : Z) : option (Z * CoAPMessage) :=
  b ← arr_get buf off;
  if b =? 0xFF then Some (buflen, set_payload (Some (drop (Z.to_nat (off + 1)) buf)) (u16 (buflen - 1)) msg)
  else Some (0, msg).

Definition CoAPDeserialize_Message (msg : option CoAPMessage) (buf : option (list Z)) (buflen : Z) : option (Z * option CoAPMessage) :=
  match buf, msg with
  | Some buf, Some msg =>
      if buflen <? 4 then Some (COAP_ERROR_INVALID_LENGTH, Some msg)
      else
        let ptr := 0 in
        let remlen := buflen in
        '(count, msg) ← CoAPDeserialize_Header msg buf ptr;
        let ptr := ptr + count in
        let remlen := remlen - count in
        '(count, msg) ← CoAPDeserialize_Token msg buf ptr;
        let ptr := ptr + count in
        let remlen := remlen - count in
        '(count, msg) ← CoAPDeserialize_Options msg buf ptr remlen;
        let ptr := ptr + count in
        let remlen := remlen - count in
        '(_, msg) ← CoAPDeserialize_Payload msg buf ptr remlen;
        Some (COAP_SUCCESS, Some msg)
  | _, _ => Some (COAP_ERROR_INVALID_PARAM, msg)
  end.

(** ** CoAPMessage.c: building a message *)

Definition COAP_CUR_VERSION : Z := 1.

Definition COAP_MAX_MESSAGE_ID : Z := 65535.

Definition COAP_MAX_RERTY_COUNT : Z := 4.

Definition COAP_ACK_TIMEOUT : Z := 2.

Definition COAP_ACK_RANDOM_FACTOR : Z := 1.

Definition COAP_MAX_TRANSMISSION_SPAN : Z := 10.

Definition COAPAckMsg (h : CoAPMsgHeader) : bool := (hd_code h =? COAP_MSG_CODE_EMPTY_MESSAGE) && (hd_type h =? COAP_MESSAGE_TYPE_ACK).

Definition CoAPRespMsg (h : CoAPMsgHeader) : bool := (0x40 <=? hd_code h) && (hd_code h <? 0xc0).

Definition CoAPCONRespMsg (h : CoAPMsgHeader) : bool := (hd_code h =? COAP_MSG_CODE_205_CONTENT) && (hd_type h =? COAP_MESSAGE_TYPE_CON).

Definition CoAPReqMsg (h : CoAPMsgHeader) : bool := (1 <=? hd_code h) && (hd_code h <? 32).

(** The next element of [options] is filled in; [optdelta] is an [unsigned char]. *)
Definition option_add (m : CoAPMessage) (num len : Z) (val : option (list Z)) : option CoAPMessage :=
  opts ← arr_set (options m) (optnum m) (mk_coap_option (u16 (num - optdelta m)) len val);
  Some (set_optnum (u8 (optnum m + 1)) (set_optdelta (u8 num) (set_options opts m))).

(** [ok]: [coap_malloc] does not return NULL. *)
Definition CoAPStrOption_add (ok : bool) (m : CoAPMessage) (num : Z) (data : list Z) (datalen : Z) : option (Z * CoAPMessage) :=
  if COAP_MSG_MAX_OPTION_NUM <=? optnum m then Some (COAP_ERROR_INVALID_PARAM, m)
  else
    val ← (if ok then v ← slice data 0 datalen; Some (Some v) else Some None);
    m ← option_add m num datalen val;
    Some (COAP_SUCCESS, m).

(** The length and the bytes of a number. *)
Definition uint_option (data : Z) : Z * list Z :=
  if data =? 0 then (0, [])
  else if data <=? 256 then (1, [u8 data])
  else if data <=? 65535 then (2, [u8 (Z.shiftr (Z.land data 0xFF00) 8); u8 (Z.land data 0xFF)])
  else (4, [u8 (Z.shiftr (Z.land data 0xFF000000) 24); u8 (Z.shiftr (Z.land data 0xFF0000) 16);
            u8 (Z.shiftr (Z.land data 0xFF00) 8); u8 (Z.land data 0xFF)]).

Definition CoAPUintOption_add (ok : bool) (m : CoAPMessage) (num data : Z) : option (Z * CoAPMessage) :=
  if COAP_MSG_MAX_OPTION_NUM <=? optnum m then Some (COAP_ERROR_INVALID_PARAM, m)
  else
    let '(len, bytes) := uint_option data in
    m ← option_add m num len (if (data =? 0) || negb ok then None else Some bytes);
    Some (COAP_SUCCESS, m).

Definition CoAPMessageId_set (m : option CoAPMessage) (id : Z) : Z * option CoAPMessage :=
  match m with
  | None => (COAP_ERROR_NULL, None)
  | Some m =>
      let h := header m in
      (COAP_SUCCESS, Some (set_header (mk_coap_header (hd_version h) (hd_type h) (hd_tokenlen h) (hd_code h) id) m))
  end.

Definition CoAPMessageType_set (m : option CoAPMessage) (type : Z) : Z * option CoAPMessage :=
  match m with
  | None => (COAP_ERROR_NULL, None)
  | Some m =>
      if negb (type =? COAP_MESSAGE_TYPE_CON) && negb (type =? COAP_MESSAGE_TYPE_NON) && negb (type =? COAP_MESSAGE_TYPE_ACK) &&
         negb (type =? COAP_MESSAGE_TYPE_RST) then (COAP_ERROR_INVALID_PARAM, Some m)
      else
        let h := header m in
        (COAP_SUCCESS, Some (set_header (mk_coap_header (hd_version h) type (hd_tokenlen h) (hd_code h) (hd_msgid h)) m))
  end.

Definition CoAPMessageCode_set (m : option CoAPMessage) (code : Z) : Z * option CoAPMessage :=
  match m with
  | None => (COAP_ERROR_NULL, None)
  | Some m =>
      let h := header m in
      (COAP_SUCCESS, Some (set_header (mk_coap_header (hd_version h) (hd_type h) (hd_tokenlen h) (u8 code) (hd_msgid h)) m))
  end.

Definition CoAPMessageToken_set (m : option CoAPMessage) (tok : option (list Z)) (tokenlen : Z) : option (Z * option CoAPMessage) :=
  match m, tok with
  | Some m, Some tok =>
      if COAP_MSG_MAX_TOKEN_LEN <? tokenlen then Some (COAP_ERROR_INVALID_LENGTH, Some m)
      else
        t ← memcpy (token m) 0 tok 0 tokenlen;
        let h := header m in
        Some (COAP_SUCCESS, Some (set_header (mk_coap_header (hd_version h) (hd_type h) (tokenlen mod 16) (hd_code h) (hd_msgid h)) (set_token t m)))
  | _, _ => Some (COAP_ERROR_NULL, m)
  end.

Definition CoAPMessageUserData_set (m : option CoAPMessage) (userdata : option Z) : Z * option CoAPMessage :=
  match m, userdata with
  | Some m, Some u =>
      (COAP_SUCCESS, Some (mk_coap_msg (header m) (token m) (options m) (optnum m) (optdelta m) (payload m) (payloadlen m) (msg_handler m) u))
  | _, _ => (COAP_ERROR_NULL, m)
  end.

Definition CoAPMessagePayload_set (m : option CoAPMessage) (p : option (list Z)) (len : Z) : Z * option CoAPMessage :=
  match m with
  | None => (COAP_ERROR_NULL, None)
  | Some m =>
      if (0 <? len) && (match p with None => true | _ => false end) then (COAP_ERROR_NULL, Some m)
      else (COAP_SUCCESS, Some (set_payload p len m))
  end.

Definition CoAPMessageHandler_set (m : option CoAPMessage) (handler : option Z) : Z * option CoAPMessage :=
  match m with
  | None => (COAP_ERROR_NULL, None)
  | Some m =>
      (COAP_SUCCESS, Some (mk_coap_msg (header m) (token m) (options m) (optnum m) (optdelta m) (payload m) (payloadlen m) handler (msg_user m)))
  end.

(** [memset(message, 0, sizeof(CoAPMessage))] *)
Definition zero_message : CoAPMessage :=
  mk_coap_msg (mk_coap_header 0 0 0 0 0) (replicate 12 0) (replicate 12 (mk_coap_option 0 0 None)) 0 0 None 0 None 0.

Definition CoAPMessage_init (m : option CoAPMessage) : Z * option CoAPMessage :=
  match m with
  | None => (COAP_ERROR_NULL, None)
  | Some _ =>
      (COAP_SUCCESS, Some (set_header (mk_coap_header COAP_CUR_VERSION COAP_MESSAGE_TYPE_ACK 0 COAP_MSG_CODE_EMPTY_MESSAGE 0) zero_message))
  end.

Definition CoAPMessage_destory (m : option CoAPMessage) : Z * option CoAPMessage :=
  match m with
  | None => (COAP_ERROR_NULL, None)
  | Some m => (COAP_SUCCESS, Some (set_options ((fun o => mk_coap_option (opt_num o) (opt_len o) None) <$> options m) m))
  end.

(** ** CoAPMessage.c: the client *)

(** A message that waits for its answer; of the token, the [tokenlen] bytes that are set. *)
Record CoAPSendNode := mk_coap_node {
  nd_user : Z;
  nd_msgid : Z;
  nd_acked : Z;
  nd_token : list Z;
  nd_retrans_count : Z;
  nd_timeout : Z;
  nd_timeout_val : Z;
  nd_message : option (list Z);
  nd_msglen : Z;
  nd_handler : option Z
}.

Definition set_acked (v : Z) (n : CoAPSendNode) : CoAPSendNode :=
  mk_coap_node (nd_user n) (nd_msgid n) v (nd_token n) (nd_retrans_count n) (nd_timeout n) (nd_timeout_val n) (nd_message n) (nd_msglen n) (nd_handler n).

Definition set_timeout (v : Z) (n : CoAPSendNode) : CoAPSendNode :=
  mk_coap_node (nd_user n) (nd_msgid n) (nd_acked n) (nd_token n) (nd_retrans_count n) v (nd_timeout_val n) (nd_message n) (nd_msglen n) (nd_handler n).

(** A retransmission: the timeout is doubled. *)
Definition back_off (n : CoAPSendNode) : CoAPSendNode :=
  let t := u16 (nd_timeout_val n * 2) in
  mk_coap_node (nd_user n) (nd_msgid n) (nd_acked n) (nd_token n) (u8 (nd_retrans_count n + 1)) t t (nd_message n) (nd_msglen n) (nd_handler n).

(** The send list with its count and limit, the datagrams sent, the handlers called with their argument and message, and
    the number of allocations so far. *)
Record CoAPContext := mk_coap_ctx {
  message_id : Z;
  sendbuf : list Z;
  recvbuf : list Z;
  list_count : Z;
  list_maxcount : Z;
  sendlist : list CoAPSendNode;
  sent : list (list Z);
  handled : list (Z * Z * CoAPMessage);
  mallocs : nat
}.

Definition set_sendbuf (b : list Z) (c : CoAPContext) : CoAPContext :=
  mk_coap_ctx (message_id c) b (recvbuf c) (list_count c) (list_maxcount c) (sendlist c) (sent c) (handled c) (mallocs c).

Definition set_recvbuf (b : list Z) (c : CoAPContext) : CoAPContext :=
  mk_coap_ctx (message_id c) (sendbuf c) b (list_count c) (list_maxcount c) (sendlist c) (sent c) (handled c) (mallocs c).

Definition set_sendlist (n : Z) (l : list CoAPSendNode) (c : CoAPContext) : CoAPContext :=
  mk_coap_ctx (message_id c) (sendbuf c) (recvbuf c) n (list_maxcount c) l (sent c) (handled c) (mallocs c).

Definition add_sent (d : list Z) (c : CoAPContext) : CoAPContext :=
  mk_coap_ctx (message_id c) (sendbuf c) (recvbuf c) (list_count c) (list_maxcount c) (sendlist c) (sent c ++ [d]) (handled c) (mallocs c).

Definition add_handled (h : Z * Z * CoAPMessage) (c : CoAPContext) : CoAPContext :=
  mk_coap_ctx (message_id c) (sendbuf c) (recvbuf c) (list_count c) (list_maxcount c) (sendlist c) (sent c) (handled c ++ [h]) (mallocs c).

Definition CoAPMessageId_gen (c : CoAPContext) : Z * CoAPContext :=
  if COAP_MAX_MESSAGE_ID =? message_id c then (1, c)
  else (message_id c, mk_coap_ctx (u16 (message_id c + 1)) (sendbuf c) (recvbuf c) (list_count c) (list_maxcount c) (sendlist c) (sent c) (handled c) (mallocs c)).

(** The platform: what the [n]-th write of a datagram returns, and whether the [n]-th allocation succeeds. *)
Class CoapPort := {
  HAL_UDP_write : nat -> Z;
  coap_malloc_ok : nat -> bool
}.

Section client.
Context `{CoapPort}.

Definition coap_malloc (c : CoAPContext) : bool * CoAPContext :=
  (coap_malloc_ok (mallocs c),
   mk_coap_ctx (message_id c) (sendbuf c) (recvbuf c) (list_count c) (list_maxcount c) (sendlist c) (sent c) (handled c) (S (mallocs c))).

(** Without DTLS.  [rc] is an [unsigned int]. *)
Definition CoAPNetwork_write (data : list Z) (c : CoAPContext) : Z * CoAPContext :=
  let rc := u32 (HAL_UDP_write (length (sent c))) in
  (if rc =? u32 (-1) then COAP_ERROR_INTERNAL else COAP_SUCCESS, add_sent data c).

(** [&context->list.count >= &context->list.maxcount] compares the addresses of two fields, the first of which is in
    front of the second: it is false. *)
Definition CoAPMessageList_add (c : CoAPContext) (m : CoAPMessage) (len : Z) : option (Z * CoAPContext) :=
  let '(ok, c) := coap_malloc c in
  if ok then
    let h := header m in
    let timeout_val := COAP_ACK_TIMEOUT * COAP_ACK_RANDOM_FACTOR in
    let '(timeout, retrans) :=
      if hd_type h =? COAP_MESSAGE_TYPE_CON then (timeout_val, 0) else (COAP_MAX_TRANSMISSION_SPAN, COAP_MAX_RERTY_COUNT) in
    tok ← (if hd_tokenlen h <=? 8 then slice (token m) 0 (hd_tokenlen h) else None);
    let '(ok, c) := coap_malloc c in
    message ← (if ok then d ← slice (sendbuf c) 0 len; Some (Some d) else Some None);
    let node := mk_coap_node (msg_user m) (hd_msgid h) 0 tok retrans timeout timeout_val message len (msg_handler m) in
    Some (0, set_sendlist (u8 (list_count c + 1)) (sendlist c ++ [node]) c)
  else Some (-1, c).

Definition CoAPMessage_send (c : option CoAPContext) (m : option CoAPMessage) : option (Z * option CoAPContext) :=
  match m, c with
  | Some m, Some c =>
      msglen ← CoAPSerialize_MessageLength m;
      if COAP_MSG_MAX_PDU_LEN <? msglen then Some (COAP_ERROR_DATA_SIZE, Some c)
      else
        buf ← splice (sendbuf c) 0 (replicate (Z.to_nat COAP_MSG_MAX_PDU_LEN) 0);
        '(n, buf) ← CoAPSerialize_Message (Some m) (Some buf) COAP_MSG_MAX_PDU_LEN;
        buf ← buf;
        let msglen := u16 n in
        let c := set_sendbuf buf c in
        data ← slice buf 0 msglen;
        let '(ret, c) := CoAPNetwork_write data c in
        if (ret =? COAP_SUCCESS) && (CoAPReqMsg (header m) || CoAPCONRespMsg (header m)) then
          '(_, c) ← CoAPMessageList_add c m msglen; Some (ret, Some c)
        else Some (ret, Some c)
  | _, _ => Some (COAP_ERROR_INVALID_PARAM, c)
  end.

(** The first node with this message identifier is marked. *)
Fixpoint ack_node (msgid : Z) (l : list CoAPSendNode) : list CoAPSendNode :=
  match l with
  | [] => []
  | n :: l => if nd_msgid n =? msgid then set_acked 1 n :: l else n :: ack_node msgid l
  end.

Definition CoAPAckMessage_handle (c : CoAPContext) (m : CoAPMessage) : Z * CoAPContext :=
  (COAP_SUCCESS, set_sendlist (list_count c) (ack_node (hd_msgid (header m)) (sendlist c)) c).

Definition CoAPAckMessage_send (c : CoAPContext) (msgid : Z) : option (Z * CoAPContext) :=
  let '(_, m) := CoAPMessage_init (Some zero_message) in
  let '(_, m) := CoAPMessageId_set m msgid in
  '(ret, c) ← CoAPMessage_send (Some c) m;
  c ← c;
  Some (ret, c).

(** The first node with the token of the message: the nodes before it, the node and those behind it. *)
Fixpoint find_token (tok : list Z) (l : list CoAPSendNode) : option (list CoAPSendNode * CoAPSendNode * list CoAPSendNode) :=
  match l with
  | [] => None
  | n :: l =>
      if bool_decide (nd_token n <> []) && bool_decide (nd_token n = tok) then Some ([], n, l)
      else '(l1, n', l2) ← find_token tok l; Some (n :: l1, n', l2)
  end.

Definition CoAPRespMessage_handle (c : CoAPContext) (m : CoAPMessage) : option (Z * CoAPContext) :=
  let h := header m in
  '(_, c) ← (if hd_type h =? COAP_MESSAGE_TYPE_CON then CoAPAckMessage_send c (hd_msgid h) else Some (0, c));
  match find_token (take (Z.to_nat (hd_tokenlen h)) (token m)) (sendlist c) with
  | Some (l1, n, l2) =>
      let c := match nd_handler n with Some f => add_handled (f, nd_user n, m) c | None => c end in
      Some (COAP_SUCCESS, set_sendlist (u8 (list_count c - 1)) (l1 ++ l2) c)
  | None => Some (COAP_ERROR_NOT_FOUND, c)
  end.

Definition CoAPMessage_handle (c : CoAPContext) (buf : list Z) (datalen : Z) : option CoAPContext :=
  '(_, m) ← CoAPDeserialize_Message (Some zero_message) (Some buf) datalen;
  m ← m;
  if COAPAckMsg (header m) then Some (CoAPAckMessage_handle c m).2
  else if CoAPRespMsg (header m) then '(_, c) ← CoAPRespMessage_handle c m; Some c
  else Some c.

(** [CoAPNetwork_read]: the buffer is cleared before the datagram is stored. *)
Definition CoAPNetwork_read (data : list Z) (c : CoAPContext) : CoAPContext :=
  let d := take (Z.to_nat COAP_MSG_MAX_PDU_LEN) data in
  set_recvbuf (d ++ replicate (Z.to_nat COAP_MSG_MAX_PDU_LEN - length d) 0) c.

(** The datagrams that arrive until a read times out. *)
Fixpoint CoAPMessage_recv (l : list (list Z)) (c : CoAPContext) : option CoAPContext :=
  match l with
  | [] => Some c
  | d :: l =>
      let c := CoAPNetwork_read d c in
      match d with
      | [] => Some c
      | _ => c ← CoAPMessage_handle c (recvbuf c) (Z.of_nat (length (take (Z.to_nat COAP_MSG_MAX_PDU_LEN) d))); CoAPMessage_recv l c
      end
  end.

(** One node in a cycle; [None] inside: it has been removed. *)
Definition cycle_node (n : CoAPSendNode) (c : CoAPContext) : option (option CoAPSendNode * CoAPContext) :=
  if nd_timeout n =? 0 then
    '(n, c) ← (if (nd_retrans_count n <? COAP_MAX_RERTY_COUNT) && (nd_acked n =? 0) then
                 let n := back_off n in
                 d ← nd_message n;
                 Some (n, (CoAPNetwork_write d c).2)
               else Some (n, c));
    if (COAP_MAX_TRANSMISSION_SPAN <? nd_timeout n) || (COAP_MAX_RERTY_COUNT <=? nd_retrans_count n) then
      Some (None, set_sendlist (u8 (list_count c - 1)) (sendlist c) c)
    else Some (Some n, c)
  else Some (Some (set_timeout (nd_timeout n - 1) n), c).

Fixpoint cycle_loop (l : list CoAPSendNode) (c : CoAPContext) : option (list CoAPSendNode * CoAPContext) :=
  match l with
  | [] => Some ([], c)
  | n :: l =>
      '(n, c) ← cycle_node n c;
      '(l, c) ← cycle_loop l c;
      Some (match n with Some n => n :: l | None => l end, c)
  end.

Definition CoAPMessage_cycle (l : list (list Z)) (c : CoAPContext) : option (Z * CoAPContext) :=
  c ← CoAPMessage_recv l c;
  '(nodes, c) ← cycle_loop (sendlist c) c;
  Some (COAP_SUCCESS, set_sendlist (list_count c) nodes c).

End client.
