(* ===== verification/CoapSpec.v ===== *)
(** * CoAP: the codec

    The wire format of RFC 7252, that the serialiser writes it and the deserialiser
    reads it, and the messages that the building calls make. *)

From S2P Require Import Prelude CircBuf Mqtt MqttSpec Coap.
Local Open Scope Z_scope.

(** ** The wire format (RFC 7252, section 3) *)

(** The four bits for a delta or a length, and the bytes that extend them. *)
Definition nib (v : Z) : Z := if 269 <=? v then 14 else if 13 <=? v then 13 else v.

Definition ext (v : Z) : list Z := if 269 <=? v then [(v - 269) / 256; (v - 269) mod 256] else if 13 <=? v then [v - 13] else [].

(** An option with the distance [d] to the number before. *)
Definition enc_opt (d : Z) (val : list Z) : list Z :=
  let n := Z.of_nat (length val) in (nib d * 16 + nib n) :: ext d ++ ext n ++ val.

Fixpoint enc_opts (prev : Z) (l : list (Z * list Z)) : list Z :=
  match l with
  | [] => []
  | (num, val) :: l => enc_opt (num - prev) val ++ enc_opts num l
  end.

(** A message: its options carry their numbers. *)
Record amsg := mk_amsg {
  am_version : Z;
  am_type : Z;
  am_code : Z;
  am_id : Z;
  am_token : list Z;
  am_opts : list (Z * list Z);
  am_payload : list Z
}.

Definition enc_header (a : amsg) : list Z :=
  [am_version a * 64 + am_type a * 16 + Z.of_nat (length (am_token a)); am_code a; am_id a / 256; am_id a mod 256].

Definition enc_payload (p : list Z) : list Z := match p with [] => [] | _ => 0xFF :: p end.

Definition enc_msg (a : amsg) : list Z := enc_header a ++ am_token a ++ enc_opts 0 (am_opts a) ++ enc_payload (am_payload a).

Fixpoint opts_wf (prev : Z) (l : list (Z * list Z)) : Prop :=
  match l with
  | [] => True
  | (num, val) :: l => prev <= num < 2 ^ 16 /\ opts_wf num l
  end.

Record amsg_wf (a : amsg) : Prop := {
  aw_version : 0 <= am_version a < 4;
  aw_type : 0 <= am_type a < 4;
  aw_code : 0 <= am_code a < 256;
  aw_id : 0 <= am_id a < 2 ^ 16;
  aw_token : (length (am_token a) <= 12)%nat;
  aw_opts : opts_wf 0 (am_opts a);
  aw_optnum : (length (am_opts a) <= 12)%nat;
  aw_len : Z.of_nat (length (enc_msg a)) <= COAP_MSG_MAX_PDU_LEN;
  aw_room : am_payload a = [] -> Z.of_nat (length (enc_msg a)) < COAP_MSG_MAX_PDU_LEN
}.

(** The bytes an option stands for. *)
Definition val_is (o : CoAPMsgOption) (val : list Z) : Prop :=
  opt_len o = Z.of_nat (length val) /\ ((exists rest, opt_val o = Some (val ++ rest)) \/ val = [] /\ opt_val o = None).

(** The options of a message to be sent hold distances, those of one received hold numbers. *)
Fixpoint opts_built (prev : Z) (os : list CoAPMsgOption) (l : list (Z * list Z)) : Prop :=
  match os, l with
  | [], [] => True
  | o :: os, (num, val) :: l => opt_num o = num - prev /\ val_is o val /\ opts_built num os l
  | _, _ => False
  end.

Definition opts_read (os : list CoAPMsgOption) (l : list (Z * list Z)) : Prop := Forall2 (fun o e => opt_num o = e.1 /\ val_is o e.2) os l.

(** [opts]: how the options in use stand for those of the message. *)
Record stands_for (opts : list CoAPMsgOption -> list (Z * list Z) -> Prop) (m : CoAPMessage) (a : amsg) : Prop := {
  sf_header : header m = mk_coap_header (am_version a) (am_type a) (Z.of_nat (length (am_token a))) (am_code a) (am_id a);
  sf_token : take (length (am_token a)) (token m) = am_token a;
  sf_optnum : optnum m = Z.of_nat (length (am_opts a));
  sf_opts : opts (take (length (am_opts a)) (options m)) (am_opts a);
  sf_payload : payloadlen m = Z.of_nat (length (am_payload a)) /\
    (am_payload a <> [] -> exists rest, payload m = Some (am_payload a ++ rest))
}.

Definition built : CoAPMessage -> amsg -> Prop := stands_for (opts_built 0).

Definition read_as : CoAPMessage -> amsg -> Prop := stands_for opts_read.

(** ** Serialising *)

Lemma high_byte x : 0 <= x < 2 ^ 16 -> u8 (Z.shiftr (Z.land x 0xFF00) 8) = x / 256.
Proof.
  intros Hx. change 0xFF00 with ((2 ^ 8 - 1) * 2 ^ 8). rewrite land_field, Z.shiftr_div_pow2, Z.div_mul by lia.
  assert (0 <= x / 2 ^ 8 < 2 ^ 8) by (split; [apply Z.div_pos; lia|apply Z.div_lt_upper_bound; lia]). rewrite Z.mod_small by lia. by apply wrap_small.
Qed.

Lemma low_byte x : u8 (Z.land x 0xFF) = x mod 256.
Proof. change 0xFF with (2 ^ 8 - 1). rewrite land_low_mask by lia. unfold u8, wrap. by rewrite Z.mod_mod. Qed.

Lemma emits_ext v : 0 <= v < 2 ^ 16 -> emits (option_ext v) (ext v).
Proof.
  intros Hv. unfold option_ext, ext. destruct (Z.leb_spec 269 v).
  - rewrite <- (high_byte (v - 269)), <- (low_byte (v - 269)) by lia. apply (emits_bind _ _ [_] [_]); apply emits_char.
  - destruct (Z.leb_spec 13 v); [|apply emits_nil]. replace [v - 13] with [u8 (v - 13)] by (f_equal; apply wrap_small; lia). apply emits_char.
Qed.

Lemma emits_value o val : val_is o val -> emits (option_value o) val.
Proof.
  intros (El & [(rest & Ev)|(-> & Ev)]); unfold option_value; rewrite Ev, El.
  - apply emits_bytes; [lia|]. apply slice_app_l.
  - apply emits_nil.
Qed.

Lemma nib_range v : 0 <= v -> 0 <= nib v <= 14.
Proof. unfold nib. repeat case_match; lia. Qed.

(** Storing a byte, then another in the same place. *)
Lemma arr_set_twice {A} (m : list A) p x y m1 : arr_set m p x = Some m1 -> arr_get m1 p = Some x /\ arr_set m1 p y = arr_set m p y.
Proof.
  intros E. split; [by eapply arr_get_set_eq|]. unfold arr_set in *. case_decide as Hd; [|done]. injection E as <-.
  rewrite length_insert, decide_True by done. by rewrite list_insert_insert_eq.
Qed.

Lemma first_byte d n : 0 <= d -> 0 <= n ->
  u8 (Z.lor (u8 (Z.shiftl (nib d) 4)) (Z.land (nib n) 15)) = nib d * 16 + nib n.
Proof.
  intros Hd%nib_range Hn%nib_range. rewrite Z.shiftl_mul_pow2 by lia. unfold u8. rewrite (wrap_small 8 (nib d * 2 ^ 4)) by lia.
  change 15 with (2 ^ 4 - 1). rewrite land_low_mask, (Z.mod_small (nib n)) by lia. rewrite lor_add by lia. apply wrap_small. lia.
Qed.

Lemma enc_opt_length d val : (1 <= length (enc_opt d val))%nat.
Proof. cbn. lia. Qed.

Lemma serialize_option o d val m p m' :
  0 <= d < 2 ^ 16 -> opt_num o = d -> val_is o val -> Z.of_nat (length (enc_opt d val)) < 2 ^ 16 -> splice m p (enc_opt d val) = Some m' ->
  CoAPSerialize_Option o m p = Some (Z.of_nat (length (enc_opt d val)), m').
Proof.
  intros Hd En Hv Hlen Hs. pose proof Hv as (El & _). unfold CoAPSerialize_Option. change option_nibble with nib. rewrite En, El. unfold enc_opt in *.
  set (n := Z.of_nat (length val)) in *. assert (0 <= n < 2 ^ 16) as Hn by (subst n; revert Hlen; zlen; lia).
  destruct (splice_app m p [_] _ _ Hs) as (m1 & E1 & E2). rewrite <- arr_set_splice in E1.
  destruct (arr_set m p (u8 (Z.shiftl (nib d) 4))) as [m0|] eqn:E0.
  2: { unfold arr_set in E0, E1. by case_decide. }
  cbn [mbind option_bind]. destruct (arr_set_twice m p _ (nib d * 16 + nib n) m0 E0) as [Eg Et].
  rewrite Eg. cbn [mbind option_bind]. rewrite first_byte, Et, E1 by lia. cbn [mbind option_bind].
  change (Z.of_nat (length [nib d * 16 + nib n])) with 1 in E2.
  pose proof (emits_bind _ _ _ _ (emits_ext d Hd) (emits_bind _ _ _ _ (emits_ext n Hn) (emits_value o val Hv)) _ _ _ E2) as E3. cbn beta in E3.
  destruct (option_ext d _) as [w1|]; [|done]. cbn [mbind option_bind] in *. destruct (option_ext n w1) as [w2|]; [|done].
  cbn [mbind option_bind] in *. rewrite E3. cbn [mbind option_bind w_ptr w_mem]. do 2 f_equal. unfold u16. rewrite wrap_small; revert Hlen; zlen; lia.
Qed.

Lemma take_drop_cons {A} (os : list A) i n o os' : take (S n) (drop i os) = o :: os' -> os !! i = Some o /\ os' = take n (drop (S i) os).
Proof.
  intros E. destruct (drop i os) as [|x t] eqn:Ed; [done|]. injection E as -> <-. split.
  - rewrite <- (Nat.add_0_r i), <- lookup_drop, Ed. done.
  - rewrite <- Nat.add_1_r, <- drop_drop, Ed. done.
Qed.

Lemma arr_get_nat {A} (os : list A) i o : os !! i = Some o -> arr_get os (Z.of_nat i) = Some o.
Proof. intros E. apply arr_get_Some. rewrite Nat2Z.id. split; [lia|done]. Qed.

Lemma serialize_options os off l prev i count m m' :
  0 <= prev -> opts_wf prev l -> opts_built prev (take (length l) (drop i os)) l ->
  0 <= count -> count + Z.of_nat (length (enc_opts prev l)) < 2 ^ 16 -> splice m (off + count) (enc_opts prev l) = Some m' ->
  options_loop (length l) (Z.of_nat i) count os m off = Some (count + Z.of_nat (length (enc_opts prev l)), m').
Proof.
  revert prev i count m. induction l as [|[num val] l IH]; intros prev i count m Hp Hw Hb Hc Hlen Hs.
  - cbn in *. apply splice_nil in Hs as ->. by rewrite Z.add_0_r.
  - cbn [length opts_wf] in *. destruct Hw as [Hnum Hw]. destruct (take (S (length l)) (drop i os)) as [|o os'] eqn:E; [done|].
    apply take_drop_cons in E as [Ho ->]. cbn [opts_built] in Hb. destruct Hb as (En & Hv & Hb). cbn [enc_opts] in *.
    destruct (splice_app _ _ _ _ _ Hs) as (m1 & E1 & E2). rewrite length_app in Hlen |- *. rewrite Nat2Z.inj_add in Hlen |- *.
    pose proof (enc_opt_length (num - prev) val) as Hpos. cbn [options_loop]. rewrite (arr_get_nat _ _ _ Ho). cbn [mbind option_bind].
    rewrite (serialize_option o (num - prev) val _ _ m1) by (done || lia). cbn [mbind option_bind].
    rewrite (proj2 (Z.ltb_lt 0 _)) by lia. unfold u16. rewrite wrap_small by lia.
    replace (Z.of_nat i + 1) with (Z.of_nat (S i)) by lia. rewrite (IH num (S i) _ m1); [f_equal; f_equal; lia|lia|done|done|lia|lia|].
    by rewrite <- Z.add_assoc in E2.
Qed.

Lemma ext_length v : Z.of_nat (length (ext v)) = if 269 <=? v then 2 else if 13 <=? v then 1 else 0.
Proof. unfold ext. by repeat case_match. Qed.

Lemma optionlen_eq o d val :
  opt_num o = d -> val_is o val -> Z.of_nat (length (enc_opt d val)) < 2 ^ 16 ->
  CoAPSerialize_OptionLen o = Z.of_nat (length (enc_opt d val)).
Proof.
  intros <- (El & _) Hl. unfold CoAPSerialize_OptionLen. rewrite El, <- !ext_length. unfold enc_opt in *. revert Hl. zlen. intros Hl.
  unfold u16. rewrite wrap_small; lia.
Qed.

Lemma optionslen_eq os l prev i count :
  0 <= prev -> opts_wf prev l -> opts_built prev (take (length l) (drop i os)) l ->
  0 <= count -> count + Z.of_nat (length (enc_opts prev l)) < 2 ^ 16 ->
  optionslen_loop (length l) (Z.of_nat i) count os = Some (count + Z.of_nat (length (enc_opts prev l))).
Proof.
  revert prev i count. induction l as [|[num val] l IH]; intros prev i count Hp Hw Hb Hc Hlen; [cbn; by rewrite Z.add_0_r|].
  cbn [length opts_wf] in *. destruct Hw as [Hnum Hw]. destruct (take (S (length l)) (drop i os)) as [|o os'] eqn:E; [done|].
  apply take_drop_cons in E as [Ho ->]. cbn [opts_built] in Hb. destruct Hb as (En & Hv & Hb). cbn [enc_opts] in *.
  rewrite length_app in Hlen |- *. rewrite Nat2Z.inj_add in Hlen |- *.
  pose proof (enc_opt_length (num - prev) val) as Hpos. cbn [optionslen_loop]. rewrite (arr_get_nat _ _ _ Ho). cbn [mbind option_bind].
  rewrite (optionlen_eq o (num - prev) val) by (done || lia). rewrite (proj2 (Z.ltb_lt 0 _)) by lia. unfold u16. rewrite wrap_small by lia.
  replace (Z.of_nat i + 1) with (Z.of_nat (S i)) by lia. rewrite (IH num (S i)); [f_equal; lia|lia|done|done|lia|lia].
Qed.

Lemma token_loop_splice tok off t i m m' :
  take (length t) (drop i tok) = t -> splice m (off + Z.of_nat i) t = Some m' -> token_loop (length t) (Z.of_nat i) tok m off = Some m'.
Proof.
  revert i m. induction t as [|b t IH]; intros i m Ht Hs; [cbn; by apply splice_nil in Hs as ->|].
  apply take_drop_cons in Ht as [Hb Ht]. destruct (splice_app m _ [b] t m' Hs) as (m1 & E1 & E2). cbn [length token_loop].
  rewrite (arr_get_nat _ _ _ Hb). cbn [mbind option_bind]. rewrite arr_set_splice, E1. cbn [mbind option_bind].
  replace (Z.of_nat i + 1) with (Z.of_nat (S i)) by lia. apply IH; [done|]. rewrite <- E2. f_equal. cbn. lia.
Qed.

Lemma header_byte0 v t n : 0 <= v < 4 -> 0 <= t < 4 -> 0 <= n < 16 ->
  u8 (Z.lor (Z.lor (Z.shiftl (Z.land v 3) 6) (Z.shiftl (Z.land t 3) 4)) (Z.land n 15)) = v * 64 + t * 16 + n.
Proof.
  intros Hv Ht Hn. change 3 with (2 ^ 2 - 1). change 15 with (2 ^ 4 - 1). rewrite !land_low_mask, !Z.mod_small, !Z.shiftl_mul_pow2 by lia.
  rewrite (lor_add 6 v (t * 2 ^ 4)) by lia. replace (v * 2 ^ 6 + t * 2 ^ 4) with ((v * 4 + t) * 2 ^ 4) by lia.
  rewrite lor_add by lia. unfold u8. rewrite wrap_small; lia.
Qed.

Lemma serialize_header msg a m p m' buflen :
  header msg = mk_coap_header (am_version a) (am_type a) (Z.of_nat (length (am_token a))) (am_code a) (am_id a) -> amsg_wf a -> 4 <= buflen ->
  splice m p (enc_header a) = Some m' -> CoAPSerialize_Header msg m p buflen = Some (4, m').
Proof.
  intros Hh Hw Hb Hs. pose proof (aw_token a Hw). unfold CoAPSerialize_Header. rewrite Hh, (proj2 (Z.ltb_ge buflen 4)) by lia.
  cbn [hd_version hd_type hd_tokenlen hd_code hd_msgid].
  assert (enc_header a = [u8 (Z.lor (Z.lor (Z.shiftl (Z.land (am_version a) 3) 6) (Z.shiftl (Z.land (am_type a) 3) 4)) (Z.land (Z.of_nat (length (am_token a))) 15))] ++
    [u8 (am_code a)] ++ [u8 (Z.shiftr (Z.land (am_id a) 0xFF00) 8)] ++ [u8 (Z.land (am_id a) 0xFF)]) as Ee.
  { unfold enc_header. destruct Hw. rewrite header_byte0, high_byte, low_byte by lia. unfold u8. by rewrite wrap_small by lia. }
  rewrite Ee in Hs.
  pose proof (emits_bind _ _ _ _ (emits_char _) (emits_bind _ _ _ _ (emits_char _) (emits_bind _ _ _ _ (emits_char _) (emits_char _))) _ _ _ Hs) as E.
  cbn beta in E. repeat (destruct (writeChar _ _) as [?w|]; [|done]; cbn [mbind option_bind] in * ). by injection E as ->.
Qed.

(** Wrap-arounds that do nothing, from the inside out. *)
Ltac unwrap := unfold u16; repeat match goal with |- context [wrap ?w ?x] =>
  lazymatch x with context [wrap _ _] => fail | _ => rewrite (wrap_small w x) by lia end end.

Lemma serialize_payload msg p m off m' buflen :
  payloadlen msg = Z.of_nat (length p) -> (p <> [] -> exists rest, payload msg = Some (p ++ rest)) ->
  Z.of_nat (length (enc_payload p)) <= buflen -> (p = [] -> 0 < buflen) -> splice m off (enc_payload p) = Some m' ->
  CoAPSerialize_Payload msg m off buflen = Some (Z.of_nat (length (enc_payload p)), m').
Proof.
  intros El Hp Hlen H0 Hs. unfold CoAPSerialize_Payload. rewrite El. destruct p as [|b p].
  - cbn in *. specialize (H0 eq_refl). rewrite (proj2 (Z.ltb_ge _ _)) by lia. apply splice_nil in Hs as ->. by destruct (payload msg).
  - cbn [enc_payload] in *. set (l := b :: p) in *. assert (1 <= length l)%nat by (subst l; cbn; lia). revert Hlen. zlen. intros Hlen.
    rewrite (proj2 (Z.ltb_ge _ _)) by lia. destruct (Hp ltac:(done)) as [rest ->]. rewrite (proj2 (Z.ltb_lt 0 _)) by lia.
    pose proof (emits_bind _ _ _ _ (emits_char 0xFF) (emits_bytes _ _ _ (Nat2Z.is_nonneg _) (slice_app_l l rest)) _ _ _ Hs) as E. cbn beta in E.
    destruct (writeChar _ _) as [w|]; [|done]. cbn [mbind option_bind] in *. rewrite E. by cbn [mbind option_bind w_mem].
Qed.

Lemma enc_msg_length a :
  Z.of_nat (length (enc_msg a)) = 4 + Z.of_nat (length (am_token a)) + Z.of_nat (length (enc_opts 0 (am_opts a))) + Z.of_nat (length (enc_payload (am_payload a))).
Proof. unfold enc_msg. rewrite !length_app. cbn [enc_header length]. lia. Qed.

Lemma enc_payload_length p : Z.of_nat (length (enc_payload p)) = if 0 <? Z.of_nat (length p) then Z.of_nat (length p) + 1 else 0.
Proof. destruct p; [done|]. rewrite (proj2 (Z.ltb_lt 0 _)) by (cbn; lia). cbn [enc_payload length]. lia. Qed.

Lemma message_length msg a : built msg a -> amsg_wf a -> CoAPSerialize_MessageLength msg = Some (Z.of_nat (length (enc_msg a))).
Proof.
  intros [Hh Ht Hn Ho [Hl Hp]] Hw. pose proof (aw_len a Hw) as Hlen. unfold COAP_MSG_MAX_PDU_LEN in *. rewrite enc_msg_length in *.
  unfold CoAPSerialize_MessageLength, CoAPSerialize_OptionsLen. rewrite Hn, Nat2Z.id, Hh, Hl. cbn [hd_tokenlen].
  change (optionslen_loop (length (am_opts a)) 0 0) with (optionslen_loop (length (am_opts a)) (Z.of_nat 0) 0).
  rewrite (optionslen_eq (options msg) (am_opts a) 0 0 0) by (lia || done || apply Hw). cbn [mbind option_bind].
  rewrite enc_payload_length in *. f_equal. unfold u16. revert Hlen.
  destruct (0 <? Z.of_nat (length (am_payload a))); intros Hlen; unwrap; lia.
Qed.

(** The serialiser writes the wire format. *)
Lemma serialize_message msg a buf :
  built msg a -> amsg_wf a -> COAP_MSG_MAX_PDU_LEN <= Z.of_nat (length buf) ->
  exists buf', splice buf 0 (enc_msg a) = Some buf' /\
    CoAPSerialize_Message (Some msg) (Some buf) COAP_MSG_MAX_PDU_LEN = Some (Z.of_nat (length (enc_msg a)), Some buf').
Proof.
  intros [Hh Ht Hn Ho [Hl Hp]] Hw Hb. pose proof (aw_len a Hw) as Hlen. pose proof (aw_room a Hw) as Hroom. unfold COAP_MSG_MAX_PDU_LEN in *.
  destruct (splice_is_Some buf 0 (enc_msg a)) as [buf' Hs]; [lia..|]. exists buf'. split; [done|]. rewrite enc_msg_length in *.
  unfold enc_msg in Hs. destruct (splice_app _ _ _ _ _ Hs) as (m1 & E1 & Hs1). destruct (splice_app _ _ _ _ _ Hs1) as (m2 & E2 & Hs2).
  destruct (splice_app _ _ _ _ _ Hs2) as (m3 & E3 & E4). change (0 + Z.of_nat (length (enc_header a))) with 4 in *.
  set (nt := Z.of_nat (length (am_token a))) in *. set (no := Z.of_nat (length (enc_opts 0 (am_opts a)))) in *.
  unfold CoAPSerialize_Message. rewrite (serialize_header msg a buf 0 m1) by (done || lia). cbn [mbind option_bind].
  unfold CoAPSerialize_Token. rewrite Hh. cbn [hd_tokenlen]. fold nt. unfold u16. rewrite (wrap_small 16 4), (wrap_small 16 (1280 - 4)) by lia.
  rewrite (proj2 (Z.ltb_ge _ nt)) by lia. subst nt. rewrite Nat2Z.id. set (nt := Z.of_nat (length (am_token a))) in *.
  change (token_loop (length (am_token a)) 0) with (token_loop (length (am_token a)) (Z.of_nat 0)).
  rewrite (token_loop_splice (token msg) _ (am_token a) 0 m1 m2) by (by rewrite ?Z.add_0_r). cbn [mbind option_bind].
  unfold CoAPSerialize_Options. rewrite Hn, Nat2Z.id, (wrap_small 16 nt), (wrap_small 16 (1280 - 4 - nt)) by lia.
  change (options_loop (length (am_opts a)) 0 0) with (options_loop (length (am_opts a)) (Z.of_nat 0) 0).
  rewrite (serialize_options (options msg) _ (am_opts a) 0 0 0 m2 m3); [|lia|apply Hw|done|lia|fold no; lia|by rewrite Z.add_0_r].
  cbn [mbind option_bind]. fold no. rewrite Z.add_0_l, (wrap_small 16 no), (wrap_small 16 (1280 - 4 - nt - no)) by lia.
  rewrite (serialize_payload msg (am_payload a) m3 _ buf'); [|done|done|lia| |done].
  - cbn [mbind option_bind]. unwrap. do 2 f_equal. lia.
  - intros E. specialize (Hroom E). rewrite E in Hroom. cbn in Hroom. lia.
Qed.

(** ** Deserialising *)

Lemma arr_get_here {A} (pre : list A) x post : arr_get (pre ++ x :: post) (Z.of_nat (length pre)) = Some x.
Proof. apply arr_get_nat. by rewrite lookup_app_r, Nat.sub_diag by lia. Qed.

Lemma arr_get_next {A} (pre : list A) x y post : arr_get (pre ++ x :: y :: post) (Z.of_nat (length pre) + 1) = Some y.
Proof.
  rewrite <- (arr_get_here (pre ++ [x]) y post). rewrite <- app_assoc. cbn [app]. f_equal. rewrite length_app. cbn. lia.
Qed.

Lemma option_read_eq d base pre post :
  0 <= d -> 0 <= base -> base + d < 2 ^ 16 ->
  option_read (nib d) base (pre ++ ext d ++ post) (Z.of_nat (length pre)) = Some (base + d, Z.of_nat (length pre) + Z.of_nat (length (ext d))).
Proof.
  intros Hd Hb Hs. unfold option_read, nib, ext. destruct (Z.leb_spec 269 d); [|destruct (Z.leb_spec 13 d)].
  - cbn [Z.eqb Pos.eqb app]. rewrite arr_get_here. cbn [mbind option_bind]. rewrite arr_get_next. cbn [mbind option_bind length].
    rewrite Z.shiftl_mul_pow2 by lia. pose proof (Z.div_mod (d - 269) 256 ltac:(lia)). pose proof (Z.mod_pos_bound (d - 269) 256 ltac:(lia)).
    unwrap. do 2 f_equal. lia.
  - cbn [Z.eqb Pos.eqb app]. rewrite arr_get_here. cbn [mbind option_bind length]. unwrap. do 2 f_equal. lia.
  - rewrite !(proj2 (Z.eqb_neq d _)) by lia. cbn [length]. unwrap. by rewrite Z.add_0_r.
Qed.

Lemma nib_bits d n : 0 <= d -> 0 <= n ->
  Z.shiftr (Z.land (nib d * 16 + nib n) 0xF0) 4 = nib d /\ Z.land (nib d * 16 + nib n) 0x0F = nib n /\ nib d * 16 + nib n <> 0xFF.
Proof.
  intros Hd%nib_range Hn%nib_range. change 0xF0 with ((2 ^ 4 - 1) * 2 ^ 4). change 0x0F with (2 ^ 4 - 1).
  rewrite land_field, land_low_mask, Z.shiftr_div_pow2, Z.div_mul by lia. change (2 ^ 4) with 16.
  rewrite Z.div_add_l, (Z.div_small (nib n)), Z.add_0_r by lia. rewrite Z.add_comm, Z.mod_add, !Z.mod_small by lia. lia.
Qed.

Lemma deserialize_option prev d val pre post :
  0 <= prev -> 0 <= d -> prev + d < 2 ^ 16 -> Z.of_nat (length val) < 2 ^ 16 ->
  CoAPDeserialize_Option (pre ++ enc_opt d val ++ post) (Z.of_nat (length pre)) prev =
    Some (mk_coap_option (prev + d) (Z.of_nat (length val)) (Some (val ++ post)), prev + d, Z.of_nat (length (enc_opt d val))).
Proof.
  intros Hp Hd Hs Hv. unfold CoAPDeserialize_Option, enc_opt. set (n := Z.of_nat (length val)) in *. cbn [app]. rewrite arr_get_here.
  cbn [mbind option_bind]. destruct (nib_bits d n) as (-> & -> & _); [lia..|]. set (x := nib d * 16 + nib n).
  replace (pre ++ x :: (ext d ++ ext n ++ val) ++ post) with ((pre ++ [x]) ++ ext d ++ ext n ++ val ++ post) by (by rewrite <- !app_assoc).
  replace (Z.of_nat (length pre) + 1) with (Z.of_nat (length (pre ++ [x]))) by (rewrite length_app; cbn; lia).
  rewrite option_read_eq by lia. cbn [mbind option_bind]. rewrite (app_assoc (pre ++ [x]) (ext d)), <- Nat2Z.inj_add, <- length_app.
  rewrite option_read_eq by lia. cbn [mbind option_bind]. rewrite (app_assoc _ (ext n)), <- Nat2Z.inj_add, <- length_app, Nat2Z.id, drop_app_length.
  rewrite Z.add_0_l. do 2 f_equal. subst n. zlen. lia.
Qed.

Lemma arr_set_nat {A} (l : list A) i x : (i < length l)%nat -> arr_set l (Z.of_nat i) x = Some (<[i := x]> l).
Proof. intros Hi. unfold arr_set. rewrite decide_True by lia. by rewrite Nat2Z.id. Qed.

Lemma kept_prefix {A} (os opts : list A) i o :
  (i < length opts)%nat -> take (S i) os = take (S i) (<[i := o]> opts) -> take i os = take i opts /\ os !! i = Some o.
Proof.
  intros Hi Et. split.
  - pose proof (f_equal (take i) Et) as Et'. rewrite !take_take, !Nat.min_l in Et' by lia. rewrite Et'. by rewrite take_insert_ge.
  - rewrite <- (lookup_take_lt os (S i)), Et, lookup_take_lt by lia. by apply list_lookup_insert_eq.
Qed.

(** The options loop at the option [i] ends at the payload, or where the message ends. *)
Lemma deserialize_options l fuel msg prev i pre p post off buflen :
  (length l < fuel)%nat -> (i + length l <= length (options msg) <= 12)%nat -> optnum msg = Z.of_nat i ->
  0 <= prev -> opts_wf prev l -> off + buflen < 2 ^ 15 ->
  Z.of_nat (length (pre ++ enc_opts prev l ++ enc_payload p)) = off + buflen ->
  exists os,
    deoptions_loop fuel msg (pre ++ enc_opts prev l ++ enc_payload p ++ post) off buflen (Z.of_nat i) (Z.of_nat (length pre) - off)
        (Z.of_nat (length pre)) prev =
      Some (Z.of_nat (length (pre ++ enc_opts prev l)) - off, set_optnum (Z.of_nat (i + length l)) (set_options os msg)) /\
    length os = length (options msg) /\ take i os = take i (options msg) /\ opts_read (take (length l) (drop i os)) l.
Proof.
  revert fuel msg prev i pre. induction l as [|[num val] l IH]; intros fuel msg prev i pre Hf Hi Hn Hp Hw Hl Hlen; (destruct fuel as [|fuel]; [cbn in Hf; lia|]).
  - exists (options msg). split; [|split_and!; [done..|constructor]]. cbn [enc_opts app deoptions_loop]. rewrite app_nil_r.
    assert (msg = set_optnum (Z.of_nat (i + 0)) (set_options (options msg) msg)) as Em by (destruct msg; cbn in *; by rewrite Hn, Nat.add_0_r).
    destruct (Z.ltb_spec (Z.of_nat (length pre) - off) buflen) as [Hlt|Hge]; [|cbn; by rewrite <- Em].
    destruct p as [|b p]; [cbn in Hlen; rewrite app_nil_r in Hlen; lia|]. cbn [enc_payload app]. rewrite arr_get_here. cbn [mbind option_bind].
    cbn. by rewrite <- Em.
  - cbn [length opts_wf] in *. destruct Hw as [Hnum Hw]. cbn [enc_opts] in *.
    set (d := num - prev) in *. assert (Z.of_nat (length val) < 2 ^ 15) as Hval by (revert Hlen; unfold enc_opt; zlen; lia).
    assert (length (enc_opt d val) <= 5 + length val)%nat as Hel.
    { unfold enc_opt, ext. cbn [length]. rewrite !length_app. repeat case_match; cbn; lia. }
    pose proof (enc_opt_length d val) as He1. cbn [deoptions_loop]. rewrite (proj2 (Z.ltb_lt _ _)).
    2: { revert Hlen. rewrite !length_app. lia. }
    rewrite <- (app_assoc (enc_opt d val)). rewrite (deserialize_option prev d val pre) by (subst d; lia).
    replace (arr_get (pre ++ enc_opt d val ++ _) (Z.of_nat (length pre))) with (Some (nib d * 16 + nib (Z.of_nat (length val)))).
    2: { unfold enc_opt. cbn [app]. by rewrite arr_get_here. }
    cbn [mbind option_bind]. destruct (nib_bits d (Z.of_nat (length val))) as (_ & _ & Hne); [subst d; lia..|]. rewrite (proj2 (Z.eqb_neq _ _) Hne).
    rewrite arr_set_nat by lia. cbn [mbind option_bind]. set (o := mk_coap_option _ _ _). set (os1 := <[i := o]> (options msg)).
    assert (length os1 = length (options msg)) as El1 by apply length_insert.
    destruct (IH fuel (set_optnum (u8 (optnum msg + 1)) (set_options os1 msg)) num (S i) (pre ++ enc_opt d val)) as (os & E & Elen & Et & Hr).
    + lia.
    + cbn [options set_optnum set_options]. lia.
    + cbn. rewrite Hn. unfold u8. rewrite wrap_small; lia.
    + lia.
    + done.
    + done.
    + rewrite <- Hlen. by rewrite <- !app_assoc.
    + exists os. cbn [options set_optnum set_options] in *. split_and!; [|congruence| |].
      * rewrite <- !app_assoc in E. rewrite length_app, Nat2Z.inj_add in E. unfold u16. rewrite (wrap_small 16 (Z.of_nat (length (enc_opt d val)))) by lia.
        replace (prev + d) with num by (subst d; lia). replace (Z.of_nat i + 1) with (Z.of_nat (S i)) by lia.
        replace (Z.of_nat (length pre) - off + Z.of_nat (length (enc_opt d val))) with (Z.of_nat (length pre) + Z.of_nat (length (enc_opt d val)) - off) by lia.
        rewrite E. by replace (S i + length l)%nat with (i + S (length l))%nat by lia.
      * apply (kept_prefix os (options msg) i o); [lia|done].
      * destruct (kept_prefix os (options msg) i o) as [_ Ho]; [lia|done|].
        rewrite (drop_S os o i Ho). cbn [take length]. constructor; [|exact Hr]. cbn. split; [subst d; lia|]. split; [done|]. left. by eexists.
Qed.

Lemma header_bits v t n : 0 <= v < 4 -> 0 <= t < 4 -> 0 <= n < 16 ->
  let b := v * 64 + t * 16 + n in Z.land (Z.shiftr b 6) 3 = v /\ Z.land (Z.shiftr b 4) 3 = t /\ Z.land b 15 = n.
Proof.
  intros Hv Ht Hn b. change 3 with (2 ^ 2 - 1). change 15 with (2 ^ 4 - 1). rewrite !land_low_mask, !Z.shiftr_div_pow2 by lia.
  assert (b / 2 ^ 6 = v) as -> by (symmetry; apply (Z.div_unique_pos _ _ _ (t * 16 + n)); subst b; lia).
  assert (b / 2 ^ 4 = v * 4 + t) as -> by (symmetry; apply (Z.div_unique_pos _ _ _ n); subst b; lia).
  split_and!; [by apply Z.mod_small| |]; symmetry; [apply (Z.mod_unique_pos _ _ v)|apply (Z.mod_unique_pos _ _ (v * 4 + t))]; subst b; lia.
Qed.

Lemma deserialize_header msg a rest :
  amsg_wf a ->
  CoAPDeserialize_Header msg (enc_header a ++ rest) 0 =
    Some (4, set_header (mk_coap_header (am_version a) (am_type a) (Z.of_nat (length (am_token a))) (am_code a) (am_id a)) msg).
Proof.
  intros Hw. destruct Hw as [Hv Ht Hc Hi Htok _ _ _ _]. unfold CoAPDeserialize_Header, enc_header. cbn [app].
  destruct (header_bits (am_version a) (am_type a) (Z.of_nat (length (am_token a)))) as (E1 & E2 & E3); [lia..|]. set (b := am_version a * 64 + _ + _) in *.
  set (l := b :: am_code a :: am_id a / 256 :: am_id a mod 256 :: rest). change (arr_get l 0) with (Some b). cbn [mbind option_bind].
  change (arr_get l (0 + 1)) with (Some (am_code a)). cbn [mbind option_bind]. change (arr_get l (0 + 2)) with (Some (am_id a / 256)).
  cbn [mbind option_bind]. change (arr_get l (0 + 3)) with (Some (am_id a mod 256)). cbn [mbind option_bind].
  rewrite E1, E2, E3. pose proof (Z.div_mod (am_id a) 256). pose proof (Z.mod_pos_bound (am_id a) 256). rewrite Z.shiftl_mul_pow2 by lia. unwrap.
  do 4 f_equal. lia.
Qed.

Lemma deserialize_token msg pre t rest :
  hd_tokenlen (header msg) = Z.of_nat (length t) -> (length t <= length (token msg))%nat ->
  exists tok, CoAPDeserialize_Token msg (pre ++ t ++ rest) (Z.of_nat (length pre)) = Some (Z.of_nat (length t), set_token tok msg) /\
    take (length t) tok = t.
Proof.
  intros Eh Hl. unfold CoAPDeserialize_Token, memcpy. rewrite Eh.
  assert (slice (pre ++ t ++ rest) (Z.of_nat (length pre)) (Z.of_nat (length t)) = Some t) as ->.
  { unfold slice. rewrite decide_True by (rewrite !length_app; lia). by rewrite !Nat2Z.id, drop_app_length, take_app_length. }
  cbn [mbind option_bind]. unfold splice. rewrite decide_True by lia. eexists. split; [done|].
  change (take (length t) (t ++ drop (length t) (token msg)) = t). by rewrite take_app_length.
Qed.

(** What follows a message in the buffer: if it has no payload, the byte behind it is read too. *)
Definition ends (a : amsg) (post : list Z) : Prop := am_payload a = [] -> exists z post', post = z :: post' /\ z <> 0xFF.

Lemma deserialize_payload msg pre p post :
  payload msg = None -> payloadlen msg = 0 -> Z.of_nat (length p) < 2 ^ 16 -> (p = [] -> exists z post', post = z :: post' /\ z <> 0xFF) ->
  exists n msg', CoAPDeserialize_Payload msg (pre ++ enc_payload p ++ post) (Z.of_nat (length pre)) (Z.of_nat (length (enc_payload p))) = Some (n, msg') /\
    msg' = set_payload (payload msg') (Z.of_nat (length p)) msg /\ (p <> [] -> payload msg' = Some (p ++ post)).
Proof.
  intros E1 E2 Hl Hp. unfold CoAPDeserialize_Payload. destruct p as [|b p].
  - destruct (Hp eq_refl) as (z & post' & -> & Hz). cbn [enc_payload app]. rewrite arr_get_here. cbn [mbind option_bind].
    rewrite (proj2 (Z.eqb_neq z _) Hz). eexists _, _. split; [done|]. split; [|done]. destruct msg. cbn in *. by subst.
  - cbn [enc_payload app]. set (l := b :: p) in *. rewrite arr_get_here. cbn [mbind option_bind Z.eqb Pos.eqb]. eexists _, _. split; [done|].
    assert (drop (Z.to_nat (Z.of_nat (length pre) + 1)) (pre ++ 255 :: b :: p ++ post) = l ++ post) as ->.
    { replace (Z.to_nat (Z.of_nat (length pre) + 1)) with (length (pre ++ [255])) by (rewrite length_app; cbn; lia).
      replace (pre ++ 255 :: b :: p ++ post) with ((pre ++ [255]) ++ l ++ post) by (by rewrite <- app_assoc). by rewrite drop_app_length. }
    split; [|done]. cbn [payload set_payload]. f_equal. unfold u16. cbn [length]. rewrite wrap_small; lia.
Qed.

Lemma deserialize_message a post :
  amsg_wf a -> ends a post ->
  exists msg, CoAPDeserialize_Message (Some zero_message) (Some (enc_msg a ++ post)) (Z.of_nat (length (enc_msg a))) = Some (COAP_SUCCESS, Some msg) /\
    read_as msg a.
Proof.
  intros Hw He. pose proof (aw_len a Hw) as Hlen. pose proof (aw_token a Hw). pose proof (aw_optnum a Hw). unfold COAP_MSG_MAX_PDU_LEN in *.
  pose proof (enc_msg_length a) as El. unfold CoAPDeserialize_Message. rewrite (proj2 (Z.ltb_ge _ 4)) by lia.
  assert (enc_msg a ++ post = enc_header a ++ am_token a ++ enc_opts 0 (am_opts a) ++ enc_payload (am_payload a) ++ post) as -> by (unfold enc_msg; by rewrite <- !app_assoc).
  rewrite deserialize_header by done. cbn [mbind option_bind].
  set (m1 := set_header _ zero_message). change (0 + 4) with (Z.of_nat (length (enc_header a))).
  destruct (deserialize_token m1 (enc_header a) (am_token a) (enc_opts 0 (am_opts a) ++ enc_payload (am_payload a) ++ post)) as (tok & -> & Etok); [done|done|].
  cbn [mbind option_bind]. set (m2 := set_token tok m1). unfold CoAPDeserialize_Options. set (pre := enc_header a ++ am_token a).
  rewrite (app_assoc (enc_header a)). fold pre. change 4 with (Z.of_nat (length (enc_header a))).
  rewrite <- Nat2Z.inj_add, <- length_app. fold pre. set (off := Z.of_nat (length pre)).
  destruct (deserialize_options (am_opts a) 13 (set_optnum 0 m2) 0 0 pre (am_payload a) post off
    (Z.of_nat (length (enc_msg a)) - Z.of_nat (length (enc_header a)) - Z.of_nat (length (am_token a)))) as (os & E & Elen & _ & Hr); try done; try lia.
  { apply Hw. }
  { cbn [length enc_header]. subst off pre. rewrite length_app. cbn [length enc_header]. lia. }
  { subst off pre. unfold enc_msg. rewrite !length_app. lia. }
  fold off in E. rewrite Z.sub_diag in E. change (Z.of_nat 0) with 0 in E. rewrite E. cbn [mbind option_bind]. set (m3 := set_optnum _ _).
  rewrite (app_assoc pre). replace (off + (Z.of_nat (length (pre ++ enc_opts 0 (am_opts a))) - off)) with (Z.of_nat (length (pre ++ enc_opts 0 (am_opts a)))) by lia.
  destruct (deserialize_payload m3 (pre ++ enc_opts 0 (am_opts a)) (am_payload a) post) as (n & m4 & E4 & Em & Hp); [done|done| |done|].
  { rewrite enc_payload_length in El. revert El. destruct (Z.ltb_spec 0 (Z.of_nat (length (am_payload a)))); lia. }
  replace (Z.of_nat (length (enc_msg a)) - _ - _ - _) with (Z.of_nat (length (enc_payload (am_payload a)))).
  2: { subst off pre. unfold enc_msg. rewrite !length_app. lia. }
  rewrite E4. cbn [mbind option_bind]. exists m4. split; [done|]. rewrite Em. split; try done. split; [done|]. intros Hne. exists post. by apply Hp.
Qed.

(** ** Building a message *)

Inductive api_call :=
  | SetId (id : Z)
  | SetType (type : Z)
  | SetCode (code : Z)
  | SetToken (tok : list Z)
  | SetPayload (p : list Z)
  | AddStr (num : Z) (data : list Z)
  | AddUint (num data : Z).

(** The calls with all pointers given; memory is there. *)
Definition api_exec (call : api_call) (m : CoAPMessage) : option (Z * option CoAPMessage) :=
  let some r := match r with Some (ret, m) => Some (ret, Some m) | None => None end in
  match call with
  | SetId id => Some (CoAPMessageId_set (Some m) id)
  | SetType type => Some (CoAPMessageType_set (Some m) type)
  | SetCode code => Some (CoAPMessageCode_set (Some m) code)
  | SetToken tok => CoAPMessageToken_set (Some m) (Some tok) (Z.of_nat (length tok))
  | SetPayload p => Some (CoAPMessagePayload_set (Some m) (Some p) (Z.of_nat (length p)))
  | AddStr num data => some (CoAPStrOption_add true m num data (Z.of_nat (length data)))
  | AddUint num data => some (CoAPUintOption_add true m num data)
  end.

(** A number in as few bytes as the code uses: 0, 1, 2 or 4, the high ones first. *)
Definition uint_bytes (data : Z) : list Z :=
  if data =? 0 then []
  else if data <? 256 then [data]
  else if data <? 65536 then [data / 256; data mod 256]
  else [data / 16777216; data / 65536 mod 256; data / 256 mod 256; data mod 256].

Definition api_spec (call : api_call) (a : amsg) : amsg :=
  let opt num val := mk_amsg (am_version a) (am_type a) (am_code a) (am_id a) (am_token a) (am_opts a ++ [(num, val)]) (am_payload a) in
  match call with
  | SetId id => mk_amsg (am_version a) (am_type a) (am_code a) id (am_token a) (am_opts a) (am_payload a)
  | SetType type => mk_amsg (am_version a) type (am_code a) (am_id a) (am_token a) (am_opts a) (am_payload a)
  | SetCode code => mk_amsg (am_version a) (am_type a) code (am_id a) (am_token a) (am_opts a) (am_payload a)
  | SetToken tok => mk_amsg (am_version a) (am_type a) (am_code a) (am_id a) tok (am_opts a) (am_payload a)
  | SetPayload p => mk_amsg (am_version a) (am_type a) (am_code a) (am_id a) (am_token a) (am_opts a) p
  | AddStr num data => opt num data
  | AddUint num data => opt num (uint_bytes data)
  end.

Definition last_num (l : list (Z * list Z)) : Z := default 0 (fst <$> last l).

#[local] Arguments last_num : simpl never.

(** Options are added in the order of their numbers, which fit the 8 bits kept of the number before. *)
Definition api_ok (call : api_call) (a : amsg) : Prop :=
  let room num := last_num (am_opts a) <= num < 256 /\ (length (am_opts a) < 12)%nat in
  match call with
  | SetType type => 0 <= type < 4
  | SetCode code => 0 <= code < 256
  | SetToken tok => (length tok <= 12)%nat
  | AddStr num _ => room num
  | AddUint num data => room num /\ 0 <= data < 2 ^ 32 /\ data <> 256
  | _ => True
  end.

(** A message under construction. *)
Record building (m : CoAPMessage) (a : amsg) : Prop := {
  bd_built : built m a;
  bd_token : length (token m) = 12%nat;
  bd_options : length (options m) = 12%nat;
  bd_delta : optdelta m = last_num (am_opts a) /\ 0 <= optdelta m < 256;
  bd_num : (length (am_opts a) <= 12)%nat
}.

Definition empty_amsg : amsg := mk_amsg 1 COAP_MESSAGE_TYPE_ACK 0 0 [] [] [].

Lemma init_building m0 : exists m, CoAPMessage_init (Some m0) = (COAP_SUCCESS, Some m) /\ building m empty_amsg.
Proof. eexists. split; [done|]. split; [split| | | |]; cbn; try done; lia. Qed.

Lemma last_num_snoc l num val : last_num (l ++ [(num, val)]) = num.
Proof. unfold last_num. by rewrite last_snoc. Qed.

Lemma opts_built_snoc l os prev o num val :
  opts_built prev os l -> opt_num o = num - default prev (fst <$> last l) -> val_is o val -> opts_built prev (os ++ [o]) (l ++ [(num, val)]).
Proof.
  revert os prev. induction l as [|[n v] l IH]; intros os prev Hb En Hv; (destruct os as [|o' os]; [|try done]); try done.
  cbn in *. destruct Hb as (E & Hv' & Hb). split_and!; [done..|]. apply IH; [done| |done]. rewrite En.
  destruct l as [|y l]; [done|]. change (last ((n, v) :: y :: l)) with (last (y :: l)). by destruct (last (y :: l)) eqn:E'; [|apply last_None in E'].
Qed.

Lemma take_insert_last {A} (l : list A) i x : (i < length l)%nat -> take (S i) (<[i := x]> l) = take i l ++ [x].
Proof.
  intros Hi. rewrite (take_S_r _ _ x) by (by apply list_lookup_insert_eq). by rewrite take_insert_ge by lia.
Qed.

Lemma option_add_building m a num len val bytes :
  building m a -> last_num (am_opts a) <= num < 256 -> (length (am_opts a) < 12)%nat -> val_is (mk_coap_option num len val) bytes ->
  exists m', option_add m num len val = Some m' /\
    building m' (mk_amsg (am_version a) (am_type a) (am_code a) (am_id a) (am_token a) (am_opts a ++ [(num, bytes)]) (am_payload a)).
Proof.
  intros [[Hh Ht Hn Ho Hp] Htok Hopt [Hd Hd'] Hnum] Hr Hl Hv. unfold option_add. rewrite Hn, arr_set_nat by lia. cbn [mbind option_bind].
  eexists. split; [done|]. unfold u8, u16. rewrite !wrap_small by lia. split; cbn; [split; cbn; try done| | | |].
  - rewrite length_app. cbn. lia.
  - rewrite length_app. cbn [length]. rewrite Nat.add_1_r, take_insert_last by lia.
    apply opts_built_snoc; [done| |done]. cbn. by rewrite Hd.
  - done.
  - by rewrite length_insert.
  - rewrite last_num_snoc. lia.
  - rewrite length_app. cbn. lia.
Qed.

Lemma uint_option_eq data : 0 <= data < 2 ^ 32 -> data <> 256 -> uint_option data = (Z.of_nat (length (uint_bytes data)), uint_bytes data).
Proof.
  intros Hd H256. unfold uint_option, uint_bytes. destruct (Z.eqb_spec data 0); [done|].
  assert (forall k, 0 <= k -> u8 (Z.shiftr (Z.land data ((2 ^ 8 - 1) * 2 ^ k)) k) = data / 2 ^ k mod 256) as Hb.
  { intros k Hk. rewrite land_field, Z.shiftr_div_pow2, Z.div_mul by lia. unfold u8, wrap. by rewrite Z.mod_mod. }
  destruct (Z.ltb_spec data 256); [|destruct (Z.ltb_spec data 65536)].
  - rewrite (proj2 (Z.leb_le _ _)) by lia. unfold u8. by rewrite wrap_small by lia.
  - rewrite (proj2 (Z.leb_gt _ _)), (proj2 (Z.leb_le _ _)), high_byte, low_byte by lia. done.
  - rewrite !(proj2 (Z.leb_gt _ _)), low_byte by lia. change 0xFF000000 with ((2 ^ 8 - 1) * 2 ^ 24). change 0xFF0000 with ((2 ^ 8 - 1) * 2 ^ 16).
    change 0xFF00 with ((2 ^ 8 - 1) * 2 ^ 8). rewrite !Hb by lia. change (2 ^ 24) with 16777216.
    rewrite (Z.mod_small (data / 16777216)); [done|]. split; [apply Z.div_pos; lia|apply Z.div_lt_upper_bound; lia].
Qed.

(** Each call does what it says and keeps the message in shape. *)
Lemma api_step call m a :
  building m a -> api_ok call a -> exists m', api_exec call m = Some (COAP_SUCCESS, Some m') /\ building m' (api_spec call a).
Proof.
  intros Hb Hok. assert ((length (am_opts a) < 12)%nat -> COAP_MSG_MAX_OPTION_NUM <=? optnum m = false) as Hroom.
  { intros Hl. apply Z.leb_gt. rewrite (sf_optnum _ _ _ (bd_built m a Hb)). unfold COAP_MSG_MAX_OPTION_NUM. lia. }
  destruct call as [id|type|code|tok|p|num data|num data]; cbn in *.
  1,3,5: destruct Hb as [[Hh Ht Hn Ho Hp] Htok Hopt Hd Hnum]; rewrite ?andb_false_r; eexists; (split; [done|]); split; try done; split; try done; cbn; rewrite ?Hh; try done.
  - unfold u8. by rewrite wrap_small by lia.
  - split; [done|]. intros _. exists []. by rewrite app_nil_r.
  - destruct Hb as [[Hh Ht Hn Ho Hp] Htok Hopt Hd Hnum]. assert (type = 0 \/ type = 1 \/ type = 2 \/ type = 3) as Ht' by lia.
    eexists. split; [by destruct Ht' as [->|[->|[->| ->]]]|]. split; try done. split; try done. cbn. by rewrite Hh.
  - destruct Hb as [[Hh Ht Hn Ho Hp] Htok Hopt Hd Hnum]. rewrite (proj2 (Z.ltb_ge COAP_MSG_MAX_TOKEN_LEN _)) by (unfold COAP_MSG_MAX_TOKEN_LEN; lia).
    unfold memcpy. rewrite slice_all. cbn [mbind option_bind]. unfold splice. rewrite decide_True by lia. eexists. split; [done|].
    split; try done; [split; try done|].
    + cbn. rewrite Hh. by rewrite Z.mod_small by lia.
    + change (take (length tok) (tok ++ drop (length tok) (token m)) = tok). by rewrite take_app_length.
    + change (length (tok ++ drop (length tok) (token m)) = 12%nat). rewrite length_app, length_drop. lia.
  - destruct Hok as [Hr Hl]. unfold CoAPStrOption_add. rewrite (Hroom Hl), slice_all. cbn [mbind option_bind].
    destruct (option_add_building m a num (Z.of_nat (length data)) (Some data) data Hb Hr Hl) as (m' & -> & Hb').
    { split; [done|]. left. exists []. by rewrite app_nil_r. }
    by exists m'.
  - destruct Hok as ([Hr Hl] & Hd & H256). unfold CoAPUintOption_add. rewrite (Hroom Hl), uint_option_eq by done. cbn [negb]. rewrite orb_false_r.
    destruct (option_add_building m a num (Z.of_nat (length (uint_bytes data))) (if data =? 0 then None else Some (uint_bytes data)) (uint_bytes data) Hb Hr Hl) as (m' & -> & Hb').
    { split; [done|]. destruct (Z.eqb_spec data 0) as [->|]; [by right|]. left. exists []. by rewrite app_nil_r. }
    by exists m'.
Qed.

Fixpoint api_run (l : list api_call) (m : CoAPMessage) : option CoAPMessage :=
  match l with
  | [] => Some m
  | call :: l => '(_, m) ← api_exec call m; m ← m; api_run l m
  end.

(** The calls [l] are in order and describe the message [a']. *)
Fixpoint api_describes (l : list api_call) (a a' : amsg) : Prop :=
  match l with
  | [] => a' = a
  | call :: l => api_ok call a /\ api_describes l (api_spec call a) a'
  end.

Lemma api_run_building l m a a' : building m a -> api_describes l a a' -> exists m', api_run l m = Some m' /\ building m' a'.
Proof.
  revert m a. induction l as [|call l IH]; intros m a Hb Hd; [cbn in *; subst; by exists m|]. destruct Hd as [Hok Hd].
  destruct (api_step call m a Hb Hok) as (m1 & E & Hb1). cbn. rewrite E. cbn. by apply (IH m1 (api_spec call a)).
Qed.
