(* ===== verification/CoapClient.v ===== *)
(** * CoAP: the client

    Sending, receiving an answer and retransmission. *)

From S2P Require Import Prelude CircBuf Mqtt MqttSpec Coap CoapSpec.
Local Open Scope Z_scope.

(** ** Sending *)

Section client.
Context `{CoapPort}.

Lemma splice_slice b l b' : splice b 0 l = Some b' -> slice b' 0 (Z.of_nat (length l)) = Some l.
Proof.
  unfold splice. case_decide as Hd; [|done]. intros [= <-]. exact (slice_app_l l _).
Qed.

(** The node for a message. *)
Definition new_node (m : CoAPMessage) (a : amsg) (stored : bool) : CoAPSendNode :=
  let con := am_type a =? COAP_MESSAGE_TYPE_CON in
  mk_coap_node (msg_user m) (am_id a) 0 (am_token a) (if con then 0 else 4) (if con then 2 else 10) 2
    (if stored then Some (enc_msg a) else None) (Z.of_nat (length (enc_msg a))) (msg_handler m).

Definition wants_answer (a : amsg) : bool :=
  ((1 <=? am_code a) && (am_code a <? 32)) || ((am_code a =? 69) && (am_type a =? COAP_MESSAGE_TYPE_CON)).

Lemma list_add c m a :
  header m = mk_coap_header (am_version a) (am_type a) (Z.of_nat (length (am_token a))) (am_code a) (am_id a) ->
  take (length (am_token a)) (token m) = am_token a -> (length (am_token a) <= 8)%nat ->
  slice (sendbuf c) 0 (Z.of_nat (length (enc_msg a))) = Some (enc_msg a) ->
  exists r c', CoAPMessageList_add c m (Z.of_nat (length (enc_msg a))) = Some (r, c') /\ sent c' = sent c /\ handled c' = handled c /\
    sendbuf c' = sendbuf c /\ recvbuf c' = recvbuf c /\
    sendlist c' = sendlist c ++ (if coap_malloc_ok (mallocs c) then [new_node m a (coap_malloc_ok (S (mallocs c)))] else []).
Proof.
  intros Hh Ht Htok Es. unfold CoAPMessageList_add, coap_malloc. cbn [mallocs].
  destruct (coap_malloc_ok (mallocs c)); [|eexists _, _; split; [done|]; by rewrite app_nil_r].
  rewrite Hh. cbn [hd_type hd_tokenlen hd_msgid]. rewrite (proj2 (Z.leb_le _ 8)) by lia.
  assert (slice (token m) 0 (Z.of_nat (length (am_token a))) = Some (am_token a)) as Et.
  { pose proof (f_equal length Ht) as El. rewrite length_take in El. rewrite slice_prefix by lia. by rewrite Nat2Z.id, Ht. }
  rewrite Et. unfold new_node. cbn [mbind option_bind sendbuf]. rewrite Es. cbn [mbind option_bind].
  by destruct (am_type a =? COAP_MESSAGE_TYPE_CON), (coap_malloc_ok (S (mallocs c))); cbn [mbind option_bind]; eexists _, _.
Qed.

(** The datagram goes out; if that succeeds and there is memory, a message that wants an answer is remembered. *)
Lemma send_message c m a :
  built m a -> amsg_wf a -> (length (am_token a) <= 8)%nat -> COAP_MSG_MAX_PDU_LEN <= Z.of_nat (length (sendbuf c)) ->
  exists ret c', CoAPMessage_send (Some c) (Some m) = Some (ret, Some c') /\ sent c' = sent c ++ [enc_msg a] /\
    (ret = COAP_SUCCESS <-> u32 (HAL_UDP_write (length (sent c))) <> u32 (-1)) /\
    length (sendbuf c') = length (sendbuf c) /\ recvbuf c' = recvbuf c /\ handled c' = handled c /\
    sendlist c' = sendlist c ++
      (if bool_decide (ret = COAP_SUCCESS) && wants_answer a && coap_malloc_ok (mallocs c) then [new_node m a (coap_malloc_ok (S (mallocs c)))] else []).
Proof.
  intros Hb Hw Htok Hbuf. pose proof (aw_len a Hw) as Hlen. unfold CoAPMessage_send. rewrite (message_length m a Hb Hw). cbn [mbind option_bind].
  rewrite (proj2 (Z.ltb_ge COAP_MSG_MAX_PDU_LEN _)) by lia.
  destruct (splice_is_Some (sendbuf c) 0 (replicate (Z.to_nat COAP_MSG_MAX_PDU_LEN) 0)) as [b0 E0]; [lia|rewrite length_replicate; unfold COAP_MSG_MAX_PDU_LEN in *; lia|].
  rewrite E0. cbn [mbind option_bind]. apply splice_length in E0.
  destruct (serialize_message m a b0 Hb Hw) as (b1 & E1 & ->); [rewrite E0; lia|]. cbn [mbind option_bind]. unfold COAP_MSG_MAX_PDU_LEN in *.
  unfold u16. rewrite wrap_small by lia. pose proof (splice_slice _ _ _ E1) as Es. rewrite Es. cbn [mbind option_bind]. apply splice_length in E1.
  unfold CoAPNetwork_write. cbn [sent set_sendbuf]. set (ok := u32 (HAL_UDP_write (length (sent c))) =? u32 (-1)).
  assert (ok = true <-> u32 (HAL_UDP_write (length (sent c))) = u32 (-1)) as Hok by apply Z.eqb_eq.
  destruct Hb as [Hh Ht _ _ _]. rewrite Hh. unfold CoAPReqMsg, CoAPCONRespMsg. cbn [hd_code hd_type].
  change COAP_MSG_CODE_205_CONTENT with 69. fold (wants_answer a). destruct ok.
  - change (COAP_ERROR_INTERNAL =? COAP_SUCCESS) with false. cbn [andb]. eexists _, _. split; [done|]. cbn. rewrite app_nil_r.
    split_and!; try done; [|congruence]. split; [done|]. intros []. by apply Hok.
  - change (COAP_SUCCESS =? COAP_SUCCESS) with true. cbn [andb].
    assert (COAP_SUCCESS = COAP_SUCCESS <-> u32 (HAL_UDP_write (length (sent c))) <> u32 (-1)) as Hiff by (split; [intros _ E; by apply Hok in E|done]).
    destruct (wants_answer a); cbn [andb].
    + destruct (list_add (add_sent (enc_msg a) (set_sendbuf b1 c)) m a Hh Ht Htok Es) as (r & c' & -> & Hs' & Hh' & Hb' & Hr' & Hl'). cbn [mbind option_bind].
      eexists _, _. split; [done|]. rewrite Hs', Hh', Hb', Hr', Hl'. split_and!; try done. cbn. congruence.
    + eexists _, _. split; [done|]. cbn. rewrite app_nil_r. split_and!; try done. congruence.
Qed.

(** ** Receiving *)

Lemma read_buffer a r :
  amsg_wf a -> exists post, recvbuf (CoAPNetwork_read (enc_msg a) r) = enc_msg a ++ post /\ ends a post /\
    take (Z.to_nat COAP_MSG_MAX_PDU_LEN) (enc_msg a) = enc_msg a.
Proof.
  intros Hw. pose proof (aw_len a Hw) as Hlen. pose proof (aw_room a Hw) as Hroom. unfold COAP_MSG_MAX_PDU_LEN in *. unfold CoAPNetwork_read. cbn [recvbuf set_recvbuf].
  unfold COAP_MSG_MAX_PDU_LEN. rewrite take_ge by lia. eexists. split; [done|]. split; [|done]. intros E. specialize (Hroom E).
  destruct (Z.to_nat 1280 - length (enc_msg a))%nat as [|k] eqn:Ek; [lia|]. by exists 0, (replicate k 0).
Qed.


Lemma find_token_eq tok l1 n l2 :
  tok <> [] -> nd_token n = tok -> Forall (fun n => nd_token n <> tok) l1 -> find_token tok (l1 ++ n :: l2) = Some (l1, n, l2).
Proof.
  intros Hne Hn. induction 1 as [|n' l1 Hn' _ IH]; cbn.
  - by rewrite !bool_decide_true by congruence.
  - rewrite (bool_decide_false (nd_token n' = tok)) by done. rewrite andb_false_r, IH. done.
Qed.

(** The acknowledgement of the message [id]. *)
Definition ack_amsg (id : Z) : amsg := mk_amsg 1 COAP_MESSAGE_TYPE_ACK 0 id [] [] [].

Lemma ack_send c id :
  0 <= id < 2 ^ 16 -> COAP_MSG_MAX_PDU_LEN <= Z.of_nat (length (sendbuf c)) ->
  exists ret c', CoAPAckMessage_send c id = Some (ret, c') /\ sent c' = sent c ++ [enc_msg (ack_amsg id)] /\ sendlist c' = sendlist c /\
    handled c' = handled c /\ recvbuf c' = recvbuf c.
Proof.
  intros Hid Hb. destruct (init_building zero_message) as (m0 & E0 & H0). unfold CoAPAckMessage_send. rewrite E0.
  destruct (api_step (SetId id) m0 empty_amsg H0 I) as (m & E & Hm). cbn [api_exec] in E. injection E as Em. rewrite <- Em in Hm. cbn [CoAPMessageId_set].
  destruct (send_message c _ (ack_amsg id) (bd_built _ _ Hm)) as (ret & c' & Es & Hs & _ & _ & Hr & Hh & Hl); [|cbn; lia|done|].
  { split; cbn; unfold COAP_MESSAGE_TYPE_ACK; try lia; done. }
  rewrite Es. cbn [mbind option_bind]. exists ret, c'. split_and!; try done. rewrite Hl. change (wants_answer (ack_amsg id)) with false.
  by rewrite andb_false_r, app_nil_r.
Qed.

(** C36: a response is handed to the handler of the first pending request that has its token, and that request is no longer
    pending; a confirmable response is acknowledged. *)
Theorem coap_response_delivered a c l1 n l2 f :
  amsg_wf a -> 0x40 <= am_code a < 0xc0 -> am_token a <> [] -> COAP_MSG_MAX_PDU_LEN <= Z.of_nat (length (sendbuf c)) ->
  sendlist c = l1 ++ n :: l2 -> nd_token n = am_token a -> Forall (fun n => nd_token n <> am_token a) l1 -> nd_handler n = Some f ->
  exists c' m, CoAPMessage_recv [enc_msg a] c = Some c' /\ handled c' = handled c ++ [(f, nd_user n, m)] /\ read_as m a /\
    sendlist c' = l1 ++ l2 /\
    sent c' = sent c ++ (if am_type a =? COAP_MESSAGE_TYPE_CON then [enc_msg (ack_amsg (am_id a))] else []).
Proof.
  intros Hw Hcode Hne Hb Hl Hn Hl1 Hf. cbn [CoAPMessage_recv]. destruct (enc_msg a) as [|b0 d] eqn:Ed; [done|]. rewrite <- Ed.
  destruct (read_buffer a c Hw) as (post & Er & He & Et). rewrite Et. unfold CoAPMessage_handle.
  destruct (deserialize_message a post Hw He) as (m & Em & Hm). rewrite Er, Em. cbn [mbind option_bind]. destruct Hm as [Hh Htok Hon Ho Hp].
  unfold COAPAckMsg, CoAPRespMsg. rewrite Hh. cbn [hd_code hd_type].
  rewrite (proj2 (Z.eqb_neq (am_code a) COAP_MSG_CODE_EMPTY_MESSAGE)) by (change COAP_MSG_CODE_EMPTY_MESSAGE with 0; lia). cbn [andb].
  rewrite (proj2 (Z.leb_le 64 _)), (proj2 (Z.ltb_lt _ 192)) by lia. cbn [andb]. unfold CoAPRespMessage_handle. rewrite Hh. cbn [hd_type hd_msgid hd_tokenlen].
  rewrite Nat2Z.id, Htok. set (c1 := CoAPNetwork_read (enc_msg a) c).
  assert (exists r2 c2, (if am_type a =? COAP_MESSAGE_TYPE_CON then CoAPAckMessage_send c1 (am_id a) else Some (0, c1)) = Some (r2, c2) /\
    sendlist c2 = sendlist c /\ handled c2 = handled c /\
    sent c2 = sent c ++ (if am_type a =? COAP_MESSAGE_TYPE_CON then [enc_msg (ack_amsg (am_id a))] else [])) as (r2 & c2 & E2 & Hl2 & Hh2 & Hs2).
  { destruct (am_type a =? COAP_MESSAGE_TYPE_CON); [|exists 0, c1; by rewrite app_nil_r].
    destruct (ack_send c1 (am_id a)) as (r2 & c2 & E2 & Hs & Hl' & Hh' & _); [apply Hw|done|]. by exists r2, c2. }
  rewrite E2. cbn [mbind option_bind]. rewrite Hl2, Hl, find_token_eq by done. rewrite Hf. cbn [mbind option_bind].
  eexists _, m. split; [done|]. cbn. rewrite Hh2. split_and!; try done.
Qed.

(** ** Retransmission *)

(** What a cycle makes of a node, and the datagram it sends for it. *)
Definition node_step (n : CoAPSendNode) : option CoAPSendNode :=
  if nd_timeout n =? 0 then
    let n := if (nd_retrans_count n <? 4) && (nd_acked n =? 0) then back_off n else n in
    if (10 <? nd_timeout n) || (4 <=? nd_retrans_count n) then None else Some n
  else Some (set_timeout (nd_timeout n - 1) n).

Definition node_sends (n : CoAPSendNode) : option (list Z) :=
  if (nd_timeout n =? 0) && (nd_retrans_count n <? 4) && (nd_acked n =? 0) then nd_message n else None.

Fixpoint node_after (k : nat) (n : CoAPSendNode) : option CoAPSendNode :=
  match k with
  | O => Some n
  | S k => n ← node_after k n; node_step n
  end.

Definition sends_at (k : nat) (n : CoAPSendNode) : option (list Z) := n ← node_after k n; node_sends n.















(** An acknowledged request is not sent again, and if its answer does not come it stays for ever. *)
Lemma acked_stays k n :
  nd_acked n = 1 -> 0 <= nd_timeout n <= 10 -> nd_retrans_count n < 4 -> node_after k n <> None /\ sends_at k n = None.
Proof.
  intros Ha Ht Hr. assert (exists n', node_after k n = Some n' /\ nd_acked n' = 1 /\ 0 <= nd_timeout n' <= 10 /\ nd_retrans_count n' < 4) as (n' & E & Ha' & Ht' & Hr').
  { induction k as [|k (n1 & E & Ha1 & Ht1 & Hr1)]; [by exists n|]. cbn. rewrite E. cbn. unfold node_step. rewrite Ha1, andb_false_r.
    destruct (Z.eqb_spec (nd_timeout n1) 0).
    - rewrite (proj2 (Z.ltb_ge 10 _)), (proj2 (Z.leb_gt 4 _)) by lia. by exists n1.
    - eexists. split; [done|]. cbn. split_and!; try done; lia. }
  unfold sends_at. rewrite E. split; [done|]. cbn. unfold node_sends. by rewrite Ha', andb_false_r.
Qed.

(** ** Errors *)


(** The generator of message identifiers does not go past 65535: from there on it gives 1. *)
Lemma message_id_stuck c : message_id c = COAP_MAX_MESSAGE_ID -> CoAPMessageId_gen c = (1, c).
Proof. intros E. unfold CoAPMessageId_gen. by rewrite E. Qed.

(** The limit of the send list is not looked at. *)
Lemma list_limit_ignored c m len c' r :
  CoAPMessageList_add c m len = Some (r, c') -> coap_malloc_ok (mallocs c) = true -> length (sendlist c') = S (length (sendlist c)).
Proof.
  unfold CoAPMessageList_add, coap_malloc. cbn. intros E Hm. rewrite Hm in E. destruct (hd_type (header m) =? COAP_MESSAGE_TYPE_CON);
    (destruct (if hd_tokenlen (header m) <=? 8 then _ else None) as [t|]; [|done]); cbn in E;
    (destruct (if coap_malloc_ok _ then _ else _) as [d|]; [|done]); injection E as _ <-; cbn; rewrite length_app; cbn; lia.
Qed.

End client.

(** The number 256 is sent as one zero byte. *)
Example uint_option_256 : uint_option 256 = (1, [0]).
Proof. done. Qed.

(** ** Examples *)

#[local] Instance demo_coap : CoapPort := {| HAL_UDP_write := fun _ => 0; coap_malloc_ok := fun _ => true |}.

Definition demo_ctx : CoAPContext := mk_coap_ctx 1 (replicate 1280 0) (replicate 1280 0) 0 10 [] [] [] 0.

(** A message without payload that fills the buffer loses its last byte. *)
Example full_message_truncated :
  (m ← (CoAPMessage_init (Some zero_message)).2 ≫= api_run [AddStr 11 (replicate 1273 65)];
   '(_, c) ← CoAPMessage_send (Some demo_ctx) (Some m); c ← c; Some (CoAPSerialize_MessageLength m, length <$> sent c)) =
  Some (Some 1280, [1279%nat]).
Proof. by vm_compute. Qed.

(** The length of a message is computed in 16 bits: one of more than 65535 bytes can pass for a short one, and is written
    past the end of the buffer. *)
Example long_message_overflows :
  (m ← (CoAPMessage_init (Some zero_message)).2 ≫= api_run [AddStr 11 (replicate 65000 65); AddStr 11 (replicate 600 65)];
   Some (CoAPSerialize_MessageLength m, CoAPMessage_send (Some demo_ctx) (Some m))) = Some (Some 74, None).
Proof. by vm_compute. Qed.

Definition demo_request : amsg := mk_amsg 1 0 1 7 [1; 2] [(11, [97; 98]); (17, [50])] [].
Definition demo_answer : amsg := mk_amsg 1 0 69 9 [1; 2] [] [104; 105].


Lemma demo_answer_wf : amsg_wf demo_answer.
Proof. split; cbn; unfold COAP_MSG_MAX_PDU_LEN; try done; try lia. Qed.


Definition demo_node : CoAPSendNode := mk_coap_node 5 7 0 [1; 2] 0 2 2 (Some (enc_msg demo_request)) 13 (Some 99).
Definition demo_waiting : CoAPContext := mk_coap_ctx 8 (replicate 1280 0) (replicate 1280 0) 1 10 [demo_node] [] [] 2.

Lemma coap_response_delivered_witness :
  exists c' m, CoAPMessage_recv [enc_msg demo_answer] demo_waiting = Some c' /\ handled c' = [(99, 5, m)] /\ read_as m demo_answer /\
    sendlist c' = [] /\ sent c' = [enc_msg (ack_amsg 9)].
Proof.
  apply (coap_response_delivered demo_answer demo_waiting [] demo_node [] 99); try done. exact demo_answer_wf.
Defined.

