(* ===== verification/Kv.v ===== *)
(** * The key-value store ([kernel/modules/fs/kv])

    A log of items in two blocks of flash memory: the items are written one behind
    the other into one block, an item is deleted by clearing its state byte, and
    when the block is full the items that are left are copied into the other block
    and the first is erased.  The configuration is the default one, 8 KB, so the
    search for room in further blocks is not compiled.  A function is a program
    that changes the flash and the manager [g_kv_mgr]; an access outside
    [block_info] has no result.  The calls run with the mutex of the store held. *)

From S2P Require Import Prelude CircBuf.
Local Open Scope Z_scope.

Definition RES_OK : Z := 0.

Definition RES_CONT : Z := -11.

Definition RES_NO_SPACE : Z := -28.

Definition RES_INVALID_PARAM : Z := -22.

Definition RES_MALLOC_FAILED : Z := -12.

Definition RES_ITEM_NOT_FOUND : Z := -2.

Definition RES_FLASH_READ_ERR : Z := -5.

Definition RES_FLASH_WRITE_ERR : Z := -5.

Definition RES_FLASH_EARSE_ERR : Z := -5.

Definition KV_TOTAL_SIZE : Z := 8 * 1024.

Definition BLK_BITS : Z := 12.

Definition BLK_SIZE : Z := Z.shiftl 1 BLK_BITS.

Definition BLK_NUMS : Z := Z.shiftr KV_TOTAL_SIZE BLK_BITS.

Definition BLK_OFF_MASK : Z := Z.lnot (BLK_SIZE - 1).

Definition BLK_STATE_USED : Z := 0xCC.

Definition BLK_STATE_CLEAN : Z := 0xEE.

Definition BLK_STATE_DIRTY : Z := 0x44.

Definition BLK_HEADER_SIZE : Z := 4.

Definition INVALID_BLK_STATE (state : Z) : bool :=
  negb (state =? BLK_STATE_USED) && negb (state =? BLK_STATE_CLEAN) && negb (state =? BLK_STATE_DIRTY).

Definition ITEM_HEADER_SIZE : Z := 8.

Definition ITEM_STATE_NORMAL : Z := 0xEE.

Definition ITEM_STATE_DELETE : Z := 0.

Definition ITEM_MAX_KEY_LEN : Z := 128.

Definition ITEM_MAX_VAL_LEN : Z := 512.

Definition ITEM_MAX_LEN : Z := ITEM_HEADER_SIZE + ITEM_MAX_KEY_LEN + ITEM_MAX_VAL_LEN.

Definition KV_STATE_OFF : Z := 1.

Definition KV_GC_RESERVED : Z := 1.

Definition BLK_MAGIC_NUM : Z := 75.

Definition ITEM_MAGIC_NUM : Z := 73.

(** [(n + ~KV_ALIGN_MASK) & KV_ALIGN_MASK], pointers having 32 bits. *)
Definition kv_align (n : Z) : Z := Z.land (n + 3) (Z.lnot 3).

Record item_hdr_t := mk_item_hdr {
  h_magic : Z;
  h_state : Z;
  h_crc : Z;
  h_key_len : Z;
  h_val_len : Z;
  h_origin_off : Z
}.

(** The packed header in memory. *)
Definition hdr_bytes (h : item_hdr_t) : list Z :=
  [h_magic h; h_state h; h_crc h; h_key_len h; h_val_len h mod 256; h_val_len h / 256; h_origin_off h mod 256; h_origin_off h / 256].

Definition hdr_of (b : list Z) : item_hdr_t :=
  let g i := nth i b 0 in mk_item_hdr (g 0%nat) (g 1%nat) (g 2%nat) (g 3%nat) (g 4%nat + 256 * g 5%nat) (g 6%nat + 256 * g 7%nat).

Record kv_item_t := mk_kv_item {
  it_hdr : item_hdr_t;
  it_store : option (list Z);
  it_len : Z;
  it_pos : Z
}.

Record block_info_t := mk_block_info {
  bi_space : Z;
  bi_state : Z
}.

Record kv_mgr_t := mk_kv_mgr {
  kv_initialize : Z;
  gc_triggered : Z;
  gc_waiter : Z;
  clean_blk_nums : Z;
  write_pos : Z;
  block_info : list block_info_t
}.

(** The flash driver.  A program operation only clears bits: a write that would set one is not covered by [write_ok].
    [byte_at] is what the memory holds. *)
Class HalFlash := {
  flash : Type;
  byte_at : flash -> Z -> Z;
  hal_flash_read : flash -> Z -> Z -> Z * list Z;
  hal_flash_write : flash -> Z -> list Z -> Z * flash;
  hal_flash_erase : flash -> Z -> Z -> Z * flash;
  read_ok f off n : 0 <= off -> 0 <= n -> off + n <= KV_TOTAL_SIZE ->
    hal_flash_read f off n = (0, (fun i => byte_at f (off + Z.of_nat i)) <$> seq 0 (Z.to_nat n));
  write_ok f off buf : 0 <= off -> off + Z.of_nat (length buf) <= KV_TOTAL_SIZE ->
    (forall i b, buf !! i = Some b -> 0 <= b < 256 /\ Z.land (byte_at f (off + Z.of_nat i)) b = b) ->
    exists f', hal_flash_write f off buf = (0, f') /\
      forall x, byte_at f' x = if decide (off <= x < off + Z.of_nat (length buf)) then default 0 (buf !! Z.to_nat (x - off)) else byte_at f x;
  erase_ok f off size : 0 <= off -> off + size <= KV_TOTAL_SIZE -> off mod BLK_SIZE = 0 -> size mod BLK_SIZE = 0 ->
    exists f', hal_flash_erase f off size = (0, f') /\
      forall x, byte_at f' x = if decide (off <= x < off + size) then 0xFF else byte_at f x
}.

(** Whether the [n]-th allocation succeeds. *)
Class AosMem := { aos_malloc_ok : nat -> bool }.

(** The flash, what it held before each write or erasure, the last first, the manager, the collector tasks started and the
    allocations so far. *)
Record kvstate `{HalFlash} := mk_kv {
  kv_flash : flash;
  kv_trace : list flash;
  kv_mgr : kv_mgr_t;
  gc_tasks : nat;
  kv_mallocs : nat
}.

Section store.
Context `{HalFlash} `{AosMem}.

Definition V (A : Type) : Type := kvstate -> option (A * kvstate).

#[global] Instance V_ret : MRet V := fun A a s => Some (a, s).
#[global] Instance V_bind : MBind V := fun A B f m s =>
  match m s with Some (a, s') => f a s' | None => None end.
#[global] Typeclasses Opaque V.

Definition vget {A} (f : kv_mgr_t -> A) : V A := fun s => Some (f (kv_mgr s), s).

Definition vput (f : kv_mgr_t -> kv_mgr_t) : V unit := fun s => Some (tt, mk_kv _ (kv_flash s) (kv_trace s) (f (kv_mgr s)) (gc_tasks s) (kv_mallocs s)).

Definition set_gc (t w : Z) (g : kv_mgr_t) : kv_mgr_t := mk_kv_mgr (kv_initialize g) t w (clean_blk_nums g) (write_pos g) (block_info g).

Definition set_clean_blk_nums (n : Z) (g : kv_mgr_t) : kv_mgr_t :=
  mk_kv_mgr (kv_initialize g) (gc_triggered g) (gc_waiter g) n (write_pos g) (block_info g).

Definition set_write_pos (p : Z) (g : kv_mgr_t) : kv_mgr_t :=
  mk_kv_mgr (kv_initialize g) (gc_triggered g) (gc_waiter g) (clean_blk_nums g) p (block_info g).

Definition set_block_info (b : list block_info_t) (g : kv_mgr_t) : kv_mgr_t :=
  mk_kv_mgr (kv_initialize g) (gc_triggered g) (gc_waiter g) (clean_blk_nums g) (write_pos g) b.

Definition set_kv_initialize (v : Z) (g : kv_mgr_t) : kv_mgr_t :=
  mk_kv_mgr v (gc_triggered g) (gc_waiter g) (clean_blk_nums g) (write_pos g) (block_info g).

(** A value that must be there. *)
Definition vopt {A} (o : option A) : V A := fun s => a ← o; Some (a, s).

(** [g_kv_mgr.block_info[i]] *)
Definition get_block (i : Z) : V block_info_t := fun s => b ← arr_get (block_info (kv_mgr s)) i; Some (b, s).

Definition upd_block (i : Z) (f : block_info_t -> block_info_t) : V unit := fun s =>
  b ← arr_get (block_info (kv_mgr s)) i;
  l ← arr_set (block_info (kv_mgr s)) i (f b);
  Some (tt, mk_kv _ (kv_flash s) (kv_trace s) (set_block_info l (kv_mgr s)) (gc_tasks s) (kv_mallocs s)).

Definition set_state (st : Z) (b : block_info_t) : block_info_t := mk_block_info (bi_space b) st.

Definition set_space (n : Z) (b : block_info_t) : block_info_t := mk_block_info n (bi_state b).

Definition aos_malloc : V bool := fun s => Some (aos_malloc_ok (kv_mallocs s), mk_kv _ (kv_flash s) (kv_trace s) (kv_mgr s) (gc_tasks s) (S (kv_mallocs s))).

Definition raw_read (offset n : Z) : V (Z * list Z) := fun s => Some (hal_flash_read (kv_flash s) offset n, s).

Definition raw_write (offset : Z) (buf : list Z) : V Z := fun s =>
  let '(r, f) := hal_flash_write (kv_flash s) offset buf in Some (r, mk_kv _ f (kv_flash s :: kv_trace s) (kv_mgr s) (gc_tasks s) (kv_mallocs s)).

Definition raw_erase (offset size : Z) : V Z := fun s =>
  let '(r, f) := hal_flash_erase (kv_flash s) offset size in Some (r, mk_kv _ f (kv_flash s :: kv_trace s) (kv_mgr s) (gc_tasks s) (kv_mallocs s)).

(** CRC-8 with the polynomial 0x31. *)
Fixpoint crc_bits (n : nat) (crc : Z) : Z :=
  match n with
  | O => crc
  | S n => crc_bits n (if negb (Z.land crc 0x80 =? 0) then u8 (Z.lxor (Z.shiftl crc 1) 0x31) else u8 (Z.shiftl crc 1))
  end.

Definition utils_crc8 (buf : list Z) : Z := foldl (fun crc b => crc_bits 8 (Z.lxor crc b)) 0 buf.

(** [aos_task_new("kv-gc", aos_kv_gc, ...)] *)
Definition new_gc_task : V unit := fun s => Some (tt, mk_kv _ (kv_flash s) (kv_trace s) (kv_mgr s) (S (gc_tasks s)) (kv_mallocs s)).

Definition trigger_gc : V unit :=
  t ← vget gc_triggered;
  if negb (t =? 0) then mret tt
  else
    vput (set_gc 1 0);;
    new_gc_task.

Definition kv_state_set (pos state : Z) : V Z := raw_write (pos + KV_STATE_OFF) [state].

Definition kv_block_format (index : Z) : V Z :=
  let pos := u16 (Z.shiftl index BLK_BITS) in
  r ← raw_erase pos BLK_SIZE;
  if negb (r =? 0) then mret RES_FLASH_EARSE_ERR
  else
    r ← raw_write pos [BLK_MAGIC_NUM; BLK_STATE_CLEAN; 0; 0];
    if negb (r =? RES_OK) then mret RES_FLASH_WRITE_ERR
    else
      upd_block index (set_state BLK_STATE_CLEAN);;
      upd_block index (set_space (BLK_SIZE - BLK_HEADER_SIZE));;
      vput (fun g => set_clean_blk_nums (u8 (clean_blk_nums g + 1)) g);;
      mret RES_OK.

Definition kv_item_calc_pos (len : Z) : V Z :=
  wp ← vget write_pos;
  b ← get_block (Z.shiftr wp BLK_BITS);
  if len <? bi_space b then
    n ← vget clean_blk_nums;
    (if (bi_space b - len <? ITEM_MAX_LEN) && (n <=? KV_GC_RESERVED) then trigger_gc else mret tt);;
    mret wp
  else
    trigger_gc;;
    mret 0.

(** [kv_item_del] from the item at [offset] on. *)
Definition del_at (offset : Z) : V Z :=
  r ← kv_state_set offset ITEM_STATE_DELETE;
  if negb (r =? RES_OK) then mret r
  else
    let i := Z.shiftr offset BLK_BITS in
    b ← get_block i;
    if bi_state b =? BLK_STATE_USED then
      r ← kv_state_set (Z.land offset BLK_OFF_MASK) BLK_STATE_DIRTY;
      if negb (r =? RES_OK) then mret r
      else upd_block i (set_state BLK_STATE_DIRTY);; mret RES_OK
    else mret RES_OK.

Definition kv_self_remove (item : kv_item_t) : V Z := del_at (it_pos item).

Definition kv_orig_remove (item : kv_item_t) : V Z :=
  let offset := h_origin_off (it_hdr item) in
  r ← raw_read offset ITEM_HEADER_SIZE;
  if negb (r.1 =? RES_OK) then mret RES_FLASH_READ_ERR
  else
    let hdr := hdr_of r.2 in
    if negb (h_magic hdr =? ITEM_MAGIC_NUM) || negb (h_state hdr =? ITEM_STATE_NORMAL) || negb (h_key_len hdr =? h_key_len (it_hdr item)) then mret RES_OK
    else
      ok ← aos_malloc;
      if negb ok then mret RES_MALLOC_FAILED
      else
        ok ← aos_malloc;
        if negb ok then mret RES_MALLOC_FAILED
        else
          k1 ← raw_read (offset + ITEM_HEADER_SIZE) (h_key_len hdr);
          k2 ← raw_read (it_pos item + ITEM_HEADER_SIZE) (h_key_len hdr);
          if negb (bool_decide (k1.2 = k2.2)) then mret RES_OK else del_at offset.

Inductive remove_mode := KV_SELF_REMOVE | KV_ORIG_REMOVE.

Definition kv_item_del (item : kv_item_t) (mode : remove_mode) : V Z :=
  match mode with KV_SELF_REMOVE => kv_self_remove item | KV_ORIG_REMOVE => kv_orig_remove item end.

(** An [item_func] gives its result and the item, which it may have filled in. *)
Definition item_func : Type := kv_item_t -> V (Z * kv_item_t).

Definition item_recovery_cb : item_func := fun item =>
  ok ← aos_malloc;
  if negb ok then mret (RES_MALLOC_FAILED, item)
  else
    r ← raw_read (it_pos item + ITEM_HEADER_SIZE) (it_len item);
    if negb (r.1 =? RES_OK) then mret (RES_FLASH_READ_ERR, item)
    else
      (if h_crc (it_hdr item) =? utils_crc8 r.2 then
         if negb (h_origin_off (it_hdr item) =? 0) && negb (it_pos item =? h_origin_off (it_hdr item)) then
           kv_item_del item KV_ORIG_REMOVE;; mret tt
         else mret tt
       else kv_item_del item KV_SELF_REMOVE;; mret tt);;
      mret (RES_CONT, item).

Definition item_find_cb (key : list Z) : item_func := fun item =>
  if negb (h_key_len (it_hdr item) =? Z.of_nat (length key)) then mret (RES_CONT, item)
  else
    ok ← aos_malloc;
    if negb ok then mret (RES_MALLOC_FAILED, item)
    else
      r ← raw_read (it_pos item + ITEM_HEADER_SIZE) (it_len item);
      let item := mk_kv_item (it_hdr item) (Some r.2) (it_len item) (it_pos item) in
      if negb (r.1 =? RES_OK) then mret (RES_FLASH_READ_ERR, item)
      else if bool_decide (take (length key) r.2 = key) then mret (RES_OK, item)
      else mret (RES_CONT, item).

Definition item_gc_cb : item_func := fun item =>
  let len := u16 (kv_align (ITEM_HEADER_SIZE + it_len item)) in
  ok ← aos_malloc;
  if negb ok then mret (RES_MALLOC_FAILED, item)
  else
    r ← raw_read (it_pos item) len;
    if negb (r.1 =? RES_OK) then mret (RES_FLASH_READ_ERR, item)
    else
      wp ← vget write_pos;
      w ← raw_write wp r.2;
      if negb (w =? RES_OK) then mret (RES_FLASH_WRITE_ERR, item)
      else
        let wp := u16 (wp + len) in
        vput (set_write_pos wp);;
        upd_block (Z.shiftr wp BLK_BITS) (fun b => set_space (u16 (bi_space b - len)) b);;
        mret (RES_CONT, item).

(** A block in use is marked as holding deleted items. *)
Definition mark_dirty (blk_index : Z) : V unit :=
  b ← get_block blk_index;
  if bi_state b =? BLK_STATE_USED then
    kv_state_set (Z.shiftl blk_index BLK_BITS) BLK_STATE_DIRTY;;
    upd_block blk_index (set_state BLK_STATE_DIRTY)
  else mret tt.

(** The loop leaves the traversal with an item or NULL, or ends at a position. *)
Inductive visit := Return (item : option kv_item_t) | End (pos : Z).

(** The loop from [pos] on, which grows by at least 8 in every turn. *)
Fixpoint traverse_loop (fuel : nat) (func : item_func) (blk_index pos : Z) : V visit :=
  match fuel with
  | O => fun _ => None
  | S fuel =>
      let end_ := u16 (Z.shiftl blk_index BLK_BITS + BLK_SIZE) in
      let next pos := if pos + ITEM_HEADER_SIZE <? end_ then traverse_loop fuel func blk_index pos else mret (End pos) in
      ok ← aos_malloc;
      if negb ok then mret (Return None)
      else
        r ← raw_read pos ITEM_HEADER_SIZE;
        if negb (r.1 =? RES_OK) then mret (Return None)
        else
          let hdr := hdr_of r.2 in
          if negb (h_magic hdr =? ITEM_MAGIC_NUM) && (h_magic hdr =? 0xFF) && (h_state hdr =? 0xFF) then mret (End pos)
          else
            let val_len := if negb (h_magic hdr =? ITEM_MAGIC_NUM) then 0xFFFF else h_val_len hdr in
            if (ITEM_MAX_VAL_LEN <? val_len) || (ITEM_MAX_KEY_LEN <? h_key_len hdr) || (val_len =? 0) || (h_key_len hdr =? 0) then
              mark_dirty blk_index;;
              next (u16 (pos + ITEM_HEADER_SIZE))
            else
              let len := u16 (kv_align (ITEM_HEADER_SIZE + h_key_len hdr + val_len)) in
              if h_state hdr =? ITEM_STATE_NORMAL then
                r ← func (mk_kv_item hdr None (u16 (h_key_len hdr + val_len)) pos);
                if r.1 =? RES_OK then mret (Return (Some r.2))
                else if negb (r.1 =? RES_CONT) then mret (Return None)
                else next (u16 (pos + len))
              else
                mark_dirty blk_index;;
                next (u16 (pos + len))
  end.

Definition kv_item_traverse (func : item_func) (blk_index : Z) : V (option kv_item_t) :=
  let pos := u16 (Z.shiftl blk_index BLK_BITS + BLK_HEADER_SIZE) in
  let end_ := u16 (Z.shiftl blk_index BLK_BITS + BLK_SIZE) in
  v ← traverse_loop 512 func blk_index pos;
  match v with
  | Return item => mret item
  | End pos =>
      upd_block blk_index (set_space (if pos <? end_ then end_ - pos else ITEM_HEADER_SIZE));;
      mret None
  end.

Fixpoint get_loop (l : list Z) (key : list Z) : V (option kv_item_t) :=
  match l with
  | [] => mret None
  | i :: l =>
      b ← get_block i;
      item ← (if negb (bi_state b =? BLK_STATE_CLEAN) then kv_item_traverse (item_find_cb key) i else mret None);
      match item with Some item => mret (Some item) | None => get_loop l key end
  end.

(** The indices of the blocks. *)
Definition blocks : list Z := Z.of_nat <$> seq 0 (Z.to_nat BLK_NUMS).

Definition kv_item_get (key : list Z) : V (option kv_item_t) := get_loop blocks key.

(** The bytes of an item, filled up with zeros. *)
Definition store_bytes (hdr : item_hdr_t) (key val : list Z) (len : Z) : list Z :=
  let b := hdr_bytes hdr ++ key ++ val in b ++ replicate (Z.to_nat len - length b) 0.

Definition kv_item_store (key val : list Z) (origin_off : Z) : V Z :=
  let key_len := u8 (Z.of_nat (length key)) in
  let val_len := u16 (Z.of_nat (length val)) in
  let len := u16 (kv_align (ITEM_HEADER_SIZE + key_len + val_len)) in
  ok ← aos_malloc;
  if negb ok then mret RES_MALLOC_FAILED
  else
    let hdr := mk_item_hdr ITEM_MAGIC_NUM ITEM_STATE_NORMAL (utils_crc8 (key ++ val)) key_len val_len origin_off in
    pos ← kv_item_calc_pos len;
    if 0 <? pos then
      r ← raw_write pos (store_bytes hdr key val len);
      if r =? RES_OK then
        let wp := u16 (pos + len) in
        vput (set_write_pos wp);;
        upd_block (Z.shiftr wp BLK_BITS) (fun b => set_space (u16 (bi_space b - len)) b);;
        mret r
      else mret r
    else mret RES_NO_SPACE.

(** [item->store] is set by the search that found the item. *)
Definition kv_item_update (item : kv_item_t) (key val : list Z) : V Z :=
  store ← vopt (it_store item);
  let kl := Z.to_nat (h_key_len (it_hdr item)) in
  if (h_val_len (it_hdr item) =? Z.of_nat (length val)) && bool_decide (take (length val) (drop kl store) = val) then mret RES_OK
  else
    r ← kv_item_store key val (it_pos item);
    if negb (r =? RES_OK) then mret r else kv_item_del item KV_SELF_REMOVE.

(** ** Start-up *)

(** The first loop of [kv_init]; the result is an error, or the blocks that are marked clean and are not empty, the last
    first. *)
Fixpoint init_scan (l : list Z) (unclean : list Z) : V (Z + list Z) :=
  match l with
  | [] => mret (inr unclean)
  | i :: l =>
      r ← raw_read (Z.shiftl i BLK_BITS) BLK_HEADER_SIZE;
      let magic := nth 0 r.2 0 in
      let state := nth 1 r.2 0 in
      if (magic =? BLK_MAGIC_NUM) && negb (INVALID_BLK_STATE state) then
        upd_block i (set_state state);;
        kv_item_traverse item_recovery_cb i;;
        if state =? BLK_STATE_CLEAN then
          b ← get_block i;
          if negb (bi_space b =? BLK_SIZE - BLK_HEADER_SIZE) then init_scan l (i :: unclean)
          else vput (fun g => set_clean_blk_nums (u8 (clean_blk_nums g + 1)) g);; init_scan l unclean
        else init_scan l unclean
      else
        ret ← kv_block_format i;
        if negb (ret =? RES_OK) then mret (inl ret) else init_scan l unclean
  end.

Fixpoint init_unclean (l : list Z) : V Z :=
  match l with
  | [] => mret RES_OK
  | i :: l =>
      n ← vget clean_blk_nums;
      if KV_GC_RESERVED <=? n then
        ret ← kv_state_set (Z.shiftl i BLK_BITS) BLK_STATE_DIRTY;
        if negb (ret =? RES_OK) then mret ret
        else upd_block i (set_state BLK_STATE_DIRTY);; init_unclean l
      else
        ret ← kv_block_format i;
        if negb (ret =? RES_OK) then mret ret else init_unclean l
  end.

(** The block in use with a clean one behind it. *)
Fixpoint init_write_pos (l : list Z) : V unit :=
  match l with
  | [] => mret tt
  | i :: l =>
      b ← get_block i;
      if (bi_state b =? BLK_STATE_USED) || (bi_state b =? BLK_STATE_DIRTY) then
        nb ← get_block (if i + 1 =? BLK_NUMS then 0 else i + 1);
        if bi_state nb =? BLK_STATE_CLEAN then
          vput (set_write_pos (u16 (Z.shiftl i BLK_BITS + BLK_SIZE - bi_space b)))
        else init_write_pos l
      else init_write_pos l
  end.

Definition kv_init : V Z :=
  u ← init_scan blocks [];
  match u with
  | inl ret => mret ret
  | inr unclean =>
      ret ← init_unclean unclean;
      if negb (ret =? RES_OK) then mret ret
      else
        n ← vget clean_blk_nums;
        ret ← (if n =? 0 then kv_block_format 0 else mret RES_OK);
        if negb (ret =? RES_OK) then mret ret
        else
          n ← vget clean_blk_nums;
          (if n =? BLK_NUMS then
             vput (set_write_pos BLK_HEADER_SIZE);;
             r ← kv_state_set (Z.land BLK_HEADER_SIZE BLK_OFF_MASK) BLK_STATE_USED;
             if r =? 0 then
               upd_block 0 (set_state BLK_STATE_USED);;
               vput (fun g => set_clean_blk_nums (u8 (clean_blk_nums g - 1)) g)
             else mret tt
           else init_write_pos blocks);;
          mret RES_OK
  end.

(** ** Garbage collection *)

(** The first clean block. *)
Fixpoint find_clean (l : list Z) : V (option Z) :=
  match l with
  | [] => mret None
  | i :: l => b ← get_block i; if bi_state b =? BLK_STATE_CLEAN then mret (Some i) else find_clean l
  end.

(** The search for a dirty block from [i] round to the block [origin]; whether one was collected, or [None] when it could
    not be erased.  [i] passes every block at most once. *)
Fixpoint gc_loop (fuel : nat) (i origin gc_index : Z) : V (option bool) :=
  match fuel with
  | O => fun _ => None
  | S fuel =>
      let i := if i =? BLK_NUMS then 0 else i in
      b ← get_block i;
      if bi_state b =? BLK_STATE_DIRTY then
        kv_item_traverse item_gc_cb i;;
        ret ← kv_block_format i;
        if negb (ret =? RES_OK) then mret None
        else
          wp ← vget write_pos;
          kv_state_set (Z.land wp BLK_OFF_MASK) BLK_STATE_USED;;
          upd_block gc_index (set_state BLK_STATE_USED);;
          vput (fun g => set_clean_blk_nums (u8 (clean_blk_nums g - 1)) g);;
          mret (Some true)
      else if i =? origin then mret (Some false)
      else gc_loop fuel (i + 1) origin gc_index
  end.

(** The collector with the mutex held; the waiters, if any, are woken. *)
Definition aos_kv_gc : V unit :=
  origin_pos ← vget write_pos;
  n ← vget clean_blk_nums;
  (if n =? 0 then mret tt
   else
     c ← find_clean blocks;
     match c with
     | None => mret tt
     | Some gc_index =>
         vput (set_write_pos (u16 (Z.shiftl gc_index BLK_BITS + BLK_HEADER_SIZE)));;
         let origin := Z.shiftr origin_pos BLK_BITS in
         r ← gc_loop (S (Z.to_nat BLK_NUMS)) (origin + 1) origin gc_index;
         match r with
         | Some false => vput (set_write_pos origin_pos)
         | _ => mret tt
         end
     end);;
  vput (fun g => set_gc 0 (gc_waiter g) g).

(** ** The calls *)

Definition aos_kv_del (key : list Z) : V Z :=
  item ← kv_item_get key;
  match item with
  | None => mret RES_ITEM_NOT_FOUND
  | Some item => kv_item_del item KV_SELF_REMOVE
  end.

(** A collection that was asked for is waited for: the collector runs and wakes the caller. *)
Definition wait_gc : V unit :=
  t ← vget gc_triggered;
  if t =? 0 then mret tt
  else
    vput (fun g => set_gc (gc_triggered g) (u8 (gc_waiter g + 1)) g);;
    aos_kv_gc.

Definition aos_kv_set (key val : option (list Z)) (len : Z) : V Z :=
  match key, val with
  | Some key, Some val =>
      if (len <=? 0) || (ITEM_MAX_KEY_LEN <? Z.of_nat (length key)) || (ITEM_MAX_VAL_LEN <? len) then mret RES_INVALID_PARAM
      else
        v ← vopt (slice val 0 len);
        wait_gc;;
        item ← kv_item_get key;
        match item with
        | Some item => kv_item_update item key v
        | None => kv_item_store key v 0
        end
  | _, _ => mret RES_INVALID_PARAM
  end.

(** The result, the bytes stored in the buffer and the new [*buffer_len]; [buffer] is whether there is a buffer. *)
Definition aos_kv_get (key : option (list Z)) (buffer : bool) (buffer_len : option Z) : V (Z * list Z * option Z) :=
  match key, buffer, buffer_len with
  | Some key, true, Some n =>
      if n <=? 0 then mret (RES_INVALID_PARAM, [], Some n)
      else
        item ← kv_item_get key;
        match item with
        | None => mret (RES_ITEM_NOT_FOUND, [], Some n)
        | Some item =>
            let vl := h_val_len (it_hdr item) in
            if n <? vl then mret (RES_NO_SPACE, [], Some vl)
            else
              st ← vopt (it_store item);
              v ← vopt (slice st (h_key_len (it_hdr item)) vl);
              mret (RES_OK, v, Some vl)
        end
  | _, _, _ => mret (RES_INVALID_PARAM, [], buffer_len)
  end.

(** [memset(&g_kv_mgr, 0, sizeof(g_kv_mgr))] *)
Definition zero_mgr : kv_mgr_t := mk_kv_mgr 0 0 0 0 0 (replicate (Z.to_nat BLK_NUMS) (mk_block_info 0 0)).

(** The mutex and the semaphore are created. *)
Definition aos_kv_init : V Z :=
  i ← vget kv_initialize;
  if negb (i =? 0) then mret RES_OK
  else if BLK_NUMS <=? KV_GC_RESERVED then mret RES_INVALID_PARAM
  else
    vput (fun _ => zero_mgr);;
    ret ← kv_init;
    if negb (ret =? RES_OK) then mret ret
    else
      vput (set_kv_initialize 1);;
      wp ← vget write_pos;
      b ← get_block (Z.shiftr wp BLK_BITS);
      n ← vget clean_blk_nums;
      (if (bi_space b <? ITEM_MAX_LEN) && (n <? KV_GC_RESERVED + 1) then trigger_gc else mret tt);;
      mret RES_OK.

Definition aos_kv_deinit : V unit := vput (set_kv_initialize 0).

End store.
