(* ===== verification/KvLog.v ===== *)
(** * The key-value store: the log of items

    A block is its header, the items in it and erased memory.  What the operations
    do is stated on the list of items of the block in use. *)

From S2P Require Import Prelude Kv.
Local Open Scope Z_scope.

(** ** Items *)

Record aitem := mk_aitem {
  ai_live : bool;
  ai_key : list Z;
  ai_val : list Z;
  ai_origin : Z
}.

Definition bytes (l : list Z) : Prop := Forall (fun b => 0 <= b < 256) l.

Record item_wf (it : aitem) : Prop := {
  iw_key : (1 <= length (ai_key it) <= 128)%nat;
  iw_val : (1 <= length (ai_val it) <= 512)%nat;
  iw_bytes : bytes (ai_key it ++ ai_val it);
  iw_origin : 0 <= ai_origin it <= KV_TOTAL_SIZE - 8 - Z.of_nat (length (ai_key it))
}.

Definition item_hdr (it : aitem) : item_hdr_t :=
  mk_item_hdr ITEM_MAGIC_NUM (if ai_live it then ITEM_STATE_NORMAL else ITEM_STATE_DELETE) (utils_crc8 (ai_key it ++ ai_val it))
    (Z.of_nat (length (ai_key it))) (Z.of_nat (length (ai_val it))) (ai_origin it).

Definition ilen (it : aitem) : Z := kv_align (8 + Z.of_nat (length (ai_key it)) + Z.of_nat (length (ai_val it))).

Definition enc_item (it : aitem) : list Z := store_bytes (item_hdr it) (ai_key it) (ai_val it) (ilen it).

Definition enc_items (l : list aitem) : list Z := concat (enc_item <$> l).

Definition kill (it : aitem) : aitem := mk_aitem false (ai_key it) (ai_val it) (ai_origin it).

Lemma kv_align_eq n : kv_align n = 4 * ((n + 3) / 4).
Proof.
  unfold kv_align. change (Z.lnot 3) with (Z.lnot (Z.ones 2)). rewrite <- Z.ldiff_land, Z.ldiff_ones_r, Z.shiftl_mul_pow2, Z.shiftr_div_pow2 by lia.
  change (2 ^ 2) with 4. lia.
Qed.

Lemma ilen_range it : item_wf it -> 8 + Z.of_nat (length (ai_key it)) + Z.of_nat (length (ai_val it)) <= ilen it <= 648 /\ 12 <= ilen it.
Proof.
  intros [Hk Hv _ _]. unfold ilen. rewrite kv_align_eq. set (n := 8 + _ + _). assert (10 <= n <= 648) by (subst n; lia).
  pose proof (Z.div_mod (n + 3) 4 ltac:(lia)). pose proof (Z.mod_pos_bound (n + 3) 4 ltac:(lia)). lia.
Qed.

Lemma enc_item_length it : item_wf it -> Z.of_nat (length (enc_item it)) = ilen it.
Proof.
  intros Hw. pose proof (ilen_range it Hw). unfold enc_item, store_bytes. cbv zeta. rewrite !length_app, length_replicate, ?length_app.
  cbn [hdr_bytes length]. lia.
Qed.

Lemma crc_bits_range n crc : 0 <= crc < 256 -> 0 <= crc_bits n crc < 256.
Proof.
  revert crc. induction n as [|n IH]; intros crc Hc; [done|]. cbn. apply IH. case_match; apply wrap_range; lia.
Qed.

Lemma lxor_byte a b : 0 <= a < 256 -> 0 <= b < 256 -> 0 <= Z.lxor a b < 256.
Proof.
  intros Ha Hb. split; [apply Z.lxor_nonneg; lia|]. change 256 with (2 ^ 8). apply Z.log2_lt_cancel. 
  destruct (Z.eq_dec (Z.lxor a b) 0) as [->|]; [done|]. rewrite (Z.log2_pow2 8) by lia.
  eapply Z.le_lt_trans; [apply Z.log2_lxor; lia|]. apply Z.max_lub_lt; (destruct (Z.eq_dec a 0) as [->|]; destruct (Z.eq_dec b 0) as [->|]; try done; apply Z.log2_lt_pow2; lia).
Qed.

Lemma crc8_range l : bytes l -> 0 <= utils_crc8 l < 256.
Proof.
  unfold utils_crc8. assert (forall c, 0 <= c < 256 -> bytes l -> 0 <= foldl (fun crc b => crc_bits 8 (Z.lxor crc b)) c l < 256) as H.
  { induction l as [|b l IH]; intros c Hc Hl; [done|]. apply Forall_cons in Hl as [Hb Hl]. cbn [foldl]. apply IH; [|done]. apply crc_bits_range. by apply lxor_byte. }
  intros Hl. by apply H.
Qed.

Lemma hdr_of_bytes h rest : hdr_of (hdr_bytes h ++ rest) = h.
Proof.
  destruct h as [a b c d v o]. unfold hdr_of, hdr_bytes. cbn. f_equal; [pose proof (Z.div_mod v 256 ltac:(lia))|pose proof (Z.div_mod o 256 ltac:(lia))]; lia.
Qed.

Lemma enc_item_bytes it : item_wf it -> bytes (enc_item it).
Proof.
  intros [Hk Hv Hb Ho]. unfold enc_item, store_bytes, bytes. apply Forall_app. split; [apply Forall_app; split|].
  - unfold hdr_bytes, item_hdr. cbn. pose proof (crc8_range _ Hb).
    assert (forall n, 0 <= n < 2 ^ 16 -> 0 <= n mod 256 < 256 /\ 0 <= n / 256 < 256) as Hd.
    { intros n Hn. split; [apply Z.mod_pos_bound; lia|]. split; [apply Z.div_pos; lia|apply Z.div_lt_upper_bound; lia]. }
    destruct (Hd (Z.of_nat (length (ai_val it))) ltac:(lia)). destruct (Hd (ai_origin it) ltac:(unfold KV_TOTAL_SIZE in Ho; lia)).
    repeat constructor; try (destruct (ai_live it); unfold ITEM_STATE_NORMAL, ITEM_STATE_DELETE); unfold ITEM_MAGIC_NUM; lia.
  - exact Hb.
  - apply Forall_replicate. lia.
Qed.

(** The length of a log. *)
Definition log_len (l : list aitem) : Z := Z.of_nat (length (enc_items l)).

Lemma enc_items_app l1 l2 : enc_items (l1 ++ l2) = enc_items l1 ++ enc_items l2.
Proof. unfold enc_items. by rewrite fmap_app, concat_app. Qed.

Lemma enc_items_cons it l : enc_items (it :: l) = enc_item it ++ enc_items l.
Proof. done. Qed.

Lemma log_len_app l1 l2 : log_len (l1 ++ l2) = log_len l1 + log_len l2.
Proof. unfold log_len. rewrite enc_items_app, length_app. lia. Qed.

Lemma log_len_cons it l : item_wf it -> log_len (it :: l) = ilen it + log_len l.
Proof. intros Hw. unfold log_len. rewrite enc_items_cons, length_app, <- enc_item_length by done. lia. Qed.

Lemma log_len_snoc l it : item_wf it -> log_len (l ++ [it]) = log_len l + ilen it.
Proof. intros Hw. rewrite log_len_app, log_len_cons by done. change (log_len []) with 0. lia. Qed.

Lemma log_len_nonneg l : 0 <= log_len l.
Proof. unfold log_len. lia. Qed.

Lemma kill_wf it : item_wf it -> item_wf (kill it).
Proof. by intros []. Qed.

Lemma enc_item_kill it : enc_item (kill it) = <[1%nat := 0]> (enc_item it).
Proof. done. Qed.

Lemma ilen_kill it : ilen (kill it) = ilen it.
Proof. done. Qed.

(** The length is a multiple of four. *)
Lemma log_len_four l : Forall item_wf l -> log_len l mod 4 = 0.
Proof.
  induction 1 as [|it l Hw Hl IH]; [done|]. rewrite log_len_cons by done. unfold ilen. rewrite kv_align_eq, <- Z.add_mod_idemp_r, IH by lia.
  rewrite Z.add_0_r, Z.mul_comm. by apply Z.mod_mul.
Qed.

(** The value of a key. *)
Definition key_live (k : list Z) (it : aitem) : Prop := ai_live it = true /\ ai_key it = k.

#[global] Instance key_live_dec k it : Decision (key_live k it).
Proof. unfold key_live. apply _. Defined.

Definition kv_lookup (its : list aitem) (k : list Z) : option (list Z) := ai_val <$> head (filter (key_live k) its).

(** Every key is live at most once. *)
Definition uniq (its : list aitem) : Prop := NoDup (ai_key <$> filter (fun it => ai_live it = true) its).

Lemma kv_lookup_app l1 l2 k : kv_lookup (l1 ++ l2) k = match kv_lookup l1 k with Some v => Some v | None => kv_lookup l2 k end.
Proof. unfold kv_lookup. rewrite filter_app. by destruct (filter _ l1). Qed.

Lemma kv_lookup_cons it l k : kv_lookup (it :: l) k = if decide (key_live k it) then Some (ai_val it) else kv_lookup l k.
Proof. unfold kv_lookup. rewrite filter_cons. by case_decide. Qed.

Lemma kv_lookup_none l k : kv_lookup l k = None <-> Forall (fun it => ~ key_live k it) l.
Proof.
  induction l as [|it l IH]; [by split|]. rewrite kv_lookup_cons, Forall_cons. case_decide; [split; [done|naive_solver]|naive_solver].
Qed.

Lemma uniq_app l1 l2 : uniq (l1 ++ l2) <-> uniq l1 /\ uniq l2 /\ forall k, kv_lookup l1 k = None \/ kv_lookup l2 k = None.
Proof.
  unfold uniq. rewrite filter_app, fmap_app, NoDup_app.
  assert (forall l k, k ∈ ai_key <$> filter (fun it => ai_live it = true) l <-> kv_lookup l k <> None) as Hin.
  { intros l k. rewrite list_elem_of_fmap. split.
    - intros (it & -> & [Hl Hit]%list_elem_of_filter) Hn. apply kv_lookup_none in Hn. rewrite Forall_forall in Hn. by apply (Hn it).
    - intros Hn. destruct (decide (Exists (key_live k) l)) as [He|Hne].
      + apply Exists_exists in He as (it & Hit & Hl & Hk). exists it. split; [done|]. by apply list_elem_of_filter.
      + destruct Hn. apply kv_lookup_none. by apply Forall_Exists_neg. }
  split.
  - intros (H1 & Hx & H2). split; [done|]. split; [done|]. intros k. destruct (kv_lookup l1 k) eqn:E1; [|by left]. right.
    destruct (kv_lookup l2 k) eqn:E2; [|done]. exfalso. apply (Hx k); apply Hin; by rewrite ?E1, ?E2.
  - intros (H1 & H2 & Hx). split; [done|]. split; [|done]. intros k Hk1 Hk2. apply Hin in Hk1. apply Hin in Hk2. by destruct (Hx k).
Qed.

Lemma lookup_found its pre it post k : uniq its -> its = pre ++ it :: post -> key_live k it ->
  kv_lookup pre k = None /\ kv_lookup post k = None /\ kv_lookup its k = Some (ai_val it).
Proof.
  intros Hu -> Hk. apply uniq_app in Hu as (_ & Hu2 & Hx). assert (kv_lookup (it :: post) k = Some (ai_val it)) as E.
  { by rewrite kv_lookup_cons, decide_True. }
  destruct (Hx k) as [Hp|Hp]; [|congruence]. split; [done|]. split; [|by rewrite kv_lookup_app, Hp].
  change (it :: post) with ([it] ++ post) in Hu2. apply uniq_app in Hu2 as (_ & _ & Hy). destruct (Hy k) as [E1|E1]; [|done].
  rewrite kv_lookup_cons, decide_True in E1 by done. done.
Qed.

Lemma kill_not_live k it : ~ key_live k (kill it).
Proof. by intros [E _]. Qed.

Lemma lookup_kill its pre it post k k' : uniq its -> its = pre ++ it :: post -> key_live k it ->
  kv_lookup (pre ++ kill it :: post) k' = if decide (k' = k) then None else kv_lookup its k'.
Proof.
  intros Hu Hits Hk. destruct (lookup_found _ _ _ _ _ Hu Hits Hk) as (Hp & Hq & _).
  rewrite kv_lookup_app, kv_lookup_cons, decide_False by apply kill_not_live. case_decide as E.
  - by rewrite E, Hp.
  - rewrite Hits, kv_lookup_app, kv_lookup_cons. rewrite decide_False; [done|]. intros [_ E']. destruct Hk as [_ E'']. congruence.
Qed.

Lemma uniq_kill pre it post : uniq (pre ++ it :: post) -> uniq (pre ++ kill it :: post).
Proof.
  intros (H1 & H2 & Hx)%uniq_app. change (it :: post) with ([it] ++ post) in H2. apply uniq_app in H2 as (_ & H2 & _). apply uniq_app. split; [done|].
  assert (forall k, kv_lookup (kill it :: post) k = kv_lookup post k) as Ek.
  { intros k. by rewrite kv_lookup_cons, decide_False by apply kill_not_live. }
  split; [exact H2|]. intros k. rewrite Ek. destruct (Hx k) as [E|E]; [by left|]. right. rewrite kv_lookup_cons in E. by case_decide.
Qed.

Lemma uniq_snoc its it : uniq its -> kv_lookup its (ai_key it) = None -> uniq (its ++ [it]).
Proof.
  intros Hu Hn. apply uniq_app. split; [done|]. split.
  - unfold uniq. rewrite filter_cons. case_decide; cbn; repeat constructor; set_solver.
  - intros k. destruct (decide (key_live k it)) as [[_ <-]|Hk]; [by left|]. right. by rewrite kv_lookup_cons, decide_False.
Qed.

Lemma lookup_snoc its it k : kv_lookup its (ai_key it) = None -> ai_live it = true ->
  kv_lookup (its ++ [it]) k = if decide (k = ai_key it) then Some (ai_val it) else kv_lookup its k.
Proof.
  intros Hn Hl. rewrite kv_lookup_app, kv_lookup_cons. destruct (decide (k = ai_key it)) as [E|E].
  - rewrite E, Hn. by rewrite decide_True.
  - rewrite (decide_False (P := key_live k it)); [by destruct (kv_lookup its k)|]. by intros [_ ?].
Qed.

(** The live items. *)
Definition lives (its : list aitem) : list aitem := filter (fun it => ai_live it = true) its.

Lemma lives_snoc its it : lives (its ++ [it]) = if ai_live it then lives its ++ [it] else lives its.
Proof. unfold lives. rewrite filter_app, filter_cons. cbn. destruct (ai_live it); cbn; [done|]. by rewrite app_nil_r. Qed.

Lemma log_len_lives its : Forall item_wf its -> log_len (lives its) <= log_len its.
Proof.
  induction 1 as [|it l Hw Hl IH]; [done|]. unfold lives in *. rewrite filter_cons. pose proof (ilen_range it Hw).
  case_decide; rewrite !log_len_cons by done; lia.
Qed.

Lemma lives_wf its : Forall item_wf its -> Forall item_wf (lives its).
Proof. rewrite !Forall_forall. intros Hl it [_ Hit]%list_elem_of_filter. by apply Hl. Qed.

Lemma lookup_lives its k : kv_lookup (lives its) k = kv_lookup its k.
Proof.
  induction its as [|it l IH]; [done|]. unfold lives. rewrite filter_cons, (kv_lookup_cons it l). case_decide as Hl.
  - rewrite kv_lookup_cons. by case_decide.
  - rewrite decide_False; [done|]. by intros [? _].
Qed.

Lemma uniq_lives its : uniq its -> uniq (lives its).
Proof. unfold uniq, lives. by rewrite list_filter_filter_l. Qed.

(** ** The flash *)

Section flash.
Context `{HalFlash}.

(** The bytes from [p] on are those of [l]. *)
Definition holds (f : flash) (p : Z) (l : list Z) : Prop := forall i x, l !! i = Some x -> byte_at f (p + Z.of_nat i) = x.

Definition erased (f : flash) (p q : Z) : Prop := forall x, p <= x < q -> byte_at f x = 255.

Lemma holds_app f p l1 l2 : holds f p (l1 ++ l2) <-> holds f p l1 /\ holds f (p + Z.of_nat (length l1)) l2.
Proof.
  split.
  - intros Hh. split.
    + intros i x Hi. apply Hh. by apply lookup_app_l_Some.
    + intros i x Hi. replace (p + Z.of_nat (length l1) + Z.of_nat i) with (p + Z.of_nat (length l1 + i)) by lia. apply Hh.
      rewrite lookup_app_r by lia. by replace (length l1 + i - length l1)%nat with i by lia.
  - intros [H1 H2] i x [Hi|[Hle Hi]]%lookup_app_Some; [by apply H1|].
    replace (p + Z.of_nat i) with (p + Z.of_nat (length l1) + Z.of_nat (i - length l1)) by lia. by apply H2.
Qed.

(** What is outside the range that was written stays. *)
Lemma holds_frame f f' p l : (forall x, p <= x < p + Z.of_nat (length l) -> byte_at f' x = byte_at f x) -> holds f p l -> holds f' p l.
Proof. intros He Hh i x Hi. pose proof (lookup_lt_Some _ _ _ Hi). rewrite He by lia. by apply Hh. Qed.

Lemma erased_frame f f' p q : (forall x, p <= x < q -> byte_at f' x = byte_at f x) -> erased f p q -> erased f' p q.
Proof. intros He Hh x Hx. rewrite He by done. by apply Hh. Qed.

(** The read of [n] bytes at the start of a text. *)
Lemma holds_read f p l n : holds f p l -> 0 <= n <= Z.of_nat (length l) -> 0 <= p -> p + n <= KV_TOTAL_SIZE ->
  hal_flash_read f p n = (0, take (Z.to_nat n) l).
Proof.
  intros Hh Hn Hp Ht. rewrite read_ok by lia. f_equal. apply list_eq. intros i. rewrite list_lookup_fmap.
  destruct (decide (i < Z.to_nat n)%nat) as [Hi|Hi].
  - rewrite lookup_seq_lt, lookup_take_lt by lia. cbn. destruct (l !! i) as [x|] eqn:E; [|apply lookup_ge_None in E; lia]. by rewrite (Hh i x E).
  - rewrite lookup_seq_ge, lookup_take_ge by lia. done.
Qed.

Lemma erased_read f p q n : erased f p q -> 0 <= p -> 0 <= n -> p + n <= q -> q <= KV_TOTAL_SIZE ->
  hal_flash_read f p n = (0, replicate (Z.to_nat n) 255).
Proof.
  intros Her Hp Hn Hq Ht. rewrite read_ok by lia. f_equal. apply list_eq. intros i. rewrite list_lookup_fmap.
  destruct (decide (i < Z.to_nat n)%nat) as [Hi|Hi].
  - rewrite lookup_seq_lt, lookup_replicate_2 by lia. cbn. by rewrite Her by lia.
  - rewrite lookup_seq_ge by lia. symmetry. apply lookup_ge_None. rewrite length_replicate. lia.
Qed.

(** A byte of a text is changed. *)
Lemma holds_byte f f' p l i b : (i < length l)%nat -> holds f p l ->
  (forall x, byte_at f' x = if decide (x = p + Z.of_nat i) then b else byte_at f x) -> holds f' p (<[i := b]> l).
Proof.
  intros Hi Hh Hf j x Hj. rewrite Hf. destruct (decide (j = i)) as [->|Hne].
  - rewrite list_lookup_insert_eq in Hj by done. injection Hj as ->. by rewrite decide_True by lia.
  - rewrite list_lookup_insert_ne in Hj by done. rewrite decide_False by lia. by apply Hh.
Qed.

(** Block [b] is marked [st] and holds the items [its]. *)
Record block (f : flash) (b st : Z) (its : list aitem) : Prop := {
  bk_magic : byte_at f (b * 4096) = BLK_MAGIC_NUM;
  bk_state : byte_at f (b * 4096 + 1) = st;
  bk_items : holds f (b * 4096 + 4) (enc_items its);
  bk_free : erased f (b * 4096 + 4 + log_len its) (b * 4096 + 4096);
  bk_wf : Forall item_wf its;
  bk_room : log_len its < 4092
}.

(** A block is not touched by a change outside it. *)
Lemma block_frame f f' b st its : (forall x, b * 4096 <= x < b * 4096 + 4096 -> byte_at f' x = byte_at f x) -> block f b st its -> block f' b st its.
Proof.
  intros He [Hm Hs Hi Hf Hw Hr]. pose proof (log_len_nonneg its). split; try done.
  - by rewrite He by lia.
  - by rewrite He by lia.
  - eapply holds_frame; [|done]. intros x Hx. apply He. unfold log_len in *. lia.
  - eapply erased_frame; [|done]. intros x Hx. apply He. lia.
Qed.

(** The header is marked. *)
Lemma block_mark f f' b st st' its :
  (forall x, byte_at f' x = if decide (x = b * 4096 + 1) then st' else byte_at f x) -> block f b st its -> block f' b st' its.
Proof.
  intros He [Hm Hs Hi Hf Hw Hr]. pose proof (log_len_nonneg its). split; try done.
  - by rewrite He, decide_False by lia.
  - by rewrite He, decide_True by lia.
  - eapply holds_frame; [|done]. intros x Hx. by rewrite He, decide_False by lia.
  - eapply erased_frame; [|done]. intros x Hx. by rewrite He, decide_False by lia.
Qed.

(** The state of an item is cleared. *)
Lemma block_kill f f' b st pre it post :
  (forall x, byte_at f' x = if decide (x = b * 4096 + 4 + log_len pre + 1) then 0 else byte_at f x) -> block f b st (pre ++ it :: post) ->
  block f' b st (pre ++ kill it :: post).
Proof.
  intros He [Hm Hs Hi Hf Hw Hr]. pose proof (log_len_nonneg pre). pose proof (log_len_nonneg post).
  pose proof Hw as [Hw1 [Hwi Hw2]%Forall_cons]%Forall_app. pose proof (ilen_range it Hwi).
  assert (log_len (pre ++ kill it :: post) = log_len (pre ++ it :: post)) as El by (rewrite !log_len_app, !log_len_cons; auto using kill_wf).
  split; rewrite ?El; try done.
  - by rewrite He, decide_False by lia.
  - by rewrite He, decide_False by lia.
  - rewrite enc_items_app, enc_items_cons in Hi |- *. apply holds_app in Hi as [Ha [Hb Hc]%holds_app]. apply holds_app. split; [|apply holds_app; split].
    + eapply holds_frame; [|done]. intros x Hx. unfold log_len in He. by rewrite He, decide_False by lia.
    + rewrite enc_item_kill. eapply holds_byte; [|done|exact He]. pose proof (enc_item_length it Hwi). lia.
    + rewrite enc_item_kill, length_insert. eapply holds_frame; [|done]. intros x Hx. pose proof (enc_item_length it Hwi). unfold log_len in He.
      by rewrite He, decide_False by lia.
  - eapply erased_frame; [|done]. intros x Hx. rewrite log_len_app, log_len_cons in Hx by done. by rewrite He, decide_False by lia.
  - apply Forall_app. split; [done|]. apply Forall_cons. auto using kill_wf.
Qed.

(** An item is written behind the others. *)
Lemma block_append f f' b st its it : block f b st its -> item_wf it -> log_len its + ilen it < 4092 ->
  (forall x, byte_at f' x = if decide (b * 4096 + 4 + log_len its <= x < b * 4096 + 4 + log_len its + ilen it)
     then default 0 (enc_item it !! Z.to_nat (x - (b * 4096 + 4 + log_len its))) else byte_at f x) ->
  block f' b st (its ++ [it]).
Proof.
  intros [Hm Hs Hi Hf Hw Hr] Hwi Hlt He. pose proof (log_len_nonneg its). pose proof (ilen_range it Hwi).
  assert (log_len (its ++ [it]) = log_len its + ilen it) as El by by apply log_len_snoc.
  split; rewrite ?El; try done.
  - by rewrite He, decide_False by lia.
  - by rewrite He, decide_False by lia.
  - rewrite enc_items_app. apply holds_app. split.
    + eapply holds_frame; [|done]. intros x Hx. rewrite He, decide_False; [done|]. unfold log_len. lia.
    + rewrite enc_items_cons, app_nil_r. intros i x Hi'. pose proof (lookup_lt_Some _ _ _ Hi'). pose proof (enc_item_length it Hwi).
      rewrite He. change (Z.of_nat (length (enc_items its))) with (log_len its). rewrite decide_True by lia.
      replace (Z.to_nat _) with i by lia. by rewrite Hi'.
  - intros x Hx. rewrite He, decide_False by lia. apply Hf. lia.
  - apply Forall_app. auto.
Qed.

End flash.
