(* ===== verification/KvWp.v ===== *)
(** * The key-value store: a logic with power losses

    [cwp C m Q] says that [m] returns, that [Q] holds of the result and the state
    then, and that the flash satisfied [C] at each write and erasure, which is what
    is left of the store when the power fails there.  The rule of the traversal
    visits the items of a block one after the other. *)

From S2P Require Import Prelude Kv KvLog.
Local Open Scope Z_scope.

(** The two blocks, [c] being the one in use. *)
Definition two {A} (c : Z) (x y : A) : list A := if c =? 0 then [x; y] else [y; x].

Definition is_block (c : Z) : Prop := c = 0 \/ c = 1.

Lemma is_block_other c : is_block c -> is_block (1 - c).
Proof. unfold is_block. lia. Qed.

Lemma two_get {A} c (x y : A) : is_block c -> arr_get (two c x y) c = Some x.
Proof. by intros [-> | ->]. Qed.

Lemma two_get_other {A} c (x y : A) : is_block c -> arr_get (two c x y) (1 - c) = Some y.
Proof. by intros [-> | ->]. Qed.

Lemma two_set {A} c (x y z : A) : is_block c -> <[Z.to_nat c := z]> (two c x y) = two c z y.
Proof. by intros [-> | ->]. Qed.

Lemma two_set_other {A} c (x y z : A) : is_block c -> <[Z.to_nat (1 - c) := z]> (two c x y) = two c x z.
Proof. by intros [-> | ->]. Qed.

Lemma two_swap {A} c (x y : A) : is_block c -> two (1 - c) x y = two c y x.
Proof. by intros [-> | ->]. Qed.

(** The item the traversal makes of an item at [p]. *)
Definition item_of (it : aitem) (p : Z) : kv_item_t :=
  mk_kv_item (item_hdr it) None (Z.of_nat (length (ai_key it)) + Z.of_nat (length (ai_val it))) p.

Section logic.
Context `{HalFlash} `{AosMem} (mem_ok : forall n, aos_malloc_ok n = true) (C : flash -> Prop).

Definition cwp {A} (m : V A) (Q : A -> kvstate -> Prop) (s : kvstate) : Prop :=
  exists a s' l, m s = Some (a, s') /\ kv_trace s' = l ++ kv_trace s /\ Forall C l /\ Q a s'.

(** Flash and manager are as they were. *)
Definition same (s s' : kvstate) : Prop := kv_flash s' = kv_flash s /\ kv_mgr s' = kv_mgr s.

Lemma cwp_ret {A} (a : A) Q s : Q a s -> cwp (mret a) Q s.
Proof. intros HQ. by exists a, s, []. Qed.

Lemma cwp_bind {A B} (m : V A) (k : A -> V B) Q s : cwp m (fun a s' => cwp (k a) Q s') s -> cwp (m ≫= k) Q s.
Proof.
  intros (a & s1 & l1 & E1 & T1 & C1 & b & s2 & l2 & E2 & T2 & C2 & HQ). exists b, s2, (l2 ++ l1). unfold mbind, V_bind. rewrite E1. split; [done|].
  rewrite T2, T1, app_assoc. rewrite Forall_app. auto.
Qed.

Lemma cwp_mono {A} (m : V A) (Q Q' : A -> kvstate -> Prop) s : cwp m Q s -> (forall a s', Q a s' -> Q' a s') -> cwp m Q' s.
Proof. intros (a & s1 & l & E & T & HC & HQ) Hi. exists a, s1, l. auto. Qed.

Lemma cwp_vget {A} (g : kv_mgr_t -> A) Q s : Q (g (kv_mgr s)) s -> cwp (vget g) Q s.
Proof. intros HQ. by exists (g (kv_mgr s)), s, []. Qed.

Lemma cwp_vopt {A} (o : option A) a (Q : A -> kvstate -> Prop) s : o = Some a -> Q a s -> cwp (vopt o) Q s.
Proof. intros -> HQ. by exists a, s, []. Qed.

Lemma cwp_vput g (Q : unit -> kvstate -> Prop) s :
  (forall s', kv_flash s' = kv_flash s -> kv_mgr s' = g (kv_mgr s) -> Q tt s') -> cwp (vput g) Q s.
Proof. intros HQ. eexists tt, _, []. split; [done|]. split; [done|]. split; [done|]. by apply HQ. Qed.

Lemma cwp_get_block i b (Q : block_info_t -> kvstate -> Prop) s : arr_get (block_info (kv_mgr s)) i = Some b -> Q b s -> cwp (get_block i) Q s.
Proof. intros E HQ. exists b, s, []. unfold get_block. by rewrite E. Qed.

Lemma cwp_upd_block i b g (Q : unit -> kvstate -> Prop) s : arr_get (block_info (kv_mgr s)) i = Some b ->
  (forall s', kv_flash s' = kv_flash s -> kv_mgr s' = set_block_info (<[Z.to_nat i := g b]> (block_info (kv_mgr s))) (kv_mgr s) -> Q tt s') ->
  cwp (upd_block i g) Q s.
Proof.
  intros E HQ. pose proof (arr_get_lt _ _ _ E). eexists tt, _, []. unfold upd_block, arr_set. rewrite E. cbn. rewrite decide_True by done. cbn.
  split; [done|]. split; [done|]. split; [done|]. by apply HQ.
Qed.

Lemma cwp_malloc (Q : bool -> kvstate -> Prop) s : (forall s', same s s' -> Q true s') -> cwp aos_malloc Q s.
Proof using mem_ok. intros HQ. eexists true, _, []. unfold aos_malloc. rewrite mem_ok. split; [done|]. split; [done|]. split; [done|]. by apply HQ. Qed.

Lemma cwp_read p n r (Q : Z * list Z -> kvstate -> Prop) s : hal_flash_read (kv_flash s) p n = r -> Q r s -> cwp (raw_read p n) Q s.
Proof. intros E HQ. exists r, s, []. unfold raw_read. by rewrite E. Qed.

Lemma cwp_write p buf (Q : Z -> kvstate -> Prop) s : 0 <= p -> p + Z.of_nat (length buf) <= KV_TOTAL_SIZE ->
  (forall i b, buf !! i = Some b -> 0 <= b < 256 /\ Z.land (byte_at (kv_flash s) (p + Z.of_nat i)) b = b) -> C (kv_flash s) ->
  (forall s', kv_mgr s' = kv_mgr s -> (forall x, byte_at (kv_flash s') x =
     if decide (p <= x < p + Z.of_nat (length buf)) then default 0 (buf !! Z.to_nat (x - p)) else byte_at (kv_flash s) x) -> Q 0 s') ->
  cwp (raw_write p buf) Q s.
Proof.
  intros Hp Ht Hb HC HQ. destruct (write_ok (kv_flash s) p buf Hp Ht Hb) as (f' & E & Hf). eexists 0, _, [kv_flash s]. unfold raw_write. rewrite E.
  split; [done|]. split; [done|]. split; [auto|]. by apply HQ.
Qed.

Lemma cwp_erase p (Q : Z -> kvstate -> Prop) s : 0 <= p -> p + BLK_SIZE <= KV_TOTAL_SIZE -> p mod BLK_SIZE = 0 -> C (kv_flash s) ->
  (forall s', kv_mgr s' = kv_mgr s -> (forall x, byte_at (kv_flash s') x =
     if decide (p <= x < p + BLK_SIZE) then 0xFF else byte_at (kv_flash s) x) -> Q 0 s') ->
  cwp (raw_erase p BLK_SIZE) Q s.
Proof.
  intros Hp Ht Hm HC HQ. destruct (erase_ok (kv_flash s) p BLK_SIZE Hp Ht Hm eq_refl) as (f' & E & Hf). eexists 0, _, [kv_flash s].
  unfold raw_erase. rewrite E. split; [done|]. split; [done|]. split; [auto|]. by apply HQ.
Qed.

(** One byte is written over one that has all its bits. *)
Lemma cwp_state_set p st (Q : Z -> kvstate -> Prop) s : 0 <= p -> p + 2 <= KV_TOTAL_SIZE -> 0 <= st < 256 ->
  Z.land (byte_at (kv_flash s) (p + 1)) st = st -> C (kv_flash s) ->
  (forall s', kv_mgr s' = kv_mgr s -> (forall x, byte_at (kv_flash s') x = if decide (x = p + 1) then st else byte_at (kv_flash s) x) -> Q 0 s') ->
  cwp (kv_state_set p st) Q s.
Proof.
  intros Hp Ht Hst Hl HC HQ. unfold kv_state_set, KV_STATE_OFF. apply cwp_write; [lia|cbn; lia| |done|].
  - intros [|i] b Hb; [|done]. injection Hb as <-. by rewrite Z.add_0_r.
  - intros s' Hm Hf. apply HQ; [done|]. intros x. rewrite Hf. cbn. repeat case_decide; try lia. by replace (x - (p + 1)) with 0 by lia.
Qed.

End logic.

(** ** The traversal *)

(** The number of items in a block. *)
Lemma items_bound its : Forall item_wf its -> 12 * Z.of_nat (length its) <= log_len its.
Proof.
  induction 1 as [|it l Hw Hl IH]; [done|]. rewrite log_len_cons by done. pose proof (ilen_range it Hw). cbn [length]. lia.
Qed.

Lemma block_start b : is_block b -> Z.shiftl b BLK_BITS = b * 4096.
Proof. by intros [-> | ->]. Qed.

Lemma block_end b : is_block b -> u16 (Z.shiftl b BLK_BITS + BLK_SIZE) = b * 4096 + 4096.
Proof. by intros [-> | ->]. Qed.

Section traverse.
Context `{HalFlash} `{AosMem} (mem_ok : forall n, aos_malloc_ok n = true) (C : flash -> Prop).
Context (func : item_func) (b : Z) (its : list aitem) (I : list aitem -> kvstate -> Prop) (Q : option kv_item_t -> kvstate -> Prop).

Notation at_ pre := (b * 4096 + 4 + log_len pre).

Context (Hb : is_block b) (Hwf : Forall item_wf its) (Hroom : log_len its < 4092)
  (I_same : forall pre s s', I pre s -> same s s' -> I pre s')
  (I_log : forall pre post s, its = pre ++ post -> I pre s ->
     holds (kv_flash s) (at_ pre) (enc_items post) /\ erased (kv_flash s) (at_ its) (b * 4096 + 4096))
  (I_live : forall pre it post s, its = pre ++ it :: post -> ai_live it = true -> I pre s ->
     cwp C (func (item_of it (at_ pre))) (fun r s' => r.1 = RES_OK /\ Q (Some r.2) s' \/ r.1 = RES_CONT /\ I (pre ++ [it]) s') s)
  (I_dead : forall pre it post s, its = pre ++ it :: post -> ai_live it = false -> I pre s ->
     cwp C (mark_dirty b) (fun _ s' => I (pre ++ [it]) s') s)
  (I_end : forall s, I its s -> cwp C (upd_block b (set_space (4092 - log_len its))) (fun _ s' => Q None s') s).

(** What the traversal does with the end of the loop. *)
Definition visit_end (v : visit) (s : kvstate) : Prop :=
  cwp C (match v with
         | Return item => mret item
         | End pos =>
             upd_block b (set_space (if pos <? b * 4096 + 4096 then b * 4096 + 4096 - pos else ITEM_HEADER_SIZE));; mret None
         end) Q s.

Lemma visit_end_log s : I its s -> visit_end (End (at_ its)) s.
Proof using Hroom I_end.
  intros HI. unfold visit_end. pose proof (log_len_nonneg its). destruct (Z.ltb_spec (at_ its) (b * 4096 + 4096)); [|lia].
  apply cwp_bind. replace (b * 4096 + 4096 - at_ its) with (4092 - log_len its) by lia. eapply cwp_mono; [by apply I_end|].
  intros [] s' HQ. by apply cwp_ret.
Qed.

(** The loop goes on behind an item. *)
Definition go_on (fuel : nat) (pos : Z) : V visit :=
  if pos + ITEM_HEADER_SIZE <? b * 4096 + 4096 then traverse_loop fuel func b pos else mret (End pos).

(** The end of the log is found. *)
Lemma traverse_end fuel s : I its s -> at_ its + ITEM_HEADER_SIZE < b * 4096 + 4096 -> cwp C (traverse_loop (S fuel) func b (at_ its)) visit_end s.
Proof using All.
  intros HI Hlt. cbn [traverse_loop]. apply cwp_bind, cwp_malloc; [done|]. intros s1 Hs1. cbn [negb]. pose proof (log_len_nonneg its).
  assert (I its s1) as HI1 by eauto. destruct (I_log its [] s1 ltac:(by rewrite app_nil_r) HI1) as [_ Her]. unfold ITEM_HEADER_SIZE in *.
  apply cwp_bind. eapply cwp_read.
  { apply (erased_read _ _ _ _ Her); unfold KV_TOTAL_SIZE; unfold is_block in Hb; lia. }
  apply cwp_ret. by apply visit_end_log.
Qed.

(** The header of an item is read. *)
Lemma item_header f p it post : item_wf it -> holds f p (enc_items (it :: post)) -> 0 <= p -> p + 8 <= KV_TOTAL_SIZE ->
  exists l, hal_flash_read f p ITEM_HEADER_SIZE = (0, l) /\ hdr_of l = item_hdr it.
Proof using.
  intros Hw Hh Hp Ht. eexists. split.
  - rewrite enc_items_cons in Hh. apply holds_app in Hh as [Hh _]. apply (holds_read _ _ _ _ Hh); [|done|done].
    rewrite enc_item_length by done. pose proof (ilen_range it Hw). unfold ITEM_HEADER_SIZE. lia.
  - unfold enc_item, store_bytes. cbv zeta. rewrite <- !app_assoc. change (Z.to_nat ITEM_HEADER_SIZE) with (length (hdr_bytes (item_hdr it))).
    rewrite take_app_length. rewrite <- (app_nil_r (hdr_bytes _)). apply hdr_of_bytes.
Qed.

(** An item is visited. *)
Lemma traverse_item fuel pre it post s : its = pre ++ it :: post -> I pre s ->
  (forall s', I (pre ++ [it]) s' -> cwp C (go_on fuel (at_ (pre ++ [it]))) visit_end s') ->
  cwp C (traverse_loop (S fuel) func b (at_ pre)) visit_end s.
Proof using All.
  intros Hits HI Hgo. pose proof Hwf as Hw. rewrite Hits in Hw. apply Forall_app in Hw as [Hw1 [Hwi Hw2]%Forall_cons].
  pose proof Hroom as Hr. rewrite Hits, log_len_app, log_len_cons in Hr by done. pose proof (log_len_nonneg pre). pose proof (log_len_nonneg post).
  pose proof (ilen_range it Hwi). rewrite log_len_snoc in Hgo by done. cbn [traverse_loop]. rewrite block_end by done.
  apply cwp_bind, cwp_malloc; [done|]. intros s1 Hs1. cbn [negb]. assert (I pre s1) as HI1 by eauto.
  destruct (I_log pre _ s1 Hits HI1) as [Hh _]. apply cwp_bind.
  destruct (item_header _ _ _ _ Hwi Hh) as (l & Er & Eh); [unfold is_block in Hb; lia|unfold KV_TOTAL_SIZE; unfold is_block in Hb; lia|].
  apply (cwp_read _ _ _ _ _ _ Er). cbn [fst snd]. rewrite Eh. destruct Hwi as [Hk Hv Hby Ho].
  change (negb (0 =? RES_OK)) with false. change (h_magic (item_hdr it)) with ITEM_MAGIC_NUM. rewrite Z.eqb_refl. cbn [negb andb].
  cbn [item_hdr h_val_len h_key_len h_state].
  destruct (Z.ltb_spec ITEM_MAX_VAL_LEN (Z.of_nat (length (ai_val it)))) as [Hx|_]; [unfold ITEM_MAX_VAL_LEN in Hx; lia|].
  destruct (Z.ltb_spec ITEM_MAX_KEY_LEN (Z.of_nat (length (ai_key it)))) as [Hx|_]; [unfold ITEM_MAX_KEY_LEN in Hx; lia|].
  destruct (Z.eqb_spec (Z.of_nat (length (ai_val it))) 0) as [Hx|_]; [lia|]. destruct (Z.eqb_spec (Z.of_nat (length (ai_key it))) 0) as [Hx|_]; [lia|].
  cbn [orb]. change (kv_align _) with (ilen it). unfold u16. rewrite (wrap_small 16 (ilen it)) by lia. rewrite (wrap_small 16 (Z.of_nat (length (ai_key it)) + Z.of_nat (length (ai_val it)))) by lia.
  rewrite (wrap_small 16 (at_ pre + ilen it)) by (unfold is_block in Hb; lia). fold (go_on fuel (at_ pre + ilen it)).
  rewrite <- Z.add_assoc. destruct (ai_live it) eqn:El; cbn [Z.eqb].
  - rewrite Z.eqb_refl. apply cwp_bind. eapply cwp_mono; [apply (I_live pre it post s1 Hits El HI1)|].
    intros r s2 [[Hr1 HQ]|[Hr1 HI2]]; rewrite Hr1; cbn; [|by apply Hgo]. apply cwp_ret. by apply cwp_ret.
  - change (ITEM_STATE_DELETE =? ITEM_STATE_NORMAL) with false. cbn iota. apply cwp_bind. eapply cwp_mono; [apply (I_dead pre it post s1 Hits El HI1)|].
    intros [] s2 HI2. by apply Hgo.
Qed.

Lemma traverse_loop_ok post : forall fuel pre s, its = pre ++ post -> (length post < fuel)%nat -> I pre s -> cwp C (go_on fuel (at_ pre)) visit_end s.
Proof using All.
  induction post as [|it post IH]; intros fuel pre s Hits Hfuel HI.
  - rewrite app_nil_r in Hits. subst pre. unfold go_on. destruct (Z.ltb_spec (at_ its + ITEM_HEADER_SIZE) (b * 4096 + 4096)).
    + destruct fuel; [cbn in Hfuel; lia|]. by apply traverse_end.
    + apply cwp_ret. by apply visit_end_log.
  - unfold go_on. pose proof Hwf as Hw. rewrite Hits in Hw. apply Forall_app in Hw as [Hw1 [Hwi Hw2]%Forall_cons].
    pose proof Hroom as Hr. rewrite Hits, log_len_app, log_len_cons in Hr by done. pose proof (log_len_nonneg post). pose proof (ilen_range it Hwi).
    destruct (Z.ltb_spec (at_ pre + ITEM_HEADER_SIZE) (b * 4096 + 4096)) as [_|Hx]; [|unfold ITEM_HEADER_SIZE in Hx; lia].
    destruct fuel as [|fuel]; [cbn in Hfuel; lia|]. apply (traverse_item _ _ _ _ _ Hits HI). intros s' HI'.
    apply IH; [by rewrite Hits, <- app_assoc|cbn in Hfuel; lia|done].
Qed.

(** The traversal of a block. *)
Lemma cwp_traverse s : I [] s -> cwp C (kv_item_traverse func b) Q s.
Proof using All.
  intros HI. unfold kv_item_traverse. rewrite block_end by done. apply cwp_bind.
  assert (u16 (Z.shiftl b BLK_BITS + BLK_HEADER_SIZE) = at_ []) as -> by (destruct Hb as [E|E]; by rewrite E).
  pose proof (items_bound its Hwf). pose proof (traverse_loop_ok its 512 [] s eq_refl ltac:(lia) HI) as Hl. unfold go_on in Hl.
  change (log_len []) with 0 in *. destruct (Z.ltb_spec (b * 4096 + 4 + 0 + ITEM_HEADER_SIZE) (b * 4096 + 4096)) as [_|Hx]; [|unfold ITEM_HEADER_SIZE in Hx; lia].
  exact Hl.
Qed.

End traverse.
