(* ===== verification/KvOps.v ===== *)
(** * The key-value store: the operations

    The search, the write and the deletion of an item and the collection of a block,
    on the list of items of the block in use, with what the flash holds at each
    write. *)

From S2P Require Import Prelude Kv KvLog KvWp.
Local Open Scope Z_scope.

Section spec.
Context `{HalFlash} `{AosMem} (mem_ok : forall n, aos_malloc_ok n = true).

(** The flash with block [c] in use. *)
Record image (f : flash) (c st : Z) (its : list aitem) : Prop := {
  im_block : is_block c;
  im_state : st = BLK_STATE_USED \/ st = BLK_STATE_DIRTY;
  im_cur : block f c st its;
  im_other : block f (1 - c) BLK_STATE_CLEAN []
}.

(** The manager of such a store. *)
Record ram (g : kv_mgr_t) (c st len : Z) : Prop := {
  rm_blocks : block_info g = two c (mk_block_info (4092 - len) st) (mk_block_info 4092 BLK_STATE_CLEAN);
  rm_pos : write_pos g = c * 4096 + 4 + len;
  rm_clean : clean_blk_nums g = 1
}.

(** The store with the items [its] in block [c]. *)
Record kv_inv (s : kvstate) (c st : Z) (its : list aitem) : Prop := {
  kv_image : image (kv_flash s) c st its;
  kv_ram : ram (kv_mgr s) c st (log_len its);
  kv_dirty : Forall (fun it => ai_live it = true) its \/ st = BLK_STATE_DIRTY
}.

Lemma same_refl s : same s s.
Proof. done. Qed.

Lemma same_trans s1 s2 s3 : same s1 s2 -> same s2 s3 -> same s1 s3.
Proof. intros [E1 E2] [E3 E4]. split; congruence. Qed.

Lemma kv_inv_same s s' c st its : same s s' -> kv_inv s c st its -> kv_inv s' c st its.
Proof. intros [Ef Eg] [Hi Hr Hd]. split; rewrite ?Ef, ?Eg; done. Qed.

(** Where the items after [pre] are. *)
Notation at_ c pre := (c * 4096 + 4 + log_len pre).

Lemma block_log f c st its pre post : block f c st its -> its = pre ++ post ->
  holds f (at_ c pre) (enc_items post) /\ erased f (at_ c its) (c * 4096 + 4096).
Proof.
  intros [_ _ Hi Hf _ _] ->. split; [|done]. rewrite enc_items_app in Hi. apply holds_app in Hi as [_ Hi]. done.
Qed.

(** The start of the key and the value of an item is read. *)
Lemma item_text_read f c st its pre it post n : is_block c -> block f c st its -> its = pre ++ it :: post ->
  0 <= n <= Z.of_nat (length (ai_key it)) + Z.of_nat (length (ai_val it)) ->
  hal_flash_read f (at_ c pre + ITEM_HEADER_SIZE) n = (0, take (Z.to_nat n) (ai_key it ++ ai_val it)).
Proof.
  intros Hc Hb Hits Hn. destruct (block_log _ _ _ _ _ _ Hb Hits) as [Hh _]. pose proof (bk_wf _ _ _ _ Hb) as Hw. pose proof (bk_room _ _ _ _ Hb) as Hr.
  rewrite Hits in Hw, Hr. apply Forall_app in Hw as [Hw1 [Hwi Hw2]%Forall_cons]. rewrite log_len_app, log_len_cons in Hr by done.
  pose proof (log_len_nonneg pre). pose proof (log_len_nonneg post). pose proof (ilen_range it Hwi). unfold ITEM_HEADER_SIZE.
  rewrite enc_items_cons in Hh. apply holds_app in Hh as [Hh _]. unfold enc_item, store_bytes in Hh. cbv zeta in Hh. rewrite <- !app_assoc in Hh.
  apply holds_app in Hh as [_ Hh]. cbn [hdr_bytes length] in Hh. rewrite app_assoc in Hh. change (Z.of_nat 8) with 8 in Hh.
  rewrite (holds_read _ _ _ _ Hh).
  - f_equal. apply take_app_le. rewrite length_app. lia.
  - rewrite !length_app. lia.
  - unfold is_block in Hc. lia.
  - unfold is_block in Hc. unfold KV_TOTAL_SIZE. lia.
Qed.

Lemma item_store_read f c st its pre it post : is_block c -> block f c st its -> its = pre ++ it :: post ->
  hal_flash_read f (at_ c pre + ITEM_HEADER_SIZE) (Z.of_nat (length (ai_key it)) + Z.of_nat (length (ai_val it))) = (0, ai_key it ++ ai_val it).
Proof. intros Hc Hb Hits. rewrite (item_text_read _ _ _ _ _ _ _ _ Hc Hb Hits) by lia. f_equal. apply take_ge. rewrite length_app. lia. Qed.

Lemma item_key_read f c st its pre it post : is_block c -> block f c st its -> its = pre ++ it :: post ->
  hal_flash_read f (at_ c pre + ITEM_HEADER_SIZE) (Z.of_nat (length (ai_key it))) = (0, ai_key it).
Proof. intros Hc Hb Hits. rewrite (item_text_read _ _ _ _ _ _ _ _ Hc Hb Hits) by lia. f_equal. rewrite Nat2Z.id. apply take_app_length. Qed.

(** ** The search *)

(** The item the search gives. *)
Definition found (it : aitem) (p : Z) : kv_item_t :=
  mk_kv_item (item_hdr it) (Some (ai_key it ++ ai_val it)) (Z.of_nat (length (ai_key it)) + Z.of_nat (length (ai_val it))) p.

Definition search_result (c : Z) (its : list aitem) (k : list Z) (r : option kv_item_t) : Prop :=
  match r with
  | None => kv_lookup its k = None
  | Some item => exists pre it post, its = pre ++ it :: post /\ key_live k it /\ item = found it (at_ c pre)
  end.

Lemma mgr_block_info g : set_block_info (block_info g) g = g.
Proof. by destruct g. Qed.

Lemma take_key (k v k' : list Z) : length k = length k' -> bool_decide (take (length k') (k ++ v) = k') = bool_decide (k = k').
Proof. intros E. rewrite <- E, take_app_length. done. Qed.

Lemma find_cb_ok C c st its k s pre it post : kv_inv s c st its -> its = pre ++ it :: post -> ai_live it = true -> kv_lookup pre k = None ->
  cwp C (item_find_cb k (item_of it (at_ c pre)))
    (fun r s' => r.1 = RES_OK /\ same s s' /\ search_result c its k (Some r.2) \/ r.1 = RES_CONT /\ same s s' /\ kv_lookup (pre ++ [it]) k = None) s.
Proof using mem_ok.
  intros Hinv Hits Hl Hn. pose proof (kv_image _ _ _ _ Hinv) as [Hc _ Hb _].
  assert (ai_key it <> k -> kv_lookup (pre ++ [it]) k = None) as Hno.
  { intros Hk. rewrite kv_lookup_app, Hn, kv_lookup_cons, decide_False; [done|]. by intros [_ E]. }
  unfold item_find_cb. cbn [item_of it_hdr item_hdr h_key_len it_pos it_len].
  destruct (Z.eqb_spec (Z.of_nat (length (ai_key it))) (Z.of_nat (length k))) as [El|Hne]; cbn [negb].
  - apply cwp_bind, cwp_malloc; [done|]. intros s1 Hs1. cbn [negb]. apply cwp_bind. rewrite <- (proj1 Hs1) in Hb.
    apply (cwp_read _ _ _ _ _ _ (item_store_read _ _ _ _ _ _ _ Hc Hb Hits)). cbn [fst snd]. change (negb (0 =? RES_OK)) with false. cbn iota.
    rewrite take_key by lia. case_bool_decide as Hk; apply cwp_ret; [left|right; split; [done|]; split; [done|by apply Hno]].
    split; [done|]. split; [done|]. exists pre, it, post. split; [done|]. split; [by split|done].
  - apply cwp_ret. right. split; [done|]. split; [done|]. apply Hno. intros E. apply Hne. by rewrite E.
Qed.

Lemma find_ok C c st its k s : kv_inv s c st its -> cwp C (kv_item_traverse (item_find_cb k) c) (fun r s' => same s s' /\ search_result c its k r) s.
Proof using mem_ok.
  intros Hinv. pose proof Hinv as [[Hc _ Hb _] [Hbi _ _] Hd].
  apply (cwp_traverse mem_ok C _ c its (fun pre s' => same s s' /\ kv_lookup pre k = None)); [done|apply Hb|apply Hb| | | | | |].
  - intros pre s1 s2 [Hs Hn] Hs'. split; [by eapply same_trans|done].
  - intros pre post s1 Hits [[Ef _] _]. rewrite Ef. by eapply block_log.
  - intros pre it post s1 Hits Hl [Hs1 Hn]. eapply cwp_mono; [apply (find_cb_ok C c st its k s1 pre it post); [by eapply kv_inv_same|done..]|].
    intros r s2 [(E & Hs2 & Hr)|(E & Hs2 & Hr)]; [left|right]; eauto using same_trans.
  - intros pre it post s1 Hits Hl [Hs1 Hn]. unfold mark_dirty. apply cwp_bind. eapply cwp_get_block.
    { rewrite (proj2 Hs1), Hbi. by apply two_get. }
    destruct Hd as [Hd| ->]; [rewrite Hits in Hd; apply Forall_app in Hd as [_ [Hx _]%Forall_cons]; congruence|].
    apply cwp_ret. split; [done|]. rewrite kv_lookup_app, Hn, kv_lookup_cons, decide_False; [done|]. intros [E _]. congruence.
  - intros s1 [Hs1 Hn]. eapply cwp_upd_block.
    { rewrite (proj2 Hs1), Hbi. by apply two_get. }
    intros s2 Ef Eg. split; [|done]. destruct Hs1 as [Ef1 Eg1]. split; [congruence|]. rewrite Eg, Eg1, Hbi, two_set by done. unfold set_space. cbn [bi_state].
    rewrite <- Hbi. apply mgr_block_info.
  - split; [apply same_refl|done].
Qed.

Lemma get_loop_clean C i l k b Q s : arr_get (block_info (kv_mgr s)) i = Some b -> bi_state b = BLK_STATE_CLEAN ->
  cwp C (get_loop l k) Q s -> cwp C (get_loop (i :: l) k) Q s.
Proof. intros Eb Es Hl. cbn [get_loop]. apply cwp_bind. eapply cwp_get_block; [done|]. rewrite Es. apply cwp_bind. by apply cwp_ret. Qed.

Lemma get_loop_used C i l k b Q s : arr_get (block_info (kv_mgr s)) i = Some b -> bi_state b <> BLK_STATE_CLEAN ->
  cwp C (kv_item_traverse (item_find_cb k) i) (fun r s' => match r with Some item => Q (Some item) s' | None => cwp C (get_loop l k) Q s' end) s ->
  cwp C (get_loop (i :: l) k) Q s.
Proof.
  intros Eb Es Hl. cbn [get_loop]. apply cwp_bind. eapply cwp_get_block; [done|]. apply cwp_bind.
  destruct (Z.eqb_spec (bi_state b) BLK_STATE_CLEAN); [done|]. cbn [negb]. eapply cwp_mono; [exact Hl|]. intros [item|] s1 Hr; [by apply cwp_ret|done].
Qed.

Lemma kv_item_get_ok C c st its k s : kv_inv s c st its -> cwp C (kv_item_get k) (fun r s' => same s s' /\ search_result c its k r) s.
Proof using mem_ok.
  intros Hinv. pose proof (find_ok C c st its k s Hinv) as Hf. pose proof Hinv as [[Hc Hst Hb _] [Hbi _ _] Hd].
  pose proof (two_get c (mk_block_info (4092 - log_len its) st) (mk_block_info 4092 BLK_STATE_CLEAN) Hc) as Ec.
  pose proof (two_get_other c (mk_block_info (4092 - log_len its) st) (mk_block_info 4092 BLK_STATE_CLEAN) Hc) as Eo. rewrite <- Hbi in Ec, Eo.
  assert (st <> BLK_STATE_CLEAN) as Hne by (by destruct Hst as [-> | ->]).
  change (kv_item_get k) with (get_loop [0; 1] k). destruct Hc as [-> | ->].
  - eapply get_loop_used; [exact Ec|done|]. eapply cwp_mono; [exact Hf|]. intros [item|] s1 [[Ef Eg] Hr]; [done|].
    eapply get_loop_clean; [by rewrite Eg|done|]. by apply cwp_ret.
  - eapply get_loop_clean; [exact Eo|done|]. eapply get_loop_used; [exact Ec|done|]. eapply cwp_mono; [exact Hf|].
    intros [item|] s1 [Hs Hr]; [done|]. by apply cwp_ret.
Qed.

(** ** Writing an item *)

Lemma trigger_gc_ok C s Q : (forall s', kv_flash s' = kv_flash s -> gc_triggered (kv_mgr s') <> 0 ->
    (forall c st len, ram (kv_mgr s) c st len -> ram (kv_mgr s') c st len) -> Q tt s') -> cwp C trigger_gc Q s.
Proof.
  intros HQ. unfold trigger_gc. apply cwp_bind, cwp_vget. destruct (Z.eqb_spec (gc_triggered (kv_mgr s)) 0) as [E|E]; cbn [negb].
  - apply cwp_bind, cwp_vput. intros s1 Ef Eg. eexists tt, _, []. split; [done|]. split; [done|]. split; [done|]. apply HQ; cbn; [done|by rewrite Eg|].
    intros c st len [? ? ?]. rewrite Eg. by split.
  - apply cwp_ret. by apply HQ.
Qed.

Lemma kv_inv_ram s s' c st its : kv_flash s' = kv_flash s -> (forall c st len, ram (kv_mgr s) c st len -> ram (kv_mgr s') c st len) ->
  kv_inv s c st its -> kv_inv s' c st its.
Proof. intros Ef Hr [Hi Hm Hd]. split; [by rewrite Ef|auto|done]. Qed.

(** The item fits behind the others. *)
Definition fits (its : list aitem) (it : aitem) : Prop := log_len its + ilen it < 4092.

Lemma shift_pos c n : is_block c -> 0 <= n < 4096 -> Z.shiftr (c * 4096 + n) BLK_BITS = c.
Proof. intros Hc Hn. rewrite Z.shiftr_div_pow2 by done. change (2 ^ BLK_BITS) with 4096. symmetry. apply (Z.div_unique _ _ _ n); lia. Qed.

Lemma calc_pos_ok C c st its it s Q : kv_inv s c st its -> item_wf it ->
  (fits its it -> forall s', kv_inv s' c st its -> kv_flash s' = kv_flash s -> Q (at_ c its) s') ->
  (~ fits its it -> forall s', kv_inv s' c st its -> gc_triggered (kv_mgr s') <> 0 -> Q 0 s') ->
  cwp C (kv_item_calc_pos (ilen it)) Q s.
Proof.
  intros Hinv Hwi H1 H2. pose proof Hinv as [[Hc _ Hb _] [Hbi Hwp Hn] Hd]. pose proof (bk_room _ _ _ _ Hb). pose proof (log_len_nonneg its).
  unfold kv_item_calc_pos. apply cwp_bind, cwp_vget. rewrite Hwp. rewrite <- Z.add_assoc, shift_pos by (done || lia). apply cwp_bind. eapply cwp_get_block.
  { rewrite Hbi. by apply two_get. }
  cbn [bi_space]. destruct (Z.ltb_spec (ilen it) (4092 - log_len its)).
  - apply cwp_bind, cwp_vget. apply cwp_bind. rewrite Z.add_assoc. destruct (_ && _).
    + apply trigger_gc_ok. intros s1 Ef Hg Hr. apply cwp_ret. apply H1; [unfold fits; lia| |done]. by eapply kv_inv_ram.
    + apply cwp_ret, cwp_ret. apply H1; [unfold fits; lia|done|done].
  - apply cwp_bind, trigger_gc_ok. intros s1 Ef Hg Hr. apply cwp_ret. apply H2; [unfold fits; lia| |done]. by eapply kv_inv_ram.
Qed.

Lemma land_full b : 0 <= b < 256 -> Z.land 255 b = b.
Proof. intros Hb. rewrite Z.land_comm. change 255 with (Z.ones 8). rewrite Z.land_ones by lia. by apply Z.mod_small. Qed.

(** The write of an item into erased memory. *)
Lemma append_ok C c its it Q s st : block (kv_flash s) c st its -> is_block c -> item_wf it -> fits its it -> C (kv_flash s) ->
  (forall s', kv_mgr s' = kv_mgr s -> block (kv_flash s') c st (its ++ [it]) ->
     (forall x, ~ (c * 4096 <= x < c * 4096 + 4096) -> byte_at (kv_flash s') x = byte_at (kv_flash s) x) -> Q 0 s') ->
  cwp C (raw_write (at_ c its) (enc_item it)) Q s.
Proof.
  intros Hb Hc Hwi Hfit HC HQ. pose proof (log_len_nonneg its). pose proof (enc_item_length it Hwi) as El. pose proof (ilen_range it Hwi). unfold fits in Hfit.
  apply cwp_write; [unfold is_block in Hc; lia|unfold KV_TOTAL_SIZE; unfold is_block in Hc; lia| |done|].
  - intros i b Hi. pose proof (lookup_lt_Some _ _ _ Hi). assert (0 <= b < 256) as Hr.
    { pose proof (enc_item_bytes it Hwi) as Hbs. unfold bytes in Hbs. rewrite Forall_lookup in Hbs. by eapply Hbs. }
    split; [done|]. rewrite (bk_free _ _ _ _ Hb) by lia. by apply land_full.
  - intros s' Hm Hf. rewrite El in Hf. apply HQ; [done|by eapply block_append|]. intros x Hx. rewrite Hf, decide_False by lia. done.
Qed.

Lemma kv_item_store_ok C c st its k v o s : kv_inv s c st its -> item_wf (mk_aitem true k v o) -> (forall f, image f c st its -> C f) ->
  cwp C (kv_item_store k v o)
    (fun r s' => r = RES_OK /\ fits its (mk_aitem true k v o) /\ kv_inv s' c st (its ++ [mk_aitem true k v o]) \/
                 r = RES_NO_SPACE /\ ~ fits its (mk_aitem true k v o) /\ kv_inv s' c st its /\ gc_triggered (kv_mgr s') <> 0) s.
Proof using mem_ok.
  intros Hinv Hwi HC. set (it := mk_aitem true k v o) in *. pose proof (ilen_range it Hwi) as Hil. pose proof Hwi as [Hk Hv Hby Ho]. cbn in Hk, Hv.
  unfold kv_item_store, u8, u16. rewrite (wrap_small 8 (Z.of_nat (length k))), (wrap_small 16 (Z.of_nat (length v))) by lia. change (kv_align _) with (ilen it).
  rewrite (wrap_small 16 (ilen it)) by lia. apply cwp_bind, cwp_malloc; [done|]. intros s1 Hs1. cbn [negb]. apply (kv_inv_same _ _ _ _ _ Hs1) in Hinv.
  apply cwp_bind. eapply calc_pos_ok; [exact Hinv|done| |].
  - intros Hfit s2 Hinv2 _. pose proof Hinv2 as [[Hc Hst Hb Hbo] [Hbi Hwp Hn] Hd]. pose proof (log_len_nonneg its).
    destruct (Z.ltb_spec 0 (at_ c its)) as [_|Hx]; [|unfold is_block in Hc; lia]. apply cwp_bind. change (store_bytes _ _ _ _) with (enc_item it).
    eapply (append_ok C c its it _ s2 st); [done..|by apply HC|]. intros s3 Hm Hb3 Hfr. change (0 =? RES_OK) with true. cbn iota. unfold fits in Hfit.
    rewrite wrap_small by (unfold is_block in Hc; lia).
    apply cwp_bind, cwp_vput. intros s4 Ef4 Eg4. apply cwp_bind. rewrite <- !Z.add_assoc, shift_pos by (done || lia). eapply cwp_upd_block.
    { rewrite Eg4, Hm. cbn. rewrite Hbi. by apply two_get. }
    intros s5 Ef5 Eg5. apply cwp_ret. left. split; [done|]. split; [done|]. split.
    + rewrite Ef5, Ef4. split; [done|done|done|]. eapply block_frame; [|exact Hbo]. intros x Hx. apply Hfr. unfold is_block in Hc. lia.
    + rewrite Eg5, Eg4, Hm, log_len_snoc by done. split; cbn; [|lia|done]. rewrite Hbi, two_set by done. unfold set_space. cbn. f_equal. f_equal.
      rewrite wrap_small by lia. lia.
    + destruct Hd as [Hd|Hd]; [left|by right]. apply Forall_app. auto.
  - intros Hfit s2 Hinv2 Hg. cbn. apply cwp_ret. right. auto.
Qed.

(** ** Deleting an item *)

Lemma mask_pos c n : is_block c -> 0 <= n < 4096 -> Z.land (c * 4096 + n) BLK_OFF_MASK = c * 4096.
Proof.
  intros Hc Hn. unfold BLK_OFF_MASK. change (Z.lnot (BLK_SIZE - 1)) with (Z.lnot (Z.ones 12)). rewrite <- Z.ldiff_land, Z.ldiff_ones_r by lia.
  change 12 with BLK_BITS. rewrite (shift_pos c n Hc Hn). by apply block_start.
Qed.

Lemma image_frame f f' c st its : is_block c -> (forall x, ~ (c * 4096 <= x < c * 4096 + 4096) -> byte_at f' x = byte_at f x) ->
  block f (1 - c) st its -> block f' (1 - c) st its.
Proof. intros Hc He. apply block_frame. intros x Hx. apply He. unfold is_block in Hc. lia. Qed.

(** The state of a block in which an item is deleted. *)
Definition dirtied (st : Z) : Z := if st =? BLK_STATE_USED then BLK_STATE_DIRTY else st.

Lemma mark_dirty_ok C c st its sp s Q : is_block c -> block (kv_flash s) c st its -> arr_get (block_info (kv_mgr s)) c = Some (mk_block_info sp st) ->
  C (kv_flash s) ->
  (forall s', block (kv_flash s') c (dirtied st) its -> (forall x, x <> c * 4096 + 1 -> byte_at (kv_flash s') x = byte_at (kv_flash s) x) ->
     kv_mgr s' = set_block_info (<[Z.to_nat c := mk_block_info sp (dirtied st)]> (block_info (kv_mgr s))) (kv_mgr s) -> Q tt s') ->
  cwp C (mark_dirty c) Q s.
Proof.
  intros Hc Hb Eb HC HQ. unfold mark_dirty, dirtied in *. apply cwp_bind. eapply cwp_get_block; [exact Eb|]. cbn [bi_state].
  destruct (Z.eqb_spec st BLK_STATE_USED) as [->|Hne].
  - apply cwp_bind. rewrite block_start by done. apply cwp_state_set; [unfold is_block in Hc; lia|unfold KV_TOTAL_SIZE; unfold is_block in Hc; lia|done|by rewrite (bk_state _ _ _ _ Hb)|done|].
    intros s1 Hm1 Hf1. eapply cwp_upd_block; [by rewrite Hm1|]. intros s2 Ef2 Eg2. apply HQ; [rewrite Ef2; by eapply block_mark| |by rewrite Eg2, Hm1].
    intros x Hx. by rewrite Ef2, Hf1, decide_False.
  - apply cwp_ret. apply HQ; [done|done|]. rewrite list_insert_id; [by rewrite mgr_block_info|]. by apply arr_get_Some in Eb as [_ Eb].
Qed.

Lemma del_at_gen C c st its pre it post sp s Q : is_block c -> block (kv_flash s) c st its -> its = pre ++ it :: post ->
  arr_get (block_info (kv_mgr s)) c = Some (mk_block_info sp st) -> C (kv_flash s) ->
  (forall f, block f c st (pre ++ kill it :: post) -> (forall x, ~ (c * 4096 <= x < c * 4096 + 4096) -> byte_at f x = byte_at (kv_flash s) x) -> C f) ->
  (forall s', block (kv_flash s') c (dirtied st) (pre ++ kill it :: post) ->
     (forall x, ~ (c * 4096 <= x < c * 4096 + 4096) -> byte_at (kv_flash s') x = byte_at (kv_flash s) x) ->
     kv_mgr s' = set_block_info (<[Z.to_nat c := mk_block_info sp (dirtied st)]> (block_info (kv_mgr s))) (kv_mgr s) -> Q RES_OK s') ->
  cwp C (del_at (at_ c pre)) Q s.
Proof.
  intros Hc Hb Hits Eb HC1 HC2 HQ. pose proof (bk_wf _ _ _ _ Hb) as Hw. pose proof (bk_room _ _ _ _ Hb) as Hr.
  rewrite Hits in Hw, Hr. apply Forall_app in Hw as [Hw1 [Hwi Hw2]%Forall_cons]. rewrite log_len_app, log_len_cons in Hr by done.
  pose proof (log_len_nonneg pre). pose proof (log_len_nonneg post). pose proof (ilen_range it Hwi).
  unfold del_at. apply cwp_bind. apply cwp_state_set; [unfold is_block in Hc; lia|unfold KV_TOTAL_SIZE; unfold is_block in Hc; lia|done|apply Z.land_0_r|done|].
  intros s1 Hm1 Hf1. change (negb (0 =? RES_OK)) with false. cbn iota.
  assert (block (kv_flash s1) c st (pre ++ kill it :: post)) as Hb1 by (eapply block_kill; [exact Hf1|by rewrite <- Hits]).
  assert (forall x, ~ (c * 4096 <= x < c * 4096 + 4096) -> byte_at (kv_flash s1) x = byte_at (kv_flash s) x) as Hfr.
  { intros x Hx. rewrite Hf1, decide_False by lia. done. }
  rewrite <- Z.add_assoc, shift_pos, mask_pos by (done || lia). apply cwp_bind. eapply cwp_get_block; [rewrite Hm1; exact Eb|].
  cbn [bi_state]. unfold dirtied in HQ. destruct (Z.eqb_spec st BLK_STATE_USED) as [->|Hne].
  - apply cwp_bind. apply cwp_state_set; [unfold is_block in Hc; lia|unfold KV_TOTAL_SIZE; unfold is_block in Hc; lia|done|by rewrite (bk_state _ _ _ _ Hb1)|by apply HC2|].
    intros s2 Hm2 Hf2. change (negb (0 =? RES_OK)) with false. cbn iota. apply cwp_bind. eapply cwp_upd_block; [rewrite Hm2, Hm1; exact Eb|].
    intros s3 Ef3 Eg3. apply cwp_ret. apply HQ; [rewrite Ef3; by eapply block_mark| |by rewrite Eg3, Hm2, Hm1].
    intros x Hx. rewrite Ef3, Hf2, decide_False by lia. by apply Hfr.
  - apply cwp_ret. apply HQ; [done|done|]. rewrite Hm1, list_insert_id; [by rewrite mgr_block_info|]. by apply arr_get_Some in Eb as [_ Eb].
Qed.

Lemma del_at_ok C c st its pre it post s : kv_inv s c st its -> its = pre ++ it :: post ->
  (forall f, image f c st its -> C f) -> (forall f, image f c st (pre ++ kill it :: post) -> C f) ->
  cwp C (del_at (at_ c pre)) (fun r s' => r = RES_OK /\ kv_inv s' c BLK_STATE_DIRTY (pre ++ kill it :: post) /\
    gc_triggered (kv_mgr s') = gc_triggered (kv_mgr s)) s.
Proof.
  intros [Him [Hbi Hwp Hn] Hd] Hits HC1 HC2. pose proof Him as [Hc Hst Hb Hbo].
  assert (log_len (pre ++ kill it :: post) = log_len its) as El.
  { pose proof (bk_wf _ _ _ _ Hb) as Hw. rewrite Hits in Hw |- *. apply Forall_app in Hw as [Hw1 [Hwi Hw2]%Forall_cons].
    rewrite !log_len_app, !log_len_cons; auto using kill_wf. }
  eapply (del_at_gen C c st its pre it post); [done|done|done|by rewrite Hbi; apply two_get|by apply HC1| |].
  - intros f Hb1 Hfr. apply HC2. split; [done|done|done|by eapply image_frame].
  - intros s' Hb1 Hfr Eg. assert (dirtied st = BLK_STATE_DIRTY) as Ed by (by destruct Hst as [-> | ->]). rewrite Ed in Hb1, Eg.
    split; [done|]. rewrite Eg. split; [|done]. split; [|rewrite Eg, El; split; cbn; [|done|done]|by right].
    + split; [done|by right|done|by eapply image_frame].
    + by rewrite Hbi, two_set.
Qed.

(** ** Garbage collection *)

(** A block is erased, then its header is written. *)
Lemma format_ok C c b s Q : is_block c -> arr_get (block_info (kv_mgr s)) c = Some b -> C (kv_flash s) ->
  (forall f, erased f (c * 4096) (c * 4096 + 4096) ->
     (forall x, ~ (c * 4096 <= x < c * 4096 + 4096) -> byte_at f x = byte_at (kv_flash s) x) -> C f) ->
  (forall s', block (kv_flash s') c BLK_STATE_CLEAN [] -> (forall x, ~ (c * 4096 <= x < c * 4096 + 4096) -> byte_at (kv_flash s') x = byte_at (kv_flash s) x) ->
     kv_mgr s' = set_clean_blk_nums (u8 (clean_blk_nums (kv_mgr s) + 1))
       (set_block_info (<[Z.to_nat c := mk_block_info 4092 BLK_STATE_CLEAN]> (block_info (kv_mgr s))) (kv_mgr s)) -> Q RES_OK s') ->
  cwp C (kv_block_format c) Q s.
Proof.
  intros Hc Eb HC1 HC2 HQ. unfold kv_block_format. assert (u16 (Z.shiftl c BLK_BITS) = c * 4096) as -> by (by destruct Hc as [-> | ->]).
  apply cwp_bind, cwp_erase; [unfold is_block in Hc; lia|by destruct Hc as [-> | ->]|by destruct Hc as [-> | ->]|done|]. change BLK_SIZE with 4096.
  intros s1 Hm1 Hf1. change (negb (0 =? 0)) with false. cbn iota. assert (erased (kv_flash s1) (c * 4096) (c * 4096 + 4096)) as Her.
  { intros x Hx. by rewrite Hf1, decide_True by done. }
  apply cwp_bind, cwp_write; [unfold is_block in Hc; lia|cbn; unfold KV_TOTAL_SIZE; unfold is_block in Hc; lia| | |].
  - intros i x Hi. pose proof (lookup_lt_Some _ _ _ Hi) as Hlt. cbn in Hlt. rewrite Her by lia.
    assert (0 <= x < 256) by (do 4 (destruct i as [|i]; [by injection Hi as <-|]); done). split; [done|]. by apply land_full.
  - apply HC2; [done|]. intros x Hx. by rewrite Hf1, decide_False by lia.
  - cbn [length]. intros s2 Hm2 Hf2. change (negb (0 =? RES_OK)) with false. cbn iota.
    apply cwp_bind. eapply cwp_upd_block; [by rewrite Hm2, Hm1|]. intros s3 Ef3 Eg3. apply cwp_bind. eapply cwp_upd_block.
    { rewrite Eg3, Hm2, Hm1. cbn. pose proof (arr_get_lt _ _ _ Eb). unfold arr_get. rewrite decide_True by lia. apply list_lookup_insert_eq. lia. }
    intros s4 Ef4 Eg4. apply cwp_bind, cwp_vput. intros s5 Ef5 Eg5. apply cwp_ret. apply HQ.
    + rewrite Ef5, Ef4, Ef3. split; [| |done| |done|done].
      * rewrite Hf2, decide_True by lia. by replace (Z.to_nat _) with 0%nat by lia.
      * rewrite Hf2, decide_True by lia. by replace (Z.to_nat _) with 1%nat by lia.
      * change (log_len []) with 0. intros x Hx. rewrite Hf2, decide_False by lia. apply Her. lia.
    + intros x Hx. rewrite Ef5, Ef4, Ef3, Hf2, decide_False, Hf1, decide_False by lia. done.
    + rewrite Eg5, Eg4, Eg3, Hm2, Hm1. cbn. unfold set_block_info, set_clean_blk_nums. cbn. by rewrite list_insert_insert_eq.
Qed.

(** The manager while the items are copied. *)
Record gram (g : kv_mgr_t) (c len : Z) (l : list aitem) : Prop := {
  gr_blocks : block_info g = two c (mk_block_info (4092 - len) BLK_STATE_DIRTY) (mk_block_info (4092 - log_len l) BLK_STATE_CLEAN);
  gr_pos : write_pos g = at_ (1 - c) l;
  gr_clean : clean_blk_nums g = 1
}.

(** The flash while the items are copied. *)
Record copying (f : flash) (c : Z) (its l : list aitem) : Prop := {
  cp_block : is_block c;
  cp_from : block f c BLK_STATE_DIRTY its;
  cp_to : block f (1 - c) BLK_STATE_CLEAN l
}.

Lemma gc_cb_ok C c its pre it post s : its = pre ++ it :: post -> ai_live it = true -> copying (kv_flash s) c its (lives pre) ->
  gram (kv_mgr s) c (log_len its) (lives pre) -> C (kv_flash s) ->
  cwp C (item_gc_cb (item_of it (at_ c pre))) (fun r s' => r.1 = RES_CONT /\ copying (kv_flash s') c its (lives (pre ++ [it])) /\
    gram (kv_mgr s') c (log_len its) (lives (pre ++ [it]))) s.
Proof using mem_ok.
  intros Hits Hl [Hc Hb1 Hb2] [Gb Gp Gc] HC. pose proof (bk_wf _ _ _ _ Hb1) as Hw. pose proof (bk_room _ _ _ _ Hb1) as Hr. pose proof Hw as Hwa.
  rewrite Hits in Hw, Hr. apply Forall_app in Hw as [Hw1 [Hwi Hw2]%Forall_cons]. rewrite log_len_app, log_len_cons in Hr by done.
  pose proof (log_len_nonneg pre). pose proof (log_len_nonneg post). pose proof (ilen_range it Hwi). pose proof (log_len_lives pre Hw1). pose proof (log_len_nonneg (lives pre)).
  destruct (block_log _ _ _ _ _ _ Hb1 Hits) as [Hh _]. rewrite enc_items_cons in Hh. apply holds_app in Hh as [Hh _]. pose proof (enc_item_length it Hwi).
  rewrite lives_snoc, Hl. unfold item_gc_cb. cbn [item_of it_len it_pos]. rewrite Z.add_assoc. change (kv_align _) with (ilen it). unfold u16.
  rewrite (wrap_small 16 (ilen it)) by lia. apply cwp_bind, cwp_malloc; [done|]. intros s1 [Ef1 Eg1]. cbn [negb]. apply cwp_bind. eapply cwp_read.
  { rewrite Ef1. apply (holds_read _ _ _ _ Hh); [lia|unfold is_block in Hc; lia|unfold KV_TOTAL_SIZE; unfold is_block in Hc; lia]. }
  rewrite take_ge by lia. cbn [fst snd]. change (negb (0 =? RES_OK)) with false. cbn iota. apply cwp_bind, cwp_vget. rewrite Eg1, Gp. apply cwp_bind.
  eapply (append_ok C (1 - c) (lives pre) it _ s1 BLK_STATE_CLEAN); [by rewrite Ef1|by apply is_block_other|done|unfold fits; lia|by rewrite Ef1|].
  intros s2 Hm2 Hb Hfr. change (negb (0 =? RES_OK)) with false. cbn iota. rewrite wrap_small by (unfold is_block in Hc; lia).
  apply cwp_bind, cwp_vput. intros s3 Ef3 Eg3. apply cwp_bind. rewrite <- !Z.add_assoc, shift_pos by (lia || by apply is_block_other). eapply cwp_upd_block.
  { rewrite Eg3, Hm2, Eg1. cbn. rewrite Gb. by apply two_get_other. }
  intros s4 Ef4 Eg4. apply cwp_ret. split; [done|]. split.
  - rewrite Ef4, Ef3. split; [done| |done]. eapply block_frame; [|exact Hb1]. intros x Hx. rewrite Hfr, Ef1 by (unfold is_block in Hc; lia). done.
  - rewrite Eg4, Eg3, Hm2, Eg1. split; cbn; [|rewrite log_len_snoc by done; lia|done]. rewrite Gb, two_set_other by done. unfold set_space. cbn.
    f_equal. f_equal. rewrite wrap_small, log_len_snoc by (done || lia). lia.
Qed.

Lemma gc_copy_ok C c its s : copying (kv_flash s) c its [] -> gram (kv_mgr s) c (log_len its) [] ->
  (forall f pre post, its = pre ++ post -> copying f c its (lives pre) -> C f) ->
  cwp C (kv_item_traverse item_gc_cb c) (fun _ s' => copying (kv_flash s') c its (lives its) /\ gram (kv_mgr s') c (log_len its) (lives its)) s.
Proof using mem_ok.
  intros Hcp Hg HC. pose proof Hcp as [Hc Hb _].
  apply (cwp_traverse mem_ok C _ c its (fun pre s' => copying (kv_flash s') c its (lives pre) /\ gram (kv_mgr s') c (log_len its) (lives pre)));
    [done|apply Hb|apply Hb| | | | | |done].
  - intros pre s1 s2 [H1 H2] [Ef Eg]. by rewrite Ef, Eg.
  - intros pre post s1 Hits [[_ Hb1 _] _]. by eapply block_log.
  - intros pre it post s1 Hits Hl [H1 H2]. eapply cwp_mono; [by eapply gc_cb_ok; eauto|]. intros r s2 (E & H3). by right.
  - intros pre it post s1 Hits Hl [H1 H2]. unfold mark_dirty. apply cwp_bind. eapply cwp_get_block.
    { rewrite (gr_blocks _ _ _ _ H2). by apply two_get. }
    apply cwp_ret. rewrite lives_snoc, Hl. done.
  - intros s1 [H1 H2]. eapply cwp_upd_block.
    { rewrite (gr_blocks _ _ _ _ H2). by apply two_get. }
    intros s2 Ef Eg. rewrite Ef. split; [done|]. destruct H2 as [Gb Gp Gc]. rewrite Eg. split; cbn; [|done|done]. by rewrite Gb, two_set by done.
Qed.

(** The block that was copied is erased, or has its header back. *)
Record wiped (f : flash) (c : Z) (l : list aitem) : Prop := {
  wp_block : is_block c;
  wp_from : erased f (c * 4096) (c * 4096 + 4096) \/ block f c BLK_STATE_CLEAN [];
  wp_to : block f (1 - c) BLK_STATE_CLEAN l
}.

(** The collection of block [c]. *)
Lemma gc_block_ok C c its s : copying (kv_flash s) c its [] -> gram (kv_mgr s) c (log_len its) [] ->
  (forall f pre post, its = pre ++ post -> copying f c its (lives pre) -> C f) -> (forall f, wiped f c (lives its) -> C f) ->
  cwp C (kv_item_traverse item_gc_cb c;;
    ret ← kv_block_format c;
    if negb (ret =? RES_OK) then mret None
    else
      wp ← vget write_pos;
      kv_state_set (Z.land wp BLK_OFF_MASK) BLK_STATE_USED;;
      upd_block (1 - c) (set_state BLK_STATE_USED);;
      vput (fun g => set_clean_blk_nums (u8 (clean_blk_nums g - 1)) g);;
      mret (Some true)) (fun r s' => r = Some true /\ kv_inv s' (1 - c) BLK_STATE_USED (lives its)) s.
Proof using mem_ok.
  intros Hcp Hg HC1 HC2. pose proof Hcp as [Hc Hb _]. pose proof (log_len_nonneg (lives its)). pose proof (log_len_lives its (bk_wf _ _ _ _ Hb)). pose proof (bk_room _ _ _ _ Hb).
  apply cwp_bind. eapply cwp_mono; [by apply gc_copy_ok|]. intros _ s1 [Hcp1 [Gb Gp Gc]]. pose proof Hcp1 as [_ Hb1 Hb1'].
  apply cwp_bind. eapply format_ok; [done|by rewrite Gb; apply two_get|by apply (HC1 _ its []); [rewrite app_nil_r|]| |].
  { intros f Her Hfr. apply HC2. split; [done|by left|]. by eapply image_frame. }
  intros s2 Hb2 Hfr2 Eg2. change (negb (RES_OK =? RES_OK)) with false. cbn iota. assert (block (kv_flash s2) (1 - c) BLK_STATE_CLEAN (lives its)) as Hb2' by (by eapply image_frame).
  apply cwp_bind, cwp_vget. rewrite Eg2. cbn [write_pos set_clean_blk_nums set_block_info]. rewrite Gp, <- Z.add_assoc, mask_pos by (lia || by apply is_block_other).
  apply cwp_bind, cwp_state_set; [unfold is_block in Hc; lia|unfold KV_TOTAL_SIZE; unfold is_block in Hc; lia|done|by rewrite (bk_state _ _ _ _ Hb2')| |].
  { apply HC2. split; [done|by right|done]. }
  intros s3 Hm3 Hf3. apply cwp_bind. eapply cwp_upd_block.
  { rewrite Hm3, Eg2. cbn. rewrite Gb, two_set by done. by apply two_get_other. }
  intros s4 Ef4 Eg4. apply cwp_bind, cwp_vput. intros s5 Ef5 Eg5. apply cwp_ret. split; [done|]. split.
  - rewrite Ef5, Ef4. split; [by apply is_block_other|by left|by eapply block_mark|]. replace (1 - (1 - c)) with c by lia. eapply block_frame; [|exact Hb2].
    intros x Hx. rewrite Hf3, decide_False by (unfold is_block in Hc; lia). done.
  - rewrite Eg5, Eg4, Hm3, Eg2. split; cbn; [|done|by rewrite Gc]. rewrite Gb, two_set, two_set_other, two_swap by done. done.
  - left. apply Forall_forall. by intros it [Hl _]%list_elem_of_filter.
Qed.

Lemma find_clean_ok C c x y s : is_block c -> block_info (kv_mgr s) = two c x y -> bi_state x <> BLK_STATE_CLEAN -> bi_state y = BLK_STATE_CLEAN ->
  cwp C (find_clean blocks) (fun r s' => r = Some (1 - c) /\ s' = s) s.
Proof.
  intros Hc Hbi Hx Hy. change blocks with [0; 1]. cbn [find_clean]. apply cwp_bind. destruct Hc as [-> | ->].
  - eapply cwp_get_block; [by rewrite Hbi|]. destruct (Z.eqb_spec (bi_state x) BLK_STATE_CLEAN); [done|]. apply cwp_bind.
    eapply cwp_get_block; [by rewrite Hbi|]. rewrite Hy. by apply cwp_ret.
  - eapply cwp_get_block; [by rewrite Hbi|]. rewrite Hy. by apply cwp_ret.
Qed.

(** The clean block is passed over. *)
Lemma gc_loop_skip c x y s fuel k : is_block c -> block_info (kv_mgr s) = two c x y -> bi_state y = BLK_STATE_CLEAN ->
  gc_loop (S fuel) (c + 1) c k s = gc_loop fuel c c k s.
Proof.
  intros Hc Hbi Hy. cbn [gc_loop]. assert ((if c + 1 =? BLK_NUMS then 0 else c + 1) = 1 - c) as -> by (by destruct Hc as [-> | ->]).
  unfold mbind at 1, V_bind at 1. unfold get_block at 1. rewrite Hbi, two_get_other by done. cbn [mbind option_bind]. rewrite Hy. cbn iota.
  change (BLK_STATE_CLEAN =? BLK_STATE_DIRTY) with false. cbn iota. destruct (Z.eqb_spec (1 - c) c); [unfold is_block in Hc; lia|].
  destruct Hc as [-> | ->]; [|done]. by destruct fuel.
Qed.

Lemma cwp_eq {A} C (m m' : V A) Q s : m s = m' s -> cwp C m' Q s -> cwp C m Q s.
Proof. intros E. unfold cwp. by rewrite E. Qed.

Lemma aos_kv_gc_ok C c st its s : kv_inv s c st its ->
  (forall f pre post, its = pre ++ post -> copying f c its (lives pre) -> C f) -> (forall f, wiped f c (lives its) -> C f) ->
  cwp C aos_kv_gc (fun _ s' => gc_triggered (kv_mgr s') = 0 /\
    if decide (st = BLK_STATE_DIRTY) then kv_inv s' (1 - c) BLK_STATE_USED (lives its) else kv_inv s' c st its) s.
Proof using mem_ok.
  intros Hinv HC1 HC2. pose proof Hinv as [[Hc Hst Hb Hbo] [Hbi Hwp Hn] Hd]. pose proof (log_len_nonneg its). pose proof (bk_room _ _ _ _ Hb).
  unfold aos_kv_gc. apply cwp_bind, cwp_vget. apply cwp_bind, cwp_vget. rewrite Hn. apply cwp_bind. change (1 =? 0) with false. cbn iota.
  apply cwp_bind. eapply cwp_mono; [apply (find_clean_ok C c _ _ _ Hc Hbi); [by destruct Hst as [-> | ->]|done]|]. intros r s0 [-> ->]. cbn iota.
  assert (u16 (Z.shiftl (1 - c) BLK_BITS + BLK_HEADER_SIZE) = (1 - c) * 4096 + 4) as -> by (by destruct Hc as [-> | ->]).
  apply cwp_bind, cwp_vput. intros s1 Ef1 Eg1. rewrite Hwp, <- Z.add_assoc, shift_pos by (done || lia). apply cwp_bind.
  change (S (Z.to_nat BLK_NUMS)) with 3%nat. eapply cwp_eq; [eapply gc_loop_skip; [done|by rewrite Eg1|done]|]. cbn [gc_loop].
  assert ((if c =? BLK_NUMS then 0 else c) = c) as -> by (by destruct Hc as [-> | ->]). apply cwp_bind.
  eapply cwp_get_block; [rewrite Eg1; cbn; rewrite Hbi; by apply two_get|]. cbn [bi_state]. destruct Hst as [-> | ->].
  - change (BLK_STATE_USED =? BLK_STATE_DIRTY) with false. cbn iota. rewrite Z.eqb_refl. apply cwp_ret, cwp_vput. intros s2 Ef2 Eg2. apply cwp_vput.
    intros s3 Ef3 Eg3. rewrite decide_False by done. split; [by rewrite Eg3|]. split; [rewrite Ef3, Ef2, Ef1; apply Hinv| |done].
    rewrite Eg3, Eg2, Eg1. split; cbn; [done|lia|done].
  - rewrite Z.eqb_refl. eapply cwp_mono; [apply (gc_block_ok C c its s1); [by rewrite Ef1| |done|done]|].
    { rewrite Eg1. split; cbn; [|change (log_len []) with 0; lia|done]. rewrite Hbi. done. }
    intros r s2 [-> Hinv2]. apply cwp_ret, cwp_vput. intros s3 Ef3 Eg3. split; [by rewrite Eg3|]. rewrite decide_True by done.
    eapply kv_inv_ram; [exact Ef3| |exact Hinv2]. intros c' st' len [? ? ?]. rewrite Eg3. by split.
Qed.

End spec.
