(* ===== verification/KvCalls.v ===== *)
(** * The key-value store: the calls

    The store is a map from keys to values, the live items of the block in use, and
    the calls act on that map.  [kv_step] is the map's behaviour. *)

From S2P Require Import Prelude CircBuf Kv KvLog KvWp KvOps.
Local Open Scope Z_scope.

Inductive kv_op :=
  | OpSet (k v : list Z)
  | OpGet (k : list Z) (n : Z)
  | OpDel (k : list Z)
  | OpGc.

(** The key can be stored. *)
Definition key_ok (k : list Z) : Prop := k <> [] /\ bytes k.

Definition op_ok (op : kv_op) : Prop := match op with OpSet k v => key_ok k /\ bytes v | _ => True end.

(** The arguments are accepted. *)
Definition set_args (k v : list Z) : Prop := (length k <= 128)%nat /\ (1 <= length v <= 512)%nat.

#[global] Instance set_args_dec k v : Decision (set_args k v).
Proof. unfold set_args. apply _. Defined.

(** What a call does to the map and returns: the result, the bytes stored and the length reported. *)
Definition kv_step (m : gmap (list Z) (list Z)) (op : kv_op) (r : Z * list Z * option Z) (m' : gmap (list Z) (list Z)) : Prop :=
  match op with
  | OpSet k v =>
      if decide (set_args k v) then r = (RES_OK, [], None) /\ m' = <[k := v]> m \/ r = (RES_NO_SPACE, [], None) /\ m' = m
      else r = (RES_INVALID_PARAM, [], None) /\ m' = m
  | OpGet k n =>
      m' = m /\ r = if decide (n <= 0) then (RES_INVALID_PARAM, [], Some n)
                    else match m !! k with
                         | None => (RES_ITEM_NOT_FOUND, [], Some n)
                         | Some v => if decide (n < Z.of_nat (length v)) then (RES_NO_SPACE, [], Some (Z.of_nat (length v)))
                                     else (RES_OK, v, Some (Z.of_nat (length v)))
                         end
  | OpDel k => m' = delete k m /\ r = ((match m !! k with None => RES_ITEM_NOT_FOUND | Some _ => RES_OK end), [], None)
  | OpGc => m' = m /\ r = (RES_OK, [], None)
  end.

Section calls.
Context `{HalFlash} `{AosMem} (mem_ok : forall n, aos_malloc_ok n = true).

Notation at_ c pre := (c * 4096 + 4 + log_len pre).

(** ** Lookup *)

Lemma aos_kv_get_ok C c st its k n s : kv_inv s c st its -> uniq its ->
  cwp C (aos_kv_get (Some k) true (Some n)) (fun r s' => same s s' /\
    r = if decide (n <= 0) then (RES_INVALID_PARAM, [], Some n)
        else match kv_lookup its k with
             | None => (RES_ITEM_NOT_FOUND, [], Some n)
             | Some v => if decide (n < Z.of_nat (length v)) then (RES_NO_SPACE, [], Some (Z.of_nat (length v))) else (RES_OK, v, Some (Z.of_nat (length v)))
             end) s.
Proof using mem_ok.
  intros Hinv Hu. cbn [aos_kv_get]. destruct (Z.leb_spec n 0).
  { apply cwp_ret. by rewrite decide_True by lia. }
  rewrite decide_False by lia. apply cwp_bind. eapply cwp_mono; [by eapply kv_item_get_ok|]. intros [item|] s1 [Hs Hr].
  - destruct Hr as (pre & it & post & Hits & Hk & ->). destruct (lookup_found _ _ _ _ _ Hu Hits Hk) as (_ & _ & ->). cbn [found it_hdr item_hdr h_val_len h_key_len it_store].
    destruct (Z.ltb_spec n (Z.of_nat (length (ai_val it)))).
    + apply cwp_ret. by rewrite decide_True by lia.
    + apply cwp_bind, (cwp_vopt _ _ _ _ _ eq_refl). apply cwp_bind. eapply (cwp_vopt _ _ (ai_val it)).
      { unfold slice. rewrite decide_True by (rewrite length_app; lia). rewrite !Nat2Z.id, drop_app_length. by rewrite take_ge by lia. }
      apply cwp_ret. by rewrite decide_False by lia.
  - cbn in Hr. rewrite Hr. by apply cwp_ret.
Qed.

(** ** Deletion *)

(** The items after [aos_kv_del]. *)
Definition del_items (its : list aitem) (k : list Z) (its' : list aitem) : Prop :=
  kv_lookup its k = None /\ its' = its \/
  exists pre it post, its = pre ++ it :: post /\ key_live k it /\ its' = pre ++ kill it :: post.

Lemma del_items_map its k its' : uniq its -> del_items its k its' ->
  uniq its' /\ forall k', kv_lookup its' k' = if decide (k' = k) then None else kv_lookup its k'.
Proof.
  intros Hu [[Hn ->]|(pre & it & post & Hits & Hk & ->)].
  - split; [done|]. intros k'. case_decide as E; [by rewrite E|done].
  - split; [apply uniq_kill; by rewrite <- Hits|]. intros k'. by eapply lookup_kill.
Qed.

Lemma aos_kv_del_ok C c st its k s : kv_inv s c st its -> uniq its -> (forall f, image f c st its -> C f) ->
  (forall f pre it post, its = pre ++ it :: post -> key_live k it -> image f c st (pre ++ kill it :: post) -> C f) ->
  cwp C (aos_kv_del k) (fun r s' => r = match kv_lookup its k with None => RES_ITEM_NOT_FOUND | Some _ => RES_OK end /\
    exists st' its', kv_inv s' c st' its' /\ del_items its k its') s.
Proof using mem_ok.
  intros Hinv Hu HC1 HC2. unfold aos_kv_del. apply cwp_bind. eapply cwp_mono; [by eapply kv_item_get_ok|]. intros [item|] s1 [Hs Hr].
  - destruct Hr as (pre & it & post & Hits & Hk & ->). destruct (lookup_found _ _ _ _ _ Hu Hits Hk) as (_ & _ & ->).
    cbn [kv_item_del kv_self_remove]. unfold kv_self_remove. cbn [found it_pos].
    eapply cwp_mono; [eapply (del_at_ok C c st its pre it post s1); [by eapply kv_inv_same|done|done|by eauto]|].
    intros r s2 (-> & Hinv2 & _). split; [done|]. exists BLK_STATE_DIRTY, (pre ++ kill it :: post). split; [done|].
    right. by exists pre, it, post.
  - cbn in Hr. rewrite Hr. apply cwp_ret. split; [done|]. exists st, its. split; [by eapply kv_inv_same|]. by left.
Qed.

(** ** Storing *)

(** The body of [aos_kv_set] with the mutex held. *)
Definition set_body (key v : list Z) : V Z :=
  item ← kv_item_get key;
  match item with
  | Some item => kv_item_update item key v
  | None => kv_item_store key v 0
  end.

Definition wf_args (k v : list Z) : Prop := key_ok k /\ bytes v /\ set_args k v.

Lemma new_item_wf k v o : wf_args k v -> 0 <= o <= KV_TOTAL_SIZE - 8 - Z.of_nat (length k) -> item_wf (mk_aitem true k v o).
Proof.
  intros [[Hk Hkb] [Hvb [Hl Hv]]] Ho. split; cbn; [destruct k; [done|cbn in *; lia]|done| |done]. by apply Forall_app.
Qed.

(** The new version of the item at [pre]. *)
Definition new_item (c : Z) (pre : list aitem) (k v : list Z) : aitem := mk_aitem true k v (at_ c pre).

Lemma new_version_wf f c st its pre it post k v : is_block c -> block f c st its -> its = pre ++ it :: post -> key_live k it -> wf_args k v ->
  item_wf (new_item c pre k v).
Proof.
  intros Hc Hb Hits [_ Hk] Ha. apply new_item_wf; [done|]. pose proof (bk_wf _ _ _ _ Hb) as Hw. pose proof (bk_room _ _ _ _ Hb) as Hr.
  rewrite Hits in Hw, Hr. apply Forall_app in Hw as [Hw1 [Hwi Hw2]%Forall_cons]. rewrite log_len_app, log_len_cons in Hr by done.
  pose proof (log_len_nonneg pre). pose proof (log_len_nonneg post). pose proof (ilen_range it Hwi). rewrite Hk in *. unfold KV_TOTAL_SIZE. unfold is_block in Hc. lia.
Qed.

Definition kvlen (k v : list Z) : Z := ilen (mk_aitem true k v 0).

Lemma lookup_update its pre it post k v k' o : uniq its -> its = pre ++ it :: post -> key_live k it ->
  kv_lookup (pre ++ kill it :: post ++ [mk_aitem true k v o]) k' = if decide (k' = k) then Some v else kv_lookup its k'.
Proof.
  intros Hu Hits Hk. pose proof (fun k' => lookup_kill _ _ _ _ _ k' Hu Hits Hk) as El. rewrite app_comm_cons, app_assoc, lookup_snoc; cbn; [|by rewrite El, decide_True|done].
  case_decide; [done|]. by rewrite El, decide_False.
Qed.

(** The items after [aos_kv_set]. *)
Definition set_items (c : Z) (its : list aitem) (k v : list Z) (its' : list aitem) : Prop :=
  kv_lookup its k = Some v /\ its' = its \/
  kv_lookup its k = None /\ its' = its ++ [mk_aitem true k v 0] \/
  exists pre it post, its = pre ++ it :: post /\ key_live k it /\ its' = pre ++ kill it :: post ++ [new_item c pre k v].

Lemma set_items_map c its k v its' : uniq its -> set_items c its k v its' ->
  uniq its' /\ forall k', kv_lookup its' k' = if decide (k' = k) then Some v else kv_lookup its k'.
Proof.
  intros Hu [[Hs ->]|[[Hn ->]|(pre & it & post & Hits & Hk & ->)]].
  - split; [done|]. intros k'. case_decide as E; [by rewrite E|done].
  - split; [by apply uniq_snoc|]. intros k'. by apply lookup_snoc.
  - split; [|intros k'; by apply (lookup_update its)]. rewrite app_comm_cons, app_assoc. apply uniq_snoc; [apply uniq_kill; by rewrite <- Hits|]. cbn.
    rewrite (lookup_kill its _ _ _ k) by done. by rewrite decide_True.
Qed.

Definition set_post (c st : Z) (its : list aitem) (k v : list Z) (r : Z) (s' : kvstate) : Prop :=
  r = RES_OK /\ (exists st' its', kv_inv s' c st' its' /\ set_items c its k v its') \/
  r = RES_NO_SPACE /\ kv_inv s' c st its /\ gc_triggered (kv_mgr s') <> 0 /\ 4092 <= log_len its + kvlen k v.

Lemma kv_item_update_ok C c st its pre it post k v s : kv_inv s c st its -> uniq its -> its = pre ++ it :: post -> key_live k it -> wf_args k v ->
  (forall f, image f c st its -> C f) -> (forall f, image f c st (its ++ [new_item c pre k v]) -> C f) ->
  (forall f, image f c st (pre ++ kill it :: post ++ [new_item c pre k v]) -> C f) ->
  cwp C (kv_item_update (found it (at_ c pre)) k v) (set_post c st its k v) s.
Proof using mem_ok.
  intros Hinv Hu Hits Hk Ha HC1 HC2 HC3. pose proof Hinv as [[Hc _ Hb _] _ _]. pose proof (new_version_wf _ _ _ _ _ _ _ _ _ Hc Hb Hits Hk Ha) as Hwn.
  destruct (lookup_found _ _ _ _ _ Hu Hits Hk) as (_ & _ & El). unfold kv_item_update. cbn [found it_store it_hdr item_hdr h_key_len h_val_len it_pos].
  apply cwp_bind, (cwp_vopt _ _ _ _ _ eq_refl). rewrite Nat2Z.id, drop_app_length.
  destruct (Z.eqb_spec (Z.of_nat (length (ai_val it))) (Z.of_nat (length v))) as [E|E]; cbn [andb]; [rewrite take_ge by lia; case_bool_decide as Ev|].
  { apply cwp_ret. left. split; [done|]. exists st, its. split; [done|]. left. by rewrite El, Ev. }
  all: apply cwp_bind; eapply cwp_mono; [eapply (kv_item_store_ok mem_ok C c st its k v (at_ c pre)); [done|exact Hwn|done]|];
    (intros r s1 [(-> & Hfit & Hinv1)|(-> & Hfit & Hinv1 & Hg)]; cbn [negb RES_OK Z.eqb];
    [| apply cwp_ret; right; unfold fits in Hfit; split; [done|]; split; [done|]; split; [done|]; unfold kvlen, ilen in *; cbn in *; lia]).
  all: cbn [kv_item_del]; unfold kv_self_remove; cbn [it_pos];
    eapply cwp_mono; [eapply (del_at_ok C c st _ pre it (post ++ [new_item c pre k v]) s1); [exact Hinv1|by rewrite Hits, <- app_assoc|done|done]|];
    intros r s2 (-> & Hinv2 & _); left; split; [done|]; eexists _, _; split; [exact Hinv2|];
    right; right; by exists pre, it, post.
Qed.

Lemma set_body_ok C c st its k v s : kv_inv s c st its -> uniq its -> wf_args k v ->
  (forall f, image f c st its -> C f) ->
  (forall f pre it post, its = pre ++ it :: post -> key_live k it ->
     image f c st (its ++ [new_item c pre k v]) \/ image f c st (pre ++ kill it :: post ++ [new_item c pre k v]) -> C f) ->
  cwp C (set_body k v) (set_post c st its k v) s.
Proof using mem_ok.
  intros Hinv Hu Ha HC1 HC2. unfold set_body. apply cwp_bind. eapply cwp_mono; [by eapply kv_item_get_ok|]. intros [item|] s1 [Hs Hr].
  - destruct Hr as (pre & it & post & Hits & Hk & ->). eapply kv_item_update_ok; [by eapply kv_inv_same|done|done|done|done|done| |]; intros f Hf; eapply HC2; eauto.
  - cbn in Hr. eapply cwp_mono; [apply (kv_item_store_ok mem_ok C c st its k v 0); [by eapply kv_inv_same| |done]|].
    { apply new_item_wf; [done|]. destruct Ha as [_ [_ [Hl _]]]. unfold KV_TOTAL_SIZE. lia. }
    intros r s2 [(-> & Hfit & Hinv2)|(-> & Hfit & Hinv2 & Hg)]; [left|right].
    + split; [done|]. eexists _, _. split; [exact Hinv2|]. right. by left.
    + unfold fits in Hfit. split; [done|]. split; [done|]. split; [done|]. unfold kvlen. lia.
Qed.

(** What a collection leaves. *)
Definition gc_items (c st : Z) (its : list aitem) : Z * Z * list aitem :=
  if decide (st = BLK_STATE_DIRTY) then (1 - c, BLK_STATE_USED, lives its) else (c, st, its).

Lemma wait_gc_ok C c st its s : kv_inv s c st its ->
  (gc_triggered (kv_mgr s) <> 0 -> (forall f pre post, its = pre ++ post -> copying f c its (lives pre) -> C f) /\ (forall f, wiped f c (lives its) -> C f)) ->
  cwp C wait_gc (fun _ s' => gc_triggered (kv_mgr s') = 0 /\
    if decide (gc_triggered (kv_mgr s) = 0) then s' = s else let '(c', st', its') := gc_items c st its in kv_inv s' c' st' its') s.
Proof using mem_ok.
  intros Hinv HC. unfold wait_gc. apply cwp_bind, cwp_vget. destruct (Z.eqb_spec (gc_triggered (kv_mgr s)) 0) as [E|E].
  - apply cwp_ret. by rewrite decide_True.
  - destruct (HC E) as [HC1 HC2]. apply cwp_bind, cwp_vput. intros s1 Ef Eg.
    assert (kv_inv s1 c st its) as Hinv1. { eapply kv_inv_ram; [exact Ef| |exact Hinv]. intros c' st' len [? ? ?]. rewrite Eg. by split. }
    eapply cwp_mono; [by eapply aos_kv_gc_ok|]. intros [] s2 [Hg Hr]. split; [done|]. rewrite decide_False by done. unfold gc_items. by case_decide.
Qed.

Lemma aos_kv_set_eq k v : set_args k v -> aos_kv_set (Some k) (Some v) (Z.of_nat (length v)) = (wait_gc;; set_body k v).
Proof.
  intros [Hk Hv]. unfold aos_kv_set. destruct (Z.leb_spec (Z.of_nat (length v)) 0); [lia|].
  destruct (Z.ltb_spec ITEM_MAX_KEY_LEN (Z.of_nat (length k))) as [Hx|_]; [unfold ITEM_MAX_KEY_LEN in Hx; lia|].
  destruct (Z.ltb_spec ITEM_MAX_VAL_LEN (Z.of_nat (length v))) as [Hx|_]; [unfold ITEM_MAX_VAL_LEN in Hx; lia|]. cbn [orb].
  unfold slice. rewrite decide_True by lia. change (drop (Z.to_nat 0) v) with v. rewrite take_ge by lia. done.
Qed.

End calls.
