(* ===== verification/KvRecover.v ===== *)
(** * The key-value store: start-up

    [aos_kv_init] scans the blocks and finds the items again.  An item whose origin,
    the place of the version it replaced, holds a live item with the same key
    deletes that item; the conditions on the origins say when there is none. *)

From S2P Require Import Prelude Kv KvLog KvWp KvOps KvCalls.
Local Open Scope Z_scope.

Section recover.
Context `{HalFlash} `{AosMem} (mem_ok : forall n, aos_malloc_ok n = true).

Notation at_ c pre := (c * 4096 + 4 + log_len pre).

Notation outside c f f' := (forall x, ~ (c * 4096 <= x < c * 4096 + 4096) -> byte_at f' x = byte_at f x).

(** There is no live item at the origin of [it]. *)
Definition harmless (f : flash) (it : aitem) : Prop :=
  ai_origin it = 0 \/ byte_at f (ai_origin it) <> ITEM_MAGIC_NUM \/ byte_at f (ai_origin it + 1) <> ITEM_STATE_NORMAL.

(** The origin of [it] is read. *)
Lemma origin_read f it : item_wf it ->
  exists l, hal_flash_read f (ai_origin it) ITEM_HEADER_SIZE = (0, l) /\ h_magic (hdr_of l) = byte_at f (ai_origin it) /\
    h_state (hdr_of l) = byte_at f (ai_origin it + 1).
Proof.
  intros [Hk Hv Hby Ho]. eexists. split; [apply read_ok; unfold ITEM_HEADER_SIZE; lia|]. change (Z.to_nat ITEM_HEADER_SIZE) with 8%nat. unfold hdr_of. cbn -[byte_at Z.add Z.of_nat]. by rewrite Z.add_0_r.
Qed.

(** A sound item with a harmless origin is passed. *)
Lemma recovery_keep c st its pre it post s : is_block c -> block (kv_flash s) c st its -> its = pre ++ it :: post -> harmless (kv_flash s) it ->
  cwp (fun _ => True) (item_recovery_cb (item_of it (at_ c pre))) (fun r s' => r.1 = RES_CONT /\ same s s') s.
Proof using mem_ok.
  intros Hc Hb Hits Hh. pose proof (bk_wf _ _ _ _ Hb) as Hw. rewrite Hits in Hw. apply Forall_app in Hw as [_ [Hwi _]%Forall_cons].
  unfold item_recovery_cb. apply cwp_bind, cwp_malloc; [done|]. intros s1 Hs1. cbn [negb item_of it_pos it_len it_hdr item_hdr h_crc h_origin_off]. apply cwp_bind.
  destruct Hs1 as [Ef Eg]. eapply cwp_read; [rewrite Ef; by eapply item_store_read|]. cbn [fst snd]. change (negb (0 =? RES_OK)) with false. cbn iota.
  rewrite Z.eqb_refl. apply cwp_bind. eapply (cwp_mono _ _ (fun _ s' => same s s')); [|intros [] s2 Hs2; by apply cwp_ret].
  destruct (Z.eqb_spec (ai_origin it) 0) as [E|E]; cbn [negb andb]; [by apply cwp_ret|]. case_match; [|by apply cwp_ret].
  apply cwp_bind. cbn [kv_item_del]. unfold kv_orig_remove. cbn [item_of it_hdr item_hdr h_origin_off h_key_len]. apply cwp_bind.
  destruct (origin_read (kv_flash s1) it Hwi) as (l & Er & Em & Es). eapply cwp_read; [exact Er|]. cbn [fst snd]. change (negb (0 =? RES_OK)) with false. cbn iota.
  rewrite Em, Es, Ef. destruct Hh as [Hh|[Hh|Hh]]; [done| |].
  - destruct (Z.eqb_spec (byte_at (kv_flash s) (ai_origin it)) ITEM_MAGIC_NUM); [done|]. cbn [negb orb]. by apply cwp_ret, cwp_ret.
  - destruct (Z.eqb_spec (byte_at (kv_flash s) (ai_origin it + 1)) ITEM_STATE_NORMAL); [done|]. rewrite orb_true_r. cbn [orb]. by apply cwp_ret, cwp_ret.
Qed.

(** An item whose origin is the old version deletes it. *)
Lemma recovery_replace c st its a d e pre it post sp s Q : is_block c -> block (kv_flash s) c st its -> its = pre ++ it :: post ->
  its = a ++ d :: e -> ai_live d = true -> ai_key d = ai_key it -> ai_origin it = at_ c a -> at_ c pre <> at_ c a ->
  arr_get (block_info (kv_mgr s)) c = Some (mk_block_info sp st) ->
  (forall s', block (kv_flash s') c (dirtied st) (a ++ kill d :: e) -> outside c (kv_flash s) (kv_flash s') ->
     kv_mgr s' = set_block_info (<[Z.to_nat c := mk_block_info sp (dirtied st)]> (block_info (kv_mgr s))) (kv_mgr s) -> Q s') ->
  cwp (fun _ => True) (item_recovery_cb (item_of it (at_ c pre))) (fun r s' => r.1 = RES_CONT /\ Q s') s.
Proof using mem_ok.
  intros Hc Hb Hits Hold Hl Hk Ho Hne Eb HQ. pose proof (bk_wf _ _ _ _ Hb) as Hw. pose proof Hw as Hw'. rewrite Hits in Hw. rewrite Hold in Hw'.
  apply Forall_app in Hw as [_ [Hwi _]%Forall_cons]. apply Forall_app in Hw' as [_ [Hwd _]%Forall_cons]. pose proof (log_len_nonneg a).
  destruct (block_log _ _ _ _ _ _ Hb Hold) as [Hh _]. pose proof (bk_room _ _ _ _ Hb) as Hr. rewrite Hold, log_len_app, log_len_cons in Hr by done.
  pose proof (ilen_range d Hwd). pose proof (log_len_nonneg e).
  unfold item_recovery_cb. apply cwp_bind, cwp_malloc; [done|]. intros s1 [Ef1 Eg1]. cbn [negb item_of it_pos it_len it_hdr item_hdr h_crc h_origin_off]. apply cwp_bind.
  eapply cwp_read; [rewrite Ef1; by eapply item_store_read|]. cbn [fst snd]. change (negb (0 =? RES_OK)) with false. cbn iota.
  rewrite Z.eqb_refl. apply cwp_bind. eapply (cwp_mono _ _ (fun _ s' => Q s')); [|intros [] s2 Hs2; by apply cwp_ret]. rewrite Ho.
  destruct (Z.eqb_spec (at_ c a) 0) as [E|E]; [unfold is_block in Hc; lia|]. destruct (Z.eqb_spec (at_ c pre) (at_ c a)); [done|]. cbn [negb andb].
  apply cwp_bind. eapply (cwp_mono _ _ (fun _ s' => Q s')); [|intros r s2 Hs2; by apply cwp_ret]. cbn [kv_item_del]. unfold kv_orig_remove.
  cbn [item_of it_hdr item_hdr h_origin_off h_key_len it_pos]. rewrite Ho. apply cwp_bind.
  destruct (item_header _ _ _ _ Hwd Hh) as (l & Er & Eh); [unfold is_block in Hc; lia|unfold KV_TOTAL_SIZE; unfold is_block in Hc; lia|].
  eapply cwp_read; [rewrite Ef1; exact Er|]. cbn [fst snd]. rewrite Eh. change (negb (0 =? RES_OK)) with false. cbn iota.
  cbn [item_hdr h_magic h_state h_key_len]. rewrite Hl, Hk, !Z.eqb_refl. cbn [negb orb]. apply cwp_bind, cwp_malloc; [done|]. intros s2 [Ef2 Eg2]. cbn [negb].
  apply cwp_bind, cwp_malloc; [done|]. intros s3 [Ef3 Eg3]. cbn [negb]. apply cwp_bind.
  eapply cwp_read; [rewrite Ef3, Ef2, Ef1, <- Hk; by eapply item_key_read|]. apply cwp_bind.
  eapply cwp_read; [rewrite Ef3, Ef2, Ef1; by eapply item_key_read|]. cbn [snd]. rewrite bool_decide_eq_true_2 by done. cbn [negb].
  eapply (del_at_gen _ c st its a d e sp); rewrite ?Ef3, ?Ef2, ?Ef1, ?Eg3, ?Eg2, ?Eg1; done.
Qed.

(** ** The scan of a block *)

(** What the scan makes of the items, [cur pre] when those of [pre] have been visited: an item has a harmless origin, or it
    replaces the version at its origin. *)
Record scan (c : Z) (f : flash) (its : list aitem) (cur : list aitem -> list aitem) : Prop := {
  sc_nil : cur [] = its;
  sc_tail pre post : its = pre ++ post -> exists pre', cur pre = pre' ++ post /\ log_len pre' = log_len pre;
  sc_dead pre it post : its = pre ++ it :: post -> ai_live it = false -> cur (pre ++ [it]) = cur pre;
  sc_live pre it post : its = pre ++ it :: post -> ai_live it = true ->
    cur (pre ++ [it]) = cur pre /\ (forall f' st, outside c f f' -> block f' c st (cur pre) -> harmless f' it) \/
    exists a d e, cur pre = a ++ d :: e /\ ai_live d = true /\ ai_key d = ai_key it /\ ai_origin it = at_ c a /\ at_ c pre <> at_ c a /\
      cur (pre ++ [it]) = a ++ kill d :: e
}.

Lemma dirtied_twice st : dirtied (dirtied st) = dirtied st.
Proof. unfold dirtied. destruct (Z.eqb_spec st BLK_STATE_USED); [done|]. by destruct (Z.eqb_spec st BLK_STATE_USED). Qed.

(** The scan of block [c]. *)
Lemma scan_ok c st its cur sp s Q : is_block c -> block (kv_flash s) c st its -> scan c (kv_flash s) its cur ->
  arr_get (block_info (kv_mgr s)) c = Some (mk_block_info sp st) ->
  (forall s' st', st' = st \/ st' = dirtied st -> (st' = BLK_STATE_USED -> cur its = its /\ Forall (fun it => ai_live it = true) its) ->
     block (kv_flash s') c st' (cur its) -> outside c (kv_flash s) (kv_flash s') ->
     kv_mgr s' = set_block_info (<[Z.to_nat c := mk_block_info (4092 - log_len its) st']> (block_info (kv_mgr s))) (kv_mgr s) -> Q None s') ->
  cwp (fun _ => True) (kv_item_traverse item_recovery_cb c) Q s.
Proof using mem_ok.
  intros Hc Hb Hsc Eb HQ. pose proof Hsc as [Hnil Htail Hdead Hlive].
  set (I := fun pre s' => exists st', (st' = st \/ st' = dirtied st) /\
    (st' = BLK_STATE_USED -> cur pre = its /\ Forall (fun it => ai_live it = true) pre) /\
    block (kv_flash s') c st' (cur pre) /\ outside c (kv_flash s) (kv_flash s') /\
    kv_mgr s' = set_block_info (<[Z.to_nat c := mk_block_info sp st']> (block_info (kv_mgr s))) (kv_mgr s)).
  assert (forall st', arr_get (<[Z.to_nat c := mk_block_info sp st']> (block_info (kv_mgr s))) c = Some (mk_block_info sp st')) as Hget.
  { intros st'. pose proof (arr_get_lt _ _ _ Eb). unfold arr_get. rewrite decide_True by lia. apply list_lookup_insert_eq. lia. }
  assert (forall st', st' = st \/ st' = dirtied st -> dirtied st' = dirtied st) as Hdd by (intros st' [-> | ->]; [done|apply dirtied_twice]).
  assert (dirtied st <> BLK_STATE_USED) as Hdu by (unfold dirtied; by destruct (Z.eqb_spec st BLK_STATE_USED)).
  apply (cwp_traverse mem_ok _ _ c its I); [done|apply Hb|apply Hb| | | | | |].
  - intros pre s1 s2 (st' & Hi) [Ef Eg]. exists st'. by rewrite Ef, Eg.
  - intros pre post s1 Hits (st' & _ & _ & Hb1 & _ & _). destruct (Htail pre post Hits) as (pre' & Ec & El).
    destruct (block_log _ _ _ _ _ _ Hb1 Ec) as [Hh He]. rewrite El in Hh. split; [done|]. rewrite Ec, log_len_app, El, <- log_len_app, <- Hits in He. done.
  - intros pre it post s1 Hits Hl (st' & Hst & Hu & Hb1 & Hfr & Eg). destruct (Htail pre _ Hits) as (pre' & Ec & El).
    replace (at_ c pre) with (at_ c pre') by lia. destruct (Hlive pre it post Hits Hl) as [[Ecur Hh]|(a & d & e & Ea & Hld & Hk & Ho & Hne & Ecur)].
    + eapply cwp_mono; [eapply (recovery_keep c st' (cur pre) pre' it post s1); [done|done|done|by eapply Hh]|].
      intros r s2 [E [Ef2 Eg2]]. right. split; [done|]. exists st'. rewrite Ef2, Eg2, Ecur. split; [done|]. split; [|done].
      intros E'. destruct (Hu E'). split; [done|]. apply Forall_app. auto.
    + eapply cwp_mono; [eapply (recovery_replace c st' (cur pre) a d e pre' it post sp s1 (I (pre ++ [it]))); try done; [lia|by rewrite Eg; apply Hget|]|].
      * intros s2 Hb2 Hfr2 Eg2. exists (dirtied st). rewrite (Hdd st' Hst) in Hb2, Eg2. split; [by right|]. split; [done|]. rewrite Ecur. split; [done|].
        split; [intros x Hx; by rewrite Hfr2, Hfr|]. rewrite Eg2, Eg. unfold set_block_info. cbn. by rewrite list_insert_insert_eq.
      * intros r s2 [E HI]. right. split; [exact E|exact HI].
  - intros pre it post s1 Hits Hl (st' & Hst & Hu & Hb1 & Hfr & Eg). pose proof (Hdead pre it post Hits Hl) as Ecur.
    eapply (mark_dirty_ok _ c st' (cur pre) sp); [done|done|by rewrite Eg; apply Hget|done|]. intros s2 Hb2 Hfr2 Eg2. exists (dirtied st).
    rewrite (Hdd st' Hst) in Hb2, Eg2. split; [by right|]. split; [done|]. rewrite Ecur. split; [done|].
    split; [intros x Hx; rewrite Hfr2 by lia; by apply Hfr|]. rewrite Eg2, Eg. unfold set_block_info. cbn. by rewrite list_insert_insert_eq.
  - intros s1 (st' & Hst & Hu & Hb1 & Hfr & Eg). eapply cwp_upd_block; [by rewrite Eg; apply Hget|]. intros s2 Ef2 Eg2. eapply (HQ s2 st'); [done|done|by rewrite Ef2|by rewrite Ef2|].
    rewrite Eg2, Eg. unfold set_block_info. cbn. by rewrite list_insert_insert_eq.
  - exists st. split; [by left|]. split; [by intros|]. rewrite Hnil. split; [done|]. split; [done|].
    rewrite list_insert_id; [by rewrite mgr_block_info|]. by apply arr_get_Some in Eb as [_ Eb].
Qed.

(** ** The scan of the store *)

(** What the scan finds in block [c]: no block, which is formatted, or one with the state [st], whose items become [its]. *)
Definition entry (f : flash) (c st : Z) (its : list aitem) : Prop :=
  byte_at f (c * 4096) <> BLK_MAGIC_NUM /\ st = BLK_STATE_CLEAN /\ its = [] \/
  exists its0 cur, block f c st its0 /\ scan c f its0 cur /\ cur its0 = its /\ INVALID_BLK_STATE st = false.

(** The state of the block after the scan. *)
Definition after (st st' : Z) (its : list aitem) : Prop :=
  (st' = st \/ st' = dirtied st) /\ (st' = BLK_STATE_USED -> Forall (fun it => ai_live it = true) its).

Definition empty_clean (st : Z) (its : list aitem) : Prop := st = BLK_STATE_CLEAN /\ log_len its = 0.

#[global] Instance empty_clean_dec st its : Decision (empty_clean st its).
Proof. unfold empty_clean. apply _. Defined.

(** The blocks that are marked clean and hold items. *)
Definition add_unclean (c st : Z) (its : list aitem) (l : list Z) : list Z :=
  if decide (st = BLK_STATE_CLEAN /\ log_len its <> 0) then c :: l else l.

Lemma scan_len c f its cur : scan c f its cur -> log_len (cur its) = log_len its.
Proof. intros Hsc. destruct (sc_tail _ _ _ _ Hsc its []) as (pre' & E & El); [by rewrite app_nil_r|]. by rewrite E, app_nil_r. Qed.

Lemma header_read f c : is_block c -> exists r, hal_flash_read f (c * 4096) BLK_HEADER_SIZE = (0, r) /\
  nth 0 r 0 = byte_at f (c * 4096) /\ nth 1 r 0 = byte_at f (c * 4096 + 1).
Proof.
  intros Hc. eexists. split; [apply read_ok; unfold KV_TOTAL_SIZE, BLK_HEADER_SIZE; unfold is_block in Hc; lia|].
  change (Z.to_nat BLK_HEADER_SIZE) with 4%nat. cbn -[byte_at Z.add Z.of_nat Z.mul]. by rewrite Z.add_0_r.
Qed.

Lemma init_scan_entry c st its b l unclean s Q : is_block c -> entry (kv_flash s) c st its -> arr_get (block_info (kv_mgr s)) c = Some b ->
  0 <= clean_blk_nums (kv_mgr s) <= 1 ->
  (forall s' st', after st st' its -> block (kv_flash s') c st' its -> outside c (kv_flash s) (kv_flash s') ->
     block_info (kv_mgr s') = <[Z.to_nat c := mk_block_info (4092 - log_len its) st']> (block_info (kv_mgr s)) ->
     clean_blk_nums (kv_mgr s') = clean_blk_nums (kv_mgr s) + (if decide (empty_clean st its) then 1 else 0) ->
     cwp (fun _ => True) (init_scan l (add_unclean c st its unclean)) Q s') ->
  cwp (fun _ => True) (init_scan (c :: l) unclean) Q s.
Proof using mem_ok.
  intros Hc He Eb Hn HQ. cbn [init_scan]. rewrite block_start by done. apply cwp_bind. destruct (header_read (kv_flash s) c Hc) as (r & Er & E0 & E1).
  eapply cwp_read; [exact Er|]. cbn [snd]. rewrite E0, E1. destruct He as [(Hm & -> & ->)|(its0 & cur & Hb & Hsc & <- & Hv)].
  - destruct (Z.eqb_spec (byte_at (kv_flash s) (c * 4096)) BLK_MAGIC_NUM); [done|]. cbn [andb]. apply cwp_bind. eapply format_ok; [done|exact Eb|done|done|].
    intros s' Hb' Hfr Eg. change (negb (RES_OK =? RES_OK)) with false. cbn iota. apply (HQ s' BLK_STATE_CLEAN); [by split; [left|]|done|done|by rewrite Eg|].
    rewrite Eg, decide_True by done. cbn. unfold u8. by rewrite wrap_small by lia.
  - rewrite (bk_magic _ _ _ _ Hb), (bk_state _ _ _ _ Hb), Hv, Z.eqb_refl. cbn [andb negb]. apply cwp_bind. eapply cwp_upd_block; [exact Eb|]. intros s1 Ef1 Eg1.
    pose proof (arr_get_lt _ _ _ Eb) as Hlt. apply cwp_bind. eapply (scan_ok c st its0 cur (bi_space b)); [done|by rewrite Ef1|by rewrite Ef1| |].
    { rewrite Eg1. cbn. unfold arr_get. rewrite decide_True by lia. apply list_lookup_insert_eq. lia. }
    intros s2 st' Hst Hu Hb2 Hfr2 Eg2. rewrite Eg1 in Eg2. cbn in Eg2. unfold set_block_info in Eg2. cbn in Eg2. rewrite list_insert_insert_eq in Eg2. rewrite Ef1 in Hfr2.
    pose proof (scan_len _ _ _ _ Hsc) as El. rewrite <- El in Eg2. assert (after st st' (cur its0)) as Haf.
    { split; [done|]. intros E. destruct (Hu E) as [-> ?]. done. }
    destruct (Z.eqb_spec st BLK_STATE_CLEAN) as [->|Hne].
    + apply cwp_bind. eapply cwp_get_block; [rewrite Eg2; cbn; unfold arr_get; rewrite decide_True by lia; apply list_lookup_insert_eq; lia|]. cbn [bi_space].
      change (BLK_SIZE - BLK_HEADER_SIZE) with 4092. destruct (Z.eqb_spec (4092 - log_len (cur its0)) 4092); cbn [negb].
      * apply cwp_bind, cwp_vput. intros s3 Ef3 Eg3. unfold add_unclean in HQ. rewrite (decide_False (P := _ /\ _)) in HQ by lia.
        apply (HQ s3 st'); [done|by rewrite Ef3|by rewrite Ef3|by rewrite Eg3, Eg2|]. rewrite Eg3, Eg2, decide_True by (split; [done|lia]). cbn. unfold u8.
        by rewrite wrap_small by lia.
      * unfold add_unclean in HQ. rewrite (decide_True (P := _ /\ _)) in HQ by (split; [done|lia]). apply (HQ s2 st'); [done|done|done|by rewrite Eg2|].
        rewrite Eg2, decide_False by (intros [_ ?]; lia). cbn. lia.
    + unfold add_unclean in HQ. rewrite (decide_False (P := _ /\ _)) in HQ by (by intros [? _]). apply (HQ s2 st'); [done|done|done|by rewrite Eg2|].
      rewrite Eg2, decide_False by (by intros [? _]). cbn. lia.
Qed.

(** Both blocks are scanned. *)
Lemma init_scan_two st0 its0 st1 its1 b0 b1 s Q : entry (kv_flash s) 0 st0 its0 -> block_info (kv_mgr s) = [b0; b1] -> clean_blk_nums (kv_mgr s) = 0 ->
  (forall f st', outside 0 (kv_flash s) f -> block f 0 st' its0 -> entry f 1 st1 its1) ->
  (forall s' st0' st1', after st0 st0' its0 -> after st1 st1' its1 -> block (kv_flash s') 0 st0' its0 -> block (kv_flash s') 1 st1' its1 ->
     block_info (kv_mgr s') = [mk_block_info (4092 - log_len its0) st0'; mk_block_info (4092 - log_len its1) st1'] ->
     clean_blk_nums (kv_mgr s') = (if decide (empty_clean st0 its0) then 1 else 0) + (if decide (empty_clean st1 its1) then 1 else 0) ->
     Q (inr (add_unclean 1 st1 its1 (add_unclean 0 st0 its0 []))) s') ->
  cwp (fun _ => True) (init_scan blocks []) Q s.
Proof using mem_ok.
  intros He0 Hbi Hn He1 HQ. change blocks with [0; 1]. eapply (init_scan_entry 0 st0 its0 b0); [by left|done|by rewrite Hbi|lia|].
  intros s1 st0' Ha0 Hb0 Hfr0 Eb1 En1. rewrite Hbi in Eb1. cbn in Eb1.
  eapply (init_scan_entry 1 st1 its1 b1); [by right|by eapply He1|by rewrite Eb1|rewrite En1; case_decide; lia|].
  intros s2 st1' Ha1 Hb1 Hfr1 Eb2 En2. cbn [init_scan]. apply cwp_ret. apply (HQ s2 st0' st1'); [done|done| |done|by rewrite Eb2, Eb1|lia].
  eapply block_frame; [|exact Hb0]. intros x Hx. apply Hfr1. lia.
Qed.

(** ** The rest of the start-up *)

(** [kv_init] behind the loop that handles the blocks that are not clean. *)
Definition kv_place : V Z :=
  n ← vget clean_blk_nums;
  ret ← (if n =? 0 then kv_block_format 0 else mret RES_OK);
  if negb (ret =? RES_OK) then mret ret
  else
    n ← vget clean_blk_nums;
    (if n =? BLK_NUMS then
       vput (set_write_pos BLK_HEADER_SIZE);;
       r ← kv_state_set (Z.land BLK_HEADER_SIZE BLK_OFF_MASK) BLK_STATE_USED;
       if r =? 0 then
         upd_block 0 (set_state BLK_STATE_USED);;
         vput (fun g => set_clean_blk_nums (u8 (clean_blk_nums g - 1)) g)
       else mret tt
     else init_write_pos blocks);;
    mret RES_OK.

Lemma kv_init_place : kv_init =
  (u ← init_scan blocks [];
   match u with
   | inl ret => mret ret
   | inr unclean => ret ← init_unclean unclean; if negb (ret =? RES_OK) then mret ret else kv_place
   end).
Proof. done. Qed.

Lemma init_write_pos_ok C c x y s Q : is_block c -> block_info (kv_mgr s) = two c x y ->
  bi_state x = BLK_STATE_USED \/ bi_state x = BLK_STATE_DIRTY -> bi_state y = BLK_STATE_CLEAN ->
  (forall s', kv_flash s' = kv_flash s -> kv_mgr s' = set_write_pos (u16 (c * 4096 + 4096 - bi_space x)) (kv_mgr s) -> Q tt s') ->
  cwp C (init_write_pos blocks) Q s.
Proof.
  intros Hc Hbi Hx Hy HQ. change blocks with [0; 1]. cbn [init_write_pos].
  assert ((bi_state x =? BLK_STATE_USED) || (bi_state x =? BLK_STATE_DIRTY) = true) as Ex by (by destruct Hx as [-> | ->]).
  destruct Hc as [-> | ->]; apply cwp_bind; (eapply cwp_get_block; [by rewrite Hbi|]); cbn [two Z.eqb].
  - rewrite Ex. apply cwp_bind. eapply cwp_get_block; [by rewrite Hbi|]. cbn. rewrite Hy, Z.eqb_refl. by apply cwp_vput.
  - rewrite Hy. cbn. apply cwp_bind. eapply cwp_get_block; [by rewrite Hbi|]. rewrite Ex. apply cwp_bind. eapply cwp_get_block; [by rewrite Hbi|].
    rewrite Hy, Z.eqb_refl. by apply cwp_vput.
Qed.

Lemma kv_place_used C c st its s : image (kv_flash s) c st its ->
  block_info (kv_mgr s) = two c (mk_block_info (4092 - log_len its) st) (mk_block_info 4092 BLK_STATE_CLEAN) -> clean_blk_nums (kv_mgr s) = 1 ->
  Forall (fun it => ai_live it = true) its \/ st = BLK_STATE_DIRTY ->
  cwp C kv_place (fun r s' => r = RES_OK /\ kv_inv s' c st its) s.
Proof.
  intros Him Hbi Hn Hd. pose proof Him as [Hc Hst Hb Hbo]. pose proof (bk_room _ _ _ _ Hb). pose proof (log_len_nonneg its). unfold kv_place.
  apply cwp_bind, cwp_vget. rewrite Hn. apply cwp_bind, cwp_ret. change (negb (RES_OK =? RES_OK)) with false. cbn iota. apply cwp_bind, cwp_vget. rewrite Hn.
  apply cwp_bind. change (1 =? BLK_NUMS) with false. cbn iota. eapply init_write_pos_ok; [done|exact Hbi|done|done|]. intros s' Ef Eg. apply cwp_ret. split; [done|].
  split; [by rewrite Ef|rewrite Eg; split; cbn; [done| |done]|done]. unfold u16. rewrite wrap_small by (unfold is_block in Hc; lia). lia.
Qed.

(** Both blocks are empty. *)
Lemma kv_place_empty C s : C (kv_flash s) -> block (kv_flash s) 0 BLK_STATE_CLEAN [] -> block (kv_flash s) 1 BLK_STATE_CLEAN [] ->
  block_info (kv_mgr s) = [mk_block_info 4092 BLK_STATE_CLEAN; mk_block_info 4092 BLK_STATE_CLEAN] -> clean_blk_nums (kv_mgr s) = 2 ->
  cwp C kv_place (fun r s' => r = RES_OK /\ kv_inv s' 0 BLK_STATE_USED []) s.
Proof.
  intros HC Hb0 Hb1 Hbi Hn. unfold kv_place. apply cwp_bind, cwp_vget. rewrite Hn. apply cwp_bind, cwp_ret. change (negb (RES_OK =? RES_OK)) with false. cbn iota.
  apply cwp_bind, cwp_vget. rewrite Hn. apply cwp_bind. change (2 =? BLK_NUMS) with true. cbn iota. apply cwp_bind, cwp_vput. intros s1 Ef1 Eg1. apply cwp_bind.
  change (Z.land BLK_HEADER_SIZE BLK_OFF_MASK) with (0 * 4096). apply cwp_state_set; [lia|done|done|by rewrite Ef1, (bk_state _ _ _ _ Hb0)|by rewrite Ef1|].
  intros s2 Hm2 Hf2. change (0 =? 0) with true. cbn iota. rewrite Ef1 in Hf2. apply cwp_bind. eapply cwp_upd_block; [rewrite Hm2, Eg1; cbn; by rewrite Hbi|].
  intros s3 Ef3 Eg3. apply cwp_vput. intros s4 Ef4 Eg4. apply cwp_ret. split; [done|]. split; [|rewrite Eg4, Eg3, Hm2, Eg1; split; cbn; [by rewrite Hbi|done|by rewrite Hn]|by left].
  rewrite Ef4, Ef3. split; [by left|by left|by eapply block_mark|]. eapply block_frame; [|exact Hb1]. intros x Hx. rewrite Hf2, decide_False by lia. done.
Qed.

(** A copy that was not finished is thrown away. *)
Lemma unclean_partial c its l s : is_block c -> block (kv_flash s) c BLK_STATE_DIRTY its -> block (kv_flash s) (1 - c) BLK_STATE_CLEAN l ->
  block_info (kv_mgr s) = two c (mk_block_info (4092 - log_len its) BLK_STATE_DIRTY) (mk_block_info (4092 - log_len l) BLK_STATE_CLEAN) -> clean_blk_nums (kv_mgr s) = 0 ->
  cwp (fun _ => True) (ret ← init_unclean [1 - c]; if negb (ret =? RES_OK) then mret ret else kv_place)
    (fun r s' => r = RES_OK /\ kv_inv s' c BLK_STATE_DIRTY its) s.
Proof.
  intros Hc Hb Hbo Hbi Hn. apply cwp_bind. cbn [init_unclean]. apply cwp_bind, cwp_vget. rewrite Hn. change (KV_GC_RESERVED <=? 0) with false. cbn iota. apply cwp_bind.
  eapply format_ok; [by apply is_block_other|by rewrite Hbi; apply two_get_other|done|done|]. intros s1 Hb1 Hfr Eg. cbn. apply cwp_ret. cbn.
  apply kv_place_used; [split; [done|by right| |done]|rewrite Eg; cbn; by rewrite Hbi, two_set_other|by rewrite Eg; cbn; rewrite Hn|by right].
  eapply block_frame; [|exact Hb]. intros x Hx. apply Hfr. unfold is_block in Hc. lia.
Qed.

(** A finished copy is taken into use. *)
Lemma unclean_moved c l s : is_block c -> block (kv_flash s) c BLK_STATE_CLEAN [] -> block (kv_flash s) (1 - c) BLK_STATE_CLEAN l ->
  block_info (kv_mgr s) = two c (mk_block_info 4092 BLK_STATE_CLEAN) (mk_block_info (4092 - log_len l) BLK_STATE_CLEAN) -> clean_blk_nums (kv_mgr s) = 1 ->
  cwp (fun _ => True) (ret ← init_unclean [1 - c]; if negb (ret =? RES_OK) then mret ret else kv_place)
    (fun r s' => r = RES_OK /\ kv_inv s' (1 - c) BLK_STATE_DIRTY l) s.
Proof.
  intros Hc Hb Hbo Hbi Hn. apply cwp_bind. cbn [init_unclean]. apply cwp_bind, cwp_vget. rewrite Hn. change (KV_GC_RESERVED <=? 1) with true. cbn iota. apply cwp_bind.
  rewrite block_start by (by apply is_block_other).
  apply cwp_state_set; [unfold is_block in Hc; lia|unfold KV_TOTAL_SIZE; unfold is_block in Hc; lia|done|by rewrite (bk_state _ _ _ _ Hbo)|done|]. intros s1 Hm1 Hf1. cbn.
  apply cwp_bind. eapply cwp_upd_block; [rewrite Hm1, Hbi; by apply two_get_other|]. intros s2 Ef2 Eg2. apply cwp_ret. cbn.
  apply kv_place_used; [|rewrite Eg2, Hm1; cbn; by rewrite Hbi, two_set_other, two_swap|by rewrite Eg2, Hm1|by right].
  rewrite Ef2. split; [by apply is_block_other|by right|by eapply block_mark|]. replace (1 - (1 - c)) with c by lia. eapply block_frame; [|exact Hb].
  intros x Hx. rewrite Hf1, decide_False by (unfold is_block in Hc; lia). done.
Qed.

(** [aos_kv_init] when [kv_init] succeeds. *)
Lemma aos_kv_init_ok C s Q : kv_initialize (kv_mgr s) = 0 ->
  (forall s', kv_flash s' = kv_flash s -> kv_mgr s' = zero_mgr ->
     cwp C kv_init (fun r s' => r = RES_OK /\ exists c st its, kv_inv s' c st its /\ Q c st its) s') ->
  cwp C aos_kv_init (fun r s' => r = RES_OK /\ exists c st its, kv_inv s' c st its /\ Q c st its) s.
Proof.
  intros Hi Hk. unfold aos_kv_init. apply cwp_bind, cwp_vget. rewrite Hi. change (BLK_NUMS <=? KV_GC_RESERVED) with false. cbn [negb Z.eqb].
  apply cwp_bind, cwp_vput. intros s1 Ef1 Eg1. apply cwp_bind. eapply cwp_mono; [by apply Hk|]. intros r s2 (-> & c & st & its & Hinv & HQ).
  change (negb (RES_OK =? RES_OK)) with false. cbn iota. apply cwp_bind, cwp_vput. intros s3 Ef3 Eg3.
  assert (kv_inv s3 c st its) as Hinv3. { eapply kv_inv_ram; [exact Ef3| |exact Hinv]. intros c' st' len [? ? ?]. rewrite Eg3. by split. }
  pose proof Hinv3 as [[Hc _ Hb _] [Hbi Hwp Hn] _]. pose proof (bk_room _ _ _ _ Hb). pose proof (log_len_nonneg its).
  apply cwp_bind, cwp_vget. rewrite Hwp, <- Z.add_assoc, shift_pos by (done || lia). apply cwp_bind. eapply cwp_get_block; [rewrite Hbi; by apply two_get|].
  apply cwp_bind, cwp_vget. apply cwp_bind. destruct (_ && _).
  - apply trigger_gc_ok. intros s4 Ef4 Hg Hr. apply cwp_ret. split; [done|]. exists c, st, its. split; [by eapply kv_inv_ram|done].
  - apply cwp_ret, cwp_ret. split; [done|]. by exists c, st, its.
Qed.

End recover.
