(* ===== verification/KvCrash.v ===== *)
(** * The key-value store: what a power loss leaves

    The flash a power loss leaves during a call has the items of before, or those
    of after, or the new version of an item beside the old one, or an unfinished copy
    of the items, or a finished one.  Start-up makes a store of each of them. *)

From S2P Require Import Prelude Kv KvLog KvWp KvOps KvCalls KvRecover.
Local Open Scope Z_scope.

Section crash.
Context `{HalFlash} `{AosMem} (mem_ok : forall n, aos_malloc_ok n = true).

Notation at_ c pre := (c * 4096 + 4 + log_len pre).

Notation outside c f f' := (forall x, ~ (c * 4096 <= x < c * 4096 + 4096) -> byte_at f' x = byte_at f x).

(** ** Origins *)

(** The origin is a deleted item of the same block. *)
Definition org_dead (c : Z) (its : list aitem) (it : aitem) : Prop :=
  exists pre d post, its = pre ++ d :: post /\ ai_live d = false /\ ai_origin it = at_ c pre.

(** The origin is in block [b]. *)
Definition org_in (b : Z) (it : aitem) : Prop := b * 4096 + 4 <= ai_origin it < b * 4096 + 4096.

(** The origins of the live items of [l]: none, or a deleted item of block [c]. *)
Definition fresh (c : Z) (its l : list aitem) : Prop :=
  Forall (fun it => ai_live it = true -> ai_origin it = 0 \/ org_dead c its it) l.

(** The origins in the block in use: none, or a deleted item of the block, or, unless [fr], in the other block. *)
Definition orgs (fr : bool) (c : Z) (its : list aitem) : Prop :=
  Forall (fun it => ai_live it = true -> ai_origin it = 0 \/ org_dead c its it \/ (fr = false /\ org_in (1 - c) it)) its.

Lemma orgs_fresh c its : orgs true c its -> fresh c its its.
Proof. intros Ho. eapply Forall_impl; [exact Ho|]. cbn. intros it Hx Hl. destruct (Hx Hl) as [?|[?|[? _]]]; [by left|by right|done]. Qed.

Lemma harmless_dead f c st its it : block f c st its -> org_dead c its it -> harmless f it.
Proof.
  intros Hb (pre & d & post & Hits & Hd & Ho). right. right. rewrite Ho. destruct (block_log _ _ _ _ _ _ Hb Hits) as [Hh _].
  rewrite enc_items_cons in Hh. apply holds_app in Hh as [Hh _]. change 1 with (Z.of_nat 1).
  rewrite (Hh 1%nat ITEM_STATE_DELETE); [done|]. unfold enc_item, store_bytes, item_hdr. cbn. by rewrite Hd.
Qed.

Lemma harmless_free f b st it : block f b st [] -> org_in b it -> harmless f it.
Proof. intros Hb Ho. right. left. unfold org_in in Ho. rewrite (bk_free _ _ _ _ Hb); [done|]. change (log_len []) with 0. lia. Qed.

Lemma org_dead_in c f st its it : block f c st its -> org_dead c its it -> org_in c it.
Proof.
  intros Hb (pre & d & post & Hits & Hd & Ho). unfold org_in. rewrite Ho. pose proof (bk_room _ _ _ _ Hb) as Hr. pose proof (bk_wf _ _ _ _ Hb) as Hw.
  rewrite Hits in Hr, Hw. apply Forall_app in Hw as [_ [Hwd _]%Forall_cons]. rewrite log_len_app, log_len_cons in Hr by done.
  pose proof (log_len_nonneg pre). pose proof (log_len_nonneg post). pose proof (ilen_range d Hwd). lia.
Qed.

Lemma org_dead_app c its l it : org_dead c its it -> org_dead c (its ++ l) it.
Proof. intros (pre & d & post & -> & Hd & Ho). exists pre, d, (post ++ l). by rewrite <- app_assoc. Qed.

(** Deleting an item keeps the deleted ones. *)
Lemma org_dead_kill c pre d post it : item_wf d -> org_dead c (pre ++ d :: post) it -> org_dead c (pre ++ kill d :: post) it.
Proof.
  intros Hw (a & x & e & Heq & Hx & Ho). apply app_eq_inv in Heq as [(k & -> & E)|(k & -> & E)].
  - destruct k as [|y k]; injection E as -> ->.
    + exists a, (kill d), post. by rewrite app_nil_r.
    + exists a, y, (k ++ kill d :: post). by rewrite <- app_assoc.
  - destruct k as [|y k]; injection E as -> ->.
    + exists pre, (kill x), e. rewrite app_nil_r in Ho. done.
    + exists (pre ++ kill y :: k), x, e. split; [by rewrite <- app_assoc|]. split; [done|]. rewrite Ho, !log_len_app, !log_len_cons; auto using kill_wf.
Qed.

Lemma orgs_snoc fr c its it : orgs fr c its -> (ai_live it = true -> ai_origin it = 0 \/ org_dead c (its ++ [it]) it \/ (fr = false /\ org_in (1 - c) it)) -> orgs fr c (its ++ [it]).
Proof.
  intros Ho Hi. apply Forall_app. split; [|auto]. eapply Forall_impl; [exact Ho|]. cbn. intros x Hx Hl. destruct (Hx Hl) as [?|[?|?]]; auto using org_dead_app.
Qed.

Lemma orgs_kill fr c pre d post : item_wf d -> orgs fr c (pre ++ d :: post) -> orgs fr c (pre ++ kill d :: post).
Proof.
  intros Hw [H1 [Hd H2]%Forall_cons]%Forall_app. apply Forall_app. split; [|apply Forall_cons; split; [done|]].
  - eapply Forall_impl; [exact H1|]. cbn. intros x Hx Hl. destruct (Hx Hl) as [?|[?|?]]; auto using org_dead_kill.
  - eapply Forall_impl; [exact H2|]. cbn. intros x Hx Hl. destruct (Hx Hl) as [?|[?|?]]; auto using org_dead_kill.
Qed.

(** ** The scans *)

Lemma scan_keep c f its : (forall f' st, outside c f f' -> block f' c st its -> Forall (fun it => ai_live it = true -> harmless f' it) its) ->
  scan c f its (fun _ => its).
Proof.
  intros Hh. split; [done| |done|].
  - intros pre post Hits. by exists pre.
  - intros pre it post Hits Hl. left. split; [done|]. intros f' st Hfr Hb. specialize (Hh f' st Hfr Hb). rewrite Hits in Hh.
    apply Forall_app in Hh as [_ [Hx _]%Forall_cons]. auto.
Qed.

Lemma scan_nil c f : scan c f [] (fun _ => []).
Proof. by apply scan_keep. Qed.

(** The other block is not touched. *)
Lemma other_frame c f f' st its : is_block c -> outside c f f' -> block f (1 - c) st its -> block f' (1 - c) st its.
Proof. intros Hc Hfr. apply block_frame. intros x Hx. apply Hfr. unfold is_block in Hc. lia. Qed.

Lemma scan_orgs fr c f st its : is_block c -> block f (1 - c) st [] -> orgs fr c its -> scan c f its (fun _ => its).
Proof.
  intros Hc Hbo Ho. apply scan_keep. intros f' st' Hfr Hb. eapply Forall_impl; [exact Ho|]. cbn. intros it Hx Hl.
  destruct (Hx Hl) as [?|[?|[_ ?]]]; [by left|by eapply harmless_dead|]. eapply harmless_free; [by eapply other_frame|done].
Qed.

Lemma scan_fresh c f its : fresh c its its -> scan c f its (fun _ => its).
Proof.
  intros Ho. apply scan_keep. intros f' st' Hfr Hb. eapply Forall_impl; [exact Ho|]. cbn. intros it Hx Hl. destruct (Hx Hl) as [?|?]; [by left|by eapply harmless_dead].
Qed.

(** The copies of items of block [c]. *)
Lemma scan_copies c f st its l : is_block c -> block f c st its -> fresh c its l -> scan (1 - c) f l (fun _ => l).
Proof.
  intros Hc Hb Ho. apply scan_keep. intros f' st' Hfr _. eapply Forall_impl; [exact Ho|]. cbn. intros it Hx Hl. destruct (Hx Hl) as [?|?]; [by left|].
  eapply harmless_dead; [|done]. eapply block_frame; [|exact Hb]. intros x Hy. apply Hfr. unfold is_block in Hc. lia.
Qed.

(** The new version of an item behind the old one. *)
Lemma scan_update fr c f st a d e new : is_block c -> block f (1 - c) st [] -> Forall item_wf (a ++ d :: e) -> orgs fr c (a ++ d :: e) -> ai_live d = true ->
  ai_live new = true -> ai_key d = ai_key new -> ai_origin new = at_ c a ->
  scan c f ((a ++ d :: e) ++ [new])
    (fun pre => if decide (length pre = S (length (a ++ d :: e))) then a ++ kill d :: e ++ [new] else (a ++ d :: e) ++ [new]).
Proof.
  intros Hc Hbo Hw Ho Hl Hln Hk Hor. apply Forall_app in Hw as [Hwa [Hwd Hwe]%Forall_cons]. set (old := a ++ d :: e) in *.
  assert (forall pre it post, old ++ [new] = pre ++ it :: post -> length pre <> S (length old) /\
    (length (pre ++ [it]) = S (length old) -> pre = old /\ it = new) /\ (length (pre ++ [it]) <> S (length old) -> it ∈ old)) as Hcase.
  { intros pre it post E. pose proof (f_equal length E) as El. rewrite !length_app in El. cbn in El. rewrite length_app. cbn. split; [lia|]. split.
    - intros E1. destruct post; [|cbn in El; lia]. apply app_inj_tail in E as [-> ->]. done.
    - intros E1. destruct post as [|x post _] using rev_ind; [cbn in El; lia|]. rewrite app_comm_cons, app_assoc in E. apply app_inj_tail in E as [-> ->].
      set_solver. }
  pose proof (log_len_nonneg e). pose proof (ilen_range d Hwd). split.
  - by rewrite decide_False.
  - intros pre post Hits. case_decide as E; [|by exists pre]. exists (a ++ kill d :: e ++ [new]). pose proof (f_equal length Hits) as El. rewrite !length_app in El. cbn in El.
    assert (post = []) as -> by (destruct post; [done|cbn in El; lia]). rewrite app_nil_r in Hits |- *. split; [done|]. rewrite <- Hits. unfold old.
    rewrite <- app_assoc. change ((d :: e) ++ [new]) with (d :: (e ++ [new])). rewrite !(log_len_app a), !log_len_cons by auto using kill_wf. done.
  - intros pre it post Hits Hd. destruct (Hcase _ _ _ Hits) as (Ha & Hb & _). rewrite (decide_False (P := length pre = _)) by done. rewrite decide_False; [done|].
    intros E. destruct (Hb E) as [_ ->]. congruence.
  - intros pre it post Hits Hli. destruct (Hcase _ _ _ Hits) as (Ha & Hb & Hc'). rewrite (decide_False (P := length pre = _)) by done. case_decide as E.
    + right. destruct (Hb E) as [-> ->]. exists a, d, (e ++ [new]). unfold old. rewrite log_len_app, log_len_cons by done.
      split; [by rewrite <- app_assoc|]. repeat (split; [done|]). split; [lia|done].
    + left. split; [done|]. intros f' st' Hfr Hbk. unfold orgs in Ho. rewrite Forall_forall in Ho. destruct (Ho it (Hc' E) Hli) as [?|[?|[_ ?]]]; [by left| |].
      * eapply harmless_dead; [exact Hbk|]. by apply org_dead_app.
      * eapply harmless_free; [by eapply other_frame|done].
Qed.

(** ** The images *)

Lemma block_entry f c st its cur : block f c st its -> scan c f its cur -> INVALID_BLK_STATE st = false -> entry f c st (cur its).
Proof. intros Hb Hsc Hv. right. by exists its, cur. Qed.

Lemma after_clean st its : after BLK_STATE_CLEAN st its -> st = BLK_STATE_CLEAN.
Proof. by intros [[-> | ->] _]. Qed.

Lemma after_dirty st its : after BLK_STATE_DIRTY st its -> st = BLK_STATE_DIRTY.
Proof. by intros [[-> | ->] _]. Qed.

Lemma after_used st st' its : st = BLK_STATE_USED \/ st = BLK_STATE_DIRTY -> after st st' its ->
  (st' = BLK_STATE_USED \/ st' = BLK_STATE_DIRTY) /\ (Forall (fun it => ai_live it = true) its \/ st' = BLK_STATE_DIRTY).
Proof.
  intros Hst [Hst' Hl]. assert (st' = BLK_STATE_USED \/ st' = BLK_STATE_DIRTY) as Hor by (destruct Hst as [-> | ->], Hst' as [-> | ->]; by auto).
  split; [done|]. destruct Hor as [E|E]; auto.
Qed.

Lemma add_unclean_used c st its l : st = BLK_STATE_USED \/ st = BLK_STATE_DIRTY -> add_unclean c st its l = l.
Proof. intros Hst. unfold add_unclean. rewrite decide_False; [done|]. intros [E _]. by destruct Hst as [-> | ->]. Qed.

Lemma empty_clean_used st its : st = BLK_STATE_USED \/ st = BLK_STATE_DIRTY -> ~ empty_clean st its.
Proof. by intros [-> | ->] [? _]. Qed.

Lemma valid_used st : st = BLK_STATE_USED \/ st = BLK_STATE_DIRTY -> INVALID_BLK_STATE st = false.
Proof. by intros [-> | ->]. Qed.

Lemma log_len_pos its : Forall item_wf its -> its <> [] -> log_len its <> 0.
Proof. destruct its as [|it l]; [done|]. intros [Hw _]%Forall_cons _. rewrite log_len_cons by done. pose proof (ilen_range it Hw). pose proof (log_len_nonneg l). lia. Qed.

(** [aos_kv_init] makes a store with the items [its]. *)
Definition boots (f : flash) (c : Z) (its : list aitem) : Prop := forall s, kv_flash s = f -> kv_initialize (kv_mgr s) = 0 ->
  cwp (fun _ => True) aos_kv_init (fun r s' => r = RES_OK /\ exists c' st its', kv_inv s' c' st its' /\ ((c' = c \/ its = []) /\ its' = its)) s.

Lemma boots_kv_init f c its : (forall s, kv_flash s = f -> block_info (kv_mgr s) = [mk_block_info 0 0; mk_block_info 0 0] -> clean_blk_nums (kv_mgr s) = 0 ->
    cwp (fun _ => True) kv_init (fun r s' => r = RES_OK /\ exists c' st, kv_inv s' c' st its /\ (c' = c \/ its = [])) s) -> boots f c its.
Proof.
  intros Hk s Ef Hi. apply aos_kv_init_ok; [done|]. intros s1 Ef1 Eg1. eapply cwp_mono; [apply Hk; [by rewrite Ef1|by rewrite Eg1|by rewrite Eg1]|].
  intros r s2 (-> & c' & st & Hinv & Hc). split; [done|]. by exists c', st, its.
Qed.

(** The scan of both blocks, of which only [1 - c] can be marked clean and hold items. *)
Lemma kv_init_two c sx x sy y s Q : is_block c -> block_info (kv_mgr s) = [mk_block_info 0 0; mk_block_info 0 0] -> clean_blk_nums (kv_mgr s) = 0 ->
  (sx = BLK_STATE_CLEAN -> x = []) ->
  (forall f, outside (1 - c) (kv_flash s) f -> f = kv_flash s \/ (exists st, block f (1 - c) st y) -> entry f c sx x) ->
  (forall f, outside c (kv_flash s) f -> f = kv_flash s \/ (exists st, block f c st x) -> entry f (1 - c) sy y) ->
  (forall s' sx' sy', after sx sx' x -> after sy sy' y -> block (kv_flash s') c sx' x -> block (kv_flash s') (1 - c) sy' y ->
     block_info (kv_mgr s') = two c (mk_block_info (4092 - log_len x) sx') (mk_block_info (4092 - log_len y) sy') ->
     clean_blk_nums (kv_mgr s') = (if decide (empty_clean sx x) then 1 else 0) + (if decide (empty_clean sy y) then 1 else 0) ->
     cwp (fun _ => True) (ret ← init_unclean (add_unclean (1 - c) sy y []); if negb (ret =? RES_OK) then mret ret else kv_place) Q s') ->
  cwp (fun _ => True) kv_init Q s.
Proof using mem_ok.
  intros Hc Hbi Hn Hx Ex Ey HQ. rewrite kv_init_place. apply cwp_bind.
  assert (forall b l, add_unclean b sx x l = l) as Hu by (intros b l; unfold add_unclean; rewrite decide_False; [done|]; intros [E1 E2]; by rewrite (Hx E1) in E2).
  destruct Hc as [-> | ->].
  - eapply (init_scan_two mem_ok sx x sy y); [by apply Ex; [|left]|done|done| |].
    + intros f st' Hfr Hb. apply Ey; [done|right; by exists st'].
    + intros s' st0' st1' Ha0 Ha1 Hb0 Hb1 Eb En. rewrite Hu. by apply (HQ s' st0' st1').
  - eapply (init_scan_two mem_ok sy y sx x); [by apply (Ey (kv_flash s)); [|left]|done|done| |].
    + intros f st' Hfr Hb. apply Ex; [done|right; by exists st'].
    + intros s' st0' st1' Ha0 Ha1 Hb0 Hb1 Eb En. rewrite Hu. apply (HQ s' st1' st0'); [done|done|done|done|done|lia].
Qed.

(** The block in use and an empty one. *)
Lemma boots_image f c st its cur : is_block c -> st = BLK_STATE_USED \/ st = BLK_STATE_DIRTY -> block f c st its -> block f (1 - c) BLK_STATE_CLEAN [] ->
  (forall f' st', block f' (1 - c) st' [] -> scan c f' its cur) -> boots f c (cur its).
Proof using mem_ok.
  intros Hc Hst Hb Hbo Hsc. apply boots_kv_init. intros s Ef Hbi Hn.
  eapply (kv_init_two c st (cur its) BLK_STATE_CLEAN []); [done|done|done|by destruct Hst as [-> | ->]| | |]; rewrite ?Ef.
  - intros g Hfr Hg. apply block_entry; [eapply block_frame; [|exact Hb]; intros x Hx; apply Hfr; unfold is_block in Hc; lia| |by apply valid_used].
    destruct Hg as [-> |[st' Hg]]; by eapply Hsc.
  - intros g Hfr _. apply (block_entry g (1 - c) BLK_STATE_CLEAN [] (fun _ => [])); [by eapply other_frame|apply scan_nil|done].
  - intros s' sx' sy' Ha1 Ha2 Hb1 Hb2 Eb En. apply after_clean in Ha2 as ->. destruct (after_used _ _ _ Hst Ha1) as [Hst' Hd]. apply cwp_bind, cwp_ret.
    change (negb (RES_OK =? RES_OK)) with false. cbn iota. eapply cwp_mono; [apply (kv_place_used _ c sx' (cur its)); [by split|done| |done]|].
    + rewrite En, decide_False by (by apply empty_clean_used). done.
    + intros r s2 [-> Hinv]. split; [done|]. exists c, sx'. auto.
Qed.

Lemma boots_orgs fr f c st its : image f c st its -> orgs fr c its -> boots f c its.
Proof using mem_ok. intros [Hc Hst Hb Hbo] Ho. apply (boots_image f c st its (fun _ => its)); [done..|]. intros f' st' Hbo'. by eapply scan_orgs. Qed.

Lemma boots_update fr f c st a d e new : image f c st ((a ++ d :: e) ++ [new]) -> orgs fr c (a ++ d :: e) -> ai_live d = true -> ai_live new = true ->
  ai_key d = ai_key new -> ai_origin new = at_ c a -> boots f c (a ++ kill d :: e ++ [new]).
Proof using mem_ok.
  intros [Hc Hst Hb Hbo] Ho Hl Hln Hk Hor. pose proof (bk_wf _ _ _ _ Hb) as [Hw _]%Forall_app.
  epose proof (boots_image f c st ((a ++ d :: e) ++ [new]) _ Hc Hst Hb Hbo (fun f' st' Hbo' => scan_update fr c f' st' a d e new Hc Hbo' Hw Ho Hl Hln Hk Hor)) as Hbt.
  cbn beta in Hbt. rewrite decide_True in Hbt; [done|]. rewrite (length_app _ [new]). cbn. lia.
Qed.

(** A copy that was begun. *)
Lemma boots_copying fr f c its l : copying f c its l -> fresh c its its -> fresh c its l -> orgs fr c its -> boots f c its.
Proof using mem_ok.
  intros [Hc Hb Hbo] Hf1 Hf2 Ho. destruct (decide (l = [])) as [->|Hl]; [apply (boots_orgs fr f c BLK_STATE_DIRTY); [split; [done|by right|done|done]|done]|].
  pose proof (log_len_pos l (bk_wf _ _ _ _ Hbo) Hl) as Hpos. apply boots_kv_init. intros s Ef Hbi Hn.
  eapply (kv_init_two c BLK_STATE_DIRTY its BLK_STATE_CLEAN l); [done|done|done|done| | |]; rewrite ?Ef.
  - intros g Hfr _. apply (block_entry g c _ its (fun _ => its)); [eapply block_frame; [|exact Hb]; intros x Hx; apply Hfr; unfold is_block in Hc; lia|by apply scan_fresh|done].
  - intros g Hfr Hg. apply (block_entry g (1 - c) _ l (fun _ => l)); [by eapply other_frame| |done].
    destruct Hg as [-> |[st' Hg]]; by eapply scan_copies.
  - intros s' sx' sy' Ha1 Ha2 Hb1 Hb2 Eb En. apply after_clean in Ha2 as ->. apply after_dirty in Ha1 as ->. unfold add_unclean. rewrite decide_True by done.
    eapply cwp_mono; [apply (unclean_partial c its l); [done|done|done|done|]|].
    + rewrite En, !decide_False; [done|by intros [_ ?]|by intros [? _]].
    + intros r s2 [-> Hinv]. split; [done|]. exists c, BLK_STATE_DIRTY. auto.
Qed.

(** The copy is finished and the block it was made of is erased. *)
Lemma boots_wiped f c l : wiped f c l -> Forall (fun it => ai_live it = true -> ai_origin it = 0 \/ org_in c it) l -> boots f (1 - c) l.
Proof using mem_ok.
  intros [Hc Hb Hbo] Ho. apply boots_kv_init. intros s Ef Hbi Hn.
  assert (forall g, outside (1 - c) f g -> entry g c BLK_STATE_CLEAN [] /\ forall h, outside (1 - c) g h -> Forall (fun it => ai_live it = true -> harmless h it) l) as He.
  { intros g Hfr. assert (forall x, c * 4096 <= x < c * 4096 + 4096 -> byte_at g x = byte_at f x) as Hin.
    { intros x Hx. apply Hfr. unfold is_block in Hc. lia. }
    destruct Hb as [Her|Hb].
    - split; [left; rewrite Hin, Her by lia; done|]. intros h Hfr'. eapply Forall_impl; [exact Ho|]. cbn. intros it Hx Hl. destruct (Hx Hl) as [?|Hi]; [by left|].
      right. left. unfold org_in in Hi. rewrite Hfr', Hin, Her by (unfold is_block in Hc; lia). done.
    - split; [apply (block_entry g c _ [] (fun _ => [])); [by eapply block_frame|apply scan_nil|done]|]. intros h Hfr'. eapply Forall_impl; [exact Ho|].
      cbn. intros it Hx Hl. destruct (Hx Hl) as [?|Hi]; [by left|]. eapply (harmless_free h c BLK_STATE_CLEAN); [|done]. eapply block_frame; [|exact Hb].
      intros x Hy. rewrite Hfr', Hin by (unfold is_block in Hc; lia). done. }
  eapply (kv_init_two c BLK_STATE_CLEAN [] BLK_STATE_CLEAN l); [done|done|done|done| | |]; rewrite ?Ef.
  - intros g Hfr _. by apply He.
  - intros g Hfr Hg. apply (block_entry g (1 - c) _ l (fun _ => l)); [by eapply other_frame| |done]. apply scan_keep. intros h st Hfr' _.
    destruct Hg as [-> |[st' Hg]]; [by apply (He f)|]. eapply Forall_impl; [exact Ho|]. cbn. intros it Hx Hl. destruct (Hx Hl) as [?|Hi]; [by left|].
    eapply (harmless_free h c st'); [|done]. eapply block_frame; [|exact Hg]. intros x Hy. apply Hfr'. unfold is_block in Hc. lia.
  - intros s' sx' sy' Ha1 Ha2 Hb1 Hb2 Eb En. apply after_clean in Ha1 as ->. apply after_clean in Ha2 as ->. rewrite (decide_True (P := empty_clean _ [])) in En by done.
    unfold add_unclean. destruct (decide (l = [])) as [->|Hl].
    + rewrite decide_False by (by intros [_ ?]). apply cwp_bind, cwp_ret. change (negb (RES_OK =? RES_OK)) with false. cbn iota.
      eapply cwp_mono; [apply (kv_place_empty _ s'); [done|by destruct Hc as [-> | ->]|by destruct Hc as [-> | ->]|by destruct Hc as [-> | ->]; rewrite Eb|by rewrite En]|].
      intros r s2 [-> Hinv]. split; [done|]. exists 0, BLK_STATE_USED. auto.
    + pose proof (log_len_pos l (bk_wf _ _ _ _ Hbo) Hl) as Hpos. rewrite decide_True by done.
      eapply cwp_mono; [apply (unclean_moved c l); [done|done|done|done|]|].
      * rewrite En, decide_False; [done|by intros [_ ?]].
      * intros r s2 [-> Hinv]. split; [done|]. exists (1 - c), BLK_STATE_DIRTY. auto.
Qed.

(** A flash without a block: both are formatted. *)
Lemma boots_blank f : byte_at f 0 <> BLK_MAGIC_NUM -> byte_at f 4096 <> BLK_MAGIC_NUM -> boots f 0 [].
Proof using mem_ok.
  intros Hx Hy. apply boots_kv_init. intros s Ef Hbi Hn. eapply (kv_init_two 0 BLK_STATE_CLEAN [] BLK_STATE_CLEAN []); [by left|done|done|done| | |]; rewrite ?Ef.
  - intros g Hfr _. left. split; [|done]. rewrite Hfr by lia. exact Hx.
  - intros g Hfr _. left. split; [|done]. rewrite Hfr by lia. exact Hy.
  - intros s' sx' sy' Ha1 Ha2 Hb1 Hb2 Eb En. apply after_clean in Ha1 as ->. apply after_clean in Ha2 as ->. apply cwp_bind, cwp_ret.
    change (negb (RES_OK =? RES_OK)) with false. cbn iota. eapply cwp_mono; [by apply (kv_place_empty _ s')|].
    intros r s2 [-> Hinv]. split; [done|]. exists 0, BLK_STATE_USED. auto.
Qed.

End crash.
